(* ===== verification/_CoqProject ===== *)
-Q . S2P
Prelude.v
Machine.v
FsData.v
DiskData.v
Bytes.v
State.v
Locks.v
Spinlock.v
CString.v
Kalloc.v
VM.v
PageTable.v
UserVM.v
CopyIO.v
FreeWalk.v
Sched.v
SchedProofs.v
Proc.v
Shm.v
ShmProofs.v
Mutex.v
SleepWakeup.v
ProcProofs.v
Bio.v
Print.v
Console.v
Log.v
Pipe.v
Fs.v
File.v
Fork.v
Exec.v
Sysfile.v
Syscall.v
Virtio.v
Trap.v
FsRun.v
BioProofs.v
LogProofs.v
Ulib.v
Grep.v
FsPath.v
PrintProofs.v
ConsoleProofs.v
FileProofs.v
InodeProofs.v
BitmapProofs.v
DirProofs.v
SyscallProofs.v
Asm.v
AsmProofs.v
TrapProofs.v
KernelMap.v
Sh.v
ShProofs.v
Umalloc.v
UmallocProofs.v
User.v
UserPrint.v
UserProgs.v
UserProofs.v
VirtioProofs.v
Boot.v
BootProofs.v
HostText.v
HostTextProofs.v
HostShell.v
HostShellProofs.v
HostFiles.v
HostFilesProofs.v
