(* ===== verification/Prelude.v ===== *)
(** * G9-OS-Project: verification of the xv6 kernel with its added system calls

    The repository holds a RISC-V xv6 kernel extended with six groups of system calls
    (getreadcount, getprocinfo, setpriority and getpriority with a priority scheduler,
    wait_stat with its time accounting, shared memory, and mutexes for user programs), the user
    programs that run on it, and a set of command-line utilities and a shell for a Linux host.
    This library models the kernel, part of the user programs and the Linux utilities, and
    proves the properties that make them correct.  File names are relative to
    src/Project1_xv6_custom_sys_calls/xv6-riscv/, and for the files whose name starts with
    Host to src/Project2_1_linux_commands/src/.

    ** How C is modelled

    - The kernel's global variables are one record, [kstate] (State.v), with the file system's
      part in [fsstate] (FsData.v) and the disk driver's in [vdisk] (DiskData.v).  Physical memory
      is a function from addresses to bytes (Machine.v); page tables, trapframes, pipes and the
      free list live in it, at the offsets the C structs have.  A pointer into a fixed table is an
      index, with [None] for null.
    - A kernel function is a computation of the monad [M kstate], written [K].  [Ok] is a return,
      [Panic] a call of panic(), and [Blocked] a wait that is not ended within the given bound.
      Loops are [for_loop] and [for_acc] over the values of their variable, with [Continue],
      [Break] and [Return] for the C statements.
    - Integers are of type [Z]; [u8], [u32], [u64], [s32] write out the wrap-around where the
      source computes at that width.  A char is unsigned, as on RISC-V.
    - A context switch is a parameter, the class [Env] (Sched.v): for each switch in turn, the
      state in which control comes back, or none; and, for each entry the scheduler is about to
      look at, what the other harts have done to the table meanwhile.  [env_patience] bounds the
      rounds of loops that wait for another process, and [env_junk] is what uninitialised bytes of
      the kernel stack hold.  The class [Harts] (Trap.v) says what the control registers hold when
      a process runs on after it gave up the CPU.  The class [Image] (Machine.v) gives the
      addresses the linker chooses, and [Vectors] (Trap.v) those of the assembly routines.
    - The assembly files run on a register machine, [hart] (Asm.v): registers, control registers,
      privilege mode, and memory behind the page table satp selects.  A C function they call is
      the function of the kernel's model, on the hart's control registers and memory.  Start-up
      has a state of its own, [boot] (Boot.v): the kernel's, the control registers, and the
      registers of the devices.
    - The user programs that read, print and start processes are interaction trees whose events
      are the system calls (User.v), so that a program that never ends, like init, has a meaning
      too.  [runs] says how a program ends on a kernel that is the parameter [System], and [safe]
      what every trace of a program satisfies whatever the kernel answers. The class [Files] names
      what the programs rely on when they read and print.
    - A user program or a host utility runs on a system that is a parameter too: [Os] (Sh.v),
      [Process] (Umalloc.v), [Host] (HostText.v), [ShellHost] (HostShell.v) and [HostFs]
      (HostFiles.v) are the system calls and library functions each of them calls.  What the
      theorems rely on is named in the classes [CopyLaws] and [RmLaws] (HostFilesProofs.v): what
      POSIX says of regular files and of the entries of directories, without other processes at
      work.  A concrete file system is an instance of each.  The registers of the disk are the
      class [Registers] (Virtio.v).
    - acquire() and release() are the operations of Locks.v on the set of locks held; Spinlock.v
      proves that the code of spinlock.c implements them ([LockImpl]).  What depends on the
      interleaving of several harts is modelled one memory access at a time as a step relation:
      [Spinlock.Interleaved], [Mutex.Interleaved], SleepWakeup.v.

    ** Files

    - Prelude.v: integers, the monad, loops, and the tactics that run it ([mrun], [mcall]).
      Machine.v: param.h, riscv.h, memlayout.h, memory.  FsData.v, DiskData.v, State.v: the
      structs and the state.  Bytes.v: fields inside a block.
    - Spinlock.v (spinlock.c), Locks.v (its interface), CString.v (string.c), Kalloc.v (kalloc.c,
      with the contract [PageAllocator]).
    - VM.v (vm.c), with PageTable.v, UserVM.v, CopyIO.v and FreeWalk.v for its theorems.
    - Sched.v, Proc.v, Fork.v (proc.c), with SchedProofs.v, ProcProofs.v and SleepWakeup.v; Shm.v
      (shm.c) with ShmProofs.v; Mutex.v (the mutex calls of sysproc.c).
    - Bio.v (sleeplock.c, bio.c), Log.v (log.c), Fs.v (fs.c), File.v (file.c and the allocation of
      pipe.c), Pipe.v (pipe.c), Exec.v (exec.c), Sysfile.v (sysfile.c).  FsRun.v is the logic
      their theorems use: [runs] says what a computation returns and does to the file system's
      state, the console's output included.  BioProofs.v, LogProofs.v, FsPath.v, FileProofs.v,
      InodeProofs.v, BitmapProofs.v and DirProofs.v hold the theorems, each on top of the one
      before.
    - Print.v (the formatting of printf.c), Console.v (console.c, uart.c, procdump()), with
      PrintProofs.v and ConsoleProofs.v.
    - Syscall.v (sysproc.c, syscall.c) with SyscallProofs.v; Trap.v (start.c, plic.c, trap.c,
      forkret(), and the control registers of riscv.h).
    - Asm.v (trampoline.S, swtch.S, kernelvec.S, entry.S, usys.pl) with AsmProofs.v for each
      routine alone and TrapProofs.v for the routines together with trap.c; KernelMap.v for the
      kernel's own page table (kvmmake(), proc_mapstacks()); Boot.v (main.c and the initialisation
      functions) with BootProofs.v.
    - Virtio.v (virtio_disk.c) and VirtioProofs.v.  The processes, the interrupt handler and the
      device are the parties of a step relation; a process stops where what it has done becomes
      visible to the device: when its request is in the ring, when the index is published, and
      when the device is notified.  The handler is written against the class [Driver], so that
      devintr() runs the same code on the kernel's state.
    - Ulib.v (user/ulib.c), Grep.v (the matcher of user/grep.c), Sh.v (user/sh.c) with ShProofs.v,
      and Umalloc.v (user/umalloc.c) with UmallocProofs.v.
    - User.v (programs and the systems they run on), UserPrint.v (user/printf.c), UserProgs.v
      (user/cat.c, wc.c, grep.c, echo.c, ls.c, init.c, ps.c and the small programs) with
      UserProofs.v.
    - HostText.v (wc, grep and cat), HostShell.v (the shell) and HostFiles.v (cp, mv, rm and ls),
      with HostTextProofs.v, HostShellProofs.v and HostFilesProofs.v.

    ** Theorems

    - Memory: kalloc() and kfree() are a stack of pages and kinit() fills it; the page table of a
      process is a tree ([pt_ok]) every operation keeps; uvmalloc() maps the whole range or
      nothing; copyout() and copyin() are inverse across pages; vmfault() maps a zeroed page;
      freeproc() gives every page back exactly once.
    - Assembly and traps: swtch() to another context and back returns to its caller; a system call
      goes through uservec, usertrap() and userret and comes back after the ecall with its result
      and all other registers; an interrupt in the kernel leaves no trace in the registers of the
      code it interrupts, tp excepted, even if the code runs on on another hart with other values
      in the control registers.
    - Start-up: kvmmake() maps exactly the devices, the kernel, memory and the guarded stacks;
      main() comes up with paging on, the first process ready and no lock held, from any content
      of memory.
    - Concurrency: a spinlock excludes, interrupts nest; no wakeup is lost between sleep() and
      wakeup(); a user mutex excludes as long as no initialisation overlaps with its use, and an
      initialisation that does breaks it.
    - Processes: the scheduler runs the first process it finds at the best priority it saw, and
      what happens when other harts get there first; sleep(), kkill(), the clock tick and the
      priority calls on every branch; sbrk()'s limits; unknown calls.
    - Shared memory: creating, attaching and closing a region on the page tables of the processes;
      a process that exits attached frees pages that are still in use.
    - File system: a crash at any point of a commit leaves all or none of the transaction after
      recovery; writei() and readi(), iupdate() and ilock() are inverse; balloc() takes the first
      free block, or says on the console that there is none, and bfree() catches a double free;
      iget() never has two entries for an inode; dirlookup() finds the first entry with the name;
      skipelem() splits a path at its slashes; the loops of fs.c end.
    - Console and text: typing implements line editing on the ring buffer; printint() stays in its
      buffer, and atoi() reads its output back; grep's matcher decides the pattern's meaning and
      its line loop prints exactly the matching lines that a newline ends.
    - Disk: what can be seen of the driver with its interrupt handler, calls, returns and data,
      can be seen of the disk of blocks Bio.v assumes, whatever the order in which the device
      completes the requests; and it never deadlocks, with a device that looks at the ring only
      when it is notified.
    - User programs: printf() of the user library prints what the kernel's printf() does for the
      same arguments, hexadecimal apart; grep prints exactly the matching lines of its files that
      a newline ends, whatever sizes the reads have, cat copies, wc counts, echo joins its
      arguments; init never has two shells running at once.
    - xv6's shell: the parser and the runner of a command; malloc(), of requests that fit the int
      sbrk() takes, and free() keep the heap's circular list ordered, disjoint and within what
      sbrk() gave.
    - Host utilities: grep prints the lines selected by its options; cat numbers and squeezes
      lines as its options say; the shell's parser decides which lines are pipelines, and each
      command of a pipeline is started with exactly the descriptors that its place asks for; cp
      copies every byte of a regular file or reports; mv of a regular file never loses the data;
      rm removes no directory entry outside the tree it is given, and all of the tree when it
      reports success.

    ** Bounds

    - [rounds] gives readi() and writei() one round per block of the transfer and three more, for
      the partial blocks at its ends and the test that ends the loop, and namex() one round per
      character of the path and one more; [fs_loops_end] proves that they never run out.
    - freewalk() recurses at most three levels deep and walk() exactly two: the depth of Sv39.
    - printint() has 64 rounds for the at most 20 digits of a 64-bit number.
    - [env_patience] is arbitrary, and the theorems hold for each value of it; the loops that use
      it wait for another process, and end in [Blocked] when it does not come.
    - [grep_loop] of Grep.v has one round per read(), with the sizes of the reads as an argument.
    - [run] of User.v has a bound on the steps; [runs] says that some bound is enough, and the
      theorems on programs give it.  [printf_agrees] is on the conversions both functions have.
    - The parsers of both shells have fuel from the length of the line; malloc()'s and free()'s
      walks have one round per block of the list and one more; cp's loop and rm's descent have a
      bound as an argument, and their theorems give one that is enough.  Paths of 4096 characters
      and more, which the programs cut off, are outside of their theorems.
    - virtio_disk_intr() has one round per entry of the ring of answers and one more.

    ** Not modelled

    - The disk in the file system's theorems is [virtio_disk_rw] of Bio.v, that a request
      transfers one block and writes reach the disk in the order they return; VirtioProofs.v
      proves this of the driver, but the two are not composed into one state.  The driver's state
      in [kstate] is what devintr() works on; Bio.v leaves it alone.
    - Memory ordering between harts other than at the atomic instructions.
    - The demonstrations and tests among the user programs (usertests.c, grind.c, the tests of the
      added calls and the like); the option parsing of cp and mv, which is getopt()'s; in ls the
      long format's owner and time, which come from the host. *)

From Stdlib Require Import ZArith Lia.
From stdpp Require Export base gmap list strings.

#[global] Open Scope Z_scope.

(** ** Machine integers

    A [w]-bit unsigned C value is a [Z] in [0, 2^w); a signed one is a [Z] in
    [-2^(w-1), 2^(w-1)).  The wrap-around of the hardware is written out at each
    place the source computes at that width. *)

Definition u8 (x : Z) : Z := x mod 2 ^ 8.
Definition u16 (x : Z) : Z := x mod 2 ^ 16.
Definition u32 (x : Z) : Z := x mod 2 ^ 32.
Definition u64 (x : Z) : Z := x mod 2 ^ 64.
Definition s16 (x : Z) : Z := (x + 2 ^ 15) mod 2 ^ 16 - 2 ^ 15.
Definition s32 (x : Z) : Z := (x + 2 ^ 31) mod 2 ^ 32 - 2 ^ 31.

(** ** The kernel monad

    [Ok] is a normal return, [Panic] is a call of [panic()] (printf.c), which never
    returns, and [Blocked] is the state in which the calling process was put to sleep
    and no further wake-up is scheduled. *)

Inductive outcome (S A : Type) : Type :=
| Ok (a : A) (s : S)
| Panic (msg : string)
| Blocked (s : S).
Arguments Ok {S A} _ _.
Arguments Panic {S A} _.
Arguments Blocked {S A} _.

Definition M (S A : Type) : Type := S -> outcome S A.

Definition retM {S A} (a : A) : M S A := fun s => Ok a s.

Definition bindM {S A B} (m : M S A) (f : A -> M S B) : M S B := fun s =>
  match m s with
  | Ok a s' => f a s'
  | Panic msg => Panic msg
  | Blocked s' => Blocked s'
  end.

Definition panic {S A} (msg : string) : M S A := fun _ => Panic msg.
Definition block {S A} : M S A := fun s => Blocked s.
Definition gets {S A} (f : S -> A) : M S A := fun s => Ok (f s) s.
Definition modify {S} (f : S -> S) : M S unit := fun s => Ok tt (f s).

Declare Scope kern_scope.
Delimit Scope kern_scope with kern.

Notation "x <- c1 ;; c2" := (bindM c1 (fun x => c2))
  (at level 20, c1 at level 99, c2 at level 200) : kern_scope.
Notation "' pat <- c1 ;; c2" := (bindM c1 (fun x => match x with pat => c2 end))
  (at level 20, pat pattern, c1 at level 99, c2 at level 200) : kern_scope.
Notation "c1 ;; c2" := (bindM c1 (fun _ => c2))
  (at level 100, c2 at level 200, right associativity) : kern_scope.

#[global] Open Scope kern_scope.

Definition whenM {S} (b : bool) (m : M S unit) : M S unit := if b then m else retM tt.

(** A C loop body ends with one of: fall through or [continue], [break], or a
    [return r] of the enclosing function. *)
Inductive ctl (R : Type) : Type :=
| Continue
| Break
| Return (r : R).
Arguments Continue {R}.
Arguments Break {R}.
Arguments Return {R} _.

(** [for_loop l body] runs [body] on the successive values of the loop variable;
    [Some r] is a [return r] from inside the loop. *)
Fixpoint for_loop {S A R} (l : list A) (body : A -> M S (ctl R)) : M S (option R) :=
  match l with
  | [] => retM None
  | x :: l' =>
      c <- body x ;;
      match c with
      | Continue => for_loop l' body
      | Break => retM None
      | Return r => retM (Some r)
      end
  end.

(** The same with a local variable that the body updates. *)
Fixpoint for_acc {S A V R} (l : list A) (v : V) (body : A -> V -> M S (V * ctl R))
    : M S (V * option R) :=
  match l with
  | [] => retM (v, None)
  | x :: l' =>
      r <- body x v ;;
      match r with
      | (v', Continue) => for_acc l' v' body
      | (v', Break) => retM (v', None)
      | (v', Return r) => retM (v', Some r)
      end
  end.

(** ** Rules of the monad *)

Section monad.
Context {S : Type}.

Lemma bind_ok {A B} (m : M S A) (f : A -> M S B) s a s' :
  m s = Ok a s' -> bindM m f s = f a s'.
Proof. unfold bindM. by intros ->. Qed.

Lemma bind_panic {A B} (m : M S A) (f : A -> M S B) s msg :
  m s = Panic msg -> bindM m f s = Panic msg.
Proof. unfold bindM. by intros ->. Qed.

Lemma bind_inv {A B} (m : M S A) (f : A -> M S B) s b s' :
  bindM m f s = Ok b s' -> exists a s1, m s = Ok a s1 /\ f a s1 = Ok b s'.
Proof. unfold bindM. destruct (m s); naive_solver. Qed.

(** A scan whose body leaves the state alone and continues on each element before [x],
    and returns at [x], returns there. *)
Lemma for_loop_hit {A R} (pre : list A) x post (body : A -> M S (ctl R)) s r s' :
  Forall (fun y => body y s = Ok Continue s) pre ->
  body x s = Ok (Return r) s' ->
  for_loop (pre ++ x :: post) body s = Ok (Some r) s'.
Proof.
  intros Hpre Hx. induction Hpre as [|y pre Hy _ IH]; cbn [app for_loop].
  - by erewrite bind_ok by exact Hx.
  - by erewrite bind_ok by exact Hy.
Qed.

Lemma for_loop_skip {A R} (pre rest : list A) (body : A -> M S (ctl R)) s :
  Forall (fun y => body y s = Ok Continue s) pre ->
  for_loop (pre ++ rest) body s = for_loop rest body s.
Proof.
  induction 1 as [|y pre Hy _ IH]; cbn [app for_loop]; [done|].
  by erewrite bind_ok by exact Hy.
Qed.

Lemma for_loop_break {A R} (pre : list A) x post (body : A -> M S (ctl R)) s s' :
  Forall (fun y => body y s = Ok Continue s) pre ->
  body x s = Ok Break s' ->
  for_loop (pre ++ x :: post) body s = Ok None s'.
Proof.
  intros Hpre Hx. induction Hpre as [|y pre Hy _ IH]; cbn [app for_loop].
  - by erewrite bind_ok by exact Hx.
  - by erewrite bind_ok by exact Hy.
Qed.

Lemma for_loop_miss {A R} (l : list A) (body : A -> M S (ctl R)) s :
  Forall (fun y => body y s = Ok Continue s) l ->
  for_loop l body s = Ok None s.
Proof.
  induction 1 as [|y l Hy _ IH]; cbn [for_loop]; [done|].
  by erewrite bind_ok by exact Hy.
Qed.

(** A loop that never leaves early folds a state transformer over the list, as long as
    an invariant under which the body has its specification is kept. *)
Lemma for_loop_fold {A R} (I : S -> Prop) (step : A -> S -> S) (l : list A)
    (body : A -> M S (ctl R)) s :
  I s ->
  (forall x s0, x ∈ l -> I s0 -> body x s0 = Ok Continue (step x s0) /\ I (step x s0)) ->
  for_loop l body s = Ok None (fold_left (fun s0 x => step x s0) l s) /\
  I (fold_left (fun s0 x => step x s0) l s).
Proof.
  revert s. induction l as [|x l IH]; intros s HI Hb; cbn [for_loop fold_left]; [done|].
  destruct (Hb x s) as [Hx HI']; [by left|done|].
  erewrite bind_ok by exact Hx. apply IH; [done|].
  intros y s0 Hy. apply Hb. by right.
Qed.

End monad.

(** Invariant rule: whatever way the loop ends, the invariant holds or the body returned
    with the postcondition. *)
Lemma for_loop_inv {S A R} (I : list A -> S -> Prop) (Q : R -> S -> Prop) (l : list A)
    (body : A -> M S (ctl R)) (s : S) :
  I l s ->
  (forall x l' s0, I (x :: l') s0 ->
     exists c s1, body x s0 = Ok c s1 /\
       match c with Continue => I l' s1 | Break => I [] s1 | Return r => Q r s1 end) ->
  exists o s', for_loop l body s = Ok o s' /\
    match o with None => I [] s' | Some r => Q r s' end.
Proof.
  revert s. induction l as [|x l IH]; intros s HI Hb; cbn [for_loop].
  - by exists None, s.
  - destruct (Hb x l s HI) as (c & s1 & Hx & Hc). erewrite bind_ok by exact Hx.
    destruct c as [| |r].
    + by apply IH.
    + by exists None, s1.
    + by exists (Some r), s1.
Qed.

Lemma for_acc_pure {S A V R} (g : V -> A -> V) (l : list A) v (body : A -> V -> M S (V * ctl R)) s :
  (forall x v0, x ∈ l -> body x v0 s = Ok (g v0 x, Continue) s) ->
  for_acc l v body s = Ok (fold_left g l v, None) s.
Proof.
  revert v. induction l as [|x l IH]; intros v H; cbn [for_acc fold_left]; [done|].
  erewrite bind_ok by (apply H; by left). apply IH. intros y v0 Hy. apply H. by right.
Qed.

Lemma bind_assoc {S A B C} (m : M S A) (f : A -> M S B) (g : B -> M S C) s :
  bindM (bindM m f) g s = bindM m (fun x => bindM (f x) g) s.
Proof. unfold bindM. by destruct (m s). Qed.

(** ** Searches *)

Lemma find_split {A} (f : A -> bool) l x :
  List.find f l = Some x ->
  exists pre post, l = pre ++ x :: post /\ Forall (fun y => f y = false) pre /\ f x = true.
Proof.
  induction l as [|y l IH]; [done|]. cbn. destruct (f y) eqn:E.
  - intros [= ->]. by exists [], l.
  - intros (pre & post & -> & Hp & Hx)%IH. exists (y :: pre), post. split_and!; [done| |done].
    by constructor.
Qed.

Lemma find_none_Forall {A} (f : A -> bool) l :
  List.find f l = None -> Forall (fun y => f y = false) l.
Proof.
  induction l as [|y l IH]; [constructor|]. cbn. destruct (f y) eqn:E; [done|].
  intros H. constructor; auto.
Qed.

(** A scan that only looks is [List.find]. *)
Lemma for_loop_find {S A B} (g : A -> S -> B) (f : B -> bool) (l : list A) s :
  for_loop l (fun i => bindM (gets (g i)) (fun x => retM (if f x then Return i else Continue))) s =
  Ok (List.find (fun i => f (g i s)) l) s.
Proof.
  induction l as [|i l IH]; [done|]. cbn [for_loop List.find]. unfold bindM at 1. cbn.
  by destruct (f (g i s)).
Qed.

(** Symbolic execution of the head of a computation: [mstep] runs one primitive, [mrun] all
    of them; calls of other operations are executed with [mcall] and their equation. *)
Ltac mstep :=
  lazymatch goal with
  | |- context [bindM (retM ?a) ?f ?s] => change (bindM (retM a) f s) with (f a s)
  | |- context [bindM (gets ?g) ?f ?s] => change (bindM (gets g) f s) with (f (g s) s)
  | |- context [bindM (modify ?g) ?f ?s] => change (bindM (modify g) f s) with (f tt (g s))
  | |- context [bindM (whenM true ?m) ?f ?s] =>
      change (bindM (whenM true m) f s) with (bindM m f s)
  | |- context [bindM (whenM false ?m) ?f ?s] =>
      change (bindM (whenM false m) f s) with (f tt s)
  | |- context [bindM (bindM ?m ?f) ?g ?s] => rewrite (bind_assoc m f g s)
  end; cbv beta.

Ltac mrun := cbv beta; repeat (mstep; cbv beta).

Tactic Notation "mcall" constr(lem) := erewrite bind_ok by (eapply lem; eauto); mrun.

Ltac munfold := unfold retM, bindM, panic, block, gets, modify, whenM in *.

(** [lia] with division and remainder by constants. *)
Ltac dlia := Z.to_euclidean_division_equations; lia.

(** Case analysis on the integer tests of the goal, closing the impossible cases. *)
Ltac zcases :=
  repeat (match goal with
  | |- context [?a <=? ?b] => destruct (Z.leb_spec a b)
  | |- context [?a <? ?b] => destruct (Z.ltb_spec a b)
  | |- context [?a >=? ?b] => rewrite (Z.geb_leb a b)
  | |- context [?a >? ?b] => rewrite (Z.gtb_ltb a b)
  | |- context [?a =? ?b] => destruct (Z.eqb_spec a b)
  end; cbn [andb orb negb]; try (exfalso; lia)).

(** ** Integers *)

Lemma u64_small x : 0 <= x < 2 ^ 64 -> u64 x = x.
Proof. apply Z.mod_small. Qed.

Lemma u32_small x : 0 <= x < 2 ^ 32 -> u32 x = x.
Proof. apply Z.mod_small. Qed.

Lemma u8_small x : 0 <= x < 2 ^ 8 -> u8 x = x.
Proof. apply Z.mod_small. Qed.

Lemma s32_small x : - 2 ^ 31 <= x < 2 ^ 31 -> s32 x = x.
Proof. unfold s32. intros H. rewrite Z.mod_small; lia. Qed.

Lemma u64_range x : 0 <= u64 x < 2 ^ 64.
Proof. by apply Z.mod_pos_bound. Qed.

Lemma u32_range x : 0 <= u32 x < 2 ^ 32.
Proof. by apply Z.mod_pos_bound. Qed.

Lemma u8_range x : 0 <= u8 x < 2 ^ 8.
Proof. by apply Z.mod_pos_bound. Qed.

Lemma s32_range x : - 2 ^ 31 <= s32 x < 2 ^ 31.
Proof. unfold s32. pose proof (Z.mod_pos_bound (x + 2 ^ 31) (2 ^ 32)). lia. Qed.

Create HintDb kern.
#[export] Hint Resolve u64_range u32_range u8_range s32_range : kern.
