(* ===== verification/Machine.v ===== *)
(** * The machine: constants, addresses and byte-addressed memory

    The constants and macros of kernel/param.h, kernel/memlayout.h and kernel/riscv.h, and
    the physical memory as a function from addresses to bytes with little-endian loads and
    stores, as a RISC-V hart sees it. *)

From S2P Require Import Prelude.

(** ** kernel/param.h *)

Definition NPROC : nat := 64.
Definition NOFILE : nat := 16.
Definition NFILE : nat := 100.
Definition NINODE : nat := 50.
Definition NDEV : Z := 10.
Definition ROOTDEV : Z := 1.
Definition MAXARG : Z := 32.
Definition MAXOPBLOCKS : Z := 10.
Definition LOGBLOCKS : Z := MAXOPBLOCKS * 3.
Definition NBUF : nat := 30.
Definition MAXPATH : Z := 128.
Definition USERSTACK : Z := 1.

(** ** kernel/riscv.h *)

Definition PGSIZE : Z := 4096.
Definition PGSHIFT : Z := 12.

(** [PGROUNDUP] and [PGROUNDDOWN] at type [uint64]. *)
Definition PGROUNDUP (sz : Z) : Z := Z.land (u64 (sz + PGSIZE - 1)) (Z.lnot (PGSIZE - 1)).
Definition PGROUNDDOWN (a : Z) : Z := Z.land a (Z.lnot (PGSIZE - 1)).

Definition PTE_V : Z := Z.shiftl 1 0.
Definition PTE_R : Z := Z.shiftl 1 1.
Definition PTE_W : Z := Z.shiftl 1 2.
Definition PTE_X : Z := Z.shiftl 1 3.
Definition PTE_U : Z := Z.shiftl 1 4.

Definition PA2PTE (pa : Z) : Z := u64 (Z.shiftl (Z.shiftr pa 12) 10).
Definition PTE2PA (pte : Z) : Z := u64 (Z.shiftl (Z.shiftr pte 10) 12).
Definition PTE_FLAGS (pte : Z) : Z := Z.land pte 0x3FF.

Definition PXMASK : Z := 0x1FF.
Definition PXSHIFT (level : Z) : Z := PGSHIFT + 9 * level.
Definition PX (level va : Z) : Z := Z.land (Z.shiftr va (PXSHIFT level)) PXMASK.

Definition MAXVA : Z := Z.shiftl 1 (9 + 9 + 9 + 12 - 1).

(** ** kernel/memlayout.h *)

Definition UART0 : Z := 0x10000000.
Definition VIRTIO0 : Z := 0x10001000.
Definition PLIC : Z := 0x0c000000.
Definition KERNBASE : Z := 0x80000000.
Definition PHYSTOP : Z := KERNBASE + 128 * 1024 * 1024.
Definition TRAMPOLINE : Z := MAXVA - PGSIZE.
Definition KSTACK (p : Z) : Z := TRAMPOLINE - (p + 1) * 2 * PGSIZE.
Definition TRAPFRAME : Z := TRAMPOLINE - PGSIZE.

(** The linker's symbols the C code names (kernel.ld, trampoline.S, kernelvec.S). *)
Class Image := {
  image_end : Z;               (* end[], first address after the kernel *)
  image_etext : Z;             (* etext[] *)
  image_trampoline : Z;        (* trampoline[] *)
  image_forkret : Z;           (* (uint64)forkret *)
  image_end_range : KERNBASE <= image_end < PHYSTOP
}.

(** A machine with eight free pages above the kernel, for evaluating the model. *)
Lemma tiny_image_range : KERNBASE <= PHYSTOP - 8 * PGSIZE < PHYSTOP.
Proof. by vm_compute. Qed.

Definition tiny_image : Image := {|
  image_end := PHYSTOP - 8 * PGSIZE;
  image_etext := KERNBASE + 8 * PGSIZE;
  image_trampoline := KERNBASE + 7 * PGSIZE;
  image_forkret := KERNBASE + 1024;
  image_end_range := tiny_image_range
|}.

(** ** Physical memory *)

Definition memory : Type := Z -> Z.

Definition load8 (m : memory) (a : Z) : Z := m a.

Definition store8 (m : memory) (a v : Z) : memory := fun x => if x =? a then u8 v else m x.

(** Little-endian value of a list of bytes, and the bytes of a value. *)
Fixpoint le_combine (bs : list Z) : Z :=
  match bs with
  | [] => 0
  | b :: bs' => b + 256 * le_combine bs'
  end.

Fixpoint le_split (n : nat) (v : Z) : list Z :=
  match n with
  | O => []
  | S n' => u8 v :: le_split n' (v / 256)
  end.

Fixpoint load_bytes (m : memory) (a : Z) (n : nat) : list Z :=
  match n with
  | O => []
  | S n' => load8 m a :: load_bytes m (a + 1) n'
  end.

Fixpoint store_bytes (m : memory) (a : Z) (bs : list Z) : memory :=
  match bs with
  | [] => m
  | b :: bs' => store_bytes (store8 m a b) (a + 1) bs'
  end.

Definition load32 (m : memory) (a : Z) : Z := le_combine (load_bytes m a 4).
Definition load64 (m : memory) (a : Z) : Z := le_combine (load_bytes m a 8).
Definition store32 (m : memory) (a v : Z) : memory := store_bytes m a (le_split 4 v).
Definition store64 (m : memory) (a v : Z) : memory := store_bytes m a (le_split 8 v).

#[global] Arguments load32 : simpl never.
#[global] Arguments load64 : simpl never.
#[global] Arguments store32 : simpl never.
#[global] Arguments store64 : simpl never.

(** Every cell of a memory is a byte. *)
Definition mem_ok (m : memory) : Prop := forall a, 0 <= m a < 256.

(** Two memories that agree on [[lo, lo + n)]. *)
Definition mem_same (m m' : memory) (lo n : Z) : Prop :=
  forall a, lo <= a < lo + n -> m' a = m a.

(** ** Address arithmetic *)

Lemma land_lnot_ones a n : 0 <= n -> Z.land a (Z.lnot (Z.ones n)) = a - a mod 2 ^ n.
Proof.
  intros Hn. rewrite <- Z.ldiff_land, Z.ldiff_ones_r, Z.shiftl_mul_pow2, Z.shiftr_div_pow2 by lia.
  pose proof (Z.pow_pos_nonneg 2 n ltac:(lia) Hn).
  pose proof (Z.div_mod a (2 ^ n) ltac:(lia)). lia.
Qed.

Lemma PGROUNDDOWN_eq a : PGROUNDDOWN a = a - a mod PGSIZE.
Proof. exact (land_lnot_ones a 12 ltac:(lia)). Qed.

Lemma PGROUNDUP_eq sz :
  0 <= sz <= 2 ^ 64 - PGSIZE -> PGROUNDUP sz = (sz + PGSIZE - 1) / PGSIZE * PGSIZE.
Proof.
  intros H. unfold PGROUNDUP. rewrite u64_small by (unfold PGSIZE in *; lia).
  rewrite (land_lnot_ones _ 12) by lia. change (2 ^ 12) with PGSIZE.
  unfold PGSIZE in *. dlia.
Qed.

Lemma PX_eq level va : 0 <= level -> PX level va = (va / 2 ^ (12 + 9 * level)) mod 512.
Proof.
  intros H. unfold PX, PXMASK, PXSHIFT, PGSHIFT. change 0x1FF with (Z.ones 9).
  rewrite Z.land_ones, Z.shiftr_div_pow2 by lia. done.
Qed.

Lemma PX_range level va : 0 <= PX level va < 512.
Proof.
  unfold PX, PXMASK. change 0x1FF with (Z.ones 9). rewrite Z.land_ones by lia.
  by apply Z.mod_pos_bound.
Qed.

Lemma PA2PTE_eq pa : 0 <= pa < 2 ^ 56 -> PA2PTE pa = pa / 4096 * 1024.
Proof.
  intros H. unfold PA2PTE. rewrite Z.shiftr_div_pow2, Z.shiftl_mul_pow2 by lia.
  change (2 ^ 12) with 4096. change (2 ^ 10) with 1024. apply u64_small. dlia.
Qed.

Lemma PTE2PA_eq pte : 0 <= pte < 2 ^ 54 -> PTE2PA pte = pte / 1024 * 4096.
Proof.
  intros H. unfold PTE2PA. rewrite Z.shiftr_div_pow2, Z.shiftl_mul_pow2 by lia.
  change (2 ^ 12) with 4096. change (2 ^ 10) with 1024. apply u64_small. dlia.
Qed.

(** A page-aligned physical address, or'ed with ten flag bits. *)
Lemma lor_flags_add x f : 0 <= f < 1024 -> Z.lor (x * 1024) f = x * 1024 + f.
Proof.
  intros Hf. rewrite <- Z.lxor_lor, <- Z.add_nocarry_lxor; [done| |];
  apply Z.bits_inj'; intros n Hn; rewrite Z.land_spec, Z.bits_0;
  (destruct (decide (n < 10));
    [change 1024 with (2 ^ 10); rewrite Z.mul_pow2_bits_low by lia; done
    |rewrite <- (Z.mod_small f (2 ^ 10)) by (change (2^10) with 1024; lia);
     rewrite Z.mod_pow2_bits_high by lia; apply andb_false_r]).
Qed.

Lemma PTE2PA_PA2PTE pa f :
  0 <= pa < 2 ^ 56 -> pa mod PGSIZE = 0 -> 0 <= f < 1024 ->
  PTE2PA (Z.lor (PA2PTE pa) f) = pa /\ PTE_FLAGS (Z.lor (PA2PTE pa) f) = f.
Proof.
  intros Hpa Hal Hf. rewrite PA2PTE_eq by done. rewrite lor_flags_add by done.
  unfold PGSIZE in Hal. split.
  - rewrite PTE2PA_eq by dlia. dlia.
  - unfold PTE_FLAGS. change 0x3FF with (Z.ones 10). rewrite Z.land_ones by lia.
    change (2 ^ 10) with 1024. dlia.
Qed.

(** ** Little-endian encodings *)

Lemma length_le_split n v : length (le_split n v) = n.
Proof. revert v. induction n; intros v; simpl; auto. Qed.

Lemma le_combine_split n v : le_combine (le_split n v) = v mod 256 ^ Z.of_nat n.
Proof.
  revert v. induction n as [|n IH]; intros v; cbn [le_split le_combine].
  - change (256 ^ Z.of_nat 0) with 1. by rewrite Z.mod_1_r.
  - rewrite IH, Nat2Z.inj_succ, Z.pow_succ_r, Z.rem_mul_r by lia.
    unfold u8. change (2 ^ 8) with 256. done.
Qed.

Lemma le_combine_range bs :
  Forall (fun b => 0 <= b < 256) bs -> 0 <= le_combine bs < 256 ^ Z.of_nat (length bs).
Proof.
  induction 1 as [|b bs Hb _ IH]; cbn [le_combine length]; [done|].
  rewrite Nat2Z.inj_succ, Z.pow_succ_r by lia. lia.
Qed.

Lemma le_split_combine bs :
  Forall (fun b => 0 <= b < 256) bs -> le_split (length bs) (le_combine bs) = bs.
Proof.
  induction 1 as [|b bs Hb _ IH]; cbn [le_combine le_split length]; [done|].
  f_equal.
  - unfold u8. change (2 ^ 8) with 256. dlia.
  - replace ((b + 256 * le_combine bs) / 256) with (le_combine bs) by dlia. done.
Qed.

(** ** Loads and stores *)

Lemma store8_same m a v : store8 m a v a = u8 v.
Proof. unfold store8. by rewrite Z.eqb_refl. Qed.

Lemma store8_ne m a v x : x <> a -> store8 m a v x = m x.
Proof. unfold store8. intros H. by destruct (Z.eqb_spec x a). Qed.

Lemma store8_ok m a v : mem_ok m -> mem_ok (store8 m a v).
Proof.
  intros Hm x. unfold store8. destruct (x =? a); [|done].
  pose proof (u8_range v). change (2 ^ 8) with 256 in *. lia.
Qed.

Lemma store_bytes_out m a bs x :
  ~ (a <= x < a + Z.of_nat (length bs)) -> store_bytes m a bs x = m x.
Proof.
  revert m a. induction bs as [|b bs IH]; intros m a H; cbn [store_bytes length] in *; [done|].
  rewrite IH by lia. apply store8_ne. lia.
Qed.

Lemma store_bytes_in m a bs i b :
  bs !! i = Some b -> store_bytes m a bs (a + Z.of_nat i) = u8 b.
Proof.
  revert m a i. induction bs as [|b' bs IH]; intros m a i H; [done|].
  destruct i as [|i]; cbn [store_bytes].
  - injection H as ->. rewrite store_bytes_out by lia.
    replace (a + Z.of_nat 0) with a by lia. apply store8_same.
  - replace (a + Z.of_nat (S i)) with (a + 1 + Z.of_nat i) by lia. by apply IH.
Qed.

Lemma store_bytes_ok m a bs : mem_ok m -> mem_ok (store_bytes m a bs).
Proof.
  revert m a. induction bs as [|b bs IH]; intros m a Hm; cbn [store_bytes]; [done|].
  by apply IH, store8_ok.
Qed.

Lemma length_load_bytes m a n : length (load_bytes m a n) = n.
Proof. revert a. induction n; intros a; simpl; auto. Qed.

Lemma lookup_load_bytes m a n i :
  (i < n)%nat -> load_bytes m a n !! i = Some (m (a + Z.of_nat i)).
Proof.
  revert a i. induction n as [|n IH]; intros a i Hi; [lia|].
  destruct i as [|i]; cbn [load_bytes lookup list_lookup].
  - unfold load8. do 2 f_equal. lia.
  - etrans; [apply IH; lia|]. do 2 f_equal. lia.
Qed.

Lemma load_bytes_ok m a n : mem_ok m -> Forall (fun b => 0 <= b < 256) (load_bytes m a n).
Proof. intros Hm. revert a. induction n; intros a; cbn [load_bytes]; constructor; [apply Hm|auto]. Qed.

Lemma load_bytes_same m m' a n :
  mem_same m m' a (Z.of_nat n) -> load_bytes m' a n = load_bytes m a n.
Proof.
  intros H. apply list_eq. intros i. destruct (decide (i < n)%nat) as [Hi|Hi].
  - rewrite !lookup_load_bytes by done. f_equal. apply H. lia.
  - by rewrite !lookup_ge_None_2 by (rewrite length_load_bytes; lia).
Qed.

Lemma load_store_bytes m a bs :
  Forall (fun b => 0 <= b < 256) bs -> load_bytes (store_bytes m a bs) a (length bs) = bs.
Proof.
  intros H. apply list_eq. intros i. destruct (decide (i < length bs)%nat) as [Hi|Hi].
  - rewrite lookup_load_bytes by done.
    destruct (lookup_lt_is_Some_2 bs i Hi) as [b Hb]. rewrite Hb. f_equal.
    erewrite store_bytes_in by done. apply u8_small.
    rewrite Forall_lookup in H. by apply (H _ _ Hb).
  - by rewrite !lookup_ge_None_2 by (rewrite ?length_load_bytes; lia).
Qed.

Lemma le_split_ok n v : Forall (fun b => 0 <= b < 256) (le_split n v).
Proof. revert v. induction n; intros v; cbn [le_split]; constructor; auto using u8_range. Qed.

Lemma load64_range m a : mem_ok m -> 0 <= load64 m a < 2 ^ 64.
Proof.
  intros Hm. pose proof (le_combine_range _ (load_bytes_ok m a 8 Hm)) as H.
  rewrite length_load_bytes in H. exact H.
Qed.

Lemma load64_same m m' a : mem_same m m' a 8 -> load64 m' a = load64 m a.
Proof. intros H. unfold load64. by rewrite (load_bytes_same m m'). Qed.

Lemma load64_store64 m a v : load64 (store64 m a v) a = u64 v.
Proof.
  unfold load64, store64. pose proof (load_store_bytes m a _ (le_split_ok 8 v)) as H.
  rewrite length_le_split in H. rewrite H. apply le_combine_split.
Qed.

Lemma store64_out m a v x : ~ (a <= x < a + 8) -> store64 m a v x = m x.
Proof. intros H. apply store_bytes_out. by rewrite length_le_split. Qed.

Lemma store64_ok m a v : mem_ok m -> mem_ok (store64 m a v).
Proof. apply store_bytes_ok. Qed.

Lemma load64_store64_ne m a v x :
  x + 8 <= a \/ a + 8 <= x -> load64 (store64 m a v) x = load64 m x.
Proof. intros H. apply load64_same. intros y Hy. apply store64_out. lia. Qed.

Lemma load64_fill m a c :
  (forall i, 0 <= i < 8 -> m (a + i) = c) -> load64 m a = c * 0x0101010101010101.
Proof.
  intros H. unfold load64. cbn [load_bytes le_combine]. unfold load8.
  rewrite <- !Z.add_assoc.
  replace (m a) with c by (rewrite <- (H 0) by lia; f_equal; lia).
  rewrite !H by lia. lia.
Qed.
