(* ===== verification/FsData.v ===== *)
(** * The data of the file system: structs of kernel/buf.h, kernel/fs.h and kernel/file.h

    The structs as records with one [set_] function per field, and the file system's global
    variables as one record, [fsstate].  A block is the list of its BSIZE bytes; fields of
    on-disk structs are read and written at their byte offsets. *)

From S2P Require Import Prelude Machine.

Definition BSIZE : Z := 1024.
Definition ROOTINO : Z := 1.
Definition FSMAGIC : Z := 0x10203040.
Definition NDIRECT : Z := 12.
Definition NINDIRECT : Z := BSIZE / 4.
Definition MAXFILE : Z := NDIRECT + NINDIRECT.
Definition DIRSIZ : Z := 14.
Definition T_DIR : Z := 1.
Definition T_FILE : Z := 2.
Definition T_DEVICE : Z := 3.
Definition CONSOLE : Z := 1.

(** enum of struct file *)
Inductive fdtype : Type := FD_NONE | FD_PIPE | FD_INODE | FD_DEVICE.

#[export] Instance fdtype_eq_dec : EqDecision fdtype.
Proof. solve_decision. Defined.

(** Struct sleeplock of kernel/sleeplock.h: [slk_locked] and the pid that holds it. *)
Record sleeplock : Type := MkSleeplock {
  slk_locked : Z;
  slk_pid : Z
}.

Definition set_slk_locked (v : Z) (x : sleeplock) : sleeplock :=
  MkSleeplock v (slk_pid x).
Definition set_slk_pid (v : Z) (x : sleeplock) : sleeplock :=
  MkSleeplock (slk_locked x) v.

(** Struct buf of kernel/buf.h; prev and next are the order [fs_lru]. *)
Record buf : Type := MkBuf {
  b_valid : Z;
  b_disk : Z;
  b_dev : Z;
  b_blockno : Z;
  b_lock : sleeplock;
  b_refcnt : Z;
  b_data : list Z
}.

Definition set_b_valid (v : Z) (x : buf) : buf :=
  MkBuf v (b_disk x) (b_dev x) (b_blockno x) (b_lock x) (b_refcnt x) (b_data x).
Definition set_b_disk (v : Z) (x : buf) : buf :=
  MkBuf (b_valid x) v (b_dev x) (b_blockno x) (b_lock x) (b_refcnt x) (b_data x).
Definition set_b_dev (v : Z) (x : buf) : buf :=
  MkBuf (b_valid x) (b_disk x) v (b_blockno x) (b_lock x) (b_refcnt x) (b_data x).
Definition set_b_blockno (v : Z) (x : buf) : buf :=
  MkBuf (b_valid x) (b_disk x) (b_dev x) v (b_lock x) (b_refcnt x) (b_data x).
Definition set_b_lock (v : sleeplock) (x : buf) : buf :=
  MkBuf (b_valid x) (b_disk x) (b_dev x) (b_blockno x) v (b_refcnt x) (b_data x).
Definition set_b_refcnt (v : Z) (x : buf) : buf :=
  MkBuf (b_valid x) (b_disk x) (b_dev x) (b_blockno x) (b_lock x) v (b_data x).
Definition set_b_data (v : list Z) (x : buf) : buf :=
  MkBuf (b_valid x) (b_disk x) (b_dev x) (b_blockno x) (b_lock x) (b_refcnt x) v.

(** Struct log of kernel/log.c with its struct logheader. *)
Record logst : Type := MkLog {
  lg_start : Z;
  lg_outstanding : Z;
  lg_committing : Z;
  lg_dev : Z;
  lg_n : Z;
  lg_block : list Z
}.

Definition set_lg_start (v : Z) (x : logst) : logst :=
  MkLog v (lg_outstanding x) (lg_committing x) (lg_dev x) (lg_n x) (lg_block x).
Definition set_lg_outstanding (v : Z) (x : logst) : logst :=
  MkLog (lg_start x) v (lg_committing x) (lg_dev x) (lg_n x) (lg_block x).
Definition set_lg_committing (v : Z) (x : logst) : logst :=
  MkLog (lg_start x) (lg_outstanding x) v (lg_dev x) (lg_n x) (lg_block x).
Definition set_lg_dev (v : Z) (x : logst) : logst :=
  MkLog (lg_start x) (lg_outstanding x) (lg_committing x) v (lg_n x) (lg_block x).
Definition set_lg_n (v : Z) (x : logst) : logst :=
  MkLog (lg_start x) (lg_outstanding x) (lg_committing x) (lg_dev x) v (lg_block x).
Definition set_lg_block (v : list Z) (x : logst) : logst :=
  MkLog (lg_start x) (lg_outstanding x) (lg_committing x) (lg_dev x) (lg_n x) v.

(** Struct superblock of kernel/fs.h. *)
Record superblock : Type := MkSuper {
  sb_magic : Z;
  sb_size : Z;
  sb_nblocks : Z;
  sb_ninodes : Z;
  sb_nlog : Z;
  sb_logstart : Z;
  sb_inodestart : Z;
  sb_bmapstart : Z
}.

Definition set_sb_magic (v : Z) (x : superblock) : superblock :=
  MkSuper v (sb_size x) (sb_nblocks x) (sb_ninodes x) (sb_nlog x) (sb_logstart x) (sb_inodestart x) (sb_bmapstart x).
Definition set_sb_size (v : Z) (x : superblock) : superblock :=
  MkSuper (sb_magic x) v (sb_nblocks x) (sb_ninodes x) (sb_nlog x) (sb_logstart x) (sb_inodestart x) (sb_bmapstart x).
Definition set_sb_nblocks (v : Z) (x : superblock) : superblock :=
  MkSuper (sb_magic x) (sb_size x) v (sb_ninodes x) (sb_nlog x) (sb_logstart x) (sb_inodestart x) (sb_bmapstart x).
Definition set_sb_ninodes (v : Z) (x : superblock) : superblock :=
  MkSuper (sb_magic x) (sb_size x) (sb_nblocks x) v (sb_nlog x) (sb_logstart x) (sb_inodestart x) (sb_bmapstart x).
Definition set_sb_nlog (v : Z) (x : superblock) : superblock :=
  MkSuper (sb_magic x) (sb_size x) (sb_nblocks x) (sb_ninodes x) v (sb_logstart x) (sb_inodestart x) (sb_bmapstart x).
Definition set_sb_logstart (v : Z) (x : superblock) : superblock :=
  MkSuper (sb_magic x) (sb_size x) (sb_nblocks x) (sb_ninodes x) (sb_nlog x) v (sb_inodestart x) (sb_bmapstart x).
Definition set_sb_inodestart (v : Z) (x : superblock) : superblock :=
  MkSuper (sb_magic x) (sb_size x) (sb_nblocks x) (sb_ninodes x) (sb_nlog x) (sb_logstart x) v (sb_bmapstart x).
Definition set_sb_bmapstart (v : Z) (x : superblock) : superblock :=
  MkSuper (sb_magic x) (sb_size x) (sb_nblocks x) (sb_ninodes x) (sb_nlog x) (sb_logstart x) (sb_inodestart x) v.

(** Struct inode of kernel/file.h. *)
Record inode : Type := MkInode {
  i_dev : Z;
  i_inum : Z;
  i_ref : Z;
  i_lock : sleeplock;
  i_valid : Z;
  i_type : Z;
  i_major : Z;
  i_minor : Z;
  i_nlink : Z;
  i_size : Z;
  i_addrs : list Z
}.

Definition set_i_dev (v : Z) (x : inode) : inode :=
  MkInode v (i_inum x) (i_ref x) (i_lock x) (i_valid x) (i_type x) (i_major x) (i_minor x) (i_nlink x) (i_size x) (i_addrs x).
Definition set_i_inum (v : Z) (x : inode) : inode :=
  MkInode (i_dev x) v (i_ref x) (i_lock x) (i_valid x) (i_type x) (i_major x) (i_minor x) (i_nlink x) (i_size x) (i_addrs x).
Definition set_i_ref (v : Z) (x : inode) : inode :=
  MkInode (i_dev x) (i_inum x) v (i_lock x) (i_valid x) (i_type x) (i_major x) (i_minor x) (i_nlink x) (i_size x) (i_addrs x).
Definition set_i_lock (v : sleeplock) (x : inode) : inode :=
  MkInode (i_dev x) (i_inum x) (i_ref x) v (i_valid x) (i_type x) (i_major x) (i_minor x) (i_nlink x) (i_size x) (i_addrs x).
Definition set_i_valid (v : Z) (x : inode) : inode :=
  MkInode (i_dev x) (i_inum x) (i_ref x) (i_lock x) v (i_type x) (i_major x) (i_minor x) (i_nlink x) (i_size x) (i_addrs x).
Definition set_i_type (v : Z) (x : inode) : inode :=
  MkInode (i_dev x) (i_inum x) (i_ref x) (i_lock x) (i_valid x) v (i_major x) (i_minor x) (i_nlink x) (i_size x) (i_addrs x).
Definition set_i_major (v : Z) (x : inode) : inode :=
  MkInode (i_dev x) (i_inum x) (i_ref x) (i_lock x) (i_valid x) (i_type x) v (i_minor x) (i_nlink x) (i_size x) (i_addrs x).
Definition set_i_minor (v : Z) (x : inode) : inode :=
  MkInode (i_dev x) (i_inum x) (i_ref x) (i_lock x) (i_valid x) (i_type x) (i_major x) v (i_nlink x) (i_size x) (i_addrs x).
Definition set_i_nlink (v : Z) (x : inode) : inode :=
  MkInode (i_dev x) (i_inum x) (i_ref x) (i_lock x) (i_valid x) (i_type x) (i_major x) (i_minor x) v (i_size x) (i_addrs x).
Definition set_i_size (v : Z) (x : inode) : inode :=
  MkInode (i_dev x) (i_inum x) (i_ref x) (i_lock x) (i_valid x) (i_type x) (i_major x) (i_minor x) (i_nlink x) v (i_addrs x).
Definition set_i_addrs (v : list Z) (x : inode) : inode :=
  MkInode (i_dev x) (i_inum x) (i_ref x) (i_lock x) (i_valid x) (i_type x) (i_major x) (i_minor x) (i_nlink x) (i_size x) v.

(** Struct file of kernel/file.h. *)
Record file : Type := MkFile {
  f_type : fdtype;
  f_ref : Z;
  f_readable : Z;
  f_writable : Z;
  f_pipe : Z;
  f_ip : option nat;
  f_off : Z;
  f_major : Z
}.

Definition set_f_type (v : fdtype) (x : file) : file :=
  MkFile v (f_ref x) (f_readable x) (f_writable x) (f_pipe x) (f_ip x) (f_off x) (f_major x).
Definition set_f_ref (v : Z) (x : file) : file :=
  MkFile (f_type x) v (f_readable x) (f_writable x) (f_pipe x) (f_ip x) (f_off x) (f_major x).
Definition set_f_readable (v : Z) (x : file) : file :=
  MkFile (f_type x) (f_ref x) v (f_writable x) (f_pipe x) (f_ip x) (f_off x) (f_major x).
Definition set_f_writable (v : Z) (x : file) : file :=
  MkFile (f_type x) (f_ref x) (f_readable x) v (f_pipe x) (f_ip x) (f_off x) (f_major x).
Definition set_f_pipe (v : Z) (x : file) : file :=
  MkFile (f_type x) (f_ref x) (f_readable x) (f_writable x) v (f_ip x) (f_off x) (f_major x).
Definition set_f_ip (v : option nat) (x : file) : file :=
  MkFile (f_type x) (f_ref x) (f_readable x) (f_writable x) (f_pipe x) v (f_off x) (f_major x).
Definition set_f_off (v : Z) (x : file) : file :=
  MkFile (f_type x) (f_ref x) (f_readable x) (f_writable x) (f_pipe x) (f_ip x) v (f_major x).
Definition set_f_major (v : Z) (x : file) : file :=
  MkFile (f_type x) (f_ref x) (f_readable x) (f_writable x) (f_pipe x) (f_ip x) (f_off x) v.

(** The input buffer [cons] of kernel/console.c. *)
Record consst : Type := MkCons {
  cons_buf : list Z;
  cons_r : Z;
  cons_w : Z;
  cons_e : Z
}.

Definition set_cons_buf (v : list Z) (x : consst) : consst :=
  MkCons v (cons_r x) (cons_w x) (cons_e x).
Definition set_cons_r (v : Z) (x : consst) : consst :=
  MkCons (cons_buf x) v (cons_w x) (cons_e x).
Definition set_cons_w (v : Z) (x : consst) : consst :=
  MkCons (cons_buf x) (cons_r x) v (cons_e x).
Definition set_cons_e (v : Z) (x : consst) : consst :=
  MkCons (cons_buf x) (cons_r x) (cons_w x) v.

(** The file system's globals: bcache, log, sb, itable, ftable, cons; [fs_disk] is the content
    of the disk by block number, [fs_dwrites] the writes it was given so far (latest last), and
    [fs_out] the characters sent to the uart, [fs_txbusy] its tx_busy;
    [fs_first] is the static variable of forkret(). *)
Record fsstate : Type := MkFs {
  fs_buf : list buf;
  fs_lru : list nat;
  fs_disk : Z -> list Z;
  fs_dwrites : list (Z * list Z);
  fs_log : logst;
  fs_sb : superblock;
  fs_inode : list inode;
  fs_file : list file;
  fs_cons : consst;
  fs_out : list Z;
  fs_txbusy : Z;
  fs_first : Z
}.

Definition set_fs_buf (v : list buf) (x : fsstate) : fsstate :=
  MkFs v (fs_lru x) (fs_disk x) (fs_dwrites x) (fs_log x) (fs_sb x) (fs_inode x) (fs_file x) (fs_cons x) (fs_out x) (fs_txbusy x) (fs_first x).
Definition set_fs_lru (v : list nat) (x : fsstate) : fsstate :=
  MkFs (fs_buf x) v (fs_disk x) (fs_dwrites x) (fs_log x) (fs_sb x) (fs_inode x) (fs_file x) (fs_cons x) (fs_out x) (fs_txbusy x) (fs_first x).
Definition set_fs_disk (v : Z -> list Z) (x : fsstate) : fsstate :=
  MkFs (fs_buf x) (fs_lru x) v (fs_dwrites x) (fs_log x) (fs_sb x) (fs_inode x) (fs_file x) (fs_cons x) (fs_out x) (fs_txbusy x) (fs_first x).
Definition set_fs_dwrites (v : list (Z * list Z)) (x : fsstate) : fsstate :=
  MkFs (fs_buf x) (fs_lru x) (fs_disk x) v (fs_log x) (fs_sb x) (fs_inode x) (fs_file x) (fs_cons x) (fs_out x) (fs_txbusy x) (fs_first x).
Definition set_fs_log (v : logst) (x : fsstate) : fsstate :=
  MkFs (fs_buf x) (fs_lru x) (fs_disk x) (fs_dwrites x) v (fs_sb x) (fs_inode x) (fs_file x) (fs_cons x) (fs_out x) (fs_txbusy x) (fs_first x).
Definition set_fs_sb (v : superblock) (x : fsstate) : fsstate :=
  MkFs (fs_buf x) (fs_lru x) (fs_disk x) (fs_dwrites x) (fs_log x) v (fs_inode x) (fs_file x) (fs_cons x) (fs_out x) (fs_txbusy x) (fs_first x).
Definition set_fs_inode (v : list inode) (x : fsstate) : fsstate :=
  MkFs (fs_buf x) (fs_lru x) (fs_disk x) (fs_dwrites x) (fs_log x) (fs_sb x) v (fs_file x) (fs_cons x) (fs_out x) (fs_txbusy x) (fs_first x).
Definition set_fs_file (v : list file) (x : fsstate) : fsstate :=
  MkFs (fs_buf x) (fs_lru x) (fs_disk x) (fs_dwrites x) (fs_log x) (fs_sb x) (fs_inode x) v (fs_cons x) (fs_out x) (fs_txbusy x) (fs_first x).
Definition set_fs_cons (v : consst) (x : fsstate) : fsstate :=
  MkFs (fs_buf x) (fs_lru x) (fs_disk x) (fs_dwrites x) (fs_log x) (fs_sb x) (fs_inode x) (fs_file x) v (fs_out x) (fs_txbusy x) (fs_first x).
Definition set_fs_out (v : list Z) (x : fsstate) : fsstate :=
  MkFs (fs_buf x) (fs_lru x) (fs_disk x) (fs_dwrites x) (fs_log x) (fs_sb x) (fs_inode x) (fs_file x) (fs_cons x) v (fs_txbusy x) (fs_first x).
Definition set_fs_txbusy (v : Z) (x : fsstate) : fsstate :=
  MkFs (fs_buf x) (fs_lru x) (fs_disk x) (fs_dwrites x) (fs_log x) (fs_sb x) (fs_inode x) (fs_file x) (fs_cons x) (fs_out x) v (fs_first x).
Definition set_fs_first (v : Z) (x : fsstate) : fsstate :=
  MkFs (fs_buf x) (fs_lru x) (fs_disk x) (fs_dwrites x) (fs_log x) (fs_sb x) (fs_inode x) (fs_file x) (fs_cons x) (fs_out x) (fs_txbusy x) v.

(** ** Bytes of a block *)

Definition get_bytes (d : list Z) (o n : Z) : list Z := take (Z.to_nat n) (drop (Z.to_nat o) d).
Definition put_bytes (d : list Z) (o : Z) (bs : list Z) : list Z := list_inserts (Z.to_nat o) bs d.
Definition get_u16 (d : list Z) (o : Z) : Z := le_combine (get_bytes d o 2).
Definition get_u32 (d : list Z) (o : Z) : Z := le_combine (get_bytes d o 4).
Definition put_u16 (d : list Z) (o v : Z) : list Z := put_bytes d o (le_split 2 v).
Definition put_u32 (d : list Z) (o v : Z) : list Z := put_bytes d o (le_split 4 v).

(** The boot values: static storage is zero. *)
Definition sleeplock0 : sleeplock := MkSleeplock 0 0.
Definition buf0 : buf := MkBuf 0 0 0 0 sleeplock0 0 (replicate 1024 0).
Definition inode0 : inode := MkInode 0 0 0 sleeplock0 0 0 0 0 0 0 (replicate 13 0).
Definition file0 : file := MkFile FD_NONE 0 0 0 0 None 0 0.
Definition log0 : logst := MkLog 0 0 0 0 0 (replicate 30 0).
Definition super0 : superblock := MkSuper 0 0 0 0 0 0 0 0.
Definition fsstate0 (disk : Z -> list Z) : fsstate :=
  MkFs (replicate NBUF buf0) [] disk [] log0 super0 (replicate NINODE inode0) (replicate NFILE file0)
    (MkCons (replicate 128 0) 0 0 0) [] 0 1.

(** Reduces the projections of updated records. *)
Ltac fsimpl :=
  cbn [slk_locked set_slk_locked slk_pid set_slk_pid b_valid set_b_valid b_disk set_b_disk
    b_dev set_b_dev b_blockno set_b_blockno b_lock set_b_lock b_refcnt set_b_refcnt b_data
    set_b_data lg_start set_lg_start lg_outstanding set_lg_outstanding lg_committing
    set_lg_committing lg_dev set_lg_dev lg_n set_lg_n lg_block set_lg_block sb_magic
    set_sb_magic sb_size set_sb_size sb_nblocks set_sb_nblocks sb_ninodes set_sb_ninodes
    sb_nlog set_sb_nlog sb_logstart set_sb_logstart sb_inodestart set_sb_inodestart
    sb_bmapstart set_sb_bmapstart i_dev set_i_dev i_inum set_i_inum i_ref set_i_ref i_lock
    set_i_lock i_valid set_i_valid i_type set_i_type i_major set_i_major i_minor set_i_minor
    i_nlink set_i_nlink i_size set_i_size i_addrs set_i_addrs f_type set_f_type f_ref
    set_f_ref f_readable set_f_readable f_writable set_f_writable f_pipe set_f_pipe f_ip
    set_f_ip f_off set_f_off f_major set_f_major cons_buf set_cons_buf cons_r set_cons_r
    cons_w set_cons_w cons_e set_cons_e fs_buf set_fs_buf fs_lru set_fs_lru fs_disk
    set_fs_disk fs_dwrites set_fs_dwrites fs_log set_fs_log fs_sb set_fs_sb fs_inode
    set_fs_inode fs_file set_fs_file fs_cons set_fs_cons fs_out set_fs_out fs_txbusy
    set_fs_txbusy fs_first set_fs_first].

Ltac fsimpl_in H :=
  cbn [slk_locked set_slk_locked slk_pid set_slk_pid b_valid set_b_valid b_disk set_b_disk
    b_dev set_b_dev b_blockno set_b_blockno b_lock set_b_lock b_refcnt set_b_refcnt b_data
    set_b_data lg_start set_lg_start lg_outstanding set_lg_outstanding lg_committing
    set_lg_committing lg_dev set_lg_dev lg_n set_lg_n lg_block set_lg_block sb_magic
    set_sb_magic sb_size set_sb_size sb_nblocks set_sb_nblocks sb_ninodes set_sb_ninodes
    sb_nlog set_sb_nlog sb_logstart set_sb_logstart sb_inodestart set_sb_inodestart
    sb_bmapstart set_sb_bmapstart i_dev set_i_dev i_inum set_i_inum i_ref set_i_ref i_lock
    set_i_lock i_valid set_i_valid i_type set_i_type i_major set_i_major i_minor set_i_minor
    i_nlink set_i_nlink i_size set_i_size i_addrs set_i_addrs f_type set_f_type f_ref
    set_f_ref f_readable set_f_readable f_writable set_f_writable f_pipe set_f_pipe f_ip
    set_f_ip f_off set_f_off f_major set_f_major cons_buf set_cons_buf cons_r set_cons_r
    cons_w set_cons_w cons_e set_cons_e fs_buf set_fs_buf fs_lru set_fs_lru fs_disk
    set_fs_disk fs_dwrites set_fs_dwrites fs_log set_fs_log fs_sb set_fs_sb fs_inode
    set_fs_inode fs_file set_fs_file fs_cons set_fs_cons fs_out set_fs_out fs_txbusy
    set_fs_txbusy fs_first set_fs_first] in H.
