(* ===== verification/DiskData.v ===== *)
(** * The data of the disk driver: structs of kernel/virtio.h and kernel/virtio_disk.c

    The three pages the driver shares with the device hold the descriptors, the ring of
    requests and the ring of answers; they are arrays of structs here, indexed by number, and an
    address in a descriptor names the object it points to. *)

From S2P Require Import Prelude.

(** &disk.ops[i], b->data and &disk.info[i].status. *)
Inductive dma : Type :=
| Null
| Ops (i : Z)
| Data (b : nat)
| Status (i : Z).

Record virtq_desc : Type := Desc { d_addr : dma; d_len : Z; d_flags : Z; d_next : Z }.
Record virtio_blk_req : Type := Req { rq_type : Z; rq_reserved : Z; rq_sector : Z }.

Record disk : Type := Disk {
  desc : Z -> virtq_desc;
  avail_idx : Z;
  avail_ring : Z -> Z;
  usedr_idx : Z;
  usedr_ring : Z -> Z;
  dfree : Z -> Z;
  used_idx : Z;
  info_b : Z -> option nat;
  info_status : Z -> Z;
  ops : Z -> virtio_blk_req
}.

Definition set_desc v d := Disk v (avail_idx d) (avail_ring d) (usedr_idx d) (usedr_ring d) (dfree d) (used_idx d) (info_b d) (info_status d) (ops d).
Definition set_avail_idx v d := Disk (desc d) v (avail_ring d) (usedr_idx d) (usedr_ring d) (dfree d) (used_idx d) (info_b d) (info_status d) (ops d).
Definition set_avail_ring v d := Disk (desc d) (avail_idx d) v (usedr_idx d) (usedr_ring d) (dfree d) (used_idx d) (info_b d) (info_status d) (ops d).
Definition set_usedr i r d := Disk (desc d) (avail_idx d) (avail_ring d) i r (dfree d) (used_idx d) (info_b d) (info_status d) (ops d).
Definition set_dfree v d := Disk (desc d) (avail_idx d) (avail_ring d) (usedr_idx d) (usedr_ring d) v (used_idx d) (info_b d) (info_status d) (ops d).
Definition set_used_idx v d := Disk (desc d) (avail_idx d) (avail_ring d) (usedr_idx d) (usedr_ring d) (dfree d) v (info_b d) (info_status d) (ops d).
Definition set_info_b v d := Disk (desc d) (avail_idx d) (avail_ring d) (usedr_idx d) (usedr_ring d) (dfree d) (used_idx d) v (info_status d) (ops d).
Definition set_info_status v d := Disk (desc d) (avail_idx d) (avail_ring d) (usedr_idx d) (usedr_ring d) (dfree d) (used_idx d) (info_b d) v (ops d).
Definition set_ops v d := Disk (desc d) (avail_idx d) (avail_ring d) (usedr_idx d) (usedr_ring d) (dfree d) (used_idx d) (info_b d) (info_status d) v.

Definition zero_desc : virtq_desc := Desc Null 0 0 0.

(** The static variable and the zeroed pages, with [free] as given. *)
Definition fresh_disk (fr : Z -> Z) : disk :=
  Disk (fun _ => zero_desc) 0 (fun _ => 0) 0 (fun _ => 0) fr 0 (fun _ => None) (fun _ => 0) (fun _ => Req 0 0 0).

(** What the kernel has of the disk: struct disk, and the interrupt status register. *)
Record vdisk : Type := MkVdisk { vd_disk : disk; vd_isr : Z }.
