(* ===== verification/Bytes.v ===== *)
(** * Fields inside a block

    Reading back what was stored into the bytes of a block, at the same place and next to it. *)

From S2P Require Import Prelude Machine FsData.

Lemma length_put_bytes d o bs : length (put_bytes d o bs) = length d.
Proof. unfold put_bytes. apply length_inserts. Qed.

Lemma lookup_get_bytes d o n i :
  (i < Z.to_nat n)%nat -> get_bytes d o n !! i = d !! (Z.to_nat o + i)%nat.
Proof. intros Hi. unfold get_bytes. rewrite lookup_take_lt by done. apply lookup_drop. Qed.

Lemma length_get_bytes d o n :
  0 <= o -> 0 <= n -> o + n <= Z.of_nat (length d) -> length (get_bytes d o n) = Z.to_nat n.
Proof. intros. unfold get_bytes. rewrite length_take, length_drop. lia. Qed.

Lemma get_put_same d o bs :
  0 <= o -> o + Z.of_nat (length bs) <= Z.of_nat (length d) ->
  get_bytes (put_bytes d o bs) o (Z.of_nat (length bs)) = bs.
Proof.
  intros Ho Hl. apply list_eq. intros i. destruct (decide (i < length bs)%nat) as [Hi|Hi].
  - rewrite lookup_get_bytes by lia. unfold put_bytes. rewrite list_lookup_inserts by lia.
    f_equal. lia.
  - rewrite !lookup_ge_None_2; [done|lia|]. rewrite length_get_bytes; rewrite ?length_put_bytes; lia.
Qed.

Lemma get_put_other d o bs o' n :
  0 <= o -> 0 <= o' -> 0 <= n -> (o' + n <= o \/ o + Z.of_nat (length bs) <= o') ->
  get_bytes (put_bytes d o bs) o' n = get_bytes d o' n.
Proof.
  intros Ho Ho' Hn Hdis. apply list_eq. intros i. destruct (decide (i < Z.to_nat n)%nat) as [Hi|Hi].
  - rewrite !lookup_get_bytes by done. unfold put_bytes. destruct Hdis as [Hd|Hd].
    + rewrite list_lookup_inserts_lt by lia. done.
    + rewrite list_lookup_inserts_ge by lia. done.
  - rewrite !lookup_ge_None_2; [done| |]; unfold get_bytes; rewrite length_take; lia.
Qed.

Lemma get_put_u32 d o v :
  0 <= o -> o + 4 <= Z.of_nat (length d) -> get_u32 (put_u32 d o v) o = u32 v.
Proof.
  intros Ho Hl. unfold get_u32, put_u32. pose proof (get_put_same d o (le_split 4 v) Ho) as E.
  rewrite length_le_split in E. change (Z.of_nat 4) with 4 in E. rewrite E by lia.
  rewrite le_combine_split. done.
Qed.

Lemma get_put_u32_other d o v o' :
  0 <= o -> 0 <= o' -> (o' + 4 <= o \/ o + 4 <= o') -> get_u32 (put_u32 d o v) o' = get_u32 d o'.
Proof.
  intros Ho Ho' Hd. unfold get_u32, put_u32. rewrite get_put_other; [done|lia|lia|lia|].
  rewrite length_le_split. lia.
Qed.

Lemma length_put_u32 d o v : length (put_u32 d o v) = length d.
Proof. apply length_put_bytes. Qed.

(** A block's bytes as a u32 are in range when they are bytes. *)
Definition bytes_ok (d : list Z) : Prop := Forall (fun b => 0 <= b < 256) d.

Lemma s32_of_u32 v : - 2 ^ 31 <= v < 2 ^ 31 -> s32 (u32 v) = v.
Proof. intros H. unfold s32, u32. rewrite Zplus_mod_idemp_l. rewrite Z.mod_small by lia. lia. Qed.
