(* ===== verification/State.v ===== *)
(** * The kernel's data: structs and global variables

    The C structs of kernel/proc.h, kernel/shm.h, kernel/mutex.h and kernel/procinfo.h as
    records, and the kernel's global variables as one record, [kstate].  A pointer into a
    fixed table (proc[NPROC], ftable, itable) is the index of the entry, with [None] for the
    null pointer; a pointer to a physical page is its address, with 0 for null.  Each record
    has one [set_] function per field. *)

From S2P Require Import Prelude Machine FsData DiskData.

(** ** Names of locks and sleep channels *)

(** Every spinlock object of the kernel. *)
Inductive lockid : Type :=
| LKmem | LPid | LWait | LReadcount | LShm | LTicks | LFtable | LItable | LBcache | LLog
| LCons | LPr | LUart | LDisk
| LProc (i : nat)
| LPipe (pi : Z)
| LSleepBuf (i : nat)
| LSleepInode (i : nat).

#[export] Instance lockid_eq_dec : EqDecision lockid.
Proof. solve_decision. Defined.

Definition lockid_encode (l : lockid) : nat * Z :=
  match l with
  | LKmem => (0%nat, 0) | LPid => (0%nat, 1) | LWait => (0%nat, 2) | LReadcount => (0%nat, 3)
  | LShm => (0%nat, 4) | LTicks => (0%nat, 5) | LFtable => (0%nat, 6) | LItable => (0%nat, 7)
  | LBcache => (0%nat, 8) | LLog => (0%nat, 9) | LCons => (0%nat, 10) | LPr => (0%nat, 11)
  | LUart => (0%nat, 12) | LDisk => (0%nat, 13)
  | LProc i => (1%nat, Z.of_nat i)
  | LPipe pi => (2%nat, pi)
  | LSleepBuf i => (3%nat, Z.of_nat i)
  | LSleepInode i => (4%nat, Z.of_nat i)
  end.

Definition lockid_decode (c : nat * Z) : lockid :=
  match c with
  | (0%nat, z) =>
      if z =? 0 then LKmem else if z =? 1 then LPid else if z =? 2 then LWait
      else if z =? 3 then LReadcount else if z =? 4 then LShm else if z =? 5 then LTicks
      else if z =? 6 then LFtable else if z =? 7 then LItable else if z =? 8 then LBcache
      else if z =? 9 then LLog else if z =? 10 then LCons else if z =? 11 then LPr
      else if z =? 12 then LUart else LDisk
  | (1%nat, z) => LProc (Z.to_nat z)
  | (2%nat, z) => LPipe z
  | (3%nat, z) => LSleepBuf (Z.to_nat z)
  | (_, z) => LSleepInode (Z.to_nat z)
  end.

#[export] Instance lockid_countable : Countable lockid.
Proof.
  apply (inj_countable' lockid_encode lockid_decode).
  intros []; simpl; rewrite ?Nat2Z.id; reflexivity.
Defined.

(** The addresses the kernel sleeps on: the [void *chan] arguments of sleep() and wakeup(). *)
Inductive chan : Type :=
| ChProc (i : nat)
| ChTicks
| ChLog
| ChPipeRead (pi : Z)
| ChPipeWrite (pi : Z)
| ChSleepBuf (i : nat)
| ChSleepInode (i : nat)
| ChConsR
| ChUartTx
| ChDiskFree
| ChBuf (i : nat).

#[export] Instance chan_eq_dec : EqDecision chan.
Proof. solve_decision. Defined.

(** ** kernel/proc.h, kernel/shm.h, kernel/mutex.h, kernel/procinfo.h *)

Inductive procstate : Type := UNUSED | USED | SLEEPING | RUNNABLE | RUNNING | ZOMBIE.

#[export] Instance procstate_eq_dec : EqDecision procstate.
Proof. solve_decision. Defined.

(** The value of the C enumerator, as copied into [struct procinfo]. *)
Definition procstate_code (st : procstate) : Z :=
  match st with
  | UNUSED => 0 | USED => 1 | SLEEPING => 2 | RUNNABLE => 3 | RUNNING => 4 | ZOMBIE => 5
  end.

Definition SHM_SLOTS : nat := 8.
Definition SHM_MAXPGS : Z := 4.
Definition PROC_SHM_SLOTS : nat := 8.
Definition MAX_MUTEXES : nat := 16.

(** [ctx_s] holds the callee-saved registers s0..s11. *)
Record context : Type := Context_ {
  ctx_ra : Z;
  ctx_sp : Z;
  ctx_s : list Z
}.

Definition set_ctx_ra (v : Z) (x : context) : context :=
  Context_ v (ctx_sp x) (ctx_s x).
Definition set_ctx_sp (v : Z) (x : context) : context :=
  Context_ (ctx_ra x) v (ctx_s x).
Definition set_ctx_s (v : list Z) (x : context) : context :=
  Context_ (ctx_ra x) (ctx_sp x) v.

Record shmregion : Type := Shmregion {
  sr_key : Z;
  sr_npages : Z;
  sr_pages : list Z;
  sr_refcount : Z
}.

Definition set_sr_key (v : Z) (x : shmregion) : shmregion :=
  Shmregion v (sr_npages x) (sr_pages x) (sr_refcount x).
Definition set_sr_npages (v : Z) (x : shmregion) : shmregion :=
  Shmregion (sr_key x) v (sr_pages x) (sr_refcount x).
Definition set_sr_pages (v : list Z) (x : shmregion) : shmregion :=
  Shmregion (sr_key x) (sr_npages x) v (sr_refcount x).
Definition set_sr_refcount (v : Z) (x : shmregion) : shmregion :=
  Shmregion (sr_key x) (sr_npages x) (sr_pages x) v.

Record shmattach : Type := Shmattach {
  sa_key : Z;
  sa_uva : Z;
  sa_npages : Z
}.

Definition set_sa_key (v : Z) (x : shmattach) : shmattach :=
  Shmattach v (sa_uva x) (sa_npages x).
Definition set_sa_uva (v : Z) (x : shmattach) : shmattach :=
  Shmattach (sa_key x) v (sa_npages x).
Definition set_sa_npages (v : Z) (x : shmattach) : shmattach :=
  Shmattach (sa_key x) (sa_uva x) v.

Record umutex : Type := Umutex {
  mx_valid : Z;
  mx_locked : Z;
  mx_owner_pid : Z
}.

Definition set_mx_valid (v : Z) (x : umutex) : umutex :=
  Umutex v (mx_locked x) (mx_owner_pid x).
Definition set_mx_locked (v : Z) (x : umutex) : umutex :=
  Umutex (mx_valid x) v (mx_owner_pid x).
Definition set_mx_owner_pid (v : Z) (x : umutex) : umutex :=
  Umutex (mx_valid x) (mx_locked x) v.

Record procinfo : Type := Procinfo {
  pi_pid : Z;
  pi_ppid : Z;
  pi_state : Z;
  pi_sz : Z;
  pi_name : list Z
}.

Definition set_pi_pid (v : Z) (x : procinfo) : procinfo :=
  Procinfo v (pi_ppid x) (pi_state x) (pi_sz x) (pi_name x).
Definition set_pi_ppid (v : Z) (x : procinfo) : procinfo :=
  Procinfo (pi_pid x) v (pi_state x) (pi_sz x) (pi_name x).
Definition set_pi_state (v : Z) (x : procinfo) : procinfo :=
  Procinfo (pi_pid x) (pi_ppid x) v (pi_sz x) (pi_name x).
Definition set_pi_sz (v : Z) (x : procinfo) : procinfo :=
  Procinfo (pi_pid x) (pi_ppid x) (pi_state x) v (pi_name x).
Definition set_pi_name (v : list Z) (x : procinfo) : procinfo :=
  Procinfo (pi_pid x) (pi_ppid x) (pi_state x) (pi_sz x) v.

(** [struct proc]; its spinlock is [LProc i] of the lock table. *)
Record proc : Type := Proc {
  p_state : procstate;
  p_chan : option chan;
  p_killed : Z;
  p_xstate : Z;
  p_pid : Z;
  p_parent : option nat;
  p_kstack : Z;
  p_sz : Z;
  p_pagetable : Z;
  p_trapframe : Z;
  p_context : context;
  p_ofile : list (option nat);
  p_cwd : option nat;
  p_name : list Z;
  p_priority : Z;
  p_ctime : Z;
  p_rtime : Z;
  p_stime : Z;
  p_shm : list shmattach
}.

Definition set_p_state (v : procstate) (x : proc) : proc :=
  Proc v (p_chan x) (p_killed x) (p_xstate x) (p_pid x) (p_parent x) (p_kstack x) (p_sz x) (p_pagetable x) (p_trapframe x) (p_context x) (p_ofile x) (p_cwd x) (p_name x) (p_priority x) (p_ctime x) (p_rtime x) (p_stime x) (p_shm x).
Definition set_p_chan (v : option chan) (x : proc) : proc :=
  Proc (p_state x) v (p_killed x) (p_xstate x) (p_pid x) (p_parent x) (p_kstack x) (p_sz x) (p_pagetable x) (p_trapframe x) (p_context x) (p_ofile x) (p_cwd x) (p_name x) (p_priority x) (p_ctime x) (p_rtime x) (p_stime x) (p_shm x).
Definition set_p_killed (v : Z) (x : proc) : proc :=
  Proc (p_state x) (p_chan x) v (p_xstate x) (p_pid x) (p_parent x) (p_kstack x) (p_sz x) (p_pagetable x) (p_trapframe x) (p_context x) (p_ofile x) (p_cwd x) (p_name x) (p_priority x) (p_ctime x) (p_rtime x) (p_stime x) (p_shm x).
Definition set_p_xstate (v : Z) (x : proc) : proc :=
  Proc (p_state x) (p_chan x) (p_killed x) v (p_pid x) (p_parent x) (p_kstack x) (p_sz x) (p_pagetable x) (p_trapframe x) (p_context x) (p_ofile x) (p_cwd x) (p_name x) (p_priority x) (p_ctime x) (p_rtime x) (p_stime x) (p_shm x).
Definition set_p_pid (v : Z) (x : proc) : proc :=
  Proc (p_state x) (p_chan x) (p_killed x) (p_xstate x) v (p_parent x) (p_kstack x) (p_sz x) (p_pagetable x) (p_trapframe x) (p_context x) (p_ofile x) (p_cwd x) (p_name x) (p_priority x) (p_ctime x) (p_rtime x) (p_stime x) (p_shm x).
Definition set_p_parent (v : option nat) (x : proc) : proc :=
  Proc (p_state x) (p_chan x) (p_killed x) (p_xstate x) (p_pid x) v (p_kstack x) (p_sz x) (p_pagetable x) (p_trapframe x) (p_context x) (p_ofile x) (p_cwd x) (p_name x) (p_priority x) (p_ctime x) (p_rtime x) (p_stime x) (p_shm x).
Definition set_p_kstack (v : Z) (x : proc) : proc :=
  Proc (p_state x) (p_chan x) (p_killed x) (p_xstate x) (p_pid x) (p_parent x) v (p_sz x) (p_pagetable x) (p_trapframe x) (p_context x) (p_ofile x) (p_cwd x) (p_name x) (p_priority x) (p_ctime x) (p_rtime x) (p_stime x) (p_shm x).
Definition set_p_sz (v : Z) (x : proc) : proc :=
  Proc (p_state x) (p_chan x) (p_killed x) (p_xstate x) (p_pid x) (p_parent x) (p_kstack x) v (p_pagetable x) (p_trapframe x) (p_context x) (p_ofile x) (p_cwd x) (p_name x) (p_priority x) (p_ctime x) (p_rtime x) (p_stime x) (p_shm x).
Definition set_p_pagetable (v : Z) (x : proc) : proc :=
  Proc (p_state x) (p_chan x) (p_killed x) (p_xstate x) (p_pid x) (p_parent x) (p_kstack x) (p_sz x) v (p_trapframe x) (p_context x) (p_ofile x) (p_cwd x) (p_name x) (p_priority x) (p_ctime x) (p_rtime x) (p_stime x) (p_shm x).
Definition set_p_trapframe (v : Z) (x : proc) : proc :=
  Proc (p_state x) (p_chan x) (p_killed x) (p_xstate x) (p_pid x) (p_parent x) (p_kstack x) (p_sz x) (p_pagetable x) v (p_context x) (p_ofile x) (p_cwd x) (p_name x) (p_priority x) (p_ctime x) (p_rtime x) (p_stime x) (p_shm x).
Definition set_p_context (v : context) (x : proc) : proc :=
  Proc (p_state x) (p_chan x) (p_killed x) (p_xstate x) (p_pid x) (p_parent x) (p_kstack x) (p_sz x) (p_pagetable x) (p_trapframe x) v (p_ofile x) (p_cwd x) (p_name x) (p_priority x) (p_ctime x) (p_rtime x) (p_stime x) (p_shm x).
Definition set_p_ofile (v : list (option nat)) (x : proc) : proc :=
  Proc (p_state x) (p_chan x) (p_killed x) (p_xstate x) (p_pid x) (p_parent x) (p_kstack x) (p_sz x) (p_pagetable x) (p_trapframe x) (p_context x) v (p_cwd x) (p_name x) (p_priority x) (p_ctime x) (p_rtime x) (p_stime x) (p_shm x).
Definition set_p_cwd (v : option nat) (x : proc) : proc :=
  Proc (p_state x) (p_chan x) (p_killed x) (p_xstate x) (p_pid x) (p_parent x) (p_kstack x) (p_sz x) (p_pagetable x) (p_trapframe x) (p_context x) (p_ofile x) v (p_name x) (p_priority x) (p_ctime x) (p_rtime x) (p_stime x) (p_shm x).
Definition set_p_name (v : list Z) (x : proc) : proc :=
  Proc (p_state x) (p_chan x) (p_killed x) (p_xstate x) (p_pid x) (p_parent x) (p_kstack x) (p_sz x) (p_pagetable x) (p_trapframe x) (p_context x) (p_ofile x) (p_cwd x) v (p_priority x) (p_ctime x) (p_rtime x) (p_stime x) (p_shm x).
Definition set_p_priority (v : Z) (x : proc) : proc :=
  Proc (p_state x) (p_chan x) (p_killed x) (p_xstate x) (p_pid x) (p_parent x) (p_kstack x) (p_sz x) (p_pagetable x) (p_trapframe x) (p_context x) (p_ofile x) (p_cwd x) (p_name x) v (p_ctime x) (p_rtime x) (p_stime x) (p_shm x).
Definition set_p_ctime (v : Z) (x : proc) : proc :=
  Proc (p_state x) (p_chan x) (p_killed x) (p_xstate x) (p_pid x) (p_parent x) (p_kstack x) (p_sz x) (p_pagetable x) (p_trapframe x) (p_context x) (p_ofile x) (p_cwd x) (p_name x) (p_priority x) v (p_rtime x) (p_stime x) (p_shm x).
Definition set_p_rtime (v : Z) (x : proc) : proc :=
  Proc (p_state x) (p_chan x) (p_killed x) (p_xstate x) (p_pid x) (p_parent x) (p_kstack x) (p_sz x) (p_pagetable x) (p_trapframe x) (p_context x) (p_ofile x) (p_cwd x) (p_name x) (p_priority x) (p_ctime x) v (p_stime x) (p_shm x).
Definition set_p_stime (v : Z) (x : proc) : proc :=
  Proc (p_state x) (p_chan x) (p_killed x) (p_xstate x) (p_pid x) (p_parent x) (p_kstack x) (p_sz x) (p_pagetable x) (p_trapframe x) (p_context x) (p_ofile x) (p_cwd x) (p_name x) (p_priority x) (p_ctime x) (p_rtime x) v (p_shm x).
Definition set_p_shm (v : list shmattach) (x : proc) : proc :=
  Proc (p_state x) (p_chan x) (p_killed x) (p_xstate x) (p_pid x) (p_parent x) (p_kstack x) (p_sz x) (p_pagetable x) (p_trapframe x) (p_context x) (p_ofile x) (p_cwd x) (p_name x) (p_priority x) (p_ctime x) (p_rtime x) (p_stime x) v.

(** ** Global variables

    [k_mem] is physical memory, [k_freelist] is kmem.freelist, [k_held] the spinlocks the
    executing CPU holds, [k_cpuid] its hart number, [k_cur] its mycpu()->proc; the other
    fields are the C globals of proc.c, trap.c, shm.c and sysproc.c of the same name.
    [k_switches] counts the context switches made so far; it is not a C variable.  [k_fs] is
    the state of the file system (FsData.v), [k_vdisk] that of the disk driver (DiskData.v). *)
Record kstate : Type := Kstate {
  k_mem : memory;
  k_freelist : Z;
  k_held : gset lockid;
  k_cpuid : Z;
  k_cur : option nat;
  k_procs : list proc;
  k_nextpid : Z;
  k_initproc : option nat;
  k_ticks : Z;
  k_readcount : Z;
  k_shm_table : list shmregion;
  k_mutextable : list umutex;
  k_switches : nat;
  k_fs : fsstate;
  k_vdisk : vdisk
}.

Definition set_k_mem (v : memory) (x : kstate) : kstate :=
  Kstate v (k_freelist x) (k_held x) (k_cpuid x) (k_cur x) (k_procs x) (k_nextpid x) (k_initproc x) (k_ticks x) (k_readcount x) (k_shm_table x) (k_mutextable x) (k_switches x) (k_fs x) (k_vdisk x).
Definition set_k_freelist (v : Z) (x : kstate) : kstate :=
  Kstate (k_mem x) v (k_held x) (k_cpuid x) (k_cur x) (k_procs x) (k_nextpid x) (k_initproc x) (k_ticks x) (k_readcount x) (k_shm_table x) (k_mutextable x) (k_switches x) (k_fs x) (k_vdisk x).
Definition set_k_held (v : gset lockid) (x : kstate) : kstate :=
  Kstate (k_mem x) (k_freelist x) v (k_cpuid x) (k_cur x) (k_procs x) (k_nextpid x) (k_initproc x) (k_ticks x) (k_readcount x) (k_shm_table x) (k_mutextable x) (k_switches x) (k_fs x) (k_vdisk x).
Definition set_k_cpuid (v : Z) (x : kstate) : kstate :=
  Kstate (k_mem x) (k_freelist x) (k_held x) v (k_cur x) (k_procs x) (k_nextpid x) (k_initproc x) (k_ticks x) (k_readcount x) (k_shm_table x) (k_mutextable x) (k_switches x) (k_fs x) (k_vdisk x).
Definition set_k_cur (v : option nat) (x : kstate) : kstate :=
  Kstate (k_mem x) (k_freelist x) (k_held x) (k_cpuid x) v (k_procs x) (k_nextpid x) (k_initproc x) (k_ticks x) (k_readcount x) (k_shm_table x) (k_mutextable x) (k_switches x) (k_fs x) (k_vdisk x).
Definition set_k_procs (v : list proc) (x : kstate) : kstate :=
  Kstate (k_mem x) (k_freelist x) (k_held x) (k_cpuid x) (k_cur x) v (k_nextpid x) (k_initproc x) (k_ticks x) (k_readcount x) (k_shm_table x) (k_mutextable x) (k_switches x) (k_fs x) (k_vdisk x).
Definition set_k_nextpid (v : Z) (x : kstate) : kstate :=
  Kstate (k_mem x) (k_freelist x) (k_held x) (k_cpuid x) (k_cur x) (k_procs x) v (k_initproc x) (k_ticks x) (k_readcount x) (k_shm_table x) (k_mutextable x) (k_switches x) (k_fs x) (k_vdisk x).
Definition set_k_initproc (v : option nat) (x : kstate) : kstate :=
  Kstate (k_mem x) (k_freelist x) (k_held x) (k_cpuid x) (k_cur x) (k_procs x) (k_nextpid x) v (k_ticks x) (k_readcount x) (k_shm_table x) (k_mutextable x) (k_switches x) (k_fs x) (k_vdisk x).
Definition set_k_ticks (v : Z) (x : kstate) : kstate :=
  Kstate (k_mem x) (k_freelist x) (k_held x) (k_cpuid x) (k_cur x) (k_procs x) (k_nextpid x) (k_initproc x) v (k_readcount x) (k_shm_table x) (k_mutextable x) (k_switches x) (k_fs x) (k_vdisk x).
Definition set_k_readcount (v : Z) (x : kstate) : kstate :=
  Kstate (k_mem x) (k_freelist x) (k_held x) (k_cpuid x) (k_cur x) (k_procs x) (k_nextpid x) (k_initproc x) (k_ticks x) v (k_shm_table x) (k_mutextable x) (k_switches x) (k_fs x) (k_vdisk x).
Definition set_k_shm_table (v : list shmregion) (x : kstate) : kstate :=
  Kstate (k_mem x) (k_freelist x) (k_held x) (k_cpuid x) (k_cur x) (k_procs x) (k_nextpid x) (k_initproc x) (k_ticks x) (k_readcount x) v (k_mutextable x) (k_switches x) (k_fs x) (k_vdisk x).
Definition set_k_mutextable (v : list umutex) (x : kstate) : kstate :=
  Kstate (k_mem x) (k_freelist x) (k_held x) (k_cpuid x) (k_cur x) (k_procs x) (k_nextpid x) (k_initproc x) (k_ticks x) (k_readcount x) (k_shm_table x) v (k_switches x) (k_fs x) (k_vdisk x).
Definition set_k_switches (v : nat) (x : kstate) : kstate :=
  Kstate (k_mem x) (k_freelist x) (k_held x) (k_cpuid x) (k_cur x) (k_procs x) (k_nextpid x) (k_initproc x) (k_ticks x) (k_readcount x) (k_shm_table x) (k_mutextable x) v (k_fs x) (k_vdisk x).
Definition set_k_fs (v : fsstate) (x : kstate) : kstate :=
  Kstate (k_mem x) (k_freelist x) (k_held x) (k_cpuid x) (k_cur x) (k_procs x) (k_nextpid x) (k_initproc x) (k_ticks x) (k_readcount x) (k_shm_table x) (k_mutextable x) (k_switches x) v (k_vdisk x).
Definition set_k_vdisk (v : vdisk) (x : kstate) : kstate :=
  Kstate (k_mem x) (k_freelist x) (k_held x) (k_cpuid x) (k_cur x) (k_procs x) (k_nextpid x) (k_initproc x) (k_ticks x) (k_readcount x) (k_shm_table x) (k_mutextable x) (k_switches x) (k_fs x) v.

Definition K : Type -> Type := M kstate.

(** [proc[i]] and stores to it. *)
Definition proc0 : proc :=
  Proc UNUSED None 0 0 0 None 0 0 0 0 (Context_ 0 0 (replicate 12 0)) (replicate NOFILE None)
    None (replicate 16 0) 0 0 0 0 (replicate PROC_SHM_SLOTS (Shmattach 0 0 0)).

Definition the_proc (i : nat) (s : kstate) : proc := default proc0 (k_procs s !! i).

Definition upd_proc (i : nat) (f : proc -> proc) (s : kstate) : kstate :=
  set_k_procs (alter f i (k_procs s)) s.

Definition get_proc {A} (i : nat) (f : proc -> A) : K A := gets (fun s => f (the_proc i s)).
Definition put_proc (i : nat) (f : proc -> proc) : K unit := modify (upd_proc i f).

(** ** The store as the code sees it at boot

    Static storage is zero-initialised. *)
Definition kstate0 (m : memory) : kstate :=
  Kstate m 0 ∅ 0 None (replicate NPROC proc0) 1 None 0 0
    (replicate SHM_SLOTS (Shmregion 0 0 (replicate 4 0) 0))
    (replicate MAX_MUTEXES (Umutex 0 0 0)) 0 (fsstate0 (fun _ => replicate 1024 0))
    (MkVdisk (fresh_disk (fun _ => 0)) 0).

(** Reduces the projections of updated records. *)
Ltac ksimpl :=
  cbn [ctx_ra set_ctx_ra ctx_sp set_ctx_sp ctx_s set_ctx_s sr_key set_sr_key sr_npages
    set_sr_npages sr_pages set_sr_pages sr_refcount set_sr_refcount sa_key set_sa_key
    sa_uva set_sa_uva sa_npages set_sa_npages mx_valid set_mx_valid mx_locked
    set_mx_locked mx_owner_pid set_mx_owner_pid pi_pid set_pi_pid pi_ppid set_pi_ppid
    pi_state set_pi_state pi_sz set_pi_sz pi_name set_pi_name p_state set_p_state p_chan
    set_p_chan p_killed set_p_killed p_xstate set_p_xstate p_pid set_p_pid p_parent
    set_p_parent p_kstack set_p_kstack p_sz set_p_sz p_pagetable set_p_pagetable
    p_trapframe set_p_trapframe p_context set_p_context p_ofile set_p_ofile p_cwd
    set_p_cwd p_name set_p_name p_priority set_p_priority p_ctime set_p_ctime p_rtime
    set_p_rtime p_stime set_p_stime p_shm set_p_shm k_mem set_k_mem k_freelist
    set_k_freelist k_held set_k_held k_cpuid set_k_cpuid k_cur set_k_cur k_procs
    set_k_procs k_nextpid set_k_nextpid k_initproc set_k_initproc k_ticks set_k_ticks
    k_readcount set_k_readcount k_shm_table set_k_shm_table k_mutextable
    set_k_mutextable k_switches set_k_switches k_fs set_k_fs k_vdisk set_k_vdisk].

Ltac ksimpl_in H :=
  cbn [ctx_ra set_ctx_ra ctx_sp set_ctx_sp ctx_s set_ctx_s sr_key set_sr_key sr_npages
    set_sr_npages sr_pages set_sr_pages sr_refcount set_sr_refcount sa_key set_sa_key
    sa_uva set_sa_uva sa_npages set_sa_npages mx_valid set_mx_valid mx_locked
    set_mx_locked mx_owner_pid set_mx_owner_pid pi_pid set_pi_pid pi_ppid set_pi_ppid
    pi_state set_pi_state pi_sz set_pi_sz pi_name set_pi_name p_state set_p_state p_chan
    set_p_chan p_killed set_p_killed p_xstate set_p_xstate p_pid set_p_pid p_parent
    set_p_parent p_kstack set_p_kstack p_sz set_p_sz p_pagetable set_p_pagetable
    p_trapframe set_p_trapframe p_context set_p_context p_ofile set_p_ofile p_cwd
    set_p_cwd p_name set_p_name p_priority set_p_priority p_ctime set_p_ctime p_rtime
    set_p_rtime p_stime set_p_stime p_shm set_p_shm k_mem set_k_mem k_freelist
    set_k_freelist k_held set_k_held k_cpuid set_k_cpuid k_cur set_k_cur k_procs
    set_k_procs k_nextpid set_k_nextpid k_initproc set_k_initproc k_ticks set_k_ticks
    k_readcount set_k_readcount k_shm_table set_k_shm_table k_mutextable
    set_k_mutextable k_switches set_k_switches k_fs set_k_fs k_vdisk set_k_vdisk] in H.

Tactic Notation "ksimpl" "in" hyp(H) := ksimpl_in H.

Lemma the_proc_upd i f s j :
  (j < length (k_procs s))%nat ->
  the_proc j (upd_proc i f s) = if decide (i = j) then f (the_proc j s) else the_proc j s.
Proof.
  intros Hj. unfold the_proc, upd_proc. ksimpl.
  destruct (lookup_lt_is_Some_2 _ _ Hj) as [p Hp]. rewrite list_lookup_alter.
  case_decide; subst; rewrite Hp; done.
Qed.

Lemma length_upd_proc i f s : length (k_procs (upd_proc i f s)) = length (k_procs s).
Proof. unfold upd_proc. ksimpl. apply length_alter. Qed.
