(* ===== verification/Locks.v ===== *)
(** * Locks as the rest of the kernel uses them

    The interface spinlock.c offers to its callers, over the set of spinlocks the executing
    CPU holds: acquire() panics when the CPU already holds the lock, release() panics when it
    does not.  [LockImpl] states what an implementation has to provide for this view to be
    right; Spinlock.v discharges it for the code of spinlock.c. *)

From S2P Require Import Prelude Machine State.

(** ** The lock interface *)

Definition acquire (lk : lockid) : K unit :=
  h <- gets k_held ;;
  if decide (lk ∈ h) then panic "acquire" else modify (set_k_held ({[lk]} ∪ h)).

Definition release (lk : lockid) : K unit :=
  h <- gets k_held ;;
  if decide (lk ∈ h) then modify (set_k_held (h ∖ {[lk]})) else panic "release".

Definition holding (lk : lockid) : K bool := gets (fun s => bool_decide (lk ∈ k_held s)).

(** An implementation with states [St], in which [rep hart st h] says that [hart] holds
    exactly the locks [h] in [st], and [available lk st] that nobody holds [lk]. *)
Class LockImpl (St : Type) (rep : nat -> St -> gset lockid -> Prop)
    (available : lockid -> St -> Prop)
    (acq rel : nat -> lockid -> M St unit) : Prop := {
  acquire_refines hart lk st h :
    rep hart st h -> lk ∉ h -> available lk st ->
    exists st', acq hart lk st = Ok tt st' /\ rep hart st' ({[lk]} ∪ h);
  acquire_refines_panic hart lk st h :
    rep hart st h -> lk ∈ h -> acq hart lk st = Panic "acquire";
  release_refines hart lk st h :
    rep hart st h -> lk ∈ h ->
    exists st', rel hart lk st = Ok tt st' /\ rep hart st' (h ∖ {[lk]}) /\ available lk st';
  release_refines_panic hart lk st h :
    rep hart st h -> lk ∉ h -> rel hart lk st = Panic "release"
}.

(** ** Rules for callers *)

Lemma acquire_ok lk s :
  lk ∉ k_held s -> acquire lk s = Ok tt (set_k_held ({[lk]} ∪ k_held s) s).
Proof. intros H. unfold acquire. munfold. by rewrite decide_False by done. Qed.

Lemma release_ok lk s :
  lk ∈ k_held s -> release lk s = Ok tt (set_k_held (k_held s ∖ {[lk]}) s).
Proof. intros H. unfold release. munfold. by rewrite decide_True by done. Qed.

Lemma held_add_remove lk (h : gset lockid) : lk ∉ h -> ({[lk]} ∪ h) ∖ {[lk]} = h.
Proof. set_solver. Qed.

Lemma set_k_held_held s : set_k_held (k_held s) s = s.
Proof. by destruct s. Qed.

Lemma set_k_held_twice h h' s : set_k_held h (set_k_held h' s) = set_k_held h s.
Proof. done. Qed.

(** A critical section that gives back the lock set it was entered with leaves the lock set
    of the caller unchanged. *)
Lemma critical_section {A} lk (body : K A) s a s' :
  lk ∉ k_held s ->
  body (set_k_held ({[lk]} ∪ k_held s) s) = Ok a s' ->
  k_held s' = {[lk]} ∪ k_held s ->
  (acquire lk ;; x <- body ;; release lk ;; retM x) s = Ok a (set_k_held (k_held s) s').
Proof.
  intros Hlk Hb Hh. erewrite bind_ok by by apply acquire_ok.
  erewrite bind_ok by exact Hb.
  erewrite bind_ok by (apply release_ok; rewrite Hh; set_solver).
  rewrite Hh, held_add_remove by done. done.
Qed.

Create HintDb locks.
#[export] Hint Resolve acquire_ok release_ok : locks.
