(* ===== verification/Spinlock.v ===== *)
(** * kernel/spinlock.c

    The spinlock code at the level of the lock words and the per-CPU interrupt nesting
    counters, as run by one hart ([Module Spinlock]); a step relation that interleaves the
    atomic instructions of all harts, with mutual exclusion as an invariant
    ([Module Interleaved]); and the proof that the code implements the lock interface of
    Locks.v. *)

From S2P Require Import Prelude Machine State Locks.

Module Spinlock.

(** [struct spinlock]: [sl_cpu] is the hart of [lk->cpu], [None] for null.  The name field
    is only read by a debugger. *)
Record spinlock : Type := MkSpinlock { sl_locked : Z; sl_cpu : option nat }.

(** The part of [struct cpu] the locks use, with [c_sie] the SIE bit of the hart's sstatus. *)
Record cpu : Type := MkCpu { c_noff : Z; c_intena : bool; c_sie : bool }.

Record machine : Type := MkMachine { m_lock : gmap lockid spinlock; m_cpu : gmap nat cpu }.

Definition lock0 : spinlock := MkSpinlock 0 None.
Definition cpu0 : cpu := MkCpu 0 false false.

Definition get_lock (lk : lockid) (m : machine) : spinlock := default lock0 (m_lock m !! lk).
Definition get_cpu (hart : nat) (m : machine) : cpu := default cpu0 (m_cpu m !! hart).
Definition put_lock (lk : lockid) (l : spinlock) (m : machine) : machine :=
  MkMachine (<[lk := l]> (m_lock m)) (m_cpu m).
Definition put_cpu (hart : nat) (c : cpu) (m : machine) : machine :=
  MkMachine (m_lock m) (<[hart := c]> (m_cpu m)).

Definition initlock (lk : lockid) : M machine unit :=
  modify (put_lock lk (MkSpinlock 0 None)).

Definition intr_get (hart : nat) : M machine bool := gets (fun m => c_sie (get_cpu hart m)).

Definition set_sie (hart : nat) (b : bool) : M machine unit :=
  modify (fun m => let c := get_cpu hart m in put_cpu hart (MkCpu (c_noff c) (c_intena c) b) m).

Definition intr_on (hart : nat) : M machine unit := set_sie hart true.
Definition intr_off (hart : nat) : M machine unit := set_sie hart false.

Definition push_off (hart : nat) : M machine unit :=
  old <- intr_get hart ;;
  intr_off hart ;;
  modify (fun m =>
    let c := get_cpu hart m in
    put_cpu hart
      (MkCpu (c_noff c + 1) (if c_noff c =? 0 then old else c_intena c) (c_sie c)) m).

Definition pop_off (hart : nat) : M machine unit :=
  on <- intr_get hart ;;
  if on : bool then panic "pop_off - interruptible" else
  noff <- gets (fun m => c_noff (get_cpu hart m)) ;;
  if noff <? 1 then panic "pop_off" else
  modify (fun m =>
    let c := get_cpu hart m in
    put_cpu hart (MkCpu (c_noff c - 1) (c_intena c) (c_sie c)) m) ;;
  c <- gets (get_cpu hart) ;;
  if (c_noff c =? 0) && c_intena c then intr_on hart else retM tt.

(** [lk->locked && lk->cpu == mycpu()] *)
Definition holding (hart : nat) (lk : lockid) : M machine bool :=
  gets (fun m =>
    let l := get_lock lk m in
    negb (sl_locked l =? 0) && bool_decide (sl_cpu l = Some hart)).

(** [__sync_lock_test_and_set(&lk->locked, 1)]: an atomic swap. *)
Definition test_and_set (lk : lockid) : M machine Z :=
  old <- gets (fun m => sl_locked (get_lock lk m)) ;;
  modify (fun m => put_lock lk (MkSpinlock 1 (sl_cpu (get_lock lk m))) m) ;;
  retM old.

(** The spin of acquire() with nobody else running: the swap succeeds at once or the loop
    does not end, which is [Blocked]. *)
Definition acquire (hart : nat) (lk : lockid) : M machine unit :=
  push_off hart ;;
  h <- holding hart lk ;;
  if h : bool then panic "acquire" else
  old <- test_and_set lk ;;
  if negb (old =? 0) then block else
  modify (fun m => put_lock lk (MkSpinlock (sl_locked (get_lock lk m)) (Some hart)) m).

Definition release (hart : nat) (lk : lockid) : M machine unit :=
  h <- holding hart lk ;;
  if negb h then panic "release" else
  modify (fun m => put_lock lk (MkSpinlock (sl_locked (get_lock lk m)) None) m) ;;
  modify (fun m => put_lock lk (MkSpinlock 0 (sl_cpu (get_lock lk m))) m) ;;
  pop_off hart.

(** [hart] holds exactly [h]: the lock words say so, the nesting depth is the number of held
    locks, and interrupts are off while the depth is not zero. *)
Definition rep (hart : nat) (m : machine) (h : gset lockid) : Prop :=
  (forall lk, lk ∈ h <-> sl_locked (get_lock lk m) <> 0 /\ sl_cpu (get_lock lk m) = Some hart) /\
  c_noff (get_cpu hart m) = Z.of_nat (size h) /\
  (c_noff (get_cpu hart m) <> 0 -> c_sie (get_cpu hart m) = false).

Definition available (lk : lockid) (m : machine) : Prop := sl_locked (get_lock lk m) = 0.

Lemma get_put_lock lk l m lk' :
  get_lock lk' (put_lock lk l m) = if decide (lk = lk') then l else get_lock lk' m.
Proof. unfold get_lock, put_lock. cbn. rewrite lookup_insert. by case_decide. Qed.

Lemma get_put_cpu hart c m hart' :
  get_cpu hart' (put_cpu hart c m) = if decide (hart = hart') then c else get_cpu hart' m.
Proof. unfold get_cpu, put_cpu. cbn. rewrite lookup_insert. by case_decide. Qed.

Lemma get_lock_put_cpu lk hart c m : get_lock lk (put_cpu hart c m) = get_lock lk m.
Proof. done. Qed.

Lemma get_cpu_put_lock lk l m hart : get_cpu hart (put_lock lk l m) = get_cpu hart m.
Proof. done. Qed.

Lemma decide_refl {A B} `{EqDecision A} (x : A) (a b : B) :
  (if decide (x = x) then a else b) = a.
Proof. by rewrite decide_True. Qed.

Create Rewrite HintDb spin.
#[export] Hint Rewrite get_lock_put_cpu get_cpu_put_lock get_put_lock get_put_cpu : spin.

Ltac spin_simpl :=
  cbn [sl_locked sl_cpu c_noff c_intena c_sie];
  repeat (progress (autorewrite with spin; rewrite ?decide_refl);
          cbn [sl_locked sl_cpu c_noff c_intena c_sie]).

(** push_off() turns interrupts off, remembers their state on the outermost call only. *)
Lemma push_off_run hart m :
  exists m', push_off hart m = Ok tt m' /\ m_lock m' = m_lock m /\
    (forall h', h' <> hart -> get_cpu h' m' = get_cpu h' m) /\
    get_cpu hart m' =
      MkCpu (c_noff (get_cpu hart m) + 1)
        (if c_noff (get_cpu hart m) =? 0 then c_sie (get_cpu hart m)
         else c_intena (get_cpu hart m)) false.
Proof.
  unfold push_off, intr_get, intr_off, set_sie. munfold. eexists; split; [done|].
  split; [done|]. split.
  - intros h' Hne. spin_simpl. by rewrite !decide_False by congruence.
  - by spin_simpl.
Qed.

(** pop_off() undoes one level and restores the remembered interrupt state at the bottom. *)
Lemma pop_off_run hart m :
  c_sie (get_cpu hart m) = false -> 1 <= c_noff (get_cpu hart m) ->
  exists m', pop_off hart m = Ok tt m' /\ m_lock m' = m_lock m /\
    (forall h', h' <> hart -> get_cpu h' m' = get_cpu h' m) /\
    get_cpu hart m' =
      MkCpu (c_noff (get_cpu hart m) - 1) (c_intena (get_cpu hart m))
        ((c_noff (get_cpu hart m) =? 1) && c_intena (get_cpu hart m)).
Proof.
  intros Hsie Hnoff. unfold pop_off, intr_get, intr_on, set_sie. munfold. rewrite Hsie.
  destruct (Z.ltb_spec (c_noff (get_cpu hart m)) 1); [lia|]. spin_simpl.
  replace (c_noff (get_cpu hart m) - 1 =? 0) with (c_noff (get_cpu hart m) =? 1) by lia.
  destruct (_ && _) eqn:E; eexists; (split; [done|]); (split; [done|]); (split;
    [intros h' Hne; spin_simpl; by rewrite !decide_False by congruence|]); spin_simpl;
    rewrite ?Hsie; done.
Qed.

Lemma get_lock_same m m' lk : m_lock m' = m_lock m -> get_lock lk m' = get_lock lk m.
Proof. unfold get_lock. by intros ->. Qed.

(** ** The code implements the lock interface *)
#[export] Instance spinlock_impl : LockImpl machine rep available acquire release.
Proof.
  split.
  - intros hart lk m h (Hrep & Hnoff & Hsie) Hlk Hav.
    destruct (push_off_run hart m) as (m1 & E1 & HL & _ & HC).
    unfold acquire. erewrite bind_ok by exact E1.
    unfold holding, test_and_set. munfold.
    rewrite (get_lock_same _ _ _ HL), Hav. cbn [Z.eqb negb andb].
    rewrite (get_lock_same _ _ _ HL), Hav. cbn [Z.eqb negb].
    eexists; split; [done|]. split; [|split].
    + intros lk'. spin_simpl. rewrite (get_lock_same _ _ _ HL).
      destruct (decide (lk = lk')) as [<-|Hne]; cbn.
      * split; [intros _; split; [lia|done]|set_solver].
      * rewrite elem_of_union, elem_of_singleton, <- Hrep. naive_solver.
    + spin_simpl. rewrite HC. cbn. rewrite Hnoff, size_union, size_singleton by set_solver. lia.
    + spin_simpl. by rewrite HC.
  - intros hart lk m h (Hrep & _) Hlk.
    destruct (push_off_run hart m) as (m1 & E1 & HL & _).
    unfold acquire. erewrite bind_ok by exact E1. unfold holding. munfold.
    rewrite (get_lock_same _ _ _ HL). apply Hrep in Hlk as [H1 H2].
    rewrite H2, bool_decide_true by done. by apply Z.eqb_neq in H1 as ->.
  - intros hart lk m h (Hrep & Hnoff & Hsie) Hlk.
    pose proof Hlk as [H1 H2]%Hrep.
    unfold release, holding. munfold. rewrite H2, bool_decide_true by done.
    apply Z.eqb_neq in H1 as ->. cbn [negb andb].
    assert (1 <= Z.of_nat (size h)).
    { pose proof (size_empty_iff h). destruct (decide (size h = 0%nat)); [set_solver|lia]. }
    match goal with |- context [pop_off hart ?m1] => set (m2 := m1) end.
    assert (HC : get_cpu hart m2 = get_cpu hart m) by done.
    destruct (pop_off_run hart m2) as (m3 & E3 & HL & _ & HC3);
      [rewrite HC; apply Hsie; lia|rewrite HC; lia|].
    rewrite E3. eexists; split; [done|]. split; [split; [|split]|].
    + intros lk'. rewrite (get_lock_same _ _ _ HL). subst m2. spin_simpl.
      destruct (decide (lk = lk')) as [<-|Hne]; cbn; [set_solver|].
      rewrite elem_of_difference, elem_of_singleton, <- Hrep. naive_solver.
    + rewrite HC3, HC. cbn. rewrite Hnoff, size_difference, size_singleton by set_solver. lia.
    + rewrite HC3, HC. cbn. intros. destruct (Z.eqb_spec (c_noff (get_cpu hart m)) 1); [lia|done].
    + unfold available. rewrite (get_lock_same _ _ _ HL). subst m2. by spin_simpl.
  - intros hart lk m h (Hrep & _) Hlk. unfold release, holding. munfold.
    assert (~ (sl_locked (get_lock lk m) <> 0 /\ sl_cpu (get_lock lk m) = Some hart)) as Hn
      by (by rewrite <- Hrep).
    destruct (Z.eqb_spec (sl_locked (get_lock lk m)) 0); [done|].
    rewrite bool_decide_false by naive_solver. done.
Qed.

(** acquire() and release() of spinlock.c implement the lock interface: on a hart that
    holds exactly the locks [h], acquire() of a held lock panics, acquire() of a lock nobody
    holds returns with it added to the held set, release() of a lock not held panics, and
    release() of a held one removes it and leaves its lock word free. *)
Theorem spinlock_refines_interface hart lk m h :
  rep hart m h ->
  (lk ∈ h -> acquire hart lk m = Panic "acquire") /\
  (lk ∉ h -> available lk m ->
     exists m', acquire hart lk m = Ok tt m' /\ rep hart m' ({[lk]} ∪ h)) /\
  (lk ∉ h -> release hart lk m = Panic "release") /\
  (lk ∈ h ->
     exists m', release hart lk m = Ok tt m' /\ rep hart m' (h ∖ {[lk]}) /\ available lk m').
Proof.
  intros Hrep. split_and!; intros.
  - by eapply acquire_refines_panic.
  - by eapply acquire_refines.
  - by eapply release_refines_panic.
  - by eapply release_refines.
Qed.

(** [n] push_off()s matched by [n] pop_off()s, properly nested. *)
Fixpoint nested (n : nat) (hart : nat) : M machine unit :=
  match n with
  | O => retM tt
  | S n' => push_off hart ;; nested n' hart ;; pop_off hart
  end.

(** "it takes two pop_off()s to undo two push_off()s; also, if interrupts are initially
    off, then push_off, pop_off leaves them off": at any depth, the matched calls return
    without a panic with the nesting count and the interrupt-enable bit as they were, and no
    lock is touched. *)
Theorem push_pop_nested n hart m :
  0 <= c_noff (get_cpu hart m) ->
  (c_noff (get_cpu hart m) <> 0 -> c_sie (get_cpu hart m) = false) ->
  exists m', nested n hart m = Ok tt m' /\ m_lock m' = m_lock m /\
    c_noff (get_cpu hart m') = c_noff (get_cpu hart m) /\
    c_sie (get_cpu hart m') = c_sie (get_cpu hart m) /\
    (c_noff (get_cpu hart m) <> 0 -> c_intena (get_cpu hart m') = c_intena (get_cpu hart m)).
Proof.
  revert m. induction n as [|n IH]; intros m H0 Hsie; [by exists m|].
  cbn [nested].
  destruct (push_off_run hart m) as (m1 & E1 & HL1 & _ & HC1). erewrite bind_ok by exact E1.
  destruct (IH m1) as (m2 & E2 & HL2 & Hn2 & Hs2 & Hi2); rewrite HC1 in *; cbn in *; [lia|done|].
  erewrite bind_ok by exact E2. specialize (Hi2 ltac:(lia)).
  destruct (pop_off_run hart m2) as (m3 & E3 & HL3 & _ & HC3); [by rewrite Hs2|lia|].
  rewrite E3. exists m3. rewrite HC3, HL3, HL2, HL1, Hn2, Hi2. cbn.
  split_and!; try done; [lia| |].
  - destruct (Z.eqb_spec (c_noff (get_cpu hart m)) 0) as [->|Hne]; [done|].
    rewrite Hsie by done. by destruct (Z.eqb_spec (c_noff (get_cpu hart m) + 1) 1); [lia|].
  - intros Hne. by apply Z.eqb_neq in Hne as ->.
Qed.

End Spinlock.

(** ** All harts at once

    Each rule is one atomic action of one hart inside acquire() or release().  [cf_held] is a
    history variable: the locks whose acquire() has returned on that hart and whose release()
    has not been entered. *)
Module Interleaved.
Import Spinlock.

Inductive pc : Type :=
| PcRun                   (* outside acquire() and release() *)
| PcSpin (lk : lockid)    (* in the test-and-set loop *)
| PcGot (lk : lockid)     (* swap won, lk->cpu not yet set *)
| PcClear (lk : lockid)   (* lk->cpu cleared, lk->locked not yet *)
| PcPop.                  (* about to pop_off() *)

Record config : Type := MkConfig {
  cf_m : machine;
  cf_pc : nat -> pc;
  cf_held : nat -> gset lockid
}.

Definition fupd {A} (f : nat -> A) (h : nat) (v : A) : nat -> A :=
  fun h' => if decide (h' = h) then v else f h'.

Inductive step : config -> config -> Prop :=
| step_intr c h b :
    cf_pc c h = PcRun -> c_noff (get_cpu h (cf_m c)) = 0 ->
    step c (MkConfig
      (put_cpu h (MkCpu 0 (c_intena (get_cpu h (cf_m c))) b) (cf_m c)) (cf_pc c) (cf_held c))
| step_acquire c h lk m1 :
    cf_pc c h = PcRun -> push_off h (cf_m c) = Ok tt m1 -> holding h lk m1 = Ok false m1 ->
    step c (MkConfig m1 (fupd (cf_pc c) h (PcSpin lk)) (cf_held c))
| step_spin c h lk old m1 :
    cf_pc c h = PcSpin lk -> test_and_set lk (cf_m c) = Ok old m1 -> old <> 0 ->
    step c (MkConfig m1 (cf_pc c) (cf_held c))
| step_win c h lk m1 :
    cf_pc c h = PcSpin lk -> test_and_set lk (cf_m c) = Ok 0 m1 ->
    step c (MkConfig m1 (fupd (cf_pc c) h (PcGot lk)) (cf_held c))
| step_setcpu c h lk :
    cf_pc c h = PcGot lk ->
    step c (MkConfig
      (put_lock lk (MkSpinlock (sl_locked (get_lock lk (cf_m c))) (Some h)) (cf_m c))
      (fupd (cf_pc c) h PcRun) (fupd (cf_held c) h ({[lk]} ∪ cf_held c h)))
| step_release c h lk :
    cf_pc c h = PcRun -> holding h lk (cf_m c) = Ok true (cf_m c) ->
    step c (MkConfig
      (put_lock lk (MkSpinlock (sl_locked (get_lock lk (cf_m c))) None) (cf_m c))
      (fupd (cf_pc c) h (PcClear lk)) (fupd (cf_held c) h (cf_held c h ∖ {[lk]})))
| step_clear c h lk :
    cf_pc c h = PcClear lk ->
    step c (MkConfig
      (put_lock lk (MkSpinlock 0 (sl_cpu (get_lock lk (cf_m c)))) (cf_m c))
      (fupd (cf_pc c) h PcPop) (cf_held c))
| step_pop c h m1 :
    cf_pc c h = PcPop -> pop_off h (cf_m c) = Ok tt m1 ->
    step c (MkConfig m1 (fupd (cf_pc c) h PcRun) (cf_held c)).

Definition init : config := MkConfig (MkMachine ∅ ∅) (fun _ => PcRun) (fun _ => ∅).

Inductive reachable : config -> Prop :=
| reach_init : reachable init
| reach_step c c' : reachable c -> step c c' -> reachable c'.

Definition owner (c : config) (h : nat) (lk : lockid) : Prop :=
  lk ∈ cf_held c h \/ cf_pc c h = PcGot lk \/ cf_pc c h = PcClear lk.

Definition busy (p : pc) : nat := match p with PcRun => 0 | _ => 1 end.

Record inv (c : config) : Prop := {
  inv_unique h1 h2 lk : owner c h1 lk -> owner c h2 lk -> h1 = h2;
  inv_locked h lk : owner c h lk -> sl_locked (get_lock lk (cf_m c)) <> 0;
  inv_cpu h lk : sl_cpu (get_lock lk (cf_m c)) = Some h <-> lk ∈ cf_held c h;
  inv_pc h lk : cf_pc c h = PcGot lk \/ cf_pc c h = PcClear lk -> lk ∉ cf_held c h;
  inv_noff h : c_noff (get_cpu h (cf_m c)) = Z.of_nat (size (cf_held c h) + busy (cf_pc c h));
  inv_sie h : c_noff (get_cpu h (cf_m c)) <> 0 -> c_sie (get_cpu h (cf_m c)) = false
}.

Lemma fupd_eq {A} (f : nat -> A) h v : fupd f h v h = v.
Proof. unfold fupd. by rewrite decide_True. Qed.

Lemma fupd_ne {A} (f : nat -> A) h v h' : h' <> h -> fupd f h v h' = f h'.
Proof. unfold fupd. intros. by rewrite decide_False. Qed.

Lemma test_and_set_run lk m :
  test_and_set lk m =
    Ok (sl_locked (get_lock lk m)) (put_lock lk (MkSpinlock 1 (sl_cpu (get_lock lk m))) m).
Proof. done. Qed.

Lemma holding_run h lk m b m' :
  holding h lk m = Ok b m' ->
  m' = m /\ (b = true <-> sl_locked (get_lock lk m) <> 0 /\ sl_cpu (get_lock lk m) = Some h).
Proof.
  unfold holding, gets. intros [= <- <-]. split; [done|].
  rewrite andb_true_iff, negb_true_iff, Z.eqb_neq, bool_decide_eq_true. done.
Qed.

(** Case analysis on whether a hart or lock is the one that moved. *)
Ltac split_upd :=
  unfold owner, fupd in *; cbn [cf_m cf_pc cf_held] in *;
  repeat (case_decide; subst; cbn [sl_locked sl_cpu c_noff c_intena c_sie busy] in *).

Lemma inv_init : inv init.
Proof.
  split; unfold owner, get_lock, get_cpu; cbn; intros; try done; try set_solver.
Qed.

Lemma inv_intr c h b :
  inv c -> cf_pc c h = PcRun -> c_noff (get_cpu h (cf_m c)) = 0 ->
  inv (MkConfig (put_cpu h (MkCpu 0 (c_intena (get_cpu h (cf_m c))) b) (cf_m c))
         (cf_pc c) (cf_held c)).
Proof.
  intros [] Hpc Hn. split; intros *; cbn [cf_m cf_pc cf_held]; spin_simpl; eauto.
  - case_decide; subst; [|done]. rewrite <- inv_noff0. done.
  - case_decide; [done|eauto].
Qed.

Lemma inv_acquire c h lk m1 :
  inv c -> cf_pc c h = PcRun -> push_off h (cf_m c) = Ok tt m1 ->
  inv (MkConfig m1 (fupd (cf_pc c) h (PcSpin lk)) (cf_held c)).
Proof.
  intros [] Hpc Hp. destruct (push_off_run h (cf_m c)) as (m' & E & HL & HO & HC).
  rewrite E in Hp. injection Hp as ->.
  split; intros *; cbn [cf_m]; rewrite ?(get_lock_same _ _ _ HL).
  - intros H1 H2. apply (inv_unique0 _ _ lk0); split_upd; naive_solver.
  - intros H1. apply (inv_locked0 h0). split_upd; naive_solver.
  - apply inv_cpu0.
  - split_upd; [naive_solver|apply inv_pc0].
  - destruct (decide (h0 = h)) as [->|Hne].
    + rewrite HC, inv_noff0. cbn. rewrite fupd_eq, Hpc. cbn. lia.
    + rewrite HO, inv_noff0 by done. cbn. by rewrite fupd_ne.
  - destruct (decide (h0 = h)) as [->|Hne]; [by rewrite HC|rewrite HO by done; apply inv_sie0].
Qed.

Lemma inv_spin c lk old m1 :
  inv c -> test_and_set lk (cf_m c) = Ok old m1 -> old <> 0 ->
  inv (MkConfig m1 (cf_pc c) (cf_held c)).
Proof.
  rewrite test_and_set_run. intros [] [= <- <-] Ho.
  split; intros *; cbn [cf_m cf_pc cf_held]; spin_simpl; eauto.
  - intros. case_decide; [done|eauto].
  - case_decide; subst; apply inv_cpu0.
Qed.

Lemma inv_win c h lk m1 :
  inv c -> cf_pc c h = PcSpin lk -> test_and_set lk (cf_m c) = Ok 0 m1 ->
  inv (MkConfig m1 (fupd (cf_pc c) h (PcGot lk)) (cf_held c)).
Proof.
  rewrite test_and_set_run. intros [] Hpc [= Ho <-].
  assert (Hno : forall h', ~ owner c h' lk) by (intros h' Hh; by apply (inv_locked0 _ _ Hh)).
  assert (Hpre : forall h' lk', owner (MkConfig (cf_m c) (fupd (cf_pc c) h (PcGot lk)) (cf_held c))
      h' lk' -> owner c h' lk' \/ h' = h /\ lk' = lk)
    by (intros h' lk' Hh; split_upd; naive_solver).
  split; intros *; cbn [cf_m cf_held]; spin_simpl.
  - intros [H1|[-> ->]]%Hpre [H2|[-> ?]]%Hpre; subst; try done; try by exfalso; eapply Hno.
    by apply (inv_unique0 _ _ lk0).
  - intros [H1|[-> ->]]%Hpre; case_decide; subst; cbn; try done. by apply (inv_locked0 h0).
  - case_decide; subst; apply inv_cpu0.
  - cbn. intros Hg Hin. destruct (decide (h0 = h)) as [->|Hne].
    + rewrite fupd_eq in Hg. destruct Hg as [[= <-]|]; [|done]. apply (Hno h). by left.
    + rewrite fupd_ne in Hg by done. by apply (inv_pc0 _ _ Hg).
  - rewrite inv_noff0. cbn. destruct (decide (h0 = h)) as [->|Hne].
    + by rewrite fupd_eq, Hpc.
    + by rewrite fupd_ne.
  - apply inv_sie0.
Qed.

Lemma inv_setcpu c h lk :
  inv c -> cf_pc c h = PcGot lk ->
  inv (MkConfig
    (put_lock lk (MkSpinlock (sl_locked (get_lock lk (cf_m c))) (Some h)) (cf_m c))
    (fupd (cf_pc c) h PcRun) (fupd (cf_held c) h ({[lk]} ∪ cf_held c h))).
Proof.
  intros [] Hpc. assert (Hown : owner c h lk) by (by right; left).
  pose proof (inv_pc0 _ _ (or_introl Hpc)) as Hnin.
  assert (Hpre : forall h' lk', owner (MkConfig (cf_m c) (fupd (cf_pc c) h PcRun)
      (fupd (cf_held c) h ({[lk]} ∪ cf_held c h))) h' lk' -> owner c h' lk').
  { intros h' lk' Hh. split_upd; [|done]. set_solver. }
  split; intros *; cbn [cf_m]; spin_simpl.
  - intros H1%Hpre H2%Hpre. by apply (inv_unique0 _ _ lk0).
  - intros H1%Hpre%inv_locked0. case_decide; subst; done.
  - cbn. destruct (decide (lk = lk0)) as [<-|Hl]; cbn.
    + split; [intros [= ->]; rewrite fupd_eq; set_solver|].
      intros Hin. destruct (decide (h0 = h)) as [->|Hne]; [done|].
      rewrite fupd_ne in Hin by done. f_equal. apply (inv_unique0 _ _ lk); [done|by left].
    + rewrite inv_cpu0. destruct (decide (h0 = h)) as [->|Hne];
        [rewrite fupd_eq; set_solver|by rewrite fupd_ne].
  - cbn. destruct (decide (h0 = h)) as [->|Hne]; [rewrite !fupd_eq; set_solver|].
    rewrite !fupd_ne by done. apply inv_pc0.
  - rewrite inv_noff0. cbn. destruct (decide (h0 = h)) as [->|Hne]; [|by rewrite !fupd_ne].
    rewrite !fupd_eq, Hpc, size_union, size_singleton by set_solver. cbn. lia.
  - apply inv_sie0.
Qed.

Lemma inv_release c h lk :
  inv c -> cf_pc c h = PcRun -> holding h lk (cf_m c) = Ok true (cf_m c) ->
  inv (MkConfig
    (put_lock lk (MkSpinlock (sl_locked (get_lock lk (cf_m c))) None) (cf_m c))
    (fupd (cf_pc c) h (PcClear lk)) (fupd (cf_held c) h (cf_held c h ∖ {[lk]}))).
Proof.
  intros [] Hpc Hh. apply holding_run in Hh as [_ Hh].
  destruct (proj1 Hh eq_refl) as [Hlocked Hcpu]. pose proof (proj1 (inv_cpu0 _ _) Hcpu) as Hin.
  assert (Hpre : forall h' lk', owner (MkConfig (cf_m c) (fupd (cf_pc c) h (PcClear lk))
      (fupd (cf_held c) h (cf_held c h ∖ {[lk]}))) h' lk' -> owner c h' lk').
  { intros h' lk' Ho. split_upd; [|done]. set_solver. }
  split; intros *; cbn [cf_m]; spin_simpl.
  - intros H1%Hpre H2%Hpre. by apply (inv_unique0 _ _ lk0).
  - intros H1%Hpre%inv_locked0. case_decide; subst; done.
  - cbn. destruct (decide (lk = lk0)) as [<-|Hl]; cbn.
    + split; [done|]. intros Hin'. destruct (decide (h0 = h)) as [->|Hne].
      * rewrite fupd_eq in Hin'. set_solver.
      * rewrite fupd_ne in Hin' by done. exfalso. apply Hne.
        apply (inv_unique0 _ _ lk); by left.
    + rewrite inv_cpu0. destruct (decide (h0 = h)) as [->|Hne];
        [rewrite fupd_eq; set_solver|by rewrite fupd_ne].
  - cbn. destruct (decide (h0 = h)) as [->|Hne]; [rewrite !fupd_eq; set_solver|].
    rewrite !fupd_ne by done. apply inv_pc0.
  - rewrite inv_noff0. cbn. destruct (decide (h0 = h)) as [->|Hne]; [|by rewrite !fupd_ne].
    rewrite !fupd_eq, Hpc, size_difference, size_singleton by set_solver. cbn.
    assert (size (cf_held c h) <> 0%nat) by (rewrite size_empty_iff; set_solver). lia.
  - apply inv_sie0.
Qed.

Lemma inv_clear c h lk :
  inv c -> cf_pc c h = PcClear lk ->
  inv (MkConfig (put_lock lk (MkSpinlock 0 (sl_cpu (get_lock lk (cf_m c)))) (cf_m c))
    (fupd (cf_pc c) h PcPop) (cf_held c)).
Proof.
  intros [] Hpc. assert (Hown : owner c h lk) by (by right; right).
  assert (Hpre : forall h' lk', owner (MkConfig (cf_m c) (fupd (cf_pc c) h PcPop) (cf_held c))
      h' lk' -> owner c h' lk') by (intros h' lk' Ho; split_upd; naive_solver).
  split; intros *; cbn [cf_m cf_held]; spin_simpl.
  - intros H1%Hpre H2%Hpre. by apply (inv_unique0 _ _ lk0).
  - intros H1. pose proof (Hpre _ _ H1) as H2. case_decide; subst; cbn; [|by eapply inv_locked0].
    exfalso. pose proof (inv_unique0 _ _ _ H2 Hown) as ->. unfold owner in H1. cbn in H1.
    rewrite fupd_eq in H1.
    destruct H1 as [H1|[?|?]]; try done. by apply (inv_pc0 h lk0 (or_intror Hpc)).
  - case_decide; subst; apply inv_cpu0.
  - cbn. destruct (decide (h0 = h)) as [->|Hne]; [rewrite fupd_eq; naive_solver|].
    rewrite fupd_ne by done. apply inv_pc0.
  - rewrite inv_noff0. cbn. destruct (decide (h0 = h)) as [->|Hne]; [|by rewrite fupd_ne].
    by rewrite fupd_eq, Hpc.
  - apply inv_sie0.
Qed.

Lemma inv_pop c h m1 :
  inv c -> cf_pc c h = PcPop -> pop_off h (cf_m c) = Ok tt m1 ->
  inv (MkConfig m1 (fupd (cf_pc c) h PcRun) (cf_held c)).
Proof.
  intros [] Hpc Hp. pose proof (inv_noff0 h) as Hn. rewrite Hpc in Hn. cbn in Hn.
  destruct (pop_off_run h (cf_m c)) as (m' & E & HL & HO & HC); [apply inv_sie0; lia|lia|].
  rewrite E in Hp. injection Hp as ->.
  split; intros *; cbn [cf_m]; rewrite ?(get_lock_same _ _ _ HL).
  - intros H1 H2. apply (inv_unique0 _ _ lk); split_upd; naive_solver.
  - intros H1. apply (inv_locked0 h0). split_upd; naive_solver.
  - apply inv_cpu0.
  - split_upd; [naive_solver|apply inv_pc0].
  - destruct (decide (h0 = h)) as [->|Hne].
    + rewrite HC. cbn. rewrite fupd_eq, Hn. cbn. lia.
    + rewrite HO, inv_noff0 by done. cbn. by rewrite fupd_ne.
  - destruct (decide (h0 = h)) as [->|Hne]; [|rewrite HO by done; apply inv_sie0].
    rewrite HC. cbn. intros Hne. destruct (Z.eqb_spec (c_noff (get_cpu h (cf_m c))) 1); [lia|done].
Qed.

Lemma inv_reachable c : reachable c -> inv c.
Proof.
  induction 1 as [|c c' _ IH Hs]; [apply inv_init|].
  inversion Hs; subst; eauto using inv_intr, inv_acquire, inv_spin, inv_win, inv_setcpu,
    inv_release, inv_clear, inv_pop.
Qed.

(** C32: in every interleaving of the harts' instructions, at most one hart is between a
    completed acquire() and the matching release() of a lock; holding() answers exactly
    whether its own hart is, whatever the other harts are doing; and a hart that holds any
    lock has its interrupts off. *)
Theorem spinlock_mutual_exclusion c :
  reachable c ->
  (forall h1 h2 lk, lk ∈ cf_held c h1 -> lk ∈ cf_held c h2 -> h1 = h2) /\
  (forall h lk, holding h lk (cf_m c) = Ok (bool_decide (lk ∈ cf_held c h)) (cf_m c)) /\
  (forall h, cf_held c h <> ∅ -> c_sie (get_cpu h (cf_m c)) = false).
Proof.
  intros [Hu Hl Hc _ Hn Hs]%inv_reachable. split; [|split].
  - intros h1 h2 lk H1 H2. apply (Hu _ _ lk); by left.
  - intros h lk. unfold holding, gets. f_equal.
    destruct (decide (lk ∈ cf_held c h)) as [Hin|Hin].
    + rewrite (bool_decide_true (lk ∈ _)) by done. pose proof (proj2 (Hc _ _) Hin) as ->.
      rewrite bool_decide_true by done.
      by pose proof (proj2 (Z.eqb_neq _ _) (Hl h lk (or_introl Hin))) as ->.
    + rewrite !bool_decide_false; [apply andb_false_r|done|by rewrite Hc].
  - intros h Hh. apply Hs. rewrite Hn. 
    assert (size (cf_held c h) <> 0%nat) by (by rewrite size_empty_iff, leibniz_equiv_iff). lia.
Qed.

(** Hart 0 in its critical section while hart 1 spins on the same lock. *)
Lemma spinlock_mutual_exclusion_witness :
  exists c, reachable c /\ LKmem ∈ cf_held c 0%nat /\ cf_pc c 1%nat = PcSpin LKmem /\
    forall h, LKmem ∈ cf_held c h -> h = 0%nat.
Proof.
  assert (exists c, reachable c /\ cf_pc c 1%nat = PcSpin LKmem /\
    cf_held c = fupd (fun _ => ∅) 0%nat ({[LKmem]} ∪ ∅)) as (c & Hr & Hp & Hc).
  { eexists. split; [|split].
    - eapply reach_step; [eapply reach_step; [eapply reach_step; [eapply reach_step;
        [apply reach_init|]|]|]|].
      + eapply (step_acquire _ 0%nat LKmem); reflexivity.
      + eapply (step_win _ 0%nat LKmem); reflexivity.
      + eapply (step_setcpu _ 0%nat LKmem); reflexivity.
      + eapply (step_acquire _ 1%nat LKmem); reflexivity.
    - reflexivity.
    - reflexivity. }
  assert (Hin : LKmem ∈ cf_held c 0%nat)
    by (rewrite Hc; apply elem_of_union_l, elem_of_singleton; reflexivity).
  exists c. split; [exact Hr|]. split; [exact Hin|]. split; [exact Hp|].
  intros h Hh. exact (proj1 (spinlock_mutual_exclusion c Hr) h 0%nat LKmem Hh Hin).
Defined.

End Interleaved.
