(* ===== verification/CString.v ===== *)
(** * kernel/string.c

    The byte routines, on physical memory, loop for loop.  Pointers are plain addresses: no
    caller passes a range that wraps around the address space. *)

From S2P Require Import Prelude Machine.

Module CString.

(** [for(i = 0; i < n; i++) cdst[i] = c;] *)
Fixpoint memset_loop (m : memory) (cdst i c : Z) (k : nat) : memory :=
  match k with
  | O => m
  | S k' => memset_loop (store8 m (cdst + i) c) cdst (i + 1) c k'
  end.

Definition memset (m : memory) (dst c n : Z) : memory := memset_loop m dst 0 c (Z.to_nat (u32 n)).

(** The loop returns at the first difference. *)
Fixpoint memcmp_loop (m : memory) (s1 s2 : Z) (k : nat) : Z :=
  match k with
  | O => 0
  | S k' =>
      if negb (load8 m s1 =? load8 m s2) then load8 m s1 - load8 m s2
      else memcmp_loop m (s1 + 1) (s2 + 1) k'
  end.

Definition memcmp (m : memory) (v1 v2 n : Z) : Z := memcmp_loop m v1 v2 (Z.to_nat (u32 n)).

(** [while(n-- > 0) *d++ = *s++;] *)
Fixpoint copy_up (m : memory) (d s : Z) (k : nat) : memory :=
  match k with
  | O => m
  | S k' => copy_up (store8 m d (load8 m s)) (d + 1) (s + 1) k'
  end.

(** [while(n-- > 0) *--d = *--s;] *)
Fixpoint copy_down (m : memory) (d s : Z) (k : nat) : memory :=
  match k with
  | O => m
  | S k' => copy_down (store8 m (d - 1) (load8 m (s - 1))) (d - 1) (s - 1) k'
  end.

Definition memmove (m : memory) (dst src n : Z) : memory :=
  let n := u32 n in
  if n =? 0 then m
  else if (src <? dst) && (src + n >? dst)
  then copy_down m (dst + n) (src + n) (Z.to_nat n)
  else copy_up m dst src (Z.to_nat n).

Definition memcpy (m : memory) (dst src n : Z) : memory := memmove m dst src n.

(** [while(n > 0 && *p && *p == *q) n--, p++, q++;] and the final comparison. *)
Fixpoint strncmp_loop (m : memory) (p q : Z) (k : nat) : Z :=
  match k with
  | O => 0
  | S k' =>
      if negb (load8 m p =? 0) && (load8 m p =? load8 m q)
      then strncmp_loop m (p + 1) (q + 1) k'
      else load8 m p - load8 m q
  end.

Definition strncmp (m : memory) (p q n : Z) : Z := strncmp_loop m p q (Z.to_nat (u32 n)).

(** [while(n-- > 0) *s++ = 0;] *)
Fixpoint zero_pad (m : memory) (s : Z) (k : nat) : memory :=
  match k with
  | O => m
  | S k' => zero_pad (store8 m s 0) (s + 1) k'
  end.

(** The copying loop, which stops after storing a NUL, then the padding loop. *)
Fixpoint strncpy_loop (m : memory) (s t : Z) (k : nat) : memory :=
  match k with
  | O => m
  | S k' =>
      let c := load8 m t in
      let m1 := store8 m s c in
      if negb (u8 c =? 0) then strncpy_loop m1 (s + 1) (t + 1) k'
      else zero_pad m1 (s + 1) k'
  end.

Definition strncpy (m : memory) (s t n : Z) : memory := strncpy_loop m s t (Z.to_nat n).

(** The copying loop and the final [*s = 0;], entered with [k] = n - 1. *)
Fixpoint safestrcpy_loop (m : memory) (s t : Z) (k : nat) : memory :=
  match k with
  | O => store8 m s 0
  | S k' =>
      let c := load8 m t in
      let m1 := store8 m s c in
      if negb (u8 c =? 0) then safestrcpy_loop m1 (s + 1) (t + 1) k'
      else store8 m1 (s + 1) 0
  end.

Definition safestrcpy (m : memory) (s t n : Z) : memory :=
  if n <=? 0 then m else safestrcpy_loop m s t (Z.to_nat (n - 1)).

(** [for(n = 0; s[n]; n++) ;]; [None] when no NUL is met within [fuel] bytes. *)
Fixpoint strlen_loop (m : memory) (s n : Z) (fuel : nat) : option Z :=
  match fuel with
  | O => None
  | S f => if load8 m (s + n) =? 0 then Some n else strlen_loop m s (n + 1) f
  end.

Definition strlen (fuel : nat) (m : memory) (s : Z) : option Z := strlen_loop m s 0 fuel.

(** safestrcpy() between two char arrays that are fields of structs or locals, as lists of
    bytes; entered with [k] = n - 1. *)
Fixpoint safestrcpy_bytes (dst src : list Z) (k : nat) : list Z :=
  match k, dst, src with
  | O, _ :: dst', _ => 0 :: dst'
  | S k', _ :: dst', c :: src' =>
      c :: (if c =? 0 then match dst' with _ :: d2 => 0 :: d2 | [] => [] end
            else safestrcpy_bytes dst' src' k')
  | _, _, _ => dst
  end.

(** The C string a byte array holds. *)
Fixpoint c_string (bs : list Z) : list Z :=
  match bs with
  | [] => []
  | b :: bs' => if b =? 0 then [] else b :: c_string bs'
  end.

#[global] Arguments memset : simpl never.
#[global] Arguments memmove : simpl never.

(** ** Pointwise specifications *)

Lemma memset_loop_spec m cdst i c k a :
  memset_loop m cdst i c k a =
    if (cdst + i <=? a) && (a <? cdst + i + Z.of_nat k) then u8 c else m a.
Proof.
  revert m i. induction k as [|k IH]; intros m i; cbn [memset_loop]; [by zcases|].
  rewrite IH. unfold store8. by zcases.
Qed.

Lemma memset_spec m dst c n a :
  0 <= n < 2 ^ 32 ->
  memset m dst c n a = if (dst <=? a) && (a <? dst + n) then u8 c else m a.
Proof.
  intros Hn. unfold memset. rewrite memset_loop_spec, u32_small by done.
  by rewrite Z2Nat.id, Z.add_0_r by lia.
Qed.

Lemma memset_ok m dst c n : 0 <= n < 2 ^ 32 -> mem_ok m -> mem_ok (memset m dst c n).
Proof.
  intros Hn Hm a. rewrite memset_spec by done.
  destruct (_ && _); [apply u8_range|apply Hm].
Qed.

Lemma copy_up_spec m d s k a :
  mem_ok m -> d <= s \/ s + Z.of_nat k <= d ->
  copy_up m d s k a = if (d <=? a) && (a <? d + Z.of_nat k) then m (s + (a - d)) else m a.
Proof.
  revert m d s. induction k as [|k IH]; intros m d s Hm Hov; cbn [copy_up]; [by zcases|].
  rewrite IH; [|by apply store8_ok|lia]. unfold store8, load8.
  zcases; rewrite ?u8_small by apply Hm; try done; f_equal; lia.
Qed.

Lemma copy_down_spec m d s k a :
  mem_ok m -> s <= d ->
  copy_down m d s k a =
    if (d - Z.of_nat k <=? a) && (a <? d) then m (s - (d - a)) else m a.
Proof.
  revert m d s. induction k as [|k IH]; intros m d s Hm Hov; cbn [copy_down]; [by zcases|].
  rewrite IH; [|by apply store8_ok|lia]. unfold store8, load8.
  zcases; rewrite ?u8_small by apply Hm; try done; f_equal; lia.
Qed.

Lemma memmove_run m dst src n a :
  mem_ok m -> 0 <= n < 2 ^ 32 ->
  memmove m dst src n a = if (dst <=? a) && (a <? dst + n) then m (src + (a - dst)) else m a.
Proof.
  intros Hm Hn. unfold memmove. rewrite u32_small by done.
  destruct (Z.eqb_spec n 0) as [->|Hn0]; [by zcases|].
  rewrite Z.gtb_ltb.
  destruct (Z.ltb_spec src dst), (Z.ltb_spec dst (src + n)); cbn [andb];
    rewrite ?copy_down_spec, ?copy_up_spec, ?Z2Nat.id by (done || lia);
    zcases; try done; f_equal; lia.
Qed.

Lemma memmove_ok m dst src n : 0 <= n < 2 ^ 32 -> mem_ok m -> mem_ok (memmove m dst src n).
Proof. intros Hn Hm a. rewrite memmove_run by done. destruct (_ && _); apply Hm. Qed.

(** safestrcpy() in memory is the byte-array version when the arrays do not overlap. *)
Lemma safestrcpy_loop_out m s t k x :
  ~ (s <= x < s + Z.of_nat (S k)) -> safestrcpy_loop m s t k x = m x.
Proof.
  revert m s t. induction k as [|k IH]; intros m s t Hx; cbn [safestrcpy_loop].
  - apply store8_ne. lia.
  - destruct (negb _).
    + rewrite IH by lia. apply store8_ne. lia.
    + rewrite !store8_ne by lia. done.
Qed.

Lemma safestrcpy_loop_bytes m s t k :
  mem_ok m -> s + Z.of_nat (S k) <= t \/ t + Z.of_nat (S k) <= s ->
  load_bytes (safestrcpy_loop m s t k) s (S k) =
    safestrcpy_bytes (load_bytes m s (S k)) (load_bytes m t (S k)) k.
Proof.
  revert m s t. induction k as [|k IH]; intros m s t Hm Hd.
  - cbn. unfold load8. by rewrite store8_same.
  - cbn [safestrcpy_loop]. rewrite u8_small by apply Hm.
    change (load_bytes m s (S (S k))) with (m s :: load_bytes m (s + 1) (S k)).
    change (load_bytes m t (S (S k))) with (m t :: load_bytes m (t + 1) (S k)).
    cbn [safestrcpy_bytes]. unfold load8.
    destruct (Z.eqb_spec (m t) 0) as [Ht|Ht]; cbn [negb].
    + change (load_bytes ?m' s (S (S k))) with (m' s :: m' (s + 1) :: load_bytes m' (s + 1 + 1) k).
      cbn [load_bytes]. rewrite (store8_ne _ (s + 1)) by lia. rewrite !store8_same, Ht.
      do 2 f_equal. apply load_bytes_same. intros x Hx. by rewrite !store8_ne by lia.
    + change (load_bytes ?m' s (S (S k))) with (m' s :: load_bytes m' (s + 1) (S k)).
      rewrite safestrcpy_loop_out by lia. rewrite store8_same, u8_small by apply Hm. f_equal.
      rewrite IH by (by apply store8_ok || lia).
      f_equal; apply load_bytes_same; intros x Hx; apply store8_ne; lia.
Qed.

Lemma safestrcpy_loop_nul m s t k :
  mem_ok m -> exists i, (i < S k)%nat /\ safestrcpy_loop m s t k (s + Z.of_nat i) = 0.
Proof.
  revert m s t. induction k as [|k IH]; intros m s t Hm.
  - exists 0%nat. split; [lia|]. replace (s + Z.of_nat 0) with s by lia. cbn. apply store8_same.
  - cbn [safestrcpy_loop]. destruct (negb _).
    + destruct (IH (store8 m s (load8 m t)) (s + 1) (t + 1)) as (i & Hi & E); [by apply store8_ok|].
      exists (S i). split; [lia|]. rewrite <- E. f_equal. lia.
    + exists 1%nat. split; [lia|]. replace (s + Z.of_nat 1) with (s + 1) by lia.
      apply store8_same.
Qed.

Lemma c_string_stop x rest : 0 ∉ x -> c_string (x ++ 0 :: rest) = x.
Proof.
  induction x as [|a x IH]; intros H; cbn; [done|]. apply not_elem_of_cons in H as [H1 H2].
  rewrite (proj2 (Z.eqb_neq a 0)) by done. by rewrite IH.
Qed.

Lemma c_string_safestrcpy dst src k :
  length dst = S k -> (k < length src)%nat ->
  c_string (safestrcpy_bytes dst src k) = take k (c_string src).
Proof.
  revert dst src. induction k as [|k IH]; intros dst src Hd Hs; destruct dst as [|d dst]; try done.
  destruct src as [|c src]; [cbn in Hs; lia|]. cbn [safestrcpy_bytes c_string].
  destruct (Z.eqb_spec c 0) as [->|Hc]; [done|].
  cbn [c_string take]. destruct (Z.eqb_spec c 0); [done|].
  cbn in *. f_equal. apply IH; lia.
Qed.

(** safestrcpy(s, t, n) into an n-byte array disjoint from the source stores, within the
    array only, a NUL-terminated string: the first n-1 characters of the source string, or the
    whole of it when it is shorter. *)
Theorem safestrcpy_truncates m s t n :
  mem_ok m -> 0 < n < 2 ^ 31 -> s + n <= t \/ t + n <= s ->
  (forall x, ~ (s <= x < s + n) -> safestrcpy m s t n x = m x) /\
  c_string (load_bytes (safestrcpy m s t n) s (Z.to_nat n)) =
    take (Z.to_nat (n - 1)) (c_string (load_bytes m t (Z.to_nat n))) /\
  exists i, (i < Z.to_nat n)%nat /\ safestrcpy m s t n (s + Z.of_nat i) = 0.
Proof.
  intros Hm Hn Hd. unfold safestrcpy. destruct (Z.leb_spec n 0); [lia|].
  replace (Z.to_nat n) with (S (Z.to_nat (n - 1))) by lia.
  set (k := Z.to_nat (n - 1)). assert (Hk : n = Z.of_nat (S k)) by lia. split_and!.
  - intros x Hx. apply safestrcpy_loop_out. by rewrite <- Hk.
  - rewrite safestrcpy_loop_bytes by (done || lia).
    apply c_string_safestrcpy; rewrite length_load_bytes; lia.
  - by apply safestrcpy_loop_nul.
Qed.


(** From here on the byte loops are used through their lemmas. *)
#[global] Opaque memset memmove.

End CString.
