(* ===== verification/Kalloc.v ===== *)
(** * kernel/kalloc.c: the physical page allocator

    The free list is threaded through the free pages themselves: the first eight bytes of a
    free page hold the address of the next one.  [free_list] relates that memory to an
    abstract list of pages, and [PageAllocator] is the contract the rest of the kernel
    relies on. *)

From S2P Require Import Prelude Machine State Locks CString.

Module Kalloc.
Import CString.

Section code.
Context {img : Image}.

(** [kfree(pa)]; [r->next] is the first word of the page. *)
Definition kfree (pa : Z) : K unit :=
  if negb (pa mod PGSIZE =? 0) || (pa <? image_end) || (pa >=? PHYSTOP)
  then panic "kfree" else
  modify (fun s => set_k_mem (memset (k_mem s) pa 1 PGSIZE) s) ;;
  acquire LKmem ;;
  modify (fun s => set_k_mem (store64 (k_mem s) pa (k_freelist s)) s) ;;
  modify (set_k_freelist pa) ;;
  release LKmem.

(** [kalloc()]; 0 is the null pointer. *)
Definition kalloc : K Z :=
  acquire LKmem ;;
  r <- gets k_freelist ;;
  whenM (negb (r =? 0)) (modify (fun s => set_k_freelist (load64 (k_mem s) r) s)) ;;
  release LKmem ;;
  whenM (negb (r =? 0)) (modify (fun s => set_k_mem (memset (k_mem s) r 5 PGSIZE) s)) ;;
  retM r.

(** The values of [p] in [for(; p + PGSIZE <= pa_end; p += PGSIZE)]. *)
Definition page_range (p pa_end : Z) : list Z :=
  (fun i => p + Z.of_nat i * PGSIZE) <$> seq 0 (Z.to_nat ((pa_end - p) / PGSIZE)).

Definition freerange (pa_start pa_end : Z) : K unit :=
  for_loop (page_range (PGROUNDUP pa_start) pa_end)
    (fun p => kfree p ;; retM (@Continue unit)) ;;
  retM tt.

(** [initlock(&kmem.lock)] leaves the lock free, as it is at boot. *)
Definition kinit : K unit := freerange image_end PHYSTOP.

(** ** Specification *)

Definition page_ok (p : Z) : Prop := p mod PGSIZE = 0 /\ image_end <= p < PHYSTOP.

Fixpoint free_list (m : memory) (head : Z) (l : list Z) : Prop :=
  match l with
  | [] => head = 0
  | p :: l' => head = p /\ free_list m (load64 m p) l'
  end.

Definition kmem_inv (s : kstate) (l : list Z) : Prop :=
  free_list (k_mem s) (k_freelist s) l /\ NoDup l /\ Forall page_ok l /\ mem_ok (k_mem s).

End code.

(** A client's sequence of calls, and the abstract allocator: a stack of free pages.  The
    specification is undefined on the two misuses the code does not catch or panics on: a
    page that is already free, and an address that is not a page of the pool. *)
Section stack.
Context {img : Image}.

Inductive kop : Type :=
| OpAlloc
| OpFree (p : Z).

#[export] Instance page_ok_dec p : Decision (page_ok p).
Proof. unfold page_ok. apply _. Defined.

Definition spec_op (o : kop) (l : list Z) : option (Z * list Z) :=
  match o with
  | OpAlloc => Some (match l with [] => (0, []) | p :: l' => (p, l') end)
  | OpFree p => if decide (page_ok p /\ p ∉ l) then Some (0, p :: l) else None
  end.

Definition run_op (o : kop) : K Z :=
  match o with
  | OpAlloc => kalloc
  | OpFree p => kfree p ;; retM 0
  end.

Fixpoint spec_run (ops : list kop) (l : list Z) : option (list Z * list Z) :=
  match ops with
  | [] => Some ([], l)
  | o :: ops' =>
      match spec_op o l with
      | Some (r, l1) =>
          match spec_run ops' l1 with Some (rs, l2) => Some (r :: rs, l2) | None => None end
      | None => None
      end
  end.

Fixpoint run_ops (ops : list kop) : K (list Z) :=
  match ops with
  | [] => retM []
  | o :: ops' => r <- run_op o ;; rs <- run_ops ops' ;; retM (r :: rs)
  end.

End stack.

(** A step that changes nothing but physical memory and the head of the free list. *)
Definition mem_only (s s' : kstate) : Prop :=
  s' = set_k_mem (k_mem s') (set_k_freelist (k_freelist s') s).

(** Memory outside one page is untouched. *)
Definition same_outside (p : Z) (m m' : memory) : Prop :=
  forall a, ~ (p <= a < p + PGSIZE) -> m' a = m a.

(** What the kernel relies on: [owns s l] says the allocator has exactly the pages [l]. *)
Class PageAllocator {img : Image} (owns : kstate -> list Z -> Prop)
    (alloc : K Z) (free : Z -> K unit) : Prop := {
  owns_page_ok s l : owns s l -> Forall page_ok l /\ NoDup l /\ mem_ok (k_mem s);
  alloc_none s : owns s [] -> LKmem ∉ k_held s -> alloc s = Ok 0 s;
  alloc_some s p l : owns s (p :: l) -> LKmem ∉ k_held s ->
    exists s', alloc s = Ok p s' /\ owns s' l /\ mem_only s s' /\
      same_outside p (k_mem s) (k_mem s') /\
      (forall a, p <= a < p + PGSIZE -> k_mem s' a = 5);
  free_some s p l : owns s l -> page_ok p -> p ∉ l -> LKmem ∉ k_held s ->
    exists s', free p s = Ok tt s' /\ owns s' (p :: l) /\ mem_only s s' /\
      same_outside p (k_mem s) (k_mem s');
  owns_frame s s' l : owns s l -> k_freelist s' = k_freelist s -> mem_ok (k_mem s') ->
    (forall p a, p ∈ l -> p <= a < p + PGSIZE -> k_mem s' a = k_mem s a) -> owns s' l
}.

(** ** Lemmas *)

Section proofs.
Context {img : Image}.

Lemma page_ok_pos p : page_ok p -> 0 < p /\ p + PGSIZE <= 2 ^ 56.
Proof.
  intros [_ H]. pose proof image_end_range as Hr. unfold PHYSTOP, KERNBASE, PGSIZE in *. lia.
Qed.

Lemma pages_disjoint p q a :
  p mod PGSIZE = 0 -> q mod PGSIZE = 0 -> p <> q ->
  p <= a < p + PGSIZE -> ~ (q <= a < q + PGSIZE).
Proof. unfold PGSIZE. intros Hp Hq Hne H1 H2. dlia. Qed.

Lemma free_list_same m m' head l :
  (forall p a, p ∈ l -> p <= a < p + PGSIZE -> m' a = m a) ->
  free_list m head l -> free_list m' head l.
Proof.
  revert head. induction l as [|p l IH]; intros head Hm; cbn [free_list]; [done|].
  intros [-> Hl]. split; [done|].
  rewrite (load64_same m); [|intros a Ha; apply (Hm p); [by left|unfold PGSIZE; lia]].
  apply IH; [|done]. intros q a Hq. apply Hm. by right.
Qed.

Lemma memset_page_out m p c a :
  ~ (p <= a < p + PGSIZE) -> memset m p c PGSIZE a = m a.
Proof. intros H. rewrite memset_spec by (unfold PGSIZE; lia). by zcases. Qed.

Lemma memset_page_in m p c a :
  0 <= c < 256 -> p <= a < p + PGSIZE -> memset m p c PGSIZE a = c.
Proof.
  intros Hc H. rewrite memset_spec, u8_small by (unfold PGSIZE; lia). by zcases.
Qed.

Lemma kmem_inv_frame s s' l :
  kmem_inv s l -> k_freelist s' = k_freelist s -> mem_ok (k_mem s') ->
  (forall p a, p ∈ l -> p <= a < p + PGSIZE -> k_mem s' a = k_mem s a) -> kmem_inv s' l.
Proof.
  intros (Hl & Hnd & Hok & _) Hf Hm Hsame. split_and!; try done.
  rewrite Hf. by apply (free_list_same (k_mem s)).
Qed.

Lemma kalloc_none s : kmem_inv s [] -> LKmem ∉ k_held s -> kalloc s = Ok 0 s.
Proof.
  intros (Hl & _) Hlk. cbn in Hl. unfold kalloc.
  mcall acquire_ok. cbn [k_freelist set_k_held]. rewrite Hl. cbn [Z.eqb negb]. mrun.
  erewrite bind_ok by (apply release_ok; cbn; set_solver). mrun.
  unfold retM. f_equal. cbn [k_held set_k_held].
  by rewrite held_add_remove, set_k_held_twice, set_k_held_held.
Qed.

Lemma kalloc_some s p l :
  kmem_inv s (p :: l) -> LKmem ∉ k_held s ->
  exists s', kalloc s = Ok p s' /\ kmem_inv s' l /\ mem_only s s' /\
    same_outside p (k_mem s) (k_mem s') /\
    (forall a, p <= a < p + PGSIZE -> k_mem s' a = 5).
Proof.
  intros ((Hp & Hl) & [Hnin Hnd]%NoDup_cons & [Hok Hoks]%Forall_cons & Hm) Hlk.
  pose proof (page_ok_pos p Hok) as [Hpos _].
  unfold kalloc. mcall acquire_ok. cbn [k_freelist k_mem set_k_held]. rewrite Hp.
  destruct (Z.eqb_spec p 0); [lia|]. cbn [negb]. mrun.
  erewrite bind_ok by (apply release_ok; cbn; set_solver). mrun.
  eexists. split; [reflexivity|].
  cbn [k_held set_k_held set_k_freelist set_k_mem k_mem k_freelist].
  rewrite held_add_remove by done. unfold kmem_inv. split_and!; ksimpl.
  - eapply free_list_same; [|exact Hl]. intros q a Hq Ha. apply memset_page_out.
    rewrite Forall_forall in Hoks. apply (pages_disjoint q p); [by apply Hoks|by apply Hok| |done].
    by intros ->.
  - done.
  - done.
  - apply memset_ok; [unfold PGSIZE; lia|done].
  - unfold mem_only. cbn. by destruct s.
  - intros a. apply memset_page_out.
  - intros a. apply memset_page_in. lia.
Qed.

Lemma kfree_some s p l :
  kmem_inv s l -> page_ok p -> p ∉ l -> LKmem ∉ k_held s ->
  exists s', kfree p s = Ok tt s' /\ kmem_inv s' (p :: l) /\ mem_only s s' /\
    same_outside p (k_mem s) (k_mem s').
Proof.
  intros (Hl & Hnd & Hoks & Hm) Hok Hnin Hlk.
  pose proof (page_ok_pos p Hok) as [Hpos _].
  unfold kfree. destruct Hok as [Hal Hrng].
  replace (_ || _ || _) with false by (rewrite Hal; lia). mrun.
  erewrite bind_ok by (by apply acquire_ok). mrun.
  rewrite release_ok by (cbn; set_solver). eexists. split; [reflexivity|].
  assert (Hout : forall a, ~ (p <= a < p + PGSIZE) ->
    store64 (memset (k_mem s) p 1 PGSIZE) p (k_freelist s) a = k_mem s a).
  { intros a Ha. rewrite store64_out by (unfold PGSIZE in *; lia). by apply memset_page_out. }
  cbn [k_held set_k_held set_k_freelist set_k_mem k_mem k_freelist].
  rewrite held_add_remove by done. unfold kmem_inv. split_and!; ksimpl; try done.
  - split; [done|]. rewrite load64_store64, u64_small.
    + eapply free_list_same; [|exact Hl]. intros q a Hq Ha. apply Hout.
      rewrite Forall_forall in Hoks. apply (pages_disjoint q p); [by apply Hoks|done| |done].
      by intros ->.
    + destruct l as [|q l]; [by rewrite Hl|]. destruct Hl as [-> _].
      apply Forall_cons in Hoks as [Hq _]. apply page_ok_pos in Hq. unfold PGSIZE in *. lia.
  - by apply NoDup_cons.
  - by apply Forall_cons.
  - apply store64_ok, memset_ok; [unfold PGSIZE; lia|done].
Qed.

#[export] Instance kalloc_allocator : PageAllocator kmem_inv kalloc kfree.
Proof.
  split.
  - by intros s l (_ & ? & ? & ?).
  - apply kalloc_none.
  - apply kalloc_some.
  - apply kfree_some.
  - intros. by eapply kmem_inv_frame.
Qed.

Lemma mem_only_refl s : mem_only s s.
Proof. unfold mem_only. by destruct s. Qed.

Lemma mem_only_trans s1 s2 s3 : mem_only s1 s2 -> mem_only s2 s3 -> mem_only s1 s3.
Proof. unfold mem_only. intros H1 H2. rewrite H2, H1. done. Qed.

Lemma mem_only_held s s' : mem_only s s' -> k_held s' = k_held s.
Proof. unfold mem_only. by intros ->. Qed.

Lemma run_op_spec o s l r l' :
  kmem_inv s l -> LKmem ∉ k_held s -> spec_op o l = Some (r, l') ->
  exists s', run_op o s = Ok r s' /\ kmem_inv s' l' /\ mem_only s s'.
Proof.
  intros Hs Hlk. destruct o as [|p]; cbn.
  - destruct l as [|p l]; intros [= <- <-].
    + exists s. rewrite kalloc_none by done. eauto using mem_only_refl.
    + destruct (kalloc_some s p l) as (s' & ? & ? & ? & _); eauto.
  - case_decide as Hp; [|done]. intros [= <- <-]. destruct Hp as [Hp Hn].
    destruct (kfree_some s p l) as (s' & E & ? & ? & _); try done.
    erewrite bind_ok by exact E. eauto.
Qed.

(** C31: the page allocator is a stack of free pages.  Any sequence of kalloc() and kfree()
    calls in which only pages of the pool that are not already free are freed runs without a
    panic, returns the pages the stack would return (0 when it is empty), and leaves the
    linked list in memory equal to the stack; it changes nothing of the kernel's state but
    physical memory and the list head, and holds no lock at the end. *)
Theorem kalloc_refines_stack ops s l rs l' :
  kmem_inv s l -> LKmem ∉ k_held s -> spec_run ops l = Some (rs, l') ->
  exists s', run_ops ops s = Ok rs s' /\ kmem_inv s' l' /\ mem_only s s'.
Proof.
  revert s l rs. induction ops as [|o ops IH]; intros s l rs Hs Hlk; cbn.
  - intros [= <- <-]. exists s. eauto using mem_only_refl.
  - destruct (spec_op o l) as [[r l1]|] eqn:E1; [|done].
    destruct (spec_run ops l1) as [[rs' l2]|] eqn:E2; [|done]. intros [= <- <-].
    destruct (run_op_spec o s l r l1) as (s1 & R1 & H1 & M1); try done.
    destruct (IH s1 l1 rs') as (s2 & R2 & H2 & M2);
      [done|by rewrite (mem_only_held _ _ M1)|done|].
    exists s2. erewrite bind_ok by exact R1. erewrite bind_ok by exact R2.
    eauto using mem_only_trans.
Qed.

Lemma elem_page_range p e q :
  p <= e -> q ∈ page_range p e <->
  exists i, q = p + i * PGSIZE /\ 0 <= i /\ q + PGSIZE <= e.
Proof.
  intros Hpe. unfold page_range. rewrite list_elem_of_fmap.
  split.
  - intros (i & -> & Hi%elem_of_seq). exists (Z.of_nat i). unfold PGSIZE in *.
    split_and!; [done|lia|dlia].
  - intros (i & -> & Hi & He). exists (Z.to_nat i). rewrite Z2Nat.id by lia.
    split; [done|]. apply elem_of_seq. unfold PGSIZE in *. split; [lia|dlia].
Qed.

Lemma NoDup_page_range p e : NoDup (page_range p e).
Proof.
  unfold page_range. apply NoDup_fmap_2; [|apply NoDup_seq].
  intros i j. unfold PGSIZE. lia.
Qed.

Lemma freerange_run s l p e :
  kmem_inv s l -> LKmem ∉ k_held s -> Forall page_ok (page_range (PGROUNDUP p) e) ->
  (forall q, q ∈ page_range (PGROUNDUP p) e -> q ∉ l) ->
  exists s', freerange p e s = Ok tt s' /\
    kmem_inv s' (reverse (page_range (PGROUNDUP p) e) ++ l) /\ mem_only s s'.
Proof.
  intros Hs Hlk Hok Hdis. unfold freerange. set (all := page_range (PGROUNDUP p) e) in *.
  assert (Hnd : NoDup all) by apply NoDup_page_range. clearbody all.
  edestruct (for_loop_inv
    (fun rest s' => exists dn, all = dn ++ rest /\ kmem_inv s' (reverse dn ++ l) /\ mem_only s s')
    (fun (_ : unit) _ => False) all (fun p => kfree p ;; retM Continue) s)
    as (o & s' & E & Ho).
  - exists []. eauto using mem_only_refl.
  - intros q rest s0 (dn & -> & Hinv & Hmo). exists Continue.
    apply NoDup_app in Hnd as (_ & Hd & _).
    destruct (kfree_some s0 q (reverse dn ++ l)) as (s1 & R & ? & ? & _); try done.
    + rewrite Forall_app, Forall_cons in Hok. apply Hok.
    + rewrite elem_of_app, elem_of_reverse. intros [Hq|Hq].
      * apply (Hd q Hq). by left.
      * apply (Hdis q); [set_solver|done].
    + by rewrite (mem_only_held _ _ Hmo).
    + exists s1. erewrite bind_ok by exact R. split; [done|].
      exists (dn ++ [q]). rewrite <- app_assoc. split; [done|].
      rewrite reverse_app, reverse_singleton. eauto using mem_only_trans.
  - erewrite bind_ok by exact E. destruct o as [|]; [done|].
    destruct Ho as (dn & -> & ? & ?). rewrite app_nil_r in *. by exists s'.
Qed.

(** kinit() puts every whole page between the end of the kernel and PHYSTOP on the free
    list, each exactly once and in descending order, without a panic. *)
Theorem kinit_frees_all s :
  k_freelist s = 0 -> mem_ok (k_mem s) -> LKmem ∉ k_held s ->
  exists s' l, kinit s = Ok tt s' /\ kmem_inv s' l /\ mem_only s s' /\
    (forall q, q ∈ l <-> q mod PGSIZE = 0 /\ image_end <= q /\ q + PGSIZE <= PHYSTOP).
Proof.
  intros Hf Hm Hlk. pose proof image_end_range as Hr.
  assert (Hup : PGROUNDUP image_end = (image_end + PGSIZE - 1) / PGSIZE * PGSIZE)
    by (apply PGROUNDUP_eq; unfold PHYSTOP, KERNBASE, PGSIZE in *; lia).
  assert (Hin : forall q, q ∈ page_range (PGROUNDUP image_end) PHYSTOP <->
    q mod PGSIZE = 0 /\ image_end <= q /\ q + PGSIZE <= PHYSTOP).
  { intros q. rewrite elem_page_range, Hup by
      (rewrite Hup; unfold PHYSTOP, KERNBASE, PGSIZE in *; dlia).
    split.
    - intros (i & -> & ? & ?). unfold PGSIZE in *. split_and!; [|dlia|done].
      rewrite <- Z.mul_add_distr_r. apply Z.mod_mul. lia.
    - intros (H1 & H2 & H3). exists (q / PGSIZE - (image_end + PGSIZE - 1) / PGSIZE).
      unfold PGSIZE in *. split_and!; dlia. }
  destruct (freerange_run s [] image_end PHYSTOP) as (s' & E & Hinv & Hmo); try done.
  - split_and!; try done; constructor.
  - apply Forall_forall. intros q (H1 & H2 & H3)%Hin. unfold page_ok, PGSIZE in *. lia.
  - set_solver.
  - rewrite app_nil_r in Hinv. exists s', (reverse (page_range (PGROUNDUP image_end) PHYSTOP)).
    split_and!; try done. intros q. rewrite elem_of_reverse. apply Hin.
Qed.

End proofs.

Lemma kalloc_refines_stack_witness :
  exists s', run_ops (img := tiny_image) [OpFree (PHYSTOP - PGSIZE); OpAlloc; OpAlloc]
    (kstate0 (fun _ => 0)) = Ok [0; PHYSTOP - PGSIZE; 0] s' /\ kmem_inv (img := tiny_image) s' [].
Proof.
  destruct (kalloc_refines_stack (img := tiny_image) [OpFree (PHYSTOP - PGSIZE); OpAlloc; OpAlloc]
    (kstate0 (fun _ => 0)) [] [0; PHYSTOP - PGSIZE; 0] []) as (s' & H1 & H2 & _).
  - split; [reflexivity|]. split; [apply NoDup_nil_2|]. split; [apply Forall_nil_2|].
    intros a. split; [discriminate|reflexivity].
  - apply not_elem_of_empty.
  - vm_compute. reflexivity.
  - exists s'. split; [exact H1|exact H2].
Defined.

End Kalloc.
