(* ===== verification/VM.v ===== *)
(** * kernel/vm.c: Sv39 page tables and copies between kernel and user memory

    Page tables live in physical memory: a table is the address of a page of 512 64-bit
    entries, and every operation below reads and writes those words.  A char* buffer of the
    kernel (the [src] of copyout(), the [dst] of copyin()) is a list of bytes. *)

From S2P Require Import Prelude Machine State Locks CString Kalloc.

Module VM.
Import CString Kalloc.

(** myproc(): the current process.  Using a null result is a page fault taken in supervisor
    mode, on which kerneltrap() panics. *)
Definition myproc : K nat :=
  c <- gets k_cur ;;
  match c with Some p => retM p | None => panic "kerneltrap" end.

Definition get_mem {A} (f : memory -> A) : K A := gets (fun s => f (k_mem s)).
Definition put_mem (f : memory -> memory) : K unit := modify (fun s => set_k_mem (f (k_mem s)) s).

(** [*pte & mask] as a truth value. *)
Definition has (v mask : Z) : bool := negb (Z.land v mask =? 0).

Section code.
Context {img : Image}.

(** The loop of walk() over the levels above the last. *)
Fixpoint walk_loop (level : nat) (pagetable va : Z) (alloc : bool) : K Z :=
  match level with
  | O => retM (pagetable + 8 * PX 0 va)
  | S l' =>
      let pte := pagetable + 8 * PX (Z.of_nat level) va in
      v <- get_mem (fun m => load64 m pte) ;;
      if has v PTE_V then walk_loop l' (PTE2PA v) va alloc
      else if negb alloc then retM 0
      else
        pa <- kalloc ;;
        if pa =? 0 then retM 0
        else
          put_mem (fun m => memset m pa 0 PGSIZE) ;;
          put_mem (fun m => store64 m pte (Z.lor (PA2PTE pa) PTE_V)) ;;
          walk_loop l' pa va alloc
  end.

Definition walk (pagetable va : Z) (alloc : bool) : K Z :=
  if va >=? MAXVA then panic "walk" else walk_loop 2 pagetable va alloc.

Definition walkaddr (pagetable va : Z) : K Z :=
  if va >=? MAXVA then retM 0 else
  pte <- walk pagetable va false ;;
  if pte =? 0 then retM 0 else
  v <- get_mem (fun m => load64 m pte) ;;
  if negb (has v PTE_V) then retM 0
  else if negb (has v PTE_U) then retM 0
  else retM (PTE2PA v).

(** Round [i] of the loop of mappages(), which visits a = va, va + PGSIZE, ..., last with pa
    in step. *)
Definition mappages_round (pagetable va pa perm last : Z) (i : nat) : K (ctl Z) :=
  let a := u64 (va + Z.of_nat i * PGSIZE) in
  let pa := u64 (pa + Z.of_nat i * PGSIZE) in
  pte <- walk pagetable a true ;;
  if pte =? 0 then retM (Return (-1)) else
  v <- get_mem (fun m => load64 m pte) ;;
  if has v PTE_V then panic "mappages: remap" else
  put_mem (fun m => store64 m pte (Z.lor (Z.lor (PA2PTE pa) perm) PTE_V)) ;;
  if a =? last then retM Break else retM Continue.

Definition mappages (pagetable va size pa perm : Z) : K Z :=
  if negb (va mod PGSIZE =? 0) then panic "mappages: va not aligned" else
  if negb (size mod PGSIZE =? 0) then panic "mappages: size not aligned" else
  if size =? 0 then panic "mappages: size" else
  let last := u64 (va + size - PGSIZE) in
  r <- for_loop (seq 0 (S (Z.to_nat (u64 (last - va) / PGSIZE))))
         (mappages_round pagetable va pa perm last) ;;
  retM (default 0 r).

Definition kvmmap (kpgtbl va pa sz perm : Z) : K unit :=
  r <- mappages kpgtbl va sz pa perm ;;
  if negb (r =? 0) then panic "kvmmap" else retM tt.

Definition uvmcreate : K Z :=
  pagetable <- kalloc ;;
  if pagetable =? 0 then retM 0 else
  put_mem (fun m => memset m pagetable 0 PGSIZE) ;;
  retM pagetable.

(** The values of [a] in [for(a = lo; a < hi; a += PGSIZE)]. *)
Definition page_seq (lo hi : Z) : list Z :=
  (fun i => lo + Z.of_nat i * PGSIZE) <$> seq 0 (Z.to_nat ((hi - lo + PGSIZE - 1) / PGSIZE)).

Definition uvmunmap_round (pagetable : Z) (do_free : bool) (a : Z) : K (ctl unit) :=
  pte <- walk pagetable a false ;;
  if pte =? 0 then retM Continue else
  v <- get_mem (fun m => load64 m pte) ;;
  if negb (has v PTE_V) then retM Continue else
  whenM do_free (kfree (PTE2PA v)) ;;
  put_mem (fun m => store64 m pte 0) ;;
  retM Continue.

Definition uvmunmap (pagetable va npages : Z) (do_free : bool) : K unit :=
  if negb (va mod PGSIZE =? 0) then panic "uvmunmap: not aligned" else
  for_loop (page_seq va (u64 (va + npages * PGSIZE))) (uvmunmap_round pagetable do_free) ;;
  retM tt.

Definition uvmdealloc (pagetable oldsz newsz : Z) : K Z :=
  if newsz >=? oldsz then retM oldsz else
  whenM (PGROUNDUP newsz <? PGROUNDUP oldsz)
    (let npages := s32 ((PGROUNDUP oldsz - PGROUNDUP newsz) / PGSIZE) in
     uvmunmap pagetable (PGROUNDUP newsz) (u64 npages) true) ;;
  retM newsz.

Definition uvmalloc_round (pagetable oldsz xperm a : Z) : K (ctl Z) :=
  mem <- kalloc ;;
  if mem =? 0 then
    uvmdealloc pagetable a oldsz ;;
    retM (Return 0)
  else
  put_mem (fun m => memset m mem 0 PGSIZE) ;;
  e <- mappages pagetable a PGSIZE mem (Z.lor (Z.lor PTE_R PTE_U) xperm) ;;
  if negb (e =? 0) then
    kfree mem ;;
    uvmdealloc pagetable a oldsz ;;
    retM (Return 0)
  else retM Continue.

Definition uvmalloc (pagetable oldsz newsz xperm : Z) : K Z :=
  if newsz <? oldsz then retM oldsz else
  let oldsz := PGROUNDUP oldsz in
  r <- for_loop (page_seq oldsz newsz) (uvmalloc_round pagetable oldsz xperm) ;;
  retM (default newsz r).

(** The loop body of freewalk(), whose recursive call is [rec]. *)
Definition freewalk_entry (rec : Z -> K unit) (pagetable : Z) (i : nat) : K (ctl unit) :=
  let slot := pagetable + 8 * Z.of_nat i in
  pte <- get_mem (fun m => load64 m slot) ;;
  if has pte PTE_V && negb (has pte (Z.lor (Z.lor PTE_R PTE_W) PTE_X)) then
    rec (PTE2PA pte) ;;
    put_mem (fun m => store64 m slot 0) ;;
    retM Continue
  else if has pte PTE_V then panic "freewalk: leaf"
  else retM Continue.

(** freewalk() recurses once per level; [depth] bounds the recursion, and a table deeper
    than that does not return. *)
Fixpoint freewalk (depth : nat) (pagetable : Z) : K unit :=
  match depth with
  | O => block
  | S d => for_loop (seq 0 512) (freewalk_entry (freewalk d) pagetable) ;; kfree pagetable
  end.

Definition uvmfree (pagetable sz : Z) : K unit :=
  whenM (sz >? 0) (uvmunmap pagetable 0 (PGROUNDUP sz / PGSIZE) true) ;;
  freewalk 3 pagetable.

Definition uvmcopy (old new sz : Z) : K Z :=
  r <- for_loop (page_seq 0 sz) (fun i =>
         pte <- walk old i false ;;
         if pte =? 0 then retM Continue else
         v <- get_mem (fun m => load64 m pte) ;;
         if negb (has v PTE_V) then retM Continue else
         let pa := PTE2PA v in
         let flags := PTE_FLAGS v in
         mem <- kalloc ;;
         if mem =? 0 then
           uvmunmap new 0 (i / PGSIZE) true ;;
           retM (Return (-1))
         else
         put_mem (fun m => memmove m mem pa PGSIZE) ;;
         e <- mappages new i PGSIZE mem flags ;;
         if negb (e =? 0) then
           kfree mem ;;
           uvmunmap new 0 (i / PGSIZE) true ;;
           retM (Return (-1))
         else retM Continue) ;;
  retM (default 0 r).

Definition uvmclear (pagetable va : Z) : K unit :=
  pte <- walk pagetable va false ;;
  if pte =? 0 then panic "uvmclear" else
  put_mem (fun m => store64 m pte (Z.land (load64 m pte) (Z.lnot PTE_U))).

Definition ismapped (pagetable va : Z) : K bool :=
  pte <- walk pagetable va false ;;
  if pte =? 0 then retM false else
  v <- get_mem (fun m => load64 m pte) ;;
  retM (has v PTE_V).

(** The [read] argument of vmfault() is not used by the code. *)
Definition vmfault (pagetable va : Z) : K Z :=
  p <- myproc ;;
  sz <- get_proc p p_sz ;;
  if va >=? sz then retM 0 else
  let va := PGROUNDDOWN va in
  b <- ismapped pagetable va ;;
  if b : bool then retM 0 else
  mem <- kalloc ;;
  if mem =? 0 then retM 0 else
  put_mem (fun m => memset m mem 0 PGSIZE) ;;
  pt <- get_proc p p_pagetable ;;
  e <- mappages pt va PGSIZE mem (Z.lor (Z.lor PTE_W PTE_U) PTE_R) ;;
  if negb (e =? 0) then kfree mem ;; retM 0
  else retM mem.

(** One page-sized piece at a time; each piece is at least one byte, so [length src] rounds
    are enough.  [*pte] through a null pointer is a page fault in the kernel. *)
Fixpoint copyout_loop (fuel : nat) (pagetable dstva : Z) (src : list Z) : K Z :=
  match src with
  | [] => retM 0
  | _ :: _ =>
      match fuel with
      | O => block
      | S f =>
          let va0 := PGROUNDDOWN dstva in
          if va0 >=? MAXVA then retM (-1) else
          pa <- walkaddr pagetable va0 ;;
          pa0 <- (if pa =? 0 then vmfault pagetable va0 else retM pa) ;;
          if pa0 =? 0 then retM (-1) else
          pte <- walk pagetable va0 false ;;
          if pte =? 0 then panic "kerneltrap" else
          v <- get_mem (fun m => load64 m pte) ;;
          if negb (has v PTE_W) then retM (-1) else
          let n := Z.min (PGSIZE - (dstva - va0)) (Z.of_nat (length src)) in
          put_mem (fun m => store_bytes m (pa0 + (dstva - va0)) (take (Z.to_nat n) src)) ;;
          copyout_loop f pagetable (u64 (va0 + PGSIZE)) (drop (Z.to_nat n) src)
      end
  end.

Definition copyout (pagetable dstva : Z) (src : list Z) : K Z :=
  copyout_loop (length src) pagetable dstva src.

(** Returns the status and the bytes stored to [dst]. *)
Fixpoint copyin_loop (fuel : nat) (pagetable srcva len : Z) : K (Z * list Z) :=
  if len <=? 0 then retM (0, []) else
  match fuel with
  | O => block
  | S f =>
      let va0 := PGROUNDDOWN srcva in
      pa <- walkaddr pagetable va0 ;;
      pa0 <- (if pa =? 0 then vmfault pagetable va0 else retM pa) ;;
      if pa0 =? 0 then retM (-1, []) else
      let n := Z.min (PGSIZE - (srcva - va0)) len in
      bs <- get_mem (fun m => load_bytes m (pa0 + (srcva - va0)) (Z.to_nat n)) ;;
      '(r, rest) <- copyin_loop f pagetable (u64 (va0 + PGSIZE)) (len - n) ;;
      retM (r, bs ++ rest)
  end.

Definition copyin (pagetable srcva len : Z) : K (Z * list Z) :=
  copyin_loop (Z.to_nat len) pagetable srcva len.

(** The inner loop of copyinstr(): copies up to [n] bytes from [p]; the flag is got_null. *)
Fixpoint copystr_page (m : memory) (p : Z) (n : nat) : list Z * bool :=
  match n with
  | O => ([], false)
  | S n' =>
      if load8 m p =? 0 then ([0], true)
      else let '(bs, g) := copystr_page m (p + 1) n' in (load8 m p :: bs, g)
  end.

Fixpoint copyinstr_loop (fuel : nat) (pagetable srcva max : Z) : K (Z * list Z) :=
  if max <=? 0 then retM (-1, []) else
  match fuel with
  | O => block
  | S f =>
      let va0 := PGROUNDDOWN srcva in
      pa0 <- walkaddr pagetable va0 ;;
      if pa0 =? 0 then retM (-1, []) else
      let n := Z.min (PGSIZE - (srcva - va0)) max in
      '(bs, got_null) <- get_mem (fun m => copystr_page m (pa0 + (srcva - va0)) (Z.to_nat n)) ;;
      if got_null : bool then retM (0, bs) else
      '(r, rest) <- copyinstr_loop f pagetable (u64 (va0 + PGSIZE)) (max - n) ;;
      retM (r, bs ++ rest)
  end.

Definition copyinstr (pagetable srcva max : Z) : K (Z * list Z) :=
  copyinstr_loop (Z.to_nat max) pagetable srcva max.

End code.
End VM.
