(* ===== verification/PageTable.v ===== *)
(** * The tree invariant of an Sv39 page table and the operations on single entries

    [pt_ok m root F] says that the pages of the map [F] form the table tree of [root] in
    memory [m]: each is labelled with its level and with the index bits that lead to it, so
    that two tables never share a page.  [pt_lookup] is the translation the hardware would
    make; walk(), mappages() and uvmunmap() are characterised by what they do to it. *)

From S2P Require Import Prelude Machine State Locks CString Kalloc VM.

Module PageTable.
Import CString Kalloc VM.

(** ** The specification *)

Definition pte_valid (v : Z) : Prop := has v PTE_V = true.

(** The index of [va] above level [lv]: the bits that choose the table of that level. *)
Definition prefix (lv : nat) (va : Z) : Z := va / 2 ^ (12 + 9 * Z.of_nat (S lv)).

Definition vpn (va : Z) : Z := va / PGSIZE.

(** The leaf entry for [va] below a table of level [lv]; 0 (invalid) where there is none. *)
Fixpoint pt_lookup (m : memory) (lv : nat) (pg va : Z) : Z :=
  let v := load64 m (pg + 8 * PX (Z.of_nat lv) va) in
  match lv with
  | O => v
  | S lv' => if has v PTE_V then pt_lookup m lv' (PTE2PA v) va else 0
  end.

(** The address of that entry; 0 where there is none. *)
Fixpoint pt_slot (m : memory) (lv : nat) (pg va : Z) : Z :=
  let a := pg + 8 * PX (Z.of_nat lv) va in
  match lv with
  | O => a
  | S lv' => let v := load64 m a in
             if has v PTE_V then pt_slot m lv' (PTE2PA v) va else 0
  end.

Definition lookup_va (m : memory) (root va : Z) : Z := pt_lookup m 2 root va.

Record pt_ok {img : Image} (m : memory) (root : Z) (F : gmap Z (nat * Z)) : Prop := {
  pt_root : F !! root = Some (2%nat, 0);
  pt_page pg x : F !! pg = Some x -> page_ok pg;
  pt_label pg lv pre : F !! pg = Some (lv, pre) ->
    (lv <= 2)%nat /\ exists va, 0 <= va < MAXVA /\ prefix lv va = pre;
  pt_inj pg1 pg2 x : F !! pg1 = Some x -> F !! pg2 = Some x -> pg1 = pg2;
  pt_node pg lv pre i :
    F !! pg = Some (S lv, pre) -> 0 <= i < 512 ->
    has (load64 m (pg + 8 * i)) PTE_V = true ->
    F !! PTE2PA (load64 m (pg + 8 * i)) = Some (lv, pre * 512 + i) /\
    has (load64 m (pg + 8 * i)) (Z.lor (Z.lor PTE_R PTE_W) PTE_X) = false;
  pt_parent pg lv pre :
    F !! pg = Some (lv, pre) -> pg <> root ->
    exists par, F !! par = Some (S lv, pre / 512) /\
      has (load64 m (par + 8 * (pre mod 512))) PTE_V = true /\
      PTE2PA (load64 m (par + 8 * (pre mod 512))) = pg
}.

(** Address [a] lies in one of the pages of [X]. *)
Definition in_pages (X : gset Z) (a : Z) : Prop := PGROUNDDOWN a ∈ X.

(** The table at [root] beside the allocator: no table page is free. *)
Record vm_inv {img : Image} (s : kstate) (root : Z) (F : gmap Z (nat * Z)) (l : list Z) : Prop := {
  vm_pt : pt_ok (k_mem s) root F;
  vm_kmem : kmem_inv s l;
  vm_disj p : p ∈ l -> F !! p = None;
  vm_unlocked : LKmem ∉ k_held s
}.

(** ** Arithmetic of indices *)

Lemma prefix_step lv va : prefix (S lv) va * 512 + PX (Z.of_nat (S lv)) va = prefix lv va.
Proof.
  unfold prefix. rewrite PX_eq by lia.
  replace (12 + 9 * Z.of_nat (S (S lv))) with (12 + 9 * Z.of_nat (S lv) + 9) by lia.
  rewrite Z.pow_add_r, <- Z.div_div by lia. change (2 ^ 9) with 512. dlia.
Qed.

Lemma vpn_split va : prefix 0 va * 512 + PX 0 va = vpn va.
Proof.
  unfold prefix, vpn. rewrite PX_eq by lia.
  replace (2 ^ (12 + 9 * Z.of_nat 1)) with (4096 * 512) by reflexivity.
  replace (2 ^ (12 + 9 * 0)) with 4096 by reflexivity. unfold PGSIZE.
  rewrite <- Z.div_div by lia. dlia.
Qed.

Lemma prefix_root va : 0 <= va < MAXVA -> prefix 2 va = 0.
Proof.
  intros H. unfold prefix. apply Z.div_small.
  replace MAXVA with (2 ^ 38) in H by reflexivity.
  replace (12 + 9 * Z.of_nat 3) with 39 by reflexivity. lia.
Qed.

Lemma has_V_lor x : has (Z.lor x PTE_V) PTE_V = true.
Proof.
  unfold has, PTE_V. change (Z.shiftl 1 0) with 1. apply negb_true_iff, Z.eqb_neq. intros H.
  assert (Z.testbit (Z.land (Z.lor x 1) 1) 0 = true) as E
    by (rewrite Z.land_spec, Z.lor_spec; cbn; by rewrite orb_true_r).
  by rewrite H in E.
Qed.

Lemma has_0 mask : has 0 mask = false.
Proof. done. Qed.

(** An entry of one page is not an entry of another, nor another entry of the same page. *)
Lemma entries_apart p q i j :
  p mod PGSIZE = 0 -> q mod PGSIZE = 0 -> 0 <= i < 512 -> 0 <= j < 512 ->
  p <> q \/ i <> j -> p + 8 * i + 8 <= q + 8 * j \/ q + 8 * j + 8 <= p + 8 * i.
Proof. unfold PGSIZE. intros. dlia. Qed.

Lemma in_page_iff p a : p mod PGSIZE = 0 -> PGROUNDDOWN a = p <-> p <= a < p + PGSIZE.
Proof. rewrite PGROUNDDOWN_eq. unfold PGSIZE. intros. dlia. Qed.

(** ** Changing one entry of the tree *)

Section tree.
Context {img : Image}.

(** [m'] has the entries of [m] in the pages of [F], except perhaps entry [i0] of [pg0]. *)
Definition entries_but (F : gmap Z (nat * Z)) (pg0 i0 : Z) (m m' : memory) : Prop :=
  forall q x i, F !! q = Some x -> 0 <= i < 512 -> q <> pg0 \/ i <> i0 ->
    load64 m' (q + 8 * i) = load64 m (q + 8 * i).

Lemma pt_child m root F pg lv va v :
  pt_ok m root F -> F !! pg = Some (S lv, prefix (S lv) va) ->
  v = load64 m (pg + 8 * PX (Z.of_nat (S lv)) va) -> has v PTE_V = true ->
  F !! PTE2PA v = Some (lv, prefix lv va).
Proof.
  intros Hok Hpg -> Hv. destruct (pt_node _ _ _ Hok _ _ _ _ Hpg (PX_range _ va) Hv) as [H _].
  by rewrite prefix_step in H.
Qed.

(** The new entry of pt_grow and what its page holds. *)
Lemma pt_lookup_zero m p lv va :
  (forall i, 0 <= i < 512 -> load64 m (p + 8 * i) = 0) -> pt_lookup m lv p va = 0.
Proof.
  intros H. destruct lv; cbn [pt_lookup]; rewrite H by apply PX_range; done.
Qed.

Lemma page_pte p : page_ok p -> PTE2PA (Z.lor (PA2PTE p) PTE_V) = p /\
  has (Z.lor (PA2PTE p) PTE_V) (Z.lor (Z.lor PTE_R PTE_W) PTE_X) = false.
Proof.
  intros Hp. destruct (page_ok_pos p Hp) as [H0 H1]. destruct Hp as [Hal _].
  assert (Hb : 0 <= p < 2 ^ 56) by (unfold PGSIZE in *; lia).
  destruct (PTE2PA_PA2PTE p PTE_V Hb Hal) as [E1 E2]; [done|]. split; [done|].
  unfold PTE_FLAGS in E2. unfold has. apply negb_false_iff, Z.eqb_eq.
  replace (Z.lor (Z.lor PTE_R PTE_W) PTE_X) with (Z.land 0x3FF 14) by reflexivity.
  by rewrite Z.land_assoc, E2.
Qed.

(** No page of the tree has the label that an invalid entry would give its child. *)
Lemma pt_label_free m root F pg lv pre i q :
  pt_ok m root F -> F !! pg = Some (S lv, pre) -> (S lv <= 2)%nat -> 0 <= i < 512 ->
  has (load64 m (pg + 8 * i)) PTE_V = false -> F !! q <> Some (lv, pre * 512 + i).
Proof.
  intros Hok Hpg Hlv Hi Hinv Hq.
  assert (Hne : q <> root).
  { intros ->. rewrite (pt_root _ _ _ Hok) in Hq. injection Hq as <- _. lia. }
  destruct (pt_parent _ _ _ Hok _ _ _ Hq Hne) as (par & Hpar & Hv & _).
  replace ((pre * 512 + i) / 512) with pre in Hpar by dlia.
  replace ((pre * 512 + i) mod 512) with i in Hv by dlia.
  rewrite (pt_inj _ _ _ Hok _ _ _ Hpar Hpg) in Hv. congruence.
Qed.

Lemma pt_grow_ok m m' root F pg lv pre i p :
  pt_ok m root F -> F !! pg = Some (S lv, pre) -> (S lv <= 2)%nat -> 0 <= i < 512 ->
  has (load64 m (pg + 8 * i)) PTE_V = false -> F !! p = None -> page_ok p ->
  entries_but F pg i m m' -> load64 m' (pg + 8 * i) = Z.lor (PA2PTE p) PTE_V ->
  (forall j, 0 <= j < 512 -> load64 m' (p + 8 * j) = 0) ->
  (exists va, 0 <= va < MAXVA /\ prefix lv va = pre * 512 + i) ->
  pt_ok m' root (<[p := (lv, pre * 512 + i)]> F).
Proof.
  intros Hok Hpg Hlv Hi Hinv Hp Hpok Hm Hnew Hzero Hlab.
  destruct (page_pte p Hpok) as [Epa Eleaf].
  assert (Hpne : p <> pg) by (intros ->; congruence).
  assert (Hfree := pt_label_free _ _ _ _ _ _ _ p Hok Hpg Hlv Hi Hinv).
  split.
  - rewrite lookup_insert_ne; [apply Hok|]. intros ->. pose proof (pt_root _ _ _ Hok). congruence.
  - intros q x. rewrite lookup_insert_Some. intros [[<- _]|[_ Hq]]; [done|by eapply pt_page].
  - intros q lq pq. rewrite lookup_insert_Some. intros [[_ [= <- <-]]|[_ Hq]]; [split; [lia|done]|].
    by eapply pt_label.
  - intros q1 q2 x. rewrite !lookup_insert_Some.
    intros [[<- <-]|[N1 H1]] [[<- E]|[N2 H2]]; try done.
    + by destruct (pt_label_free _ _ _ _ _ _ _ q2 Hok Hpg Hlv Hi Hinv).
    + subst x. by destruct (pt_label_free _ _ _ _ _ _ _ q1 Hok Hpg Hlv Hi Hinv).
    + by eapply pt_inj.
  - intros q lq pq j Hq Hj Hv. apply lookup_insert_Some in Hq as [[<- [= _ _]]|[Nq Hq]].
    { by rewrite Hzero in Hv. }
    destruct (decide (q = pg /\ j = i)) as [[-> ->]|Hne%not_and_l].
    + rewrite Hnew, Epa, Eleaf, lookup_insert_eq. split; [|done]. congruence.
    + assert (E := Hm q (S lq, pq) j Hq Hj Hne). rewrite E in Hv |- *.
      destruct (pt_node _ _ _ Hok _ _ _ _ Hq Hj Hv) as [Hc ?]. split; [|done].
      rewrite lookup_insert_ne; [done|]. intros E'. rewrite <- E' in Hc. congruence.
  - intros q lq pq Hq Hroot. apply lookup_insert_Some in Hq as [[<- [= <- <-]]|[Nq Hq]].
    + exists pg. rewrite lookup_insert_ne by done.
      replace ((pre * 512 + i) / 512) with pre by dlia.
      replace ((pre * 512 + i) mod 512) with i by dlia. rewrite Hnew.
      split_and!; [done|apply has_V_lor|done].
    + destruct (pt_parent _ _ _ Hok _ _ _ Hq Hroot) as (par & Hpar & Hv & E).
      exists par. rewrite lookup_insert_ne by (intros ->; congruence).
      split; [done|]. rewrite (Hm par (S lq, pq / 512)); [done|done|by apply Z.mod_pos_bound|].
      destruct (decide (par = pg)) as [->|]; [|by left]. right. intros Ei. rewrite Ei in Hv.
      congruence.
Qed.

Lemma pt_grow_lookup m m' root F pg lv pre i p n q va :
  pt_ok m root F -> F !! pg = Some (S lv, pre) -> 0 <= i < 512 ->
  has (load64 m (pg + 8 * i)) PTE_V = false -> page_ok p ->
  entries_but F pg i m m' -> load64 m' (pg + 8 * i) = Z.lor (PA2PTE p) PTE_V ->
  (forall j, 0 <= j < 512 -> load64 m' (p + 8 * j) = 0) ->
  F !! q = Some (n, prefix n va) -> pt_lookup m' n q va = pt_lookup m n q va.
Proof.
  intros Hok Hpg Hi Hinv Hpok Hm Hnew Hzero. revert q. induction n as [|n IH]; intros q Hq;
    cbn [pt_lookup].
  - apply (Hm q _ _ Hq (PX_range _ _)). left. intros ->. congruence.
  - pose proof (PX_range (Z.of_nat (S n)) va) as Hr. set (j := PX _ va) in *.
    destruct (decide (q = pg /\ j = i)) as [[-> ->]|Hne%not_and_l].
    + rewrite Hnew, Hinv, has_V_lor. destruct (page_pte p Hpok) as [-> _].
      by apply pt_lookup_zero.
    + rewrite (Hm q _ j Hq Hr Hne). destruct (has (load64 m (q + 8 * j)) PTE_V) eqn:Hv; [|done].
      apply IH. by eapply pt_child.
Qed.

(** Writing a leaf entry keeps the tree and changes exactly one translation. *)
Lemma pt_leaf_ok m m' root F pg pre i :
  pt_ok m root F -> F !! pg = Some (0%nat, pre) -> entries_but F pg i m m' -> pt_ok m' root F.
Proof.
  intros Hok Hpg Hm. split; try apply Hok.
  - intros q lq pq j Hq Hj. rewrite (Hm q _ j Hq Hj) by (left; intros ->; congruence).
    by apply Hok.
  - intros q lq pq Hq Hroot. destruct (pt_parent _ _ _ Hok _ _ _ Hq Hroot) as (par & Hpar & ?).
    exists par. rewrite (Hm par _ _ Hpar); [done|by apply Z.mod_pos_bound|].
    left. intros ->. congruence.
Qed.

Lemma pt_leaf_lookup m m' root F pg va0 n q va :
  pt_ok m root F -> F !! pg = Some (0%nat, prefix 0 va0) -> entries_but F pg (PX 0 va0) m m' ->
  F !! q = Some (n, prefix n va) -> vpn va <> vpn va0 ->
  pt_lookup m' n q va = pt_lookup m n q va.
Proof.
  intros Hok Hpg Hm Hq Hne. revert q Hq. induction n as [|n IH]; intros q Hq; cbn [pt_lookup].
  - apply (Hm q _ _ Hq (PX_range _ _)).
    destruct (decide (q = pg)) as [->|]; [|by left]. right. intros E.
    apply Hne. rewrite <- !vpn_split. rewrite Hq in Hpg. injection Hpg as ->.
    change (Z.of_nat 0) with 0 in E. by rewrite E.
  - rewrite (Hm q _ _ Hq (PX_range _ _)) by (left; intros ->; congruence).
    destruct (has _ _) eqn:Hv; [|done]. apply IH. by eapply pt_child.
Qed.

(** A table with the label of [va] is on the path of [va] from the root. *)
Lemma pt_path_step m root F n q va :
  pt_ok m root F -> F !! q = Some (n, prefix n va) -> (n < 2)%nat ->
  exists par, F !! par = Some (S n, prefix (S n) va) /\
    pt_slot m (S n) par va = pt_slot m n q va /\
    pt_lookup m (S n) par va = pt_lookup m n q va.
Proof.
  intros Hok Hq Hn.
  assert (Hne : q <> root).
  { intros ->. rewrite (pt_root _ _ _ Hok) in Hq. injection Hq as <- _. lia. }
  destruct (pt_parent _ _ _ Hok _ _ _ Hq Hne) as (par & Hpar & Hv & E).
  pose proof (prefix_step n va) as Hs. pose proof (PX_range (Z.of_nat (S n)) va) as Hr.
  replace (prefix n va / 512) with (prefix (S n) va) in Hpar by dlia.
  replace (prefix n va mod 512) with (PX (Z.of_nat (S n)) va) in * by dlia.
  exists par. split; [done|]. cbn [pt_slot pt_lookup]. by rewrite Hv, E.
Qed.

Lemma pt_path m root F leaf va :
  pt_ok m root F -> 0 <= va < MAXVA -> F !! leaf = Some (0%nat, prefix 0 va) ->
  pt_slot m 2 root va = leaf + 8 * PX 0 va /\
  lookup_va m root va = load64 m (leaf + 8 * PX 0 va).
Proof.
  intros Hok Hva Hl.
  destruct (pt_path_step _ _ _ _ _ _ Hok Hl) as (p1 & H1 & S1 & L1); [lia|].
  destruct (pt_path_step _ _ _ _ _ _ Hok H1) as (p2 & H2 & S2 & L2); [lia|].
  rewrite prefix_root in H2 by done.
  rewrite (pt_inj _ _ _ Hok _ _ _ H2 (pt_root _ _ _ Hok)) in *.
  unfold lookup_va. by rewrite S2, L2, S1, L1.
Qed.

(** Conversely the slot that a walk finds lies in a leaf table. *)
Lemma pt_slot_leaf m root F n q va :
  pt_ok m root F -> F !! q = Some (n, prefix n va) ->
  (pt_slot m n q va = 0 /\ pt_lookup m n q va = 0) \/
  exists leaf, F !! leaf = Some (0%nat, prefix 0 va) /\ pt_slot m n q va = leaf + 8 * PX 0 va.
Proof.
  intros Hok. revert q. induction n as [|n IH]; intros q Hq; cbn [pt_slot pt_lookup].
  - right. eauto.
  - destruct (has _ _) eqn:Hv; [|by left]. apply IH. by eapply pt_child.
Qed.

Lemma leaf_slot_pos m root F leaf x i :
  pt_ok m root F -> F !! leaf = Some x -> 0 <= i -> leaf + 8 * i <> 0.
Proof. intros Hok Hl Hi. apply (pt_page _ _ _ Hok), page_ok_pos in Hl. lia. Qed.

Lemma store_entries_but m root F pg x i v :
  pt_ok m root F -> F !! pg = Some x -> 0 <= i < 512 ->
  entries_but F pg i m (store64 m (pg + 8 * i) v).
Proof.
  intros Hok Hpg Hi q y j Hq Hj Hne. apply load64_store64_ne.
  apply entries_apart; try done; [by eapply pt_page|by eapply (pt_page _ _ _ Hok _ _ Hpg)].
Qed.

Lemma leaf_store m root F leaf va v :
  pt_ok m root F -> 0 <= va < MAXVA -> F !! leaf = Some (0%nat, prefix 0 va) ->
  pt_ok (store64 m (leaf + 8 * PX 0 va) v) root F /\
  forall va', 0 <= va' < MAXVA ->
    lookup_va (store64 m (leaf + 8 * PX 0 va) v) root va' =
    if vpn va' =? vpn va then u64 v else lookup_va m root va'.
Proof.
  intros Hok Hva Hl.
  pose proof (store_entries_but m root F leaf _ _ v Hok Hl (PX_range 0 va)) as Hm.
  assert (Hok' := pt_leaf_ok _ _ _ _ _ _ _ Hok Hl Hm). split; [done|]. intros va' Hva'.
  destruct (Z.eqb_spec (vpn va') (vpn va)) as [E|Hne].
  - rewrite <- !vpn_split in E. pose proof (PX_range 0 va). pose proof (PX_range 0 va').
    assert (prefix 0 va = prefix 0 va' /\ PX 0 va = PX 0 va') as [Ep Ex] by lia.
    rewrite Ep in Hl. destruct (pt_path _ _ _ _ _ Hok' Hva' Hl) as [_ ->].
    by rewrite Ex, load64_store64.
  - eapply pt_leaf_lookup; try done. rewrite prefix_root by done. apply Hok.
Qed.

End tree.

(** ** walk()

    [vm_grow] is what a walk that may allocate does to the kernel: the tree of [root] takes
    some pages [used] from the front of the free list, and memory outside the tree does not
    change. *)
Section walking.
Context {img : Image}.

Record vm_grow (s : kstate) (root : Z) (F : gmap Z (nat * Z)) (l : list Z)
    (s' : kstate) (F' : gmap Z (nat * Z)) (l' : list Z) : Prop := {
  vg_inv : vm_inv s' root F' l';
  vg_mem : mem_only s s';
  vg_sub : F ⊆ F';
  vg_pages : exists used, l = used ++ l' /\
    forall q, is_Some (F' !! q) <-> is_Some (F !! q) \/ q ∈ used;
  vg_frame a : F' !! PGROUNDDOWN a = None -> k_mem s' a = k_mem s a
}.

(** Every translation is the same in both memories. *)
Definition same_lookups (root : Z) (s s' : kstate) : Prop :=
  forall va, 0 <= va < MAXVA -> lookup_va (k_mem s') root va = lookup_va (k_mem s) root va.

Lemma vm_grow_refl s root F l : vm_inv s root F l -> vm_grow s root F l s F l.
Proof.
  intros H. split; try done; [apply mem_only_refl|].
  exists []. split; [done|]. set_solver.
Qed.

Lemma vm_grow_trans s root F l s1 F1 l1 s2 F2 l2 :
  vm_grow s root F l s1 F1 l1 -> vm_grow s1 root F1 l1 s2 F2 l2 -> vm_grow s root F l s2 F2 l2.
Proof.
  intros [I1 M1 S1 (u1 & E1 & P1) R1] [I2 M2 S2 (u2 & E2 & P2) R2]. split; try done.
  - by eapply mem_only_trans.
  - by etrans.
  - exists (u1 ++ u2). split; [by rewrite <- app_assoc, <- E2|].
    intros q. rewrite P2, P1, elem_of_app. tauto.
  - intros a Ha. rewrite R2 by done. apply R1.
    destruct (F1 !! _) eqn:E; [|done]. by rewrite (lookup_weaken _ _ _ _ E S2) in Ha.
Qed.

(** Every page that was free is still free or is a new page of the tree. *)
Lemma vm_grow_pages s root F l s' F' l' q :
  vm_inv s root F l -> vm_grow s root F l s' F' l' ->
  q ∈ l <-> (q ∈ l' \/ (is_Some (F' !! q) /\ F !! q = None)).
Proof.
  intros Hinv [_ _ _ (used & -> & Hused) _]. rewrite elem_of_app, Hused.
  split; [|rewrite <- not_eq_None_Some; tauto].
  intros [Hq|?]; [|by left]. right. split; [by right|]. apply Hinv. rewrite elem_of_app. by left.
Qed.

Lemma vm_grow_frame s root F l s' F' l' b :
  vm_inv s root F l -> vm_grow s root F l s' F' l' ->
  PGROUNDDOWN b ∉ l -> F !! PGROUNDDOWN b = None ->
  F' !! PGROUNDDOWN b = None /\ k_mem s' b = k_mem s b.
Proof.
  intros Hinv Hg Hb HF. assert (HF' : F' !! PGROUNDDOWN b = None).
  { destruct (F' !! PGROUNDDOWN b) as [x|] eqn:E; [|done]. exfalso. apply Hb.
    eapply vm_grow_pages; [done..|]. right. split; [by eexists|done]. }
  split; [done|]. by apply (vg_frame _ _ _ _ _ _ _ Hg).
Qed.

(** A write to entry [i] of a table page leaves the other pages alone. *)
Lemma entry_page F root m pg x i a v :
  pt_ok m root F -> F !! pg = Some x -> 0 <= i < 512 -> PGROUNDDOWN a <> pg ->
  store64 m (pg + 8 * i) v a = m a.
Proof.
  intros Hok Hpg Hi Ha. apply store64_out. intros Hin. apply Ha.
  apply in_page_iff; [by eapply pt_page|]. unfold PGSIZE. lia.
Qed.

Lemma store_entry_kmem s l pg i v :
  kmem_inv s l -> page_ok pg -> 0 <= i < 512 -> pg ∉ l ->
  kmem_inv (set_k_mem (store64 (k_mem s) (pg + 8 * i) v) s) l.
Proof.
  intros Hk Hpg Hi Hn. pose proof Hk as (_ & _ & Hoks & Hm).
  apply (kmem_inv_frame s); [exact Hk|reflexivity|by apply store64_ok|].
  intros p a Hp Ha. apply store64_out. rewrite Forall_forall in Hoks.
  assert (~ (pg <= a < pg + PGSIZE)).
  { apply (pages_disjoint p pg); try done; [apply (Hoks p Hp)|apply Hpg|by intros ->]. }
  unfold PGSIZE in *. lia.
Qed.

Lemma memset_kmem s l p c :
  kmem_inv s l -> page_ok p -> p ∉ l -> 
  kmem_inv (set_k_mem (memset (k_mem s) p c PGSIZE) s) l.
Proof.
  intros Hk Hp Hn. pose proof Hk as (_ & _ & Hoks & Hm).
  apply (kmem_inv_frame s); [exact Hk|reflexivity|apply memset_ok; [unfold PGSIZE; lia|exact Hm]|].
  intros q a Hq Ha. apply memset_page_out. rewrite Forall_forall in Hoks.
  apply (pages_disjoint q p); try done; [apply (Hoks q Hq)|apply Hp|by intros ->].
Qed.

(** The branch of walk() that adds a table page. *)
Lemma walk_add_page s root F p l pg lv va :
  let slot := pg + 8 * PX (Z.of_nat (S lv)) va in
  vm_inv s root F (p :: l) -> F !! pg = Some (S lv, prefix (S lv) va) -> (S lv <= 2)%nat ->
  0 <= va < MAXVA -> has (load64 (k_mem s) slot) PTE_V = false ->
  exists s1, kalloc s = Ok p s1 /\
    let s2 := set_k_mem (memset (k_mem s1) p 0 PGSIZE) s1 in
    let s3 := set_k_mem (store64 (k_mem s2) slot (Z.lor (PA2PTE p) PTE_V)) s2 in
    vm_grow s root F (p :: l) s3 (<[p := (lv, prefix lv va)]> F) l /\ same_lookups root s s3.
Proof.
  intros slot [Hok Hk Hdis Hlk] Hpg Hlv Hva Hv.
  destruct (kalloc_some s p l Hk Hlk) as (s1 & E & Hk1 & Hmo & Hout & _). exists s1. split; [done|].
  intros s2 s3. pose proof Hk as (_ & [Hpl _]%NoDup_cons & [Hp _]%Forall_cons & _).
  assert (HpF : F !! p = None) by (apply Hdis; by left).
  assert (Hpgl : pg ∉ l) by (intros Hin; rewrite Hdis in Hpg by (by right); done).
  assert (Hpgok : page_ok pg) by by eapply pt_page.
  assert (Hi := PX_range (Z.of_nat (S lv)) va).
  assert (Hm2 : forall a, ~ (p <= a < p + PGSIZE) -> k_mem s2 a = k_mem s a).
  { intros a Ha. unfold s2. ksimpl. rewrite memset_page_out by done. by apply Hout. }
  assert (Hent : entries_but F pg (PX (Z.of_nat (S lv)) va) (k_mem s) (k_mem s3)).
  { intros q x j Hq Hj Hne. unfold s3. ksimpl. assert (Hqok : page_ok q) by by eapply pt_page.
    unfold slot. rewrite load64_store64_ne
      by (apply entries_apart; try done; [apply Hqok|apply Hpgok]).
    apply load64_same. intros a Ha. apply Hm2.
    apply (pages_disjoint q p); [apply Hqok|apply Hp|intros ->; congruence|unfold PGSIZE; lia]. }
  assert (Hnew : load64 (k_mem s3) slot = Z.lor (PA2PTE p) PTE_V).
  { unfold s3. ksimpl. rewrite load64_store64. apply u64_small.
    destruct (page_ok_pos p Hp) as [? ?]. rewrite PA2PTE_eq by (unfold PGSIZE in *; lia).
    rewrite lor_flags_add by done. change PTE_V with 1. unfold PGSIZE in *. dlia. }
  assert (Hzero : forall j, 0 <= j < 512 -> load64 (k_mem s3) (p + 8 * j) = 0).
  { intros j Hj. unfold s3. ksimpl. unfold slot. rewrite load64_store64_ne.
    - rewrite (load64_fill _ _ 0); [done|]. intros i Hii. unfold s2. ksimpl.
      apply memset_page_in; unfold PGSIZE; lia.
    - apply entries_apart; try done; [apply Hp|apply Hpgok|]. left. intros ->. congruence. }
  split; [split|].
  - split.
    + rewrite <- prefix_step. eapply pt_grow_ok; eauto. exists va. by rewrite prefix_step.
    + apply store_entry_kmem; [|done|done|done]. apply memset_kmem; assumption.
    + intros q Hq. rewrite lookup_insert_ne; [apply Hdis; by right|]. intros ->. by apply Hpl.
    + change (k_held s3) with (k_held s1). by rewrite (mem_only_held _ _ Hmo).
  - eapply mem_only_trans; [exact Hmo|]. by destruct s1.
  - by apply insert_subseteq.
  - exists [p]. split; [done|]. intros q. rewrite lookup_insert_is_Some.
    rewrite list_elem_of_singleton. destruct (decide (p = q)) as [->|]; [|naive_solver].
    split; [by right|by left].
  - intros a Ha. apply lookup_insert_None in Ha as [Ha Hne]. unfold s3. ksimpl.
    unfold slot. rewrite store64_out.
    + apply Hm2. rewrite <- in_page_iff by apply Hp. done.
    + intros Hin. assert (PGROUNDDOWN a = pg) as E'; [|by rewrite E' in Ha; congruence].
      apply in_page_iff; [apply Hpgok|]. unfold PGSIZE. lia.
  - intros va' Hva'. unfold lookup_va.
    apply (pt_grow_lookup _ _ _ _ _ _ _ _ _ _ _ _ Hok Hpg Hi Hv Hp Hent Hnew Hzero).
    rewrite prefix_root by done. apply Hok.
Qed.

(** The slot a successful walk returns for [va]. *)
Definition leaf_of (F : gmap Z (nat * Z)) (va slot : Z) : Prop :=
  exists leaf, F !! leaf = Some (0%nat, prefix 0 va) /\ slot = leaf + 8 * PX 0 va.

Lemma same_lookups_trans root s1 s2 s3 :
  same_lookups root s1 s2 -> same_lookups root s2 s3 -> same_lookups root s1 s3.
Proof. intros H1 H2 va Hva. by rewrite H2, H1. Qed.

(** The tables of [F'] that [F] does not have are on the path of an address in [P]. *)
Definition new_labels (P : Z -> Prop) (F F' : gmap Z (nat * Z)) : Prop :=
  forall q lv pre, F' !! q = Some (lv, pre) ->
    F !! q = Some (lv, pre) \/ (lv < 2)%nat /\ exists va, P va /\ pre = prefix lv va.

Lemma new_labels_refl P F : new_labels P F F.
Proof. intros q lv pre Hq. by left. Qed.

Lemma new_labels_trans P F1 F2 F3 : new_labels P F1 F2 -> new_labels P F2 F3 -> new_labels P F1 F3.
Proof. intros H1 H2 q lv pre Hq. destruct (H2 _ _ _ Hq) as [?|?]; [by apply H1|by right]. Qed.

Lemma new_labels_weaken (P Q : Z -> Prop) F F' : (forall va, P va -> Q va) -> new_labels P F F' -> new_labels Q F F'.
Proof. intros H HP q lv pre Hq. destruct (HP _ _ _ Hq) as [?|(? & va & ? & ?)]; [by left|right]. eauto. Qed.

Lemma walk_loop_alloc lv pg va s root F l :
  vm_inv s root F l -> 0 <= va < MAXVA -> F !! pg = Some (lv, prefix lv va) -> (lv <= 2)%nat ->
  exists slot s' F' l', walk_loop lv pg va true s = Ok slot s' /\
    vm_grow s root F l s' F' l' /\ same_lookups root s s' /\ (length l <= length l' + lv)%nat /\
    new_labels (eq va) F F' /\ (slot = 0 /\ l' = [] \/ leaf_of F' va slot).
Proof.
  revert pg s F l. induction lv as [|lv IH]; intros pg s F l Hinv Hva Hpg Hlv; cbn [walk_loop].
  { eexists _, s, F, l. split; [done|]. split; [by apply vm_grow_refl|]. split; [done|].
    split; [lia|]. split; [apply new_labels_refl|]. right. exists pg. eauto. }
  unfold get_mem. mrun. set (v := load64 _ _). destruct (has v PTE_V) eqn:Hv.
  { destruct (IH (PTE2PA v) s F l) as (slot & s' & F' & l' & ? & ? & ? & ? & ? & ?); [done|done| |lia|].
    - eapply pt_child; eauto. apply Hinv.
    - exists slot, s', F', l'. split_and!; try done. lia. }
  cbn [negb]. destruct l as [|p l].
  { rewrite (bind_ok _ _ s 0 s) by (apply kalloc_none; apply Hinv).
    exists 0, s, F, []. split; [done|]. split; [by apply vm_grow_refl|]. split; [done|].
    split; [cbn; lia|]. split; [apply new_labels_refl|]. by left. }
  destruct (walk_add_page s root F p l pg lv va) as (s1 & E & Hg & Hl); try done.
  erewrite bind_ok by exact E.
  assert (Hp : p <> 0).
  { destruct (vm_kmem _ _ _ _ Hinv) as (_ & _ & [Hp%page_ok_pos _]%Forall_cons & _). lia. }
  destruct (Z.eqb_spec p 0); [done|]. unfold put_mem. mrun.
  edestruct (IH p) as (slot & s' & F' & l' & R & Hg' & Hl' & Hlen & Hlab & Hs);
    [apply Hg|done|apply lookup_insert_eq|lia|].
  exists slot, s', F', l'. split; [exact R|]. split; [by eapply vm_grow_trans|].
  split; [by eapply same_lookups_trans|]. split; [cbn; lia|]. split; [|done].
  eapply new_labels_trans; [|exact Hlab]. intros q lv' pre Hq.
  apply lookup_insert_Some in Hq as [[<- E']|[_ Hq]]; [|by left].
  injection E' as <- <-. right. split; [lia|]. by exists va.
Qed.

Lemma walk_alloc va s root F l :
  vm_inv s root F l -> 0 <= va < MAXVA ->
  exists slot s' F' l', walk root va true s = Ok slot s' /\
    vm_grow s root F l s' F' l' /\ same_lookups root s s' /\ (length l <= length l' + 2)%nat /\
    new_labels (eq va) F F' /\
    (slot = 0 /\ l' = [] \/
     leaf_of F' va slot /\ slot <> 0 /\ lookup_va (k_mem s') root va = load64 (k_mem s') slot).
Proof.
  intros Hinv Hva. unfold walk. rewrite Z.geb_leb. zcases.
  destruct (walk_loop_alloc 2 root va s root F l) as (slot & s' & F' & l' & W & Hg & Hl & Hlen & Hlab & Hs);
    [done|done| |lia|].
  { rewrite prefix_root by done. apply Hinv. }
  exists slot, s', F', l'. split_and!; [done..|]. destruct Hs as [?|Hs]; [by left|].
  right. split; [done|]. destruct Hs as (leaf & Hleaf & ->). split.
  - pose proof (PX_range 0 va). eapply leaf_slot_pos; [apply Hg|done|lia].
  - eapply pt_path; [apply Hg|done|done].
Qed.

Lemma walk_loop_noalloc lv pg va s :
  walk_loop lv pg va false s = Ok (pt_slot (k_mem s) lv pg va) s.
Proof.
  revert pg. induction lv as [|lv IH]; intros pg; cbn [walk_loop pt_slot]; [done|].
  unfold get_mem. mrun. destruct (has _ _); [apply IH|done].
Qed.

Lemma walk_noalloc va s root F :
  pt_ok (k_mem s) root F -> 0 <= va < MAXVA ->
  exists slot, walk root va false s = Ok slot s /\
    (slot = 0 /\ lookup_va (k_mem s) root va = 0 \/
     leaf_of F va slot /\ slot <> 0 /\ lookup_va (k_mem s) root va = load64 (k_mem s) slot).
Proof.
  intros Hok Hva. unfold walk. rewrite Z.geb_leb. zcases.
  rewrite walk_loop_noalloc. eexists. split; [done|].
  destruct (pt_slot_leaf (k_mem s) root F 2 root va) as [[? ?]|(leaf & Hl & E)]; [done| |by left|].
  { rewrite prefix_root by done. apply Hok. }
  right. rewrite E. destruct (pt_path _ _ _ _ _ Hok Hva Hl) as [_ ->].
  split; [by exists leaf|]. split; [|done].
  pose proof (PX_range 0 va). eapply leaf_slot_pos; [done..|lia].
Qed.

(** Writing a leaf entry, as mappages() and uvmunmap() do. *)
Lemma put_leaf s root F l va slot v :
  vm_inv s root F l -> 0 <= va < MAXVA -> leaf_of F va slot ->
  let s' := set_k_mem (store64 (k_mem s) slot v) s in
  vm_grow s root F l s' F l /\
  (forall va', 0 <= va' < MAXVA -> lookup_va (k_mem s') root va' =
     if vpn va' =? vpn va then u64 v else lookup_va (k_mem s) root va').
Proof.
  intros [Hok Hk Hdis Hlk] Hva (leaf & Hl & ->) s'.
  destruct (leaf_store (k_mem s) root F leaf va v Hok Hva Hl) as [Hok' Hlook].
  assert (Hleaf : page_ok leaf) by by eapply pt_page.
  split; [|exact Hlook]. split; [split| | | |].
  - exact Hok'.
  - apply store_entry_kmem; [done..|apply PX_range|]. intros Hin. by rewrite Hdis in Hl.
  - done.
  - done.
  - by destruct s.
  - done.
  - exists []. split; [done|]. set_solver.
  - intros a Ha. eapply (entry_page F root); [done..|apply PX_range|]. intros E. congruence.
Qed.

(** Memory that changes outside the table pages leaves the tree and its translations. *)
Lemma pt_frame m m' root F :
  pt_ok m root F -> (forall a, is_Some (F !! PGROUNDDOWN a) -> m' a = m a) ->
  pt_ok m' root F /\
  forall va, 0 <= va < MAXVA -> lookup_va m' root va = lookup_va m root va.
Proof.
  intros Hok Hm.
  assert (Hent : forall q x i, F !! q = Some x -> 0 <= i < 512 ->
    load64 m' (q + 8 * i) = load64 m (q + 8 * i)).
  { intros q x i Hq Hi. apply load64_same. intros a Ha. apply Hm. exists x.
    rewrite (proj2 (in_page_iff q a ltac:(eapply pt_page; eauto))); [done|]. unfold PGSIZE; lia. }
  split.
  - split; try apply Hok.
    + intros pg lv pre i Hpg Hi. rewrite (Hent _ _ _ Hpg Hi). by apply Hok.
    + intros pg lv pre Hpg Hr. destruct (pt_parent _ _ _ Hok _ _ _ Hpg Hr) as (par & Hpar & ?).
      exists par. rewrite (Hent _ _ _ Hpar); [done|by apply Z.mod_pos_bound].
  - intros va Hva. unfold lookup_va.
    assert (Hq : F !! root = Some (2%nat, prefix 2 va)) by (rewrite prefix_root; [apply Hok|done]).
    revert Hq. generalize 2%nat root. intros n. induction n as [|n IH]; intros q Hq; cbn [pt_lookup];
      rewrite (Hent _ _ _ Hq (PX_range _ _)); [done|].
    destruct (has _ _) eqn:Hv; [|done]. apply IH. by eapply pt_child.
Qed.

End walking.
End PageTable.
