(* ===== verification/UserVM.v ===== *)
(** * User address spaces: what the operations of kernel/vm.c do to a mapping

    The translations of a page table are the function [lookup_va]; the theorems here say how
    mappages(), uvmunmap(), uvmalloc() and the rest change that function, the free list and
    the contents of memory. *)

From S2P Require Import Prelude Machine State Locks CString Kalloc VM PageTable.

Module UserVM.
Import CString Kalloc VM PageTable.

(** ** Entries *)

Definition mk_pte (pa perm : Z) : Z := Z.lor (Z.lor (PA2PTE pa) perm) PTE_V.

Lemma lor_range n a b : 0 <= n -> 0 <= a < 2 ^ n -> 0 <= b < 2 ^ n -> 0 <= Z.lor a b < 2 ^ n.
Proof.
  intros Hn Ha Hb.
  assert (E : Z.land (Z.lor a b) (Z.ones n) = Z.lor a b).
  { rewrite Z.land_lor_distr_l, !Z.land_ones by done. by rewrite !Z.mod_small. }
  rewrite <- E, Z.land_ones by done. apply Z.mod_pos_bound. lia.
Qed.

Lemma mk_pte_spec pa perm :
  0 <= pa < 2 ^ 56 -> pa mod PGSIZE = 0 -> 0 <= perm < 1024 ->
  u64 (mk_pte pa perm) = mk_pte pa perm /\ has (mk_pte pa perm) PTE_V = true /\
  PTE2PA (mk_pte pa perm) = pa /\ PTE_FLAGS (mk_pte pa perm) = Z.lor perm PTE_V.
Proof.
  intros Hpa Hal Hp. unfold mk_pte. split; [|split; [apply has_V_lor|]].
  - rewrite <- Z.lor_assoc, PA2PTE_eq by done.
    pose proof (lor_range 10 perm PTE_V ltac:(lia) Hp ltac:(done)) as H.
    change (2 ^ 10) with 1024 in H. rewrite lor_flags_add by done. apply u64_small. dlia.
  - rewrite <- Z.lor_assoc. apply PTE2PA_PA2PTE; try done.
    by apply (lor_range 10).
Qed.

(** A mask below the flag bits is tested on the flags. *)
Lemma has_flags v mask : Z.land 0x3FF mask = mask -> has v mask = has (PTE_FLAGS v) mask.
Proof. intros H. unfold has, PTE_FLAGS. by rewrite <- Z.land_assoc, H. Qed.

Lemma drop_seq_cons k n x l :
  x :: l = drop k (seq 0 n) -> x = k /\ (k < n)%nat /\ l = drop (S k) (seq 0 n).
Proof.
  intros H. assert (Hk : (k < n)%nat).
  { destruct (decide (k < n)%nat); [done|]. rewrite drop_ge in H by (rewrite length_seq; lia). done. }
  rewrite (drop_S (seq 0 n) k k) in H by (by apply lookup_seq_lt). by injection H as -> ->.
Qed.

Lemma vpn_page va' a :
  a mod PGSIZE = 0 -> (vpn va' =? vpn a) = ((a <=? va') && (va' <? a + PGSIZE)).
Proof.
  unfold vpn, PGSIZE. intros H. destruct (Z.eqb_spec (va' / 4096) (a / 4096)); zcases; try done; dlia.
Qed.

(** Loop rule for [for(a = lo; a < e; a += PGSIZE)], which makes [n] rounds. *)
Lemma page_loop {R} (I : Z -> kstate -> Prop) (Q : R -> kstate -> Prop) lo e n body s :
  lo mod PGSIZE = 0 -> 0 <= n -> Z.max lo e <= lo + n * PGSIZE < Z.max lo e + PGSIZE ->
  I lo s ->
  (forall a s0, lo <= a -> a + PGSIZE <= lo + n * PGSIZE -> a mod PGSIZE = 0 -> I a s0 ->
     exists c s1, body a s0 = Ok c s1 /\
       match c with Continue => I (a + PGSIZE) s1 | Break => False | Return r => Q r s1 end) ->
  exists o s', for_loop (page_seq lo e) body s = Ok o s' /\
    match o with None => I (lo + n * PGSIZE) s' | Some r => Q r s' end.
Proof.
  intros Hal Hn He HI Hbody. unfold page_seq. assert (HP : PGSIZE = 4096) by done.
  replace (Z.to_nat _) with (Z.to_nat n) by (rewrite HP in *; dlia).
  destruct (for_loop_inv
    (fun rest s' => exists k, rest = (fun i => lo + Z.of_nat i * PGSIZE) <$> drop k (seq 0 (Z.to_nat n))
       /\ (k <= Z.to_nat n)%nat /\ I (lo + Z.of_nat k * PGSIZE) s') Q
    ((fun i => lo + Z.of_nat i * PGSIZE) <$> seq 0 (Z.to_nat n)) body s) as (o & s' & E & Ho).
  - exists 0%nat. split; [done|]. split; [lia|]. by replace (lo + Z.of_nat 0 * PGSIZE) with lo by lia.
  - intros x rest s0 (k & Hd & _ & Hp).
    destruct (drop k (seq 0 (Z.to_nat n))) as [|y tl] eqn:Ed; [done|].
    symmetry in Ed. apply drop_seq_cons in Ed as (-> & Hk & ->). injection Hd as -> ->.
    destruct (Hbody (lo + Z.of_nat k * PGSIZE) s0) as (c & s1 & Eb & Hc);
      [lia|lia|rewrite HP in *; dlia|done|].
    exists c, s1. split; [done|]. destruct c; try done. exists (S k). split; [done|]. split; [lia|].
    by replace (lo + Z.of_nat (S k) * PGSIZE) with (lo + Z.of_nat k * PGSIZE + PGSIZE) by lia.
  - exists o, s'. split; [done|]. destruct o as [r|]; [done|].
    destruct Ho as (k & Hd & Hk & Hp). symmetry in Hd. apply (f_equal length) in Hd.
    rewrite length_fmap, length_drop, length_seq in Hd. cbn in Hd.
    by replace n with (Z.of_nat k) by lia.
Qed.

(** ** mappages() *)

Section mapping.
Context {img : Image}.

(** [m'] maps [n] pages from [va] to [pa ...] and agrees with [m] elsewhere. *)
Definition maps_range (root va pa perm n : Z) (s s' : kstate) : Prop :=
  forall va', 0 <= va' < MAXVA ->
    lookup_va (k_mem s') root va' =
    if (va <=? va') && (va' <? va + n * PGSIZE)
    then mk_pte (pa + (PGROUNDDOWN va' - va)) perm else lookup_va (k_mem s) root va'.

Lemma maps_range_step root va pa perm k s s1 s2 :
  va mod PGSIZE = 0 -> 0 <= k ->
  maps_range root va pa perm k s s1 ->
  (forall va', 0 <= va' < MAXVA -> lookup_va (k_mem s2) root va' =
     if vpn va' =? vpn (va + k * PGSIZE) then mk_pte (pa + k * PGSIZE) perm
     else lookup_va (k_mem s1) root va') ->
  maps_range root va pa perm (k + 1) s s2.
Proof.
  intros Hal Hk H1 H2 va' Hva'. rewrite H2, H1 by done.
  assert (Hal' : (va + k * PGSIZE) mod PGSIZE = 0) by (unfold PGSIZE in *; dlia).
  rewrite vpn_page by done.
  replace (va + (k + 1) * PGSIZE) with (va + k * PGSIZE + PGSIZE) by (unfold PGSIZE; lia).
  assert (0 <= k * PGSIZE) by (unfold PGSIZE; lia). assert (0 < PGSIZE) by done.
  zcases; try done. rewrite (proj2 (in_page_iff _ va' Hal')) by lia. f_equal. lia.
Qed.

(** One round, from a state in which the first [i] pages are mapped. *)
Lemma mappages_round_spec s s0 root F F0 l l0 va n pa perm i :
  vm_grow s root F l s0 F0 l0 -> maps_range root va pa perm (Z.of_nat i) s s0 ->
  va mod PGSIZE = 0 -> 0 <= va -> Z.of_nat i < n -> va + n * PGSIZE <= MAXVA ->
  pa mod PGSIZE = 0 -> 0 <= pa -> pa + n * PGSIZE <= 2 ^ 56 -> 0 <= perm < 1024 ->
  has (lookup_va (k_mem s) root (va + Z.of_nat i * PGSIZE)) PTE_V = false ->
  exists c s1 F1 l1,
    mappages_round root va pa perm (va + n * PGSIZE - PGSIZE) i s0 = Ok c s1 /\
    vm_grow s root F l s1 F1 l1 /\ (length l0 <= length l1 + 2)%nat /\
    new_labels (eq (va + Z.of_nat i * PGSIZE)) F0 F1 /\
    (c = Return (-1) /\ l1 = [] /\ maps_range root va pa perm (Z.of_nat i) s s1 \/
     c = (if Z.of_nat i + 1 =? n then Break else Continue) /\
     maps_range root va pa perm (Z.of_nat i + 1) s s1).
Proof.
  intros Hg0 Hm0 Hal Hva Hi Hmax Hpal Hpa Hpmax Hperm Hfree. unfold mappages_round.
  assert (HM : MAXVA = 2 ^ 38) by reflexivity.
  set (a := va + Z.of_nat i * PGSIZE) in *.
  assert (Ha : 0 <= a < MAXVA) by (unfold a, PGSIZE in *; lia).
  rewrite (u64_small a) by lia. rewrite (u64_small (pa + _)) by (unfold PGSIZE in *; lia).
  destruct (walk_alloc a s0 root F0 l0) as (slot & s1 & F1 & l1 & W & Hg1 & Hl1 & Hlen & Hlab & Hs);
    [apply Hg0|apply Ha|]. erewrite bind_ok by exact W.
  assert (Hg01 := vm_grow_trans _ _ _ _ _ _ _ _ _ _ Hg0 Hg1).
  destruct Hs as [[-> ->]|(Hleaf & Hne & Hload)].
  { eexists _, s1, F1, []. split; [reflexivity|]. split; [done|]. split; [done|]. split; [done|]. left.
    split; [done|]. split; [done|]. intros va' Hva'. rewrite Hl1 by done. by apply Hm0. }
  destruct (Z.eqb_spec slot 0); [done|]. unfold get_mem. mrun.
  rewrite <- Hload, Hl1, Hm0 by apply Ha. fold a.
  rewrite (proj2 (Z.ltb_ge a a)), andb_false_r, Hfree by lia. unfold put_mem. mrun.
  destruct (put_leaf s1 root F1 l1 a slot (mk_pte (pa + Z.of_nat i * PGSIZE) perm))
    as [Hg2 Hl2]; [apply Hg1|apply Ha|done|].
  eexists (if Z.of_nat i + 1 =? n then Break else Continue), _, F1, l1. split; [|split; [|split; [exact Hlen|split; [exact Hlab|]]]].
  - replace (a =? _) with (Z.of_nat i + 1 =? n) by (unfold a, PGSIZE; zcases; done).
    destruct (_ =? n); reflexivity.
  - by eapply vm_grow_trans.
  - right. split; [done|]. eapply maps_range_step; [done|lia|exact Hm0|].
    intros va' Hva'. rewrite Hl2, Hl1 by done.
    destruct (mk_pte_spec (pa + Z.of_nat i * PGSIZE) perm) as [-> _]; [| |done|done];
      unfold PGSIZE in *; [lia|dlia].
Qed.

Lemma mappages_spec s root F l va n pa perm :
  vm_inv s root F l -> va mod PGSIZE = 0 -> 0 <= va -> 0 < n -> va + n * PGSIZE <= MAXVA ->
  pa mod PGSIZE = 0 -> 0 <= pa -> pa + n * PGSIZE <= 2 ^ 56 -> 0 <= perm < 1024 ->
  (forall va', va <= va' < va + n * PGSIZE -> has (lookup_va (k_mem s) root va') PTE_V = false) ->
  exists r s' F' l' k, mappages root va (n * PGSIZE) pa perm s = Ok r s' /\
    vm_grow s root F l s' F' l' /\ maps_range root va pa perm k s s' /\ 0 <= k /\
    (length l <= length l' + 2 * Z.to_nat n)%nat /\
    new_labels (fun va' => va <= va' < va + n * PGSIZE) F F' /\
    (r = 0 /\ k = n \/ r = -1 /\ k < n /\ l' = []).
Proof.
  intros Hinv Hal Hva Hn Hmax Hpal Hpa Hpmax Hperm Hfree. unfold mappages.
  assert (HM : MAXVA = 2 ^ 38) by reflexivity.
  rewrite Hal, (Z.mod_mul n PGSIZE) by done. cbn [Z.eqb negb].
  destruct (Z.eqb_spec (n * PGSIZE) 0); [unfold PGSIZE in *; lia|].
  rewrite (u64_small (va + _ - _)) by (unfold PGSIZE in *; lia).
  replace (S (Z.to_nat (u64 (va + n * PGSIZE - PGSIZE - va) / PGSIZE))) with (Z.to_nat n)
    by (rewrite u64_small; unfold PGSIZE in *; [dlia|lia]).
  edestruct (for_loop_inv (R := Z)
    (fun rest s' => exists k F' l', rest = drop k (seq 0 (Z.to_nat n)) /\ (k <= Z.to_nat n)%nat /\
       (length l <= length l' + 2 * k)%nat /\
       new_labels (fun va' => va <= va' < va + n * PGSIZE) F F' /\
       vm_grow s root F l s' F' l' /\ maps_range root va pa perm (Z.of_nat k) s s')
    (fun r s' => r = -1 /\ exists k F', 0 <= k < n /\ (length l <= 2 * Z.to_nat n)%nat /\
       new_labels (fun va' => va <= va' < va + n * PGSIZE) F F' /\
       vm_grow s root F l s' F' [] /\ maps_range root va pa perm k s s')
    (seq 0 (Z.to_nat n))) as (o & s' & E & Ho); last first.
  - erewrite bind_ok by exact E. destruct o as [r|]; cbn [default].
    + destruct Ho as (-> & k & F' & Hk & Hlen & Hlab & Hg & Hm). exists (-1), s', F', [], k.
      split_and!; try done; [lia|]. right. split_and!; [done|lia|done].
    + destruct Ho as (k & F' & l' & Hd & Hk & Hlen & Hlab & Hg & Hm). exists 0, s', F', l', n.
      symmetry in Hd. apply (f_equal length) in Hd. rewrite length_drop, length_seq in Hd.
      cbn in Hd. replace (Z.of_nat k) with n in Hm by lia.
      split_and!; try done; [lia|lia|]. by left.
  - intros x rest s0 (k & F0 & l0 & Hd & _ & Hlen & Hlab0 & Hg0 & Hm0).
    apply drop_seq_cons in Hd as (-> & Hk & ->).
    edestruct (mappages_round_spec s s0 root F F0 l l0 va n pa perm k)
      as (c & s1 & F1 & l1 & R & Hg1 & Hlen1 & Hlab1 & Hc); try done; [lia|apply Hfree; unfold PGSIZE; lia|].
    assert (Hlab : new_labels (fun va' => va <= va' < va + n * PGSIZE) F F1).
    { eapply new_labels_trans; [exact Hlab0|]. eapply new_labels_weaken, Hlab1. intros va' <-. unfold PGSIZE. lia. }
    exists c, s1. split; [exact R|]. destruct Hc as [(-> & -> & Hm)|[-> Hm]].
    + split; [done|]. exists (Z.of_nat k), F1. cbn in Hlen1. split_and!; try done; lia.
    + replace (Z.of_nat k + 1) with (Z.of_nat (S k)) in * by lia.
      destruct (Z.eqb_spec (Z.of_nat (S k)) n); exists (S k), F1, l1;
        (split_and!; try done; try lia).
      by rewrite drop_ge by (rewrite length_seq; lia).
  - exists 0%nat, F, l. split; [done|]. split; [lia|]. split; [lia|]. split; [apply new_labels_refl|]. split; [by apply vm_grow_refl|].
    intros va' Hva'. replace (va + Z.of_nat 0 * PGSIZE) with va by lia. zcases; done.
Qed.

End mapping.

(** ** uvmunmap() *)

Section unmapping.
Context {img : Image}.

(** The pages mapped in [[lo, hi)] are the process's own: none is free, none is a table page,
    and no two virtual pages share one. *)
Record user_ok (m : memory) (root : Z) (F : gmap Z (nat * Z)) (l : list Z) (lo hi : Z) : Prop := {
  uo_page va : lo <= va < hi -> has (lookup_va m root va) PTE_V = true ->
    page_ok (PTE2PA (lookup_va m root va)) /\ (PTE2PA (lookup_va m root va) ∉ l) /\
    F !! PTE2PA (lookup_va m root va) = None;
  uo_inj va1 va2 : lo <= va1 < hi -> lo <= va2 < hi ->
    has (lookup_va m root va1) PTE_V = true -> has (lookup_va m root va2) PTE_V = true ->
    PTE2PA (lookup_va m root va1) = PTE2PA (lookup_va m root va2) -> vpn va1 = vpn va2
}.

(** The allocator got back [freed]; nothing else changed but the tables and those pages. *)
Record vm_release (s : kstate) (root : Z) (F : gmap Z (nat * Z)) (l : list Z)
    (s' : kstate) (freed : list Z) : Prop := {
  vr_inv : vm_inv s' root F (freed ++ l);
  vr_mem : mem_only s s';
  vr_frame a : F !! PGROUNDDOWN a = None -> PGROUNDDOWN a ∉ freed -> k_mem s' a = k_mem s a
}.

Definition unmaps_range (root va hi : Z) (s s' : kstate) : Prop :=
  forall va', 0 <= va' < MAXVA ->
    (va <= va' < hi -> has (lookup_va (k_mem s') root va') PTE_V = false) /\
    (~ (va <= va' < hi) -> lookup_va (k_mem s') root va' = lookup_va (k_mem s) root va').

(** [freed] are the physical pages that were mapped in [[va, hi)]. *)
Definition frees_range (root va hi : Z) (do_free : bool) (s : kstate) (freed : list Z) : Prop :=
  forall q, q ∈ freed <-> (do_free = true /\
    exists va', va <= va' < hi /\ has (lookup_va (k_mem s) root va') PTE_V = true /\
      PTE2PA (lookup_va (k_mem s) root va') = q).

(** What one round leaves behind, from a state in which [[va, a)] is unmapped. *)
Definition unmap_post (root va a : Z) do_free (s : kstate) F l s' : Prop :=
  exists freed, vm_release s root F l s' freed /\ unmaps_range root va a s s' /\
    frees_range root va a do_free s freed.

Lemma lookup_va_page m root va va' :
  vpn va = vpn va' -> lookup_va m root va = lookup_va m root va'.
Proof.
  intros E. assert (HPX : forall lv, 0 <= lv -> PX lv va = PX lv va').
  { intros lv Hlv. rewrite !PX_eq by done. rewrite !Z.pow_add_r by lia.
    rewrite <- !Z.div_div by lia. change (2 ^ 12) with PGSIZE. unfold vpn in E. by rewrite E. }
  unfold lookup_va. generalize root. generalize 2%nat. intros n.
  induction n as [|n IH]; intros q; cbn [pt_lookup]; rewrite HPX by lia; [done|]. by rewrite IH.
Qed.

Lemma page_vpn a va' : a mod PGSIZE = 0 -> a <= va' < a + PGSIZE -> vpn va' = vpn a.
Proof. intros H1 H2. apply Z.eqb_eq. rewrite vpn_page by done. zcases; done. Qed.

(** The next page is invalid already: nothing to do. *)
Lemma unmap_skip root va a do_free s F l s0 :
  unmap_post root va a do_free s F l s0 -> 0 <= va <= a -> a mod PGSIZE = 0 ->
  a + PGSIZE <= MAXVA -> has (lookup_va (k_mem s0) root a) PTE_V = false ->
  unmap_post root va (a + PGSIZE) do_free s F l s0.
Proof.
  intros (freed & Hr & Hu & Hf) Hva Hal Hmax Hv. exists freed. split; [done|].
  assert (HP : PGSIZE = 4096) by done.
  assert (Hpg : forall va', a <= va' < a + PGSIZE ->
    has (lookup_va (k_mem s0) root va') PTE_V = false).
  { intros va' H. rewrite (lookup_va_page _ _ _ a) by (by apply page_vpn). done. }
  split.
  - intros va' Hva'. split.
    + intros H. destruct (decide (va' < a)); [apply Hu; lia|apply Hpg; lia].
    + intros H. apply Hu; lia.
  - intros q. rewrite (Hf q). split; intros [Hd (va' & Hin & Hv' & E)]; (split; [done|]); exists va'.
    + split_and!; [lia|lia|done|done].
    + split_and!; [lia| |done|done]. destruct (decide (va' < a)) as [|Hge]; [done|exfalso].
      pose proof (Hpg va' ltac:(lia)) as Hn. rewrite (proj2 (Hu va' ltac:(lia))) in Hn by lia.
      congruence.
Qed.

(** kfree() of a page that is neither free nor a table page. *)
Lemma kfree_vm s root F l p :
  vm_inv s root F l -> page_ok p /\ (p ∉ l) /\ F !! p = None ->
  exists s', kfree p s = Ok tt s' /\ vm_inv s' root F (p :: l) /\ mem_only s s' /\
    same_lookups root s s' /\ forall b, PGROUNDDOWN b <> p -> k_mem s' b = k_mem s b.
Proof.
  intros [Hok Hk Hdis Hlk] (Hp & Hpl & HpF).
  destruct (kfree_some s p l Hk Hp Hpl Hlk) as (s' & E & Hk' & Hmo & Ho).
  assert (Hout : forall b, PGROUNDDOWN b <> p -> k_mem s' b = k_mem s b)
    by (intros b Hb; apply Ho; by rewrite <- in_page_iff by apply Hp).
  destruct (pt_frame (k_mem s) (k_mem s') root F Hok) as [Hok' Hl'].
  { intros b [x Hb]. apply Hout. intros Eb. rewrite Eb in Hb. congruence. }
  exists s'. split_and!; try assumption. split; try assumption.
  - intros q [->|Hq]%elem_of_cons; [done|by apply Hdis].
  - by rewrite (mem_only_held _ _ Hmo).
Qed.

(** Freeing the page at [a], if asked; it is not on the free list yet. *)
Lemma unmap_free root va a (do_free : bool) s F l s0 freed :
  let p := PTE2PA (lookup_va (k_mem s) root a) in
  vm_release s root F l s0 freed -> frees_range root va a do_free s freed ->
  0 <= va <= a -> has (lookup_va (k_mem s) root a) PTE_V = true -> a mod PGSIZE = 0 ->
  (do_free = true -> user_ok (k_mem s) root F l va (a + PGSIZE)) ->
  exists s1 fr, whenM do_free (kfree p) s0 = Ok tt s1 /\
    vm_release s root F l s1 (fr ++ freed) /\ same_lookups root s0 s1 /\
    (forall q, q ∈ fr <-> (do_free = true /\ q = p)).
Proof.
  intros p [Hinv Hmo Hfr] Hf Hva Hv Hal Hown. assert (HP : PGSIZE = 4096) by done.
  destruct do_free; cbn [whenM]; last first.
  { exists s0, []. split_and!; try done. set_solver. }
  destruct (uo_page _ _ _ _ _ _ (Hown eq_refl) a) as (Hp & Hpl & HpF); [lia|done|].
  fold p in Hp, Hpl, HpF.
  assert (Hpf : p ∉ freed ++ l).
  { rewrite elem_of_app. intros [Hin|?]; [|done].
    apply Hf in Hin as [_ (va' & Hin & Hv' & E)].
    assert (vpn va' = vpn a) as Ev.
    { eapply (uo_inj _ _ _ _ _ _ (Hown eq_refl)); [lia|lia|done|done|exact E]. }
    unfold vpn in Ev. rewrite HP in *. dlia. }
  destruct (kfree_vm s0 root F (freed ++ l) p) as (s1 & E & Hinv1 & Hm1 & Hl1 & Hout); try done.
  exists s1, [p]. split; [exact E|]. split; [split|split].
  - exact Hinv1.
  - by eapply mem_only_trans.
  - intros b Hb Hnin. apply not_elem_of_cons in Hnin as [Hne Hnin]. rewrite Hout by done. by apply Hfr.
  - exact Hl1.
  - intros q. rewrite list_elem_of_singleton. naive_solver.
Qed.

(** The next page is mapped: its entry is cleared and, if asked, its page is freed. *)
Lemma unmap_clear root va a do_free s F l s0 slot :
  unmap_post root va a do_free s F l s0 -> 0 <= va <= a -> a mod PGSIZE = 0 ->
  a + PGSIZE <= MAXVA -> has (lookup_va (k_mem s0) root a) PTE_V = true -> leaf_of F a slot ->
  (do_free = true -> user_ok (k_mem s) root F l va (a + PGSIZE)) ->
  exists s1, whenM do_free (kfree (PTE2PA (lookup_va (k_mem s0) root a))) s0 = Ok tt s1 /\
    unmap_post root va (a + PGSIZE) do_free s F l
      (set_k_mem (store64 (k_mem s1) slot 0) s1).
Proof.
  intros (freed & Hr & Hu & Hf) Hva Hal Hmax Hv Hleaf Hown.
  assert (HP : PGSIZE = 4096) by done. assert (Ha : 0 <= a < MAXVA) by lia.
  assert (Esame : lookup_va (k_mem s0) root a = lookup_va (k_mem s) root a) by (apply Hu; lia).
  rewrite Esame in *.
  destruct (unmap_free root va a do_free s F l s0 freed)
    as (s1 & fr & E & [Hi1 Hm1 Hfr1] & Hl1 & Hfq); try done.
  exists s1. split; [exact E|].
  destruct (put_leaf s1 root F (fr ++ freed ++ l) a slot 0) as [[Hi2 Hm2 _ _ Hfr2] Hl2];
    [by rewrite app_assoc|done|done|].
  exists (fr ++ freed). split; [split|split].
  - by rewrite <- app_assoc.
  - by eapply mem_only_trans.
  - intros b Hb Hn. rewrite Hfr2 by done. by apply Hfr1.
  - intros va' Hva'. rewrite Hl2, vpn_page, Hl1 by done. split.
    + intros H. zcases; [done|apply Hu; lia..].
    + intros H. zcases. all: apply Hu; lia.
  - intros q. rewrite elem_of_app, (Hf q), (Hfq q). split.
    + intros [[Hd ->]|[Hd (va' & H & ? & ?)]]; (split; [done|]).
      * exists a. split_and!; [lia|lia|done|done].
      * exists va'. split_and!; [lia|lia|done|done].
    + intros [Hd (va' & H & ? & Eq)]. destruct (decide (va' < a)).
      * right. split; [done|]. exists va'. split_and!; [lia|lia|done|done].
      * left. split; [done|]. rewrite <- Eq.
        by rewrite (lookup_va_page _ _ va' a) by (apply page_vpn; [done|lia]).
Qed.

Lemma uvmunmap_round_spec root va a do_free s F l s0 :
  unmap_post root va a do_free s F l s0 -> 0 <= va <= a -> a mod PGSIZE = 0 ->
  a + PGSIZE <= MAXVA ->
  (do_free = true -> user_ok (k_mem s) root F l va (a + PGSIZE)) ->
  exists s1, uvmunmap_round root do_free a s0 = Ok Continue s1 /\
    unmap_post root va (a + PGSIZE) do_free s F l s1.
Proof.
  intros Hpost Hva Hal Hmax Hown. pose proof Hpost as (freed & [Hinv _ _] & _).
  unfold uvmunmap_round. assert (Ha : 0 <= a < MAXVA) by (unfold PGSIZE in *; lia).
  destruct (walk_noalloc a s0 root F) as (slot & W & Hs); [apply Hinv|done|].
  erewrite bind_ok by exact W. destruct Hs as [[-> Hl]|(Hleaf & Hne & Hl)].
  { exists s0. split; [done|]. apply unmap_skip; try done. by rewrite Hl. }
  destruct (Z.eqb_spec slot 0); [done|]. unfold get_mem. mrun. rewrite <- Hl.
  destruct (has _ _) eqn:Hv; cbn [negb].
  - destruct (unmap_clear root va a do_free s F l s0 slot) as (s1 & E & Hp); try done.
    erewrite bind_ok by exact E. unfold put_mem. mrun. eauto.
  - exists s0. split; [done|]. by apply unmap_skip.
Qed.

Lemma user_ok_sub m root F l lo hi lo' hi' :
  user_ok m root F l lo hi -> lo <= lo' -> hi' <= hi -> user_ok m root F l lo' hi'.
Proof. intros [H1 H2] Hlo Hhi. split; intros; [apply H1|eapply H2]; eauto; lia. Qed.

Lemma uvmunmap_spec s root F l va n do_free :
  vm_inv s root F l -> va mod PGSIZE = 0 -> 0 <= va -> 0 <= n -> va + n * PGSIZE <= MAXVA ->
  (do_free = true -> user_ok (k_mem s) root F l va (va + n * PGSIZE)) ->
  exists s', uvmunmap root va n do_free s = Ok tt s' /\
    unmap_post root va (va + n * PGSIZE) do_free s F l s'.
Proof.
  intros Hinv Hal Hva Hn Hmax Hown. unfold uvmunmap. rewrite Hal. cbn [Z.eqb negb].
  assert (HP : PGSIZE = 4096) by done. assert (HM : MAXVA = 2 ^ 38) by reflexivity.
  rewrite u64_small by lia.
  destruct (page_loop (R := unit) (fun a => unmap_post root va a do_free s F l) (fun _ _ => False)
    va (va + n * PGSIZE) n (uvmunmap_round root do_free) s) as (o & s' & E & Ho); try done; [lia| | |].
  - exists []. split; [split|split].
    + done.
    + apply mem_only_refl.
    + done.
    + intros va' _. split; [lia|done].
    + intros q. split; [set_solver|]. intros [_ (va' & ? & _)]. lia.
  - intros a s0 H1 H2 H3 Hp.
    destruct (uvmunmap_round_spec root va a do_free s F l s0) as (s1 & R & Hp1); try done; try lia.
    { intros Hd. eapply user_ok_sub; [by apply Hown|lia|lia]. }
    exists Continue, s1. done.
  - erewrite bind_ok by exact E. destruct o as [|]; [done|]. exists s'. done.
Qed.

End unmapping.

(** ** uvmalloc() and uvmdealloc() *)

Section growing.
Context {img : Image}.

(** [[lo, a)] has been given zeroed pages from the free list [l]; every page of [l] is still
    free, is a new table page, or is mapped in the range. *)
Record alloc_inv (s : kstate) root (F : gmap Z (nat * Z)) (l : list Z) (lo a perm : Z)
    (s0 : kstate) (F0 : gmap Z (nat * Z)) (l0 : list Z) : Prop := {
  ai_inv : vm_inv s0 root F0 l0;
  ai_mem : mem_only s s0;
  ai_sub : F ⊆ F0;
  ai_pages q : q ∈ l <-> (q ∈ l0 \/ (is_Some (F0 !! q) /\ F !! q = None) \/
    exists va', lo <= va' < a /\ PTE2PA (lookup_va (k_mem s0) root va') = q);
  ai_new va' : lo <= va' < a ->
    exists p, lookup_va (k_mem s0) root va' = mk_pte p perm /\ page_ok p /\ (p ∉ l0) /\
      F0 !! p = None /\ forall b, PGROUNDDOWN b = p -> k_mem s0 b = 0;
  ai_inj va1 va2 : lo <= va1 < a -> lo <= va2 < a ->
    PTE2PA (lookup_va (k_mem s0) root va1) = PTE2PA (lookup_va (k_mem s0) root va2) ->
    vpn va1 = vpn va2;
  ai_old va' : 0 <= va' < MAXVA -> ~ (lo <= va' < a) ->
    lookup_va (k_mem s0) root va' = lookup_va (k_mem s) root va';
  ai_frame b : PGROUNDDOWN b ∉ l -> F !! PGROUNDDOWN b = None -> k_mem s0 b = k_mem s b
}.

(** A failed allocation: the range is unmapped, every other translation is as before, and of
    the pages of [l] only table pages have left the free list. *)
Record alloc_undone (s : kstate) root (F : gmap Z (nat * Z)) (l : list Z) (lo hi : Z)
    (s' : kstate) (F' : gmap Z (nat * Z)) (l' : list Z) : Prop := {
  au_inv : vm_inv s' root F' l';
  au_mem : mem_only s s';
  au_sub : F ⊆ F';
  au_pages q : q ∈ l <-> (q ∈ l' \/ (is_Some (F' !! q) /\ F !! q = None));
  au_range va' : lo <= va' < hi -> has (lookup_va (k_mem s') root va') PTE_V = false;
  au_old va' : 0 <= va' < MAXVA -> ~ (lo <= va' < hi) ->
    lookup_va (k_mem s') root va' = lookup_va (k_mem s) root va';
  au_frame b : PGROUNDDOWN b ∉ l -> F !! PGROUNDDOWN b = None -> k_mem s' b = k_mem s b
}.

(** kalloc() followed by memset(mem, 0, PGSIZE). *)
Lemma kalloc_zeroed s root F p l :
  vm_inv s root F (p :: l) ->
  exists s1, kalloc s = Ok p s1 /\
    let s2 := set_k_mem (memset (k_mem s1) p 0 PGSIZE) s1 in
    vm_inv s2 root F l /\ mem_only s s2 /\ same_lookups root s s2 /\
    (forall b, PGROUNDDOWN b <> p -> k_mem s2 b = k_mem s b) /\
    (forall b, PGROUNDDOWN b = p -> k_mem s2 b = 0) /\ page_ok p /\ (p ∉ l) /\ F !! p = None.
Proof.
  intros [Hok Hk Hdis Hlk].
  destruct (kalloc_some s p l Hk Hlk) as (s1 & E & Hk1 & Hmo & Hout & _). exists s1. split; [done|].
  intros s2. pose proof Hk as (_ & [Hpl _]%NoDup_cons & [Hp _]%Forall_cons & _).
  assert (HpF : F !! p = None) by (apply Hdis; by left).
  assert (Hm2 : forall b, PGROUNDDOWN b <> p -> k_mem s2 b = k_mem s b).
  { intros b Hb. rewrite in_page_iff in Hb by apply Hp. unfold s2. ksimpl.
    rewrite memset_page_out by done. by apply Hout. }
  destruct (pt_frame (k_mem s) (k_mem s2) root F Hok) as [Hok2 Hl2].
  { intros b [x Hb]. apply Hm2. intros E'. rewrite E' in Hb. congruence. }
  assert (Hk2 : kmem_inv s2 l) by (apply memset_kmem; assumption).
  split; [split|split; [|split; [|split; [|split; [|split; [|split]]]]]]; try assumption.
  - intros q Hq. apply Hdis. by right.
  - change (k_held s2) with (k_held s1). by rewrite (mem_only_held _ _ Hmo).
  - eapply mem_only_trans; [exact Hmo|]. by destruct s1.
  - intros b Hb. rewrite in_page_iff in Hb by apply Hp. unfold s2. ksimpl.
    by apply memset_page_in.
Qed.

Lemma alloc_inv_user s root F l lo a perm s0 F0 l0 :
  alloc_inv s root F l lo a perm s0 F0 l0 -> 0 <= perm < 1024 ->
  user_ok (k_mem s0) root F0 l0 lo a.
Proof.
  intros H Hperm. split.
  - intros va Hva _. destruct (ai_new _ _ _ _ _ _ _ _ _ _ H va Hva) as (p & -> & Hp & Hpl & HF & _).
    destruct (mk_pte_spec p perm) as (_ & _ & -> & _); try done;
      [destruct (page_ok_pos p Hp); unfold PGSIZE in *; lia|apply Hp].
  - intros va1 va2 H1 H2 _ _. by eapply ai_inj.
Qed.

Lemma PGROUNDUP_aligned a : 0 <= a <= 2 ^ 64 - PGSIZE -> a mod PGSIZE = 0 -> PGROUNDUP a = a.
Proof. intros H1 H2. rewrite PGROUNDUP_eq by done. unfold PGSIZE in *. dlia. Qed.

(** The pages that [alloc_inv] maps are valid and come from [l]. *)
Lemma alloc_inv_valid s root F l lo a perm s0 F0 l0 va :
  alloc_inv s root F l lo a perm s0 F0 l0 -> lo <= va < a ->
  has (lookup_va (k_mem s0) root va) PTE_V = true.
Proof.
  intros H Hva. destruct (ai_new _ _ _ _ _ _ _ _ _ _ H va Hva) as (p & -> & _). apply has_V_lor.
Qed.

(** Undoing a partial allocation, as uvmalloc() does when memory runs out. *)
Lemma alloc_rollback s root F l lo a hi perm s0 F0 l0 :
  alloc_inv s root F l lo a perm s0 F0 l0 -> 0 <= perm < 1024 ->
  lo mod PGSIZE = 0 -> a mod PGSIZE = 0 -> 0 <= lo <= a -> a <= hi -> hi <= MAXVA ->
  (forall va, lo <= va < hi -> has (lookup_va (k_mem s) root va) PTE_V = false) ->
  exists r s' l', uvmdealloc root a lo s0 = Ok r s' /\ alloc_undone s root F l lo hi s' F0 l'.
Proof.
  intros HA Hperm Hlo Ha Hle Hhi Hmax Hfree.
  assert (HP : PGSIZE = 4096) by done. assert (HM : MAXVA = 2 ^ 38) by reflexivity.
  pose proof (alloc_inv_user _ _ _ _ _ _ _ _ _ _ HA Hperm) as Huser.
  pose proof (fun va => alloc_inv_valid _ _ _ _ _ _ _ _ _ _ va HA) as Hval.
  destruct HA as [Hinv Hmo Hsub Hpages _ _ Hold Hframe].
  assert (Hun : exists r s', uvmdealloc root a lo s0 = Ok r s' /\
    unmap_post root lo a true s0 F0 l0 s').
  { unfold uvmdealloc. rewrite Z.geb_leb. destruct (Z.leb_spec a lo).
    - exists a, s0. split; [done|]. exists []. split; [split; [done|apply mem_only_refl|done]|].
      split; [intros va' _; split; [lia|done]|]. intros q. split; [set_solver|].
      intros [_ (va' & ? & _)]. lia.
    - rewrite !PGROUNDUP_aligned by (done || lia). destruct (Z.ltb_spec lo a); [|lia].
      rewrite s32_small, u64_small by (rewrite HP in *; dlia).
      destruct (uvmunmap_spec s0 root F0 l0 lo ((a - lo) / PGSIZE) true) as (s' & E & Hp);
        try done; replace (lo + (a - lo) / PGSIZE * PGSIZE) with a in * by (rewrite HP in *; dlia);
        try lia; try done.
      { rewrite HP in *; dlia. }
      exists lo, s'. cbn [whenM]. by erewrite bind_ok by exact E. }
  destruct Hun as (r & s' & E & freed & [Hinv' Hmo' Hfr] & Hu & Hf).
  exists r, s', (freed ++ l0). split; [done|]. split; try done.
  - by eapply mem_only_trans.
  - intros q. rewrite (Hpages q), elem_of_app, (Hf q). split.
    + intros [?|[?|(va' & Hin & Eq)]]; [tauto|tauto|]. do 2 left. split; [done|]. eauto.
    + intros [[[_ (va' & Hin & _ & Eq)]|?]|?]; [|tauto|tauto]. right; right. eauto.
  - intros va' Hva'. destruct (decide (va' < a)); [apply Hu; lia|].
    rewrite (proj2 (Hu va' ltac:(lia))), Hold by lia. apply Hfree. lia.
  - intros va' H1 H2. rewrite (proj2 (Hu va' H1)), Hold by lia. done.
  - intros b Hb HF. rewrite Hfr, Hframe; try done.
    + destruct (F0 !! _) eqn:E0; [|done]. exfalso. apply Hb, Hpages. right; left. by rewrite E0.
    + intros Hin. apply Hf in Hin as [_ (va' & Hin & _ & Eq)]. apply Hb, Hpages. eauto.
Qed.

(** From [s0] to [s1] the tables may have grown, and the range may have been extended from
    [a] to [a'] with the page [p]. *)
Lemma alloc_step s root F l lo a a' perm s0 F0 l0 p s1 F1 l1 :
  alloc_inv s root F l lo a perm s0 F0 l0 -> 0 <= perm < 1024 -> 0 <= lo ->
  lo <= a <= a' -> a' <= MAXVA -> a mod PGSIZE = 0 -> a' <= a + PGSIZE ->
  vm_inv s1 root F1 l1 -> mem_only s0 s1 -> F0 ⊆ F1 ->
  (forall q, q ∈ l0 <-> (q ∈ l1 \/ (is_Some (F1 !! q) /\ F0 !! q = None) \/ (a < a' /\ q = p))) ->
  (forall va', 0 <= va' < MAXVA -> lookup_va (k_mem s1) root va' =
     if (a <=? va') && (va' <? a') then mk_pte p perm else lookup_va (k_mem s0) root va') ->
  (forall b, F1 !! PGROUNDDOWN b = None -> PGROUNDDOWN b ∉ l0 -> k_mem s1 b = k_mem s0 b) ->
  (a < a' -> page_ok p /\ (p ∉ l1) /\ F1 !! p = None /\
     forall b, PGROUNDDOWN b = p -> k_mem s1 b = 0) ->
  alloc_inv s root F l lo a' perm s1 F1 l1.
Proof.
  intros [Hinv Hmo Hsub Hpages Hnew Hinj Hold Hframe] Hperm Hlo Hle Hmax Hal Ha'
    Hinv1 Hmo1 Hsub1 Hpages1 Hlook Hframe1 Hp.
  assert (Hin : forall va, lo <= va < a -> lookup_va (k_mem s1) root va = lookup_va (k_mem s0) root va).
  { intros va Hva. rewrite Hlook by lia. zcases; done. }
  assert (Hpa : forall va, a <= va < a' -> PTE2PA (lookup_va (k_mem s1) root va) = p).
  { intros va Hva. rewrite Hlook by lia. zcases. destruct Hp as (Hp & _); [lia|].
    apply mk_pte_spec; [destruct (page_ok_pos p Hp); unfold PGSIZE in *; lia|apply Hp|done]. }
  assert (Hl0 : forall va, lo <= va < a -> PTE2PA (lookup_va (k_mem s1) root va) ∉ l0).
  { intros va Hva. rewrite Hin by done. destruct (Hnew va Hva) as (q & -> & Hq & Hql & _).
    destruct (mk_pte_spec q perm) as (_ & _ & -> & _); try done;
      [destruct (page_ok_pos q Hq); unfold PGSIZE in *; lia|apply Hq]. }
  split; try done.
  - by eapply mem_only_trans.
  - by etrans.
  - intros q. rewrite Hpages, Hpages1. split.
    + intros [[?|[[H1 H2]|[? ->]]]|[[[x Hx] ?]|(va & Hva & E)]].
      * by left.
      * right; left. split; [done|]. destruct (F !! q) eqn:E; [|done].
        by rewrite (lookup_weaken _ _ _ _ E Hsub) in H2.
      * right; right. exists a. split; [lia|]. apply Hpa. lia.
      * right; left. split; [|done]. exists x. by eapply lookup_weaken.
      * right; right. exists va. rewrite Hin by done. split; [lia|done].
    + intros [?|[[H1 H2]|(va & Hva & E)]].
      * tauto.
      * destruct (F0 !! q) eqn:E; [right; left; eauto|]. left; right; left. done.
      * destruct (decide (va < a)).
        -- right; right. exists va. rewrite <- Hin by lia. split; [lia|done].
        -- left; right; right. split; [lia|]. rewrite <- E. apply Hpa. lia.
  - intros va Hva. destruct (decide (va < a)).
    + destruct (Hnew va ltac:(lia)) as (q & E & Hq & Hql & HqF & Hz). exists q.
      rewrite Hin by lia. assert (HqF1 : F1 !! q = None).
      { destruct (F1 !! q) eqn:E1; [|done]. exfalso. apply Hql, Hpages1. right; left.
        by rewrite E1. }
      split_and!; try done; [intros ?; apply Hql, Hpages1; by left|].
      intros b Hb. rewrite Hframe1; [by apply Hz|by rewrite Hb|by rewrite Hb].
    + exists p. rewrite Hlook by lia. destruct Hp as (? & ? & ? & ?); [lia|].
      split_and!; try done. zcases; done.
  - intros va1 va2 H1 H2. destruct (decide (va1 < a)), (decide (va2 < a)).
    + rewrite !Hin by lia. apply Hinj; lia.
    + rewrite (Hpa va2) by lia. intros E. destruct (Hl0 va1); [lia|]. rewrite E. apply Hpages1.
      right; right. split; [lia|done].
    + rewrite (Hpa va1) by lia. intros E. destruct (Hl0 va2); [lia|]. rewrite <- E. apply Hpages1.
      right; right. split; [lia|done].
    + intros _. trans (vpn a); [|symmetry]; (apply page_vpn; [done|lia]).
  - intros va H1 H2. rewrite Hlook by done. zcases; try (apply Hold; lia).
  - intros b Hb HF. rewrite Hframe1, Hframe; try done.
    + destruct (F1 !! PGROUNDDOWN b) as [x|] eqn:E; [|done]. exfalso. apply Hb, Hpages.
      destruct (F0 !! PGROUNDDOWN b) eqn:E0; [right; left; eauto|].
      left. apply Hpages1. right; left. by rewrite E.
    + intros Hin'. apply Hb, Hpages. by left.
Qed.

(** A page [p] taken from the free list, zeroed, and offered to mappages(): the tables may
    have taken more pages, and [p] belongs to nobody else. *)
Record fresh_page (s : kstate) root (F : gmap Z (nat * Z)) (p : Z) (l : list Z)
    (s' : kstate) (F' : gmap Z (nat * Z)) (l' : list Z) : Prop := {
  fp_inv : vm_inv s' root F' l';
  fp_mem : mem_only s s';
  fp_sub : F ⊆ F';
  fp_pages q : q ∈ l <-> (q ∈ l' \/ (is_Some (F' !! q) /\ F !! q = None));
  fp_page : page_ok p /\ (p ∉ l') /\ F' !! p = None;
  fp_frame b : F' !! PGROUNDDOWN b = None -> PGROUNDDOWN b <> p -> k_mem s' b = k_mem s b;
  fp_zero b : PGROUNDDOWN b = p -> k_mem s' b = 0
}.

Lemma map_fresh s root F p l a perm :
  vm_inv s root F (p :: l) -> 0 <= perm < 1024 -> a mod PGSIZE = 0 -> 0 <= a ->
  a + PGSIZE <= MAXVA -> has (lookup_va (k_mem s) root a) PTE_V = false ->
  exists s1, kalloc s = Ok p s1 /\ p <> 0 /\ exists e s3 F3 l3,
    mappages root a PGSIZE p perm (set_k_mem (memset (k_mem s1) p 0 PGSIZE) s1) = Ok e s3 /\
    fresh_page s root F p l s3 F3 l3 /\ (length l <= length l3 + 2)%nat /\
    (e = 0 /\ (forall va, 0 <= va < MAXVA -> lookup_va (k_mem s3) root va =
       if (a <=? va) && (va <? a + PGSIZE) then mk_pte p perm else lookup_va (k_mem s) root va) \/
     e = -1 /\ l3 = [] /\ same_lookups root s s3).
Proof.
  intros Hinv Hperm Hal Ha Hmax Hfree. assert (HP : PGSIZE = 4096) by done.
  destruct (kalloc_zeroed s root F p l Hinv)
    as (s1 & E1 & Hinv2 & Hmo2 & Hl2 & Hfr2 & Hz2 & Hp & Hpl & HpF).
  exists s1. split; [exact E1|]. destruct (page_ok_pos p Hp) as [Hp0 Hp56]. split; [lia|].
  set (s2 := set_k_mem _ s1) in *. clearbody s2.
  destruct (mappages_spec s2 root F l a 1 p perm)
    as (r & s3 & F3 & l3 & k & E3 & Hg & Hm & Hk & Hlen & _ & Hr); try done; try lia; [apply Hp| |].
  { intros va Hva. rewrite Hl2 by lia. by rewrite (lookup_va_page _ _ va a) by (apply page_vpn; [done|lia]). }
  replace (1 * PGSIZE) with PGSIZE in E3 by lia. exists r, s3, F3, l3. split; [exact E3|].
  pose proof (fun q => vm_grow_pages _ _ _ _ _ _ _ q Hinv2 Hg) as Hacc.
  destruct Hg as [Hinv3 Hmo3 Hsub3 _ Hfr3].
  assert (HpF3 : F3 !! p = None).
  { destruct (F3 !! p) as [x|] eqn:Ex; [|done]. destruct Hpl. apply Hacc. right. split; [by eexists|done]. }
  split; [split; try done|split; [exact Hlen|]].
  - by eapply mem_only_trans.
  - split_and!; try done. intros ?. apply Hpl, Hacc. by left.
  - intros b H1 H2. by rewrite Hfr3, Hfr2.
  - intros b Hb. rewrite Hfr3 by (by rewrite Hb). by apply Hz2.
  - destruct Hr as [[-> ->]|(-> & Hk1 & ->)]; [left|right]; (split; [done|]).
    + intros va Hva. rewrite Hm, Hl2 by done. replace (a + 1 * PGSIZE) with (a + PGSIZE) by lia.
      zcases; try done. f_equal. rewrite (proj2 (in_page_iff a va Hal)) by lia. lia.
    + split; [done|]. intros va Hva. rewrite Hm, Hl2 by done. zcases; done.
Qed.

Lemma uvmalloc_round_spec s root F l lo a hi xperm s0 F0 l0 :
  let perm := Z.lor (Z.lor PTE_R PTE_U) xperm in
  alloc_inv s root F l lo a perm s0 F0 l0 -> 0 <= xperm < 1024 ->
  lo mod PGSIZE = 0 -> a mod PGSIZE = 0 -> 0 <= lo <= a -> a + PGSIZE <= hi -> hi <= MAXVA ->
  (forall va, lo <= va < hi -> has (lookup_va (k_mem s) root va) PTE_V = false) ->
  exists c s1 F1 l1, uvmalloc_round root lo xperm a s0 = Ok c s1 /\
    (c = Continue /\ alloc_inv s root F l lo (a + PGSIZE) perm s1 F1 l1 /\
       (length l0 <= length l1 + 3)%nat \/
     c = Return 0 /\ alloc_undone s root F l lo hi s1 F1 l1 /\ (length l0 <= 3)%nat).
Proof.
  intros perm HA Hx Hlo Hal Hle Hhi Hmax Hfree. unfold uvmalloc_round. fold perm.
  assert (HP : PGSIZE = 4096) by done. assert (HM : MAXVA = 2 ^ 38) by reflexivity.
  assert (Hperm : 0 <= perm < 1024) by (apply (lor_range 10); [lia|done|done]).
  pose proof (ai_inv _ _ _ _ _ _ _ _ _ _ HA) as Hinv0. destruct l0 as [|p l0].
  { rewrite (bind_ok _ _ s0 0 s0) by (apply kalloc_none; apply Hinv0). cbn [Z.eqb].
    destruct (alloc_rollback s root F l lo a hi perm s0 F0 []) as (r & s' & l' & E & Hu);
      try done; [lia|].
    erewrite bind_ok by exact E. eexists _, s', F0, l'. split; [done|].
    right. split_and!; [done|done|cbn; lia]. }
  destruct (map_fresh s0 root F0 p l0 a perm)
    as (s1 & E1 & Hp0 & e & s3 & F3 & l3 & E3 & [Hinv3 Hmo3 Hsub3 Hacc Hp Hfr Hz] & Hlen & Hcase);
    try done; try lia.
  { rewrite (ai_old _ _ _ _ _ _ _ _ _ _ HA) by lia. apply Hfree. lia. }
  erewrite bind_ok by exact E1. destruct (Z.eqb_spec p 0); [lia|]. unfold put_mem. mrun.
  erewrite bind_ok by exact E3. destruct Hcase as [[-> Hm]|(-> & -> & Hm)].
  - eexists _, s3, F3, l3. split; [reflexivity|]. left. split; [done|]. split; [|cbn; lia].
    eapply (alloc_step _ _ _ _ _ _ _ _ _ _ _ p); try exact HA; try done; try lia; try tauto.
    + intros q. rewrite elem_of_cons, Hacc. assert (a < a + PGSIZE) by lia. tauto.
    + intros b H1 H2. apply Hfr; [done|]. intros Eb. apply H2. rewrite Eb. by left.
  - cbn [Z.eqb negb].
    destruct (kfree_vm s3 root F3 [] p) as (s4 & E4 & Hinv4 & Hmo4 & Hl4 & Hout4); try tauto.
    erewrite bind_ok by exact E4.
    destruct (alloc_rollback s root F l lo a hi perm s4 F3 [p]) as (r & s' & l' & E & Hu);
      try done; try lia.
    + eapply (alloc_step _ _ _ _ _ _ _ _ _ _ _ p); try exact HA; try done; try lia.
      * by eapply mem_only_trans.
      * intros q. rewrite elem_of_cons, Hacc, list_elem_of_singleton, elem_of_nil.
        split; [tauto|]. intros [?|[?|[? _]]]; [tauto|tauto|lia].
      * intros va Hva. rewrite Hl4, Hm by done. zcases; done.
      * intros b H1 H2. assert (PGROUNDDOWN b <> p) by (intros Eb; apply H2; rewrite Eb; by left).
        by rewrite Hout4, Hfr.
    + erewrite bind_ok by exact E. eexists _, s', F3, l'. split; [done|].
      right. split_and!; [done|done|cbn in *; lia].
Qed.

(** A new address space is empty. *)
Lemma uvmcreate_spec s p l :
  kmem_inv s (p :: l) -> LKmem ∉ k_held s ->
  exists s', uvmcreate s = Ok p s' /\ vm_inv s' p {[ p := (2%nat, 0) ]} l /\ mem_only s s' /\
    (forall va, 0 <= va < MAXVA -> lookup_va (k_mem s') p va = 0) /\
    (forall b, PGROUNDDOWN b <> p -> k_mem s' b = k_mem s b).
Proof.
  intros Hk Hlk. pose proof Hk as (_ & [Hpl _]%NoDup_cons & [Hp _]%Forall_cons & _).
  destruct (kalloc_some s p l Hk Hlk) as (s1 & E & Hk1 & Hmo & Hout & _).
  unfold uvmcreate. erewrite bind_ok by exact E.
  destruct (page_ok_pos p Hp) as [Hp0 _]. destruct (Z.eqb_spec p 0); [lia|].
  unfold put_mem. mrun. set (s2 := set_k_mem _ s1). exists s2. split; [reflexivity|].
  assert (Hz : forall i, 0 <= i < 512 -> load64 (k_mem s2) (p + 8 * i) = 0).
  { intros i Hi. rewrite (load64_fill _ _ 0); [done|]. intros j Hj. unfold s2. ksimpl.
    apply memset_page_in; unfold PGSIZE; lia. }
  assert (Hk2 : kmem_inv s2 l) by (apply memset_kmem; assumption).
  split; [split|split; [|split]].
  - split.
    + apply lookup_singleton_eq.
    + intros pg x [<- _]%lookup_singleton_Some. done.
    + intros pg lv pre [_ [= <- <-]]%lookup_singleton_Some. split; [done|]. by exists 0.
    + intros p1 p2 x [<- _]%lookup_singleton_Some [<- _]%lookup_singleton_Some. done.
    + intros pg lv pre i [<- _]%lookup_singleton_Some Hi. by rewrite Hz.
    + intros pg lv pre [<- _]%lookup_singleton_Some. done.
  - exact Hk2.
  - intros q Hq. apply lookup_singleton_None. by intros ->.
  - change (k_held s2) with (k_held s1). by rewrite (mem_only_held _ _ Hmo).
  - eapply mem_only_trans; [exact Hmo|]. by destruct s1.
  - intros va _. unfold lookup_va. by apply pt_lookup_zero.
  - intros b Hb. rewrite in_page_iff in Hb by apply Hp. unfold s2. ksimpl.
    rewrite memset_page_out by done. by apply Hout.
Qed.

(** C10: uvmalloc() grows an address space or leaves it as it was.  It never panics on a
    range that is unmapped.  If it returns [newsz], every page from PGROUNDUP(oldsz) up is
    mapped with the requested permissions to a zeroed page of its own, taken from the free
    list, and nothing else changed.  If memory runs out it returns 0, and then no page of the
    range is mapped, every other translation is the same, and every page that was free is
    free again or has become a page of the table.  It does not fail while more than three
    pages are free for each page asked for. *)
Theorem uvmalloc_all_or_nothing s root F l oldsz newsz xperm :
  vm_inv s root F l -> 0 <= oldsz <= newsz -> PGROUNDUP newsz <= MAXVA -> newsz < 2 ^ 63 ->
  0 <= xperm < 1024 ->
  (forall va, PGROUNDUP oldsz <= va < PGROUNDUP newsz ->
     has (lookup_va (k_mem s) root va) PTE_V = false) ->
  exists r s' F' l', uvmalloc root oldsz newsz xperm s = Ok r s' /\
    (r = newsz /\ alloc_inv s root F l (PGROUNDUP oldsz) (PGROUNDUP newsz)
       (Z.lor (Z.lor PTE_R PTE_U) xperm) s' F' l' \/
     r = 0 /\ alloc_undone s root F l (PGROUNDUP oldsz) (PGROUNDUP newsz) s' F' l' /\
       Z.of_nat (length l) <= 3 * ((PGROUNDUP newsz - PGROUNDUP oldsz) / PGSIZE)).
Proof.
  intros Hinv Hsz Hmax H63 Hx Hfree. unfold uvmalloc. destruct (Z.ltb_spec newsz oldsz); [lia|].
  assert (HP : PGSIZE = 4096) by done.
  pose proof (PGROUNDUP_eq oldsz ltac:(lia)) as Eo. pose proof (PGROUNDUP_eq newsz ltac:(lia)) as En.
  set (lo := PGROUNDUP oldsz) in *. set (hi := PGROUNDUP newsz) in *.
  set (perm := Z.lor (Z.lor PTE_R PTE_U) xperm).
  assert (Hlo : lo mod PGSIZE = 0 /\ 0 <= lo <= hi /\ hi = lo + (hi - lo) / PGSIZE * PGSIZE /\
    Z.max lo newsz <= hi < Z.max lo newsz + PGSIZE) by (rewrite HP in *; split_and!; dlia).
  destruct Hlo as (Hal & Hle & Ehi & Hr). clear Eo En. clearbody lo hi.
  destruct (page_loop (R := Z)
    (fun a s0 => exists F0 l0, alloc_inv s root F l lo a perm s0 F0 l0 /\
       Z.of_nat (length l) <= Z.of_nat (length l0) + 3 * ((a - lo) / PGSIZE))
    (fun r s0 => r = 0 /\ exists F0 l0, alloc_undone s root F l lo hi s0 F0 l0 /\
       Z.of_nat (length l) <= 3 * ((hi - lo) / PGSIZE))
    lo newsz ((hi - lo) / PGSIZE) (uvmalloc_round root lo xperm) s)
    as (o & s' & E & Ho); rewrite <- ?Ehi in *; try done.
  - apply Z.div_pos; lia.
  - exists F, l. split; [|rewrite HP; dlia]. split; try done; try lia; [apply mem_only_refl|].
    intros q. split; [by left|]. intros [?|[[[x Hx'] ?]|(va & ? & _)]]; [done|congruence|lia].
  - intros a s0 H1 H2 H3 (F0 & l0 & HA & Hlen).
    destruct (uvmalloc_round_spec s root F l lo a hi xperm s0 F0 l0)
      as (c & s1 & F1 & l1 & Eb & Hc); try done; try lia.
    exists c, s1. split; [done|]. destruct Hc as [(-> & ? & ?)|(-> & ? & ?)].
    + exists F1, l1. split; [done|]. replace (a + PGSIZE - lo) with (a - lo + 1 * PGSIZE) by lia.
      rewrite Z.div_add by done. lia.
    + split; [done|]. exists F1, l1. split; [done|]. rewrite HP in *. dlia.
  - erewrite bind_ok by exact E. destruct o as [r|].
    + destruct Ho as (-> & F' & l' & HA & ?). exists 0, s', F', l'. auto.
    + destruct Ho as (F' & l' & HA & _). exists newsz, s', F', l'. auto.
Qed.

End growing.

(** An empty address space on the eight-page machine, for evaluating the theorems. *)
Lemma tiny_space : exists s l,
  let root := PHYSTOP - PGSIZE in
  vm_inv (img := tiny_image) s root {[ root := (2%nat, 0) ]} l /\ length l = 7%nat /\
  (forall va, 0 <= va < MAXVA -> lookup_va (k_mem s) root va = 0).
Proof.
  destruct (freerange_run (img := tiny_image) (kstate0 (fun _ => 0)) [] (PHYSTOP - 8 * PGSIZE) PHYSTOP)
    as (s & E & Hk & Hmo).
  - split; [reflexivity|]. split; [apply NoDup_nil_2|]. split; [apply Forall_nil_2|].
    intros a. split; [discriminate|reflexivity].
  - apply not_elem_of_empty.
  - rewrite Forall_forall. intros q Hq. apply elem_page_range in Hq as (i & -> & Hi & Hq);
      [|vm_compute; discriminate].
    change (PGROUNDUP (PHYSTOP - 8 * PGSIZE)) with (PHYSTOP - 8 * PGSIZE) in *.
    unfold page_ok. change (@image_end tiny_image) with (PHYSTOP - 8 * PGSIZE).
    unfold PHYSTOP, KERNBASE, PGSIZE in *. dlia.
  - set_solver.
  - change (reverse _ ++ []) with ((fun i => PHYSTOP - i * PGSIZE) <$> [1; 2; 3; 4; 5; 6; 7; 8]) in Hk.
    cbn [fmap list_fmap] in Hk. change (PHYSTOP - 1 * PGSIZE) with (PHYSTOP - PGSIZE) in Hk.
    destruct (uvmcreate_spec (img := tiny_image) s _ _ Hk) as (s' & _ & Hinv & _ & Hl & _).
    { rewrite (mem_only_held _ _ Hmo). apply not_elem_of_empty. }
    eexists s', _. split; [exact Hinv|]. split; [reflexivity|exact Hl].
Qed.

Lemma uvmalloc_all_or_nothing_witness : exists s s' r,
  uvmalloc (img := tiny_image) (PHYSTOP - PGSIZE) 0 5000 PTE_W s = Ok r s' /\ r = 5000.
Proof.
  destruct tiny_space as (s & l & Hinv & Hlen & Hl).
  destruct (uvmalloc_all_or_nothing (img := tiny_image) s (PHYSTOP - PGSIZE) _ l 0 5000 PTE_W Hinv)
    as (r & s' & F' & l' & E & Hr).
  - lia.
  - vm_compute. discriminate.
  - reflexivity.
  - split; [discriminate|reflexivity].
  - intros va Hva. rewrite Hl; [reflexivity|].
    change (PGROUNDUP 0) with 0 in Hva. change (PGROUNDUP 5000) with 8192 in Hva.
    change MAXVA with (2 ^ 38). lia.
  - exists s, s', r. split; [exact E|]. destruct Hr as [[-> _]|(_ & _ & Hr)]; [done|].
    rewrite Hlen in Hr. by vm_compute in Hr.
Defined.

End UserVM.
