(* ===== verification/CopyIO.v ===== *)
(** * copyout(), copyin(), copyinstr() and vmfault(): the kernel's view of user memory

    [user_byte] is the byte a user program sees at a virtual address.  copyout() stores
    exactly a range of them and copyin() reads exactly a range, across page boundaries;
    vmfault() gives a process the page it touches below its size. *)

From S2P Require Import Prelude Machine State Locks CString Kalloc VM PageTable UserVM.

Module CopyIO.
Import CString Kalloc VM PageTable UserVM.

(** The physical address behind [va], and the byte there. *)
Definition user_pa (m : memory) (root va : Z) : Z := PTE2PA (lookup_va m root va) + va mod PGSIZE.
Definition user_byte (m : memory) (root va : Z) : Z := m (user_pa m root va).

Section copying.
Context {img : Image}.

(** [[va, va + n)] is mapped to the process's own pages, with the permissions of [mask]. *)
Record user_range (m : memory) root (F : gmap Z (nat * Z)) (va n mask : Z) : Prop := {
  ur_ok : pt_ok m root F;
  ur_va : 0 <= va /\ va + n <= MAXVA;
  ur_page a : va <= a < va + n ->
    has (lookup_va m root a) PTE_V = true /\ has (lookup_va m root a) PTE_U = true /\
    Z.land (lookup_va m root a) mask = mask /\
    page_ok (PTE2PA (lookup_va m root a)) /\ F !! PTE2PA (lookup_va m root a) = None;
  ur_inj a b : va <= a < va + n -> va <= b < va + n ->
    PTE2PA (lookup_va m root a) = PTE2PA (lookup_va m root b) -> vpn a = vpn b
}.

Lemma walkaddr_spec s root F va :
  pt_ok (k_mem s) root F -> 0 <= va < MAXVA ->
  walkaddr root va s = Ok (let v := lookup_va (k_mem s) root va in
    if has v PTE_V && has v PTE_U then PTE2PA v else 0) s.
Proof.
  intros Hok Hva. unfold walkaddr. rewrite Z.geb_leb. zcases.
  destruct (walk_noalloc va s root F Hok Hva) as (slot & W & Hs). erewrite bind_ok by exact W.
  destruct Hs as [[-> ->]|(_ & Hne & ->)]; [done|]. destruct (Z.eqb_spec slot 0); [done|].
  unfold get_mem. mrun. destruct (has _ PTE_V); cbn [negb andb]; [|done].
  by destruct (has _ PTE_U).
Qed.

Lemma user_pa_page m root F va n mask a :
  user_range m root F va n mask -> va <= a < va + n ->
  PGROUNDDOWN (user_pa m root a) = PTE2PA (lookup_va m root a).
Proof.
  intros H Ha. destruct (ur_page _ _ _ _ _ _ H a Ha) as (_ & _ & _ & [Hal _] & _).
  apply in_page_iff; [done|]. unfold user_pa. pose proof (Z.mod_pos_bound a PGSIZE ltac:(done)). lia.
Qed.

(** Different user addresses have different physical addresses. *)
Lemma user_pa_inj m root F va n mask a b :
  user_range m root F va n mask -> va <= a < va + n -> va <= b < va + n ->
  user_pa m root a = user_pa m root b -> a = b.
Proof.
  intros H Ha Hb E.
  assert (Ep : PTE2PA (lookup_va m root a) = PTE2PA (lookup_va m root b))
    by (rewrite <- (user_pa_page _ _ _ _ _ _ _ H Ha), <- (user_pa_page _ _ _ _ _ _ _ H Hb); by rewrite E).
  pose proof (ur_inj _ _ _ _ _ _ H a b Ha Hb Ep) as Ev. unfold user_pa in E. unfold vpn in Ev.
  unfold PGSIZE in *. dlia.
Qed.

(** A memory that differs from [m] only at user addresses of the range has its tables. *)
Lemma user_range_frame m m' root F va n mask :
  user_range m root F va n mask ->
  (forall x, (forall a, va <= a < va + n -> x <> user_pa m root a) -> m' x = m x) ->
  user_range m' root F va n mask /\
  forall a, 0 <= a < MAXVA -> lookup_va m' root a = lookup_va m root a.
Proof.
  intros H Hm. destruct (pt_frame m m' root F (ur_ok _ _ _ _ _ _ H)) as [Hok' Hl].
  { intros x [y Hx]. apply Hm. intros a Ha ->.
    rewrite (user_pa_page _ _ _ _ _ _ _ H Ha) in Hx.
    destruct (ur_page _ _ _ _ _ _ H a Ha) as (_ & _ & _ & _ & HF). congruence. }
  pose proof (ur_va _ _ _ _ _ _ H) as Hva. split; [|done]. split; try done.
  - intros a Ha. rewrite !Hl by lia. by apply (ur_page _ _ _ _ _ _ H).
  - intros a b Ha Hb. rewrite !Hl by lia. by apply (ur_inj _ _ _ _ _ _ H).
Qed.

Lemma user_range_sub m root F va n mask va' n' :
  user_range m root F va n mask -> va <= va' -> 0 <= n' -> va' + n' <= va + n ->
  user_range m root F va' n' mask.
Proof.
  intros [H1 H2 H3 H4] Hva Hn' Hn. split; try done; [lia|..].
  - intros a Ha. apply H3. lia.
  - intros a b Ha Hb. apply H4; lia.
Qed.

(** Within a page, consecutive user addresses are consecutive physical addresses. *)
Lemma user_pa_add m root va i :
  0 <= i -> va mod PGSIZE + i < PGSIZE -> user_pa m root (va + i) = user_pa m root va + i.
Proof.
  intros Hi Hp. unfold user_pa.
  rewrite (lookup_va_page _ _ (va + i) va) by (unfold vpn, PGSIZE in *; dlia).
  unfold PGSIZE in *. dlia.
Qed.

(** The first page of a non-empty range: what walkaddr() and the size computation give. *)
Lemma copy_piece s root F va n mask :
  user_range (k_mem s) root F va n mask -> 0 < n ->
  let va0 := PGROUNDDOWN va in
  let k := Z.min (PGSIZE - (va - va0)) n in
  walkaddr root va0 s = Ok (user_pa (k_mem s) root va - (va - va0)) s /\
  user_pa (k_mem s) root va - (va - va0) <> 0 /\ va0 < MAXVA /\ 0 <= va0 /\
  0 < k <= n /\ (k < n -> va + k = va0 + PGSIZE) /\
  (forall i, 0 <= i < k -> user_pa (k_mem s) root (va + i) = user_pa (k_mem s) root va + i) /\
  lookup_va (k_mem s) root va0 = lookup_va (k_mem s) root va.
Proof.
  intros H Hn va0 k. pose proof (ur_va _ _ _ _ _ _ H) as Hva.
  assert (E0 : va - va0 = va mod PGSIZE) by (unfold va0; rewrite PGROUNDDOWN_eq; lia).
  pose proof (Z.mod_pos_bound va PGSIZE ltac:(done)) as Hoff.
  assert (Hva0 : 0 <= va0 < MAXVA).
  { unfold va0. rewrite PGROUNDDOWN_eq. pose proof (Z.mod_le va PGSIZE ltac:(lia) ltac:(done)). lia. }
  assert (El : lookup_va (k_mem s) root va0 = lookup_va (k_mem s) root va).
  { apply lookup_va_page. unfold vpn, va0. rewrite PGROUNDDOWN_eq. unfold PGSIZE. dlia. }
  destruct (ur_page _ _ _ _ _ _ H va ltac:(lia)) as (HV & HU & _ & Hp & _).
  unfold user_pa. rewrite E0. replace (_ + _ - _) with (PTE2PA (lookup_va (k_mem s) root va)) by lia.
  split_and!; try lia.
  - rewrite (walkaddr_spec s root F) by (try apply H; done). cbv zeta. by rewrite El, HV, HU.
  - destruct (page_ok_pos _ Hp). lia.
  - intros i Hi. apply user_pa_add; lia.
Qed.

(** One round of copyout() over a mapped, writable range. *)
Lemma copyout_round fuel src s root F va :
  let n := Z.of_nat (length src) in
  let k := Z.min (PGSIZE - (va - PGROUNDDOWN va)) n in
  user_range (k_mem s) root F va n PTE_W -> 0 < n ->
  copyout_loop (S fuel) root va src s =
  copyout_loop fuel root (PGROUNDDOWN va + PGSIZE) (drop (Z.to_nat k) src)
    (set_k_mem (store_bytes (k_mem s) (user_pa (k_mem s) root va) (take (Z.to_nat k) src)) s).
Proof.
  intros n k Hr Hn. assert (HM : MAXVA = 2 ^ 38) by reflexivity.
  destruct (copy_piece s root F va n PTE_W Hr Hn) as (Ew & Hne & Hmax & Hva0 & _ & _ & _ & El).
  fold k in Ew. set (va0 := PGROUNDDOWN va) in *.
  destruct src as [|b0 src0]; [cbn in n; lia|]. cbn [copyout_loop]. fold va0.
  set (src := b0 :: src0) in *.
  rewrite Z.geb_leb. destruct (Z.leb_spec MAXVA va0); [lia|].
  rewrite (bind_ok _ _ _ _ _ Ew).
  destruct (Z.eqb_spec (user_pa (k_mem s) root va - (va - va0)) 0) as [|_]; [done|]. mrun.
  destruct (Z.eqb_spec (user_pa (k_mem s) root va - (va - va0)) 0) as [|_]; [done|].
  destruct (walk_noalloc va0 s root F) as (slot & W & Hs); [apply Hr|lia|].
  destruct (ur_page _ _ _ _ _ _ Hr va ltac:(lia)) as (HV & _ & HW & _).
  rewrite (bind_ok _ _ _ _ _ W). destruct Hs as [[_ Hs]|(_ & Hs0 & Hs)]; [by rewrite <- El, Hs in HV|].
  destruct (Z.eqb_spec slot 0); [done|]. unfold get_mem, put_mem. mrun.
  rewrite <- Hs, El. unfold has at 1. rewrite HW. change (negb (negb (PTE_W =? 0))) with false.
  cbv iota. mrun. fold n k. rewrite u64_small by (unfold PGSIZE; lia). f_equal.
  f_equal. f_equal. lia.
Qed.

Lemma copyout_loop_spec fuel src s root F va :
  (length src <= fuel)%nat -> Forall (fun b => 0 <= b < 256) src ->
  user_range (k_mem s) root F va (Z.of_nat (length src)) PTE_W ->
  exists m', copyout_loop fuel root va src s = Ok 0 (set_k_mem m' s) /\
    (forall i b, src !! i = Some b -> m' (user_pa (k_mem s) root (va + Z.of_nat i)) = b) /\
    (forall x, (forall a, va <= a < va + Z.of_nat (length src) -> x <> user_pa (k_mem s) root a) ->
       m' x = k_mem s x).
Proof.
  revert src s va. induction fuel as [|fuel IH]; intros src s va Hf Hsrc Hr.
  { destruct src; [|cbn in Hf; lia]. exists (k_mem s). by destruct s. }
  destruct (decide (src = [])) as [->|Hnil]; [exists (k_mem s); by destruct s|].
  assert (Hn : 0 < Z.of_nat (length src)) by (destruct src; [done|cbn; lia]).
  rewrite (copyout_round fuel src s root F va Hr Hn).
  pose proof (ur_va _ _ _ _ _ _ Hr) as Hva.
  destruct (copy_piece s root F va _ PTE_W Hr Hn) as (_ & _ & _ & _ & Hk & Hend & Hadd & _).
  set (n := Z.of_nat (length src)) in *. set (k := Z.min _ _) in *. set (m1 := store_bytes _ _ _).
  assert (Hm1 : forall x, (forall a, va <= a < va + k -> x <> user_pa (k_mem s) root a) -> m1 x = k_mem s x).
  { intros x Hx. apply store_bytes_out. rewrite length_take. intros Hin.
    apply (Hx (va + (x - user_pa (k_mem s) root va))); [lia|]. rewrite Hadd by lia. lia. }
  destruct (user_range_frame (k_mem s) m1 root F va n PTE_W Hr) as [Hr1 Hl1].
  { intros x Hx. apply Hm1. intros a Ha. apply Hx. lia. }
  assert (Epa : forall a, 0 <= a < MAXVA -> user_pa m1 root a = user_pa (k_mem s) root a)
    by (intros a Ha; unfold user_pa; by rewrite Hl1).
  assert (Hd : Z.of_nat (length (drop (Z.to_nat k) src)) = n - k) by (rewrite length_drop; lia).
  destruct (IH (drop (Z.to_nat k) src) (set_k_mem m1 s) (va + k)) as (m' & E & Hin & Hout).
  { lia. } { by apply Forall_drop. } { rewrite Hd. ksimpl. eapply user_range_sub; [done|lia..]. }
  rewrite Hd in Hout. ksimpl in Hin. ksimpl in Hout. exists m'. split; [|split].
  - destruct (decide (k < n)) as [Hlt|Hge].
    + rewrite <- Hend by done. rewrite E. by destruct s.
    + destruct (drop (Z.to_nat k) src) eqn:Ed; [|cbn in Hd; lia].
      destruct fuel; cbn in E |- *; injection E as <-; by destruct s.
  - intros i b Hb. pose proof (lookup_lt_Some _ _ _ Hb) as Hi'.
    destruct (decide (Z.of_nat i < k)) as [Hi|Hi].
    + rewrite Hout, Hadd; [|lia|].
      * unfold m1. erewrite store_bytes_in; [|rewrite lookup_take_lt by lia; exact Hb].
        apply u8_small. rewrite Forall_lookup in Hsrc. by apply (Hsrc i).
      * intros a Ha. rewrite Epa by lia. intros E'.
        apply (user_pa_inj _ _ _ _ _ _ _ _ Hr) in E'; lia.
    + rewrite <- (Hin (i - Z.to_nat k)%nat b).
      * rewrite Epa by lia. f_equal. f_equal. lia.
      * rewrite lookup_drop, <- Hb. f_equal. lia.
  - intros x Hx. rewrite Hout; [apply Hm1; intros a Ha; apply Hx; lia|].
    intros a Ha. rewrite Epa by lia. apply Hx. lia.
Qed.

(** copyin() reads the bytes a user program sees. *)
Lemma copyin_loop_spec fuel s root F va n :
  0 <= n <= Z.of_nat fuel -> user_range (k_mem s) root F va n 0 ->
  copyin_loop fuel root va n s =
  Ok (0, (fun i => user_byte (k_mem s) root (va + Z.of_nat i)) <$> seq 0 (Z.to_nat n)) s.
Proof.
  assert (HM : MAXVA = 2 ^ 38) by reflexivity.
  revert va n. induction fuel as [|fuel IH]; intros va n Hn Hr; cbn [copyin_loop];
    (destruct (Z.leb_spec n 0); [by replace n with 0 by lia|]); [lia|].
  destruct (copy_piece s root F va n 0 Hr) as (Ew & Hne & Hmax & Hva0 & Hk & Hend & Hadd & _); [lia|].
  pose proof (ur_va _ _ _ _ _ _ Hr) as Hva.
  set (va0 := PGROUNDDOWN va) in *. set (k := Z.min _ _) in *.
  rewrite (bind_ok _ _ _ _ _ Ew).
  destruct (Z.eqb_spec (user_pa (k_mem s) root va - (va - va0)) 0) as [|_]; [done|]. mrun.
  destruct (Z.eqb_spec (user_pa (k_mem s) root va - (va - va0)) 0) as [|_]; [done|].
  unfold get_mem. mrun. rewrite u64_small by (unfold PGSIZE; lia).
  replace (user_pa (k_mem s) root va - (va - va0) + (va - va0)) with (user_pa (k_mem s) root va) by lia.
  assert (E : copyin_loop fuel root (va0 + PGSIZE) (n - k) s =
    Ok (0, (fun i => user_byte (k_mem s) root (va + k + Z.of_nat i)) <$> seq 0 (Z.to_nat (n - k))) s).
  { destruct (decide (k < n)).
    - rewrite <- Hend by done. apply IH; [lia|]. eapply user_range_sub; [done|lia..].
    - replace (n - k) with 0 by lia. by destruct fuel. }
  rewrite (bind_ok _ _ _ _ _ E). unfold retM. do 2 f_equal.
  replace (Z.to_nat n) with (Z.to_nat k + Z.to_nat (n - k))%nat by lia.
  rewrite seq_app, fmap_app. f_equal.
  - apply list_eq. intros i. rewrite list_lookup_fmap. destruct (decide (i < Z.to_nat k)%nat).
    + rewrite lookup_load_bytes, lookup_seq_lt by done. cbn. unfold user_byte.
      by rewrite Hadd by lia.
    + rewrite lookup_seq_ge, lookup_ge_None_2 by (rewrite ?length_load_bytes; lia). done.
  - replace (seq (0 + Z.to_nat k) (Z.to_nat (n - k)))
      with (Nat.add (Z.to_nat k) <$> seq 0 (Z.to_nat (n - k))) by (rewrite fmap_add_seq; f_equal; lia).
    rewrite <- list_fmap_compose. apply list_fmap_ext. intros _ i _. cbn.
    f_equal. lia.
Qed.

(** What vmfault() did: [fresh_page] and the new translation, or nothing but perhaps new
    (empty) table pages. *)
Definition vmfault_mapped s root F l va s' (mem : Z) : Prop :=
  exists l0 F' l', l = mem :: l0 /\ fresh_page s root F mem l0 s' F' l' /\
    forall a, 0 <= a < MAXVA -> lookup_va (k_mem s') root a =
      if vpn a =? vpn va then mk_pte mem (Z.lor (Z.lor PTE_W PTE_U) PTE_R)
      else lookup_va (k_mem s) root a.

Lemma ismapped_spec s root F va :
  pt_ok (k_mem s) root F -> 0 <= va < MAXVA ->
  ismapped root va s = Ok (has (lookup_va (k_mem s) root va) PTE_V) s.
Proof.
  intros Hok Hva. unfold ismapped.
  destruct (walk_noalloc va s root F Hok Hva) as (slot & W & Hs). erewrite bind_ok by exact W.
  destruct Hs as [[-> ->]|(_ & Hne & ->)]; [done|]. destruct (Z.eqb_spec slot 0); [done|]. done.
Qed.

(** C13: copyout() followed by copyin() at the same user addresses returns the bytes that were
    copied out, whatever page boundaries the range crosses, and copyout() changes no other
    byte of physical memory: in particular no page table and no other process's page. *)
Theorem copyout_copyin s root F va src :
  Forall (fun b => 0 <= b < 256) src ->
  user_range (k_mem s) root F va (Z.of_nat (length src)) PTE_W ->
  exists s', copyout root va src s = Ok 0 s' /\
    copyin root va (Z.of_nat (length src)) s' = Ok (0, src) s' /\
    (exists m', s' = set_k_mem m' s) /\
    (forall x, (forall a, va <= a < va + Z.of_nat (length src) -> x <> user_pa (k_mem s) root a) ->
       k_mem s' x = k_mem s x).
Proof.
  intros Hsrc Hr. unfold copyout, copyin.
  destruct (copyout_loop_spec (length src) src s root F va) as (m' & E & Hin & Hout); try done.
  destruct (user_range_frame (k_mem s) m' root F va _ _ Hr Hout) as [Hr' Hl].
  pose proof (ur_va _ _ _ _ _ _ Hr) as Hva.
  exists (set_k_mem m' s). split_and!; [done| |by eexists|done].
  rewrite (copyin_loop_spec _ _ root F); ksimpl; [|lia|].
  - do 2 f_equal. rewrite Nat2Z.id. apply list_eq. intros i. rewrite list_lookup_fmap.
    destruct (decide (i < length src)%nat) as [Hi|Hi].
    + rewrite lookup_seq_lt by done. cbn. destruct (lookup_lt_is_Some_2 src i Hi) as [b Hb].
      rewrite Hb, <- (Hin i b Hb). unfold user_byte, user_pa. by rewrite Hl by lia.
    + rewrite lookup_seq_ge, lookup_ge_None_2 by lia. done.
  - destruct Hr' as [H1 H2 H3 H4]. split; try done. intros a Ha.
    destruct (H3 a Ha) as (? & ? & _ & ? & ?). split_and!; try done. apply Z.land_0_r.
Qed.

(** vmfault() on a page fault of the running process.  An address at or above the
    process's size, and an address whose page is mapped, get 0 and change nothing.  Otherwise
    the page is mapped, writable and readable by the user, to a zeroed page taken from the
    free list, whose address is returned; if memory runs out 0 is returned, no translation
    has changed, and the page is free again. *)
Theorem vmfault_demand_zero s root F l p va :
  k_cur s = Some p -> p_pagetable (the_proc p s) = root -> p_sz (the_proc p s) <= MAXVA ->
  vm_inv s root F l -> 0 <= va ->
  exists r s', vmfault root va s = Ok r s' /\
    if (p_sz (the_proc p s) <=? va) || has (lookup_va (k_mem s) root va) PTE_V
    then r = 0 /\ s' = s
    else vmfault_mapped s root F l va s' r \/
         r = 0 /\ same_lookups root s s' /\ (length l <= 3)%nat /\
         exists F' l', vm_inv s' root F' l' /\ F ⊆ F' /\
           forall q, q ∈ l <-> (q ∈ l' \/ (is_Some (F' !! q) /\ F !! q = None)).
Proof.
  intros Hcur Hpt Hsz Hinv Hva. unfold vmfault, myproc, get_proc. mrun. rewrite Hcur. mrun.
  rewrite Z.geb_leb. destruct (Z.leb_spec (p_sz (the_proc p s)) va); cbn [orb]; [by exists 0, s|].
  assert (HP : PGSIZE = 4096) by done.
  assert (Hm : MAXVA mod PGSIZE = 0) by reflexivity.
  assert (Ha : PGROUNDDOWN va mod PGSIZE = 0 /\ 0 <= PGROUNDDOWN va /\ PGROUNDDOWN va + PGSIZE <= MAXVA
    /\ PGROUNDDOWN va <= va < PGROUNDDOWN va + PGSIZE)
    by (rewrite PGROUNDDOWN_eq, HP in *; dlia).
  destruct Ha as (Hal & Ha0 & Hamax & Hin). set (a := PGROUNDDOWN va) in *.
  assert (Ev : vpn va = vpn a) by (by apply page_vpn).
  rewrite (bind_ok _ _ _ _ _ (ismapped_spec s root F a ltac:(apply Hinv) ltac:(lia))).
  rewrite (lookup_va_page _ _ va a Ev). destruct (has _ PTE_V) eqn:Hv; [by exists 0, s|].
  destruct l as [|mem l].
  { rewrite (bind_ok _ _ s 0 s) by (apply kalloc_none; apply Hinv). exists 0, s. split; [done|].
    right. split_and!; [done|done|cbn; lia|]. exists F, []. split_and!; [done|done|].
    intros q. rewrite elem_of_nil. split; [done|]. intros [?|[[x Hx] ?]]; [done|congruence]. }
  destruct (map_fresh s root F mem l a (Z.lor (Z.lor PTE_W PTE_U) PTE_R))
    as (s1 & E1 & Hp0 & e & s3 & F3 & l3 & E3 & Hfp & Hlen & Hcase); try done.
  rewrite (bind_ok _ _ _ _ _ E1). destruct (Z.eqb_spec mem 0); [done|]. unfold put_mem. mrun.
  destruct (kalloc_some s mem l (vm_kmem _ _ _ _ Hinv) (vm_unlocked _ _ _ _ Hinv))
    as (s1' & E1' & _ & Hmo & _). rewrite E1 in E1'. injection E1' as <-.
  replace (p_pagetable _) with root by (rewrite Hmo; by rewrite <- Hpt).
  rewrite (bind_ok _ _ _ _ _ E3). destruct Hcase as [[-> Hl]|(-> & -> & Hl)]; cbn [Z.eqb negb].
  - exists mem, s3. split; [done|]. left. exists l, F3, l3. split_and!; [done|done|].
    intros b Hb. by rewrite Hl, Ev, vpn_page.
  - destruct Hfp as [Hinv3 Hmo3 Hsub3 Hacc Hp _ _].
    destruct (kfree_vm s3 root F3 [] mem Hinv3 Hp) as (s4 & E4 & Hinv4 & Hmo4 & Hl4 & _).
    rewrite (bind_ok _ _ _ _ _ E4). exists 0, s4. split; [done|]. right.
    split; [done|]. split; [by eapply same_lookups_trans|]. split; [cbn in *; lia|].
    exists F3, [mem]. split_and!; try done. intros q.
    rewrite elem_of_cons, Hacc, list_elem_of_singleton, elem_of_nil. tauto.
Qed.

End copying.

(** A writable user page at address 0 on the eight-page machine. *)
Lemma tiny_range : exists s F,
  user_range (img := tiny_image) (k_mem s) (PHYSTOP - PGSIZE) F 100 3 PTE_W.
Proof.
  destruct tiny_space as (s & l & Hinv & Hlen & Hl). destruct l as [|p l]; [done|].
  destruct (map_fresh (img := tiny_image) s _ _ p l 0 (Z.lor (Z.lor PTE_W PTE_U) PTE_R) Hinv)
    as (s1 & _ & _ & e & s3 & F3 & l3 & _ & [Hinv3 _ _ _ (Hp & _ & HpF) _ _] & Hlen3 & Hc).
  { done. } { done. } { done. } { by vm_compute. } { by rewrite Hl. }
  destruct Hc as [[_ Hm]|(_ & -> & _)]; [|cbn in *; lia].
  assert (Hb : forall a, 100 <= a < 100 + 3 -> lookup_va (k_mem s3) (PHYSTOP - PGSIZE) a =
    mk_pte p (Z.lor (Z.lor PTE_W PTE_U) PTE_R)).
  { intros a Ha. rewrite Hm by (change MAXVA with (2 ^ 38); lia). unfold PGSIZE. zcases; done. }
  destruct (page_ok_pos p Hp) as [? ?].
  destruct (mk_pte_spec p (Z.lor (Z.lor PTE_W PTE_U) PTE_R)) as (_ & HV & Epa & Ef);
    [unfold PGSIZE in *; lia|apply Hp|done|].
  exists s3, F3. split.
  - apply Hinv3.
  - by vm_compute.
  - intros a Ha. rewrite Hb, Epa by done. split_and!; try done.
    + rewrite has_flags by done. by rewrite Ef.
    + replace PTE_W with (Z.land 0x3FF PTE_W) at 2 by reflexivity. rewrite Z.land_assoc.
      fold (PTE_FLAGS (mk_pte p (Z.lor (Z.lor PTE_W PTE_U) PTE_R))). by rewrite Ef.
  - intros a b Ha Hb' _. unfold vpn, PGSIZE. dlia.
Qed.

Lemma copyout_copyin_witness : exists s s',
  copyout (img := tiny_image) (PHYSTOP - PGSIZE) 100 [1; 2; 3] s = Ok 0 s' /\
  copyin (img := tiny_image) (PHYSTOP - PGSIZE) 100 3 s' = Ok (0, [1; 2; 3]) s'.
Proof.
  destruct tiny_range as (s & F & Hr).
  destruct (copyout_copyin (img := tiny_image) s (PHYSTOP - PGSIZE) F 100 [1; 2; 3])
    as (s' & H1 & H2 & _).
  - repeat constructor; lia.
  - exact Hr.
  - exists s, s'. split; [exact H1|exact H2].
Defined.

End CopyIO.
