(* ===== verification/FreeWalk.v ===== *)
(** * freewalk() and uvmfree(): taking an address space apart

    freewalk() recurses through a table whose leaf entries are all invalid and frees its pages
    in post-order.  [tree_pages] is that order, computed from memory; the tree invariant of
    PageTable gives that it visits every page of the table exactly once. *)

From S2P Require Import Prelude Machine State Locks CString Kalloc VM PageTable UserVM.

Module FreeWalk.
Import CString Kalloc VM PageTable UserVM.

Definition entry (m : memory) (pg : Z) (i : nat) : Z := load64 m (pg + 8 * Z.of_nat i).

(** The table pages below [pg], in the order in which freewalk() frees them. *)
Fixpoint tree_pages (m : memory) (lv : nat) (pg : Z) : list Z :=
  match lv with
  | O => [pg]
  | S lv' =>
      (seq 0 512 ≫= fun i => if has (entry m pg i) PTE_V
                             then tree_pages m lv' (PTE2PA (entry m pg i)) else []) ++ [pg]
  end.

(** No leaf is mapped below [pg]. *)
Fixpoint closed (m : memory) (lv : nat) (pg : Z) : Prop :=
  forall i, (i < 512)%nat -> has (entry m pg i) PTE_V = true ->
    match lv with
    | O => False
    | S lv' => has (entry m pg i) (Z.lor (Z.lor PTE_R PTE_W) PTE_X) = false /\
               closed m lv' (PTE2PA (entry m pg i))
    end.

Definition sub_pages (m : memory) (lv : nat) (pg : Z) (i : nat) : list Z :=
  if has (entry m pg i) PTE_V then tree_pages m lv (PTE2PA (entry m pg i)) else [].

Lemma tree_pages_S m lv pg : tree_pages m (S lv) pg = (seq 0 512 ≫= sub_pages m lv pg) ++ [pg].
Proof. done. Qed.

Lemma tree_pages_root m lv pg : pg ∈ tree_pages m lv pg.
Proof. destruct lv; cbn [tree_pages]; [by left|]. rewrite elem_of_app. right. by left. Qed.

Lemma tree_pages_sub m lv pg i q :
  (i < 512)%nat -> q ∈ sub_pages m lv pg i -> q ∈ tree_pages m (S lv) pg.
Proof.
  intros Hi Hq. rewrite tree_pages_S, elem_of_app. left. apply list_elem_of_bind.
  exists i. split; [done|]. apply elem_of_seq. lia.
Qed.

(** Two memories with the same entries in those pages have the same tree. *)
Lemma tree_same m m' lv pg :
  (forall q i, q ∈ tree_pages m lv pg -> (i < 512)%nat -> entry m' q i = entry m q i) ->
  tree_pages m' lv pg = tree_pages m lv pg /\ (closed m lv pg -> closed m' lv pg).
Proof.
  revert pg. induction lv as [|lv IH]; intros pg H.
  { split; [done|]. intros Hc i Hi. rewrite H by (done || apply tree_pages_root). by apply Hc. }
  assert (Hpg : forall i, (i < 512)%nat -> entry m' pg i = entry m pg i)
    by (intros i Hi; apply H; [apply tree_pages_root|done]).
  assert (Hsub : forall i, (i < 512)%nat -> has (entry m pg i) PTE_V = true ->
    tree_pages m' lv (PTE2PA (entry m pg i)) = tree_pages m lv (PTE2PA (entry m pg i)) /\
    (closed m lv (PTE2PA (entry m pg i)) -> closed m' lv (PTE2PA (entry m pg i)))).
  { intros i Hi Hv. apply IH. intros q j Hq. apply H. apply (tree_pages_sub m lv pg i); [done|].
    unfold sub_pages. by rewrite Hv. }
  split.
  - rewrite !tree_pages_S. f_equal. apply Forall_bind_ext, Forall_forall. intros i Hi%elem_of_seq. unfold sub_pages.
    rewrite Hpg by lia. destruct (has _ _) eqn:Hv; [|done]. apply Hsub; [lia|done].
  - intros Hc i Hi Hv. rewrite Hpg in Hv |- * by done. destruct (Hc i Hi Hv) as [? ?].
    split; [done|]. by apply Hsub.
Qed.

Section walking.
Context {img : Image}.

(** The effect of freeing the pages [ps]. *)
Record freed (s : kstate) (l ps : list Z) (s' : kstate) : Prop := {
  fr_kmem : kmem_inv s' (reverse ps ++ l);
  fr_mem : mem_only s s';
  fr_frame b : PGROUNDDOWN b ∉ ps -> k_mem s' b = k_mem s b
}.

Lemma entry_frame (m m' : memory) pg i :
  page_ok pg -> (i < 512)%nat -> (forall b, PGROUNDDOWN b = pg -> m' b = m b) ->
  entry m' pg i = entry m pg i.
Proof.
  intros [Hal _] Hi Hm. apply load64_same. intros b Hb. apply Hm.
  apply in_page_iff; [done|]. unfold PGSIZE. lia.
Qed.

Definition freewalk_ok (lv : nat) : Prop := forall pg s l,
  kmem_inv s l -> LKmem ∉ k_held s -> closed (k_mem s) lv pg ->
  NoDup (tree_pages (k_mem s) lv pg) -> Forall page_ok (tree_pages (k_mem s) lv pg) ->
  (forall q, q ∈ tree_pages (k_mem s) lv pg -> q ∉ l) ->
  exists s', freewalk (S lv) pg s = Ok tt s' /\ freed s l (tree_pages (k_mem s) lv pg) s'.

(** Before round [k] of the loop on [pg]: the subtrees of the earlier entries are freed, the
    later entries are as they were, and only those pages and [pg] have changed. *)
Record loop_inv (s : kstate) (l : list Z) (lv : nat) (pg : Z) (k : nat) (s0 : kstate) : Prop := {
  li_kmem : kmem_inv s0 (reverse (seq 0 k ≫= sub_pages (k_mem s) lv pg) ++ l);
  li_mem : mem_only s s0;
  li_frame b : PGROUNDDOWN b ∉ (seq 0 k ≫= sub_pages (k_mem s) lv pg) -> PGROUNDDOWN b <> pg ->
    k_mem s0 b = k_mem s b;
  li_entry j : (k <= j < 512)%nat -> entry (k_mem s0) pg j = entry (k_mem s) pg j
}.

Lemma seq_bind_snoc {A} (f : nat -> list A) k : seq 0 (S k) ≫= f = (seq 0 k ≫= f) ++ f k.
Proof. rewrite seq_S, bind_app. cbn. by rewrite app_nil_r. Qed.

(** The pages of the earlier subtrees, of subtree [k], and [pg] itself are different. *)
Lemma tree_split m lv pg k :
  let dn := seq 0 k ≫= sub_pages m lv pg in
  let ps := sub_pages m lv pg k in
  (k < 512)%nat -> NoDup (tree_pages m (S lv) pg) ->
  NoDup ps /\ (forall q, q ∈ dn -> q ∉ ps) /\ (pg ∉ dn) /\ (pg ∉ ps) /\
  (forall q, q ∈ dn ++ ps -> q ∈ tree_pages m (S lv) pg).
Proof.
  intros dn ps Hk Hnd. rewrite tree_pages_S in Hnd |- *.
  replace (seq 0 512) with (seq 0 (S k) ++ seq (S k) (512 - S k)) in *
    by (rewrite <- seq_app; f_equal; lia).
  rewrite bind_app, seq_bind_snoc in *. fold dn ps in Hnd |- *. set (rest := seq (S k) _ ≫= _) in *.
  apply NoDup_app in Hnd as (Hnd & Hpg & _). apply NoDup_app in Hnd as (Hnd & _ & _).
  apply NoDup_app in Hnd as (_ & Hdp & Hps).
  assert (Hn : pg ∉ (dn ++ ps) ++ rest) by (intros Hin; apply (Hpg _ Hin); by left).
  rewrite !not_elem_of_app in Hn. split_and!; try tauto.
  intros q Hq. rewrite !elem_of_app in *. tauto.
Qed.

Lemma freewalk_round lv s l pg k s0 :
  freewalk_ok lv -> (k < 512)%nat -> LKmem ∉ k_held s -> closed (k_mem s) (S lv) pg ->
  NoDup (tree_pages (k_mem s) (S lv) pg) -> Forall page_ok (tree_pages (k_mem s) (S lv) pg) ->
  (forall q, q ∈ tree_pages (k_mem s) (S lv) pg -> q ∉ l) ->
  loop_inv s l lv pg k s0 ->
  exists s1, freewalk_entry (freewalk (S lv)) pg k s0 = Ok Continue s1 /\ loop_inv s l lv pg (S k) s1.
Proof.
  intros IH Hk Hlk Hc Hnd Hok Hdis [Hkm Hmo Hfr Hent]. unfold freewalk_entry, get_mem. mrun.
  change (load64 (k_mem s0) (pg + 8 * Z.of_nat k)) with (entry (k_mem s0) pg k).
  rewrite Hent by lia. set (e := entry (k_mem s) pg k).
  assert (Hpg : page_ok pg) by (rewrite Forall_forall in Hok; apply Hok, tree_pages_root).
  destruct (has e PTE_V) eqn:Hv; cbn [andb]; last first.
  { exists s0. split; [done|]. assert (Es : sub_pages (k_mem s) lv pg k = [])
      by (unfold sub_pages; fold e; by rewrite Hv).
    split; rewrite ?seq_bind_snoc, ?Es, ?app_nil_r; try done. intros j Hj. apply Hent. lia. }
  destruct (Hc k Hk Hv) as [Hnl Hcl]. fold e in Hnl, Hcl. rewrite Hnl. cbn [negb].
  assert (Es : sub_pages (k_mem s) lv pg k = tree_pages (k_mem s) lv (PTE2PA e))
    by (unfold sub_pages; fold e; by rewrite Hv).
  set (ps := tree_pages (k_mem s) lv (PTE2PA e)) in *.
  set (dn := seq 0 k ≫= sub_pages (k_mem s) lv pg) in *.
  destruct (tree_split (k_mem s) lv pg k Hk Hnd) as (Hnps & Hdp & Hpgd & Hpgs & Hin).
  rewrite Es in *. fold ps dn in Hnps, Hdp, Hpgd, Hpgs, Hin.
  assert (Hpok : forall q, q ∈ ps -> page_ok q).
  { intros q Hq. rewrite Forall_forall in Hok. apply Hok, Hin. rewrite elem_of_app. by right. }
  destruct (tree_same (k_mem s) (k_mem s0) lv (PTE2PA e)) as [Et Hct].
  { intros q j Hq Hj. apply entry_frame; [by apply Hpok|done|]. intros b <-. apply Hfr.
    - intros Hb. by apply (Hdp _ Hb).
    - intros Eb. apply Hpgs. by rewrite <- Eb. }
  fold ps in Et. destruct (IH (PTE2PA e) s0 (reverse dn ++ l)) as (s1 & E1 & Hf); rewrite ?Et; auto.
  { by rewrite (mem_only_held _ _ Hmo). }
  { by apply Forall_forall. }
  { intros q Hq. rewrite elem_of_app, elem_of_reverse. intros [Hd|Hl]; [by apply (Hdp q)|].
    apply (Hdis q); [|done]. apply Hin. rewrite elem_of_app. by right. }
  rewrite Et in Hf. destruct Hf as [Hkm1 Hmo1 Hfr1].
  rewrite (bind_ok _ _ _ _ _ E1). unfold put_mem. mrun. eexists. split; [reflexivity|].
  split; rewrite ?seq_bind_snoc, ?Es; fold dn ps.
  - rewrite reverse_app, <- app_assoc. apply store_entry_kmem; [done|done|lia|].
    rewrite !elem_of_app, !elem_of_reverse. intros [?|[?|Hl]]; [done|done|].
    apply (Hdis pg); [apply tree_pages_root|done].
  - eapply mem_only_trans; [exact Hmo|]. eapply mem_only_trans; [exact Hmo1|]. by destruct s1.
  - intros b Hb Hne. rewrite not_elem_of_app in Hb. destruct Hb as [Hb1 Hb2]. ksimpl.
    rewrite store64_out, Hfr1, Hfr; try done. intros Hbb. apply Hne.
    apply in_page_iff; [apply Hpg|]. unfold PGSIZE. lia.
  - intros j Hj. unfold entry at 1. ksimpl.
    rewrite load64_store64_ne by (apply entries_apart; try apply Hpg; try lia; right; lia).
    fold (entry (k_mem s1) pg j).
    rewrite (entry_frame (k_mem s0)); [apply Hent; lia|done|lia|]. intros b <-. by apply Hfr1.
Qed.

Lemma freewalk_spec lv : freewalk_ok lv.
Proof.
  induction lv as [|lv IH]; intros pg s l Hk Hlk Hc Hnd Hok Hdis.
  - assert (Hloop : for_loop (seq 0 512) (freewalk_entry (freewalk 0) pg) s = Ok None s).
    { apply for_loop_miss, Forall_forall. intros i Hi%elem_of_seq. unfold freewalk_entry, get_mem. mrun.
      fold (entry (k_mem s) pg i). destruct (has (entry (k_mem s) pg i) PTE_V) eqn:Hv; [|done].
      by destruct (Hc i ltac:(lia) Hv). }
    cbn [freewalk]. rewrite (bind_ok _ _ _ _ _ Hloop). cbn [tree_pages] in *.
    rewrite Forall_singleton in Hok.
    destruct (kfree_some s pg l Hk Hok (Hdis pg ltac:(by left)) Hlk) as (s' & E & Hk' & Hmo & Ho).
    exists s'. split; [done|]. split; [done|done|].
    intros b Hb. apply Ho. rewrite list_elem_of_singleton in Hb. rewrite <- in_page_iff by apply Hok. done.
  - assert (Hpg : page_ok pg) by (rewrite Forall_forall in Hok; apply Hok, tree_pages_root).
    destruct (for_loop_inv (R := unit) (fun rest s0 => exists k, rest = drop k (seq 0 512) /\
        (k <= 512)%nat /\ loop_inv s l lv pg k s0) (fun _ _ => False)
      (seq 0 512) (freewalk_entry (freewalk (S lv)) pg) s) as (o & s0 & E & Ho).
    + exists 0%nat. split; [done|]. split; [lia|]. split; try done. apply mem_only_refl.
    + intros x rest s0 (k & Hd & _ & Hl). apply drop_seq_cons in Hd as (-> & Hk512 & ->).
      destruct (freewalk_round lv s l pg k s0) as (s1 & E & Hl1); try done.
      exists Continue, s1. split; [done|]. exists (S k). split; [done|]. split; [lia|done].
    + destruct o as [|]; [done|]. destruct Ho as (k & Hd & Hk512 & [Hkm Hmo Hfr _]).
      symmetry in Hd. apply (f_equal length) in Hd. rewrite length_drop, length_seq in Hd.
      assert (k = 512%nat) as -> by (cbn in Hd; lia). clear Hd Hk512.
      change (freewalk (S (S lv)) pg s) with
        (bindM (for_loop (seq 0 512) (freewalk_entry (freewalk (S lv)) pg)) (fun _ => kfree pg) s).
      rewrite (bind_ok _ _ _ _ _ E). rewrite tree_pages_S in *.
      set (dn := seq 0 512 ≫= sub_pages (k_mem s) lv pg) in *.
      apply NoDup_app in Hnd as (_ & Hd & _).
      destruct (kfree_some s0 pg (reverse dn ++ l) Hkm Hpg) as (s' & E' & Hk' & Hmo' & Ho').
      * rewrite elem_of_app, elem_of_reverse. intros [Hin|Hin]; [apply (Hd _ Hin); by left|].
        apply (Hdis pg); [|done]. rewrite elem_of_app. right. by left.
      * by rewrite (mem_only_held _ _ Hmo).
      * exists s'. split; [done|]. split.
        -- by rewrite reverse_app, reverse_singleton.
        -- by eapply mem_only_trans.
        -- intros b Hb. rewrite not_elem_of_app, list_elem_of_singleton in Hb. destruct Hb as [Hb1 Hb2].
           rewrite Ho' by (by rewrite <- in_page_iff by apply Hpg). by apply Hfr.
Qed.

(** ** The tree of [pt_ok] *)

(** The label [k] levels above one with index bits [pre]. *)
Definition up (k : nat) (pre : Z) : Z := Nat.iter k (fun x => x / 512) pre.

Lemma pt_ancestor m root F q lq pq n :
  pt_ok m root F -> F !! q = Some (lq, pq) -> (lq <= n <= 2)%nat ->
  exists c, F !! c = Some (n, up (n - lq) pq).
Proof.
  intros Hok Hq. induction n as [|n IH]; intros Hn.
  { replace lq with 0%nat in * by lia. eauto. }
  destruct (decide (lq = S n)) as [->|]; [rewrite Nat.sub_diag; eauto|].
  destruct IH as [c Hc]; [lia|].
  assert (Hne : c <> root).
  { intros ->. rewrite (pt_root _ _ _ Hok) in Hc. injection Hc as <- _. lia. }
  destruct (pt_parent _ _ _ Hok _ _ _ Hc Hne) as (par & Hpar & _). exists par.
  by replace (S n - lq)%nat with (S (n - lq)) by lia.
Qed.

(** freewalk() on a page of the tree visits the pages whose label is below its own. *)
Lemma pt_tree_pages m root F lv pg pre q :
  pt_ok m root F -> F !! pg = Some (lv, pre) ->
  q ∈ tree_pages m lv pg <->
  exists lq pq, F !! q = Some (lq, pq) /\ (lq <= lv)%nat /\ up (lv - lq) pq = pre.
Proof.
  intros Hok. revert pg pre. induction lv as [|lv IH]; intros pg pre Hpg.
  { cbn [tree_pages]. rewrite list_elem_of_singleton. split.
    - intros ->. exists 0%nat, pre. split; [done|]. split; [lia|done].
    - intros (lq & pq & Hq & Hle & E). replace lq with 0%nat in * by lia. cbn in E. subst pq.
      by eapply pt_inj. }
  rewrite tree_pages_S, elem_of_app, list_elem_of_singleton, list_elem_of_bind. split.
  - intros [(i & Hq & Hi%elem_of_seq)| ->].
    + unfold sub_pages in Hq. destruct (has (entry m pg i) PTE_V) eqn:Hv; [|by apply elem_of_nil in Hq].
      destruct (pt_node _ _ _ Hok _ _ _ (Z.of_nat i) Hpg ltac:(lia) Hv) as [Hc _].
      apply (IH _ _ Hc) in Hq as (lq & pq & Hq & Hle & E). exists lq, pq. split; [done|].
      split; [lia|]. replace (S lv - lq)%nat with (S (lv - lq)) by lia.
      change (up (S (lv - lq)) pq) with (up (lv - lq) pq / 512). rewrite E. dlia.
    + exists (S lv), pre. rewrite Nat.sub_diag. done.
  - intros (lq & pq & Hq & Hle & E). destruct (decide (lq = S lv)) as [->|Hne].
    { right. rewrite Nat.sub_diag in E. cbn in E. subst pq. by eapply pt_inj. }
    left. destruct (pt_label _ _ _ Hok _ _ _ Hpg) as [Hlv _].
    destruct (pt_ancestor m root F q lq pq lv Hok Hq) as [c Hc]; [lia|].
    assert (Hcr : c <> root).
    { intros ->. rewrite (pt_root _ _ _ Hok) in Hc. injection Hc as <- _. lia. }
    destruct (pt_parent _ _ _ Hok _ _ _ Hc Hcr) as (par & Hpar & Hv & Ec).
    replace (S lv - lq)%nat with (S (lv - lq)) in E by lia.
    change (up (S (lv - lq)) pq) with (up (lv - lq) pq / 512) in E. rewrite E in Hpar.
    rewrite (pt_inj _ _ _ Hok _ _ _ Hpar Hpg) in *.
    set (j := up (lv - lq) pq mod 512) in *. assert (Hj : 0 <= j < 512) by (by apply Z.mod_pos_bound).
    exists (Z.to_nat j). split; [|apply elem_of_seq; lia].
    unfold sub_pages, entry. rewrite Z2Nat.id, Hv, Ec by lia. apply (IH _ _ Hc). eauto with lia.
Qed.

Lemma pt_tree_NoDup m root F lv pg pre :
  pt_ok m root F -> F !! pg = Some (lv, pre) -> NoDup (tree_pages m lv pg).
Proof.
  intros Hok. revert pg pre. induction lv as [|lv IH]; intros pg pre Hpg; [apply NoDup_singleton|].
  assert (Hsub : forall i q, (i < 512)%nat -> q ∈ sub_pages m lv pg i ->
    exists lq pq, F !! q = Some (lq, pq) /\ (lq <= lv)%nat /\ up (lv - lq) pq = pre * 512 + Z.of_nat i).
  { intros i q Hi Hq. unfold sub_pages in Hq. destruct (has (entry m pg i) PTE_V) eqn:Hv;
      [|by apply elem_of_nil in Hq].
    destruct (pt_node _ _ _ Hok _ _ _ (Z.of_nat i) Hpg ltac:(lia) Hv) as [Hc _].
    by apply (pt_tree_pages _ _ _ _ _ _ _ Hok Hc). }
  rewrite tree_pages_S. apply NoDup_app. split; [|split; [|apply NoDup_singleton]].
  - apply NoDup_bind; [| |apply NoDup_seq].
    + intros i j q Hi%elem_of_seq Hj%elem_of_seq H1 H2.
      destruct (Hsub i q ltac:(lia) H1) as (l1 & p1 & E1 & _ & U1).
      destruct (Hsub j q ltac:(lia) H2) as (l2 & p2 & E2 & _ & U2). simplify_eq. lia.
    + intros i Hi%elem_of_seq. unfold sub_pages.
      destruct (has (entry m pg i) PTE_V) eqn:Hv; [|apply NoDup_nil_2].
      destruct (pt_node _ _ _ Hok _ _ _ (Z.of_nat i) Hpg ltac:(lia) Hv) as [Hc _]. by eapply IH.
  - intros q Hq ->%list_elem_of_singleton. apply list_elem_of_bind in Hq as (i & Hq & Hi%elem_of_seq).
    destruct (Hsub i pg ltac:(lia) Hq) as (l1 & p1 & E1 & Hle & _). simplify_eq. lia.
Qed.

Lemma pt_closed m root F lv pg pre :
  pt_ok m root F ->
  (forall va, 0 <= va < MAXVA -> has (lookup_va m root va) PTE_V = false) ->
  F !! pg = Some (lv, pre) -> closed m lv pg.
Proof.
  intros Hok Hun. revert pg pre. induction lv as [|lv IH]; intros pg pre Hpg i Hi Hv.
  - destruct (pt_label _ _ _ Hok _ _ _ Hpg) as (_ & va & Hva & Epre).
    set (va' := (pre * 512 + Z.of_nat i) * 4096).
    assert (HM : MAXVA = 2 ^ 38) by reflexivity.
    assert (Hdiv : pre = va / 2097152) by (rewrite <- Epre; reflexivity).
    assert (Hva' : 0 <= va' < MAXVA) by (unfold va'; dlia).
    assert (Ep : prefix 0 va' = pre).
    { change (prefix 0 va') with (va' / 2097152). unfold va'. dlia. }
    assert (Ex : PX 0 va' = Z.of_nat i).
    { rewrite PX_eq by lia. change (2 ^ (12 + 9 * 0)) with 4096. unfold va'. dlia. }
    rewrite <- Ep in Hpg. destruct (pt_path _ _ _ _ _ Hok Hva' Hpg) as [_ El].
    specialize (Hun va' Hva'). rewrite El, Ex in Hun. unfold entry in Hv. congruence.
  - destruct (pt_node _ _ _ Hok _ _ _ (Z.of_nat i) Hpg ltac:(lia) Hv) as [Hc Hl].
    split; [exact Hl|]. by eapply IH.
Qed.

(** An empty table is freed page by page. *)
Lemma freewalk_table s root F l :
  vm_inv s root F l ->
  (forall va, 0 <= va < MAXVA -> has (lookup_va (k_mem s) root va) PTE_V = false) ->
  exists s' ps, freewalk 3 root s = Ok tt s' /\ freed s l ps s' /\
    forall q, q ∈ ps <-> is_Some (F !! q).
Proof.
  intros [Hok Hk Hdis Hlk] Hun. pose proof (pt_root _ _ _ Hok) as Hr.
  assert (Hps : forall q, q ∈ tree_pages (k_mem s) 2 root <-> is_Some (F !! q)).
  { intros q. rewrite (pt_tree_pages _ _ _ _ _ _ _ Hok Hr). split; [intros (? & ? & -> & _); eauto|].
    intros [[lq pq] Hq]. exists lq, pq. destruct (pt_label _ _ _ Hok _ _ _ Hq) as [Hl _].
    split; [done|]. split; [done|].
    destruct (pt_ancestor _ _ _ _ _ _ 2 Hok Hq) as [c Hc]; [lia|].
    destruct (decide (c = root)) as [->|Hne]; [congruence|].
    destruct (pt_parent _ _ _ Hok _ _ _ Hc Hne) as (par & Hpar & _).
    apply (pt_label _ _ _ Hok) in Hpar as [? _]. lia. }
  destruct (freewalk_spec 2 root s l) as (s' & E & Hf); try done.
  - by eapply pt_closed.
  - by eapply pt_tree_NoDup.
  - apply Forall_forall. intros q [x Hx]%Hps. by eapply pt_page.
  - intros q [x Hx]%Hps Hin. rewrite Hdis in Hx by done. done.
  - exists s', (tree_pages (k_mem s) 2 root). done.
Qed.

(** uvmfree() gives everything back: on an address space whose pages all lie below [sz] it
    terminates without a panic, and afterwards the free list holds, each once, the pages that
    were free before, every page that was mapped, and every page of the table. *)
Lemma uvmfree_spec s root F l sz :
  vm_inv s root F l -> 0 <= sz < 2 ^ 63 -> PGROUNDUP sz <= MAXVA ->
  user_ok (k_mem s) root F l 0 (PGROUNDUP sz) ->
  (forall va, PGROUNDUP sz <= va < MAXVA -> has (lookup_va (k_mem s) root va) PTE_V = false) ->
  exists s' l', uvmfree root sz s = Ok tt s' /\ kmem_inv s' l' /\ mem_only s s' /\
    (forall q, q ∈ l' <-> (q ∈ l \/ is_Some (F !! q) \/
       exists va, 0 <= va < PGROUNDUP sz /\ has (lookup_va (k_mem s) root va) PTE_V = true /\
         PTE2PA (lookup_va (k_mem s) root va) = q)) /\
    (forall b, PGROUNDDOWN b ∉ l' -> k_mem s' b = k_mem s b).
Proof.
  intros Hinv Hsz Hmax Huser Habove. assert (HP : PGSIZE = 4096) by done.
  pose proof (PGROUNDUP_eq sz ltac:(lia)) as Eup. set (hi := PGROUNDUP sz) in *.
  assert (Hhi : 0 <= hi /\ hi / PGSIZE * PGSIZE = hi /\ sz <= hi /\ (sz = 0 -> hi = 0))
    by (rewrite HP in *; split_and!; dlia). clear Eup.
  assert (Hun : exists s1, whenM (sz >? 0) (uvmunmap root 0 (hi / PGSIZE) true) s = Ok tt s1 /\
    unmap_post root 0 hi true s F l s1).
  { rewrite Z.gtb_ltb. destruct (Z.ltb_spec 0 sz); cbn [whenM].
    - destruct (uvmunmap_spec s root F l 0 (hi / PGSIZE) true) as (s1 & E & Hp); try done;
        rewrite ?Z.add_0_l in *; replace (hi / PGSIZE * PGSIZE) with hi in * by lia; eauto.
      apply Z.div_pos; lia.
    - exists s. split; [done|]. replace hi with 0 by lia. exists [].
      split; [split; [done|apply mem_only_refl|done]|]. split; [intros va _; split; [lia|done]|].
      intros q. split; [by intros ?%elem_of_nil|]. intros [_ (va & ? & _)]. lia. }
  destruct Hun as (s1 & E1 & fr & [Hinv1 Hmo1 Hfr1] & Hu & Hf).
  destruct (freewalk_table s1 root F (fr ++ l) Hinv1) as (s2 & ps & E2 & [Hk2 Hmo2 Hfr2] & Hps).
  { intros va Hva. destruct (decide (va < hi)); [apply Hu; lia|].
    rewrite (proj2 (Hu va Hva)) by lia. apply Habove. lia. }
  exists s2, (reverse ps ++ fr ++ l). unfold uvmfree. fold hi.
  rewrite (bind_ok _ _ _ _ _ E1). split_and!; try done.
  - by eapply mem_only_trans.
  - intros q. rewrite !elem_of_app, elem_of_reverse, Hps, (Hf q). split; [intros [?|[[_ ?]|?]]; auto|intros [?|[?|?]]; auto].
  - intros b Hb. rewrite !not_elem_of_app, elem_of_reverse in Hb. destruct Hb as (Hb1 & Hb2 & _).
    rewrite Hfr2, Hfr1; try done. destruct (F !! PGROUNDDOWN b) eqn:E; [|done].
    destruct Hb1. apply Hps. by rewrite E.
Qed.

End walking.

End FreeWalk.
