(* ===== verification/Sched.v ===== *)
(** * kernel/proc.c: the process table, sleep and wakeup, the scheduler

    The operations of proc.c that read and write [proc[]] under the locks of its entries.  A
    context switch hands the CPU to code that is not the caller's: [Env] gives, for each
    switch in turn, the state in which control comes back, or none if it never does, and what the
    other harts do while the scheduler goes through the table. *)

From S2P Require Import Prelude Machine State Locks CString VM.

Module Sched.
Import CString VM.

(** The rest of the system at a context switch: [env_resched] from the swtch() of sched()
    until the scheduler resumes the process, [env_run] from the swtch() of scheduler() until
    the process gives up the CPU.  The first argument is the number of the switch.
    [env_others r i] is what the other harts do in round [r] of the scheduler before it has the
    lock of the [i]-th entry it looks at: in a round it looks at every entry at most twice.
    [env_patience] bounds how often a loop around sleep() may sleep before the model gives up
    with [Blocked]; [env_junk] is what the kernel stack holds where a local struct is not
    initialised. *)
Class Env := {
  env_resched : nat -> kstate -> option kstate;
  env_run : nat -> kstate -> option kstate;
  env_others : nat -> nat -> kstate -> kstate;
  env_patience : nat;
  env_junk : list Z
}.

Section code.
Context {env : Env}.

Definition swtch (away : nat -> kstate -> option kstate) : K unit := fun s =>
  match away (k_switches s) s with
  | Some s' => Ok tt (set_k_switches (S (k_switches s)) s')
  | None => Blocked s
  end.

(** [mycpu()->noff] is the number of locks held, and interrupts are off while it is positive,
    so the last check of sched() cannot fail; intena is part of Spinlock's state. *)
Definition sched : K unit :=
  p <- myproc ;;
  h <- holding (LProc p) ;;
  if negb h then panic "sched p->lock" else
  noff <- gets (fun s => size (k_held s)) ;;
  if negb (noff =? 1)%nat then panic "sched locks" else
  st <- get_proc p p_state ;;
  if decide (st = RUNNING) then panic "sched RUNNING" else
  swtch env_resched.

Definition yield : K unit :=
  p <- myproc ;;
  acquire (LProc p) ;;
  put_proc p (set_p_state RUNNABLE) ;;
  sched ;;
  release (LProc p).

Definition sleep (ch : chan) (lk : lockid) : K unit :=
  p <- myproc ;;
  acquire (LProc p) ;;
  release lk ;;
  put_proc p (set_p_chan (Some ch)) ;;
  put_proc p (set_p_state SLEEPING) ;;
  sched ;;
  put_proc p (set_p_chan None) ;;
  release (LProc p) ;;
  acquire lk.

(** The loops [for(p = proc; p < &proc[NPROC]; p++)]. *)
Definition procs : list nat := seq 0 NPROC.

Definition wakeup (ch : option chan) : K unit :=
  for_loop procs (fun p =>
    c <- gets k_cur ;;
    if decide (c = Some p) then retM (@Continue unit) else
    acquire (LProc p) ;;
    st <- get_proc p p_state ;;
    pch <- get_proc p p_chan ;;
    whenM (bool_decide (st = SLEEPING) && bool_decide (pch = ch))
      (put_proc p (set_p_state RUNNABLE)) ;;
    release (LProc p) ;;
    retM Continue) ;;
  retM tt.

(** The loop that kkill(), setpriority(), getpriority() and getprocinfo() share: look for the
    process with [pid], holding each entry's lock while looking at it; [hit] is the branch
    for the one that matches. *)
Definition pid_scan {R} (pid : Z) (hit : nat -> K (ctl R)) (p : nat) : K (ctl R) :=
  acquire (LProc p) ;;
  pd <- get_proc p p_pid ;;
  if pd =? pid then hit p else
    release (LProc p) ;;
    retM Continue.

Definition kkill (pid : Z) : K Z :=
  r <- for_loop procs (pid_scan pid (fun p =>
    put_proc p (set_p_killed 1) ;;
    st <- get_proc p p_state ;;
    whenM (bool_decide (st = SLEEPING)) (put_proc p (set_p_state RUNNABLE)) ;;
    release (LProc p) ;;
    retM (Return 0))) ;;
  retM (default (-1) r).

Definition setkilled (p : nat) : K unit :=
  acquire (LProc p) ;;
  put_proc p (set_p_killed 1) ;;
  release (LProc p).

Definition killed (p : nat) : K Z :=
  acquire (LProc p) ;;
  k <- get_proc p p_killed ;;
  release (LProc p) ;;
  retM k.

Definition meanwhile (r i : nat) : K unit := modify (env_others r i).

(** Pass 1 of the scheduler: the best priority among the RUNNABLE processes. *)
Definition best_priority (r : nat) : K Z :=
  '(best, _) <- for_acc procs 21 (fun p best =>
    meanwhile r p ;;
    acquire (LProc p) ;;
    st <- get_proc p p_state ;;
    pri <- get_proc p p_priority ;;
    release (LProc p) ;;
    retM (if bool_decide (st = RUNNABLE) && (pri <? best) then pri else best, @Continue unit)) ;;
  retM best.

(** Pass 2: run the first RUNNABLE process of that priority; the result says whether there
    was one. *)
Definition run_first (r : nat) (best : Z) : K bool :=
  r <- for_loop procs (fun p =>
    meanwhile r (NPROC + p) ;;
    acquire (LProc p) ;;
    st <- get_proc p p_state ;;
    pri <- get_proc p p_priority ;;
    if bool_decide (st = RUNNABLE) && (pri =? best) then
      put_proc p (set_p_state RUNNING) ;;
      modify (set_k_cur (Some p)) ;;
      swtch env_run ;;
      modify (set_k_cur None) ;;
      release (LProc p) ;;
      retM (Return tt)
    else
      release (LProc p) ;;
      retM Continue) ;;
  retM (match r with Some _ => true | None => false end).

(** Round [r] of the scheduler's loop; false is the wfi at its end. *)
Definition scheduler_round (r : nat) : K bool :=
  best <- best_priority r ;;
  if best <=? 20 then run_first r best else retM false.

(** The scheduler, for [n] rounds from round [r] on. *)
Fixpoint scheduler_rounds (r n : nat) : K unit :=
  match n with
  | O => retM tt
  | S n' => scheduler_round r ;; scheduler_rounds (S r) n'
  end.

Definition scheduler (n : nat) : K unit :=
  modify (set_k_cur None) ;;
  scheduler_rounds 0 n.

Definition increment_readcount : K unit :=
  acquire LReadcount ;;
  modify (fun s => set_k_readcount (s32 (k_readcount s + 1)) s) ;;
  release LReadcount.

Definition getreadcount : K Z :=
  acquire LReadcount ;;
  n <- gets k_readcount ;;
  release LReadcount ;;
  retM n.

Definition update_time_stats : K unit :=
  for_loop procs (fun p =>
    acquire (LProc p) ;;
    st <- get_proc p p_state ;;
    match st with
    | RUNNING => put_proc p (fun q => set_p_rtime (u32 (p_rtime q + 1)) q)
    | RUNNABLE => put_proc p (fun q => set_p_stime (u32 (p_stime q + 1)) q)
    | _ => retM tt
    end ;;
    release (LProc p) ;;
    retM (@Continue unit)) ;;
  retM tt.

(** clockintr() of trap.c, without the write of the timer register. *)
Definition clockintr : K unit :=
  hart <- gets k_cpuid ;;
  whenM (hart =? 0)
    (acquire LTicks ;;
     modify (fun s => set_k_ticks (u32 (k_ticks s + 1)) s) ;;
     wakeup (Some ChTicks) ;;
     release LTicks ;;
     update_time_stats).

Definition setpriority (pid priority : Z) : K Z :=
  if (priority <? 1) || (priority >? 20) then retM (-1) else
  r <- for_loop procs (pid_scan pid (fun p =>
    put_proc p (set_p_priority priority) ;;
    release (LProc p) ;;
    retM (Return 0))) ;;
  retM (default (-1) r).

Definition getpriority (pid : Z) : K Z :=
  r <- for_loop procs (pid_scan pid (fun p =>
    pri <- get_proc p p_priority ;;
    release (LProc p) ;;
    retM (Return pri))) ;;
  retM (default (-1) r).

Definition allocpid : K Z :=
  acquire LPid ;;
  pid <- gets k_nextpid ;;
  modify (fun s => set_k_nextpid (s32 (k_nextpid s + 1)) s) ;;
  release LPid ;;
  retM pid.

End code.
End Sched.
