(* ===== verification/SchedProofs.v ===== *)
(** * The scans of the process table and the scheduler's choice

    Each loop over [proc[]] is shown equal to a function on the table: the first entry with a
    pid, an update of every entry, the best priority.  The scheduler's two passes pick the
    first process among those of the best priority. *)

From S2P Require Import Prelude Machine State Locks CString VM Sched.

Module SchedProofs.
Import CString VM Sched.

(** No lock of a process is held, and the table has NPROC entries. *)
Record table_ok (s : kstate) : Prop := {
  to_len : length (k_procs s) = NPROC;
  to_free p : LProc p ∉ k_held s
}.

(** [s] with the lock of [p] held. *)
Definition lock_proc (p : nat) (s : kstate) : kstate := set_k_held ({[LProc p]} ∪ k_held s) s.

Lemma lock_ok s p : table_ok s -> acquire (LProc p) s = Ok tt (lock_proc p s).
Proof. intros H. apply acquire_ok. apply H. Qed.

(** Releasing the lock again after a change [f] of other parts of the state. *)
Lemma unlock_ok s p s1 :
  table_ok s -> k_held s1 = {[LProc p]} ∪ k_held s ->
  release (LProc p) s1 = Ok tt (set_k_held (k_held s) s1).
Proof.
  intros H E. rewrite release_ok by (rewrite E; set_solver). rewrite E, held_add_remove; [done|apply H].
Qed.

Lemma unlock_same s p : table_ok s -> release (LProc p) (lock_proc p s) = Ok tt s.
Proof. intros H. rewrite (unlock_ok s) by done. unfold lock_proc. by rewrite set_k_held_twice, set_k_held_held. Qed.

Lemma unlock_upd s p f :
  table_ok s -> release (LProc p) (upd_proc p f (lock_proc p s)) = Ok tt (upd_proc p f s).
Proof. intros H. rewrite (unlock_ok s) by done. by destruct s. Qed.

Lemma table_ok_upd s p f : table_ok s -> table_ok (upd_proc p f s).
Proof. intros [H1 H2]. split; [by rewrite length_upd_proc|done]. Qed.

(** ** First match *)

(** The entry that a search for [pid] finds. *)
Definition find_pid (pid : Z) (s : kstate) : option nat :=
  List.find (fun p => p_pid (the_proc p s) =? pid) procs.

(** [r] and [s'] are what the branch for the match returns. *)
Lemma pid_scan_spec {R A} pid (hit : nat -> K (ctl R)) (k : option R -> K A) s (r : R) s' :
  table_ok s ->
  (forall p, find_pid pid s = Some p -> hit p (lock_proc p s) = Ok (Return r) s') ->
  bindM (for_loop procs (pid_scan pid hit)) k s =
  match find_pid pid s with Some _ => k (Some r) s' | None => k None s end.
Proof.
  intros Hs Hhit.
  assert (Hmiss : forall p, (p_pid (the_proc p s) =? pid) = false -> pid_scan pid hit p s = Ok Continue s).
  { intros p Hp. unfold pid_scan. rewrite (bind_ok _ _ _ _ _ (lock_ok s p Hs)). unfold get_proc. mrun.
    change (the_proc p (lock_proc p s)) with (the_proc p s). rewrite Hp.
    by rewrite (bind_ok _ _ _ _ _ (unlock_same s p Hs)). }
  destruct (find_pid pid s) as [p|] eqn:E; apply bind_ok.
  - destruct (find_split _ _ _ E) as (pre & post & -> & Hpre & Hp).
    apply for_loop_hit.
    + eapply Forall_impl; [exact Hpre|]. intros q. apply Hmiss.
    + unfold pid_scan. rewrite (bind_ok _ _ _ _ _ (lock_ok s p Hs)). unfold get_proc. mrun.
      change (the_proc p (lock_proc p s)) with (the_proc p s). rewrite Hp. by apply Hhit.
  - apply for_loop_miss. eapply Forall_impl; [by apply find_none_Forall|]. intros q. apply Hmiss.
Qed.

(** ** Updating every entry *)

Lemma fold_upd_all (f : nat -> proc -> proc) s k :
  fold_left (fun s0 p => upd_proc p (f p) s0) (seq 0 k) s =
  set_k_procs (imap (fun i q => if decide (i < k)%nat then f i q else q) (k_procs s)) s.
Proof.
  induction k as [|k IH].
  - replace (imap _ _) with (k_procs s); [by destruct s|]. apply list_eq. intros i.
    rewrite list_lookup_imap. by destruct (_ !! i).
  - rewrite seq_S, fold_left_app, IH. cbn [fold_left Nat.add]. unfold upd_proc. ksimpl.
    change (set_k_procs ?x (set_k_procs ?y s)) with (set_k_procs x s). f_equal.
    apply list_eq. intros i. rewrite list_lookup_imap. destruct (decide (k = i)) as [->|Hne].
    + rewrite list_lookup_alter_eq, list_lookup_imap. destruct (k_procs s !! i); cbn; [|done].
      by rewrite decide_False, decide_True by lia.
    + rewrite list_lookup_alter_ne, list_lookup_imap by done. destruct (k_procs s !! i); cbn; [|done].
      repeat case_decide; try done; lia.
Qed.

Lemma for_each_proc {R} (f : nat -> proc -> proc) (body : nat -> K (ctl R)) s :
  table_ok s ->
  (forall p s0, table_ok s0 -> k_cur s0 = k_cur s -> body p s0 = Ok Continue (upd_proc p (f p) s0)) ->
  for_loop procs body s = Ok None (set_k_procs (imap f (k_procs s)) s).
Proof.
  intros Hs Hb.
  destruct (for_loop_fold (fun s0 => table_ok s0 /\ k_cur s0 = k_cur s)
    (fun p s0 => upd_proc p (f p) s0) procs body s) as [E _]; [done| |].
  - intros p s0 _ [H1 H2]. split; [by apply Hb|]. split; [by apply table_ok_upd|done].
  - rewrite E. unfold procs. rewrite fold_upd_all. do 2 f_equal. apply list_eq. intros i.
    rewrite !list_lookup_imap. destruct (k_procs s !! i) as [q|] eqn:Hi; [|done]. cbn.
    apply lookup_lt_Some in Hi. rewrite (to_len _ Hs) in Hi. by rewrite decide_True.
Qed.

(** ** kkill(), setpriority(), getpriority() *)

Lemma find_pid_lt pid s p : find_pid pid s = Some p -> (p < NPROC)%nat /\ p_pid (the_proc p s) = pid.
Proof.
  intros H. apply List.find_some in H as [H1 H2]. split; [|by apply Z.eqb_eq].
  apply list_elem_of_In, elem_of_seq in H1. lia.
Qed.

Lemma the_proc_upd_eq s p f :
  (p < length (k_procs s))%nat -> the_proc p (upd_proc p f s) = f (the_proc p s).
Proof. intros Hp. rewrite the_proc_upd by done. by rewrite decide_True. Qed.

Lemma the_proc_upd_ne s p f q : p <> q -> the_proc q (upd_proc p f s) = the_proc q s.
Proof. intros H. unfold the_proc, upd_proc. ksimpl. by rewrite list_lookup_alter_ne. Qed.

Lemma upd_proc_twice p f g s : upd_proc p g (upd_proc p f s) = upd_proc p (fun q => g (f q)) s.
Proof.
  unfold upd_proc. ksimpl. change (set_k_procs ?x (set_k_procs ?y s)) with (set_k_procs x s). f_equal.
  apply list_eq. intros i. destruct (decide (p = i)) as [->|].
  - rewrite !list_lookup_alter_eq. by destruct (k_procs s !! i).
  - by rewrite !list_lookup_alter_ne.
Qed.

Lemma upd_proc_ext p f g s :
  (forall q, q = the_proc p s -> f q = g q) -> upd_proc p f s = upd_proc p g s.
Proof.
  intros H. unfold upd_proc. f_equal. apply list_alter_ext; [|done].
  intros q Hq. apply H. unfold the_proc. by rewrite Hq.
Qed.

(** What kill() does to its victim: mark it, and wake it if it sleeps. *)
Definition kill_proc (q : proc) : proc :=
  let q := set_p_killed 1 q in
  if decide (p_state q = SLEEPING) then set_p_state RUNNABLE q else q.

Section code.
Context {env : Env}.

(** kill(pid) marks the first process with that pid as killed, makes it RUNNABLE if it
    was SLEEPING, returns 0, and changes nothing else; if there is no such process it returns
    -1 and changes nothing. *)
Theorem kkill_marks_victim pid s :
  table_ok s ->
  kkill pid s = match find_pid pid s with
                | Some p => Ok 0 (upd_proc p kill_proc s)
                | None => Ok (-1) s
                end.
Proof.
  intros Hs. unfold kkill. pose (v := default 0%nat (find_pid pid s)).
  rewrite (pid_scan_spec pid _ _ s 0 (upd_proc v kill_proc s) Hs);
    [by unfold v; destruct (find_pid pid s)|].
  intros p Hp. unfold v. rewrite Hp. cbn [default]. destruct (find_pid_lt _ _ _ Hp) as [Hlt _].
  unfold put_proc, get_proc. mrun.
  rewrite the_proc_upd_eq by (change (k_procs (lock_proc p s)) with (k_procs s); by rewrite (to_len _ Hs)).
  change (the_proc p (lock_proc p s)) with (the_proc p s). ksimpl.
  assert (Ek : forall f, (f (the_proc p s) = kill_proc (the_proc p s)) ->
    bindM (release (LProc p)) (fun _ => retM (Return 0)) (upd_proc p f (lock_proc p s)) =
    Ok (Return 0) (upd_proc p kill_proc s)).
  { intros f E. rewrite (bind_ok _ _ _ _ _ (unlock_upd s p f Hs)). unfold retM. f_equal.
    apply upd_proc_ext. by intros q ->. }
  case_bool_decide as Hst; cbn [whenM]; mrun; [rewrite upd_proc_twice|]; apply Ek;
    unfold kill_proc; ksimpl; [by rewrite decide_True|by rewrite decide_False].
Qed.

Lemma setpriority_spec pid pri s :
  table_ok s ->
  setpriority pid pri s =
    if decide (1 <= pri <= 20) then
      match find_pid pid s with
      | Some p => Ok 0 (upd_proc p (set_p_priority pri) s)
      | None => Ok (-1) s
      end
    else Ok (-1) s.
Proof.
  intros Hs. unfold setpriority. rewrite Z.gtb_ltb. case_decide as Hr; zcases; try done.
  pose (v := default 0%nat (find_pid pid s)).
  rewrite (pid_scan_spec pid _ _ s 0 (upd_proc v (set_p_priority pri) s) Hs);
    [by unfold v; destruct (find_pid pid s)|].
  intros p Hp. unfold v. rewrite Hp. unfold put_proc. mrun.
  by rewrite (bind_ok _ _ _ _ _ (unlock_upd s p _ Hs)).
Qed.

Lemma getpriority_spec pid s :
  table_ok s ->
  getpriority pid s =
    Ok (match find_pid pid s with Some p => p_priority (the_proc p s) | None => -1 end) s.
Proof.
  intros Hs. unfold getpriority. pose (v := default 0%nat (find_pid pid s)).
  rewrite (pid_scan_spec pid _ _ s (p_priority (the_proc v s)) s Hs);
    [by unfold v; destruct (find_pid pid s)|].
  intros p Hp. unfold v. rewrite Hp. unfold get_proc. mrun.
  by rewrite (bind_ok _ _ _ _ _ (unlock_same s p Hs)).
Qed.

(** setpriority() and getpriority().  A priority outside 1..20 and an unknown pid are
    refused with -1 and change nothing; otherwise the call returns 0, a later getpriority()
    of the same pid returns the new value, and no other process has changed. *)
Theorem setpriority_getpriority pid pri s :
  table_ok s ->
  if decide (1 <= pri <= 20 /\ is_Some (find_pid pid s)) then
    exists s', setpriority pid pri s = Ok 0 s' /\ table_ok s' /\ getpriority pid s' = Ok pri s' /\
      (forall p, p_pid (the_proc p s) <> pid -> the_proc p s' = the_proc p s) /\
      (forall q, q <> pid -> getpriority q s' = bindM (getpriority q) (fun r _ => Ok r s') s)
  else setpriority pid pri s = Ok (-1) s.
Proof.
  intros Hs. rewrite setpriority_spec by done.
  destruct (find_pid pid s) as [p|] eqn:Hf.
  2: { rewrite decide_False by (intros [_ [? ?]]; done). by case_decide. }
  destruct (decide (1 <= pri <= 20)) as [Hr|Hr]; [|by rewrite decide_False by tauto].
  rewrite decide_True by (split; [done|eauto]). destruct (find_pid_lt _ _ _ Hf) as [Hlt Hpid].
  assert (Hl : (p < length (k_procs s))%nat) by (by rewrite (to_len _ Hs)).
  set (s' := upd_proc p (set_p_priority pri) s). assert (Hs' : table_ok s') by by apply table_ok_upd.
  assert (Hsame : forall q, p_pid (the_proc q s') = p_pid (the_proc q s)).
  { intros q. unfold s'. destruct (decide (p = q)) as [->|].
    - by rewrite the_proc_upd_eq.
    - by rewrite the_proc_upd_ne. }
  assert (Hfind : forall q, find_pid q s' = find_pid q s).
  { intros q. unfold find_pid. induction procs as [|x l IH]; [done|]. cbn. rewrite Hsame, IH. done. }
  exists s'. split_and!; [done|done| | |].
  - rewrite getpriority_spec, Hfind, Hf by done. unfold s'. by rewrite the_proc_upd_eq.
  - intros q Hq. apply the_proc_upd_ne. by intros ->.
  - intros q Hq. rewrite getpriority_spec, Hfind by done.
    erewrite bind_ok by (by apply getpriority_spec). f_equal.
    destruct (find_pid q s) as [x|] eqn:Hx; [|done]. f_equal. apply the_proc_upd_ne.
    intros ->. apply find_pid_lt in Hx as [_ Hx]. congruence.
Qed.

(** ** The scheduler *)

Definition runnable (s : kstate) (p : nat) : bool := bool_decide (p_state (the_proc p s) = RUNNABLE).

(** [p] is the first of the RUNNABLE processes with the smallest priority value. *)
Definition picks (s : kstate) (p : nat) : Prop :=
  (p < NPROC)%nat /\ runnable s p = true /\
  (forall q, (q < NPROC)%nat -> runnable s q = true ->
     p_priority (the_proc p s) <= p_priority (the_proc q s)) /\
  (forall q, (q < p)%nat -> runnable s q = true ->
     p_priority (the_proc p s) < p_priority (the_proc q s)).

(** *** Looking at the entries in turn, while the other harts go on

    [o i] is what the others do before the [i]-th look; [upto o k n s] is the state after the
    looks at [k], ..., [k + n - 1], and [look o k p s] that of the look at [p]. *)

Definition upto (o : nat -> kstate -> kstate) (k n : nat) (s : kstate) : kstate :=
  fold_left (fun s i => o i s) (seq k n) s.

Definition look (o : nat -> kstate -> kstate) (k p : nat) (s : kstate) : kstate := upto o k (S (p - k)) s.

Lemma look_first o k s : look o k k s = o k s.
Proof. unfold look. by rewrite Nat.sub_diag. Qed.

Lemma look_next o k p s : (k < p)%nat -> look o k p s = look o (S k) p (o k s).
Proof. intros H. unfold look. replace (S (p - k)) with (S (S (p - S k))) by lia. done. Qed.

Lemma look_quiet o k p s : (forall i s, o i s = s) -> look o k p s = s.
Proof.
  intros Ho. unfold look, upto. induction (seq k (S (p - k))) as [|i l IH]; [done|].
  cbn [fold_left]. by rewrite Ho.
Qed.

Lemma upto_quiet o k n s : (forall i s, o i s = s) -> upto o k n s = s.
Proof. intros Ho. unfold upto. induction (seq k n) as [|i l IH]; [done|]. cbn [fold_left]. by rewrite Ho. Qed.

Lemma upto_ok o k n s : (forall i s, table_ok s -> table_ok (o i s)) -> table_ok s -> table_ok (upto o k n s).
Proof. intros Ho. revert k s. induction n as [|n IH]; intros k s Hs; [done|]. apply (IH (S k)). by apply Ho. Qed.

(** A scan that stops at the first entry that passes a test. *)
Lemma scan_spec o (test : kstate -> nat -> bool) (hit : nat -> K unit) (body : nat -> K (ctl unit)) k n s :
  (forall i s, table_ok s -> table_ok (o i s)) ->
  (forall p s, table_ok s -> body p s = if test (o p s) p then (hit p ;; retM (Return tt)) (o p s) else Ok Continue (o p s)) ->
  table_ok s ->
  for_loop (seq k n) body s =
  match List.find (fun p => test (look o k p s) p) (seq k n) with
  | Some p => (hit p ;; retM (Some tt)) (look o k p s)
  | None => Ok None (upto o k n s)
  end.
Proof.
  intros Ho Hb. revert k s. induction n as [|n IH]; intros k s Hs; [done|].
  cbn [seq for_loop List.find]. rewrite look_first. unfold bindM at 1. rewrite Hb by done.
  destruct (test (o k s) k) eqn:Et.
  - rewrite look_first. unfold bindM, retM. by destruct (hit k (o k s)).
  - cbv iota. rewrite IH by by apply Ho.
    replace (List.find (fun p => test (look o k p s) p) (seq (S k) n)) with
      (List.find (fun p => test (look o (S k) p (o k s)) p) (seq (S k) n)).
    + destruct (List.find _ _) as [p|] eqn:Ef; [|done]. apply List.find_some in Ef as [Hp%list_elem_of_In%elem_of_seq _].
      by rewrite (look_next o k p) by lia.
    + assert (Hl : Forall (fun p => (k < p)%nat) (seq (S k) n)) by (apply Forall_forall; intros p Hp%elem_of_seq; lia).
      induction Hl as [|p l Hp _ IHl]; [done|]. cbn [List.find]. by rewrite (look_next o k p s Hp), IHl.
Qed.

(** What pass 1 does with the entry of [p], which it finds in state [f p]. *)
Definition best_step (f : nat -> kstate) (b : Z) (p : nat) : Z :=
  if runnable (f p) p && (p_priority (the_proc p (f p)) <? b) then p_priority (the_proc p (f p)) else b.

Lemma best_step_ext f g b p : f p = g p -> best_step f b p = best_step g b p.
Proof. unfold best_step. by intros ->. Qed.

Lemma best_fold_ext f g l b : Forall (fun p => f p = g p) l -> fold_left (best_step f) l b = fold_left (best_step g) l b.
Proof.
  intros Hl. revert b. induction Hl as [|p l Hp _ IH]; intros b; [done|]. cbn [fold_left].
  by rewrite (best_step_ext f g b p Hp).
Qed.

Lemma best_priority_spec r s :
  (forall i s, table_ok s -> table_ok (env_others r i s)) -> table_ok s ->
  best_priority r s =
  Ok (fold_left (best_step (fun p => look (env_others r) 0 p s)) procs 21) (upto (env_others r) 0 NPROC s).
Proof.
  intros Ho Hs. unfold best_priority. set (o := env_others r) in *. set (body := fun (p : nat) (best : Z) => _ : K (Z * ctl unit)).
  assert (Hb : forall p b s0, table_ok s0 -> body p b s0 = Ok (best_step (fun _ => o p s0) b p, Continue) (o p s0)).
  { intros p b s0 Hs0. unfold body, meanwhile. mrun. fold o. pose proof (Ho p s0 Hs0) as Hs1.
    rewrite (bind_ok _ _ _ _ _ (lock_ok _ p Hs1)). unfold get_proc. mrun.
    rewrite (bind_ok _ _ _ _ _ (unlock_same _ p Hs1)). done. }
  clearbody body.
  assert (Hl : forall n k b s0, table_ok s0 -> for_acc (seq k n) b body s0 =
    Ok (fold_left (best_step (fun p => look o k p s0)) (seq k n) b, None) (upto o k n s0)).
  { induction n as [|n IH]; intros k b s0 Hs0; [done|]. cbn [seq for_acc fold_left]. rewrite (bind_ok _ _ _ _ _ (Hb k b s0 Hs0)).
    rewrite IH by by apply Ho. rewrite (best_step_ext (fun _ => o k s0) (fun p => look o k p s0)) by by rewrite look_first.
    rewrite (best_fold_ext (fun p => look o (S k) p (o k s0)) (fun p => look o k p s0)); [done|].
    apply Forall_forall. intros p Hp%elem_of_seq. by rewrite (look_next o k p) by lia. }
  by rewrite (bind_ok _ _ _ _ _ (Hl NPROC 0%nat 21 s Hs)).
Qed.

Lemma best_fold f l b :
  fold_left (best_step f) l b <= b /\
  (forall p, p ∈ l -> runnable (f p) p = true -> fold_left (best_step f) l b <= p_priority (the_proc p (f p))) /\
  (fold_left (best_step f) l b = b \/
   exists p, p ∈ l /\ runnable (f p) p = true /\ p_priority (the_proc p (f p)) = fold_left (best_step f) l b).
Proof.
  revert b. induction l as [|x l IH]; intros b; cbn [fold_left].
  { split_and!; [lia|by intros p ?%elem_of_nil|by left]. }
  destruct (IH (best_step f b x)) as (H1 & H2 & H3).
  assert (Hb : best_step f b x <= b /\ (runnable (f x) x = true -> best_step f b x <= p_priority (the_proc x (f x))) /\
    (best_step f b x = b \/ runnable (f x) x = true /\ p_priority (the_proc x (f x)) = best_step f b x)).
  { unfold best_step. destruct (runnable (f x) x); cbn [andb]; zcases; split_and!; try lia; auto. }
  destruct Hb as (Hb1 & Hb2 & Hb3). split_and!; [lia| |].
  - intros p [->|Hp]%elem_of_cons Hr; [specialize (Hb2 Hr); lia|auto].
  - destruct H3 as [H3|(p & Hp & Hr & E)]; [|right; exists p; split_and!; [by right|done|done]].
    rewrite H3. destruct Hb3 as [->|[Hr E]]; [by left|right]. exists x. split_and!; [by left|done|done].
Qed.

(** The state in which the scheduler switches to [p]. *)
Definition dispatched (p : nat) (s : kstate) : kstate :=
  set_k_cur (Some p) (upd_proc p (set_p_state RUNNING) (lock_proc p s)).

(** The rest of a round that has chosen [p] in the state [s]. *)
Definition runs_process (p : nat) (s : kstate) : outcome kstate bool :=
  match env_run (k_switches s) (dispatched p s) with
  | None => Blocked (dispatched p s)
  | Some s1 => (release (LProc p) ;; retM true) (set_k_cur None (set_k_switches (S (k_switches s)) s1))
  end.

(** Whether [p] is RUNNABLE with priority [b]. *)
Definition fits (b : Z) (s : kstate) (p : nat) : bool := runnable s p && (p_priority (the_proc p s) =? b).

Lemma run_first_spec r b s :
  (forall i s, table_ok s -> table_ok (env_others r i s)) -> table_ok s ->
  let o p := env_others r (NPROC + p) in
  run_first r b s =
  match List.find (fun p => fits b (look o 0 p s) p) procs with
  | Some p => runs_process p (look o 0 p s)
  | None => Ok false (upto o 0 NPROC s)
  end.
Proof.
  intros Ho Hs o. unfold run_first, procs. set (body := fun p : nat => _ : K (ctl unit)).
  set (hit := fun p => put_proc p (set_p_state RUNNING) ;; modify (set_k_cur (Some p)) ;; swtch env_run ;;
    modify (set_k_cur None) ;; release (LProc p)).
  assert (Ho' : forall i s, table_ok s -> table_ok (o i s)) by (intros; by apply Ho).
  unfold bindM at 1. erewrite (scan_spec o (fits b) (fun p => fun s => hit p (lock_proc p s)) body); [|done| |done].
  - destruct (List.find _ _) as [p|]; [|done]. set (t := look o 0 p s). unfold hit, put_proc, runs_process, swtch, modify, bindM, retM.
    change (set_k_cur (Some p) (upd_proc p (set_p_state RUNNING) (lock_proc p t))) with (dispatched p t).
    change (k_switches (dispatched p t)) with (k_switches t). destruct (env_run _ _) as [s1|]; [|done]. by destruct (release _ _).
  - intros p s0 Hs0. unfold body, meanwhile. mrun. fold (o p). pose proof (Ho' p s0 Hs0) as Hs1.
    rewrite (bind_ok _ _ _ _ _ (lock_ok _ p Hs1)). unfold get_proc. mrun.
    change (the_proc p (lock_proc p (o p s0))) with (the_proc p (o p s0)). fold (runnable (o p s0) p). fold (fits b (o p s0) p).
    destruct (fits b (o p s0) p); [|by rewrite (bind_ok _ _ _ _ _ (unlock_same _ p Hs1))].
    unfold hit, bindM at 6. unfold put_proc, swtch, modify, bindM, retM. destruct (env_run _ _); [|done]. by destruct (release _ _).
Qed.

(** The first of the list that passes. *)
Lemma find_first (g : nat -> bool) n p :
  List.find g (seq 0 n) = Some p -> (p < n)%nat /\ g p = true /\ forall q, (q < p)%nat -> g q = false.
Proof.
  intros Ef. pose proof (find_split _ _ _ Ef) as (pre & post & Ep & Hpre & Hg).
  assert (Hi : seq 0 n !! length pre = Some p) by (rewrite Ep; by apply list_lookup_middle).
  pose proof (lookup_lt_Some _ _ _ Hi) as Hl. rewrite length_seq in Hl. rewrite lookup_seq_lt in Hi by done.
  injection Hi as Hi. split_and!; [lia|done|]. intros q Hq. rewrite Forall_forall in Hpre. apply Hpre.
  apply (list_elem_of_lookup_2 _ q). rewrite <- (lookup_app_l pre (p :: post)) by lia. rewrite <- Ep, lookup_seq_lt by lia. done.
Qed.

(** C34: one round of the scheduler, while the other harts go on.  [look1 p] and [look2 p] are the
    states in which the two passes have the lock of entry [p].  Pass 1 computes the smallest
    priority value [b] of the processes it finds RUNNABLE.  If that is at most 20, pass 2 runs
    the first process that it finds RUNNABLE with priority [b]: it switches to it with its state
    RUNNING, its lock held and c->proc set, and afterwards clears c->proc and releases the lock.
    The round ends in wfi, with nothing changed by this hart, only if pass 1 found no process or
    pass 2 found that the others have taken all of priority [b].  When the other harts leave the
    table alone during the round, it runs the first process of the best priority, and waits only
    if no process is RUNNABLE with a priority of at most 20. *)
Theorem scheduler_picks_best r s :
  table_ok s -> (forall i s, table_ok s -> table_ok (env_others r i s)) ->
  let look1 p := look (env_others r) 0 p s in
  let mid := upto (env_others r) 0 NPROC s in
  let look2 p := look (fun i => env_others r (NPROC + i)) 0 p mid in
  (exists b, (forall q, (q < NPROC)%nat -> runnable (look1 q) q = true -> b <= p_priority (the_proc q (look1 q))) /\
     (b = 21 \/ exists q, (q < NPROC)%nat /\ runnable (look1 q) q = true /\ p_priority (the_proc q (look1 q)) = b) /\
     if b <=? 20 then
       (exists p, (p < NPROC)%nat /\ fits b (look2 p) p = true /\ (forall q, (q < p)%nat -> fits b (look2 q) q = false) /\
          scheduler_round r s = runs_process p (look2 p)) \/
       ((forall q, (q < NPROC)%nat -> fits b (look2 q) q = false) /\
        scheduler_round r s = Ok false (upto (fun i => env_others r (NPROC + i)) 0 NPROC mid))
     else scheduler_round r s = Ok false mid) /\
  ((forall i s, env_others r i s = s) ->
   (exists p, picks s p /\ p_priority (the_proc p s) <= 20 /\ scheduler_round r s = runs_process p s) \/
   ((forall p, (p < NPROC)%nat -> runnable s p = true -> 20 < p_priority (the_proc p s)) /\
    scheduler_round r s = Ok false s)).
Proof.
  intros Hs Ho look1 mid look2.
  assert (Hmid : table_ok mid) by (by apply upto_ok).
  destruct (best_fold look1 procs 21) as (H1 & H2 & H3).
  pose proof (best_priority_spec r s Ho Hs) as E1. fold look1 mid in E1.
  set (b := fold_left (best_step look1) procs 21) in *.
  assert (Er : scheduler_round r s = (if b <=? 20 then run_first r b else retM false) mid)
    by (unfold scheduler_round; by rewrite (bind_ok _ _ _ _ _ E1)).
  pose proof (run_first_spec r b mid Ho Hmid) as E2. cbv zeta in E2. fold look2 in E2. unfold procs in *.
  assert (Hsome : b = 21 \/ exists q, (q < NPROC)%nat /\ runnable (look1 q) q = true /\ p_priority (the_proc q (look1 q)) = b).
  { destruct H3 as [->|(q & Hq%elem_of_seq & Hr & E)]; [by left|right]. exists q. split_and!; [lia|done|done]. }
  assert (Hle : forall q, (q < NPROC)%nat -> runnable (look1 q) q = true -> b <= p_priority (the_proc q (look1 q))).
  { intros q Hq. apply H2, elem_of_seq. lia. }
  assert (Hgen : if b <=? 20 then
       (exists p, (p < NPROC)%nat /\ fits b (look2 p) p = true /\ (forall q, (q < p)%nat -> fits b (look2 q) q = false) /\
          scheduler_round r s = runs_process p (look2 p)) \/
       ((forall q, (q < NPROC)%nat -> fits b (look2 q) q = false) /\
        scheduler_round r s = Ok false (upto (fun i => env_others r (NPROC + i)) 0 NPROC mid))
     else scheduler_round r s = Ok false mid).
  { rewrite Er. destruct (b <=? 20); [|done]. rewrite E2. destruct (List.find _ _) as [p|] eqn:Ef.
    - left. apply find_first in Ef as (Hp & Hf & Hq). by exists p.
    - right. split; [|done]. intros q Hq. apply find_none_Forall in Ef. rewrite Forall_forall in Ef. apply Ef, elem_of_seq. lia. }
  split; [exists b; split; [exact Hle|split; [exact Hsome|exact Hgen]]|]. intros Hquiet.
  assert (Q1 : forall q, look1 q = s) by (intros q; by apply look_quiet).
  assert (Qm : mid = s) by (by apply upto_quiet).
  assert (Q2 : forall q, look2 q = s) by (intros q; unfold look2; rewrite look_quiet by done; exact Qm).
  rewrite upto_quiet in Hgen by done. clearbody b. clear H1 H2 H3 E1 E2 Er. clearbody look2. clearbody mid look1.
  setoid_rewrite Q1 in Hsome. setoid_rewrite Q1 in Hle. rewrite Qm in Hgen.
  destruct (Z.leb_spec b 20) as [Hb|Hb].
  - destruct Hgen as [(p & Hp & Hf & Hq & E)|[Hnone E]].
    + setoid_rewrite Q2 in Hq. rewrite Q2 in Hf, E. left. exists p. unfold fits in *. apply andb_true_iff in Hf as [Hr Hpb%Z.eqb_eq]. split; [|split; [lia|done]].
      split_and!; [done|done| |].
      * intros q Hq' Hr'. rewrite Hpb. by apply Hle.
      * intros q Hq' Hr'. specialize (Hq q Hq'). rewrite Hr' in Hq. cbn [andb] in Hq. apply Z.eqb_neq in Hq.
        pose proof (Hle q ltac:(lia) Hr'). lia.
    + destruct Hsome as [?|(q & Hq & Hr & E')]; [lia|]. specialize (Hnone q Hq). unfold fits in Hnone.
      rewrite Q2 in Hnone. rewrite Hr, E', Z.eqb_refl in Hnone. done.
  - right. split; [|done]. intros p Hp Hr. pose proof (Hle p Hp Hr). lia.
Qed.

(** ** wakeup() and the clock *)

Definition wake_proc (ch : option chan) (c : option nat) (p : nat) (q : proc) : proc :=
  if decide (c <> Some p /\ p_state q = SLEEPING /\ p_chan q = ch) then set_p_state RUNNABLE q else q.

Lemma upd_proc_id p f s : f (the_proc p s) = the_proc p s -> upd_proc p f s = s.
Proof.
  intros H. unfold upd_proc. replace (alter f p (k_procs s)) with (k_procs s); [by destruct s|].
  apply list_eq. intros i. destruct (decide (p = i)) as [->|]; [|by rewrite list_lookup_alter_ne].
  rewrite list_lookup_alter_eq. unfold the_proc in H. destruct (k_procs s !! i) as [q|]; [|done].
  cbn in *. by rewrite H.
Qed.

Lemma wakeup_spec ch s :
  table_ok s ->
  wakeup ch s = Ok tt (set_k_procs (imap (wake_proc ch (k_cur s)) (k_procs s)) s).
Proof.
  intros Hs. unfold wakeup.
  erewrite bind_ok; [|apply (for_each_proc (wake_proc ch (k_cur s)) _ s Hs)]; [done|].
  intros p s0 Hs0 Hcur. mrun. rewrite Hcur. case_decide as Hc.
  { rewrite upd_proc_id; [done|]. unfold wake_proc. by rewrite decide_False by tauto. }
  rewrite (bind_ok _ _ _ _ _ (lock_ok s0 p Hs0)). unfold get_proc, put_proc. mrun.
  change (the_proc p (lock_proc p s0)) with (the_proc p s0).
  destruct (decide (p_state (the_proc p s0) = SLEEPING /\ p_chan (the_proc p s0) = ch)) as [[H1 H2]|Hn].
  - rewrite !bool_decide_eq_true_2 by done. cbn [andb]. mrun.
    rewrite (bind_ok _ _ _ _ _ (unlock_upd s0 p _ Hs0)). unfold retM. f_equal. apply upd_proc_ext.
    intros q ->. unfold wake_proc. by rewrite decide_True.
  - replace (bool_decide _ && bool_decide _) with false by (repeat case_bool_decide; try done; tauto).
    mrun. rewrite (bind_ok _ _ _ _ _ (unlock_same s0 p Hs0)). unfold retM. f_equal.
    symmetry. apply upd_proc_id. unfold wake_proc. by rewrite decide_False by tauto.
Qed.

(** One tick of the accounting of a process. *)
Definition tick_proc (q : proc) : proc :=
  match p_state q with
  | RUNNING => set_p_rtime (u32 (p_rtime q + 1)) q
  | RUNNABLE => set_p_stime (u32 (p_stime q + 1)) q
  | _ => q
  end.

Lemma update_time_stats_spec s :
  table_ok s -> update_time_stats s = Ok tt (set_k_procs (imap (fun _ => tick_proc) (k_procs s)) s).
Proof.
  intros Hs. unfold update_time_stats.
  erewrite bind_ok; [|apply (for_each_proc (fun _ => tick_proc) _ s Hs)]; [done|].
  intros p s0 Hs0 _. rewrite (bind_ok _ _ _ _ _ (lock_ok s0 p Hs0)). unfold get_proc, put_proc. mrun.
  change (the_proc p (lock_proc p s0)) with (the_proc p s0).
  assert (Hsame : tick_proc (the_proc p s0) = the_proc p s0 ->
    bindM (release (LProc p)) (fun _ => retM (@Continue unit)) (lock_proc p s0) =
    Ok Continue (upd_proc p tick_proc s0)).
  { intros E. rewrite (bind_ok _ _ _ _ _ (unlock_same s0 p Hs0)). by rewrite upd_proc_id. }
  assert (Hupd : forall f, f (the_proc p s0) = tick_proc (the_proc p s0) ->
    bindM (release (LProc p)) (fun _ => retM (@Continue unit)) (upd_proc p f (lock_proc p s0)) =
    Ok Continue (upd_proc p tick_proc s0)).
  { intros f E. rewrite (bind_ok _ _ _ _ _ (unlock_upd s0 p f Hs0)). unfold retM. f_equal.
    apply upd_proc_ext. by intros q ->. }
  unfold tick_proc in Hsame, Hupd |- *. destruct (p_state (the_proc p s0)) eqn:Est; mrun.
  1-3,6: by apply Hsame. all: by apply Hupd.
Qed.

Lemma imap_twice {A} (f g : nat -> A -> A) l : imap g (imap f l) = imap (fun i x => g i (f i x)) l.
Proof. apply list_eq. intros i. rewrite !list_lookup_imap. by destruct (l !! i). Qed.

(** a clock interrupt.  On hart 0 it advances [ticks] by one (modulo 2^32), makes every
    process that sleeps on [ticks] RUNNABLE, and then charges the tick: one more rtime for
    each RUNNING process, one more stime for each RUNNABLE one, including those it just woke.
    Other harts change nothing. *)
Theorem clockintr_accounts s :
  table_ok s -> LTicks ∉ k_held s ->
  clockintr s = Ok tt (if decide (k_cpuid s = 0) then
    set_k_ticks (u32 (k_ticks s + 1))
      (set_k_procs (imap (fun p q => tick_proc (wake_proc (Some ChTicks) (k_cur s) p q)) (k_procs s)) s)
    else s).
Proof.
  intros Hs Hlk. unfold clockintr. mrun. case_decide as Hc; [|by destruct (Z.eqb_spec (k_cpuid s) 0)].
  rewrite Hc. cbn [Z.eqb whenM]. rewrite (bind_ok _ _ _ _ _ (acquire_ok LTicks s Hlk)). mrun.
  ksimpl. set (s1 := set_k_ticks _ _).
  assert (H1 : table_ok s1).
  { split; [apply Hs|]. intros p. change (k_held s1) with ({[LTicks]} ∪ k_held s).
    pose proof (to_free _ Hs p). set_solver. }
  rewrite (bind_ok _ _ _ _ _ (wakeup_spec (Some ChTicks) s1 H1)).
  erewrite bind_ok by (apply release_ok; change (k_held (set_k_procs ?x s1)) with ({[LTicks]} ∪ k_held s); set_solver).
  change (k_held (set_k_procs ?x s1)) with ({[LTicks]} ∪ k_held s). rewrite held_add_remove by done.
  set (s2 := set_k_held _ _). rewrite update_time_stats_spec.
  - f_equal. change (k_procs s2) with (imap (wake_proc (Some ChTicks) (k_cur s)) (k_procs s)).
    rewrite imap_twice. by destruct s.
  - split; [|apply Hs]. change (k_procs s2) with (imap (wake_proc (Some ChTicks) (k_cur s)) (k_procs s)).
    rewrite length_imap. apply Hs.
Qed.

(** ** sleep() *)

(** The state in which sleep() switches away. *)
Definition asleep (ch : chan) (p : nat) (s : kstate) : kstate :=
  set_k_held {[LProc p]} (upd_proc p (fun q => set_p_state SLEEPING (set_p_chan (Some ch) q)) s).

Lemma swtch_ok away s s' :
  away (k_switches s) s = Some s' -> swtch away s = Ok tt (set_k_switches (S (k_switches s)) s').
Proof. unfold swtch. by intros ->. Qed.

Lemma sleep_switches ch lk p s extra :
  k_cur s = Some p -> (p < length (k_procs s))%nat -> lk <> LProc p -> LProc p ∉ extra -> lk ∉ extra ->
  k_held s = {[lk]} ∪ extra ->
  sleep ch lk s =
    if decide (extra = ∅) then
      bindM (swtch env_resched) (fun _ =>
        put_proc p (set_p_chan None) ;; release (LProc p) ;; acquire lk) (asleep ch p s)
    else Panic "sched locks".
Proof.
  intros Hcur Hp Hne Hpe Hle Hh. unfold sleep, myproc. mrun. rewrite Hcur. mrun.
  erewrite bind_ok by (apply acquire_ok; rewrite Hh; set_solver).
  erewrite bind_ok by (apply release_ok; ksimpl; rewrite Hh; set_solver). ksimpl.
  unfold put_proc. mrun. rewrite upd_proc_twice.
  replace (({[LProc p]} ∪ k_held s) ∖ {[lk]}) with ({[LProc p]} ∪ extra)
    by (rewrite Hh; apply leibniz_equiv; set_solver).
  set (s1 := upd_proc p _ _). unfold sched, myproc. mrun.
  replace (k_cur s1) with (Some p) by done. mrun. unfold holding. mrun.
  change (k_held s1) with ({[LProc p]} ∪ extra).
  rewrite bool_decide_eq_true_2 by set_solver. cbn [negb]. mrun.
  change (k_held s1) with ({[LProc p]} ∪ extra).
  rewrite size_union by set_solver. rewrite size_singleton.
  case_decide as He.
  - rewrite He, size_empty. cbn [Nat.add Nat.eqb negb]. unfold get_proc. mrun.
    assert (Est : p_state (the_proc p s1) = SLEEPING) by (unfold s1; by rewrite the_proc_upd_eq).
    rewrite decide_False by (by rewrite Est).
    replace s1 with (asleep ch p s); [done|].
    unfold s1, asleep. rewrite He, union_empty_r_L. by destruct s.
  - destruct (size extra) eqn:Es; [|done]. apply size_empty_inv in Es. by apply leibniz_equiv in Es.
Qed.

(** sleep(chan, lk) called with only [lk] held.  It switches away SLEEPING on [chan],
    with [lk] released and its own lock, and no other, held, so that a wakeup() cannot come
    between; when it is resumed, holding its own lock again, it returns with [lk] and nothing
    else held and its channel cleared.  Called with a further lock held, it panics. *)
Theorem sleep_protocol ch lk p s extra :
  k_cur s = Some p -> (p < length (k_procs s))%nat -> lk <> LProc p -> LProc p ∉ extra -> lk ∉ extra ->
  k_held s = {[lk]} ∪ extra ->
  if decide (extra = ∅) then
    match env_resched (k_switches s) (asleep ch p s) with
    | None => sleep ch lk s = Blocked (asleep ch p s)
    | Some s1 =>
        k_held s1 = {[LProc p]} -> (p < length (k_procs s1))%nat ->
        sleep ch lk s = Ok tt (set_k_switches (S (k_switches s)) (set_k_held {[lk]}
          (upd_proc p (set_p_chan None) s1)))
    end
  else sleep ch lk s = Panic "sched locks".
Proof.
  intros Hcur Hp Hne Hpe Hle Hh. rewrite (sleep_switches ch lk p s extra) by done.
  case_decide as He; [|done].
  destruct (env_resched (k_switches s) (asleep ch p s)) as [s1|] eqn:E;
    [|unfold bindM, swtch; change (k_switches (asleep ch p s)) with (k_switches s); by rewrite E].
  intros Hh1 Hl1. rewrite (bind_ok _ _ _ _ _ (swtch_ok _ _ _ E)). unfold put_proc. mrun.
  set (s2 := upd_proc p _ _). assert (Hh2 : k_held s2 = {[LProc p]}) by exact Hh1.
  erewrite bind_ok by (apply release_ok; rewrite Hh2; set_solver).
  rewrite Hh2, acquire_ok by (ksimpl; set_solver). ksimpl. f_equal.
  replace ({[lk]} ∪ {[LProc p]} ∖ {[LProc p]}) with ({[lk]} : gset lockid)
    by (apply leibniz_equiv; set_solver).
  by destruct s1.
Qed.

End code.
(** ** A table of three processes: pid 1 running, pid 2 asleep until the next tick, pid 3
    waiting for a CPU. *)
Definition demo_proc (pid pri : Z) (st : procstate) (ch : option chan) : proc :=
  set_p_chan ch (set_p_state st (set_p_priority pri (set_p_pid pid proc0))).

Definition demo : kstate :=
  set_k_cur (Some 0%nat)
    (set_k_procs (demo_proc 1 10 RUNNING None :: demo_proc 2 10 SLEEPING (Some ChTicks) ::
       demo_proc 3 5 RUNNABLE None :: replicate (NPROC - 3) proc0) (kstate0 (fun _ => 0))).

Lemma demo_ok : table_ok demo.
Proof. split; [reflexivity|]. intros p. apply not_elem_of_empty. Qed.

(** A system in which every switch comes back at once. *)
Definition eager : Env := {| env_resched := fun _ s => Some s; env_run := fun _ s => Some s; env_others := fun _ _ s => s; env_patience := 1; env_junk := [] |}.

(** The same, where another hart starts pid 3 between the two passes of round 0. *)
Definition crowded : Env :=
  {| env_resched := fun _ s => Some s; env_run := fun _ s => Some s;
     env_others := fun r i s => if bool_decide (r = 0%nat /\ i = NPROC) then upd_proc 2 (set_p_state RUNNING) s else s;
     env_patience := 1; env_junk := [] |}.

Lemma crowded_ok r i s : table_ok s -> table_ok (env_others (Env := crowded) r i s).
Proof. intros H. cbn. case_bool_decide; [by apply table_ok_upd|done]. Qed.

Lemma scheduler_picks_best_witness :
  (exists p s', picks demo p /\ p_priority (the_proc p demo) = 5 /\ scheduler_round (env := crowded) 1 demo = Ok true s') /\
  exists s', scheduler_round (env := crowded) 0 demo = Ok false s' /\ p_state (the_proc 2 s') = RUNNING.
Proof.
  split.
  - destruct (scheduler_picks_best (env := crowded) 1 demo demo_ok (crowded_ok 1)) as [_ Hq].
    destruct Hq as [(p & Hp & _ & E)|[H _]].
    { intros i s. cbn. by rewrite bool_decide_false by (by intros [? _]). }
    + assert (p = 2%nat) as ->.
      { destruct Hp as (_ & Hr & _). clear E. destruct p as [|[|[|p]]]; [discriminate Hr|discriminate Hr|reflexivity|].
        exfalso. change (bool_decide (p_state (default proc0 (replicate (NPROC - 3) proc0 !! p)) = RUNNABLE) = true) in Hr.
        destruct (replicate (NPROC - 3) proc0 !! p) eqn:El; [apply lookup_replicate in El as [-> _]|]; discriminate Hr. }
      exists 2%nat. eexists. split; [exact Hp|]. split; [reflexivity|]. rewrite E. reflexivity.
    + specialize (H 2%nat ltac:(unfold NPROC; lia) eq_refl). by vm_compute in H.
  - eexists. split; [vm_compute; reflexivity|reflexivity].
Defined.

End SchedProofs.
