(* ===== verification/Proc.v ===== *)
(** * kernel/proc.c: creating, freeing and waiting for processes; system call arguments

    The operations of proc.c that own a process's memory, getprocinfo(), and the argument
    fetching of syscall.c.  The trapframe of a process is a page of physical memory: its
    field at byte offset [o] is the word at [p_trapframe + o]. *)

From S2P Require Import Prelude Machine State Locks CString Kalloc VM Sched.

Module Proc.
Import CString Kalloc VM Sched.

(** struct trapframe: offsets of the fields the C code uses. *)
Definition TF_kernel_satp : Z := 0.
Definition TF_kernel_sp : Z := 8.
Definition TF_kernel_trap : Z := 16.
Definition TF_epc : Z := 24.
Definition TF_kernel_hartid : Z := 32.
Definition TF_sp : Z := 48.
Definition TF_a0 : Z := 112.
Definition TF_a1 : Z := 120.
Definition TF_a7 : Z := 168.
Definition TF_size : Z := 288.

(** The bytes of a C int and of a uint64. *)
Definition int_bytes (v : Z) : list Z := le_split 4 v.
Definition u64_bytes (v : Z) : list Z := le_split 8 v.

Section code.
Context {img : Image} {env : Env}.

Definition proc_mapstacks (kpgtbl : Z) : K unit :=
  for_loop procs (fun p =>
    pa <- kalloc ;;
    if pa =? 0 then panic "kalloc" else
    kvmmap kpgtbl (KSTACK (Z.of_nat p)) pa PGSIZE (Z.lor PTE_R PTE_W) ;;
    retM (@Continue unit)) ;;
  retM tt.

Definition kvmmake : K Z :=
  kpgtbl <- kalloc ;;
  put_mem (fun m => memset m kpgtbl 0 PGSIZE) ;;
  kvmmap kpgtbl UART0 UART0 PGSIZE (Z.lor PTE_R PTE_W) ;;
  kvmmap kpgtbl VIRTIO0 VIRTIO0 PGSIZE (Z.lor PTE_R PTE_W) ;;
  kvmmap kpgtbl PLIC PLIC 0x4000000 (Z.lor PTE_R PTE_W) ;;
  kvmmap kpgtbl KERNBASE KERNBASE (u64 (image_etext - KERNBASE)) (Z.lor PTE_R PTE_X) ;;
  kvmmap kpgtbl image_etext image_etext (u64 (PHYSTOP - image_etext)) (Z.lor PTE_R PTE_W) ;;
  kvmmap kpgtbl TRAMPOLINE image_trampoline PGSIZE (Z.lor PTE_R PTE_X) ;;
  proc_mapstacks kpgtbl ;;
  retM kpgtbl.

Definition procinit : K unit :=
  for_loop procs (fun p =>
    put_proc p (set_p_state UNUSED) ;;
    put_proc p (set_p_kstack (KSTACK (Z.of_nat p))) ;;
    retM (@Continue unit)) ;;
  retM tt.

Definition proc_pagetable (p : nat) : K Z :=
  pagetable <- uvmcreate ;;
  if pagetable =? 0 then retM 0 else
  e <- mappages pagetable TRAMPOLINE PGSIZE image_trampoline (Z.lor PTE_R PTE_X) ;;
  if e <? 0 then uvmfree pagetable 0 ;; retM 0 else
  tf <- get_proc p p_trapframe ;;
  e <- mappages pagetable TRAPFRAME PGSIZE tf (Z.lor PTE_R PTE_W) ;;
  if e <? 0 then
    uvmunmap pagetable TRAMPOLINE 1 false ;;
    uvmfree pagetable 0 ;;
    retM 0
  else retM pagetable.

Definition proc_freepagetable (pagetable sz : Z) : K unit :=
  uvmunmap pagetable TRAMPOLINE 1 false ;;
  uvmunmap pagetable TRAPFRAME 1 false ;;
  uvmfree pagetable sz.

Definition freeproc (p : nat) : K unit :=
  tf <- get_proc p p_trapframe ;;
  whenM (negb (tf =? 0)) (kfree tf) ;;
  put_proc p (set_p_trapframe 0) ;;
  pt <- get_proc p p_pagetable ;;
  sz <- get_proc p p_sz ;;
  whenM (negb (pt =? 0)) (proc_freepagetable pt sz) ;;
  put_proc p (set_p_pagetable 0) ;;
  put_proc p (set_p_sz 0) ;;
  put_proc p (set_p_pid 0) ;;
  put_proc p (set_p_parent None) ;;
  put_proc p (fun q => set_p_name (<[0%nat := 0]> (p_name q)) q) ;;
  put_proc p (set_p_chan None) ;;
  put_proc p (set_p_killed 0) ;;
  put_proc p (set_p_xstate 0) ;;
  put_proc p (set_p_state UNUSED).

(** allocproc() from its label [found], with the lock of [p] held; None is the null result. *)
Definition allocproc_found (p : nat) : K (option nat) :=
  pid <- allocpid ;;
  put_proc p (set_p_pid pid) ;;
  put_proc p (set_p_state USED) ;;
  put_proc p (set_p_priority 10) ;;
  t <- gets k_ticks ;;
  put_proc p (set_p_ctime t) ;;
  put_proc p (set_p_rtime 0) ;;
  put_proc p (set_p_stime 0) ;;
  tf <- kalloc ;;
  put_proc p (set_p_trapframe tf) ;;
  if tf =? 0 then
    freeproc p ;;
    release (LProc p) ;;
    retM None
  else
  pt <- proc_pagetable p ;;
  put_proc p (set_p_pagetable pt) ;;
  if pt =? 0 then
    freeproc p ;;
    release (LProc p) ;;
    retM None
  else
  put_proc p (set_p_context (Context_ 0 0 (replicate 12 0))) ;;
  put_proc p (fun q => set_p_context (set_ctx_ra image_forkret (p_context q)) q) ;;
  put_proc p (fun q => set_p_context (set_ctx_sp (u64 (p_kstack q + PGSIZE)) (p_context q)) q) ;;
  retM (Some p).

Definition allocproc : K (option nat) :=
  r <- for_loop procs (fun p =>
    acquire (LProc p) ;;
    st <- get_proc p p_state ;;
    if decide (st = UNUSED) then retM (Return p) else
    release (LProc p) ;;
    retM Continue) ;;
  match r with
  | Some p => allocproc_found p
  | None => retM None
  end.

(** [n] is a C int; [sz + n] is computed at uint64. *)
Definition growproc (n : Z) : K Z :=
  p <- myproc ;;
  sz <- get_proc p p_sz ;;
  pt <- get_proc p p_pagetable ;;
  if n >? 0 then
    if u64 (sz + n) >? TRAPFRAME then retM (-1) else
    sz' <- uvmalloc pt sz (u64 (sz + n)) PTE_W ;;
    if sz' =? 0 then retM (-1) else
    put_proc p (set_p_sz sz') ;;
    retM 0
  else if n <? 0 then
    sz' <- uvmdealloc pt sz (u64 (sz + n)) ;;
    put_proc p (set_p_sz sz') ;;
    retM 0
  else
    put_proc p (set_p_sz sz) ;;
    retM 0.

(** pp->parent == p; [initproc] is null before userinit(). *)
Definition reparent (p : nat) : K unit :=
  for_loop procs (fun pp =>
    par <- get_proc pp p_parent ;;
    if decide (par = Some p) then
      init <- gets k_initproc ;;
      put_proc pp (set_p_parent init) ;;
      wakeup (ChProc <$> init) ;;
      retM (@Continue unit)
    else retM Continue) ;;
  retM tt.

(** One entry of the scan of kwait() and kwait_stat(): [reap pp] copies the results out for
    a ZOMBIE child, whose lock is held; a negative status gives up.  The local variable is
    havekids. *)
Definition wait_scan (reap : nat -> K Z) (p pp : nat) (havekids : bool) : K (bool * ctl Z) :=
  par <- get_proc pp p_parent ;;
  if decide (par = Some p) then
    acquire (LProc pp) ;;
    st <- get_proc pp p_state ;;
    if decide (st = ZOMBIE) then
      pid <- get_proc pp p_pid ;;
      e <- reap pp ;;
      if e <? 0 then
        release (LProc pp) ;;
        release LWait ;;
        retM (true, Return (-1))
      else
        freeproc pp ;;
        release (LProc pp) ;;
        release LWait ;;
        retM (true, Return pid)
    else
      release (LProc pp) ;;
      retM (true, Continue)
  else retM (havekids, Continue).

(** The for(;;) of kwait(), for at most [n] sleeps. *)
Fixpoint wait_loop (n : nat) (reap : nat -> K Z) (p : nat) : K Z :=
  '(havekids, r) <- for_acc procs false (wait_scan reap p) ;;
  match r with
  | Some v => retM v
  | None =>
      k <- (if havekids : bool then killed p else retM 1) ;;
      if negb (k =? 0) then
        release LWait ;;
        retM (-1)
      else
        match n with
        | O => block
        | S n' => sleep (ChProc p) LWait ;; wait_loop n' reap p
        end
  end.

(** A copyout() of [v pp] that is skipped when the user pointer is null. *)
Definition out_int (addr : Z) (v : proc -> Z) (pp : nat) : K Z :=
  if addr =? 0 then retM 0 else
  p <- myproc ;;
  pt <- get_proc p p_pagetable ;;
  x <- get_proc pp v ;;
  copyout pt addr (int_bytes x).

Definition kwait (n : nat) (addr : Z) : K Z :=
  p <- myproc ;;
  acquire LWait ;;
  wait_loop n (out_int addr p_xstate) p.

Definition kwait_stat (n : nat) (wtime_addr rtime_addr status_addr : Z) : K Z :=
  p <- myproc ;;
  acquire LWait ;;
  wait_loop n (fun pp =>
    e <- out_int wtime_addr p_stime pp ;;
    if e <? 0 then retM e else
    e <- out_int rtime_addr p_rtime pp ;;
    if e <? 0 then retM e else
    out_int status_addr p_xstate pp) p.

(** struct procinfo as bytes: int pid, ppid, state, four bytes of padding, uint64 sz, char
    name[16].  [junk] is what the kernel stack held where [info] lives: the code does not
    initialise it, and safestrcpy() stops after the nul. *)
Definition procinfo_bytes (info : procinfo) (pad : list Z) : list Z :=
  int_bytes (pi_pid info) ++ int_bytes (pi_ppid info) ++ int_bytes (pi_state info) ++ pad ++
  u64_bytes (pi_sz info) ++ pi_name info.

Definition getprocinfo (junk : list Z) (pid addr : Z) : K Z :=
  r <- for_loop procs (pid_scan pid (fun p =>
    q <- get_proc p id ;;
    ppid <- match p_parent q with Some pp => get_proc pp p_pid | None => retM 0 end ;;
    let info := Procinfo (p_pid q) ppid (procstate_code (p_state q)) (p_sz q)
                  (safestrcpy_bytes (take 16 (drop 24 junk)) (p_name q) 15) in
    release (LProc p) ;;
    me <- myproc ;;
    pt <- get_proc me p_pagetable ;;
    e <- copyout pt addr (procinfo_bytes info (take 4 (drop 12 junk))) ;;
    retM (Return (if e <? 0 then -1 else 0)))) ;;
  retM (default (-1) r).

Definition either_copyout (user_dst : bool) (dst : Z) (src : list Z) : K Z :=
  p <- myproc ;;
  if user_dst then
    pt <- get_proc p p_pagetable ;;
    copyout pt dst src
  else
    put_mem (fun m => store_bytes m dst src) ;;
    retM 0.

Definition either_copyin (user_src : bool) (src len : Z) : K (Z * list Z) :=
  p <- myproc ;;
  if user_src then
    pt <- get_proc p p_pagetable ;;
    copyin pt src len
  else
    bs <- get_mem (fun m => load_bytes m src (Z.to_nat len)) ;;
    retM (0, bs).

(** ** syscall.c: fetching arguments *)

Definition fetchaddr (addr : Z) : K (Z * Z) :=
  p <- myproc ;;
  sz <- get_proc p p_sz ;;
  if (addr >=? sz) || (u64 (addr + 8) >? sz) then retM (-1, 0) else
  pt <- get_proc p p_pagetable ;;
  '(r, bs) <- copyin pt addr 8 ;;
  if negb (r =? 0) then retM (-1, 0) else retM (0, le_combine bs).

(** strlen() of the buffer: the bytes before the first nul. *)
Fixpoint strlen_bytes (bs : list Z) : Z :=
  match bs with
  | [] => 0
  | b :: bs' => if b =? 0 then 0 else 1 + strlen_bytes bs'
  end.

Definition fetchstr (addr max : Z) : K (Z * list Z) :=
  p <- myproc ;;
  pt <- get_proc p p_pagetable ;;
  '(r, bs) <- copyinstr pt addr max ;;
  if r <? 0 then retM (-1, bs) else retM (strlen_bytes bs, bs).

Definition argraw (n : Z) : K Z :=
  p <- myproc ;;
  tf <- get_proc p p_trapframe ;;
  if (0 <=? n) && (n <=? 5) then get_mem (fun m => load64 m (tf + TF_a0 + 8 * n))
  else panic "argraw".

Definition argint (n : Z) : K Z := v <- argraw n ;; retM (s32 v).
Definition argaddr (n : Z) : K Z := argraw n.
Definition argstr (n max : Z) : K (Z * list Z) := addr <- argaddr n ;; fetchstr addr max.

End code.
End Proc.
