(* ===== verification/Shm.v ===== *)
(** * kernel/shm.c: shared memory regions

    The table of regions, the attachments of each process, and the two system calls.  Loops
    over the two tables are scans for a key; [slot] and [pslot] are indices. *)

From S2P Require Import Prelude Machine State Locks CString Kalloc VM Sched.

Module Shm.
Import CString Kalloc VM Sched.

Definition region0 : shmregion := Shmregion 0 0 (replicate 4 0) 0.
Definition attach0 : shmattach := Shmattach 0 0 0.

Definition the_region (i : nat) (s : kstate) : shmregion := default region0 (k_shm_table s !! i).
Definition upd_region (i : nat) (f : shmregion -> shmregion) : K unit :=
  modify (fun s => set_k_shm_table (alter f i (k_shm_table s)) s).

Definition the_attach (p i : nat) (s : kstate) : shmattach := default attach0 (p_shm (the_proc p s) !! i).
Definition upd_attach (p i : nat) (f : shmattach -> shmattach) : K unit :=
  put_proc p (fun q => set_p_shm (alter f i (p_shm q)) q).

Section code.
Context {img : Image}.

Definition shminit : K unit :=
  for_loop (seq 0 SHM_SLOTS) (fun i =>
    upd_region i (set_sr_key 0) ;;
    retM (@Continue unit)) ;;
  retM tt.

(** for(i = 0; i < SHM_SLOTS; i++) if(shm_table[i].key == key) break; *)
Definition find_region (key : Z) : K (option nat) :=
  for_loop (seq 0 SHM_SLOTS) (fun i =>
    r <- gets (the_region i) ;;
    retM (if sr_key r =? key then Return i else Continue)).

(** The same over p->shm. *)
Definition find_attach (p : nat) (key : Z) : K (option nat) :=
  for_loop (seq 0 PROC_SHM_SLOTS) (fun i =>
    a <- gets (the_attach p i) ;;
    retM (if sa_key a =? key then Return i else Continue)).

(** Allocating the pages of a new region in [slot]; Some (-1) is the failure, after the pages
    allocated so far have been freed and the slot cleared. *)
Definition alloc_pages (slot : nat) (npages : Z) : K (option Z) :=
  for_loop (seq 0 (Z.to_nat npages)) (fun j =>
    pa <- kalloc ;;
    if pa =? 0 then
      for_loop (seq 0 j) (fun k =>
        r <- gets (the_region slot) ;;
        kfree (default 0 (sr_pages r !! k)) ;;
        retM (@Continue unit)) ;;
      upd_region slot (set_sr_key 0) ;;
      release LShm ;;
      retM (Return (-1))
    else
      put_mem (fun m => memset m pa 0 PGSIZE) ;;
      upd_region slot (fun r => set_sr_pages (<[j := pa]> (sr_pages r)) r) ;;
      retM Continue).

(** Mapping the pages of region [slot] at [uva]; Some (-1) is the failure, after unmapping. *)
Definition map_pages (pagetable uva : Z) (slot : nat) : K (option Z) :=
  n <- gets (fun s => sr_npages (the_region slot s)) ;;
  for_loop (seq 0 (Z.to_nat n)) (fun i =>
    pa <- gets (fun s => default 0 (sr_pages (the_region slot s) !! i)) ;;
    e <- mappages pagetable (u64 (uva + Z.of_nat i * PGSIZE)) PGSIZE pa
           (Z.lor (Z.lor PTE_R PTE_W) PTE_U) ;;
    if e <? 0 then
      uvmunmap pagetable uva (Z.of_nat i) false ;;
      release LShm ;;
      retM (Return (-1))
    else retM Continue).

(** The part of shm_open() after the region's slot is known. *)
Definition attach_region (p : nat) (key : Z) (slot : nat) : K Z :=
  already <- find_attach p key ;;
  match already with
  | Some i =>
      release LShm ;;
      gets (fun s => sa_uva (the_attach p i s))
  | None =>
      free <- find_attach p 0 ;;
      match free with
      | None => release LShm ;; retM (-1)
      | Some pslot =>
          sz <- get_proc p p_sz ;;
          let uva := PGROUNDUP sz in
          n <- gets (fun s => sr_npages (the_region slot s)) ;;
          let map_size := u64 (n * PGSIZE) in
          if u64 (uva + map_size) >? TRAPFRAME then release LShm ;; retM (-1) else
          pt <- get_proc p p_pagetable ;;
          e <- map_pages pt uva slot ;;
          match e with
          | Some r => retM r
          | None =>
              put_proc p (set_p_sz (u64 (uva + map_size))) ;;
              upd_attach p pslot (set_sa_key key) ;;
              upd_attach p pslot (set_sa_uva uva) ;;
              upd_attach p pslot (set_sa_npages n) ;;
              upd_region slot (fun r => set_sr_refcount (s32 (sr_refcount r + 1)) r) ;;
              release LShm ;;
              retM uva
          end
      end
  end.

(** [key] and [size] are C ints; [size + PGSIZE - 1] is computed at int, with the wrap-around
    of the hardware. *)
Definition shm_open (key size : Z) : K Z :=
  p <- myproc ;;
  if (key <=? 0) || (size <=? 0) then retM (-1) else
  let npages := Z.quot (s32 (s32 (size + PGSIZE) - 1)) PGSIZE in
  let npages := if npages >? SHM_MAXPGS then SHM_MAXPGS else npages in
  acquire LShm ;;
  slot <- find_region key ;;
  match slot with
  | Some i => attach_region p key i
  | None =>
      new <- find_region 0 ;;
      match new with
      | None => release LShm ;; retM (-1)
      | Some i =>
          upd_region i (set_sr_key key) ;;
          upd_region i (set_sr_npages npages) ;;
          upd_region i (set_sr_refcount 0) ;;
          e <- alloc_pages i npages ;;
          match e with
          | Some r => retM r
          | None => attach_region p key i
          end
      end
  end.

Definition shm_close (key : Z) : K Z :=
  p <- myproc ;;
  if key <=? 0 then retM (-1) else
  acquire LShm ;;
  pslot <- find_attach p key ;;
  match pslot with
  | None => release LShm ;; retM (-1)
  | Some ps =>
      slot <- find_region key ;;
      match slot with
      | None => release LShm ;; retM (-1)
      | Some i =>
          pt <- get_proc p p_pagetable ;;
          a <- gets (the_attach p ps) ;;
          uvmunmap pt (sa_uva a) (u64 (sa_npages a)) false ;;
          upd_attach p ps (set_sa_key 0) ;;
          upd_attach p ps (set_sa_uva 0) ;;
          upd_attach p ps (set_sa_npages 0) ;;
          upd_region i (fun r => set_sr_refcount (s32 (sr_refcount r - 1)) r) ;;
          r <- gets (the_region i) ;;
          whenM (sr_refcount r <=? 0)
            (for_loop (seq 0 (Z.to_nat (sr_npages r))) (fun j =>
               kfree (default 0 (sr_pages r !! j)) ;;
               retM (@Continue unit)) ;;
             upd_region i (set_sr_key 0) ;;
             upd_region i (set_sr_npages 0) ;;
             upd_region i (set_sr_refcount 0)) ;;
          release LShm ;;
          retM 0
      end
  end.

End code.
End Shm.
