(* ===== verification/ShmProofs.v ===== *)
(** * Shared memory: what shm_open() and shm_close() do

    A region's pages are mapped into every process that attaches it, at an address the process
    chooses by its size; they are freed by the detach that makes the reference count zero.
    The last section follows a region whose process exits without detaching it. *)

From S2P Require Import Prelude Machine State Locks CString Kalloc VM.
From S2P Require Import PageTable UserVM CopyIO Sched SchedProofs Shm.

Module ShmProofs.
Import CString Kalloc VM PageTable UserVM CopyIO Sched SchedProofs Shm.

(** ** Scans *)

Definition region_index (key : Z) (s : kstate) : option nat :=
  List.find (fun i => sr_key (the_region i s) =? key) (seq 0 SHM_SLOTS).

Definition attach_index (p : nat) (key : Z) (s : kstate) : option nat :=
  List.find (fun i => sa_key (the_attach p i s) =? key) (seq 0 PROC_SHM_SLOTS).

Lemma find_region_spec key s : find_region key s = Ok (region_index key s) s.
Proof. apply (for_loop_find the_region (fun r => sr_key r =? key)). Qed.

Lemma find_attach_spec p key s : find_attach p key s = Ok (attach_index p key s) s.
Proof. apply (for_loop_find (the_attach p) (fun a => sa_key a =? key)). Qed.

(** ** Mapping a region *)

Section mapping.
Context {img : Image}.

Definition shm_perm : Z := Z.lor (Z.lor PTE_R PTE_W) PTE_U.

(** [s'] maps the first [k] of [pages] from [uva] on, and agrees with [s] elsewhere. *)
Definition maps_pages (root uva : Z) (pages : list Z) (k : nat) (s s' : kstate) : Prop :=
  forall va, 0 <= va < MAXVA -> lookup_va (k_mem s') root va =
    if (uva <=? va) && (va <? uva + Z.of_nat k * PGSIZE)
    then mk_pte (default 0 (pages !! Z.to_nat ((va - uva) / PGSIZE))) shm_perm
    else lookup_va (k_mem s) root va.

Definition pages_ok (pages : list Z) (n : Z) : Prop :=
  forall i, 0 <= i < n -> exists p, pages !! Z.to_nat i = Some p /\ page_ok p.

Lemma map_pages_round s s0 root F F0 l l0 uva slot i pages n :
  vm_grow s root F l s0 F0 l0 -> maps_pages root uva pages i s s0 ->
  sr_pages (the_region slot s) = pages -> pages_ok pages n -> Z.of_nat i < n ->
  uva mod PGSIZE = 0 -> 0 <= uva -> uva + n * PGSIZE <= MAXVA ->
  (forall va, uva <= va < uva + n * PGSIZE -> has (lookup_va (k_mem s) root va) PTE_V = false) ->
  exists pa e s1 F1 l1, pages !! i = Some pa /\ 
    sr_pages (the_region slot s0) = pages /\
    mappages root (u64 (uva + Z.of_nat i * PGSIZE)) PGSIZE pa shm_perm s0 = Ok e s1 /\
    vm_grow s root F l s1 F1 l1 /\ (length l0 <= length l1 + 2)%nat /\
    (e = 0 /\ maps_pages root uva pages (S i) s s1 \/
     e = -1 /\ l1 = [] /\ maps_pages root uva pages i s s1).
Proof.
  intros Hg Hm Hpg Hok Hi Hal Hu Hmax Hfree. assert (HP : PGSIZE = 4096) by done.
  assert (HM : MAXVA = 2 ^ 38) by reflexivity.
  destruct (Hok (Z.of_nat i)) as (pa & Epa & Hpa); [lia|]. rewrite Nat2Z.id in Epa.
  destruct (page_ok_pos pa Hpa) as [Hp0 Hp56]. set (a := uva + Z.of_nat i * PGSIZE).
  assert (Ha : 0 <= a /\ a + PGSIZE <= uva + n * PGSIZE /\ a mod PGSIZE = 0)
    by (unfold a; rewrite HP in *; split_and!; [lia|lia|dlia]).
  destruct (mappages_spec s0 root F0 l0 a 1 pa shm_perm)
    as (e & s1 & F1 & l1 & k & E & Hg1 & Hm1 & Hk & Hlen & _ & Hr); try done; try lia; try apply Hg; try apply Hpa.
  { intros va Hva. rewrite Hm by lia. fold a. destruct (Z.ltb_spec va a); [lia|].
    rewrite andb_false_r. apply Hfree. assert (uva <= a) by (unfold a; rewrite HP; lia). lia. }
  exists pa, e, s1, F1, l1. rewrite u64_small by lia.
  replace (1 * PGSIZE) with PGSIZE in E by lia. split_and!; try done; [|by eapply vm_grow_trans|].
  { rewrite (vg_mem _ _ _ _ _ _ _ Hg). done. }
  destruct Hr as [[-> ->]|(-> & Hk1 & ->)]; [left|right]; (split; [done|]).
  - intros va Hva. rewrite Hm1, Hm by done. replace (a + 1 * PGSIZE) with (a + PGSIZE) by lia.
    replace (uva + Z.of_nat (S i) * PGSIZE) with (a + PGSIZE) by (unfold a; lia).
    fold a. assert (uva <= a) by (unfold a; rewrite HP; lia). zcases; try done.
    replace (Z.to_nat ((va - uva) / PGSIZE)) with i by (unfold a in *; rewrite HP in *; dlia).
    rewrite Epa. change (default 0 (Some pa)) with pa. f_equal.
    rewrite (proj2 (in_page_iff a va ltac:(apply Ha))) by lia. lia.
  - split; [done|]. assert (k = 0) as -> by lia. intros va Hva. rewrite Hm1 by done.
    replace (a + 0 * PGSIZE) with a by lia.
    destruct (Z.leb_spec a va), (Z.ltb_spec va a); try lia; by apply Hm.
Qed.

(** Taking the first [i] pages out again, after mappages() has failed. *)
Lemma unmap_pages s s1 root F F1 l l1 uva i pages n :
  vm_inv s root F l -> vm_grow s root F l s1 F1 l1 -> maps_pages root uva pages i s s1 ->
  Z.of_nat i <= n -> uva mod PGSIZE = 0 -> 0 <= uva -> uva + n * PGSIZE <= MAXVA ->
  (forall va, uva <= va < uva + n * PGSIZE -> has (lookup_va (k_mem s) root va) PTE_V = false) ->
  exists s2, uvmunmap root uva (Z.of_nat i) false s1 = Ok tt s2 /\
    alloc_undone s root F l uva (uva + n * PGSIZE) s2 F1 l1.
Proof.
  intros Hinv Hg Hm Hi Hal Hu Hmax Hfree. assert (HP : PGSIZE = 4096) by done.
  destruct (uvmunmap_spec s1 root F1 l1 uva (Z.of_nat i) false)
    as (s2 & E & fr & [Hinv2 Hmo2 Hfr2] & Hun & Hf); try done; try lia; [apply Hg|].
  exists s2. split; [done|].
  assert (fr = []) as ->.
  { destruct fr as [|q fr]; [done|]. destruct (proj1 (Hf q)) as [? _]; [by left|done]. }
  destruct Hg as [Hinv1 Hmo1 Hsub1 Hpg1 Hfr1]. assert (Hg : vm_grow s root F l s1 F1 l1) by done.
  split; try done.
  - by eapply mem_only_trans.
  - intros q. by eapply vm_grow_pages.
  - intros va Hva. destruct (decide (va < uva + Z.of_nat i * PGSIZE)); [apply Hun; lia|].
    rewrite (proj2 (Hun va ltac:(lia))), Hm by lia.
    destruct (Z.ltb_spec va (uva + Z.of_nat i * PGSIZE)); [lia|]. rewrite andb_false_r. by apply Hfree.
  - intros va H1 H2. rewrite (proj2 (Hun va H1)), Hm by lia.
    destruct (Z.leb_spec uva va), (Z.ltb_spec va (uva + Z.of_nat i * PGSIZE)); try done. lia.
  - intros b Hb HF. destruct (vm_grow_frame _ _ _ _ _ _ _ b Hinv Hg Hb HF) as [HF1 <-].
    apply Hfr2; [done|]. by apply not_elem_of_nil.
Qed.

Lemma map_pages_spec s root F l uva slot pages n :
  vm_inv s root F l -> sr_pages (the_region slot s) = pages -> sr_npages (the_region slot s) = n ->
  0 <= n -> pages_ok pages n -> LShm ∈ k_held s ->
  uva mod PGSIZE = 0 -> 0 <= uva -> uva + n * PGSIZE <= MAXVA ->
  (forall va, uva <= va < uva + n * PGSIZE -> has (lookup_va (k_mem s) root va) PTE_V = false) ->
  exists e s', map_pages root uva slot s = Ok e s' /\
    match e with
    | None => exists F' l', vm_grow s root F l s' F' l' /\ maps_pages root uva pages (Z.to_nat n) s s'
    | Some r => r = -1 /\ Z.of_nat (length l) <= 2 * n /\ exists s1 F' l',
        alloc_undone s root F l uva (uva + n * PGSIZE) s1 F' l' /\
        s' = set_k_held (k_held s ∖ {[LShm]}) s1
    end.
Proof.
  intros Hinv Hpg Hn Hn0 Hok Hheld Hal Hu Hmax Hfree. unfold map_pages. mrun. rewrite Hn.
  assert (HP : PGSIZE = 4096) by done.
  set (body := fun i : nat => _ : K (ctl Z)).
  destruct (for_loop_inv (fun rest s0 => exists k F0 l0, rest = drop k (seq 0 (Z.to_nat n)) /\
      (k <= Z.to_nat n)%nat /\ (length l <= length l0 + 2 * k)%nat /\
      vm_grow s root F l s0 F0 l0 /\ maps_pages root uva pages k s s0)
    (fun r s' => r = -1 /\ Z.of_nat (length l) <= 2 * n /\ exists s1 F' l',
        alloc_undone s root F l uva (uva + n * PGSIZE) s1 F' l' /\
        s' = set_k_held (k_held s ∖ {[LShm]}) s1)
    (seq 0 (Z.to_nat n)) body s) as (o & s' & E & Ho).
  - exists 0%nat, F, l. split_and!; [done|lia|lia|by apply vm_grow_refl|].
    intros va Hva. replace (uva + Z.of_nat 0 * PGSIZE) with uva by lia. zcases; done.
  - intros x rest s0 (k & F0 & l0 & Hd & _ & Hlen & Hg & Hm).
    apply drop_seq_cons in Hd as (-> & Hk & ->).
    destruct (map_pages_round s s0 root F F0 l l0 uva slot k pages n)
      as (pa & e & s1 & F1 & l1 & Epa & Epg & Em & Hg1 & Hlen1 & Hc); try done; [lia|].
    unfold body. mrun. rewrite Epg, Epa. change (default 0 (Some pa)) with pa.
    fold shm_perm. rewrite (bind_ok _ _ _ _ _ Em). destruct Hc as [[-> Hm1]|(-> & -> & Hm1)].
    + exists Continue, s1. split; [done|]. exists (S k), F1, l1. split_and!; try done; lia.
    + change (-1 <? 0) with true. cbv iota.
      destruct (unmap_pages s s1 root F F1 l [] uva k pages n) as (s2 & E2 & Hu2); try done; [lia|].
      rewrite (bind_ok _ _ _ _ _ E2).
      assert (Hh2 : k_held s2 = k_held s) by apply (mem_only_held _ _ (au_mem _ _ _ _ _ _ _ _ _ Hu2)).
      erewrite bind_ok by (apply release_ok; by rewrite Hh2). rewrite Hh2.
      eexists _, _. split; [reflexivity|]. split; [done|]. split; [cbn in *; lia|].
      exists s2, F1, []. done.
  - exists o, s'. split; [done|]. destruct o as [r|]; [done|].
    destruct Ho as (k & F' & l' & Hd & Hk & _ & Hg & Hm). exists F', l'. split; [done|].
    symmetry in Hd. apply (f_equal length) in Hd. rewrite length_drop, length_seq in Hd. cbn in Hd.
    by replace (Z.to_nat n) with k by lia.
Qed.

End mapping.

(** ** Attaching *)

Section attaching.
Context {img : Image}.

Definition unlock_shm (s : kstate) : kstate := set_k_held (k_held s ∖ {[LShm]}) s.

(** The bookkeeping at the end of a successful shm_open(). *)
Definition attached (p : nat) (key uva n : Z) (slot pslot : nat) (s : kstate) : kstate :=
  unlock_shm (set_k_shm_table
    (alter (fun r => set_sr_refcount (s32 (sr_refcount r + 1)) r) slot (k_shm_table s))
    (upd_proc p (fun q => set_p_shm (alter (fun _ => Shmattach key uva n) pslot (p_shm q))
       (set_p_sz (uva + n * PGSIZE) q)) s)).

Lemma alter_twice {A} (f g : A -> A) i (l : list A) : alter f i (alter g i l) = alter (fun x => f (g x)) i l.
Proof.
  apply list_eq. intros j. destruct (decide (i = j)) as [->|].
  - rewrite !list_lookup_alter_eq. by destruct (l !! j).
  - by rewrite !list_lookup_alter_ne.
Qed.

(** What shm_open() leaves when it maps region [slot] into process [p] and the tables are
    those of [root]. *)
Definition shm_attached (s : kstate) (root : Z) F l (p : nat) (key : Z) (slot pslot : nat)
    (r : Z) (s' : kstate) : Prop :=
  let reg := the_region slot s in
  let uva := PGROUNDUP (p_sz (the_proc p s)) in
  r = uva /\ exists s1 F' l', vm_grow s root F l s1 F' l' /\
    maps_pages root uva (sr_pages reg) (Z.to_nat (sr_npages reg)) s s1 /\
    s' = attached p key uva (sr_npages reg) slot pslot s1.

(** ... and when it runs out of memory for tables. *)
Definition shm_no_memory (s : kstate) (root : Z) F l (p slot : nat) (r : Z) (s' : kstate) : Prop :=
  let n := sr_npages (the_region slot s) in
  let uva := PGROUNDUP (p_sz (the_proc p s)) in
  r = -1 /\ Z.of_nat (length l) <= 2 * n /\ exists s1 F' l',
    alloc_undone s root F l uva (uva + n * PGSIZE) s1 F' l' /\ s' = unlock_shm s1.

Lemma attach_region_spec s root F l p key slot :
  let reg := the_region slot s in
  let uva := PGROUNDUP (p_sz (the_proc p s)) in
  vm_inv s root F l -> LShm ∈ k_held s -> p_pagetable (the_proc p s) = root ->
  0 <= p_sz (the_proc p s) <= TRAPFRAME -> 0 <= sr_npages reg <= SHM_MAXPGS ->
  pages_ok (sr_pages reg) (sr_npages reg) ->
  (forall va, uva <= va < TRAPFRAME -> has (lookup_va (k_mem s) root va) PTE_V = false) ->
  exists r s', attach_region p key slot s = Ok r s' /\
    match attach_index p key s, attach_index p 0 s with
    | Some i, _ => r = sa_uva (the_attach p i s) /\ s' = unlock_shm s
    | None, None => r = -1 /\ s' = unlock_shm s
    | None, Some pslot =>
        if uva + sr_npages reg * PGSIZE >? TRAPFRAME then r = -1 /\ s' = unlock_shm s
        else shm_attached s root F l p key slot pslot r s' \/ shm_no_memory s root F l p slot r s'
    end.
Proof.
  intros reg uva Hinv Hheld Hpt Hsz Hn Hok Hfree. unfold attach_region.
  assert (HP : PGSIZE = 4096) by done. assert (HT : TRAPFRAME = 2 ^ 38 - 8192) by reflexivity.
  pose proof (PGROUNDUP_eq (p_sz (the_proc p s)) ltac:(rewrite HP in *; lia)) as Eu. fold uva in Eu.
  assert (Hu : uva mod PGSIZE = 0 /\ 0 <= uva <= TRAPFRAME) by (rewrite HP in *; rewrite HT in *; dlia).
  clear Eu. destruct Hu as [Hal Hu].
  rewrite (bind_ok _ _ _ _ _ (find_attach_spec p key s)).
  destruct (attach_index p key s) as [i|]; [by rewrite (bind_ok _ _ _ _ _ (release_ok LShm s Hheld)); eauto|].
  rewrite (bind_ok _ _ _ _ _ (find_attach_spec p 0 s)).
  destruct (attach_index p 0 s) as [pslot|]; [|by rewrite (bind_ok _ _ _ _ _ (release_ok LShm s Hheld)); eauto].
  unfold get_proc. mrun. fold uva reg. unfold SHM_MAXPGS in Hn.
  rewrite (u64_small (sr_npages reg * PGSIZE)) by (rewrite HP; lia).
  rewrite (u64_small (uva + _)) by (rewrite HP; lia).
  rewrite Z.gtb_ltb. destruct (Z.ltb_spec TRAPFRAME (uva + sr_npages reg * PGSIZE)) as [|Hfit];
    [by rewrite (bind_ok _ _ _ _ _ (release_ok LShm s Hheld)); eauto|].
  mrun. rewrite Hpt.
  destruct (map_pages_spec s root F l uva slot (sr_pages reg) (sr_npages reg))
    as (e & s1 & E & He); try done; try lia.
  { change MAXVA with (2 ^ 38). lia. }
  { intros va Hva. apply Hfree. lia. }
  rewrite (bind_ok _ _ _ _ _ E). destruct e as [r|].
  - exists r, s1. split; [done|]. right. destruct He as (-> & Hlen & s2 & F' & l' & Hu2 & ->).
    split; [done|]. split; [done|]. exists s2, F', l'. split; [done|].
    unfold unlock_shm. by rewrite (mem_only_held _ _ (au_mem _ _ _ _ _ _ _ _ _ Hu2)).
  - destruct He as (F' & l' & Hg & Hm). unfold put_proc, upd_attach, upd_region, put_proc. mrun.
    rewrite !upd_proc_twice. ksimpl.
    assert (Hh1 : k_held s1 = k_held s) by apply (mem_only_held _ _ (vg_mem _ _ _ _ _ _ _ Hg)).
    erewrite bind_ok by (apply release_ok; ksimpl; change (k_held (upd_proc ?x ?y s1)) with (k_held s1);
      by rewrite Hh1).
    eexists _, _. split; [reflexivity|]. left. split; [done|]. exists s1, F', l'. split_and!; [done|done|].
    unfold attached, unlock_shm. ksimpl. f_equal. f_equal. apply upd_proc_ext. intros q _.
    by rewrite !alter_twice.
Qed.

(** The calling process [p] with address space [root], not attached to [key], with a free
    attachment [pslot]. *)
Record shm_ready (s : kstate) (p : nat) (root : Z) F l (key : Z) (pslot : nat) : Prop := {
  sr_proc : (p < length (k_procs s))%nat;
  sr_vm : vm_inv s root F l;
  sr_root : p_pagetable (the_proc p s) = root;
  sr_sz : 0 <= p_sz (the_proc p s) <= TRAPFRAME;
  sr_unmapped va : PGROUNDUP (p_sz (the_proc p s)) <= va < TRAPFRAME ->
    has (lookup_va (k_mem s) root va) PTE_V = false;
  sr_new : attach_index p key s = None;
  sr_room : attach_index p 0 s = Some pslot
}.

(** The result of a successful attach of [reg], as the process sees it. *)
Record shm_mapped (s : kstate) (p : nat) (root key : Z) (slot pslot : nat) (reg : shmregion)
    (s' : kstate) : Prop := {
  sm_map va : 0 <= va < MAXVA ->
    let uva := PGROUNDUP (p_sz (the_proc p s)) in
    lookup_va (k_mem s') root va =
    if (uva <=? va) && (va <? uva + sr_npages reg * PGSIZE)
    then mk_pte (default 0 (sr_pages reg !! Z.to_nat ((va - uva) / PGSIZE))) shm_perm
    else lookup_va (k_mem s) root va;
  sm_sz : p_sz (the_proc p s') = PGROUNDUP (p_sz (the_proc p s)) + sr_npages reg * PGSIZE;
  sm_attach : p_shm (the_proc p s') =
    alter (fun _ => Shmattach key (PGROUNDUP (p_sz (the_proc p s))) (sr_npages reg)) pslot
      (p_shm (the_proc p s));
  sm_region : k_shm_table s' =
    alter (fun _ => set_sr_refcount (s32 (sr_refcount reg + 1)) reg) slot (k_shm_table s);
  sm_held : k_held s' = k_held s ∖ {[LShm]};
  sm_others q : q <> p -> the_proc q s' = the_proc q s
}.

Lemma vm_inv_lock s root F l lk :
  vm_inv s root F l -> lk <> LKmem -> vm_inv (set_k_held ({[lk]} ∪ k_held s) s) root F l.
Proof. intros [H1 H2 H3 H4] Hne. split; try done. ksimpl. set_solver. Qed.

(** attach_region() when there is memory enough for the tables. *)
Lemma attach_mapped s p root F l key slot pslot :
  let reg := the_region slot s in
  let uva := PGROUNDUP (p_sz (the_proc p s)) in
  shm_ready s p root F l key pslot -> LShm ∈ k_held s ->
  0 <= sr_npages reg <= SHM_MAXPGS -> pages_ok (sr_pages reg) (sr_npages reg) ->
  uva + sr_npages reg * PGSIZE <= TRAPFRAME -> 2 * sr_npages reg < Z.of_nat (length l) ->
  exists s' F' l', attach_region p key slot s = Ok uva s' /\
    shm_mapped s p root key slot pslot reg s' /\ vm_inv s' root F' l' /\ F ⊆ F' /\
    (forall q, is_Some (F' !! q) -> is_Some (F !! q) \/ q ∈ l) /\
    (forall b, F' !! PGROUNDDOWN b = None -> k_mem s' b = k_mem s b).
Proof.
  intros reg uva [Hp Hvm Hroot Hsz Hun Hnew Hroom] Hlk Hn Hok Hfit Hmem.
  destruct (attach_region_spec s root F l p key slot) as (r & s' & E & Hr); try done.
  rewrite Hnew, Hroom in Hr. fold reg uva in Hr. rewrite Z.gtb_ltb in Hr.
  destruct (Z.ltb_spec TRAPFRAME (uva + sr_npages reg * PGSIZE)); [lia|].
  destruct Hr as [(-> & s1 & F' & l' & Hg & Hm & ->)|(_ & Hlen & _)]; [|fold reg in Hlen; lia].
  fold reg uva in E, Hm |- *. eexists _, F', l'. split; [exact E|].
  pose proof (vg_mem _ _ _ _ _ _ _ Hg) as Hmo.
  assert (Eprocs : k_procs s1 = k_procs s) by (by rewrite Hmo).
  assert (Eproc : forall q, the_proc q s1 = the_proc q s) by (intros q; unfold the_proc; by rewrite Eprocs).
  assert (Ep : the_proc p (attached p key uva (sr_npages reg) slot pslot s1) =
    set_p_shm (alter (fun _ => Shmattach key uva (sr_npages reg)) pslot (p_shm (the_proc p s)))
      (set_p_sz (uva + sr_npages reg * PGSIZE) (the_proc p s))).
  { etrans; [apply (the_proc_upd_eq s1); by rewrite Eprocs|]. by rewrite Eproc. }
  split; [split|split; [|split; [apply Hg|split]]].
  - intros va Hva. fold uva. unfold attached, unlock_shm. ksimpl.
    change (k_mem (upd_proc ?x ?y s1)) with (k_mem s1). rewrite Hm by done. by rewrite Z2Nat.id by lia.
  - by rewrite Ep.
  - by rewrite Ep.
  - unfold attached, unlock_shm. ksimpl. replace (k_shm_table s1) with (k_shm_table s) by (by rewrite Hmo).
    apply list_alter_ext; [|done]. intros r Hr. unfold reg, the_region. by rewrite Hr.
  - unfold attached, unlock_shm. ksimpl. change (k_held (upd_proc ?x ?y s1)) with (k_held s1).
    by rewrite (mem_only_held _ _ Hmo).
  - intros q Hq. etrans; [apply (the_proc_upd_ne s1 p _ q); done|apply Eproc].
  - destruct (vg_inv _ _ _ _ _ _ _ Hg) as [J1 J2 J3 J4]. split; try done.
    unfold attached, unlock_shm. ksimpl. change (k_held (upd_proc ?x ?y s1)) with (k_held s1). set_solver.
  - destruct Hg as [_ _ _ (used & -> & Hused) _]. intros q [?|?]%Hused; [by left|]. right.
    rewrite elem_of_app. by left.
  - intros b Hb. apply (vg_frame _ _ _ _ _ _ _ Hg b Hb).
Qed.

Lemma shm_ready_lock s p root F l key pslot h :
  shm_ready s p root F l key pslot -> LKmem ∉ h -> shm_ready (set_k_held h s) p root F l key pslot.
Proof. intros [H1 [J1 J2 J3 J4] H3 H4 H5 H6 H7] Hh. split; try done. Qed.

(** The entry of shm_open(), up to the search for the key. *)
Lemma shm_open_start key size s p :
  k_cur s = Some p -> 0 < key -> 0 < size -> LShm ∉ k_held s ->
  let n := Z.quot (s32 (s32 (size + PGSIZE) - 1)) PGSIZE in
  let s0 := set_k_held ({[LShm]} ∪ k_held s) s in
  shm_open key size s =
  match region_index key s with
  | Some i => attach_region p key i s0
  | None => match region_index 0 s with
      | None => Ok (-1) s
      | Some i =>
          let npages := if n >? SHM_MAXPGS then SHM_MAXPGS else n in
          bindM (alloc_pages i npages) (fun e =>
            match e with Some r => retM r | None => attach_region p key i end)
          (set_k_shm_table (alter (fun r => Shmregion key npages (sr_pages r) 0) i (k_shm_table s)) s0)
      end
  end.
Proof.
  intros Hcur Hkey Hsize Hlk n s0. unfold shm_open, myproc. mrun. rewrite Hcur. mrun.
  destruct (Z.leb_spec key 0); [lia|]. destruct (Z.leb_spec size 0); [lia|]. cbn [orb].
  rewrite (bind_ok _ _ _ _ _ (acquire_ok LShm s Hlk)). fold s0.
  rewrite (bind_ok _ _ _ _ _ (find_region_spec key s0)).
  change (region_index key s0) with (region_index key s). destruct (region_index key s) as [i|]; [done|].
  rewrite (bind_ok _ _ _ _ _ (find_region_spec 0 s0)).
  change (region_index 0 s0) with (region_index 0 s). destruct (region_index 0 s) as [i|].
  - unfold upd_region. mrun. ksimpl. rewrite !alter_twice. done.
  - erewrite bind_ok by (apply release_ok; unfold s0; ksimpl; set_solver). unfold s0. ksimpl.
    rewrite held_add_remove by done. by destruct s.
Qed.

(** C35: two processes that have a region open share its memory.  If a process with table
    [root1] has the region mapped at [uva1] and another one opens it, then the call returns
    the page-aligned end of the caller's memory, and every offset of the region has the same
    physical address in both address spaces, so that each sees what the other writes. *)
Theorem shm_open_shares_memory s p root F l key slot pslot size root1 F1 uva1 :
  let reg := the_region slot s in
  let uva := PGROUNDUP (p_sz (the_proc p s)) in
  let len := sr_npages reg * PGSIZE in
  k_cur s = Some p -> 0 < key -> 0 < size -> LShm ∉ k_held s ->
  shm_ready s p root F l key pslot -> region_index key s = Some slot ->
  0 <= sr_npages reg <= SHM_MAXPGS ->
  pages_ok (sr_pages reg) (sr_npages reg) -> uva + len <= TRAPFRAME ->
  2 * sr_npages reg < Z.of_nat (length l) ->
  pt_ok (k_mem s) root1 F1 -> (forall q, is_Some (F1 !! q) -> F !! q = None /\ (q ∉ l)) ->
  0 <= uva1 -> uva1 mod PGSIZE = 0 -> uva1 + len <= MAXVA ->
  (forall o, 0 <= o < len -> lookup_va (k_mem s) root1 (uva1 + o) =
     mk_pte (default 0 (sr_pages reg !! Z.to_nat (o / PGSIZE))) shm_perm) ->
  exists s', shm_open key size s = Ok uva s' /\ shm_mapped s p root key slot pslot reg s' /\
    forall o, 0 <= o < len -> user_pa (k_mem s') root (uva + o) = user_pa (k_mem s') root1 (uva1 + o).
Proof.
  intros reg uva len Hcur Hkey Hsize Hlk Hr Hidx Hn Hok Hfit Hmem Hok1 Hdisj Hu1 Hal1 Hmax1 Hmap1.
  rewrite (shm_open_start key size s p) by done. rewrite Hidx. set (s0 := set_k_held _ s).
  pose proof (vm_unlocked _ _ _ _ (sr_vm _ _ _ _ _ _ _ Hr)) as Hkm.
  destruct (attach_mapped s0 p root F l key slot pslot)
    as (s' & F' & l' & E & Hsm & Hinv' & Hsub & Hnew & Hframe); try done.
  { apply shm_ready_lock; [done|set_solver]. } { unfold s0. ksimpl. set_solver. }
  assert (Hsm' : shm_mapped s p root key slot pslot reg s').
  { destruct Hsm as [H1 H2 H3 H4 H5 H6]. split; try done. rewrite H5. unfold s0. ksimpl. set_solver. }
  clear Hsm. rename Hsm' into Hsm. change (k_mem s0) with (k_mem s) in Hframe.
  exists s'. split; [exact E|]. split; [exact Hsm|]. intros o Ho.
  destruct (pt_frame (k_mem s) (k_mem s') root1 F1 Hok1) as [_ Hl1].
  { intros b Hb. apply Hframe. destruct (F' !! PGROUNDDOWN b) as [x|] eqn:Ex; [|done].
    destruct (Hdisj _ Hb) as [H1 H2]. destruct (Hnew (PGROUNDDOWN b)) as [[y Hy]|?]; [eauto|congruence|done]. }
  assert (HT : TRAPFRAME < MAXVA) by reflexivity. assert (HP : PGSIZE = 4096) by done.
  pose proof (sr_sz _ _ _ _ _ _ _ Hr) as Hsz.
  pose proof (PGROUNDUP_eq (p_sz (the_proc p s)) ltac:(change TRAPFRAME with (2 ^ 38 - 8192) in *; lia)) as Eu.
  fold uva in Eu. assert (Hu : uva mod PGSIZE = 0 /\ 0 <= uva) by (rewrite HP in *; dlia). clear Eu.
  unfold user_pa. rewrite Hl1, Hmap1, (sm_map _ _ _ _ _ _ _ _ Hsm) by lia. fold reg. fold uva len.
  destruct (Z.leb_spec uva (uva + o)), (Z.ltb_spec (uva + o) (uva + len)); try lia. cbn [andb].
  replace (uva + o - uva) with o by lia. f_equal.
  by rewrite <- (Zplus_mod_idemp_l uva), (proj1 Hu), <- (Zplus_mod_idemp_l uva1), Hal1.
Qed.

(** ** Creating a region *)

(** [s0] is [s] after the first [k] pages of the free list have been given to [slot]. *)
Record pages_taken (s : kstate) (root : Z) F (l : list Z) (slot k : nat) (s0 : kstate) : Prop := {
  pk_inv : vm_inv s0 root F (drop k l);
  pk_mem : mem_only (set_k_shm_table (k_shm_table s0) s) s0;
  pk_table : k_shm_table s0 = alter (fun r => set_sr_pages (take k l ++ drop k (sr_pages r)) r) slot
               (k_shm_table s);
  pk_same : same_lookups root s s0;
  pk_zero b : PGROUNDDOWN b ∈ take k l -> k_mem s0 b = 0;
  pk_frame b : PGROUNDDOWN b ∉ take k l -> k_mem s0 b = k_mem s b
}.

Lemma pages_taken_step s root F l slot k s0 p :
  pages_taken s root F l slot k s0 -> l !! k = Some p -> (k < 4)%nat ->
  (forall r, k_shm_table s !! slot = Some r -> length (sr_pages r) = 4%nat) ->
  exists s1, kalloc s0 = Ok p s1 /\ p <> 0 /\
    pages_taken s root F l slot (S k)
      (set_k_shm_table (alter (fun r => set_sr_pages (<[k := p]> (sr_pages r)) r) slot (k_shm_table s1))
         (set_k_mem (memset (k_mem s1) p 0 PGSIZE) s1)).
Proof.
  intros [Hinv Hmo Htab Hsame Hz Hfr] Hp Hk Hlen. rewrite (drop_S _ _ _ Hp) in Hinv.
  destruct (kalloc_zeroed s0 root F p (drop (S k) l) Hinv)
    as (s1 & E1 & Hinv2 & Hmo2 & Hl2 & Hfr2 & Hz2 & Hpok & Hpl & HpF).
  exists s1. split; [exact E1|]. destruct (page_ok_pos p Hpok) as [Hp0 _]. split; [lia|].
  pose proof (take_S_r _ _ _ Hp) as Et.
  set (s2 := set_k_mem _ s1) in *. change (k_shm_table s1) with (k_shm_table s2).
  assert (Etab2 : k_shm_table s2 = k_shm_table s0) by (by rewrite Hmo2). clearbody s2.
  destruct Hinv2 as [J1 J2 J3 J4].
  split.
  - by split.
  - ksimpl. rewrite Hmo2, Hmo. done.
  - ksimpl. rewrite Etab2, Htab, alter_twice. apply list_alter_ext; [|done]. intros r Hr.
    ksimpl. unfold set_sr_pages. ksimpl. f_equal. specialize (Hlen r Hr).
    pose proof (lookup_lt_Some _ _ _ Hp) as Hkl.
    rewrite Et, insert_app_r_alt, length_take by (rewrite length_take; lia).
    replace (k - k `min` length l)%nat with 0%nat by lia.
    destruct (lookup_lt_is_Some_2 (sr_pages r) k ltac:(lia)) as [x Hx].
    rewrite (drop_S _ _ _ Hx). cbn [insert list_insert]. by rewrite <- app_assoc.
  - intros va Hva. ksimpl. rewrite Hl2 by done. by apply Hsame.
  - intros b Hb. ksimpl. rewrite Et, elem_of_app, list_elem_of_singleton in Hb.
    destruct (decide (PGROUNDDOWN b = p)) as [Eb|Nb]; [by apply Hz2|].
    rewrite Hfr2 by done. apply Hz. tauto.
  - intros b Hb. ksimpl. rewrite Et, not_elem_of_app, list_elem_of_singleton in Hb.
    rewrite Hfr2, Hfr by tauto. done.
Qed.

(** After a failed allocation: the pages are free again and the slot is, too. *)
Record pages_returned (s : kstate) (root : Z) F (l : list Z) (slot : nat) (s1 : kstate) : Prop := {
  pr_inv : vm_inv s1 root F (reverse l);
  pr_mem : mem_only (set_k_shm_table (k_shm_table s1) s) s1;
  pr_table : k_shm_table s1 = alter (fun r => set_sr_key 0
      (set_sr_pages (l ++ drop (length l) (sr_pages r)) r)) slot (k_shm_table s);
  pr_same : same_lookups root s s1;
  pr_frame b : PGROUNDDOWN b ∉ l -> k_mem s1 b = k_mem s b
}.

(** The loop that frees the pages allocated so far. *)
Lemma free_pages s root F l slot s0 r0 :
  vm_inv s root F l -> pages_taken s root F l slot (length l) s0 ->
  k_shm_table s !! slot = Some r0 ->
  exists s1, for_loop (seq 0 (length l)) (fun k =>
      bindM (gets (the_region slot)) (fun r => kfree (default 0 (sr_pages r !! k)) ;; retM (@Continue unit))) s0
    = Ok None s1 /\ vm_inv s1 root F (reverse l) /\ mem_only s0 s1 /\ same_lookups root s0 s1 /\
    (forall b, PGROUNDDOWN b ∉ l -> k_mem s1 b = k_mem s0 b).
Proof.
  intros Hinv Ht Hr0. destruct Hinv as [_ (_ & Hnd & Hoks & _) Hdis _].
  pose proof (pk_inv _ _ _ _ _ _ _ Ht) as Hinv0. rewrite drop_all in Hinv0.
  pose proof (pk_table _ _ _ _ _ _ _ Ht) as Htab. rewrite take_ge in Htab by done.
  set (body := fun k : nat => _ : K (ctl unit)).
  destruct (for_loop_inv (fun rest s1 => exists k, rest = drop k (seq 0 (length l)) /\ (k <= length l)%nat /\
      vm_inv s1 root F (reverse (take k l)) /\ mem_only s0 s1 /\ same_lookups root s0 s1 /\
      (forall b, PGROUNDDOWN b ∉ l -> k_mem s1 b = k_mem s0 b)) (fun _ _ => False)
    (seq 0 (length l)) body s0) as (o & s1 & E & Ho).
  - exists 0%nat. split_and!; try done; [lia|apply mem_only_refl].
  - intros x rest s1 (k & Hd & _ & Hi1 & Hm1 & Hl1 & Hf1). apply drop_seq_cons in Hd as (-> & Hk & ->).
    destruct (lookup_lt_is_Some_2 l k Hk) as [q Hq].
    assert (Eq : default 0 (sr_pages (the_region slot s1) !! k) = q).
    { unfold the_region. replace (k_shm_table s1) with (k_shm_table s0) by (by rewrite Hm1).
      rewrite Htab, list_lookup_alter_eq, Hr0. cbn. by rewrite lookup_app_l, Hq. }
    destruct (kfree_vm s1 root F (reverse (take k l)) q Hi1) as (s2 & E2 & Hi2 & Hm2 & Hl2 & Hf2).
    { split_and!.
      - rewrite Forall_forall in Hoks. apply Hoks. by eapply list_elem_of_lookup_2.
      - rewrite elem_of_reverse. intros [j Hj]%list_elem_of_lookup.
        apply lookup_take_Some in Hj as [Hj Hlt]. pose proof (NoDup_lookup _ _ _ _ Hnd Hj Hq). lia.
      - apply Hdis. by eapply list_elem_of_lookup_2. }
    exists Continue, s2. split; [unfold body; mrun; by rewrite Eq, (bind_ok _ _ _ _ _ E2)|].
    exists (S k). split_and!; [done|lia| |by eapply mem_only_trans|by eapply same_lookups_trans|].
    + by rewrite (take_S_r _ _ _ Hq), reverse_app, reverse_singleton.
    + intros b Hb. rewrite Hf2; [by apply Hf1|]. intros Eb. apply Hb. rewrite Eb. by eapply list_elem_of_lookup_2.
  - destruct o as [|]; [done|]. destruct Ho as (k & Hd & Hk & Hi1 & ?). symmetry in Hd.
    apply (f_equal length) in Hd. rewrite length_drop, length_seq in Hd. cbn in Hd.
    replace (take k l) with l in Hi1 by (rewrite take_ge by lia; done). by exists s1.
Qed.

Lemma alloc_pages_spec s root F l slot n r0 :
  vm_inv s root F l -> LShm ∈ k_held s -> 0 <= n <= 4 ->
  k_shm_table s !! slot = Some r0 -> length (sr_pages r0) = 4%nat ->
  exists e s', alloc_pages slot n s = Ok e s' /\
    match e with
    | None => n <= Z.of_nat (length l) /\ pages_taken s root F l slot (Z.to_nat n) s'
    | Some r => r = -1 /\ Z.of_nat (length l) < n /\
        exists s1, pages_returned s root F l slot s1 /\ s' = unlock_shm s1
    end.
Proof.
  intros Hinv Hlk Hn Hr0 Hlen. unfold alloc_pages. set (body := fun j : nat => _ : K (ctl Z)).
  destruct (for_loop_inv (fun rest s0 => exists k, rest = drop k (seq 0 (Z.to_nat n)) /\ (k <= Z.to_nat n)%nat /\
      (k <= length l)%nat /\ pages_taken s root F l slot k s0)
    (fun r s' => r = -1 /\ Z.of_nat (length l) < n /\
        exists s1, pages_returned s root F l slot s1 /\ s' = unlock_shm s1)
    (seq 0 (Z.to_nat n)) body s) as (o & s' & E & Ho).
  - exists 0%nat. split_and!; [done|lia|lia|]. split; try done.
    + by destruct s.
    + symmetry. apply list_eq. intros i. destruct (decide (slot = i)) as [->|];
        [|by rewrite list_lookup_alter_ne]. rewrite list_lookup_alter_eq, Hr0. by destruct r0.
    + by intros b ?%elem_of_nil.
  - intros x rest s0 (k & Hd & _ & Hkl & Ht). apply drop_seq_cons in Hd as (-> & Hk & ->).
    destruct (l !! k) as [p|] eqn:Hp.
    + destruct (pages_taken_step s root F l slot k s0 p Ht Hp) as (s1 & E1 & Hp0 & Ht1); [lia| |].
      { intros r Hr. rewrite Hr0 in Hr. by injection Hr as <-. }
      eexists Continue, _. split.
      * unfold body. rewrite (bind_ok _ _ _ _ _ E1). destruct (Z.eqb_spec p 0); [done|].
        unfold put_mem, upd_region. mrun. reflexivity.
      * exists (S k). apply lookup_lt_Some in Hp. split_and!; [done|lia|lia|exact Ht1].
    + apply lookup_ge_None in Hp. assert (k = length l) as -> by lia.
      pose proof (pk_inv _ _ _ _ _ _ _ Ht) as Hi0. rewrite drop_all in Hi0.
      destruct (free_pages s root F l slot s0 r0 Hinv Ht Hr0) as (s1 & E1 & Hi1 & Hm1 & Hl1 & Hf1).
      pose proof (pk_mem _ _ _ _ _ _ _ Ht) as Hm0.
      assert (Hh1 : k_held s1 = k_held s) by (rewrite Hm1, Hm0; done).
      assert (Hs1 : k_shm_table s1 = k_shm_table s0) by (by rewrite Hm1).
      set (s2 := set_k_shm_table (alter (set_sr_key 0) slot (k_shm_table s1)) s1).
      exists (Return (-1)), (unlock_shm s2). split.
      * unfold body. rewrite (bind_ok _ _ s0 0 s0) by (apply kalloc_none; apply Hi0). cbn [Z.eqb].
        rewrite (bind_ok _ _ _ _ _ E1). unfold upd_region. mrun. fold s2.
        erewrite bind_ok by (apply release_ok; unfold s2; ksimpl; by rewrite Hh1). done.
      * split; [done|]. split; [lia|]. exists s2. split; [|done]. destruct Hi1 as [J1 J2 J3 J4]. split.
        -- by split.
        -- unfold s2. ksimpl. rewrite Hm1, Hm0. done.
        -- unfold s2. ksimpl. rewrite Hs1, (pk_table _ _ _ _ _ _ _ Ht), alter_twice, take_ge by done. done.
        -- intros va Hva. unfold s2. ksimpl. rewrite Hl1 by done. by apply (pk_same _ _ _ _ _ _ _ Ht).
        -- intros b Hb. unfold s2. ksimpl. rewrite Hf1 by done. apply (pk_frame _ _ _ _ _ _ _ Ht).
           by rewrite take_ge.
  - exists o, s'. split; [done|]. destruct o as [r|]; [done|].
    destruct Ho as (k & Hd & Hk & Hkl & Ht). symmetry in Hd. apply (f_equal length) in Hd.
    rewrite length_drop, length_seq in Hd. cbn in Hd. replace (Z.to_nat n) with k by lia. split; [lia|done].
Qed.

(** The number of pages for a size that does not overflow an int. *)
Definition shm_npages (size : Z) : Z := Z.min SHM_MAXPGS ((size + PGSIZE - 1) / PGSIZE).

Lemma shm_npages_spec size :
  0 < size <= 2 ^ 31 - PGSIZE - 1 ->
  (if Z.quot (s32 (s32 (size + PGSIZE) - 1)) PGSIZE >? SHM_MAXPGS then SHM_MAXPGS
   else Z.quot (s32 (s32 (size + PGSIZE) - 1)) PGSIZE) = shm_npages size /\
  1 <= shm_npages size <= 4.
Proof.
  intros H. unfold shm_npages, SHM_MAXPGS. assert (HP : PGSIZE = 4096) by done.
  rewrite (s32_small (size + PGSIZE)) by (rewrite HP in *; lia).
  rewrite s32_small by (rewrite HP in *; lia). rewrite Z.quot_div_nonneg by (rewrite HP in *; lia).
  rewrite Z.gtb_ltb. split.
  - generalize ((size + PGSIZE - 1) / PGSIZE). intros x. destruct (Z.ltb_spec 4 x); lia.
  - rewrite HP in *. dlia.
Qed.

(** An entry of a region whose first pages were taken from the free list. *)
Lemma taken_page (l rest : list Z) n i :
  Forall page_ok l -> 0 <= i < n -> n <= Z.of_nat (length l) ->
  exists q, (take (Z.to_nat n) l ++ rest) !! Z.to_nat i = Some q /\ page_ok q /\ q ∈ take (Z.to_nat n) l.
Proof.
  intros Hl Hi Hn. destruct (lookup_lt_is_Some_2 (take (Z.to_nat n) l) (Z.to_nat i)) as [q Hq]; [rewrite length_take; lia|].
  exists q. assert (Hin : q ∈ take (Z.to_nat n) l) by (by eapply list_elem_of_lookup_2).
  rewrite lookup_app_l by (by eapply lookup_lt_Some). split_and!; try done.
  rewrite Forall_forall in Hl. apply Hl. rewrite <- (take_drop (Z.to_nat n) l), elem_of_app. by left.
Qed.

(** The byte a process sees at an offset of the region it attached. *)
Lemma shm_mapped_byte s p root key slot pslot reg s' o q :
  let uva := PGROUNDUP (p_sz (the_proc p s)) in
  shm_mapped s p root key slot pslot reg s' -> 0 <= uva -> uva + sr_npages reg * PGSIZE <= TRAPFRAME ->
  0 <= o < sr_npages reg * PGSIZE -> sr_pages reg !! Z.to_nat (o / PGSIZE) = Some q -> page_ok q ->
  user_byte (k_mem s') root (uva + o) = k_mem s' (q + (uva + o) mod PGSIZE) /\
  PGROUNDDOWN (q + (uva + o) mod PGSIZE) = q.
Proof.
  intros uva Hsm Hu Hfit Ho Eq Hq. destruct (page_ok_pos q Hq) as [Hq0 Hq56].
  assert (HT : TRAPFRAME < MAXVA) by reflexivity. pose proof (Z.mod_pos_bound (uva + o) PGSIZE ltac:(done)) as Hm.
  split; [|apply in_page_iff; [apply Hq|lia]].
  unfold user_byte, user_pa. rewrite (sm_map _ _ _ _ _ _ _ _ Hsm) by lia. fold uva.
  destruct (Z.leb_spec uva (uva + o)); [|lia]. destruct (Z.ltb_spec (uva + o) (uva + sr_npages reg * PGSIZE)); [|lia]. cbn [andb].
  replace (uva + o - uva) with o by lia. rewrite Eq. change (default 0 (Some q)) with q.
  by destruct (mk_pte_spec q shm_perm) as (_ & _ & -> & _); [lia|apply Hq|done|].
Qed.

(** Attaching after the region was created. *)
Lemma shm_mapped_created s s2 p root key slot pslot reg s' :
  (forall q, the_proc q s2 = the_proc q s) -> same_lookups root s s2 -> k_held s2 = {[LShm]} ∪ k_held s ->
  (exists f, k_shm_table s2 = alter f slot (k_shm_table s)) -> LShm ∉ k_held s ->
  shm_mapped s2 p root key slot pslot reg s' -> shm_mapped s p root key slot pslot reg s'.
Proof.
  intros Eproc Hsame Hh [f Htab] Hlk [H1 H2 H3 H4 H5 H6]. rewrite Eproc in *. split; try done.
  - intros va Hva. rewrite H1 by done. cbv zeta. destruct (_ && _); [done|]. by apply Hsame.
  - by rewrite H4, Htab, alter_twice.
  - rewrite H5, Hh. set_solver.
  - intros q Hq. rewrite H6 by done. apply Eproc.
Qed.

(** shm_open() of a key that is not in use creates a region of the size asked for,
    rounded up to pages and at most four, of zeroed pages from the free list, with reference
    count 1, and maps it at the page-aligned end of the process, which sees zeros there. *)
Theorem shm_open_creates s p root F l key slot pslot size r0 :
  let n := shm_npages size in
  let uva := PGROUNDUP (p_sz (the_proc p s)) in
  let reg := Shmregion key n (take (Z.to_nat n) l ++ drop (Z.to_nat n) (sr_pages r0)) 0 in
  k_cur s = Some p -> 0 < key -> 0 < size <= 2 ^ 31 - PGSIZE - 1 -> LShm ∉ k_held s ->
  shm_ready s p root F l key pslot -> region_index key s = None -> region_index 0 s = Some slot ->
  k_shm_table s !! slot = Some r0 -> length (sr_pages r0) = 4%nat ->
  uva + n * PGSIZE <= TRAPFRAME -> 3 * n < Z.of_nat (length l) ->
  exists s', shm_open key size s = Ok uva s' /\ shm_mapped s p root key slot pslot reg s' /\
    forall o, 0 <= o < n * PGSIZE -> user_byte (k_mem s') root (uva + o) = 0.
Proof.
  intros n uva reg Hcur Hkey Hsize Hlk Hr Hno Hslot Hr0 Hlen Hfit Hmem.
  rewrite (shm_open_start key size s p) by (done || lia). rewrite Hno, Hslot.
  destruct (shm_npages_spec size Hsize) as [-> Hn]. cbv zeta. fold n in Hn |- *.
  set (s1 := set_k_shm_table _ _).
  destruct Hr as [Hp Hvm Hroot Hsz Hun Hnew Hroom]. pose proof (vm_unlocked _ _ _ _ Hvm) as Hkm.
  assert (Hvm1 : vm_inv s1 root F l).
  { destruct Hvm as [J1 J2 J3 J4]. split; try done. unfold s1. ksimpl. set_solver. }
  destruct (alloc_pages_spec s1 root F l slot n (Shmregion key n (sr_pages r0) 0))
    as (e & s2 & E & He); try done; try lia; [unfold s1; ksimpl; set_solver| |].
  { unfold s1. ksimpl. by rewrite list_lookup_alter_eq, Hr0. }
  rewrite (bind_ok _ _ _ _ _ E). destruct e as [r|]; [lia|].
  destruct He as [_ [Hinv2 Hmo2 Htab2 Hsame2 Hz2 Hfr2]].
  assert (Eproc : forall q, the_proc q s2 = the_proc q s) by (intros q; unfold the_proc; by rewrite Hmo2).
  assert (Ereg : the_region slot s2 = reg).
  { unfold the_region. rewrite Htab2. unfold s1. ksimpl.
    by rewrite !list_lookup_alter_eq, Hr0. }
  destruct (vm_kmem _ _ _ _ Hvm) as (_ & Hnd & Hoks & _).
  pose proof (fun i Hi => taken_page l (drop (Z.to_nat n) (sr_pages r0)) n i Hoks Hi ltac:(lia)) as Hpages.
  destruct (attach_mapped s2 p root F (drop (Z.to_nat n) l) key slot pslot)
    as (s' & F' & l' & Ea & Hsm & Hinv' & Hsub & HnewF & Hframe); rewrite ?Ereg, ?Eproc; try done.
  - split; rewrite ?Eproc; try done.
    + by rewrite Hmo2.
    + intros va Hva. rewrite Hsame2; [by apply Hun|].
      change TRAPFRAME with (2 ^ 38 - 8192) in *. change MAXVA with (2 ^ 38).
      pose proof (PGROUNDUP_eq (p_sz (the_proc p s)) ltac:(unfold PGSIZE; lia)) as Eu.
      unfold PGSIZE in Eu. dlia.
    + unfold attach_index, the_attach. rewrite <- Hnew. by rewrite Eproc.
    + unfold attach_index, the_attach. rewrite <- Hroom. by rewrite Eproc.
  - rewrite Hmo2. unfold s1. ksimpl. set_solver.
  - cbn [sr_npages reg]. unfold SHM_MAXPGS. lia.
  - intros i Hi. destruct (Hpages i Hi) as (q & ? & ? & _). eauto.
  - rewrite length_drop. cbn [sr_npages reg]. lia.
  - rewrite Ereg, Eproc in *. fold uva in Ea. exists s'. split; [exact Ea|].
    assert (Hsm' : shm_mapped s p root key slot pslot reg s').
    { apply (shm_mapped_created s s2); try done; [by rewrite Hmo2|]. rewrite Htab2. unfold s1. ksimpl. rewrite alter_twice. eauto. }
    split; [exact Hsm'|]. intros o Ho. assert (HP : PGSIZE = 4096) by done.
    assert (Hi : 0 <= o / PGSIZE < n) by (rewrite HP in *; dlia).
    destruct (Hpages _ Hi) as (q & Eq & Hq & Hin).
    assert (Hu : 0 <= uva).
    { unfold uva. rewrite PGROUNDUP_eq by (change TRAPFRAME with (2 ^ 38 - 8192) in *; lia). rewrite HP. dlia. }
    destruct (shm_mapped_byte _ _ _ _ _ _ _ _ o q Hsm' Hu Hfit Ho Eq Hq) as [Eb Epg]. fold uva in Eb, Epg.
    rewrite Eb, Hframe, Hz2; rewrite ?Epg; try done.
    rewrite <- (take_drop (Z.to_nat n) l) in Hnd. apply NoDup_app in Hnd as (_ & Hnd & _).
    destruct (F' !! q) as [x|] eqn:Ex; [|done]. exfalso. destruct (HnewF q) as [[y Hy]|Hd]; [eauto| |by apply (Hnd q)].
    rewrite (vm_disj _ _ _ _ Hvm) in Hy; [done|]. rewrite <- (take_drop (Z.to_nat n) l), elem_of_app. by left.
Qed.

(** ** Detaching *)

(** kfree() of the first [n] entries of [pages]. *)
Lemma kfree_pages s root F l pages n :
  vm_inv s root F l -> NoDup (take n pages) -> (n <= length pages)%nat ->
  (forall q, q ∈ take n pages -> page_ok q /\ (q ∉ l) /\ F !! q = None) ->
  exists s', for_loop (seq 0 n) (fun j => kfree (default 0 (pages !! j)) ;; retM (@Continue unit)) s
      = Ok None s' /\
    vm_inv s' root F (reverse (take n pages) ++ l) /\ mem_only s s' /\ same_lookups root s s' /\
    (forall b, PGROUNDDOWN b ∉ take n pages -> k_mem s' b = k_mem s b).
Proof.
  intros Hinv Hnd Hlen Hps. set (body := fun j : nat => _ : K (ctl unit)).
  destruct (for_loop_inv (fun rest s0 => exists k, rest = drop k (seq 0 n) /\ (k <= n)%nat /\
      vm_inv s0 root F (reverse (take k pages) ++ l) /\ mem_only s s0 /\ same_lookups root s s0 /\
      (forall b, PGROUNDDOWN b ∉ take n pages -> k_mem s0 b = k_mem s b)) (fun _ _ => False)
    (seq 0 n) body s) as (o & s1 & E & Ho).
  - exists 0%nat. split_and!; try done; [lia|apply mem_only_refl].
  - intros x rest s0 (k & Hd & _ & Hi0 & Hm0 & Hl0 & Hf0). apply drop_seq_cons in Hd as (-> & Hk & ->).
    destruct (lookup_lt_is_Some_2 pages k ltac:(lia)) as [q Hq].
    assert (Hqn : take n pages !! k = Some q) by (by rewrite lookup_take_lt).
    assert (Hin : q ∈ take n pages) by (by eapply list_elem_of_lookup_2).
    destruct (Hps q Hin) as (Hqo & Hql & HqF).
    destruct (kfree_vm s0 root F (reverse (take k pages) ++ l) q Hi0) as (s2 & E2 & Hi2 & Hm2 & Hl2 & Hf2).
    { split_and!; try done. rewrite elem_of_app, elem_of_reverse. intros [Hj|?]; [|done].
      apply list_elem_of_lookup in Hj as [j Hj]. apply lookup_take_Some in Hj as [Hj Hlt].
      assert (take n pages !! j = Some q) as Hjn by (rewrite lookup_take_lt by lia; done).
      pose proof (NoDup_lookup _ _ _ _ Hnd Hjn Hqn). lia. }
    exists Continue, s2. split; [unfold body; rewrite Hq; by rewrite (bind_ok _ _ _ _ _ E2)|].
    exists (S k). split_and!; [done|lia| |by eapply mem_only_trans|by eapply same_lookups_trans|].
    + by rewrite (take_S_r _ _ _ Hq), reverse_app, reverse_singleton.
    + intros b Hb. rewrite Hf2; [by apply Hf0|]. intros Eb. apply Hb. by rewrite Eb.
  - destruct o as [|]; [done|]. destruct Ho as (k & Hd & Hk & Hrest). symmetry in Hd.
    apply (f_equal length) in Hd. rewrite length_drop, length_seq in Hd. cbn in Hd.
    assert (k = n) as -> by lia. by exists s1.
Qed.

(** The process [p] is attached to region [slot] by its attachment [ps]. *)
Record shm_open_by (s : kstate) (p : nat) (root : Z) F l (key : Z) (slot ps : nat) : Prop := {
  so_proc : (p < length (k_procs s))%nat;
  so_vm : vm_inv s root F l;
  so_root : p_pagetable (the_proc p s) = root;
  so_attach : attach_index p key s = Some ps;
  so_region : region_index key s = Some slot;
  so_slot : (slot < length (k_shm_table s))%nat;
  so_uva : let a := the_attach p ps s in
    sa_uva a mod PGSIZE = 0 /\ 0 <= sa_uva a /\ sa_uva a + sa_npages a * PGSIZE <= MAXVA /\ 0 <= sa_npages a;
  so_pages : let r := the_region slot s in let ps := take (Z.to_nat (sr_npages r)) (sr_pages r) in
    0 <= sr_npages r <= Z.of_nat (length (sr_pages r)) /\ NoDup ps /\
    forall q, q ∈ ps -> page_ok q /\ (q ∉ l) /\ F !! q = None;
  so_refs : - 2 ^ 31 < sr_refcount (the_region slot s) < 2 ^ 31
}.

(** The end of shm_close(): freeing the region if nobody is attached. *)
Definition drop_region (slot : nat) : K Z :=
  r <- gets (the_region slot) ;;
  whenM (sr_refcount r <=? 0)
    (for_loop (seq 0 (Z.to_nat (sr_npages r))) (fun j =>
       kfree (default 0 (sr_pages r !! j)) ;; retM (@Continue unit)) ;;
     upd_region slot (set_sr_key 0) ;; upd_region slot (set_sr_npages 0) ;;
     upd_region slot (set_sr_refcount 0)) ;;
  release LShm ;;
  retM 0.

Lemma region_drop s root F l slot r :
  let ps := take (Z.to_nat (sr_npages r)) (sr_pages r) in
  vm_inv s root F l -> LShm ∈ k_held s -> k_shm_table s !! slot = Some r ->
  0 <= sr_npages r <= Z.of_nat (length (sr_pages r)) -> NoDup ps ->
  (forall q, q ∈ ps -> page_ok q /\ (q ∉ l) /\ F !! q = None) ->
  exists s' l',
    drop_region slot s = Ok 0 s' /\
    vm_inv s' root F l' /\ k_held s' = k_held s ∖ {[LShm]} /\ same_lookups root s s' /\
    k_procs s' = k_procs s /\
    if sr_refcount r <=? 0 then
      l' = reverse ps ++ l /\ k_shm_table s' = alter (fun r => Shmregion 0 0 (sr_pages r) 0) slot (k_shm_table s)
    else l' = l /\ k_shm_table s' = k_shm_table s.
Proof.
  intros ps Hinv Hlk Hr Hn Hnd Hps. unfold drop_region. mrun.
  assert (Er : the_region slot s = r) by (unfold the_region; by rewrite Hr). rewrite Er.
  destruct (sr_refcount r <=? 0); cbn [whenM].
  - destruct (kfree_pages s root F l (sr_pages r) (Z.to_nat (sr_npages r)))
      as (s1 & E & Hi1 & Hm1 & Hl1 & _); try done; [lia|].
    rewrite (bind_assoc (for_loop _ _)), (bind_ok _ _ _ _ _ E).
    unfold upd_region. mrun. ksimpl. rewrite !alter_twice.
    assert (Hh1 : k_held s1 = k_held s) by apply (mem_only_held _ _ Hm1).
    erewrite bind_ok by (apply release_ok; ksimpl; by rewrite Hh1). ksimpl. rewrite Hh1.
    eexists _, _. split; [reflexivity|]. destruct Hi1 as [J1 J2 J3 J4]. split_and!; ksimpl; try done.
    + split; try done. ksimpl. rewrite <- Hh1. set_solver.
    + by rewrite Hm1.
    + by rewrite Hm1.
  - mrun. rewrite (bind_ok _ _ _ _ _ (release_ok LShm s Hlk)). eexists _, l. split; [reflexivity|].
    destruct Hinv as [J1 J2 J3 J4]. split_and!; try done. split; try done. ksimpl. set_solver.
Qed.

(** shm_close() up to the decremented reference count. *)
Lemma shm_close_start key s p root F l slot ps :
  let a := the_attach p ps s in
  k_cur s = Some p -> 0 < key -> LShm ∉ k_held s -> shm_open_by s p root F l key slot ps ->
  exists s2, shm_close key s = drop_region slot s2 /\ vm_inv s2 root F l /\ k_held s2 = {[LShm]} ∪ k_held s /\
    unmaps_range root (sa_uva a) (sa_uva a + sa_npages a * PGSIZE) s s2 /\
    k_shm_table s2 = alter (fun r => set_sr_refcount (sr_refcount r - 1) r) slot (k_shm_table s) /\
    k_procs s2 = alter (fun q => set_p_shm (alter (fun _ => Shmattach 0 0 0) ps (p_shm q)) q) p (k_procs s).
Proof.
  intros a Hcur Hkey Hlk [Hp Hvm Hroot Hat Hre Hsl Huva Hpg Hrf]. fold a in Huva.
  destruct Huva as (Hal & Hu0 & Humax & Hn0).
  unfold shm_close, myproc. mrun. rewrite Hcur. mrun. destruct (Z.leb_spec key 0); [lia|].
  rewrite (bind_ok _ _ _ _ _ (acquire_ok LShm s Hlk)). set (s0 := set_k_held _ s).
  rewrite (bind_ok _ _ _ _ _ (find_attach_spec p key s0)).
  change (attach_index p key s0) with (attach_index p key s). rewrite Hat.
  rewrite (bind_ok _ _ _ _ _ (find_region_spec key s0)).
  change (region_index key s0) with (region_index key s). rewrite Hre.
  unfold get_proc. mrun. change (the_proc p s0) with (the_proc p s). rewrite Hroot.
  change (the_attach p ps s0) with a. assert (HP : PGSIZE = 4096) by done.
  rewrite u64_small by (change MAXVA with (2 ^ 38) in *; rewrite HP in *; lia).
  destruct (uvmunmap_spec s0 root F l (sa_uva a) (sa_npages a) false)
    as (s1 & E1 & fr & [Hinv1 Hmo1 _] & Hun & Hf); try done; [by apply vm_inv_lock|].
  assert (fr = []) as ->.
  { destruct fr as [|q fr]; [done|]. destruct (proj1 (Hf q)) as [? _]; [by left|done]. }
  cbn [app] in Hinv1. rewrite (bind_ok _ _ _ _ _ E1).
  unfold upd_attach, upd_region, put_proc. mrun. rewrite !upd_proc_twice.
  assert (k_shm_table s1 = k_shm_table s /\ k_procs s1 = k_procs s) as [Et1 Ep1] by (by rewrite Hmo1).
  destruct (lookup_lt_is_Some_2 _ _ Hsl) as [r' Hr']. unfold the_region in Hrf. rewrite Hr' in Hrf.
  eexists. split; [reflexivity|]. split_and!.
  - destruct Hinv1 as [J1 J2 J3 J4]. by split.
  - change (k_held s1 = {[LShm]} ∪ k_held s). by rewrite (mem_only_held _ _ Hmo1).
  - exact Hun.
  - ksimpl. change (k_shm_table (upd_proc ?x ?y s1)) with (k_shm_table s1). rewrite Et1.
    apply list_alter_ext; [|done]. intros x Hx. rewrite Hr' in Hx. injection Hx as <-. cbn in Hrf. by rewrite s32_small by lia.
  - unfold upd_proc. ksimpl. rewrite Ep1. apply list_alter_ext; [|done]. intros q _. ksimpl. by rewrite !alter_twice.
Qed.

(** shm_close() of a key the process has open returns 0, unmaps the region from the
    caller and from nowhere else, and clears its attachment.  The detach that leaves no
    process attached gives exactly the region's pages back to the free list and frees the
    slot of the table; any other only decrements the reference count and frees nothing. *)
Theorem shm_close_detaches s p root F l key slot ps :
  let a := the_attach p ps s in
  let r := the_region slot s in
  k_cur s = Some p -> 0 < key -> LShm ∉ k_held s -> shm_open_by s p root F l key slot ps ->
  exists s' l', shm_close key s = Ok 0 s' /\ vm_inv s' root F l' /\ k_held s' = k_held s /\
    unmaps_range root (sa_uva a) (sa_uva a + sa_npages a * PGSIZE) s s' /\
    p_shm (the_proc p s') = alter (fun _ => Shmattach 0 0 0) ps (p_shm (the_proc p s)) /\
    (forall q, q <> p -> the_proc q s' = the_proc q s) /\
    if sr_refcount r <=? 1 then
      l' = reverse (take (Z.to_nat (sr_npages r)) (sr_pages r)) ++ l /\
      k_shm_table s' = alter (fun r => Shmregion 0 0 (sr_pages r) 0) slot (k_shm_table s)
    else
      l' = l /\
      k_shm_table s' = alter (fun r => set_sr_refcount (sr_refcount r - 1) r) slot (k_shm_table s).
Proof.
  intros a r Hcur Hkey Hlk Hopen.
  destruct (shm_close_start key s p root F l slot ps Hcur Hkey Hlk Hopen) as (s2 & -> & Hvm2 & Hh2 & Hun & Etab & Eproc).
  destruct Hopen as [Hp Hvm Hroot Hat Hre Hsl Huva Hpg Hrf]. fold r in Hpg, Hrf. destruct Hpg as (Hn & Hnd & Hps).
  destruct (lookup_lt_is_Some_2 _ _ Hsl) as [r' Hr']. assert (Er : r' = r) by (unfold r, the_region; by rewrite Hr'). subst r'.
  destruct (region_drop s2 root F l slot (set_sr_refcount (sr_refcount r - 1) r))
    as (s' & l' & E & Hi' & Hh' & Hl' & Hp' & Hc); try done.
  { rewrite Hh2. set_solver. }
  { by rewrite Etab, list_lookup_alter_eq, Hr'. }
  exists s', l'. change (sr_refcount (set_sr_refcount ?x r)) with x in Hc. rewrite Eproc in Hp'.
  split; [exact E|]. split; [done|]. split; [|split; [|split; [|split]]].
  - rewrite Hh', Hh2. by apply held_add_remove.
  - intros va Hva. rewrite Hl' by done. apply (Hun va Hva).
  - unfold the_proc. rewrite Hp', list_lookup_alter_eq.
    destruct (lookup_lt_is_Some_2 _ _ Hp) as [q Hq]. by rewrite Hq.
  - intros q Hq. unfold the_proc. by rewrite Hp', list_lookup_alter_ne.
  - destruct (Z.leb_spec (sr_refcount r - 1) 0), (Z.leb_spec (sr_refcount r) 1); try lia;
      destruct Hc as [-> ->]; rewrite Etab; [|done]. by rewrite alter_twice.
Qed.

End attaching.

(** ** Instances on the eight-page machine *)

(** A process table with one process, and a region table with one region. *)
Definition tiny_proc (root sz : Z) (a : shmattach) : proc :=
  set_p_shm (a :: replicate 7 attach0) (set_p_sz sz (set_p_pagetable root proc0)).

Definition tiny_shm (root sz : Z) (a : shmattach) (r : shmregion) (s : kstate) : kstate :=
  set_k_cur (Some 0%nat) (set_k_procs [tiny_proc root sz a] (set_k_shm_table (r :: replicate 7 region0)
    (set_k_held ∅ s))).

Lemma tiny_shm_vm root sz a r s F l :
  vm_inv (img := tiny_image) s root F l -> vm_inv (img := tiny_image) (tiny_shm root sz a r s) root F l.
Proof. intros [H1 H2 H3 H4]. split; [exact H1|exact H2|exact H3|apply not_elem_of_empty]. Qed.

(** An address space with one page [p] mapped at 0. *)
Lemma tiny_mapped : exists s F l p,
  let root := PHYSTOP - PGSIZE in
  vm_inv (img := tiny_image) s root F l /\ (4 <= length l)%nat /\
  page_ok (img := tiny_image) p /\ (p ∉ l) /\ F !! p = None /\
  (forall va, 0 <= va < MAXVA -> lookup_va (k_mem s) root va =
     if (0 <=? va) && (va <? PGSIZE) then mk_pte p shm_perm else 0).
Proof.
  destruct tiny_space as (s & l & Hinv & Hlen & Hl). destruct l as [|p l]; [done|].
  destruct (map_fresh (img := tiny_image) s _ _ p l 0 shm_perm Hinv)
    as (s1 & _ & _ & e & s3 & F3 & l3 & _ & [Hinv3 _ _ _ (Hp & Hpl & HpF) _ _] & Hlen3 & Hc).
  { done. } { done. } { done. } { by vm_compute. } { by rewrite Hl. }
  destruct Hc as [[_ Hm]|(_ & -> & _)]; [|cbn in *; lia].
  exists s3, F3, l3, p. split; [exact Hinv3|]. split; [cbn in Hlen; lia|]. split_and!; try done.
  intros va Hva. rewrite Hm by done. rewrite Hl by done. done.
Qed.

Lemma shm_open_shares_memory_witness : exists s s' root root1,
  shm_open (img := tiny_image) 7 100 s = Ok 0 s' /\
  user_pa (k_mem s') root 100 = user_pa (k_mem s') root1 100.
Proof.
  destruct tiny_mapped as (s & F1 & l & p & Hinv & Hlen & Hp & Hpl & HpF & Hm).
  destruct l as [|root l]; [cbn in Hlen; lia|]. destruct Hinv as [Hok Hk Hd Hu].
  destruct (uvmcreate_spec (img := tiny_image) s root l Hk Hu) as (s1 & _ & Hinv1 & _ & Hl1 & Hf1).
  assert (Hr : F1 !! root = None) by (apply Hd; by left).
  destruct (pt_frame (img := tiny_image) (k_mem s) (k_mem s1) (PHYSTOP - PGSIZE) F1 Hok) as [Hok1 Hl2].
  { intros b [x Hb]. apply Hf1. intros Eb. rewrite Eb in Hb. congruence. }
  pose proof Hk as (_ & [Hrl _]%NoDup_cons & _).
  set (s0 := tiny_shm root 0 attach0 (Shmregion 7 1 [p; 0; 0; 0] 1) s1).
  destruct (shm_open_shares_memory (img := tiny_image) s0 0 root {[ root := (2%nat, 0) ]} l 7 0 0 100
    (PHYSTOP - PGSIZE) F1 0)
    as (s' & E & _ & Ho).
  - reflexivity.
  - lia.
  - lia.
  - apply not_elem_of_empty.
  - split; try reflexivity.
    + cbn. lia.
    + apply tiny_shm_vm. exact Hinv1.
    + by vm_compute.
    + intros va Hva. change (k_mem s0) with (k_mem s1). rewrite Hl1; [reflexivity|].
      change (PGROUNDUP (p_sz (the_proc 0 s0))) with 0 in Hva.
      change TRAPFRAME with (2 ^ 38 - 8192) in Hva. change MAXVA with (2 ^ 38). lia.
  - reflexivity.
  - by vm_compute.
  - intros i Hi. change (sr_npages (the_region 0 s0)) with 1 in Hi. replace i with 0 by lia.
    exists p. split; [reflexivity|exact Hp].
  - by vm_compute.
  - change (sr_npages (the_region 0 s0)) with 1. cbn in Hlen. lia.
  - exact Hok1.
  - intros q [x Hq]. split; [|intros Hin; rewrite Hd in Hq by (by right); done].
    apply lookup_singleton_None. intros <-. congruence.
  - lia.
  - reflexivity.
  - by vm_compute.
  - intros o Ho. change (sr_npages (the_region 0 s0) * PGSIZE) with 4096 in Ho.
    change (k_mem s0) with (k_mem s1). assert (0 <= 0 + o < MAXVA) by (change MAXVA with (2 ^ 38); lia).
    rewrite Hl2, Hm by done. change PGSIZE with 4096.
    destruct (Z.leb_spec 0 (0 + o)), (Z.ltb_spec (0 + o) 4096); try lia. cbn [andb].
    rewrite Z.div_small by lia. reflexivity.
  - exists s0, s', root, (PHYSTOP - PGSIZE). split; [exact E|]. apply (Ho 100).
    split; [discriminate|reflexivity].
Defined.

End ShmProofs.
