(* ===== verification/Mutex.v ===== *)
(** * kernel/sysproc.c and kernel/mutex.h: mutexes for user programs

    The table [mutextable] and its system calls.  [sys_mutex_lock] tests and sets the word
    until it wins, yielding in between; its fuel is the number of times it may yield.

    The system calls take no kernel lock, so what they promise is about interleavings of
    their memory accesses: [Interleaved] gives each access of a slot as one step of a
    process and proves mutual exclusion for a slot that is initialised once, and that
    initialising it from two processes at the same time breaks it. *)

From S2P Require Import Prelude Machine State Locks CString Kalloc VM Sched SchedProofs Proc.

Module Mutex.
Import CString Kalloc VM Sched SchedProofs Proc.

Definition mutex0 : umutex := Umutex 0 0 0.
Definition the_mutex (i : nat) (s : kstate) : umutex := default mutex0 (k_mutextable s !! i).
Definition upd_mutex (i : nat) (f : umutex -> umutex) (s : kstate) : kstate :=
  set_k_mutextable (alter f i (k_mutextable s)) s.
Definition get_mutex {A} (i : nat) (f : umutex -> A) : K A := gets (fun s => f (the_mutex i s)).
Definition put_mutex (i : nat) (f : umutex -> umutex) : K unit := modify (upd_mutex i f).

Definition slots : list nat := seq 0 MAX_MUTEXES.

(** __sync_lock_test_and_set(&m->locked, 1) *)
Definition test_and_set (i : nat) : K Z :=
  old <- get_mutex i mx_locked ;;
  put_mutex i (set_mx_locked 1) ;;
  retM old.

Section code.
Context {img : Image} {env : Env}.

Definition mutexinit : K unit :=
  for_loop slots (fun i =>
    put_mutex i (set_mx_valid 0) ;;
    put_mutex i (set_mx_locked 0) ;;
    put_mutex i (set_mx_owner_pid 0) ;;
    retM (@Continue unit)) ;;
  retM tt.

Definition sys_mutex_init : K Z :=
  r <- for_loop slots (fun i =>
    v <- get_mutex i mx_valid ;;
    if v =? 0 then
      put_mutex i (set_mx_valid 1) ;;
      put_mutex i (set_mx_locked 0) ;;
      put_mutex i (set_mx_owner_pid 0) ;;
      retM (Return (Z.of_nat i))
    else retM Continue) ;;
  retM (default (-1) r).

(** The while loop, for at most [n] yields. *)
Fixpoint mutex_lock_loop (n : nat) (i : nat) : K unit :=
  old <- test_and_set i ;;
  if negb (old =? 0) then
    match n with
    | O => block
    | S n' => yield ;; mutex_lock_loop n' i
    end
  else retM tt.

Definition sys_mutex_lock (n : nat) : K Z :=
  id <- argint 0 ;;
  if (id <? 0) || (id >=? Z.of_nat MAX_MUTEXES) then retM (-1) else
  v <- get_mutex (Z.to_nat id) mx_valid ;;
  if v =? 0 then retM (-1) else
  mutex_lock_loop n (Z.to_nat id) ;;
  p <- myproc ;;
  pid <- get_proc p p_pid ;;
  put_mutex (Z.to_nat id) (set_mx_owner_pid pid) ;;
  retM 0.

Definition sys_mutex_unlock : K Z :=
  id <- argint 0 ;;
  if (id <? 0) || (id >=? Z.of_nat MAX_MUTEXES) then retM (-1) else
  v <- get_mutex (Z.to_nat id) mx_valid ;;
  if v =? 0 then retM (-1) else
  o <- get_mutex (Z.to_nat id) mx_owner_pid ;;
  p <- myproc ;;
  pid <- get_proc p p_pid ;;
  if negb (o =? pid) then retM (-1) else
  put_mutex (Z.to_nat id) (set_mx_owner_pid 0) ;;
  put_mutex (Z.to_nat id) (set_mx_locked 0) ;;
  retM 0.

(** ** The calls of one process, undisturbed *)

Lemma upd_mutex_twice i f g s : upd_mutex i f (upd_mutex i g s) = upd_mutex i (fun m => f (g m)) s.
Proof.
  unfold upd_mutex. ksimpl. change (set_k_mutextable ?x (set_k_mutextable ?y s)) with (set_k_mutextable x s).
  f_equal. apply list_eq. intros j. destruct (decide (i = j)) as [->|Hne].
  - rewrite !list_lookup_alter_eq. by destruct (_ !! j).
  - by rewrite !list_lookup_alter_ne by done.
Qed.

Lemma the_mutex_upd i f s :
  (i < length (k_mutextable s))%nat -> the_mutex i (upd_mutex i f s) = f (the_mutex i s).
Proof.
  intros Hi. unfold the_mutex, upd_mutex. ksimpl. rewrite list_lookup_alter_eq.
  destruct (lookup_lt_is_Some_2 _ _ Hi) as [x ->]. done.
Qed.

Lemma upd_mutex_ext i f g s :
  (i < length (k_mutextable s))%nat -> f (the_mutex i s) = g (the_mutex i s) ->
  upd_mutex i f s = upd_mutex i g s.
Proof.
  intros Hi E. unfold upd_mutex. f_equal. apply list_alter_ext; [|done]. intros x Hx.
  unfold the_mutex in E. by rewrite Hx in E.
Qed.

Lemma argint_mutex n i f s id : argint n s = Ok id s -> argint n (upd_mutex i f s) = Ok id (upd_mutex i f s).
Proof.
  unfold argint, argraw, myproc, get_proc, get_mem, gets, retM, panic, bindM.
  change (k_cur (upd_mutex i f s)) with (k_cur s). destruct (k_cur s) as [p|]; [|discriminate].
  change (the_proc p (upd_mutex i f s)) with (the_proc p s). destruct (_ && _); [|discriminate].
  intros [= <-]. reflexivity.
Qed.

Lemma myproc_cur s p : k_cur s = Some p -> myproc s = Ok p s.
Proof. unfold myproc, bindM, gets. intros ->. done. Qed.

(** the mutex calls of one process.  An id outside the table or of a slot that was never
    initialised is refused without effect; locking a free mutex succeeds without yielding and
    records the caller, whose unlock then succeeds and frees the slot again; unlocking is
    refused without effect to every process but the recorded owner. *)
Theorem mutex_calls s p id n :
  k_cur s = Some p -> argint 0 s = Ok id s -> length (k_mutextable s) = MAX_MUTEXES ->
  let i := Z.to_nat id in
  let m := the_mutex i s in
  let pid := p_pid (the_proc p s) in
  if decide (0 <= id < 16 /\ mx_valid m <> 0) then
    (mx_locked m = 0 -> exists s1,
       sys_mutex_lock n s = Ok 0 s1 /\ the_mutex i s1 = Umutex (mx_valid m) 1 pid /\
       sys_mutex_unlock s1 = Ok 0 (upd_mutex i (fun _ => Umutex (mx_valid m) 0 0) s)) /\
    (mx_owner_pid m <> pid -> sys_mutex_unlock s = Ok (-1) s)
  else sys_mutex_lock n s = Ok (-1) s /\ sys_mutex_unlock s = Ok (-1) s.
Proof.
  intros Hc Ha Hlen i m pid.
  assert (Hrange : (id <? 0) || (id >=? Z.of_nat MAX_MUTEXES) = negb (bool_decide (0 <= id < 16))).
  { change (Z.of_nat MAX_MUTEXES) with 16. case_bool_decide; zcases; try done; lia. }
  unfold sys_mutex_lock, sys_mutex_unlock.
  destruct (decide (0 <= id < 16 /\ mx_valid m <> 0)) as [[Hid Hv]|Hd].
  - assert (Hi : (i < length (k_mutextable s))%nat) by (rewrite Hlen; unfold i, MAX_MUTEXES; lia).
    apply Z.eqb_neq in Hv. split.
    + intros Hl. rewrite (bind_ok _ _ _ _ _ Ha), Hrange, bool_decide_true by done. cbn [negb].
      unfold get_mutex at 1. mrun. fold i m. rewrite Hv.
      assert (El : mutex_lock_loop n i s = Ok tt (upd_mutex i (set_mx_locked 1) s)).
      { destruct n; cbn [mutex_lock_loop]; unfold test_and_set, get_mutex, put_mutex; mrun;
          fold m; rewrite Hl; reflexivity. }
      rewrite (bind_ok _ _ _ _ _ El).
      rewrite (bind_ok _ _ _ _ _ (myproc_cur (upd_mutex i (set_mx_locked 1) s) p Hc)). unfold get_proc, put_mutex. mrun.
      rewrite upd_mutex_twice. fold pid. eexists. split; [reflexivity|]. split; [by rewrite the_mutex_upd|].
      set (s1 := upd_mutex i _ s). assert (Ha1 : argint 0 s1 = Ok id s1) by (by apply argint_mutex).
      assert (Em : the_mutex i s1 = Umutex (mx_valid m) 1 pid) by (by apply the_mutex_upd).
      rewrite (bind_ok _ _ _ _ _ Ha1), Hrange, bool_decide_true by done. cbn [negb].
      unfold get_mutex. mrun. fold i. rewrite Em. cbn [mx_valid mx_owner_pid]. rewrite Hv. mrun. rewrite Em. cbn [mx_owner_pid].
      rewrite (bind_ok _ _ _ _ _ (myproc_cur s1 _ Hc)). mrun.
      change (p_pid (the_proc p s1)) with pid. rewrite Z.eqb_refl. cbn [negb]. mrun.
      unfold s1. rewrite !upd_mutex_twice. f_equal. by apply upd_mutex_ext.
    + intros Ho%Z.eqb_neq. rewrite (bind_ok _ _ _ _ _ Ha), Hrange, bool_decide_true by done. cbn [negb].
      unfold get_mutex. mrun. fold i m. rewrite Hv. mrun. fold m. rewrite (bind_ok _ _ _ _ _ (myproc_cur _ _ Hc)).
      unfold get_proc. mrun. fold pid. by rewrite Ho.
  - rewrite !(bind_ok _ _ _ _ _ Ha), Hrange. case_bool_decide as Hid; cbn [negb]; [|done].
    unfold get_mutex. mrun. fold i m. destruct (Z.eqb_spec (mx_valid m) 0); [done|]. tauto.
Qed.

End code.

(** Process 5 running, mutex 0 initialised, the argument register of a trapframe of zeros. *)
Definition mutex_demo : kstate :=
  upd_mutex 0 (set_mx_valid 1) (set_k_cur (Some 0%nat)
    (upd_proc 0 (fun q => set_p_trapframe 4096 (set_p_pid 5 q)) (kstate0 (fun _ => 0)))).

End Mutex.

(** ** The accesses of one slot, interleaved

    A process is named by its pid.  [MIdle] is any point outside the calls; the other points
    are between two accesses of the slot.  A schedule lists who moves next and, for a process
    that is outside, which call it makes. *)
Module Interleaved.

Inductive mpc : Type :=
| MIdle
| MInitValid | MInitLocked | MInitOwner   (* sys_mutex_init: before each of its three writes *)
| MTry                                    (* sys_mutex_lock: before the test-and-set *)
| MWon                                    (* won, m->owner_pid not yet written *)
| MClear                                  (* sys_mutex_unlock: owner checked *)
| MRelease.                               (* owner cleared, m->locked not yet *)

Inductive call : Type := CInit | CLock | CUnlock.

(** [mc_holds] marks the processes whose lock call has returned and whose unlock has not. *)
Record config : Type := MkMconfig {
  mc_m : umutex;
  mc_pc : Z -> mpc;
  mc_holds : Z -> bool
}.

Definition pupd {A} (f : Z -> A) (p : Z) (v : A) : Z -> A :=
  fun q => if decide (q = p) then v else f q.

Definition goto (p : Z) (l : mpc) (m : umutex) (c : config) : config :=
  MkMconfig m (pupd (mc_pc c) p l) (mc_holds c).

Definition hold (p : Z) (b : bool) (c : config) : config :=
  MkMconfig (mc_m c) (mc_pc c) (pupd (mc_holds c) p b).

Definition mstep (c : config) (a : Z * call) : config :=
  let '(p, k) := a in
  let m := mc_m c in
  match mc_pc c p with
  | MIdle =>
      match k with
      | CInit => if mx_valid m =? 0 then goto p MInitValid m c else c
      | CLock => if mx_valid m =? 0 then c else goto p MTry m c
      | CUnlock =>
          if mx_valid m =? 0 then c
          else if negb (mx_owner_pid m =? p) then c else goto p MClear m c
      end
  | MInitValid => goto p MInitLocked (set_mx_valid 1 m) c
  | MInitLocked => goto p MInitOwner (set_mx_locked 0 m) c
  | MInitOwner => goto p MIdle (set_mx_owner_pid 0 m) c
  | MTry => goto p (if mx_locked m =? 0 then MWon else MTry) (set_mx_locked 1 m) c
  | MWon => hold p true (goto p MIdle (set_mx_owner_pid p m) c)
  | MClear => goto p MRelease (set_mx_owner_pid 0 m) c
  | MRelease => hold p false (goto p MIdle (set_mx_locked 0 m) c)
  end.

Definition run (sched : list (Z * call)) (c : config) : config := fold_left mstep sched c.

(** A slot just initialised, with every process outside the calls. *)
Definition fresh : config := MkMconfig (Umutex 1 0 0) (fun _ => MIdle) (fun _ => false).

(** The slot before anybody initialised it. *)
Definition unused : config := MkMconfig (Umutex 0 0 0) (fun _ => MIdle) (fun _ => false).

(** The process that has the mutex: from winning the test-and-set to releasing the word. *)
Definition inside (c : config) (p : Z) : Prop := mc_holds c p = true \/ mc_pc c p = MWon.

Definition initialising (l : mpc) : bool :=
  match l with MInitValid | MInitLocked | MInitOwner => true | _ => false end.

Definition unlocking (l : mpc) : bool := match l with MClear | MRelease => true | _ => false end.

(** Somebody initialises the slot while somebody has the mutex. *)
Definition overlap (c : config) : Prop := exists p q, inside c p /\ initialising (mc_pc c q) = true.

(** What holds as long as there was no overlap. *)
Record minv (c : config) : Prop := {
  mi_valid p : mc_pc c p <> MIdle -> mc_pc c p <> MInitValid -> mx_valid (mc_m c) <> 0;
  mi_valid_held p : mc_holds c p = true -> mx_valid (mc_m c) <> 0;
  mi_unique p q : inside c p -> inside c q -> p = q;
  mi_locked p : inside c p -> mx_locked (mc_m c) <> 0;
  mi_unlock p : unlocking (mc_pc c p) = true -> mc_holds c p = true;
  mi_owner p : p <> 0 -> mx_owner_pid (mc_m c) = p <-> mc_holds c p = true /\ mc_pc c p <> MRelease
}.

(** The slot is initialised, and nobody is still inside an initialisation. *)
Definition ready (c : config) : Prop := mx_valid (mc_m c) <> 0 /\ forall p, initialising (mc_pc c p) = false.

Lemma pupd_eq {A} (f : Z -> A) p v : pupd f p v p = v.
Proof. unfold pupd. by rewrite decide_True. Qed.

Lemma pupd_ne {A} (f : Z -> A) p v q : q <> p -> pupd f p v q = f q.
Proof. unfold pupd. intros. by rewrite decide_False. Qed.

Ltac moved p q := destruct (decide (q = p)) as [->|Hpq]; [rewrite ?pupd_eq in *|rewrite ?pupd_ne in * by done].

(** A step that only moves [p] between points outside the mutex. *)
Lemma minv_goto c p l m :
  minv c -> (l <> MInitValid -> mx_valid m <> 0) -> (mx_valid (mc_m c) <> 0 -> mx_valid m <> 0) ->
  mx_owner_pid m = mx_owner_pid (mc_m c) -> (mx_locked (mc_m c) <> 0 -> mx_locked m <> 0) ->
  mc_pc c p <> MWon -> unlocking (mc_pc c p) = false ->
  (unlocking l = true -> mc_holds c p = true) -> l <> MWon -> l <> MRelease -> minv (goto p l m c).
Proof.
  intros [] Hv Hv' Ho Hl Hw Hu Hlu HlW HlR.
  assert (Hin : forall q, inside (goto p l m c) q -> inside c q).
  { intros q. unfold inside, goto. cbn [mc_holds mc_pc]. moved p q; tauto. }
  split; cbn [mc_m mc_pc mc_holds goto].
  - intros q. moved p q; [auto|]. intros H1 H2. apply Hv', (mi_valid0 q H1 H2).
  - intros q Hq. apply Hv', (mi_valid_held0 q Hq).
  - intros q q' Hq Hq'. apply mi_unique0; auto.
  - intros q Hq. eauto.
  - intros q. moved p q; auto.
  - intros q Hq. rewrite Ho, mi_owner0 by done. moved p q; [|done].
    destruct (mc_pc c p); naive_solver.
Qed.

(** A write of an initialisation, when nobody has the mutex. *)
Lemma minv_init c p l m :
  minv c -> (forall q, ~ inside c q) -> initialising (mc_pc c p) = true -> initialising l = true \/ l = MIdle ->
  mx_valid m <> 0 -> mx_owner_pid m = mx_owner_pid (mc_m c) \/ mx_owner_pid m = 0 -> minv (goto p l m c).
Proof.
  intros [] Hno Hp Hl Hv Ho.
  assert (Hh : forall q, mc_holds c q = false).
  { intros q. destruct (mc_holds c q) eqn:E; [|done]. exfalso. apply (Hno q). by left. }
  assert (Hin : forall q, ~ inside (goto p l m c) q).
  { intros q Hq. apply (Hno q). revert Hq. unfold inside, goto. cbn [mc_holds mc_pc]. moved p q; [|done].
    intros [?|E]; [by left|]. subst l. naive_solver. }
  split; cbn [mc_m mc_pc mc_holds goto]; try done.
  - intros q q' Hq. by destruct (Hin q).
  - intros q Hq. by destruct (Hin q).
  - intros q. moved p q; [|auto]. destruct Hl as [Hl| ->]; [by destruct l|done].
  - intros q Hq. rewrite Hh. split; [|by intros [? _]]. intros E. exfalso.
    destruct Ho as [Ho|Ho]; [|congruence]. rewrite Ho in E. apply mi_owner0 in E; [|done]. rewrite Hh in E. by destruct E.
Qed.

(** While nobody is inside, [p] wins the mutex. *)
Lemma minv_win c p :
  minv c -> mc_pc c p = MTry -> mx_locked (mc_m c) = 0 -> minv (goto p MWon (set_mx_locked 1 (mc_m c)) c).
Proof.
  intros [] Hpc Hl. assert (Hv : mx_valid (mc_m c) <> 0) by (apply (mi_valid0 p); by rewrite Hpc).
  assert (Hno : forall q, ~ inside c q) by (intros q Hq; by apply (mi_locked0 q)).
  assert (Hin : forall q, inside (goto p MWon (set_mx_locked 1 (mc_m c)) c) q -> q = p).
  { intros q Hq. destruct (decide (q = p)) as [|Hne]; [done|]. exfalso. apply (Hno q).
    revert Hq. unfold inside, goto. cbn [mc_holds mc_pc]. by rewrite pupd_ne. }
  assert (Hh : forall q, mc_holds c q = false).
  { intros q. destruct (mc_holds c q) eqn:E; [|done]. exfalso. apply (Hno q). by left. }
  split; cbn [mc_m mc_pc mc_holds goto]; ksimpl; try done.
  - intros q q' ->%Hin ->%Hin. done.
  - intros q. moved p q; [done|auto].
  - intros q Hq. rewrite mi_owner0, Hh by done. naive_solver.
Qed.

(** [p] records itself as the owner and returns from the lock call. *)
Lemma minv_own c p :
  p <> 0 -> minv c -> mc_pc c p = MWon ->
  minv (hold p true (goto p MIdle (set_mx_owner_pid p (mc_m c)) c)).
Proof.
  intros Hp [] Hpc. assert (Hv : mx_valid (mc_m c) <> 0) by (apply (mi_valid0 p); by rewrite Hpc).
  assert (Hin : forall q, inside (hold p true (goto p MIdle (set_mx_owner_pid p (mc_m c)) c)) q -> q = p).
  { intros q. unfold inside, goto, hold. cbn [mc_holds mc_pc]. moved p q; [done|].
    intros Hq. apply mi_unique0; [exact Hq|by right]. }
  split; cbn [mc_m mc_pc mc_holds goto hold]; ksimpl; try done.
  - intros q q' ->%Hin ->%Hin. done.
  - intros q _. apply (mi_locked0 p). by right.
  - intros q. moved p q; [done|auto].
  - intros q Hq. moved p q; [done|]. split; [congruence|]. intros [Hh _].
    exfalso. apply Hpq. apply mi_unique0; [by left|by right].
Qed.

(** The two writes of the unlock call. *)
Lemma minv_clear c p :
  minv c -> mc_pc c p = MClear -> minv (goto p MRelease (set_mx_owner_pid 0 (mc_m c)) c).
Proof.
  intros [] Hpc. assert (Hv : mx_valid (mc_m c) <> 0) by (apply (mi_valid0 p); by rewrite Hpc).
  assert (Hh : mc_holds c p = true) by (apply mi_unlock0; by rewrite Hpc).
  assert (Hin : forall q, inside (goto p MRelease (set_mx_owner_pid 0 (mc_m c)) c) q -> inside c q).
  { intros q. unfold inside, goto. cbn [mc_holds mc_pc]. moved p q; [by left|done]. }
  split; cbn [mc_m mc_pc mc_holds goto]; ksimpl; try done.
  - intros q q' Hq Hq'. apply mi_unique0; auto.
  - intros q Hq. eauto.
  - intros q. moved p q; auto.
  - intros q Hq. split; [congruence|]. intros [Hq' Hr]. exfalso.
    assert (q = p) as -> by (apply mi_unique0; by left). by rewrite pupd_eq in Hr.
Qed.

Lemma minv_release c p :
  minv c -> mc_pc c p = MRelease -> minv (hold p false (goto p MIdle (set_mx_locked 0 (mc_m c)) c)).
Proof.
  intros [] Hpc. assert (Hv : mx_valid (mc_m c) <> 0) by (apply (mi_valid0 p); by rewrite Hpc).
  assert (Hh : mc_holds c p = true) by (apply mi_unlock0; by rewrite Hpc).
  assert (Hno : forall q, ~ inside (hold p false (goto p MIdle (set_mx_locked 0 (mc_m c)) c)) q).
  { intros q. unfold inside, goto, hold. cbn [mc_holds mc_pc]. moved p q; [naive_solver|].
    intros Hq. apply Hpq. apply mi_unique0; [exact Hq|by left]. }
  split; cbn [mc_m mc_pc mc_holds goto hold]; ksimpl; try done.
  - intros q q' Hq. by destruct (Hno q).
  - intros q Hq. by destruct (Hno q).
  - intros q. moved p q; [done|auto].
  - intros q Hq. rewrite mi_owner0 by done. moved p q; naive_solver.
Qed.

Lemma minv_step c p k : p <> 0 -> ~ overlap c -> minv c -> minv (mstep c (p, k)).
Proof.
  intros Hp Hov Hc. pose proof Hc as [Hv _ _ _ _ Ho]. specialize (Hv p). unfold mstep.
  assert (Hno : initialising (mc_pc c p) = true -> forall q, ~ inside c q) by (intros Hi q Hq; apply Hov; by exists q, p).
  destruct (mc_pc c p) eqn:Hpc.
  - destruct (Z.eqb_spec (mx_valid (mc_m c)) 0) as [E|E]; destruct k; try done;
      [apply minv_goto; by rewrite ?Hpc|apply minv_goto; by rewrite ?Hpc|].
    destruct (Z.eqb_spec (mx_owner_pid (mc_m c)) p) as [Eo|]; [cbn [negb]|done].
    apply minv_goto; rewrite ?Hpc; try done. intros _. by apply Ho.
  - apply minv_init; rewrite ?Hpc; ksimpl; [done|by apply Hno|done|by left|done|by left].
  - apply minv_init; rewrite ?Hpc; ksimpl; [done|by apply Hno|done|by left|by apply Hv|by left].
  - apply minv_init; rewrite ?Hpc; ksimpl; [done|by apply Hno|done|by right|by apply Hv|by right].
  - destruct (Z.eqb_spec (mx_locked (mc_m c)) 0); [by apply minv_win|].
    apply minv_goto; rewrite ?Hpc; ksimpl; try done; intros _; by apply Hv.
  - by apply minv_own.
  - by apply minv_clear.
  - by apply minv_release.
Qed.

Lemma ready_step c a : ready c -> ready (mstep c a).
Proof.
  destruct a as [p k]. intros [Hv Hi]. pose proof (Hi p) as Hp. apply Z.eqb_neq in Hv as Hv'. unfold mstep. rewrite Hv'.
  assert (Hg : forall l m, mx_valid m <> 0 -> initialising l = false -> ready (goto p l m c)).
  { intros l m Hm Hl. split; [done|]. intros q. cbn [mc_pc goto]. moved p q; auto. }
  destruct (mc_pc c p); try done.
  - destruct k; try done; [by apply Hg|]. destruct (negb _); [done|by apply Hg].
  - apply Hg; [done|by destruct (Z.eqb (mx_locked (mc_m c)) 0)].
  - destruct (Hg MIdle (set_mx_owner_pid p (mc_m c)) Hv eq_refl). by split.
  - by apply Hg.
  - destruct (Hg MIdle (set_mx_locked 0 (mc_m c)) Hv eq_refl). by split.
Qed.

Lemma ready_no_overlap c : ready c -> ~ overlap c.
Proof. intros [_ Hi] (p & q & _ & Hq). by rewrite Hi in Hq. Qed.

(** Every call that moves names a process. *)
Definition named (sched : list (Z * call)) : Prop := Forall (fun a => fst a <> 0) sched.

Lemma minv_run sched c :
  named sched -> minv c -> (forall k, (k < length sched)%nat -> ~ overlap (run (take k sched) c)) -> minv (run sched c).
Proof.
  revert c. induction sched as [|[p k] sched IH]; intros c Hs Hc Hov; [done|].
  apply Forall_cons in Hs as [Hp Hs]. apply (IH (mstep c (p, k))); [done| |].
  - apply minv_step; [done| |done]. apply (Hov 0%nat). cbn. lia.
  - intros j Hj. apply (Hov (S j)). cbn. lia.
Qed.

Lemma ready_run sched c : ready c -> ready (run sched c).
Proof. revert c. induction sched as [|a sched IH]; intros c Hc; [done|]. by apply (IH (mstep c a)), ready_step. Qed.

Lemma minv_fresh : minv fresh.
Proof. split; unfold inside, fresh; cbn; try done; naive_solver. Qed.

Lemma minv_unused : minv unused.
Proof. split; unfold inside, unused; cbn; try done; naive_solver. Qed.

Lemma fresh_ready sched : named sched -> minv (run sched fresh) /\ ready (run sched fresh).
Proof.
  intros Hs. split; [|by apply ready_run]. apply minv_run; [done|apply minv_fresh|]. intros k _.
  by apply ready_no_overlap, ready_run.
Qed.

(** C33: mutual exclusion of the user mutexes.  Once a slot is initialised and nobody is still
    inside an initialisation of it, then in every interleaving of the accesses that any number
    of processes make by init, lock and unlock calls, at most one process is between a lock
    call that returned and its unlock, it is the recorded owner until its unlock clears the
    field, and no other process's unlock gets past the owner check. *)
Theorem mutex_mutual_exclusion sched :
  Forall (fun a => fst a <> 0) sched ->
  let c := run sched fresh in
  (forall p q, mc_holds c p = true -> mc_holds c q = true -> p = q) /\
  (forall p, p <> 0 -> mc_holds c p = true -> mc_pc c p <> MRelease ->
     mx_owner_pid (mc_m c) = p /\ mx_locked (mc_m c) <> 0) /\
  (forall p, p <> 0 -> mc_holds c p = false -> mc_pc c p = MIdle -> mstep c (p, CUnlock) = c).
Proof.
  intros Hs c. destruct (fresh_ready sched Hs) as [[_ _ Hu Hl _ Ho] [Hv _]]. fold c in Hv, Hu, Hl, Ho.
  split; [|split].
  - intros p q H1 H2. apply Hu; by left.
  - intros p Hp Hh Hr. split; [by apply Ho|]. apply (Hl p). by left.
  - intros p Hp Hh Hpc. unfold mstep. rewrite Hpc. apply Z.eqb_neq in Hv as ->.
    destruct (Z.eqb_spec (mx_owner_pid (mc_m c)) p) as [E|]; [|done].
    apply Ho in E as [E _]; [|done]. congruence.
Qed.

Lemma mutex_mutual_exclusion_witness :
  let c := run [(1, CLock); (2, CLock); (1, CLock); (2, CLock); (1, CLock)] fresh in
  mc_holds c 1 = true /\ mc_pc c 2 = MTry /\ forall q, mc_holds c q = true -> q = 1.
Proof.
  intros c. split; [reflexivity|]. split; [reflexivity|]. intros q Hq.
  apply (mutex_mutual_exclusion [(1, CLock); (2, CLock); (1, CLock); (2, CLock); (1, CLock)]);
    [|exact Hq|reflexivity]. repeat constructor; discriminate.
Defined.

(** What a step of [p] does to [p] and to the slot, given the point [p] is at. *)
Definition next (m : umutex) (p : Z) (k : call) (l : mpc) : mpc * umutex :=
  match l with
  | MIdle => (match k with
              | CInit => if mx_valid m =? 0 then MInitValid else MIdle
              | CLock => if mx_valid m =? 0 then MIdle else MTry
              | CUnlock => if (mx_valid m =? 0) || negb (mx_owner_pid m =? p) then MIdle else MClear
              end, m)
  | MInitValid => (MInitLocked, set_mx_valid 1 m)
  | MInitLocked => (MInitOwner, set_mx_locked 0 m)
  | MInitOwner => (MIdle, set_mx_owner_pid 0 m)
  | MTry => (if mx_locked m =? 0 then MWon else MTry, set_mx_locked 1 m)
  | MWon => (MIdle, set_mx_owner_pid p m)
  | MClear => (MRelease, set_mx_owner_pid 0 m)
  | MRelease => (MIdle, set_mx_locked 0 m)
  end.

Lemma mstep_next c p k l :
  mc_pc c p = l -> let c' := mstep c (p, k) in
  (mc_pc c' p, mc_m c') = next (mc_m c) p k l /\
  mc_holds c' p = match l with MWon => true | MRelease => false | _ => mc_holds c p end.
Proof.
  intros Hp. unfold mstep. rewrite Hp.
  destruct l; try destruct k; cbn [next]; try destruct (mx_valid (mc_m c) =? 0); try destruct (mx_owner_pid (mc_m c) =? p);
    cbn [orb negb goto hold mc_pc mc_m mc_holds]; rewrite ?pupd_eq, ?Hp; done.
Qed.

Lemma mstep_other c p k q : q <> p -> mc_pc (mstep c (p, k)) q = mc_pc c q /\ mc_holds (mstep c (p, k)) q = mc_holds c q.
Proof.
  intros Hq. unfold mstep. destruct (mc_pc c p); try destruct k; try destruct (mx_valid (mc_m c) =? 0);
    try destruct (mx_owner_pid (mc_m c) =? p); cbn [negb goto hold mc_pc mc_holds]; rewrite ?pupd_ne by done; done.
Qed.

Lemma run_cons a sched c : run (a :: sched) c = run sched (mstep c a).
Proof. done. Qed.

(** [p] alone goes on: its point, the slot, and whether it holds the mutex. *)
Fixpoint alone (p : Z) (ks : list call) (v : mpc * umutex * bool) : mpc * umutex * bool :=
  match ks with
  | [] => v
  | k :: ks =>
      let '(l, m, h) := v in
      alone p ks (next m p k l, match l with MWon => true | MRelease => false | _ => h end)
  end.

Lemma run_alone ks c p :
  let c' := run (pair p <$> ks) c in
  (mc_pc c' p, mc_m c', mc_holds c' p) = alone p ks (mc_pc c p, mc_m c, mc_holds c p) /\
  forall q, q <> p -> mc_pc c' q = mc_pc c q /\ mc_holds c' q = mc_holds c q.
Proof.
  revert c. induction ks as [|k ks IH]; intros c; [done|].
  destruct (IH (mstep c (p, k))) as [E O]. destruct (mstep_next c p k _ eq_refl) as [E1 E2].
  cbn [run fmap list_fmap fold_left alone] in *. rewrite E1, E2 in E. split; [exact E|].
  intros q Hq. destruct (mstep_other c p k q Hq) as [<- <-]. exact (O q Hq).
Qed.

(** C38: what the missing lock in sys_mutex_init() costs.  An initialisation that overlaps with a
    process that has the mutex is the only way to break mutual exclusion: while there is none, at
    most one process holds the mutex, from the unused slot on and in every interleaving.  And
    every such overlap does break it: a process [q] that has found the slot free, and has not
    written to it yet, needs only its own next six steps to hold the mutex together with whoever
    holds it.  Any two processes can get there. *)
Theorem mutex_init_race :
  (forall sched, named sched -> (forall k, ~ overlap (run (take k sched) unused)) ->
     forall p q, mc_holds (run sched unused) p = true -> mc_holds (run sched unused) q = true -> p = q) /\
  (forall c p q, p <> q -> mc_holds c p = true -> mc_pc c q = MInitValid ->
     let c' := run (replicate 6 (q, CLock)) c in mc_holds c' p = true /\ mc_holds c' q = true) /\
  (forall p q, p <> 0 -> q <> 0 -> p <> q -> exists sched, named sched /\
     let c := run sched unused in mc_holds c p = true /\ mc_pc c q = MInitValid).
Proof.
  split_and!.
  - intros sched Hs Hov p q Hp Hq. destruct (minv_run sched unused Hs minv_unused) as [_ _ Hu _ _ _]; [auto|].
    apply Hu; by left.
  - intros c p q Hpq Hp Hq. destruct (run_alone (replicate 6 CLock) c q) as [E O].
    change (pair q <$> replicate 6 CLock) with (replicate 6 (q, CLock)) in *. rewrite Hq in E.
    set (c' := run (replicate 6 (q, CLock)) c) in *. clearbody c'. cbv zeta in *.
    rewrite (proj2 (O p Hpq)). split; [exact Hp|]. by injection E.
  - intros p q Hp Hq Hpq. set (c := mstep unused (q, CInit)).
    destruct (run_alone [CInit; CInit; CInit; CInit; CLock; CLock; CLock] c p) as [E O].
    exists ((q, CInit) :: (pair p <$> [CInit; CInit; CInit; CInit; CLock; CLock; CLock])).
    split; [repeat constructor; done|]. destruct (mstep_other unused q CInit p Hpq) as [Ep _].
    destruct (mstep_next unused q CInit MIdle eq_refl) as [En _]. fold c in Ep, En.
    pose proof (f_equal fst En) as Eq. pose proof (f_equal snd En) as Em. cbn [fst snd] in Eq, Em. clear En.
    rewrite run_cons. fold c. rewrite Ep, Em in E. clearbody c.
    set (c' := run _ c) in *. clearbody c'. cbv zeta in *. rewrite (proj1 (O q ltac:(done))).
    split; [by injection E|exact Eq].
Qed.

Lemma mutex_init_race_witness :
  exists sched, named sched /\
    let c := run (replicate 6 (2, CLock)) (run sched unused) in mc_holds c 1 = true /\ mc_holds c 2 = true.
Proof.
  destruct mutex_init_race as (_ & Hbreak & Hreach).
  destruct (Hreach 1 2 ltac:(discriminate) ltac:(discriminate) ltac:(discriminate)) as (sched & Hn & H1 & H2).
  exists sched. split; [exact Hn|]. exact (Hbreak (run sched unused) 1 2 ltac:(discriminate) H1 H2).
Defined.

End Interleaved.
