(* ===== verification/SleepWakeup.v ===== *)
(** * sleep() and wakeup(), interleaved: no wakeup is lost

    A process that waits for a condition, as in sys_pause() or kwait(),

      acquire(lk); while(!cond) sleep(chan, lk); release(lk);

    against one that makes the condition true,

      acquire(lk); cond = 1; wakeup(chan); release(lk);

    one access of the shared state at a time, with the scheduler's part of the sleeper's
    switch.  The states are finitely many: the theorems are proved by computing the reachable
    ones and checking each. *)

From S2P Require Import Prelude Machine State Locks.

Module SleepWakeup.

Inductive actor : Type := Sleeper | Waker.

#[export] Instance actor_eq_dec : EqDecision actor.
Proof. solve_decision. Defined.

(** Where the sleeper is. *)
Inductive spc : Type :=
| SAcquire    (* acquire(lk) of the loop around sleep() *)
| STest       (* while(!cond) *)
| SLockP      (* sleep: acquire(&p->lock) *)
| SUnlock     (* release(lk) *)
| SChan       (* p->chan = chan *)
| SState      (* p->state = SLEEPING *)
| SSwtch      (* in the scheduler, which is about to release p->lock *)
| SOff        (* not running: the scheduler looks for p->state == RUNNABLE *)
| SRunning    (* chosen: the scheduler holds p->lock and sets RUNNING *)
| SClear      (* p->chan = 0 *)
| SUnlockP    (* release(&p->lock) *)
| SReacquire  (* acquire(lk) at the end of sleep() *)
| SRelease    (* release(lk) after the loop *)
| SDone.

Inductive wpc : Type :=
| WAcquire    (* acquire(lk) *)
| WSet        (* cond = 1 *)
| WLockP      (* wakeup: acquire(&p->lock) *)
| WTest       (* if(p->state == SLEEPING && p->chan == chan) p->state = RUNNABLE *)
| WUnlockP    (* release(&p->lock) *)
| WRelease    (* release(lk) *)
| WDone.

#[export] Instance spc_eq_dec : EqDecision spc.
Proof. solve_decision. Defined.
#[export] Instance wpc_eq_dec : EqDecision wpc.
Proof. solve_decision. Defined.

(** [c_lk] and [c_plock] say who holds the locks; the scheduler holds p->lock as the sleeper.
    [c_chan] is whether p->chan is the channel of the wakeup. *)
Record config : Type := Config {
  c_s : spc;
  c_w : wpc;
  c_cond : bool;
  c_lk : option actor;
  c_plock : option actor;
  c_state : procstate;
  c_chan : bool
}.

#[export] Instance config_eq_dec : EqDecision config.
Proof. solve_decision. Defined.

(** The next access of the sleeper; an acquire of a lock that is held spins. *)
Definition sleeper (c : config) : config :=
  let '(Config s w cond lk pl st ch) := c in
  match s with
  | SAcquire => match lk with None => Config STest w cond (Some Sleeper) pl st ch | _ => c end
  | STest => Config (if cond then SRelease else SLockP) w cond lk pl st ch
  | SLockP => match pl with None => Config SUnlock w cond lk (Some Sleeper) st ch | _ => c end
  | SUnlock => Config SChan w cond None pl st ch
  | SChan => Config SState w cond lk pl st true
  | SState => Config SSwtch w cond lk pl SLEEPING ch
  | SSwtch => Config SOff w cond lk None st ch
  | SOff =>
      match pl with
      | None => if decide (st = RUNNABLE) then Config SRunning w cond lk (Some Sleeper) st ch else c
      | _ => c
      end
  | SRunning => Config SClear w cond lk pl RUNNING ch
  | SClear => Config SUnlockP w cond lk pl st false
  | SUnlockP => Config SReacquire w cond lk None st ch
  | SReacquire => match lk with None => Config STest w cond (Some Sleeper) pl st ch | _ => c end
  | SRelease => Config SDone w cond None pl st ch
  | SDone => c
  end.

Definition waker (c : config) : config :=
  let '(Config s w cond lk pl st ch) := c in
  match w with
  | WAcquire => match lk with None => Config s WSet cond (Some Waker) pl st ch | _ => c end
  | WSet => Config s WLockP true lk pl st ch
  | WLockP => match pl with None => Config s WTest cond lk (Some Waker) st ch | _ => c end
  | WTest => Config s WUnlockP cond lk pl (if bool_decide (st = SLEEPING) && ch then RUNNABLE else st) ch
  | WUnlockP => Config s WRelease cond lk None st ch
  | WRelease => Config s WDone cond None pl st ch
  | WDone => c
  end.

Definition step (c : config) (a : actor) : config :=
  match a with Sleeper => sleeper c | Waker => waker c end.

Definition run (sched : list actor) (c : config) : config := fold_left step sched c.

Definition init : config := Config SAcquire WAcquire false None None RUNNING false.

(** ** The reachable states *)

Definition add (c : config) (seen : list config) : list config :=
  if decide (c ∈ seen) then seen else c :: seen.

Definition grow (seen : list config) : list config :=
  foldr (fun c acc => add (sleeper c) (add (waker c) acc)) seen seen.

Definition states : list config := Eval vm_compute in Nat.iter 40 grow [init].

(** [states] is closed under the steps of both. *)
Definition closed (l : list config) : bool :=
  forallb (fun c => bool_decide (sleeper c ∈ l) && bool_decide (waker c ∈ l)) l.

Lemma states_closed : closed states = true.
Proof. vm_compute. reflexivity. Qed.

Lemma run_states sched c : c ∈ states -> run sched c ∈ states.
Proof.
  revert c. induction sched as [|a sched IH]; intros c Hc; [done|]. apply IH.
  pose proof states_closed as H. unfold closed in H. rewrite forallb_forall in H.
  specialize (H c (proj1 (list_elem_of_In _ _) Hc)). apply andb_true_iff in H as [H1 H2].
  apply bool_decide_eq_true in H1, H2. by destruct a.
Qed.

Lemma states_check (P : config -> bool) sched : forallb P states = true -> P (run sched init) = true.
Proof.
  intros H. rewrite forallb_forall in H. apply H, list_elem_of_In, run_states.
  by apply (bool_decide_unpack _), Is_true_true; vm_compute.
Qed.

(** ** The properties *)

Definition round_robin (n : nat) : list actor := concat (replicate n [Sleeper; Waker]).

Definition wakeup_ok (c : config) : bool :=
  (negb (bool_decide (c_w c = WDone) && bool_decide (c_s c = SOff)) || bool_decide (c_state c = RUNNABLE)) &&
  (negb (bool_decide (c_w c = WDone)) || bool_decide (c_s (run (replicate 14 Sleeper) c) = SDone)) &&
  (let c' := run (round_robin 20) c in bool_decide (c_s c' = SDone) && bool_decide (c_w c' = WDone)).

Lemma wakeup_ok_states : forallb wakeup_ok states = true.
Proof. vm_compute. reflexivity. Qed.

(** C14: no wakeup is lost.  In every interleaving of a process that waits for a condition by
    sleep() with one that sets it and calls wakeup(), once the second is done the first, if it
    is off the CPU, is RUNNABLE; it then needs at most 14 more steps to see the condition and
    finish; and from every reachable state the two finish when they take turns, so neither
    the locks nor the switch can deadlock. *)
Theorem no_lost_wakeup sched :
  let c := run sched init in
  (c_w c = WDone -> c_s c = SOff -> c_state c = RUNNABLE) /\
  (c_w c = WDone -> c_s (run (replicate 14 Sleeper) c) = SDone) /\
  (c_s (run (round_robin 20) c) = SDone /\ c_w (run (round_robin 20) c) = WDone).
Proof.
  intros c. pose proof (states_check wakeup_ok sched wakeup_ok_states) as H. fold c in H.
  unfold wakeup_ok in H. rewrite !andb_true_iff, !orb_true_iff, !negb_true_iff, andb_false_iff,
    !bool_decide_eq_true, !bool_decide_eq_false in H.
  tauto.
Qed.

End SleepWakeup.
