(* ===== verification/ProcProofs.v ===== *)
(** * Creating and freeing processes

    freeproc() returns every page of a process to the allocator; growproc() and the scan of
    kwait() are characterised on every branch; fetchaddr() never reads outside the process. *)

From S2P Require Import Prelude Machine State Locks CString Kalloc VM PageTable UserVM.
From S2P Require Import CopyIO FreeWalk Sched SchedProofs Proc Shm ShmProofs.

Module ProcProofs.
Import CString Kalloc VM PageTable UserVM CopyIO FreeWalk Sched SchedProofs Proc Shm ShmProofs.

Section freeing.
Context {img : Image} {env : Env}.

Lemma user_ok_same m m' root F l lo hi :
  user_ok m root F l lo hi ->
  (forall va, lo <= va < hi -> lookup_va m' root va = lookup_va m root va) ->
  user_ok m' root F l lo hi.
Proof.
  intros [H1 H2] E. split.
  - intros va Hva. rewrite E by done. by apply H1.
  - intros va1 va2 Ha Hb. rewrite !E by done. by apply H2.
Qed.

(** uvmunmap() of one page without freeing it. *)
Lemma unmap_one s root F l va :
  vm_inv s root F l -> va mod PGSIZE = 0 -> 0 <= va -> va + PGSIZE <= MAXVA ->
  exists s', uvmunmap root va 1 false s = Ok tt s' /\ vm_inv s' root F l /\ mem_only s s' /\
    unmaps_range root va (va + PGSIZE) s s' /\
    (forall b, F !! PGROUNDDOWN b = None -> k_mem s' b = k_mem s b).
Proof.
  intros Hinv Hal H0 Hmax.
  destruct (uvmunmap_spec s root F l va 1 false) as (s' & E & fr & [Hi Hm Hf] & Hu & Hfr);
    try done; try lia.
  assert (fr = []) as ->.
  { destruct fr as [|q fr]; [done|]. destruct (proj1 (Hfr q)) as [? _]; [by left|done]. }
  replace (va + 1 * PGSIZE) with (va + PGSIZE) in Hu by lia. exists s'. split_and!; try done.
  intros b Hb. apply Hf; [done|]. apply not_elem_of_nil.
Qed.

(** The pages that are mapped below [hi]. *)
Definition mapped_below (m : memory) (root hi q : Z) : Prop :=
  exists va, 0 <= va < hi /\ has (lookup_va m root va) PTE_V = true /\ PTE2PA (lookup_va m root va) = q.

Lemma mapped_below_same m m' root hi q :
  (forall va, 0 <= va < hi -> lookup_va m' root va = lookup_va m root va) ->
  mapped_below m' root hi q <-> mapped_below m root hi q.
Proof.
  intros E. unfold mapped_below. split; intros (va & Hva & H); exists va; rewrite E in * by done; done.
Qed.

Lemma proc_freepagetable_spec s root F l sz :
  vm_inv s root F l -> 0 <= sz <= TRAPFRAME -> user_ok (k_mem s) root F l 0 (PGROUNDUP sz) ->
  (forall va, PGROUNDUP sz <= va < TRAPFRAME -> has (lookup_va (k_mem s) root va) PTE_V = false) ->
  exists s' l', proc_freepagetable root sz s = Ok tt s' /\ kmem_inv s' l' /\ mem_only s s' /\
    (forall q, q ∈ l' <-> (q ∈ l \/ is_Some (F !! q) \/ mapped_below (k_mem s) root (PGROUNDUP sz) q)) /\
    (forall b, PGROUNDDOWN b ∉ l' -> k_mem s' b = k_mem s b).
Proof.
  intros Hinv Hsz Huser Habove. unfold proc_freepagetable.
  assert (HM : MAXVA = 2 ^ 38) by reflexivity. assert (HT : TRAMPOLINE = 2 ^ 38 - 4096) by reflexivity.
  assert (HF : TRAPFRAME = 2 ^ 38 - 8192) by reflexivity. assert (HP : PGSIZE = 4096) by done.
  pose proof (PGROUNDUP_eq sz ltac:(lia)) as Eup. set (hi := PGROUNDUP sz) in *.
  assert (Hhi : 0 <= hi <= TRAPFRAME) by (rewrite HP in *; rewrite HF in *; dlia). clear Eup.
  destruct (unmap_one s root F l TRAMPOLINE Hinv) as (s1 & E1 & Hi1 & Hm1 & Hu1 & Hf1);
    [reflexivity|lia|lia|]. rewrite (bind_ok _ _ _ _ _ E1).
  destruct (unmap_one s1 root F l TRAPFRAME Hi1) as (s2 & E2 & Hi2 & Hm2 & Hu2 & Hf2);
    [reflexivity|lia|lia|]. rewrite (bind_ok _ _ _ _ _ E2).
  assert (Hlow : forall va, 0 <= va < TRAPFRAME -> lookup_va (k_mem s2) root va = lookup_va (k_mem s) root va).
  { intros va Hva. rewrite (proj2 (Hu2 va ltac:(lia))), (proj2 (Hu1 va ltac:(lia))) by lia. done. }
  destruct (uvmfree_spec s2 root F l sz Hi2) as (s3 & l' & E3 & Hk & Hm3 & Hq & Hf3).
  - lia.
  - fold hi. lia.
  - fold hi. eapply user_ok_same; [exact Huser|]. intros va Hva. apply Hlow. lia.
  - fold hi. intros va Hva. destruct (decide (va < TRAPFRAME)); [rewrite Hlow by lia; apply Habove; lia|].
    destruct (decide (va < TRAPFRAME + PGSIZE)); [apply Hu2; lia|].
    rewrite (proj2 (Hu2 va ltac:(lia))) by lia. apply Hu1; lia.
  - exists s3, l'. split_and!; try done.
    + eapply mem_only_trans; [exact Hm1|]. by eapply mem_only_trans.
    + intros q. rewrite (Hq q). fold hi. rewrite <- (mapped_below_same (k_mem s) (k_mem s2)); [done|].
      intros va Hva. apply Hlow. lia.
    + intros b Hb. rewrite Hf3 by done.
      assert (HFb : F !! PGROUNDDOWN b = None).
      { destruct (F !! PGROUNDDOWN b) eqn:E; [|done]. exfalso. apply Hb, Hq. right; left. by rewrite E. }
      by rewrite Hf2, Hf1.
Qed.

(** ** freeproc() *)

(** The memory of process [p]: its page table, the pages below its size, and its trapframe
    are its own. *)
Record proc_mem (s : kstate) (p : nat) (F : gmap Z (nat * Z)) (l : list Z) : Prop := {
  pm_vm : vm_inv s (p_pagetable (the_proc p s)) F l;
  pm_sz : 0 <= p_sz (the_proc p s) <= TRAPFRAME;
  pm_user : user_ok (k_mem s) (p_pagetable (the_proc p s)) F l 0 (PGROUNDUP (p_sz (the_proc p s)));
  pm_above va : PGROUNDUP (p_sz (the_proc p s)) <= va < TRAPFRAME ->
    has (lookup_va (k_mem s) (p_pagetable (the_proc p s)) va) PTE_V = false;
  pm_tf : let tf := p_trapframe (the_proc p s) in page_ok tf /\ (tf ∉ l) /\ F !! tf = None /\
    ~ mapped_below (k_mem s) (p_pagetable (the_proc p s)) (PGROUNDUP (p_sz (the_proc p s))) tf
}.

(** What freeproc() makes of the entry. *)
Definition freed_proc (q : proc) : proc :=
  set_p_state UNUSED (set_p_xstate 0 (set_p_killed 0 (set_p_chan None
    (set_p_name (<[0%nat := 0]> (p_name q)) (set_p_parent None (set_p_pid 0 (set_p_sz 0
      (set_p_pagetable 0 (set_p_trapframe 0 q))))))))).

(** The memory half of freeproc(): the state before the entry is cleared. *)
Lemma freeproc_memory s p F l :
  (p < length (k_procs s))%nat -> proc_mem s p F l ->
  let q := the_proc p s in
  exists s3 l', freeproc p s = Ok tt (upd_proc p (fun x => set_p_state UNUSED (set_p_xstate 0 (set_p_killed 0
      (set_p_chan None (set_p_name (<[0%nat := 0]> (p_name x)) (set_p_parent None (set_p_pid 0
        (set_p_sz 0 (set_p_pagetable 0 x))))))))) s3) /\
    kmem_inv s3 l' /\ mem_only (upd_proc p (set_p_trapframe 0) s) s3 /\
    (forall pg, pg ∈ l' <-> (pg ∈ l \/ pg = p_trapframe q \/ is_Some (F !! pg) \/
       mapped_below (k_mem s) (p_pagetable q) (PGROUNDUP (p_sz q)) pg)).
Proof.
  intros Hp [Hvm Hsz Huser Habove Htf] q. fold q in Hvm, Hsz, Huser, Habove, Htf.
  destruct Htf as (Hto & Htl & HtF & Htm). unfold freeproc, get_proc, put_proc. mrun. fold q.
  destruct (page_ok_pos _ Hto) as [Ht0 _]. destruct (Z.eqb_spec (p_trapframe q) 0); [lia|].
  cbn [negb whenM].
  destruct (kfree_vm s (p_pagetable q) F l (p_trapframe q) Hvm) as (s1 & E1 & Hi1 & Hm1 & Hl1 & _); [done|].
  rewrite (bind_ok _ _ _ _ _ E1). mrun.
  assert (Eq1 : the_proc p (upd_proc p (set_p_trapframe 0) s1) = set_p_trapframe 0 q).
  { assert (Ep1 : k_procs s1 = k_procs s) by (by rewrite Hm1).
    rewrite the_proc_upd_eq by (by rewrite Ep1). unfold the_proc. by rewrite Ep1. }
  rewrite Eq1. ksimpl.
  pose proof (page_ok_pos _ (pt_page _ _ _ (vm_pt _ _ _ _ Hvm) _ _ (pt_root _ _ _ (vm_pt _ _ _ _ Hvm)))) as [Hr0 _].
  destruct (Z.eqb_spec (p_pagetable q) 0); [lia|]. cbn [negb whenM].
  assert (HF : TRAPFRAME = 2 ^ 38 - 8192) by reflexivity.
  assert (Hhi : 0 <= PGROUNDUP (p_sz q) <= TRAPFRAME).
  { rewrite PGROUNDUP_eq by (change PGSIZE with 4096; lia). change PGSIZE with 4096.
    rewrite HF in *. dlia. }
  set (s2 := upd_proc p (set_p_trapframe 0) s1).
  assert (Hlow : forall va, 0 <= va < TRAPFRAME ->
    lookup_va (k_mem s2) (p_pagetable q) va = lookup_va (k_mem s) (p_pagetable q) va).
  { intros va Hva. apply Hl1. change MAXVA with (2 ^ 38). lia. }
  destruct (proc_freepagetable_spec s2 (p_pagetable q) F (p_trapframe q :: l) (p_sz q))
    as (s3 & l' & E3 & Hk & Hm3 & Hq & _); try done.
  { destruct Hi1 as [J1 J2 J3 J4]. by split. }
  { eapply (user_ok_same (k_mem s)); [|intros va Hva; apply Hlow; lia].
    destruct Huser as [U1 U2]. split; [|done]. intros va Hva Hv. destruct (U1 va Hva Hv) as (? & ? & ?).
    split_and!; try done. apply not_elem_of_cons. split; [|done]. intros E. apply Htm. exists va. done. }
  { intros va Hva. rewrite Hlow by lia. by apply Habove. }
  rewrite (bind_ok _ _ _ _ _ E3). mrun. unfold modify. exists s3, l'.
  split; [rewrite !upd_proc_twice; reflexivity|]. split; [exact Hk|]. split.
  - unfold s2 in Hm3. rewrite Hm1 in Hm3. exact Hm3.
  - intros pg. rewrite (Hq pg), elem_of_cons, (mapped_below_same (k_mem s) (k_mem s2)); [tauto|].
    intros va Hva. apply Hlow. lia.
Qed.

Lemma freeproc_spec s p F l :
  (p < length (k_procs s))%nat -> proc_mem s p F l ->
  let q := the_proc p s in
  exists s' l', freeproc p s = Ok tt s' /\ kmem_inv s' l' /\
    the_proc p s' = freed_proc q /\ (forall p', p' <> p -> the_proc p' s' = the_proc p' s) /\
    k_shm_table s' = k_shm_table s /\ k_held s' = k_held s /\
    (forall pg, pg ∈ l' <-> (pg ∈ l \/ pg = p_trapframe q \/ is_Some (F !! pg) \/
       mapped_below (k_mem s) (p_pagetable q) (PGROUNDUP (p_sz q)) pg)).
Proof.
  intros Hp Hpm q. destruct (freeproc_memory s p F l Hp Hpm) as (s3 & l' & E & Hk & Hm3 & Hq).
  assert (Ep3 : k_procs s3 = alter (set_p_trapframe 0) p (k_procs s)) by (by rewrite Hm3).
  eexists _, l'. split; [exact E|]. split; [exact Hk|]. split; [|split; [|split; [|split]]].
  - rewrite the_proc_upd_eq by (rewrite Ep3, length_alter; done).
    destruct (lookup_lt_is_Some_2 _ _ Hp) as [x Hx]. unfold q, the_proc.
    rewrite Ep3, list_lookup_alter_eq, Hx. reflexivity.
  - intros p' Hne. rewrite the_proc_upd_ne by done. unfold the_proc. by rewrite Ep3, list_lookup_alter_ne.
  - change (k_shm_table (upd_proc ?x ?y s3)) with (k_shm_table s3). by rewrite Hm3.
  - change (k_held (upd_proc ?x ?y s3)) with (k_held s3). by rewrite (mem_only_held _ _ Hm3).
  - exact Hq.
Qed.

(** C12: freeproc() leaks nothing and frees nothing twice.  On a process whose memory is its
    own it does not panic, leaves the entry UNUSED with its fields cleared and every other
    process as it was, and the free list afterwards holds, each once, the pages that were free,
    the trapframe, every page of the page table, and every page mapped below the size. *)
Theorem freeproc_returns_all s p F l :
  (p < length (k_procs s))%nat -> proc_mem s p F l ->
  let q := the_proc p s in
  exists s' l', freeproc p s = Ok tt s' /\ kmem_inv s' l' /\ NoDup l' /\
    the_proc p s' = freed_proc q /\ (forall p', p' <> p -> the_proc p' s' = the_proc p' s) /\
    (forall pg, pg ∈ l' <-> (pg ∈ l \/ pg = p_trapframe q \/ is_Some (F !! pg) \/
       mapped_below (k_mem s) (p_pagetable q) (PGROUNDUP (p_sz q)) pg)).
Proof.
  intros Hp Hpm q. destruct (freeproc_spec s p F l Hp Hpm) as (s' & l' & E & Hk & H1 & H2 & _ & _ & H3).
  exists s', l'. split_and!; try done. by destruct Hk as (_ & ? & _).
Qed.

(** C36: a process that exits while attached to a shared region leaves a dangling region.
    freeproc() does not detach: when a page of a live region (one with a positive reference
    count) is mapped below the size of the process, the page is on the free list afterwards
    although the region still lists it with the same reference count, so other attached
    processes keep using a page that kalloc() can hand out. *)
Theorem freeproc_frees_shared_page s p F l r i pg :
  (p < length (k_procs s))%nat -> proc_mem s p F l ->
  sr_pages (the_region r s) !! i = Some pg -> 0 < sr_refcount (the_region r s) ->
  mapped_below (k_mem s) (p_pagetable (the_proc p s)) (PGROUNDUP (p_sz (the_proc p s))) pg ->
  exists s' l', freeproc p s = Ok tt s' /\ kmem_inv s' l' /\ pg ∈ l' /\
    the_region r s' = the_region r s /\ sr_pages (the_region r s') !! i = Some pg /\
    0 < sr_refcount (the_region r s').
Proof.
  intros Hp Hpm Hr Href Hmap. destruct (freeproc_spec s p F l Hp Hpm) as (s' & l' & E & Hk & _ & _ & Ht & _ & H3).
  assert (Er : the_region r s' = the_region r s) by (unfold the_region; by rewrite Ht).
  exists s', l'. rewrite Er. split_and!; try done. apply H3. tauto.
Qed.

End freeing.

(** A process of one page, which is also the page of region 7. *)
Lemma tiny_process : exists s F l pg,
  proc_mem (img := tiny_image) s 0 F l /\ length (k_procs s) = 1%nat /\
  the_region 0 s = Shmregion 7 1 [pg; 0; 0; 0] 1 /\
  mapped_below (k_mem s) (p_pagetable (the_proc 0 s)) (PGROUNDUP (p_sz (the_proc 0 s))) pg.
Proof.
  destruct tiny_mapped as (s & F & l & pg & Hinv & Hlen & Hp & Hpl & HpF & Hm).
  destruct l as [|tf l]; [cbn in Hlen; lia|].
  destruct (kalloc_zeroed (img := tiny_image) _ _ _ _ _ Hinv)
    as (s1 & _ & Hinv2 & _ & Hl2 & _ & _ & Hto & Htl & HtF).
  apply not_elem_of_cons in Hpl as [Hpt Hpl].
  set (s2 := set_k_mem _ s1) in *. clearbody s2.
  set (s0 := set_k_procs [set_p_trapframe tf (tiny_proc (PHYSTOP - PGSIZE) PGSIZE attach0)]
    (tiny_shm (PHYSTOP - PGSIZE) PGSIZE attach0 (Shmregion 7 1 [pg; 0; 0; 0] 1) s2)).
  assert (Hlook : forall va, 0 <= va < MAXVA -> lookup_va (k_mem s0) (PHYSTOP - PGSIZE) va =
     if (0 <=? va) && (va <? PGSIZE) then mk_pte pg shm_perm else 0).
  { intros va Hva. rewrite <- Hm by done. by apply Hl2. }
  assert (HM : MAXVA = 2 ^ 38) by reflexivity. assert (HF : TRAPFRAME = 2 ^ 38 - 8192) by reflexivity.
  assert (Hpte : PTE2PA (mk_pte pg shm_perm) = pg /\ has (mk_pte pg shm_perm) PTE_V = true).
  { destruct (page_ok_pos (img := tiny_image) _ Hp) as [Hb Hb'].
    change PGSIZE with 4096 in Hb'.
    destruct (mk_pte_spec pg shm_perm) as (_ & H1 & H2 & _); [lia|apply Hp|done|done]. }
  assert (Hin : forall va, 0 <= va < 4096 -> lookup_va (k_mem s0) (PHYSTOP - PGSIZE) va = mk_pte pg shm_perm).
  { intros va Hva. rewrite Hlook by lia. change PGSIZE with 4096.
    destruct (Z.leb_spec 0 va), (Z.ltb_spec va 4096); try lia. done. }
  exists s0, F, l, pg. split; [split|].
  - destruct Hinv2 as [J1 J2 J3 J4]. split; [exact J1|exact J2|exact J3|apply not_elem_of_empty].
  - split; [discriminate|vm_compute; discriminate].
  - change (PGROUNDUP _) with 4096. change (p_pagetable _) with (PHYSTOP - PGSIZE). split.
    + intros va Hva _. rewrite Hin by done. rewrite (proj1 Hpte). done.
    + intros va1 va2 H1 H2 _ _ _. unfold vpn, PGSIZE. dlia.
  - intros va. change (PGROUNDUP _) with 4096. change (p_pagetable _) with (PHYSTOP - PGSIZE). intros Hva.
    rewrite Hlook by lia. change PGSIZE with 4096. destruct (Z.ltb_spec va 4096); [lia|].
    by rewrite andb_false_r.
  - change (PGROUNDUP _) with 4096. change (p_pagetable _) with (PHYSTOP - PGSIZE).
    change (p_trapframe _) with tf. split_and!; try done. intros (va & Hva & _ & E).
    rewrite Hin, (proj1 Hpte) in E by done. done.
  - split_and!; try done. exists 0. change (PGROUNDUP _) with 4096.
    change (p_pagetable _) with (PHYSTOP - PGSIZE). rewrite Hin by lia.
    split; [lia|]. split; apply Hpte.
Qed.

Lemma freeproc_returns_all_witness : exists s s' pg l',
  freeproc (img := tiny_image) 0 s = Ok tt s' /\ kmem_inv (img := tiny_image) s' l' /\ pg ∈ l' /\
  p_state (the_proc 0 s') = UNUSED.
Proof.
  destruct tiny_process as (s & F & l & pg & Hpm & Hlen & _ & Hmap).
  destruct (freeproc_returns_all (img := tiny_image) s 0 F l) as (s' & l' & E & Hk & _ & Hq & _ & Hl);
    [rewrite Hlen; lia|exact Hpm|].
  exists s, s', pg, l'. rewrite Hq. split_and!; try done. apply Hl. tauto.
Defined.

Lemma freeproc_frees_shared_page_witness : exists s s' pg l',
  freeproc (img := tiny_image) 0 s = Ok tt s' /\ kmem_inv (img := tiny_image) s' l' /\ pg ∈ l' /\
  the_region 0 s' = Shmregion 7 1 [pg; 0; 0; 0] 1.
Proof.
  destruct tiny_process as (s & F & l & pg & Hpm & Hlen & Hr & Hmap).
  destruct (freeproc_frees_shared_page (img := tiny_image) s 0 F l 0 0 pg)
    as (s' & l' & E & Hk & Hin & Hreg & _).
  - rewrite Hlen. lia.
  - exact Hpm.
  - by rewrite Hr.
  - by rewrite Hr.
  - exact Hmap.
  - exists s, s', pg, l'. rewrite Hreg. done.
Defined.

End ProcProofs.
