(* ===== verification/Bio.v ===== *)
(** * kernel/sleeplock.c and kernel/bio.c: sleep locks and the buffer cache

    A sleep lock belongs to a buffer or to an inode.  The buffers are the table [fs_buf], a
    [struct buf *] is an index; the doubly linked list through head is the sequence [fs_lru]
    of indices from head.next (most recently used) to head.prev.

    [virtio_disk_rw] is what bio.c uses of the disk driver: when it returns, the block has
    been transferred. *)

From S2P Require Import Prelude Machine FsData State Locks CString VM Sched.

(** Access to the file system's part of the state. *)
Definition getf {A} (f : fsstate -> A) : K A := gets (fun s => f (k_fs s)).
Definition upd_fs (f : fsstate -> fsstate) (s : kstate) : kstate := set_k_fs (f (k_fs s)) s.
Definition putf (f : fsstate -> fsstate) : K unit := modify (upd_fs f).

Definition the_buf (i : nat) (s : kstate) : buf := default buf0 (fs_buf (k_fs s) !! i).
Definition upd_buf (i : nat) (f : buf -> buf) (x : fsstate) : fsstate :=
  set_fs_buf (alter f i (fs_buf x)) x.
Definition get_buf {A} (i : nat) (f : buf -> A) : K A := gets (fun s => f (the_buf i s)).
Definition put_buf (i : nat) (f : buf -> buf) : K unit := putf (upd_buf i f).

Definition the_inode (i : nat) (s : kstate) : inode := default inode0 (fs_inode (k_fs s) !! i).
Definition upd_inode (i : nat) (f : inode -> inode) (x : fsstate) : fsstate :=
  set_fs_inode (alter f i (fs_inode x)) x.
Definition get_inode {A} (i : nat) (f : inode -> A) : K A := gets (fun s => f (the_inode i s)).
Definition put_inode (i : nat) (f : inode -> inode) : K unit := putf (upd_inode i f).

Module Sleeplock.
Import CString VM Sched.

(** Which struct the lock is embedded in. *)
Inductive sleepid : Type := SBuf (i : nat) | SInode (i : nat).

Definition spin_of (sl : sleepid) : lockid :=
  match sl with SBuf i => LSleepBuf i | SInode i => LSleepInode i end.
Definition chan_of (sl : sleepid) : chan :=
  match sl with SBuf i => ChSleepBuf i | SInode i => ChSleepInode i end.

Definition the_sleep (sl : sleepid) (s : kstate) : sleeplock :=
  match sl with SBuf i => b_lock (the_buf i s) | SInode i => i_lock (the_inode i s) end.
Definition upd_sleep (sl : sleepid) (f : sleeplock -> sleeplock) : fsstate -> fsstate :=
  match sl with
  | SBuf i => upd_buf i (fun b => set_b_lock (f (b_lock b)) b)
  | SInode i => upd_inode i (fun ip => set_i_lock (f (i_lock ip)) ip)
  end.
Definition get_sleep {A} (sl : sleepid) (f : sleeplock -> A) : K A := gets (fun s => f (the_sleep sl s)).
Definition put_sleep (sl : sleepid) (f : sleeplock -> sleeplock) : K unit := putf (upd_sleep sl f).

Section code.
Context {env : Env}.

Definition initsleeplock (sl : sleepid) : K unit :=
  put_sleep sl (set_slk_locked 0) ;;
  put_sleep sl (set_slk_pid 0).

(** The while loop of acquiresleep(). *)
Fixpoint acquiresleep_loop (n : nat) (sl : sleepid) : K unit :=
  l <- get_sleep sl slk_locked ;;
  if negb (l =? 0) then
    match n with
    | O => block
    | S n' => sleep (chan_of sl) (spin_of sl) ;; acquiresleep_loop n' sl
    end
  else retM tt.

Definition acquiresleep (sl : sleepid) : K unit :=
  acquire (spin_of sl) ;;
  acquiresleep_loop env_patience sl ;;
  put_sleep sl (set_slk_locked 1) ;;
  p <- myproc ;;
  pid <- get_proc p p_pid ;;
  put_sleep sl (set_slk_pid pid) ;;
  release (spin_of sl).

Definition releasesleep (sl : sleepid) : K unit :=
  acquire (spin_of sl) ;;
  put_sleep sl (set_slk_locked 0) ;;
  put_sleep sl (set_slk_pid 0) ;;
  wakeup (Some (chan_of sl)) ;;
  release (spin_of sl).

Definition holdingsleep (sl : sleepid) : K bool :=
  acquire (spin_of sl) ;;
  l <- get_sleep sl slk_locked ;;
  pd <- get_sleep sl slk_pid ;;
  p <- myproc ;;
  pid <- get_proc p p_pid ;;
  release (spin_of sl) ;;
  retM (negb (l =? 0) && (pd =? pid)).

End code.
End Sleeplock.

Module Bio.
Import CString VM Sched Sleeplock.

(** What a transfer does to the disk. *)
Definition disk_write (blockno : Z) (data : list Z) (x : fsstate) : fsstate :=
  set_fs_dwrites (fs_dwrites x ++ [(blockno, data)])
    (set_fs_disk (fun n => if n =? blockno then data else fs_disk x n) x).

Definition virtio_disk_rw (b : nat) (write : bool) : K unit :=
  blockno <- get_buf b b_blockno ;;
  if write then
    data <- get_buf b b_data ;;
    putf (disk_write blockno data)
  else
    data <- getf (fun x => fs_disk x blockno) ;;
    put_buf b (set_b_data data).

Section code.
Context {env : Env}.

(** Each buffer is put at the front of the list. *)
Definition binit : K unit :=
  putf (set_fs_lru []) ;;
  for_loop (seq 0 NBUF) (fun b =>
    initsleeplock (SBuf b) ;;
    putf (fun x => set_fs_lru (b :: fs_lru x) x) ;;
    retM (@Continue unit)) ;;
  retM tt.

Definition bget (dev blockno : Z) : K nat :=
  acquire LBcache ;;
  lru <- getf fs_lru ;;
  r <- for_loop lru (fun b =>
    d <- get_buf b b_dev ;;
    n <- get_buf b b_blockno ;;
    if (d =? dev) && (n =? blockno) then
      put_buf b (fun x => set_b_refcnt (u32 (b_refcnt x + 1)) x) ;;
      release LBcache ;;
      acquiresleep (SBuf b) ;;
      retM (Return b)
    else retM Continue) ;;
  match r with
  | Some b => retM b
  | None =>
      r <- for_loop (reverse lru) (fun b =>
        c <- get_buf b b_refcnt ;;
        if c =? 0 then
          put_buf b (set_b_dev dev) ;;
          put_buf b (set_b_blockno blockno) ;;
          put_buf b (set_b_valid 0) ;;
          put_buf b (set_b_refcnt 1) ;;
          release LBcache ;;
          acquiresleep (SBuf b) ;;
          retM (Return b)
        else retM Continue) ;;
      match r with
      | Some b => retM b
      | None => panic "bget: no buffers"
      end
  end.

(** The arguments are converted to uint. *)
Definition bread (dev blockno : Z) : K nat :=
  b <- bget (u32 dev) (u32 blockno) ;;
  v <- get_buf b b_valid ;;
  whenM (v =? 0)
    (virtio_disk_rw b false ;;
     put_buf b (set_b_valid 1)) ;;
  retM b.

Definition bwrite (b : nat) : K unit :=
  h <- holdingsleep (SBuf b) ;;
  if negb h then panic "bwrite" else
  virtio_disk_rw b true.

(** Unlinking [b] and linking it behind head. *)
Definition move_front (b : nat) (x : fsstate) : fsstate :=
  set_fs_lru (b :: filter (fun i => i <> b) (fs_lru x)) x.

Definition brelse (b : nat) : K unit :=
  h <- holdingsleep (SBuf b) ;;
  if negb h then panic "brelse" else
  releasesleep (SBuf b) ;;
  acquire LBcache ;;
  put_buf b (fun x => set_b_refcnt (u32 (b_refcnt x - 1)) x) ;;
  c <- get_buf b b_refcnt ;;
  whenM (c =? 0) (putf (move_front b)) ;;
  release LBcache.

Definition bpin (b : nat) : K unit :=
  acquire LBcache ;;
  put_buf b (fun x => set_b_refcnt (u32 (b_refcnt x + 1)) x) ;;
  release LBcache.

Definition bunpin (b : nat) : K unit :=
  acquire LBcache ;;
  put_buf b (fun x => set_b_refcnt (u32 (b_refcnt x - 1)) x) ;;
  release LBcache.

End code.
End Bio.
