(* ===== verification/Print.v ===== *)
(** * printf: kernel/printf.c

    [format] is the sequence of characters printf() hands to consputc(), from the characters
    of the format and the variadic arguments. *)

From S2P Require Import Prelude Machine.

(** The characters of a string literal. *)
Definition chars (s : string) : list Z := (fun c => Z.of_N (Ascii.N_of_ascii c)) <$> String.list_ascii_of_string s.

Module Print.

Definition digits : list Z := chars "0123456789abcdef".
Definition digit (d : Z) : Z := nth (Z.to_nat d) digits 0.

(** The do-while loop of printint(): the digits of x, the last one first.  A 64-bit number has
    at most 64 digits. *)
Fixpoint digit_loop (fuel : nat) (x base : Z) : list Z :=
  match fuel with
  | O => []
  | S fuel => digit (x mod base) :: (if x / base =? 0 then [] else digit_loop fuel (x / base) base)
  end.

(** What printint() leaves in buf, and prints from the end. *)
Definition printint_buf (xx base : Z) (sign : bool) : list Z :=
  let neg := sign && (xx <? 0) in
  let x := if neg then u64 (- xx) else u64 xx in
  digit_loop 64 x base ++ (if neg then chars "-" else []).

Definition printint (xx base : Z) (sign : bool) : list Z := rev (printint_buf xx base sign).

Fixpoint hex_loop (n : nat) (x : Z) : list Z :=
  match n with
  | O => []
  | S n => digit (Z.shiftr x 60) :: hex_loop n (u64 (Z.shiftl x 4))
  end.

Definition printptr (x : Z) : list Z := chars "0x" ++ hex_loop 16 x.

(** A variadic argument: an integer, or a string pointer that may be null. *)
Inductive arg : Type := AInt (v : Z) | AStr (s : option (list Z)).

Definition arg_int (args : list arg) : Z := match args with AInt v :: _ => v | _ => 0 end.
Definition arg_str (args : list arg) : list Z :=
  match args with AStr (Some s) :: _ => s | _ => chars "(null)" end.

Definition pct : Z := 37.
Definition ch_l : Z := 108.
Definition ch_d : Z := 100.
Definition ch_u : Z := 117.
Definition ch_x : Z := 120.

(** The sign- and zero-extended 64-bit arguments. *)
Definition s64 (x : Z) : Z := (x + 2 ^ 63) mod 2 ^ 64 - 2 ^ 63.

Fixpoint format (fmt : list Z) (args : list arg) : list Z :=
  match fmt with
  | [] => []
  | cx :: rest =>
      if negb (cx =? pct) then cx :: format rest args else
      match rest with
      | [] => []
      | c0 :: rest1 =>
          let v := arg_int args in
          if c0 =? ch_d then printint (s32 v) 10 true ++ format rest1 (tl args)
          else if c0 =? ch_u then printint (u32 v) 10 false ++ format rest1 (tl args)
          else if c0 =? ch_x then printint (u32 v) 16 false ++ format rest1 (tl args)
          else if c0 =? 112 then printptr (u64 v) ++ format rest1 (tl args)
          else if c0 =? 99 then v :: format rest1 (tl args)
          else if c0 =? 115 then arg_str args ++ format rest1 (tl args)
          else if c0 =? pct then pct :: format rest1 args
          else if c0 =? ch_l then
            match rest1 with
            | c1 :: rest2 =>
                if c1 =? ch_d then printint (s64 v) 10 true ++ format rest2 (tl args)
                else if c1 =? ch_u then printint (u64 v) 10 false ++ format rest2 (tl args)
                else if c1 =? ch_x then printint (u64 v) 16 false ++ format rest2 (tl args)
                else if c1 =? ch_l then
                  match rest2 with
                  | c2 :: rest3 =>
                      if c2 =? ch_d then printint (s64 v) 10 true ++ format rest3 (tl args)
                      else if c2 =? ch_u then printint (u64 v) 10 false ++ format rest3 (tl args)
                      else if c2 =? ch_x then printint (u64 v) 16 false ++ format rest3 (tl args)
                      else pct :: c0 :: format rest1 args
                  | [] => pct :: c0 :: format rest1 args
                  end
                else pct :: c0 :: format rest1 args
            | [] => pct :: c0 :: format rest1 args
            end
          else pct :: c0 :: format rest1 args
      end
  end.

End Print.
