(* ===== verification/Console.v ===== *)
(** * The console: kernel/uart.c, kernel/console.c, and printing

    The uart is a device: a write to its transmit register appends to [fs_out], and the
    characters that are waiting in its receive register at an interrupt are an argument of
    the handler.  Spinning for the line status register has no effect on the state. *)

From S2P Require Import Prelude Machine FsData State Locks CString VM Sched Proc Bio Print.

Module Console.
Import CString VM Sched Proc Print.

Definition INPUT_BUF_SIZE : Z := 128.
Definition BACKSPACE : Z := 0x100.
Definition ctrl (x : Z) : Z := x - 64.
Definition newline : Z := 10.

Definition get_cons {A} (f : consst -> A) : K A := getf (fun x => f (fs_cons x)).
Definition put_cons (f : consst -> consst) : K unit := putf (fun x => set_fs_cons (f (fs_cons x)) x).

Section code.
Context {img : Image} {env : Env}.

(** ** uart.c *)

(** WriteReg(THR, c) *)
Definition write_thr (c : Z) : K unit := putf (fun x => set_fs_out (fs_out x ++ [u8 c]) x).

Fixpoint uart_wait (n : nat) : K unit :=
  match n with
  | O => block
  | S n =>
      busy <- getf fs_txbusy ;;
      if negb (busy =? 0) then
        sleep ChUartTx LUart ;;
        uart_wait n
      else retM tt
  end.

Definition uartwrite (buf : list Z) : K unit :=
  acquire LUart ;;
  for_loop buf (fun c =>
    uart_wait env_patience ;;
    write_thr c ;;
    putf (set_fs_txbusy 1) ;;
    retM (@Continue unit)) ;;
  release LUart.

Definition uartputc_sync (c : Z) : K unit := write_thr c.

(** ** printf() *)

Definition consputc (c : Z) : K unit :=
  if c =? BACKSPACE then
    uartputc_sync 8 ;;
    uartputc_sync 32 ;;
    uartputc_sync 8
  else uartputc_sync c.

Definition printf (fmt : list Z) (args : list arg) : K unit :=
  acquire LPr ;;
  for_loop (format fmt args) (fun c => consputc c ;; retM (@Continue unit)) ;;
  release LPr.

(** ** proc.c: procdump() *)

Definition state_name (st : procstate) : list Z :=
  match st with
  | UNUSED => chars "unused"
  | USED => chars "used"
  | SLEEPING => chars "sleep "
  | RUNNABLE => chars "runble"
  | RUNNING => chars "run   "
  | ZOMBIE => chars "zombie"
  end.

Definition procdump : K unit :=
  printf [newline] [] ;;
  for_loop procs (fun i =>
    p <- get_proc i id ;;
    if decide (p_state p = UNUSED) then retM (@Continue unit) else
    printf (chars "%d %s %s") [AInt (p_pid p); AStr (Some (state_name (p_state p))); AStr (Some (c_string (p_name p)))] ;;
    printf [newline] [] ;;
    retM Continue) ;;
  retM tt.

(** ** console.c *)

Fixpoint consolewrite_loop (fuel : nat) (user_src : bool) (src n i : Z) : K Z :=
  match fuel with
  | O => block
  | S fuel =>
      if i <? n then
        let nn := Z.min 32 (n - i) in
        '(r, buf) <- either_copyin user_src (u64 (src + i)) nn ;;
        if r =? -1 then retM i else
        uartwrite buf ;;
        consolewrite_loop fuel user_src src n (i + nn)
      else retM i
  end.

(** A round writes up to 32 characters. *)
Definition consolewrite (user_src : bool) (src n : Z) : K Z :=
  consolewrite_loop (Z.to_nat (n / 32) + 2) user_src src n 0.

(** Waits for input; true says the process was killed, and the lock is released. *)
Fixpoint cons_wait (k : nat) : K bool :=
  match k with
  | O => block
  | S k =>
      c <- get_cons id ;;
      if cons_r c =? cons_w c then
        p <- myproc ;;
        kd <- killed p ;;
        if negb (kd =? 0) then
          release LCons ;;
          retM true
        else
          sleep ChConsR LCons ;;
          cons_wait k
      else retM false
  end.

(** [n] counts down; the result is n at the end of the loop, or none if killed. *)
Fixpoint consoleread_loop (fuel : nat) (user_dst : bool) (dst n target : Z) : K (option Z) :=
  match fuel with
  | O => retM (Some n)
  | S fuel =>
      kd <- cons_wait env_patience ;;
      if kd then retM None else
      x <- get_cons id ;;
      let c := nth (Z.to_nat (cons_r x mod INPUT_BUF_SIZE)) (cons_buf x) 0 in
      put_cons (set_cons_r (u32 (cons_r x + 1))) ;;
      if c =? ctrl 68 then
        whenM (n <? target) (put_cons (fun x => set_cons_r (u32 (cons_r x - 1)) x)) ;;
        retM (Some n)
      else
        r <- either_copyout user_dst dst [c] ;;
        if r =? -1 then retM (Some n) else
        if c =? newline then retM (Some (n - 1)) else
        consoleread_loop fuel user_dst (u64 (dst + 1)) (n - 1) target
  end.

Definition consoleread (user_dst : bool) (dst n : Z) : K Z :=
  let target := n in
  acquire LCons ;;
  r <- consoleread_loop (Z.to_nat n) user_dst dst n target ;;
  match r with
  | None => retM (-1)
  | Some n =>
      release LCons ;;
      retM (target - n)
  end.

(** The kill-line loop; it runs [e - w] times at most. *)
Fixpoint kill_line (fuel : nat) : K unit :=
  match fuel with
  | O => retM tt
  | S fuel =>
      x <- get_cons id ;;
      if negb (cons_e x =? cons_w x)
         && negb (nth (Z.to_nat (u32 (cons_e x - 1) mod INPUT_BUF_SIZE)) (cons_buf x) 0 =? newline) then
        put_cons (fun x => set_cons_e (u32 (cons_e x - 1)) x) ;;
        consputc BACKSPACE ;;
        kill_line fuel
      else retM tt
  end.

Definition consoleintr (c : Z) : K unit :=
  acquire LCons ;;
  x <- get_cons id ;;
  (if c =? ctrl 80 then procdump
   else if c =? ctrl 85 then kill_line (Z.to_nat (u32 (cons_e x - cons_w x)))
   else if (c =? ctrl 72) || (c =? 127) then
     whenM (negb (cons_e x =? cons_w x))
       (put_cons (fun x => set_cons_e (u32 (cons_e x - 1)) x) ;;
        consputc BACKSPACE)
   else
     whenM (negb (c =? 0) && (u32 (cons_e x - cons_r x) <? INPUT_BUF_SIZE))
       (let c := if c =? 13 then newline else c in
        consputc c ;;
        put_cons (fun x => set_cons_buf (<[Z.to_nat (cons_e x mod INPUT_BUF_SIZE) := u8 c]> (cons_buf x)) x) ;;
        put_cons (fun x => set_cons_e (u32 (cons_e x + 1)) x) ;;
        x <- get_cons id ;;
        whenM ((c =? newline) || (c =? ctrl 68) || (u32 (cons_e x - cons_r x) =? INPUT_BUF_SIZE))
          (put_cons (fun x => set_cons_w (cons_e x) x) ;;
           wakeup (Some ChConsR)))) ;;
  release LCons.

(** [idle] is LSR_TX_IDLE, [input] the characters uartgetc() returns before its first -1. *)
Definition uartintr (idle : bool) (input : list Z) : K unit :=
  acquire LUart ;;
  whenM idle
    (putf (set_fs_txbusy 0) ;;
     wakeup (Some ChUartTx)) ;;
  release LUart ;;
  for_loop input (fun c => consoleintr c ;; retM (@Continue unit)) ;;
  retM tt.

End code.
End Console.
