(* ===== verification/Log.v ===== *)
(** * kernel/log.c: the write-ahead log

    The log's state is [fs_log].  The header block holds the int n at byte 0 and the block
    numbers behind it.  [begin_op] sleeps at most [env_patience] times. *)

From S2P Require Import Prelude Machine FsData State Locks CString VM Sched Bio Print Console.

Module Log.
Import CString VM Sched Sleeplock Bio Print Console.

Definition get_log {A} (f : logst -> A) : K A := getf (fun x => f (fs_log x)).
Definition put_log (f : logst -> logst) : K unit := putf (fun x => set_fs_log (f (fs_log x)) x).

(** hb->n, hb->block[i] in the bytes of the header block. *)
Definition head_n (d : list Z) : Z := s32 (get_u32 d 0).
Definition head_block (d : list Z) (i : nat) : Z := s32 (get_u32 d (4 + 4 * Z.of_nat i)).
Definition put_head_n (v : Z) (d : list Z) : list Z := put_u32 d 0 v.
Definition put_head_block (i : nat) (v : Z) (d : list Z) : list Z := put_u32 d (4 + 4 * Z.of_nat i) v.

(** The loops [for (i = 0; i < log.lh.n; i++)]; none of the bodies changes log.lh.n. *)
Definition entries (n : Z) : list nat := seq 0 (Z.to_nat n).

Definition log_block (i : nat) : K Z := get_log (fun l => nth i (lg_block l) 0).

Section code.
Context {env : Env}.

Definition install_trans (recovering : bool) : K unit :=
  n <- get_log lg_n ;;
  for_loop (entries n) (fun tail =>
    whenM recovering
      (dst <- log_block tail ;;
       printf (chars "recovering tail %d dst %d" ++ [newline]) [AInt (Z.of_nat tail); AInt dst]) ;;
    dev <- get_log lg_dev ;;
    start <- get_log lg_start ;;
    lbuf <- bread dev (start + Z.of_nat tail + 1) ;;
    dst <- log_block tail ;;
    dbuf <- bread dev dst ;;
    data <- get_buf lbuf b_data ;;
    put_buf dbuf (set_b_data data) ;;
    bwrite dbuf ;;
    whenM (negb recovering) (bunpin dbuf) ;;
    brelse lbuf ;;
    brelse dbuf ;;
    retM (@Continue unit)) ;;
  retM tt.

Definition read_head : K unit :=
  dev <- get_log lg_dev ;;
  start <- get_log lg_start ;;
  b <- bread dev start ;;
  data <- get_buf b b_data ;;
  put_log (set_lg_n (head_n data)) ;;
  for_loop (entries (head_n data)) (fun i =>
    put_log (fun l => set_lg_block (<[i := head_block data i]> (lg_block l)) l) ;;
    retM (@Continue unit)) ;;
  brelse b.

Definition write_head : K unit :=
  dev <- get_log lg_dev ;;
  start <- get_log lg_start ;;
  b <- bread dev start ;;
  n <- get_log lg_n ;;
  put_buf b (fun x => set_b_data (put_head_n n (b_data x)) x) ;;
  for_loop (entries n) (fun i =>
    v <- log_block i ;;
    put_buf b (fun x => set_b_data (put_head_block i v (b_data x)) x) ;;
    retM (@Continue unit)) ;;
  bwrite b ;;
  brelse b.

Definition recover_from_log : K unit :=
  read_head ;;
  install_trans true ;;
  put_log (set_lg_n 0) ;;
  write_head.

(** sizeof(struct logheader) is 124. *)
Definition initlog (dev : Z) : K unit :=
  sb <- getf fs_sb ;;
  put_log (set_lg_start (sb_logstart sb)) ;;
  put_log (set_lg_dev dev) ;;
  recover_from_log.

(** The while(1) of begin_op(). *)
Fixpoint begin_op_loop (n : nat) : K unit :=
  l <- get_log id ;;
  if negb (lg_committing l =? 0) then
    match n with O => block | S n' => sleep ChLog LLog ;; begin_op_loop n' end
  else if lg_n l + (lg_outstanding l + 1) * MAXOPBLOCKS >? LOGBLOCKS then
    match n with O => block | S n' => sleep ChLog LLog ;; begin_op_loop n' end
  else
    put_log (fun l => set_lg_outstanding (lg_outstanding l + 1) l) ;;
    release LLog.

Definition begin_op : K unit :=
  acquire LLog ;;
  begin_op_loop env_patience.

Definition write_log : K unit :=
  n <- get_log lg_n ;;
  for_loop (entries n) (fun tail =>
    dev <- get_log lg_dev ;;
    start <- get_log lg_start ;;
    to <- bread dev (start + Z.of_nat tail + 1) ;;
    src <- log_block tail ;;
    from <- bread dev src ;;
    data <- get_buf from b_data ;;
    put_buf to (set_b_data data) ;;
    bwrite to ;;
    brelse from ;;
    brelse to ;;
    retM (@Continue unit)) ;;
  retM tt.

Definition commit : K unit :=
  n <- get_log lg_n ;;
  whenM (n >? 0)
    (write_log ;;
     write_head ;;
     install_trans false ;;
     put_log (set_lg_n 0) ;;
     write_head).

Definition end_op : K unit :=
  acquire LLog ;;
  put_log (fun l => set_lg_outstanding (lg_outstanding l - 1) l) ;;
  c <- get_log lg_committing ;;
  if negb (c =? 0) then panic "log.committing" else
  o <- get_log lg_outstanding ;;
  (if o =? 0 then put_log (set_lg_committing 1) else wakeup (Some ChLog)) ;;
  release LLog ;;
  whenM (o =? 0)
    (commit ;;
     acquire LLog ;;
     put_log (set_lg_committing 0) ;;
     wakeup (Some ChLog) ;;
     release LLog).

Definition log_write (b : nat) : K unit :=
  acquire LLog ;;
  l <- get_log id ;;
  if lg_n l >=? LOGBLOCKS then panic "too big a transaction" else
  if lg_outstanding l <? 1 then panic "log_write outside of trans" else
  blockno <- get_buf b b_blockno ;;
  r <- for_loop (entries (lg_n l)) (fun i =>
    v <- log_block i ;;
    if u32 v =? blockno then retM (Return i) else retM Continue) ;;
  let i := default (Z.to_nat (lg_n l)) r in
  put_log (fun l => set_lg_block (<[i := s32 blockno]> (lg_block l)) l) ;;
  whenM (Z.of_nat i =? lg_n l)
    (bpin b ;;
     put_log (fun l => set_lg_n (lg_n l + 1) l)) ;;
  release LLog.

End code.
End Log.
