(* ===== verification/Pipe.v ===== *)
(** * kernel/pipe.c: the data of a pipe

    A struct pipe is at the start of a page of memory: its spinlock takes 24 bytes, the data
    512, and nread, nwrite, readopen and writeopen follow. *)

From S2P Require Import Prelude Machine FsData State Locks CString Kalloc VM Sched Proc Bio.

Module Pipe.
Import CString Kalloc VM Sched Proc.

Definition PIPESIZE : Z := 512.

(** Addresses of the fields. *)
Definition pi_data (pi i : Z) : Z := pi + 24 + i.
Definition pi_nread (pi : Z) : Z := pi + 536.
Definition pi_nwrite (pi : Z) : Z := pi + 540.
Definition pi_readopen (pi : Z) : Z := pi + 544.
Definition pi_writeopen (pi : Z) : Z := pi + 548.

Definition get32 (a : Z) : K Z := get_mem (fun m => load32 m a).
Definition put32 (a v : Z) : K unit := put_mem (fun m => store32 m a v).

Section code.
Context {img : Image} {env : Env}.

(** The part of pipealloc() that initialises the pipe. *)
Definition pipeinit (pi : Z) : K unit :=
  put32 (pi_readopen pi) 1 ;;
  put32 (pi_writeopen pi) 1 ;;
  put32 (pi_nwrite pi) 0 ;;
  put32 (pi_nread pi) 0.

Definition pipeclose (pi : Z) (writable : bool) : K unit :=
  acquire (LPipe pi) ;;
  (if writable then
     put32 (pi_writeopen pi) 0 ;;
     wakeup (Some (ChPipeRead pi))
   else
     put32 (pi_readopen pi) 0 ;;
     wakeup (Some (ChPipeWrite pi))) ;;
  r <- get32 (pi_readopen pi) ;;
  w <- get32 (pi_writeopen pi) ;;
  if (r =? 0) && (w =? 0) then
    release (LPipe pi) ;;
    kfree pi
  else release (LPipe pi).

(** A round of the loop writes a byte or sleeps; [fuel] bounds the rounds. *)
Fixpoint pipewrite_loop (fuel : nat) (pr : nat) (pi addr n i : Z) : K (option Z) :=
  if i <? n then
    match fuel with
    | O => block
    | S fuel =>
        ro <- get32 (pi_readopen pi) ;;
        kd <- (if ro =? 0 then retM 1 else killed pr) ;;
        if negb (kd =? 0) then
          release (LPipe pi) ;;
          retM None
        else
        nw <- get32 (pi_nwrite pi) ;;
        nr <- get32 (pi_nread pi) ;;
        if nw =? u32 (nr + PIPESIZE) then
          wakeup (Some (ChPipeRead pi)) ;;
          sleep (ChPipeWrite pi) (LPipe pi) ;;
          pipewrite_loop fuel pr pi addr n i
        else
          pt <- get_proc pr p_pagetable ;;
          '(r, ch) <- copyin pt (u64 (addr + i)) 1 ;;
          if r =? -1 then retM (Some i) else
          put32 (pi_nwrite pi) (u32 (nw + 1)) ;;
          put_mem (fun m => store8 m (pi_data pi (nw mod PIPESIZE)) (hd 0 ch)) ;;
          pipewrite_loop fuel pr pi addr n (i + 1)
    end
  else retM (Some i).

Definition pipewrite (pi addr n : Z) : K Z :=
  pr <- myproc ;;
  acquire (LPipe pi) ;;
  r <- pipewrite_loop (Z.to_nat n + env_patience) pr pi addr n 0 ;;
  match r with
  | None => retM (-1)
  | Some i =>
      wakeup (Some (ChPipeRead pi)) ;;
      release (LPipe pi) ;;
      retM i
  end.

(** Waits for data or the end of the writers; true says the process was killed. *)
Fixpoint pipe_wait (k : nat) (pr : nat) (pi : Z) : K bool :=
  nr <- get32 (pi_nread pi) ;;
  nw <- get32 (pi_nwrite pi) ;;
  wo <- get32 (pi_writeopen pi) ;;
  if (nr =? nw) && negb (wo =? 0) then
    match k with
    | O => block
    | S k =>
        kd <- killed pr ;;
        if negb (kd =? 0) then
          release (LPipe pi) ;;
          retM true
        else
          sleep (ChPipeRead pi) (LPipe pi) ;;
          pipe_wait k pr pi
    end
  else retM false.

Fixpoint piperead_loop (k : nat) (pr : nat) (pi addr i : Z) : K Z :=
  match k with
  | O => retM i
  | S k =>
      nr <- get32 (pi_nread pi) ;;
      nw <- get32 (pi_nwrite pi) ;;
      if nr =? nw then retM i else
      ch <- get_mem (fun m => load8 m (pi_data pi (nr mod PIPESIZE))) ;;
      pt <- get_proc pr p_pagetable ;;
      r <- copyout pt (u64 (addr + i)) [ch] ;;
      if r =? -1 then retM (if i =? 0 then -1 else i) else
      nr <- get32 (pi_nread pi) ;;
      put32 (pi_nread pi) (u32 (nr + 1)) ;;
      piperead_loop k pr pi addr (i + 1)
  end.

Definition piperead (pi addr n : Z) : K Z :=
  pr <- myproc ;;
  acquire (LPipe pi) ;;
  kd <- pipe_wait env_patience pr pi ;;
  if kd then retM (-1) else
  i <- piperead_loop (Z.to_nat n) pr pi addr 0 ;;
  wakeup (Some (ChPipeWrite pi)) ;;
  release (LPipe pi) ;;
  retM i.

End code.
End Pipe.
