(* ===== verification/Fs.v ===== *)
(** * kernel/fs.c: blocks, inodes, directories and path names

    A [struct inode *] is an index of the table [fs_inode]; null is [None].  On-disk structs
    are read and written in the bytes of their block: a dinode has its shorts type, major,
    minor and nlink at bytes 0, 2, 4 and 6, its size at 8 and its addresses from 12; a dirent
    has its inum at 0 and its name at 2.  A local variable of the caller as the target of
    readi() is [Local], and the bytes are part of the result; a path is the list of its
    characters before the nul. *)

From S2P Require Import Prelude Machine FsData State Locks CString VM Sched Proc Bio Print Console Log.

Module Fs.
Import CString VM Sched Proc Sleeplock Bio Print Console Log.

Definition BPB : Z := BSIZE * 8.
Definition IPB : Z := BSIZE / 64.
Definition IBLOCK (i : Z) (sb : superblock) : Z := u32 (i / IPB + sb_inodestart sb).
Definition BBLOCK (b : Z) (sb : superblock) : Z := u32 (b / BPB + sb_bmapstart sb).

(** A store to the bytes of a buffer. *)
Definition put_data (b : nat) (f : list Z -> list Z) : K unit := put_buf b (fun x => set_b_data (f (b_data x)) x).

(** Dereferencing a null pointer traps. *)
Definition deref {A} (o : option A) : K A := match o with Some a => retM a | None => panic "kerneltrap" end.

(** Where dinode [inum] is in its block, and its fields. *)
Definition dino (inum : Z) : Z := inum mod IPB * 64.
Definition dip_type (d : list Z) (o : Z) : Z := s16 (get_u16 d o).
Definition dip_major (d : list Z) (o : Z) : Z := s16 (get_u16 d (o + 2)).
Definition dip_minor (d : list Z) (o : Z) : Z := s16 (get_u16 d (o + 4)).
Definition dip_nlink (d : list Z) (o : Z) : Z := s16 (get_u16 d (o + 6)).
Definition dip_size (d : list Z) (o : Z) : Z := get_u32 d (o + 8).
Definition dip_addrs (d : list Z) (o : Z) : list Z := (fun i : nat => get_u32 d (o + 12 + 4 * Z.of_nat i)) <$> seq 0 13.

Section code.
Context {img : Image} {env : Env}.

Definition readsb (dev : Z) : K unit :=
  bp <- bread dev 1 ;;
  d <- get_buf bp b_data ;;
  putf (set_fs_sb (MkSuper (get_u32 d 0) (get_u32 d 4) (get_u32 d 8) (get_u32 d 12) (get_u32 d 16)
    (get_u32 d 20) (get_u32 d 24) (get_u32 d 28))) ;;
  brelse bp.

Definition bzero (dev bno : Z) : K unit :=
  bp <- bread dev bno ;;
  put_data bp (fun _ => replicate (Z.to_nat BSIZE) 0) ;;
  log_write bp ;;
  brelse bp.

(** The values of b in the outer loop of balloc(), and of bi in the inner one. *)
Definition bitmap_starts (size : Z) : list Z :=
  (fun i : nat => BPB * Z.of_nat i) <$> seq 0 (Z.to_nat ((size + BPB - 1) / BPB)).
Definition bitmap_bits (size b : Z) : list Z := Z.of_nat <$> seq 0 (Z.to_nat (Z.min BPB (size - b))).

Definition bit_mask (bi : Z) : Z := Z.shiftl 1 (bi mod 8).
Definition bitmap_byte (d : list Z) (bi : Z) : Z := nth (Z.to_nat (bi / 8)) d 0.
Definition set_bitmap_byte (bi v : Z) (d : list Z) : list Z := <[Z.to_nat (bi / 8) := u8 v]> d.

Definition balloc (dev : Z) : K Z :=
  sb <- getf fs_sb ;;
  r <- for_loop (bitmap_starts (sb_size sb)) (fun b =>
    bp <- bread dev (BBLOCK b sb) ;;
    r <- for_loop (bitmap_bits (sb_size sb) b) (fun bi =>
      d <- get_buf bp b_data ;;
      let m := bit_mask bi in
      if Z.land (bitmap_byte d bi) m =? 0 then
        put_data bp (set_bitmap_byte bi (Z.lor (bitmap_byte d bi) m)) ;;
        log_write bp ;;
        brelse bp ;;
        bzero dev (b + bi) ;;
        retM (Return (b + bi))
      else retM Continue) ;;
    match r with
    | Some v => retM (Return v)
    | None => brelse bp ;; retM Continue
    end) ;;
  match r with
  | Some b => retM b
  | None =>
      printf (chars "balloc: out of blocks" ++ [newline]) [] ;;
      retM 0
  end.

Definition bfree (dev b : Z) : K unit :=
  sb <- getf fs_sb ;;
  bp <- bread dev (BBLOCK b sb) ;;
  d <- get_buf bp b_data ;;
  let bi := b mod BPB in
  let m := bit_mask bi in
  if Z.land (bitmap_byte d bi) m =? 0 then panic "freeing free block" else
  put_data bp (set_bitmap_byte bi (Z.land (bitmap_byte d bi) (Z.lnot m))) ;;
  log_write bp ;;
  brelse bp.

Definition iinit : K unit :=
  for_loop (seq 0 NINODE) (fun i => initsleeplock (SInode i) ;; retM (@Continue unit)) ;;
  retM tt.

(** The local variable is [empty]. *)
Definition iget (dev inum : Z) : K nat :=
  acquire LItable ;;
  '(empty, r) <- for_acc (seq 0 NINODE) None (fun i (empty : option nat) =>
    ip <- get_inode i id ;;
    if (i_ref ip >? 0) && (i_dev ip =? dev) && (i_inum ip =? inum) then
      put_inode i (fun x => set_i_ref (s32 (i_ref x + 1)) x) ;;
      release LItable ;;
      retM (empty, Return i)
    else retM (match empty with
               | None => if i_ref ip =? 0 then Some i else None
               | Some _ => empty
               end, Continue)) ;;
  match r with
  | Some i => retM i
  | None =>
      match empty with
      | None => panic "iget: no inodes"
      | Some i =>
          put_inode i (set_i_dev dev) ;;
          put_inode i (set_i_inum inum) ;;
          put_inode i (set_i_ref 1) ;;
          put_inode i (set_i_valid 0) ;;
          release LItable ;;
          retM i
      end
  end.

(** The inode numbers from 1. *)
Definition inums (ninodes : Z) : list Z := (fun i : nat => Z.of_nat i + 1) <$> seq 0 (Z.to_nat (ninodes - 1)).

Definition ialloc (dev type : Z) : K (option nat) :=
  sb <- getf fs_sb ;;
  r <- for_loop (inums (sb_ninodes sb)) (fun inum =>
    bp <- bread dev (IBLOCK inum sb) ;;
    d <- get_buf bp b_data ;;
    if dip_type d (dino inum) =? 0 then
      put_data bp (fun d => put_bytes d (dino inum) (replicate 64 0)) ;;
      put_data bp (fun d => put_u16 d (dino inum) type) ;;
      log_write bp ;;
      brelse bp ;;
      i <- iget dev inum ;;
      retM (Return i)
    else
      brelse bp ;;
      retM Continue) ;;
  match r with
  | Some ip => retM (Some ip)
  | None =>
      printf (chars "ialloc: no inodes" ++ [newline]) [] ;;
      retM None
  end.

(** Storing the addresses behind the other fields. *)
Definition put_addrs (o : Z) (addrs : list Z) (d : list Z) : list Z :=
  put_bytes d (o + 12) (concat (le_split 4 <$> addrs)).

Definition iupdate (ip : nat) : K unit :=
  x <- get_inode ip id ;;
  sb <- getf fs_sb ;;
  bp <- bread (i_dev x) (IBLOCK (i_inum x) sb) ;;
  x <- get_inode ip id ;;
  let o := dino (i_inum x) in
  put_data bp (fun d => put_u16 d o (i_type x)) ;;
  put_data bp (fun d => put_u16 d (o + 2) (i_major x)) ;;
  put_data bp (fun d => put_u16 d (o + 4) (i_minor x)) ;;
  put_data bp (fun d => put_u16 d (o + 6) (i_nlink x)) ;;
  put_data bp (fun d => put_u32 d (o + 8) (i_size x)) ;;
  put_data bp (put_addrs o (i_addrs x)) ;;
  log_write bp ;;
  brelse bp.

Definition idup (ip : nat) : K nat :=
  acquire LItable ;;
  put_inode ip (fun x => set_i_ref (s32 (i_ref x + 1)) x) ;;
  release LItable ;;
  retM ip.

Definition ilock (ip : nat) : K unit :=
  r <- get_inode ip i_ref ;;
  if r <? 1 then panic "ilock" else
  acquiresleep (SInode ip) ;;
  x <- get_inode ip id ;;
  whenM (i_valid x =? 0)
    (sb <- getf fs_sb ;;
     bp <- bread (i_dev x) (IBLOCK (i_inum x) sb) ;;
     d <- get_buf bp b_data ;;
     inum <- get_inode ip i_inum ;;
     let o := dino inum in
     put_inode ip (set_i_type (dip_type d o)) ;;
     put_inode ip (set_i_major (dip_major d o)) ;;
     put_inode ip (set_i_minor (dip_minor d o)) ;;
     put_inode ip (set_i_nlink (dip_nlink d o)) ;;
     put_inode ip (set_i_size (dip_size d o)) ;;
     put_inode ip (set_i_addrs (dip_addrs d o)) ;;
     brelse bp ;;
     put_inode ip (set_i_valid 1) ;;
     t <- get_inode ip i_type ;;
     if t =? 0 then panic "ilock: no type" else retM tt).

Definition iunlock (ip : nat) : K unit :=
  h <- holdingsleep (SInode ip) ;;
  r <- get_inode ip i_ref ;;
  if negb h || (r <? 1) then panic "iunlock" else
  releasesleep (SInode ip).

(** ip->addrs[i] *)
Definition get_addr (ip : nat) (i : Z) : K Z := get_inode ip (fun x => nth (Z.to_nat i) (i_addrs x) 0).
Definition put_addr (ip : nat) (i v : Z) : K unit :=
  put_inode ip (fun x => set_i_addrs (<[Z.to_nat i := v]> (i_addrs x)) x).

Definition bmap (ip : nat) (bn : Z) : K Z :=
  if bn <? NDIRECT then
    addr <- get_addr ip bn ;;
    if negb (addr =? 0) then retM addr else
    dev <- get_inode ip i_dev ;;
    addr <- balloc dev ;;
    if addr =? 0 then retM 0 else
    put_addr ip bn addr ;;
    retM addr
  else
  let bn := bn - NDIRECT in
  if bn <? NINDIRECT then
    addr <- get_addr ip NDIRECT ;;
    addr <- (if negb (addr =? 0) then retM addr else
             dev <- get_inode ip i_dev ;;
             a <- balloc dev ;;
             whenM (negb (a =? 0)) (put_addr ip NDIRECT a) ;;
             retM a) ;;
    if addr =? 0 then retM 0 else
    dev <- get_inode ip i_dev ;;
    bp <- bread dev addr ;;
    d <- get_buf bp b_data ;;
    let a := get_u32 d (4 * bn) in
    a <- (if negb (a =? 0) then retM a else
          dev <- get_inode ip i_dev ;;
          a' <- balloc dev ;;
          whenM (negb (a' =? 0))
            (put_data bp (fun d => put_u32 d (4 * bn) a') ;;
             log_write bp) ;;
          retM a') ;;
    brelse bp ;;
    retM a
  else panic "bmap: out of range".

(** bfree() of a block of the inode's device. *)
Definition bfree_of (ip : nat) (a : Z) : K unit := dev <- get_inode ip i_dev ;; bfree dev a.

Definition itrunc (ip : nat) : K unit :=
  for_loop (Z.of_nat <$> seq 0 (Z.to_nat NDIRECT)) (fun i =>
    a <- get_addr ip i ;;
    whenM (negb (a =? 0))
      (bfree_of ip a ;;
       put_addr ip i 0) ;;
    retM (@Continue unit)) ;;
  ind <- get_addr ip NDIRECT ;;
  whenM (negb (ind =? 0))
    (dev <- get_inode ip i_dev ;;
     bp <- bread dev ind ;;
     for_loop (Z.of_nat <$> seq 0 (Z.to_nat NINDIRECT)) (fun j =>
       d <- get_buf bp b_data ;;
       let a := get_u32 d (4 * j) in
       whenM (negb (a =? 0)) (bfree_of ip a) ;;
       retM (@Continue unit)) ;;
     brelse bp ;;
     ind <- get_addr ip NDIRECT ;;
     bfree_of ip ind ;;
     put_addr ip NDIRECT 0) ;;
  put_inode ip (set_i_size 0) ;;
  iupdate ip.

Definition iput (ip : nat) : K unit :=
  acquire LItable ;;
  x <- get_inode ip id ;;
  whenM ((i_ref x =? 1) && negb (i_valid x =? 0) && (i_nlink x =? 0))
    (acquiresleep (SInode ip) ;;
     release LItable ;;
     itrunc ip ;;
     put_inode ip (set_i_type 0) ;;
     iupdate ip ;;
     put_inode ip (set_i_valid 0) ;;
     releasesleep (SInode ip) ;;
     acquire LItable) ;;
  put_inode ip (fun x => set_i_ref (s32 (i_ref x - 1)) x) ;;
  release LItable.

Definition iunlockput (ip : nat) : K unit :=
  iunlock ip ;;
  iput ip.

Definition ireclaim (dev : Z) : K unit :=
  sb <- getf fs_sb ;;
  for_loop (inums (sb_ninodes sb)) (fun inum =>
    bp <- bread dev (IBLOCK inum sb) ;;
    d <- get_buf bp b_data ;;
    ip <- (if negb (dip_type d (dino inum) =? 0) && (dip_nlink d (dino inum) =? 0)
           then
             printf (chars "ireclaim: orphaned inode %d" ++ [newline]) [AInt inum] ;;
             i <- iget dev inum ;;
             retM (Some i)
           else retM None) ;;
    brelse bp ;;
    match ip with
    | Some ip =>
        begin_op ;;
        ilock ip ;;
        iunlock ip ;;
        iput ip ;;
        end_op
    | None => retM tt
    end ;;
    retM (@Continue unit)) ;;
  retM tt.

Definition fsinit (dev : Z) : K unit :=
  readsb dev ;;
  sb <- getf fs_sb ;;
  if negb (sb_magic sb =? FSMAGIC) then panic "invalid file system" else
  initlog dev ;;
  ireclaim dev.

(** ** Inode content *)

(** The fields of struct stat, and its bytes: four of them, between nlink and size, are not
    part of a field. *)
Record stat := MkStat { st_dev : Z; st_ino : Z; st_type : Z; st_nlink : Z; st_size : Z }.

Definition stat_bytes (st : stat) (pad : list Z) : list Z :=
  le_split 4 (st_dev st) ++ le_split 4 (st_ino st) ++ le_split 2 (st_type st) ++ le_split 2 (st_nlink st)
  ++ take 4 (pad ++ replicate 4 0) ++ le_split 8 (st_size st).

Definition stati (ip : nat) : K stat :=
  x <- get_inode ip id ;;
  retM (MkStat (s32 (i_dev x)) (i_inum x) (i_type x) (i_nlink x) (i_size x)).

(** Where readi() copies to, and where writei() copies from. *)
Inductive target : Type := ToUser (va : Z) | ToKernel (pa : Z) | ToLocal.
Inductive source : Type := FromUser (va : Z) | FromKernel (pa : Z) | FromLocal (bs : list Z).

Definition copy_to (t : target) (k : Z) (bs : list Z) : K Z :=
  match t with
  | ToUser va => either_copyout true (u64 (va + k)) bs
  | ToKernel pa => either_copyout false (u64 (pa + k)) bs
  | ToLocal => retM 0
  end.

Definition copy_from (t : source) (k len : Z) : K (Z * list Z) :=
  match t with
  | FromUser va => either_copyin true (u64 (va + k)) len
  | FromKernel pa => either_copyin false (u64 (pa + k)) len
  | FromLocal bs => retM (0, take (Z.to_nat len) (drop (Z.to_nat k) bs))
  end.

(** The bytes of a block from [off % BSIZE]. *)
Definition block_part (d : list Z) (off m : Z) : list Z := take (Z.to_nat m) (drop (Z.to_nat (off mod BSIZE)) d).
Definition chunk (n tot off : Z) : Z := Z.min (n - tot) (BSIZE - off mod BSIZE).

(** One round of a loop moves to the next block or ends it, so [n / BSIZE + 3] rounds are
    enough; [out] is what happens when a loop is out of rounds. *)
Definition rounds (n : Z) : nat := Z.to_nat (n / BSIZE) + 3.

Fixpoint readi_loop (out : K (Z * list Z)) (fuel : nat) (ip : nat) (t : target) (n tot off : Z) (got : list Z) : K (Z * list Z) :=
  match fuel with
  | O => out
  | S fuel =>
      if tot <? n then
        addr <- bmap ip (off / BSIZE) ;;
        if addr =? 0 then retM (tot, got) else
        dev <- get_inode ip i_dev ;;
        bp <- bread dev addr ;;
        d <- get_buf bp b_data ;;
        let m := chunk n tot off in
        r <- copy_to t tot (block_part d off m) ;;
        if r =? -1 then
          brelse bp ;;
          retM (-1, got)
        else
          brelse bp ;;
          readi_loop out fuel ip t n (tot + m) (off + m) (got ++ block_part d off m)
      else retM (tot, got)
  end.

Definition readi (ip : nat) (t : target) (off n : Z) : K (Z * list Z) :=
  let off := u32 off in
  let n := u32 n in
  size <- get_inode ip i_size ;;
  if (off >? size) || (u32 (off + n) <? off) then retM (0, []) else
  let n := if off + n >? size then size - off else n in
  readi_loop block (rounds n) ip t n 0 off [].

(** The result is [tot] and [off]. *)
Fixpoint writei_loop (out : K (Z * Z)) (fuel : nat) (ip : nat) (t : source) (n tot off : Z) : K (Z * Z) :=
  match fuel with
  | O => out
  | S fuel =>
      if tot <? n then
        addr <- bmap ip (off / BSIZE) ;;
        if addr =? 0 then retM (tot, off) else
        dev <- get_inode ip i_dev ;;
        bp <- bread dev addr ;;
        let m := chunk n tot off in
        '(r, bs) <- copy_from t tot m ;;
        put_data bp (fun d => put_bytes d (off mod BSIZE) bs) ;;
        if r =? -1 then
          brelse bp ;;
          retM (tot, off)
        else
          log_write bp ;;
          brelse bp ;;
          writei_loop out fuel ip t n (tot + m) (off + m)
      else retM (tot, off)
  end.

Definition writei (ip : nat) (t : source) (off n : Z) : K Z :=
  let off := u32 off in
  let n := u32 n in
  size <- get_inode ip i_size ;;
  if (off >? size) || (u32 (off + n) <? off) then retM (-1) else
  if off + n >? MAXFILE * BSIZE then retM (-1) else
  '(tot, off) <- writei_loop block (rounds n) ip t n 0 off ;;
  size <- get_inode ip i_size ;;
  whenM (off >? size) (put_inode ip (set_i_size off)) ;;
  iupdate ip ;;
  retM tot.

(** ** Directories *)

(** strncmp() and strncpy() on a name in a local array; past the list it holds a nul. *)
Fixpoint strncmp_bytes (p q : list Z) (n : nat) : Z :=
  match n with
  | O => 0
  | S n =>
      let a := hd 0 p in
      let b := hd 0 q in
      if negb (a =? 0) && (a =? b) then strncmp_bytes (tl p) (tl q) n else a - b
  end.

Definition namecmp (s t : list Z) : Z := strncmp_bytes s t (Z.to_nat DIRSIZ).

Fixpoint strncpy_bytes (t : list Z) (n : nat) : list Z :=
  match n with
  | O => []
  | S n => let c := hd 0 t in c :: (if c =? 0 then replicate n 0 else strncpy_bytes (tl t) n)
  end.

Definition de_inum (de : list Z) : Z := get_u16 de 0.
Definition de_name (de : list Z) : list Z := take 14 (drop 2 de).
Definition dirent_bytes (inum : Z) (name : list Z) : list Z := le_split 2 inum ++ name.

(** The offsets of the entries. *)
Definition dirent_offs (size : Z) : list Z := (fun i : nat => 16 * Z.of_nat i) <$> seq 0 (Z.to_nat ((size + 15) / 16)).

(** The inode, and *poff. *)
Definition dirlookup (dp : nat) (name : list Z) : K (option (nat * Z)) :=
  x <- get_inode dp id ;;
  if negb (i_type x =? T_DIR) then panic "dirlookup not DIR" else
  for_loop (dirent_offs (i_size x)) (fun off =>
    '(r, de) <- readi dp ToLocal off 16 ;;
    if negb (r =? 16) then panic "dirlookup read" else
    if de_inum de =? 0 then retM Continue else
    if namecmp name (de_name de) =? 0 then
      dev <- get_inode dp i_dev ;;
      i <- iget dev (de_inum de) ;;
      retM (Return (i, off))
    else retM Continue).

Definition dirlink (dp : nat) (name : list Z) (inum : Z) : K Z :=
  r <- dirlookup dp name ;;
  match r with
  | Some (ip, _) => iput ip ;; retM (-1)
  | None =>
      size <- get_inode dp i_size ;;
      o <- for_loop (dirent_offs size) (fun off =>
        '(r, de) <- readi dp ToLocal off 16 ;;
        if negb (r =? 16) then panic "dirlink read" else
        if de_inum de =? 0 then retM (Return off) else retM Continue) ;;
      let off := default (16 * ((size + 15) / 16)) o in
      r <- writei dp (FromLocal (dirent_bytes inum (strncpy_bytes name 14))) off 16 ;;
      if negb (r =? 16) then retM (-1) else retM 0
  end.

(** ** Paths *)

Definition slash : Z := 47.

Fixpoint skip_slashes (path : list Z) : list Z :=
  match path with
  | c :: rest => if c =? slash then skip_slashes rest else path
  | [] => []
  end.

(** The characters up to the next slash, and the rest. *)
Fixpoint path_elem (path : list Z) : list Z * list Z :=
  match path with
  | c :: rest => if c =? slash then ([], path) else let '(e, r) := path_elem rest in (c :: e, r)
  | [] => ([], [])
  end.

(** The name, and the path returned. *)
Definition skipelem (path : list Z) : option (list Z * list Z) :=
  match skip_slashes path with
  | [] => None
  | p => let '(e, r) := path_elem p in Some (take (Z.to_nat DIRSIZ) e, skip_slashes r)
  end.

(** An element has a character at least, so the path's length bounds the rounds. *)
Fixpoint namex_loop (out : K (option (nat * list Z))) (fuel : nat) (ip : nat) (path : list Z) (nameiparent : bool)
    : K (option (nat * list Z)) :=
  match fuel with
  | O => out
  | S fuel =>
      match skipelem path with
      | None =>
          if nameiparent then
            iput ip ;;
            retM None
          else retM (Some (ip, []))
      | Some (name, path) =>
          ilock ip ;;
          t <- get_inode ip i_type ;;
          if negb (t =? T_DIR) then
            iunlockput ip ;;
            retM None
          else if nameiparent && bool_decide (path = []) then
            iunlock ip ;;
            retM (Some (ip, name))
          else
          next <- dirlookup ip name ;;
          match next with
          | None => iunlockput ip ;; retM None
          | Some (next, _) =>
              iunlockput ip ;;
              namex_loop out fuel next path nameiparent
          end
      end
  end.

(** The inode, and for nameiparent() the last element. *)
Definition namex (path : list Z) (nameiparent : bool) : K (option (nat * list Z)) :=
  ip <- (if hd 0 path =? slash then iget ROOTDEV ROOTINO else
         p <- myproc ;;
         cwd <- get_proc p p_cwd ;;
         cwd <- deref cwd ;;
         idup cwd) ;;
  namex_loop block (S (length path)) ip path nameiparent.

Definition namei (path : list Z) : K (option nat) :=
  r <- namex path false ;;
  retM (fst <$> r).

Definition nameiparent (path : list Z) : K (option (nat * list Z)) := namex path true.

End code.
End Fs.
