(* ===== verification/File.v ===== *)
(** * kernel/file.c: open files, and the allocation of a pipe

    A [struct file *] is an index of the table [fs_file].  The only driver in [devsw] is the
    console's, connected by consoleinit(). *)

From S2P Require Import Prelude Machine FsData State Locks Kalloc VM Sched Proc Bio Log Fs Print Console Pipe.

Module File.
Import Kalloc VM Sched Proc Sleeplock Bio Log Fs Console Pipe.

Definition the_file (i : nat) (s : kstate) : file := default file0 (fs_file (k_fs s) !! i).
Definition get_file {A} (i : nat) (f : file -> A) : K A := gets (fun s => f (the_file i s)).
Definition put_file (i : nat) (f : file -> file) : K unit :=
  putf (fun x => set_fs_file (alter f i (fs_file x)) x).

Section code.
Context {img : Image} {env : Env}.

Definition filealloc : K (option nat) :=
  acquire LFtable ;;
  r <- for_loop (seq 0 NFILE) (fun f =>
    ref <- get_file f f_ref ;;
    if ref =? 0 then
      put_file f (set_f_ref 1) ;;
      release LFtable ;;
      retM (Return f)
    else retM Continue) ;;
  match r with
  | Some f => retM (Some f)
  | None =>
      release LFtable ;;
      retM None
  end.

Definition filedup (f : nat) : K nat :=
  acquire LFtable ;;
  ref <- get_file f f_ref ;;
  if ref <? 1 then panic "filedup" else
  put_file f (fun x => set_f_ref (s32 (f_ref x + 1)) x) ;;
  release LFtable ;;
  retM f.

Definition fileclose (f : nat) : K unit :=
  acquire LFtable ;;
  ref <- get_file f f_ref ;;
  if ref <? 1 then panic "fileclose" else
  put_file f (fun x => set_f_ref (f_ref x - 1) x) ;;
  ref <- get_file f f_ref ;;
  if ref >? 0 then release LFtable else
  ff <- get_file f id ;;
  put_file f (set_f_ref 0) ;;
  put_file f (set_f_type FD_NONE) ;;
  release LFtable ;;
  match f_type ff with
  | FD_PIPE => pipeclose (f_pipe ff) (negb (f_writable ff =? 0))
  | FD_INODE | FD_DEVICE =>
      begin_op ;;
      ip <- deref (f_ip ff) ;;
      iput ip ;;
      end_op
  | FD_NONE => retM tt
  end.

(** An optional file to close, at the label [bad] of pipealloc(). *)
Definition close_opt (f : option nat) : K unit := match f with Some f => fileclose f | None => retM tt end.

(** The two files, or none for the result -1. *)
Definition pipealloc : K (option (nat * nat)) :=
  f0 <- filealloc ;;
  match f0 with
  | None => retM None
  | Some a =>
      f1 <- filealloc ;;
      match f1 with
      | None => close_opt f0 ;; retM None
      | Some b =>
          pi <- kalloc ;;
          if pi =? 0 then
            close_opt f0 ;;
            close_opt f1 ;;
            retM None
          else
            pipeinit pi ;;
            put_file a (set_f_type FD_PIPE) ;;
            put_file a (set_f_readable 1) ;;
            put_file a (set_f_writable 0) ;;
            put_file a (set_f_pipe pi) ;;
            put_file b (set_f_type FD_PIPE) ;;
            put_file b (set_f_readable 0) ;;
            put_file b (set_f_writable 1) ;;
            put_file b (set_f_pipe pi) ;;
            retM (Some (a, b))
      end
  end.

Definition filestat (f : nat) (addr : Z) : K Z :=
  p <- myproc ;;
  x <- get_file f id ;;
  match f_type x with
  | FD_INODE | FD_DEVICE =>
      ip <- deref (f_ip x) ;;
      ilock ip ;;
      st <- stati ip ;;
      iunlock ip ;;
      pt <- get_proc p p_pagetable ;;
      r <- copyout pt addr (stat_bytes st (take 4 (drop 12 env_junk))) ;;
      retM (if r <? 0 then -1 else 0)
  | _ => retM (-1)
  end.

(** Whether [devsw[major]] has a driver. *)
Definition no_device (major : Z) : bool := (major <? 0) || (major >=? NDEV) || negb (major =? CONSOLE).

Definition fileread (f : nat) (addr n : Z) : K Z :=
  x <- get_file f id ;;
  if f_readable x =? 0 then retM (-1) else
  match f_type x with
  | FD_PIPE => piperead (f_pipe x) addr n
  | FD_DEVICE =>
      if no_device (f_major x) then retM (-1) else
      consoleread true addr n
  | FD_INODE =>
      ip <- deref (f_ip x) ;;
      ilock ip ;;
      off <- get_file f f_off ;;
      '(r, _) <- readi ip (ToUser addr) off n ;;
      whenM (r >? 0) (put_file f (fun x => set_f_off (u32 (f_off x + r)) x)) ;;
      iunlock ip ;;
      retM r
  | FD_NONE => panic "fileread"
  end.

(** The size of one transaction of filewrite(). *)
Definition write_max : Z := (MAXOPBLOCKS - 1 - 1 - 2) / 2 * BSIZE.

(** The result is [i]. *)
Fixpoint filewrite_loop (fuel : nat) (f ip : nat) (addr n i : Z) : K Z :=
  match fuel with
  | O => block
  | S fuel =>
      if i <? n then
        let n1 := Z.min write_max (n - i) in
        begin_op ;;
        ilock ip ;;
        off <- get_file f f_off ;;
        r <- writei ip (FromUser (u64 (addr + i))) off n1 ;;
        whenM (r >? 0) (put_file f (fun x => set_f_off (u32 (f_off x + r)) x)) ;;
        iunlock ip ;;
        end_op ;;
        if negb (r =? n1) then retM i else
        filewrite_loop fuel f ip addr n (i + r)
      else retM i
  end.

Definition filewrite (f : nat) (addr n : Z) : K Z :=
  x <- get_file f id ;;
  if f_writable x =? 0 then retM (-1) else
  match f_type x with
  | FD_PIPE => pipewrite (f_pipe x) addr n
  | FD_DEVICE =>
      if no_device (f_major x) then retM (-1) else
      consolewrite true addr n
  | FD_INODE =>
      ip <- deref (f_ip x) ;;
      i <- filewrite_loop (Z.to_nat (n / write_max) + 2) f ip addr n 0 ;;
      retM (if i =? n then n else -1)
  | FD_NONE => panic "filewrite"
  end.

End code.
End File.
