(* ===== verification/Fork.v ===== *)
(** * kernel/proc.c: fork and exit, the part of a process's life that touches the file system *)

From S2P Require Import Prelude Machine FsData State Locks CString Kalloc VM Sched Proc Bio Log Fs Console Pipe File.

Module Fork.
Import CString Kalloc VM Sched Proc Log Fs File.

Section code.
Context {img : Image} {env : Env}.

(** p->ofile[fd] *)
Definition get_ofile (p fd : nat) : K (option nat) := get_proc p (fun q => default None (p_ofile q !! fd)).
Definition put_ofile (p fd : nat) (f : option nat) : K unit :=
  put_proc p (fun q => set_p_ofile (<[fd := f]> (p_ofile q)) q).

Definition fds : list nat := seq 0 NOFILE.

Definition userinit : K unit :=
  p <- allocproc ;;
  modify (set_k_initproc p) ;;
  p <- deref p ;;
  cwd <- namei [slash] ;;
  put_proc p (set_p_cwd cwd) ;;
  put_proc p (set_p_state RUNNABLE) ;;
  release (LProc p).

Definition kfork : K Z :=
  p <- myproc ;;
  np <- allocproc ;;
  match np with
  | None => retM (-1)
  | Some np =>
      q <- get_proc p id ;;
      npt <- get_proc np p_pagetable ;;
      r <- uvmcopy (p_pagetable q) npt (p_sz q) ;;
      if r <? 0 then
        freeproc np ;;
        release (LProc np) ;;
        retM (-1)
      else
      put_proc np (set_p_sz (p_sz q)) ;;
      ntf <- get_proc np p_trapframe ;;
      put_mem (fun m => memmove m ntf (p_trapframe q) TF_size) ;;
      put_mem (fun m => store64 m (ntf + TF_a0) 0) ;;
      for_loop fds (fun i =>
        f <- get_ofile p i ;;
        match f with
        | Some f =>
            f' <- filedup f ;;
            put_ofile np i (Some f') ;;
            retM (@Continue unit)
        | None => retM Continue
        end) ;;
      cwd <- get_proc p p_cwd ;;
      cwd <- deref cwd ;;
      cwd <- idup cwd ;;
      put_proc np (set_p_cwd (Some cwd)) ;;
      put_proc np (fun x => set_p_name (safestrcpy_bytes (p_name x) (p_name q) 15) x) ;;
      pid <- get_proc np p_pid ;;
      release (LProc np) ;;
      acquire LWait ;;
      put_proc np (set_p_parent (Some p)) ;;
      release LWait ;;
      acquire (LProc np) ;;
      put_proc np (set_p_state RUNNABLE) ;;
      release (LProc np) ;;
      retM pid
  end.

(** Does not return: the scheduler never resumes a zombie. *)
Definition kexit (status : Z) : K Z :=
  p <- myproc ;;
  init <- gets k_initproc ;;
  if decide (Some p = init) then panic "init exiting" else
  for_loop fds (fun fd =>
    f <- get_ofile p fd ;;
    match f with
    | Some f =>
        fileclose f ;;
        put_ofile p fd None ;;
        retM (@Continue unit)
    | None => retM Continue
    end) ;;
  begin_op ;;
  cwd <- get_proc p p_cwd ;;
  cwd <- deref cwd ;;
  iput cwd ;;
  end_op ;;
  put_proc p (set_p_cwd None) ;;
  acquire LWait ;;
  reparent p ;;
  par <- get_proc p p_parent ;;
  wakeup (ChProc <$> par) ;;
  acquire (LProc p) ;;
  put_proc p (set_p_xstate status) ;;
  put_proc p (set_p_state ZOMBIE) ;;
  release LWait ;;
  sched ;;
  panic "zombie exit".

End code.
End Fork.
