(* ===== verification/Exec.v ===== *)
(** * kernel/exec.c

    The strings of argv are given by their characters.  The headers of an ELF file are read
    into local variables: a field of [struct elfhdr] or [struct proghdr] is read at its
    offset. *)

From S2P Require Import Prelude Machine FsData State Locks CString VM Sched Proc Bio Log Fs.

Module Exec.
Import CString VM Sched Proc Bio Log Fs.

Definition ELF_MAGIC : Z := 0x464C457F.
Definition ELF_PROG_LOAD : Z := 1.

Definition get_u64 (d : list Z) (o : Z) : Z := le_combine (get_bytes d o 8).

Definition elfhdr_size : Z := 64.
Definition elf_magic (d : list Z) : Z := get_u32 d 0.
Definition elf_entry (d : list Z) : Z := get_u64 d 24.
Definition elf_phoff (d : list Z) : Z := get_u64 d 32.
Definition elf_phnum (d : list Z) : Z := get_u16 d 56.

Definition proghdr_size : Z := 56.
Definition ph_type (d : list Z) : Z := get_u32 d 0.
Definition ph_flags (d : list Z) : Z := get_u32 d 4.
Definition ph_off (d : list Z) : Z := get_u64 d 8.
Definition ph_vaddr (d : list Z) : Z := get_u64 d 16.
Definition ph_filesz (d : list Z) : Z := get_u64 d 32.
Definition ph_memsz (d : list Z) : Z := get_u64 d 40.

Definition flags2perm (flags : Z) : Z :=
  let perm := if has flags 1 then PTE_X else 0 in
  if has flags 2 then Z.lor perm PTE_W else perm.

Section code.
Context {img : Image} {env : Env}.

(** The offsets of the pages of a segment. *)
Definition seg_pages (sz : Z) : list Z :=
  (fun i : nat => PGSIZE * Z.of_nat i) <$> seq 0 (Z.to_nat ((sz + PGSIZE - 1) / PGSIZE)).

Definition loadseg (pagetable va : Z) (ip : nat) (offset sz : Z) : K Z :=
  let offset := u32 offset in
  let sz := u32 sz in
  r <- for_loop (seg_pages sz) (fun i =>
    pa <- walkaddr pagetable (u64 (va + i)) ;;
    if pa =? 0 then panic "loadseg: address should exist" else
    let n := if sz - i <? PGSIZE then sz - i else PGSIZE in
    '(r, _) <- readi ip (ToKernel pa) (u32 (offset + i)) n ;;
    if negb (r =? n) then retM (Return (-1)) else retM Continue) ;;
  retM (default 0 r).

(** The body of the loop over the program headers, at file offset [off]; [Return] is
    [goto bad]. *)
Definition load_ph (pagetable : Z) (ip : nat) (off sz : Z) : K (Z * ctl unit) :=
  '(r, ph) <- readi ip ToLocal off proghdr_size ;;
  if negb (r =? proghdr_size) then retM (sz, Return tt) else
  if negb (ph_type ph =? ELF_PROG_LOAD) then retM (sz, Continue) else
  if ph_memsz ph <? ph_filesz ph then retM (sz, Return tt) else
  if u64 (ph_vaddr ph + ph_memsz ph) <? ph_vaddr ph then retM (sz, Return tt) else
  if negb (ph_vaddr ph mod PGSIZE =? 0) then retM (sz, Return tt) else
  sz1 <- uvmalloc pagetable sz (u64 (ph_vaddr ph + ph_memsz ph)) (flags2perm (ph_flags ph)) ;;
  if sz1 =? 0 then retM (sz, Return tt) else
  r <- loadseg pagetable (ph_vaddr ph) ip (ph_off ph) (ph_filesz ph) ;;
  if r <? 0 then retM (sz1, Return tt) else retM (sz1, Continue).

(** The file offsets of the program headers; [off] is an int. *)
Definition ph_offsets (elf : list Z) : list Z :=
  (fun i : nat => s32 (elf_phoff elf + proghdr_size * Z.of_nat i)) <$> seq 0 (Z.to_nat (elf_phnum elf)).

(** The loop that pushes the argument strings; the local variables are [sp] and [ustack]. *)
Definition push_args (pagetable stackbase : Z) (argv : list (list Z)) (sp : Z) : K ((Z * list Z) * option unit) :=
  for_acc argv (sp, []) (fun a '(sp, ustack) =>
    if Z.of_nat (length ustack) >=? MAXARG then retM ((sp, ustack), Return tt) else
    let sp := u64 (sp - (Z.of_nat (length a) + 1)) in
    let sp := sp - sp mod 16 in
    if sp <? stackbase then retM ((sp, ustack), Return tt) else
    r <- copyout pagetable sp (a ++ [0]) ;;
    if r <? 0 then retM ((sp, ustack), Return tt) else
    retM ((sp, ustack ++ [sp]), Continue)).

(** The last element of a path. *)
Fixpoint last_elem (last s : list Z) : list Z :=
  match s with
  | [] => last
  | c :: rest => if c =? slash then last_elem rest rest else last_elem last rest
  end.

(** The label [bad]. *)
Definition exec_bad (pagetable sz : Z) (ip : option nat) : K Z :=
  whenM (negb (pagetable =? 0)) (proc_freepagetable pagetable sz) ;;
  match ip with
  | Some ip => iunlockput ip ;; end_op
  | None => retM tt
  end ;;
  retM (-1).

(** kexec() from the allocation of the stack. *)
Definition exec_stack (path : list Z) (argv : list (list Z)) (elf : list Z) (pagetable sz : Z) : K Z :=
  p <- myproc ;;
  oldsz <- get_proc p p_sz ;;
  let sz := PGROUNDUP sz in
  sz1 <- uvmalloc pagetable sz (u64 (sz + (USERSTACK + 1) * PGSIZE)) PTE_W ;;
  if sz1 =? 0 then exec_bad pagetable sz None else
  let sz := sz1 in
  uvmclear pagetable (u64 (sz - (USERSTACK + 1) * PGSIZE)) ;;
  let stackbase := u64 (sz - USERSTACK * PGSIZE) in
  '((sp, ustack), r) <- push_args pagetable stackbase argv sz ;;
  match r with
  | Some _ => exec_bad pagetable sz None
  | None =>
      let argc := Z.of_nat (length ustack) in
      let sp := u64 (sp - (argc + 1) * 8) in
      let sp := sp - sp mod 16 in
      if sp <? stackbase then exec_bad pagetable sz None else
      r <- copyout pagetable sp (concat (u64_bytes <$> (ustack ++ [0]))) ;;
      if r <? 0 then exec_bad pagetable sz None else
      tf <- get_proc p p_trapframe ;;
      put_mem (fun m => store64 m (tf + TF_a1) sp) ;;
      put_proc p (fun q => set_p_name (safestrcpy_bytes (p_name q) (last_elem path path ++ [0]) 15) q) ;;
      oldpagetable <- get_proc p p_pagetable ;;
      put_proc p (set_p_pagetable pagetable) ;;
      put_proc p (set_p_sz sz) ;;
      put_mem (fun m => store64 m (tf + TF_epc) (elf_entry elf)) ;;
      put_mem (fun m => store64 m (tf + TF_sp) sp) ;;
      proc_freepagetable oldpagetable oldsz ;;
      retM argc
  end.

Definition kexec (path : list Z) (argv : list (list Z)) : K Z :=
  p <- myproc ;;
  begin_op ;;
  r <- namei path ;;
  match r with
  | None =>
      end_op ;;
      retM (-1)
  | Some ip =>
      ilock ip ;;
      '(r, elf) <- readi ip ToLocal 0 elfhdr_size ;;
      if negb (r =? elfhdr_size) then exec_bad 0 0 (Some ip) else
      if negb (elf_magic elf =? ELF_MAGIC) then exec_bad 0 0 (Some ip) else
      pagetable <- proc_pagetable p ;;
      if pagetable =? 0 then exec_bad 0 0 (Some ip) else
      '(sz, r) <- for_acc (ph_offsets elf) 0 (load_ph pagetable ip) ;;
      match r with
      | Some _ => exec_bad pagetable sz (Some ip)
      | None =>
          iunlockput ip ;;
          end_op ;;
          exec_stack path argv elf pagetable sz
      end
  end.

End code.
End Exec.
