(* ===== verification/Sysfile.v ===== *)
(** * kernel/sysfile.c: the system calls on files *)

From S2P Require Import Prelude Machine FsData State Locks CString Kalloc VM Sched Proc Bio Log Fs Console Pipe File Fork Exec.

Module Sysfile.
Import CString Kalloc VM Sched Proc Bio Log Fs File Fork Exec.

Definition O_RDONLY : Z := 0x000.
Definition O_WRONLY : Z := 0x001.
Definition O_RDWR : Z := 0x002.
Definition O_CREATE : Z := 0x200.
Definition O_TRUNC : Z := 0x400.

Definition dot : list Z := [46].
Definition dotdot : list Z := [46; 46].

Section code.
Context {img : Image} {env : Env}.

(** The descriptor and its file, or none for -1. *)
Definition argfd (n : Z) : K (option (nat * nat)) :=
  fd <- argint n ;;
  if (fd <? 0) || (fd >=? Z.of_nat NOFILE) then retM None else
  p <- myproc ;;
  f <- get_ofile p (Z.to_nat fd) ;;
  retM (match f with Some f => Some (Z.to_nat fd, f) | None => None end).

Definition fdalloc (f : nat) : K Z :=
  p <- myproc ;;
  r <- for_loop fds (fun fd =>
    o <- get_ofile p fd ;;
    match o with
    | None =>
        put_ofile p fd (Some f) ;;
        retM (Return (Z.of_nat fd))
    | Some _ => retM Continue
    end) ;;
  retM (default (-1) r).

Definition sys_dup : K Z :=
  a <- argfd 0 ;;
  match a with
  | None => retM (-1)
  | Some (_, f) =>
      fd <- fdalloc f ;;
      if fd <? 0 then retM (-1) else
      filedup f ;;
      retM fd
  end.

Definition sys_read : K Z :=
  p <- argaddr 1 ;;
  n <- argint 2 ;;
  a <- argfd 0 ;;
  match a with
  | None => retM (-1)
  | Some (_, f) =>
      increment_readcount ;;
      fileread f p n
  end.

Definition sys_write : K Z :=
  p <- argaddr 1 ;;
  n <- argint 2 ;;
  a <- argfd 0 ;;
  match a with
  | None => retM (-1)
  | Some (_, f) => filewrite f p n
  end.

Definition sys_close : K Z :=
  a <- argfd 0 ;;
  match a with
  | None => retM (-1)
  | Some (fd, f) =>
      p <- myproc ;;
      put_ofile p fd None ;;
      fileclose f ;;
      retM 0
  end.

Definition sys_fstat : K Z :=
  st <- argaddr 1 ;;
  a <- argfd 0 ;;
  match a with
  | None => retM (-1)
  | Some (_, f) => filestat f st
  end.

(** argstr() of a path into a local array; none is a negative result. *)
Definition argpath (n : Z) : K (option (list Z)) :=
  '(r, bs) <- argstr n MAXPATH ;;
  retM (if r <? 0 then None else Some (c_string bs)).

(** ip->nlink += d *)
Definition add_nlink (ip : nat) (d : Z) : K unit := put_inode ip (fun x => set_i_nlink (s16 (i_nlink x + d)) x).

(** The label [bad] of sys_link(). *)
Definition link_bad (ip : nat) : K Z :=
  ilock ip ;;
  add_nlink ip (-1) ;;
  iupdate ip ;;
  iunlockput ip ;;
  end_op ;;
  retM (-1).

Definition sys_link : K Z :=
  old <- argpath 0 ;;
  match old with None => retM (-1) | Some old =>
  new <- argpath 1 ;;
  match new with None => retM (-1) | Some new =>
  begin_op ;;
  ip <- namei old ;;
  match ip with
  | None => end_op ;; retM (-1)
  | Some ip =>
      ilock ip ;;
      t <- get_inode ip i_type ;;
      if t =? T_DIR then
        iunlockput ip ;;
        end_op ;;
        retM (-1)
      else
      add_nlink ip 1 ;;
      iupdate ip ;;
      iunlock ip ;;
      r <- nameiparent new ;;
      match r with
      | None => link_bad ip
      | Some (dp, name) =>
          ilock dp ;;
          ddev <- get_inode dp i_dev ;;
          dev <- get_inode ip i_dev ;;
          r <- (if negb (ddev =? dev) then retM (-1) else
                inum <- get_inode ip i_inum ;;
                dirlink dp name inum) ;;
          if r <? 0 then
            iunlockput dp ;;
            link_bad ip
          else
            iunlockput dp ;;
            iput ip ;;
            end_op ;;
            retM 0
      end
  end end end.

Definition isdirempty (dp : nat) : K bool :=
  size <- get_inode dp i_size ;;
  r <- for_loop (drop 2 (dirent_offs size)) (fun off =>
    '(r, de) <- readi dp ToLocal off 16 ;;
    if negb (r =? 16) then panic "isdirempty: readi" else
    if negb (de_inum de =? 0) then retM (Return false) else retM Continue) ;;
  retM (default true r).

(** The label [bad] of sys_unlink(). *)
Definition unlink_bad (dp : nat) : K Z :=
  iunlockput dp ;;
  end_op ;;
  retM (-1).

Definition sys_unlink : K Z :=
  path <- argpath 0 ;;
  match path with None => retM (-1) | Some path =>
  begin_op ;;
  r <- nameiparent path ;;
  match r with
  | None => end_op ;; retM (-1)
  | Some (dp, name) =>
      ilock dp ;;
      if (namecmp name dot =? 0) || (namecmp name dotdot =? 0) then unlink_bad dp else
      r <- dirlookup dp name ;;
      match r with
      | None => unlink_bad dp
      | Some (ip, off) =>
          ilock ip ;;
          nl <- get_inode ip i_nlink ;;
          if nl <? 1 then panic "unlink: nlink < 1" else
          t <- get_inode ip i_type ;;
          nonempty <- (if t =? T_DIR then e <- isdirempty ip ;; retM (negb e) else retM false) ;;
          if nonempty then
            iunlockput ip ;;
            unlink_bad dp
          else
          r <- writei dp (FromLocal (replicate 16 0)) off 16 ;;
          if negb (r =? 16) then panic "unlink: writei" else
          t <- get_inode ip i_type ;;
          whenM (t =? T_DIR)
            (add_nlink dp (-1) ;;
             iupdate dp) ;;
          iunlockput dp ;;
          add_nlink ip (-1) ;;
          iupdate ip ;;
          iunlockput ip ;;
          end_op ;;
          retM 0
      end
  end end.

(** The label [fail] of create(). *)
Definition create_fail (ip dp : nat) : K (option nat) :=
  put_inode ip (set_i_nlink 0) ;;
  iupdate ip ;;
  iunlockput ip ;;
  iunlockput dp ;;
  retM None.

Definition create (path : list Z) (type major minor : Z) : K (option nat) :=
  r <- nameiparent path ;;
  match r with None => retM None | Some (dp, name) =>
  ilock dp ;;
  r <- dirlookup dp name ;;
  match r with
  | Some (ip, _) =>
      iunlockput dp ;;
      ilock ip ;;
      t <- get_inode ip i_type ;;
      if (type =? T_FILE) && ((t =? T_FILE) || (t =? T_DEVICE)) then retM (Some ip) else
      iunlockput ip ;;
      retM None
  | None =>
  dev <- get_inode dp i_dev ;;
  ip <- ialloc dev type ;;
  match ip with
  | None => iunlockput dp ;; retM None
  | Some ip =>
      ilock ip ;;
      put_inode ip (set_i_major (s16 major)) ;;
      put_inode ip (set_i_minor (s16 minor)) ;;
      put_inode ip (set_i_nlink 1) ;;
      iupdate ip ;;
      inum <- get_inode ip i_inum ;;
      r <- (if type =? T_DIR then
              r <- dirlink ip dot inum ;;
              if r <? 0 then retM (-1) else
              dinum <- get_inode dp i_inum ;;
              dirlink ip dotdot dinum
            else retM 0) ;;
      if r <? 0 then create_fail ip dp else
      r <- dirlink dp name inum ;;
      if r <? 0 then create_fail ip dp else
      whenM (type =? T_DIR)
        (add_nlink dp 1 ;;
         iupdate dp) ;;
      iunlockput dp ;;
      retM (Some ip)
  end end end.

(** The first part of sys_open(): the inode, locked; at none, end_op() is called and -1
    returned. *)
Definition open_inode (path : list Z) (omode : Z) : K (option nat) :=
  if has omode O_CREATE then create path T_FILE 0 0 else
  r <- namei path ;;
  match r with
  | None => retM None
  | Some ip =>
      ilock ip ;;
      t <- get_inode ip i_type ;;
      if (t =? T_DIR) && negb (omode =? O_RDONLY) then
        iunlockput ip ;;
        retM None
      else retM (Some ip)
  end.

Definition sys_open : K Z :=
  omode <- argint 1 ;;
  path <- argpath 0 ;;
  match path with None => retM (-1) | Some path =>
  begin_op ;;
  ip <- open_inode path omode ;;
  match ip with
  | None => end_op ;; retM (-1)
  | Some ip =>
      t <- get_inode ip i_type ;;
      major <- get_inode ip i_major ;;
      if (t =? T_DEVICE) && ((major <? 0) || (major >=? NDEV)) then
        iunlockput ip ;;
        end_op ;;
        retM (-1)
      else
      f <- filealloc ;;
      fd <- match f with Some f => fdalloc f | None => retM (-1) end ;;
      match f, fd <? 0 with
      | Some f, false =>
          (if t =? T_DEVICE then
             put_file f (set_f_type FD_DEVICE) ;;
             put_file f (set_f_major major)
           else
             put_file f (set_f_type FD_INODE) ;;
             put_file f (set_f_off 0)) ;;
          put_file f (set_f_ip (Some ip)) ;;
          put_file f (set_f_readable (if has omode O_WRONLY then 0 else 1)) ;;
          put_file f (set_f_writable (if has omode O_WRONLY || has omode O_RDWR then 1 else 0)) ;;
          whenM (has omode O_TRUNC && (t =? T_FILE)) (itrunc ip) ;;
          iunlock ip ;;
          end_op ;;
          retM fd
      | _, _ =>
          close_opt f ;;
          iunlockput ip ;;
          end_op ;;
          retM (-1)
      end
  end end.

(** sys_mkdir() and sys_mknod() from their call of argstr(). *)
Definition create_node (type major minor : Z) : K Z :=
  path <- argpath 0 ;;
  ip <- match path with None => retM None | Some path => create path type major minor end ;;
  match ip with
  | None => end_op ;; retM (-1)
  | Some ip =>
      iunlockput ip ;;
      end_op ;;
      retM 0
  end.

Definition sys_mkdir : K Z :=
  begin_op ;;
  create_node T_DIR 0 0.

Definition sys_mknod : K Z :=
  begin_op ;;
  major <- argint 1 ;;
  minor <- argint 2 ;;
  create_node T_DEVICE major minor.

Definition sys_chdir : K Z :=
  p <- myproc ;;
  begin_op ;;
  path <- argpath 0 ;;
  ip <- match path with None => retM None | Some path => namei path end ;;
  match ip with
  | None => end_op ;; retM (-1)
  | Some ip =>
      ilock ip ;;
      t <- get_inode ip i_type ;;
      if negb (t =? T_DIR) then
        iunlockput ip ;;
        end_op ;;
        retM (-1)
      else
      iunlock ip ;;
      cwd <- get_proc p p_cwd ;;
      cwd <- deref cwd ;;
      iput cwd ;;
      end_op ;;
      put_proc p (set_p_cwd (Some ip)) ;;
      retM 0
  end.

(** The loop of sys_exec() that fetches the arguments into pages; it runs to i = 32 at most.
    The result is argv[], and whether the loop ended with [break]. *)
Definition exec_args (uargv : Z) : K (list Z * option bool) :=
  for_acc (Z.of_nat <$> seq 0 33) [] (fun i argv =>
    if i >=? MAXARG then retM (argv, Return false) else
    '(r, uarg) <- fetchaddr (u64 (uargv + 8 * i)) ;;
    if r <? 0 then retM (argv, Return false) else
    if uarg =? 0 then retM (argv, Return true) else
    a <- kalloc ;;
    if a =? 0 then retM (argv, Return false) else
    '(r, bs) <- fetchstr uarg PGSIZE ;;
    put_mem (fun m => store_bytes m a bs) ;;
    retM (argv ++ [a], if r <? 0 then Return false else Continue)).

Definition free_args (argv : list Z) : K unit :=
  for_loop argv (fun a => kfree a ;; retM (@Continue unit)) ;;
  retM tt.

Definition sys_exec : K Z :=
  uargv <- argaddr 1 ;;
  path <- argpath 0 ;;
  match path with None => retM (-1) | Some path =>
  '(argv, r) <- exec_args uargv ;;
  match r with
  | Some true =>
      args <- get_mem (fun m => (fun a => c_string (load_bytes m a (Z.to_nat PGSIZE))) <$> argv) ;;
      ret <- kexec path args ;;
      free_args argv ;;
      retM ret
  | _ =>
      free_args argv ;;
      retM (-1)
  end end.

Definition sys_pipe : K Z :=
  p <- myproc ;;
  fdarray <- argaddr 0 ;;
  r <- pipealloc ;;
  match r with None => retM (-1) | Some (rf, wf) =>
  fd0 <- fdalloc rf ;;
  fd1 <- (if fd0 <? 0 then retM (-1) else fdalloc wf) ;;
  if (fd0 <? 0) || (fd1 <? 0) then
    whenM (fd0 >=? 0) (put_ofile p (Z.to_nat fd0) None) ;;
    fileclose rf ;;
    fileclose wf ;;
    retM (-1)
  else
  pt <- get_proc p p_pagetable ;;
  r <- copyout pt fdarray (int_bytes fd0) ;;
  r <- (if r <? 0 then retM (-1) else copyout pt (u64 (fdarray + 4)) (int_bytes fd1)) ;;
  if r <? 0 then
    put_ofile p (Z.to_nat fd0) None ;;
    put_ofile p (Z.to_nat fd1) None ;;
    fileclose rf ;;
    fileclose wf ;;
    retM (-1)
  else retM 0
  end.

End code.
End Sysfile.
