(* ===== verification/Syscall.v ===== *)
(** * kernel/sysproc.c and kernel/syscall.c: the system calls on processes, and their dispatch

    A call that waits is given [env_patience] as its bound on the number of rounds. *)

From S2P Require Import Prelude Machine FsData State Locks CString VM Sched Proc Shm Mutex Bio Print Console File Fork Exec Sysfile.

Module Syscall.
Import CString VM Sched Proc Shm Mutex Print Console Fork Sysfile.

Definition SBRK_EAGER : Z := 1.
Definition SBRK_LAZY : Z := 2.

Section code.
Context {img : Image} {env : Env}.

(** ** sysproc.c *)

Definition sys_exit : K Z :=
  n <- argint 0 ;;
  kexit n.

Definition sys_getpid : K Z :=
  p <- myproc ;;
  get_proc p p_pid.

Definition sys_fork : K Z := kfork.

Definition sys_wait : K Z :=
  p <- argaddr 0 ;;
  kwait env_patience p.

Definition sys_sbrk : K Z :=
  n <- argint 0 ;;
  t <- argint 1 ;;
  p <- myproc ;;
  addr <- get_proc p p_sz ;;
  if (t =? SBRK_EAGER) || (n <? 0) then
    r <- growproc n ;;
    if r <? 0 then retM (-1) else retM addr
  else
    if u64 (addr + n) <? addr then retM (-1) else
    if u64 (addr + n) >? TRAPFRAME then retM (-1) else
    put_proc p (fun q => set_p_sz (u64 (p_sz q + n)) q) ;;
    retM addr.

Fixpoint pause_loop (k : nat) (ticks0 n : Z) : K Z :=
  ticks <- gets k_ticks ;;
  if u32 (ticks - ticks0) <? n then
    match k with
    | O => block
    | S k =>
        p <- myproc ;;
        kd <- killed p ;;
        if negb (kd =? 0) then
          release LTicks ;;
          retM (-1)
        else
          sleep ChTicks LTicks ;;
          pause_loop k ticks0 n
    end
  else
    release LTicks ;;
    retM 0.

Definition sys_pause : K Z :=
  n <- argint 0 ;;
  let n := if n <? 0 then 0 else n in
  acquire LTicks ;;
  ticks0 <- gets k_ticks ;;
  pause_loop env_patience ticks0 n.

Definition sys_kill : K Z :=
  pid <- argint 0 ;;
  kkill pid.

Definition sys_setpriority : K Z :=
  pid <- argint 0 ;;
  priority <- argint 1 ;;
  setpriority pid priority.

Definition sys_getpriority : K Z :=
  pid <- argint 0 ;;
  getpriority pid.

Definition sys_shm_open : K Z :=
  key <- argint 0 ;;
  size <- argint 1 ;;
  shm_open key size.

Definition sys_shm_close : K Z :=
  key <- argint 0 ;;
  shm_close key.

Definition sys_wait_stat : K Z :=
  wtime <- argaddr 0 ;;
  rtime <- argaddr 1 ;;
  status <- argaddr 2 ;;
  kwait_stat env_patience wtime rtime status.

Definition sys_getprocinfo : K Z :=
  pid <- argint 0 ;;
  addr <- argaddr 1 ;;
  getprocinfo env_junk pid addr.

Definition sys_getreadcount : K Z := getreadcount.

Definition sys_uptime : K Z :=
  acquire LTicks ;;
  xticks <- gets k_ticks ;;
  release LTicks ;;
  retM xticks.

(** ** syscall.c *)

(** The array syscalls[], from its entry 1. *)
Definition syscalls : list (K Z) :=
  [sys_fork; sys_exit; sys_wait; sys_pipe; sys_read; sys_kill; sys_exec; sys_fstat; sys_chdir; sys_dup;
   sys_getpid; sys_sbrk; sys_pause; sys_uptime; sys_open; sys_write; sys_mknod; sys_unlink; sys_link;
   sys_mkdir; sys_close; sys_getreadcount; sys_getprocinfo; sys_setpriority; sys_getpriority;
   sys_wait_stat; sys_shm_open; sys_shm_close; sys_mutex_init; sys_mutex_lock env_patience;
   sys_mutex_unlock].

(** syscalls[num], if there is one. *)
Definition syscall_at (num : Z) : option (K Z) :=
  if num >? 0 then syscalls !! Z.to_nat (num - 1) else None.

Definition syscall : K unit :=
  p <- myproc ;;
  tf <- get_proc p p_trapframe ;;
  num <- get_mem (fun m => s32 (load64 m (tf + TF_a7))) ;;
  match syscall_at num with
  | Some f =>
      r <- f ;;
      tf <- get_proc p p_trapframe ;;
      put_mem (fun m => store64 m (tf + TF_a0) (u64 r))
  | None =>
      q <- get_proc p id ;;
      printf (chars "%d %s: unknown sys call %d" ++ [newline])
        [AInt (p_pid q); AStr (Some (c_string (p_name q))); AInt num] ;;
      tf <- get_proc p p_trapframe ;;
      put_mem (fun m => store64 m (tf + TF_a0) (u64 (-1)))
  end.

End code.
End Syscall.
