(* ===== verification/Virtio.v ===== *)
(** * kernel/virtio_disk.c: the driver of the disk

    [vstate] adds to struct disk (DiskData.v) the buffers, where each process is in
    virtio_disk_rw(), who has the lock, and what is known of the device: its sectors, how far it
    has read the ring of requests, the requests it has taken, whether it was notified, and its
    interrupt register.

    All the driver's code runs with vdisk_lock held, which only sleep() gives up.  A step of the
    system is the code of a process from one point to the next where the device can tell the
    difference (before the increment of disk.avail->idx, before the notification, and where it
    sleeps), one round of the interrupt handler's loop, since the device may add an answer between
    two rounds, or an action of the device.  Of what the driver writes elsewhere the device looks
    only at the requests it has taken from the ring, which the driver leaves alone.  The device is
    a parameter: what it has to do is [virtio_duty], what it may do [virtio_action]. *)

From stdpp Require Import functions.
From S2P Require Import Prelude Machine FsData DiskData State Locks CString Kalloc VM.

(** ** virtio.h *)

Definition VIRTIO_MMIO_MAGIC_VALUE : Z := 0x000.
Definition VIRTIO_MMIO_VERSION : Z := 0x004.
Definition VIRTIO_MMIO_DEVICE_ID : Z := 0x008.
Definition VIRTIO_MMIO_VENDOR_ID : Z := 0x00c.
Definition VIRTIO_MMIO_DEVICE_FEATURES : Z := 0x010.
Definition VIRTIO_MMIO_DRIVER_FEATURES : Z := 0x020.
Definition VIRTIO_MMIO_QUEUE_SEL : Z := 0x030.
Definition VIRTIO_MMIO_QUEUE_NUM_MAX : Z := 0x034.
Definition VIRTIO_MMIO_QUEUE_NUM : Z := 0x038.
Definition VIRTIO_MMIO_QUEUE_READY : Z := 0x044.
Definition VIRTIO_MMIO_STATUS : Z := 0x070.
Definition VIRTIO_MMIO_QUEUE_DESC_LOW : Z := 0x080.
Definition VIRTIO_MMIO_QUEUE_DESC_HIGH : Z := 0x084.
Definition VIRTIO_MMIO_DRIVER_DESC_LOW : Z := 0x090.
Definition VIRTIO_MMIO_DRIVER_DESC_HIGH : Z := 0x094.
Definition VIRTIO_MMIO_DEVICE_DESC_LOW : Z := 0x0a0.
Definition VIRTIO_MMIO_DEVICE_DESC_HIGH : Z := 0x0a4.

Definition VIRTIO_CONFIG_S_ACKNOWLEDGE : Z := 1.
Definition VIRTIO_CONFIG_S_DRIVER : Z := 2.
Definition VIRTIO_CONFIG_S_DRIVER_OK : Z := 4.
Definition VIRTIO_CONFIG_S_FEATURES_OK : Z := 8.

Definition VIRTIO_BLK_F_RO : Z := 5.
Definition VIRTIO_BLK_F_SCSI : Z := 7.
Definition VIRTIO_BLK_F_CONFIG_WCE : Z := 11.
Definition VIRTIO_BLK_F_MQ : Z := 12.
Definition VIRTIO_F_ANY_LAYOUT : Z := 27.
Definition VIRTIO_RING_F_INDIRECT_DESC : Z := 28.
Definition VIRTIO_RING_F_EVENT_IDX : Z := 29.

Definition NUM : Z := 8.
Definition VRING_DESC_F_NEXT : Z := 1.
Definition VRING_DESC_F_WRITE : Z := 2.
Definition VIRTIO_BLK_T_IN : Z := 0.
Definition VIRTIO_BLK_T_OUT : Z := 1.

Module Virtio.
Import CString Kalloc VM.

(** ** The state *)

(** Where a process is in virtio_disk_rw(b, write); [i] is idx[0].  Between [Filled] and
    [SleepBuf] it has the lock. *)
Inductive pc : Type :=
| Idle                                  (* not in it *)
| Enter (b : nat) (write : bool)        (* about to try for descriptors *)
| SleepFree (b : nat) (write : bool)    (* asleep on &disk.free[0] *)
| Filled (b : nat) (write : bool) (i : Z)    (* about to increment disk.avail->idx *)
| Posted (b : nat) (write : bool) (i : Z)    (* about to notify the device *)
| SleepBuf (b : nat) (write : bool) (i : Z)  (* asleep on b *)
| Woken (b : nat) (write : bool) (i : Z).    (* about to test b->disk *)

Inductive chan : Type :=
| ChFree
| ChBuf (b : nat).

(** Who has disk.vdisk_lock. *)
Inductive holder : Type :=
| Nobody
| Handler
| Process (t : nat).

#[export] Instance holder_eq_dec : EqDecision holder.
Proof. solve_decision. Defined.

(** [v_seen], [v_taken] and [v_notified] are the device's: how far it has read the ring of
    requests, the requests it has taken, and whether it was notified since it last found the
    ring empty. *)
Record vstate : Type := Vstate {
  v_disk : disk;
  v_buf : nat -> buf;
  v_pc : nat -> pc;
  v_lock : holder;
  v_sector : Z -> list Z;
  v_seen : Z;
  v_taken : list Z;
  v_notified : bool;
  v_irq : Z
}.

Definition upd_disk (f : disk -> disk) (s : vstate) : vstate :=
  Vstate (f (v_disk s)) (v_buf s) (v_pc s) (v_lock s) (v_sector s) (v_seen s) (v_taken s) (v_notified s) (v_irq s).
Definition set_buf (v : nat -> buf) (s : vstate) : vstate :=
  Vstate (v_disk s) v (v_pc s) (v_lock s) (v_sector s) (v_seen s) (v_taken s) (v_notified s) (v_irq s).
Definition set_pc (v : nat -> pc) (s : vstate) : vstate :=
  Vstate (v_disk s) (v_buf s) v (v_lock s) (v_sector s) (v_seen s) (v_taken s) (v_notified s) (v_irq s).
Definition set_lock (v : holder) (s : vstate) : vstate :=
  Vstate (v_disk s) (v_buf s) (v_pc s) v (v_sector s) (v_seen s) (v_taken s) (v_notified s) (v_irq s).
Definition set_taken (seen : Z) (l : list Z) (s : vstate) : vstate :=
  Vstate (v_disk s) (v_buf s) (v_pc s) (v_lock s) (v_sector s) seen l (v_notified s) (v_irq s).
Definition set_notified (v : bool) (s : vstate) : vstate :=
  Vstate (v_disk s) (v_buf s) (v_pc s) (v_lock s) (v_sector s) (v_seen s) (v_taken s) v (v_irq s).
Definition set_irq (v : Z) (s : vstate) : vstate :=
  Vstate (v_disk s) (v_buf s) (v_pc s) (v_lock s) (v_sector s) (v_seen s) (v_taken s) (v_notified s) v.

Definition getd {A} (f : disk -> A) : M vstate A := gets (fun s => f (v_disk s)).
Definition putd (f : disk -> disk) : M vstate unit := modify (upd_disk f).
Definition put_buf (b : nat) (f : buf -> buf) : M vstate unit :=
  modify (fun s => set_buf (<[b := f (v_buf s b)]> (v_buf s)) s).
Definition put_pc (t : nat) (p : pc) : M vstate unit :=
  modify (fun s => set_pc (<[t := p]> (v_pc s)) s).
Definition put_lock (h : holder) : M vstate unit := modify (set_lock h).

(** wakeup(chan) of proc.c, on the processes asleep in the driver. *)
Definition woken (ch : chan) (p : pc) : pc :=
  match p, ch with
  | SleepFree b w, ChFree => Enter b w
  | SleepBuf b w i, ChBuf b' => if bool_decide (b = b') then Woken b w i else p
  | _, _ => p
  end.

Definition wakeup (ch : chan) : M vstate unit :=
  modify (fun s => set_pc (fun t => woken ch (v_pc s t)) s).

(** ** Descriptors *)

Definition desc_numbers : list Z := seqZ 0 NUM.

Definition alloc_desc : M vstate Z :=
  r <- for_loop desc_numbers (fun i =>
    fr <- getd (fun d => dfree d i) ;;
    if negb (fr =? 0) then
      putd (fun d => set_dfree (<[i := 0]> (dfree d)) d) ;;
      retM (Return i)
    else retM Continue) ;;
  retM (default (-1) r).

Definition free_desc (i : Z) : M vstate unit :=
  if i >=? NUM then panic "free_desc 1" else
  fr <- getd (fun d => dfree d i) ;;
  if negb (fr =? 0) then panic "free_desc 2" else
  putd (fun d => set_desc (<[i := zero_desc]> (desc d)) d) ;;
  putd (fun d => set_dfree (<[i := 1]> (dfree d)) d) ;;
  wakeup ChFree.

(** A chain has at most NUM descriptors; [fuel] bounds the [while(1)]. *)
Fixpoint free_chain (fuel : nat) (i : Z) : M vstate unit :=
  match fuel with
  | O => block
  | S fuel =>
      flag <- getd (fun d => d_flags (desc d i)) ;;
      nxt <- getd (fun d => d_next (desc d i)) ;;
      free_desc i ;;
      if negb (Z.land flag VRING_DESC_F_NEXT =? 0) then free_chain fuel nxt else retM tt
  end.

(** [n] rounds are left, [idx] is what the rounds before have allocated. *)
Fixpoint alloc3_loop (n : nat) (idx : list Z) : M vstate (option (list Z)) :=
  match n with
  | O => retM (Some idx)
  | S n =>
      i <- alloc_desc ;;
      if i <? 0 then
        for_loop idx (fun j => free_desc j ;; retM (@Continue unit)) ;;
        retM None
      else alloc3_loop n (idx ++ [i])
  end.

(** [Some idx] is the return value 0. *)
Definition alloc3_desc : M vstate (option (list Z)) := alloc3_loop 3 [].

(** ** virtio_disk_rw() *)

(** From [struct virtio_blk_req *buf0] to the entry in the ring of requests. *)
Definition rw_submit (b : nat) (write : bool) (sector i0 i1 i2 : Z) : M vstate unit :=
  putd (fun d => set_ops (<[i0 := Req (if write then VIRTIO_BLK_T_OUT else VIRTIO_BLK_T_IN) 0 sector]> (ops d)) d) ;;
  putd (fun d => set_desc (<[i0 := Desc (Ops i0) 16 VRING_DESC_F_NEXT i1]> (desc d)) d) ;;
  putd (fun d => set_desc (<[i1 := Desc (Data b) BSIZE (Z.lor (if write then 0 else VRING_DESC_F_WRITE) VRING_DESC_F_NEXT) i2]> (desc d)) d) ;;
  putd (fun d => set_info_status (<[i0 := 0xff]> (info_status d)) d) ;;
  putd (fun d => set_desc (<[i2 := Desc (Status i0) 1 VRING_DESC_F_WRITE 0]> (desc d)) d) ;;
  put_buf b (set_b_disk 1) ;;
  putd (fun d => set_info_b (<[i0 := Some b]> (info_b d)) d) ;;
  putd (fun d => set_avail_ring (<[avail_idx d mod NUM := i0]> (avail_ring d)) d).

(** [disk.avail->idx += 1] *)
Definition rw_post : M vstate unit := putd (fun d => set_avail_idx (u16 (avail_idx d + 1)) d).

(** [*R(VIRTIO_MMIO_QUEUE_NOTIFY) = 0] *)
Definition rw_notify : M vstate unit := modify (set_notified true).

(** From [while(b->disk == 1)] on: sleep again, or finish and return; both give up the lock. *)
Definition rw_wait (t b : nat) (write : bool) (i0 : Z) : M vstate unit :=
  k <- gets (fun s => b_disk (v_buf s b)) ;;
  (if k =? 1 then put_pc t (SleepBuf b write i0) else
   putd (fun d => set_info_b (<[i0 := None]> (info_b d)) d) ;;
   free_chain (Z.to_nat NUM) i0 ;;
   put_pc t Idle) ;;
  put_lock Nobody.

(** Process [t] runs on: to the next point where what it does next matters to the device, or
    until it sleeps or returns. *)
Definition virtio_disk_rw (t : nat) : M vstate unit :=
  p <- gets (fun s => v_pc s t) ;;
  match p with
  | Enter b write =>
      sector <- gets (fun s => u32 (b_blockno (v_buf s b) * (BSIZE / 512))) ;;
      put_lock (Process t) ;;
      r <- alloc3_desc ;;
      match r with
      | Some [i0; i1; i2] =>
          rw_submit b write sector i0 i1 i2 ;;
          put_pc t (Filled b write i0)
      | _ =>
          put_pc t (SleepFree b write) ;;
          put_lock Nobody
      end
  | Filled b write i0 =>
      rw_post ;;
      put_pc t (Posted b write i0)
  | Posted b write i0 =>
      rw_notify ;;
      rw_wait t b write i0
  | Woken b write i0 =>
      put_lock (Process t) ;;
      rw_wait t b write i0
  | _ => retM tt
  end.

(** ** virtio_disk_intr()

    The handler runs in the state of the driver alone, [vstate], and in that of the kernel, where trap.c
    calls it: [Driver] is what it uses of either. *)

Class Driver (St : Type) := {
  drv_disk : St -> disk;
  drv_set_disk : (disk -> disk) -> St -> St;
  drv_isr : St -> Z;
  drv_set_isr : Z -> St -> St;
  drv_put_buf : nat -> (buf -> buf) -> M St unit;
  drv_wakeup : nat -> M St unit;
  drv_acquire : M St unit;
  drv_release : M St unit
}.

Section intr.
Context {St : Type} {drv : Driver St}.

Definition get_disk {A} (f : disk -> A) : M St A := gets (fun s => f (drv_disk s)).
Definition put_disk (f : disk -> disk) : M St unit := modify (drv_set_disk f).

(** Up to the loop.  The device clears the bits of its status register that are written to the
    acknowledge register. *)
Definition intr_ack : M St unit :=
  drv_acquire ;;
  status <- gets drv_isr ;;
  modify (fun s => drv_set_isr (Z.land (drv_isr s) (Z.lnot (Z.land status 3))) s).

(** One test of the loop and, when it holds, one round; [false] is the end of the loop. *)
Definition intr_round : M St bool :=
  u <- get_disk used_idx ;;
  ui <- get_disk usedr_idx ;;
  if u =? ui then retM false else
  id <- get_disk (fun d => usedr_ring d (u mod NUM)) ;;
  st <- get_disk (fun d => info_status d id) ;;
  if negb (st =? 0) then panic "virtio_disk_intr status" else
  b <- get_disk (fun d => info_b d id) ;;
  match b with
  | None => panic "kerneltrap"
  | Some b =>
      drv_put_buf b (set_b_disk 0) ;;
      drv_wakeup b ;;
      put_disk (fun d => set_used_idx (u16 (u + 1)) d) ;;
      retM true
  end.

Definition intr_release : M St unit := drv_release.

Fixpoint intr_loop (fuel : nat) : M St unit :=
  match fuel with
  | O => block
  | S fuel =>
      more <- intr_round ;;
      if (more : bool) then intr_loop fuel else retM tt
  end.

(** The whole handler, when the device adds nothing meanwhile: a round for each entry of the
    ring of answers. *)
Definition virtio_disk_intr : M St unit :=
  intr_ack ;;
  n <- get_disk (fun d => u16 (usedr_idx d - used_idx d)) ;;
  intr_loop (S (Z.to_nat n)) ;;
  intr_release.

End intr.

#[export] Instance vstate_driver : Driver vstate := {|
  drv_disk := v_disk;
  drv_set_disk := upd_disk;
  drv_isr := v_irq;
  drv_set_isr := set_irq;
  drv_put_buf := put_buf;
  drv_wakeup := fun b => wakeup (ChBuf b);
  drv_acquire := put_lock Handler;
  drv_release := put_lock Nobody
|}.

(** ** The device

    What the virtio specification says of a device that serves its requests.  A request is a
    chain of three descriptors: the header, the data, which the device writes for a read and
    reads for a write, and the status byte. *)

Record request : Type := Request { q_write : bool; q_sector : Z; q_buf : nat; q_status : Z }.

Definition request_at (d : disk) (head : Z) : option request :=
  let d0 := desc d head in
  let d1 := desc d (d_next d0) in
  let d2 := desc d (d_next d1) in
  match d_addr d0, d_addr d1, d_addr d2 with
  | Ops i, Data b, Status j =>
      let rq := ops d i in
      let write := rq_type rq =? VIRTIO_BLK_T_OUT in
      if (d_len d0 =? 16) && (d_flags d0 =? VRING_DESC_F_NEXT) && (d_len d1 =? BSIZE) &&
         (d_flags d1 =? Z.lor (if write then 0 else VRING_DESC_F_WRITE) VRING_DESC_F_NEXT) &&
         (d_len d2 =? 1) && (d_flags d2 =? VRING_DESC_F_WRITE) && (rq_type rq <=? 1)
      then Some (Request write (rq_sector rq) b j) else None
  | _, _, _ => None
  end.

(** The two sectors of a block. *)
Definition block_of (sec : Z -> list Z) (n : Z) : list Z := sec (2 * n) ++ sec (2 * n + 1).

Definition transfer (q : request) (s : vstate) : vstate :=
  if q_write q then
    let data := b_data (v_buf s (q_buf q)) in
    Vstate (v_disk s) (v_buf s) (v_pc s) (v_lock s)
      (<[q_sector q + 1 := drop 512 data]> (<[q_sector q := take 512 data]> (v_sector s))) (v_seen s) (v_taken s) (v_notified s) (v_irq s)
  else
    set_buf (<[q_buf q := set_b_data (v_sector s (q_sector q) ++ v_sector s (q_sector q + 1)) (v_buf s (q_buf q))]> (v_buf s)) s.

(** Status 0, an entry in the ring of answers, and an interrupt. *)
Definition answer (head : Z) (q : request) (s : vstate) : vstate :=
  let d := v_disk s in
  Vstate (set_info_status (<[q_status q := 0]> (info_status d))
            (set_usedr (u16 (usedr_idx d + 1)) (<[usedr_idx d mod NUM := head]> (usedr_ring d)) d))
    (v_buf s) (v_pc s) (v_lock s) (v_sector s) (v_seen s) (v_taken s) (v_notified s) (Z.lor (v_irq s) 1).

(** Reading the next entry of the ring of requests. *)
Definition take_next (s : vstate) : vstate :=
  set_taken (u16 (v_seen s + 1)) (v_taken s ++ [avail_ring (v_disk s) (v_seen s mod NUM)]) s.

(** What the device has to do, sooner or later: a notified device reads the ring until it is
    empty, and a request that was taken is served. *)
Inductive virtio_duty : vstate -> vstate -> Prop :=
| duty_take s :
    v_notified s = true -> v_seen s <> avail_idx (v_disk s) -> virtio_duty s (take_next s)
| duty_serve s l1 head l2 q :
    v_taken s = l1 ++ head :: l2 -> request_at (v_disk s) head = Some q ->
    virtio_duty s (answer head q (transfer q (set_taken (v_seen s) (l1 ++ l2) s))).

(** What it may do: that, stop looking at a ring that is empty, and look at the ring without a
    notification. *)
Inductive virtio_action : vstate -> vstate -> Prop :=
| dev_duty s s' : virtio_duty s s' -> virtio_action s s'
| dev_rest s :
    v_seen s = avail_idx (v_disk s) -> virtio_action s (set_notified false s)
| dev_poll s :
    v_seen s <> avail_idx (v_disk s) -> virtio_action s (take_next s).

(** ** The system *)

Definition pc_buf (p : pc) : option nat :=
  match p with
  | Idle => None
  | Enter b _ | SleepFree b _ | Filled b _ _ | Posted b _ _ | SleepBuf b _ _ | Woken b _ _ => Some b
  end.

(** Whether process [t] can run on: it is awake, and has the lock or can take it. *)
Definition runnable (s : vstate) (t : nat) : Prop :=
  match v_pc s t with
  | Enter _ _ | Woken _ _ _ => v_lock s = Nobody
  | Filled _ _ _ | Posted _ _ _ => v_lock s = Process t
  | _ => False
  end.

(** Nobody transfers the buffer. *)
Definition quiet (s : vstate) (b : nat) : Prop := forall t, pc_buf (v_pc s t) <> Some b.

(** What the rest of the kernel may put into a buffer that is not being transferred. *)
Definition buf_ok (x : buf) : Prop := length (b_data x) = 1024%nat /\ 0 <= b_blockno x < 2 ^ 31.

(** What the rest of the kernel sees: a call, a return with the buffer's content, and its own
    writes to a buffer. *)
Inductive event : Type :=
| ECall (t b : nat) (write : bool)
| EReturn (t b : nat) (no : Z) (data : list Z)
| EClient (b : nat) (no : Z) (data : list Z).

(** A step of process [t] from [s] to [s'] is a return when [t] is outside afterwards. *)
Definition returns (s : vstate) (t : nat) (s' : vstate) : option event :=
  match v_pc s' t, pc_buf (v_pc s t) with
  | Idle, Some b => Some (EReturn t b (b_blockno (v_buf s' b)) (b_data (v_buf s' b)))
  | _, _ => None
  end.

Section system.
Context (device : vstate -> vstate -> Prop).

Inductive step (s : vstate) : option event -> vstate -> Prop :=
| step_call t b write :
    v_pc s t = Idle -> quiet s b ->
    step s (Some (ECall t b write)) (set_pc (<[t := Enter b write]> (v_pc s)) s)
| step_client b x :
    quiet s b -> buf_ok x ->
    step s (Some (EClient b (b_blockno x) (b_data x))) (set_buf (<[b := x]> (v_buf s)) s)
| step_run t s' :
    runnable s t -> virtio_disk_rw t s = Ok tt s' -> step s (returns s t s') s'
| step_intr s' :
    v_lock s = Nobody -> v_irq s <> 0 -> intr_ack s = Ok tt s' -> step s None s'
| step_round s' :
    v_lock s = Handler -> intr_round s = Ok true s' -> step s None s'
| step_release s1 s' :
    v_lock s = Handler -> intr_round s = Ok false s1 -> intr_release s1 = Ok tt s' -> step s None s'
| step_device s' : device s s' -> step s None s'.

End system.

(** The runs of a system, with what is seen of them. *)
Inductive exec {St : Type} (step : St -> option event -> St -> Prop) (s : St) : list event -> St -> Prop :=
| exec_nil : exec step s [] s
| exec_snoc l s1 o s2 :
    exec step s l s1 -> step s1 o s2 -> exec step s (l ++ option_list o) s2.

(** ** virtio_disk_init()

    What a register holds depends on what was written to the registers so far, latest last;
    that is the device's, a parameter.  The state is the kernel's and that list. *)

Class Registers := reg_value : list (Z * Z) -> Z -> Z.

Record istate : Type := Istate { is_k : kstate; is_regs : list (Z * Z) }.

(** What the initialisation leaves in struct disk. *)
Record queues : Type := Queues { q_desc : Z; q_avail : Z; q_used : Z; q_free : list Z }.

Definition lift {A} (m : K A) : M istate A := fun s =>
  match m (is_k s) with
  | Ok a k => Ok a (Istate k (is_regs s))
  | Panic msg => Panic msg
  | Blocked k => Blocked (Istate k (is_regs s))
  end.

Section init.
Context {img : Image} {regs : Registers}.

(** [*R(r)] and [*R(r) = v]. *)
Definition R_read (r : Z) : M istate Z := gets (fun s => u32 (reg_value (is_regs s) (VIRTIO0 + r))).
Definition R_write (r v : Z) : M istate unit := modify (fun s => Istate (is_k s) (is_regs s ++ [(VIRTIO0 + r, u32 v)])).

(** [features &= ~(1 << bit)] *)
Definition clear_bit (features bit : Z) : Z := Z.land features (u64 (Z.lnot (Z.shiftl 1 bit))).

Definition virtio_disk_init : M istate queues :=
  magic <- R_read VIRTIO_MMIO_MAGIC_VALUE ;;
  version <- R_read VIRTIO_MMIO_VERSION ;;
  device <- R_read VIRTIO_MMIO_DEVICE_ID ;;
  vendor <- R_read VIRTIO_MMIO_VENDOR_ID ;;
  if negb (magic =? 0x74726976) || negb (version =? 2) || negb (device =? 2) || negb (vendor =? 0x554d4551)
  then panic "could not find virtio disk" else
  let status := 0 in
  R_write VIRTIO_MMIO_STATUS status ;;
  let status := Z.lor status VIRTIO_CONFIG_S_ACKNOWLEDGE in
  R_write VIRTIO_MMIO_STATUS status ;;
  let status := Z.lor status VIRTIO_CONFIG_S_DRIVER in
  R_write VIRTIO_MMIO_STATUS status ;;
  features <- R_read VIRTIO_MMIO_DEVICE_FEATURES ;;
  let features := clear_bit features VIRTIO_BLK_F_RO in
  let features := clear_bit features VIRTIO_BLK_F_SCSI in
  let features := clear_bit features VIRTIO_BLK_F_CONFIG_WCE in
  let features := clear_bit features VIRTIO_BLK_F_MQ in
  let features := clear_bit features VIRTIO_F_ANY_LAYOUT in
  let features := clear_bit features VIRTIO_RING_F_EVENT_IDX in
  let features := clear_bit features VIRTIO_RING_F_INDIRECT_DESC in
  R_write VIRTIO_MMIO_DRIVER_FEATURES features ;;
  let status := Z.lor status VIRTIO_CONFIG_S_FEATURES_OK in
  R_write VIRTIO_MMIO_STATUS status ;;
  status <- R_read VIRTIO_MMIO_STATUS ;;
  if Z.land status VIRTIO_CONFIG_S_FEATURES_OK =? 0 then panic "virtio disk FEATURES_OK unset" else
  R_write VIRTIO_MMIO_QUEUE_SEL 0 ;;
  ready <- R_read VIRTIO_MMIO_QUEUE_READY ;;
  if negb (ready =? 0) then panic "virtio disk should not be ready" else
  max <- R_read VIRTIO_MMIO_QUEUE_NUM_MAX ;;
  if max =? 0 then panic "virtio disk has no queue 0" else
  if max <? NUM then panic "virtio disk max queue too short" else
  desc <- lift kalloc ;;
  avail <- lift kalloc ;;
  used <- lift kalloc ;;
  if (desc =? 0) || (avail =? 0) || (used =? 0) then panic "virtio disk kalloc" else
  lift (put_mem (fun m => memset m desc 0 PGSIZE)) ;;
  lift (put_mem (fun m => memset m avail 0 PGSIZE)) ;;
  lift (put_mem (fun m => memset m used 0 PGSIZE)) ;;
  R_write VIRTIO_MMIO_QUEUE_NUM NUM ;;
  R_write VIRTIO_MMIO_QUEUE_DESC_LOW desc ;;
  R_write VIRTIO_MMIO_QUEUE_DESC_HIGH (Z.shiftr desc 32) ;;
  R_write VIRTIO_MMIO_DRIVER_DESC_LOW avail ;;
  R_write VIRTIO_MMIO_DRIVER_DESC_HIGH (Z.shiftr avail 32) ;;
  R_write VIRTIO_MMIO_DEVICE_DESC_LOW used ;;
  R_write VIRTIO_MMIO_DEVICE_DESC_HIGH (Z.shiftr used 32) ;;
  R_write VIRTIO_MMIO_QUEUE_READY 1 ;;
  let free := replicate (Z.to_nat NUM) 1 in
  let status := Z.lor status VIRTIO_CONFIG_S_DRIVER_OK in
  R_write VIRTIO_MMIO_STATUS status ;;
  retM (Queues desc avail used free).

End init.

(** The state virtio_disk_init() leaves: nothing asked for, all descriptors free. *)
Definition start_state (bufs : nat -> buf) (sectors : Z -> list Z) : vstate :=
  Vstate (fresh_disk (fun i => if (0 <=? i) && (i <? NUM) then 1 else 0)) bufs (fun _ => Idle) Nobody sectors 0 [] false 0.

End Virtio.
