(* ===== verification/Trap.v ===== *)
(** * Control registers and traps: kernel/riscv.h, kernel/start.c, kernel/trap.c, kernel/plic.c

    [csrs] is the hart's control and status registers and tp; the field [r_x] is the inline
    function r_x() of riscv.h, and [w_x] is w_x().  The trap handlers take the registers and
    return them; what a device has to say at an interrupt is an argument.

    A process that gives up the CPU, or that runs with interrupts enabled, finds other values in
    the registers afterwards: traps of this and of other processes write them, and it may run on
    on another hart.  [Harts] says which; the handlers use it after every yield(), system call and
    exec. *)

From S2P Require Import Prelude Machine FsData DiskData State Locks CString Kalloc VM Sched Proc Shm Mutex Bio Log Fs Print Console File Fork Exec Sysfile Syscall Virtio.

Record csrs : Type := MkCsrs {
  r_mhartid : Z;
  r_mstatus : Z;
  r_mepc : Z;
  r_sstatus : Z;
  r_sip : Z;
  r_sie : Z;
  r_mie : Z;
  r_sepc : Z;
  r_medeleg : Z;
  r_mideleg : Z;
  r_stvec : Z;
  r_stimecmp : Z;
  r_menvcfg : Z;
  r_pmpcfg0 : Z;
  r_pmpaddr0 : Z;
  r_satp : Z;
  r_scause : Z;
  r_stval : Z;
  r_mcounteren : Z;
  r_time : Z;
  r_tp : Z
}.

Definition w_mstatus (v : Z) (c : csrs) : csrs :=
  MkCsrs (r_mhartid c) v (r_mepc c) (r_sstatus c) (r_sip c) (r_sie c) (r_mie c) (r_sepc c) (r_medeleg c) (r_mideleg c) (r_stvec c) (r_stimecmp c) (r_menvcfg c) (r_pmpcfg0 c) (r_pmpaddr0 c) (r_satp c) (r_scause c) (r_stval c) (r_mcounteren c) (r_time c) (r_tp c).
Definition w_mepc (v : Z) (c : csrs) : csrs :=
  MkCsrs (r_mhartid c) (r_mstatus c) v (r_sstatus c) (r_sip c) (r_sie c) (r_mie c) (r_sepc c) (r_medeleg c) (r_mideleg c) (r_stvec c) (r_stimecmp c) (r_menvcfg c) (r_pmpcfg0 c) (r_pmpaddr0 c) (r_satp c) (r_scause c) (r_stval c) (r_mcounteren c) (r_time c) (r_tp c).
Definition w_sstatus (v : Z) (c : csrs) : csrs :=
  MkCsrs (r_mhartid c) (r_mstatus c) (r_mepc c) v (r_sip c) (r_sie c) (r_mie c) (r_sepc c) (r_medeleg c) (r_mideleg c) (r_stvec c) (r_stimecmp c) (r_menvcfg c) (r_pmpcfg0 c) (r_pmpaddr0 c) (r_satp c) (r_scause c) (r_stval c) (r_mcounteren c) (r_time c) (r_tp c).
Definition w_sip (v : Z) (c : csrs) : csrs :=
  MkCsrs (r_mhartid c) (r_mstatus c) (r_mepc c) (r_sstatus c) v (r_sie c) (r_mie c) (r_sepc c) (r_medeleg c) (r_mideleg c) (r_stvec c) (r_stimecmp c) (r_menvcfg c) (r_pmpcfg0 c) (r_pmpaddr0 c) (r_satp c) (r_scause c) (r_stval c) (r_mcounteren c) (r_time c) (r_tp c).
Definition w_sie (v : Z) (c : csrs) : csrs :=
  MkCsrs (r_mhartid c) (r_mstatus c) (r_mepc c) (r_sstatus c) (r_sip c) v (r_mie c) (r_sepc c) (r_medeleg c) (r_mideleg c) (r_stvec c) (r_stimecmp c) (r_menvcfg c) (r_pmpcfg0 c) (r_pmpaddr0 c) (r_satp c) (r_scause c) (r_stval c) (r_mcounteren c) (r_time c) (r_tp c).
Definition w_mie (v : Z) (c : csrs) : csrs :=
  MkCsrs (r_mhartid c) (r_mstatus c) (r_mepc c) (r_sstatus c) (r_sip c) (r_sie c) v (r_sepc c) (r_medeleg c) (r_mideleg c) (r_stvec c) (r_stimecmp c) (r_menvcfg c) (r_pmpcfg0 c) (r_pmpaddr0 c) (r_satp c) (r_scause c) (r_stval c) (r_mcounteren c) (r_time c) (r_tp c).
Definition w_sepc (v : Z) (c : csrs) : csrs :=
  MkCsrs (r_mhartid c) (r_mstatus c) (r_mepc c) (r_sstatus c) (r_sip c) (r_sie c) (r_mie c) v (r_medeleg c) (r_mideleg c) (r_stvec c) (r_stimecmp c) (r_menvcfg c) (r_pmpcfg0 c) (r_pmpaddr0 c) (r_satp c) (r_scause c) (r_stval c) (r_mcounteren c) (r_time c) (r_tp c).
Definition w_medeleg (v : Z) (c : csrs) : csrs :=
  MkCsrs (r_mhartid c) (r_mstatus c) (r_mepc c) (r_sstatus c) (r_sip c) (r_sie c) (r_mie c) (r_sepc c) v (r_mideleg c) (r_stvec c) (r_stimecmp c) (r_menvcfg c) (r_pmpcfg0 c) (r_pmpaddr0 c) (r_satp c) (r_scause c) (r_stval c) (r_mcounteren c) (r_time c) (r_tp c).
Definition w_mideleg (v : Z) (c : csrs) : csrs :=
  MkCsrs (r_mhartid c) (r_mstatus c) (r_mepc c) (r_sstatus c) (r_sip c) (r_sie c) (r_mie c) (r_sepc c) (r_medeleg c) v (r_stvec c) (r_stimecmp c) (r_menvcfg c) (r_pmpcfg0 c) (r_pmpaddr0 c) (r_satp c) (r_scause c) (r_stval c) (r_mcounteren c) (r_time c) (r_tp c).
Definition w_stvec (v : Z) (c : csrs) : csrs :=
  MkCsrs (r_mhartid c) (r_mstatus c) (r_mepc c) (r_sstatus c) (r_sip c) (r_sie c) (r_mie c) (r_sepc c) (r_medeleg c) (r_mideleg c) v (r_stimecmp c) (r_menvcfg c) (r_pmpcfg0 c) (r_pmpaddr0 c) (r_satp c) (r_scause c) (r_stval c) (r_mcounteren c) (r_time c) (r_tp c).
Definition w_stimecmp (v : Z) (c : csrs) : csrs :=
  MkCsrs (r_mhartid c) (r_mstatus c) (r_mepc c) (r_sstatus c) (r_sip c) (r_sie c) (r_mie c) (r_sepc c) (r_medeleg c) (r_mideleg c) (r_stvec c) v (r_menvcfg c) (r_pmpcfg0 c) (r_pmpaddr0 c) (r_satp c) (r_scause c) (r_stval c) (r_mcounteren c) (r_time c) (r_tp c).
Definition w_menvcfg (v : Z) (c : csrs) : csrs :=
  MkCsrs (r_mhartid c) (r_mstatus c) (r_mepc c) (r_sstatus c) (r_sip c) (r_sie c) (r_mie c) (r_sepc c) (r_medeleg c) (r_mideleg c) (r_stvec c) (r_stimecmp c) v (r_pmpcfg0 c) (r_pmpaddr0 c) (r_satp c) (r_scause c) (r_stval c) (r_mcounteren c) (r_time c) (r_tp c).
Definition w_pmpcfg0 (v : Z) (c : csrs) : csrs :=
  MkCsrs (r_mhartid c) (r_mstatus c) (r_mepc c) (r_sstatus c) (r_sip c) (r_sie c) (r_mie c) (r_sepc c) (r_medeleg c) (r_mideleg c) (r_stvec c) (r_stimecmp c) (r_menvcfg c) v (r_pmpaddr0 c) (r_satp c) (r_scause c) (r_stval c) (r_mcounteren c) (r_time c) (r_tp c).
Definition w_pmpaddr0 (v : Z) (c : csrs) : csrs :=
  MkCsrs (r_mhartid c) (r_mstatus c) (r_mepc c) (r_sstatus c) (r_sip c) (r_sie c) (r_mie c) (r_sepc c) (r_medeleg c) (r_mideleg c) (r_stvec c) (r_stimecmp c) (r_menvcfg c) (r_pmpcfg0 c) v (r_satp c) (r_scause c) (r_stval c) (r_mcounteren c) (r_time c) (r_tp c).
Definition w_satp (v : Z) (c : csrs) : csrs :=
  MkCsrs (r_mhartid c) (r_mstatus c) (r_mepc c) (r_sstatus c) (r_sip c) (r_sie c) (r_mie c) (r_sepc c) (r_medeleg c) (r_mideleg c) (r_stvec c) (r_stimecmp c) (r_menvcfg c) (r_pmpcfg0 c) (r_pmpaddr0 c) v (r_scause c) (r_stval c) (r_mcounteren c) (r_time c) (r_tp c).
Definition w_mcounteren (v : Z) (c : csrs) : csrs :=
  MkCsrs (r_mhartid c) (r_mstatus c) (r_mepc c) (r_sstatus c) (r_sip c) (r_sie c) (r_mie c) (r_sepc c) (r_medeleg c) (r_mideleg c) (r_stvec c) (r_stimecmp c) (r_menvcfg c) (r_pmpcfg0 c) (r_pmpaddr0 c) (r_satp c) (r_scause c) (r_stval c) v (r_time c) (r_tp c).
Definition w_tp (v : Z) (c : csrs) : csrs :=
  MkCsrs (r_mhartid c) (r_mstatus c) (r_mepc c) (r_sstatus c) (r_sip c) (r_sie c) (r_mie c) (r_sepc c) (r_medeleg c) (r_mideleg c) (r_stvec c) (r_stimecmp c) (r_menvcfg c) (r_pmpcfg0 c) (r_pmpaddr0 c) (r_satp c) (r_scause c) (r_stval c) (r_mcounteren c) (r_time c) v.

Ltac csr_simpl := cbn [r_mhartid r_mstatus w_mstatus r_mepc w_mepc r_sstatus w_sstatus r_sip w_sip r_sie w_sie r_mie w_mie r_sepc w_sepc r_medeleg w_medeleg r_mideleg w_mideleg r_stvec w_stvec r_stimecmp w_stimecmp r_menvcfg w_menvcfg r_pmpcfg0 w_pmpcfg0 r_pmpaddr0 w_pmpaddr0 r_satp w_satp r_scause r_stval r_mcounteren w_mcounteren r_time r_tp w_tp].

Module Trap.
Import CString VM Sched Proc Fs Print Console Fork Exec Syscall.

Definition MSTATUS_MPP_MASK : Z := Z.shiftl 3 11.
Definition MSTATUS_MPP_S : Z := Z.shiftl 1 11.
Definition SSTATUS_SPP : Z := Z.shiftl 1 8.
Definition SSTATUS_SPIE : Z := Z.shiftl 1 5.
Definition SSTATUS_SIE : Z := Z.shiftl 1 1.
Definition SIE_SEIE : Z := Z.shiftl 1 9.
Definition SIE_STIE : Z := Z.shiftl 1 5.
Definition MIE_STIE : Z := Z.shiftl 1 5.
Definition SATP_SV39 : Z := Z.shiftl 8 60.
Definition MAKE_SATP (pagetable : Z) : Z := Z.lor SATP_SV39 (Z.shiftr pagetable 12).

Definition intr_on (c : csrs) : csrs := w_sstatus (Z.lor (r_sstatus c) SSTATUS_SIE) c.
Definition intr_off (c : csrs) : csrs := w_sstatus (Z.land (r_sstatus c) (Z.lnot SSTATUS_SIE)) c.
Definition intr_get (c : csrs) : bool := has (r_sstatus c) SSTATUS_SIE.

(** ** start.c *)

Definition timerinit (c : csrs) : csrs :=
  let c := w_mie (Z.lor (r_mie c) MIE_STIE) c in
  let c := w_menvcfg (Z.lor (r_menvcfg c) (Z.shiftl 1 63)) c in
  let c := w_mcounteren (Z.lor (r_mcounteren c) 2) c in
  w_stimecmp (u64 (r_time c + 1000000)) c.

(** The registers at the mret; [main] is the address of main(). *)
Definition start (main : Z) (c : csrs) : csrs :=
  let x := r_mstatus c in
  let x := Z.land x (Z.lnot MSTATUS_MPP_MASK) in
  let x := Z.lor x MSTATUS_MPP_S in
  let c := w_mstatus x c in
  let c := w_mepc main c in
  let c := w_satp 0 c in
  let c := w_medeleg 0xffff c in
  let c := w_mideleg 0xffff c in
  let c := w_sie (Z.lor (Z.lor (r_sie c) SIE_SEIE) SIE_STIE) c in
  let c := w_pmpaddr0 0x3fffffffffffff c in
  let c := w_pmpcfg0 0xf c in
  let c := timerinit c in
  let id := s32 (r_mhartid c) in
  w_tp (u64 id) c.

(** ** plic.c *)

Definition UART0_IRQ : Z := 10.
Definition VIRTIO0_IRQ : Z := 1.
Definition PLIC_SENABLE (hart : Z) : Z := PLIC + 0x2080 + hart * 0x100.
Definition PLIC_SPRIORITY (hart : Z) : Z := PLIC + 0x201000 + hart * 0x2000.
Definition PLIC_SCLAIM (hart : Z) : Z := PLIC + 0x201004 + hart * 0x2000.

(** The registers of the PLIC are at fixed addresses of memory. *)
Definition plicinit : K unit :=
  put_mem (fun m => store32 m (PLIC + UART0_IRQ * 4) 1) ;;
  put_mem (fun m => store32 m (PLIC + VIRTIO0_IRQ * 4) 1).

Definition plicinithart : K unit :=
  hart <- gets k_cpuid ;;
  put_mem (fun m => store32 m (PLIC_SENABLE hart) (Z.lor (Z.shiftl 1 UART0_IRQ) (Z.shiftl 1 VIRTIO0_IRQ))) ;;
  put_mem (fun m => store32 m (PLIC_SPRIORITY hart) 0).

Definition plic_complete (irq : Z) : K unit :=
  hart <- gets k_cpuid ;;
  put_mem (fun m => store32 m (PLIC_SCLAIM hart) irq).

(** ** trap.c *)

(** What the devices answer: the interrupt the PLIC hands out, and the uart's status and
    input. *)
Record device : Type := MkDevice { dv_irq : Z; dv_tx_idle : bool; dv_input : list Z }.

(** Addresses of code the handlers name. *)
Class Vectors := { image_kernelvec : Z; image_uservec : Z; image_userret : Z; image_usertrap : Z }.

(** The control registers in which a process runs on in state [s] that had [c] before it gave up
    the CPU or was interrupted.  Of them, satp is the same on every hart in the kernel:
    kvminithart() writes kernel_pagetable, and userret and uservec change and restore it. *)
Class Harts := {
  resume_csrs : kstate -> csrs -> csrs;
  resume_satp s c : r_satp (resume_csrs s c) = r_satp c
}.

(** virtio_disk_intr() in the kernel. *)
#[export] Instance kernel_driver : Virtio.Driver kstate := {|
  Virtio.drv_disk := fun s => vd_disk (k_vdisk s);
  Virtio.drv_set_disk := fun f s => set_k_vdisk (MkVdisk (f (vd_disk (k_vdisk s))) (vd_isr (k_vdisk s))) s;
  Virtio.drv_isr := fun s => vd_isr (k_vdisk s);
  Virtio.drv_set_isr := fun v s => set_k_vdisk (MkVdisk (vd_disk (k_vdisk s)) v) s;
  Virtio.drv_put_buf := Bio.put_buf;
  Virtio.drv_wakeup := fun b => wakeup (Some (ChBuf b));
  Virtio.drv_acquire := acquire LDisk;
  Virtio.drv_release := release LDisk
|}.

Section code.
Context {img : Image} {env : Env} {vec : Vectors} {harts : Harts}.

Definition resumed (c : csrs) : K csrs := gets (fun s => resume_csrs s c).

Definition trapinithart (c : csrs) : csrs := w_stvec image_kernelvec c.

(** clockintr(), with the write of the timer register. *)
Definition clock_tick (c : csrs) : K csrs :=
  clockintr ;;
  retM (w_stimecmp (u64 (r_time c + 1000000)) c).

Definition devintr (d : device) (c : csrs) : K (Z * csrs) :=
  if r_scause c =? 0x8000000000000009 then
    let irq := dv_irq d in
    (if irq =? UART0_IRQ then uartintr (dv_tx_idle d) (dv_input d)
     else if irq =? VIRTIO0_IRQ then Virtio.virtio_disk_intr
     else whenM (negb (irq =? 0)) (printf (chars "unexpected interrupt irq=%d" ++ [newline]) [AInt irq])) ;;
    whenM (negb (irq =? 0)) (plic_complete irq) ;;
    retM (1, c)
  else if r_scause c =? 0x8000000000000005 then
    c <- clock_tick c ;;
    retM (2, c)
  else retM (0, c).

Definition prepare_return (c : csrs) : K csrs :=
  p <- myproc ;;
  let c := intr_off c in
  let c := w_stvec (u64 (TRAMPOLINE + (image_uservec - image_trampoline))) c in
  q <- get_proc p id ;;
  let tf := p_trapframe q in
  put_mem (fun m => store64 m (tf + TF_kernel_satp) (r_satp c)) ;;
  put_mem (fun m => store64 m (tf + TF_kernel_sp) (u64 (p_kstack q + PGSIZE))) ;;
  put_mem (fun m => store64 m (tf + TF_kernel_trap) image_usertrap) ;;
  put_mem (fun m => store64 m (tf + TF_kernel_hartid) (r_tp c)) ;;
  let x := r_sstatus c in
  let x := Z.land x (Z.lnot SSTATUS_SPP) in
  let x := Z.lor x SSTATUS_SPIE in
  let c := w_sstatus x c in
  epc <- get_mem (fun m => load64 m (tf + TF_epc)) ;;
  retM (w_sepc epc c).

(** The branches of usertrap() on the cause; the result is which_dev. *)
Definition handle_cause (d : device) (p : nat) (c : csrs) : K (Z * csrs) :=
  tf <- get_proc p p_trapframe ;;
  if r_scause c =? 8 then
    kd <- killed p ;;
    (if negb (kd =? 0) then kexit (-1) else retM 0) ;;
    put_mem (fun m => store64 m (tf + TF_epc) (u64 (load64 m (tf + TF_epc) + 4))) ;;
    let c := intr_on c in
    syscall ;;
    c <- resumed c ;;
    retM (0, c)
  else
  '(which_dev, c) <- devintr d c ;;
  if negb (which_dev =? 0) then retM (which_dev, c) else
  pt <- get_proc p p_pagetable ;;
  f <- (if (r_scause c =? 15) || (r_scause c =? 13) then vmfault pt (r_stval c) else retM 0) ;;
  if negb (f =? 0) then retM (0, c) else
  pid <- get_proc p p_pid ;;
  printf (chars "usertrap(): unexpected scause 0x%lx pid=%d" ++ [newline]) [AInt (r_scause c); AInt pid] ;;
  printf (chars "            sepc=0x%lx stval=0x%lx" ++ [newline]) [AInt (r_sepc c); AInt (r_stval c)] ;;
  setkilled p ;;
  retM (0, c).

(** The result is the satp for the user page table. *)
Definition usertrap (d : device) (c : csrs) : K (Z * csrs) :=
  if has (r_sstatus c) SSTATUS_SPP then panic "usertrap: not from user mode" else
  let c := w_stvec image_kernelvec c in
  p <- myproc ;;
  tf <- get_proc p p_trapframe ;;
  put_mem (fun m => store64 m (tf + TF_epc) (r_sepc c)) ;;
  '(which_dev, c) <- handle_cause d p c ;;
  kd <- killed p ;;
  (if negb (kd =? 0) then kexit (-1) else retM 0) ;;
  c <- (if which_dev =? 2 then yield ;; resumed c else retM c) ;;
  c <- prepare_return c ;;
  pt <- get_proc p p_pagetable ;;
  retM (MAKE_SATP pt, c).

Definition kerneltrap (d : device) (c : csrs) : K csrs :=
  let sepc := r_sepc c in
  let sstatus := r_sstatus c in
  let scause := r_scause c in
  if negb (has sstatus SSTATUS_SPP) then panic "kerneltrap: not from supervisor mode" else
  if intr_get c then panic "kerneltrap: interrupts enabled" else
  '(which_dev, c) <- devintr d c ;;
  if which_dev =? 0 then
    printf (chars "scause=0x%lx sepc=0x%lx stval=0x%lx" ++ [newline])
      [AInt scause; AInt (r_sepc c); AInt (r_stval c)] ;;
    panic "kerneltrap"
  else
  cur <- gets k_cur ;;
  c <- (if (which_dev =? 2) && bool_decide (is_Some cur) then yield ;; resumed c else retM c) ;;
  let c := w_sepc sepc c in
  retM (w_sstatus sstatus c).

(** ** proc.c: forkret(); the result is the address it jumps to and its argument. *)
Definition init_path : list Z := chars "/init".

Definition forkret (c : csrs) : K (Z * Z * csrs) :=
  p <- myproc ;;
  release (LProc p) ;;
  first <- getf fs_first ;;
  c <- (if negb (first =? 0) then
      fsinit ROOTDEV ;;
      putf (set_fs_first 0) ;;
      r <- kexec init_path [init_path] ;;
      tf <- get_proc p p_trapframe ;;
      put_mem (fun m => store64 m (tf + TF_a0) (u64 r)) ;;
      a0 <- get_mem (fun m => load64 m (tf + TF_a0)) ;;
      if a0 =? u64 (-1) then panic "exec" else resumed c
    else retM c) ;;
  c <- prepare_return c ;;
  pt <- get_proc p p_pagetable ;;
  retM (u64 (TRAMPOLINE + (image_userret - image_trampoline)), MAKE_SATP pt, c).

End code.
End Trap.
