(* ===== verification/FsRun.v ===== *)
(** * Running file system code

    The code of the file system changes the file system's state and, through wakeup(), the
    states of sleeping processes; nothing else.  [runs H c x a H' x'] says that [c], called by
    the process [me] with the spinlocks [H] held and the file system in state [x], returns [a]
    with [H'] held and the file system in state [x']. *)

From S2P Require Import Prelude Machine FsData State Locks CString VM Sched SchedProofs Bio Print Console.

Module FsRun.
Import CString VM Sched SchedProofs Sleeplock Bio Print Console.

(** What wakeup() may do to a process. *)
Definition woken (q q' : proc) : Prop := q' = q \/ (p_state q = SLEEPING /\ q' = set_p_state RUNNABLE q).

Record fs_step (s s' : kstate) : Prop := {
  fst_rest : s' = set_k_held (k_held s') (set_k_fs (k_fs s') (set_k_procs (k_procs s') s));
  fst_woken : Forall2 woken (k_procs s) (k_procs s')
}.

Lemma woken_refl q : woken q q.
Proof. by left. Qed.

Lemma woken_trans q1 q2 q3 : woken q1 q2 -> woken q2 q3 -> woken q1 q3.
Proof. intros [->|[H1 ->]] [->|[H2 ->]]; [by left|by right|by right|done]. Qed.

Lemma fs_step_refl s : fs_step s s.
Proof. split; [by destruct s|]. induction (k_procs s); constructor; [apply woken_refl|done]. Qed.

Lemma fs_step_trans s1 s2 s3 : fs_step s1 s2 -> fs_step s2 s3 -> fs_step s1 s3.
Proof.
  intros [H1 W1] [H2 W2]. split.
  - rewrite H2. rewrite H1. ksimpl. done.
  - clear H1 H2. revert W2. generalize (k_procs s3). induction W1 as [|q1 q2 l1 l2 Hq _ IH]; intros l3 W2.
    + inversion W2. constructor.
    + apply Forall2_cons_inv_l in W2 as (q3 & l4 & Hq' & W2 & ->). constructor; [by eapply woken_trans|auto].
Qed.

(** The caller. *)
Record ctx (p : nat) (pid : Z) (H : gset lockid) (s : kstate) : Prop := {
  ctx_cur : k_cur s = Some p;
  ctx_lt : (p < NPROC)%nat;
  ctx_pid : p_pid (the_proc p s) = pid;
  ctx_held : k_held s = H;
  ctx_table : table_ok s
}.

(** The calling process and its pid. *)
Class Caller := { me : nat; my_pid : Z }.

Section runs.
Context {caller : Caller}.

Definition runs {A} (H : gset lockid) (c : K A) (x : fsstate) (a : A) (H' : gset lockid) (x' : fsstate) : Prop :=
  forall s, ctx me my_pid H s -> k_fs s = x ->
  exists s', c s = Ok a s' /\ k_fs s' = x' /\ ctx me my_pid H' s' /\ fs_step s s'.

Lemma runs_ret {A} H x (a : A) : runs H (retM a) x a H x.
Proof. intros s Hc Hx. exists s. split_and!; try done. apply fs_step_refl. Qed.

Lemma runs_bind {A B} H H1 H2 (c : K A) (f : A -> K B) x a x1 b x2 :
  runs H c x a H1 x1 -> runs H1 (f a) x1 b H2 x2 -> runs H (bindM c f) x b H2 x2.
Proof.
  intros R1 R2 s Hc Hx. destruct (R1 s Hc Hx) as (s1 & E1 & Hx1 & Hc1 & F1).
  destruct (R2 s1 Hc1 Hx1) as (s2 & E2 & Hx2 & Hc2 & F2).
  exists s2. rewrite (bind_ok _ _ _ _ _ E1). split_and!; try done. by eapply fs_step_trans.
Qed.

(** Changing only the file system's state. *)
Lemma runs_modify H x (f : kstate -> kstate) (g : fsstate -> fsstate) :
  (forall s, f s = set_k_fs (g (k_fs s)) s) -> runs H (modify f) x tt H (g x).
Proof.
  intros E s [H1 H2 H3 H4 [H5 H6]] Hx. exists (f s). split; [done|]. rewrite E, Hx.
  split; [done|]. split; [by split|]. destruct (fs_step_refl s) as [F1 F2]. split; [by destruct s|done].
Qed.

Lemma runs_gets {A} H x (f : kstate -> A) a :
  (forall s, ctx me my_pid H s -> k_fs s = x -> f s = a) -> runs H (gets f) x a H x.
Proof.
  intros E s Hc Hx. exists s. rewrite <- (E s Hc Hx). split_and!; try done. apply fs_step_refl.
Qed.

Lemma runs_getf {A} H x (f : fsstate -> A) : runs H (getf f) x (f x) H x.
Proof. apply runs_gets. by intros s _ ->. Qed.

Lemma runs_putf H x g : runs H (putf g) x tt H (g x).
Proof. by apply runs_modify. Qed.

Definition fbuf (i : nat) (x : fsstate) : buf := default buf0 (fs_buf x !! i).
Definition finode (i : nat) (x : fsstate) : inode := default inode0 (fs_inode x !! i).

Lemma runs_get_buf {A} H x i (f : buf -> A) : runs H (get_buf i f) x (f (fbuf i x)) H x.
Proof. apply runs_gets. by intros s _ <-. Qed.

Lemma runs_get_inode {A} H x i (f : inode -> A) : runs H (get_inode i f) x (f (finode i x)) H x.
Proof. apply runs_gets. by intros s _ <-. Qed.

Lemma runs_acquire H x lk : lk ∉ H -> (forall i, lk <> LProc i) -> runs H (acquire lk) x tt ({[lk]} ∪ H) x.
Proof.
  intros Hn Hp s [H1 H2 H3 H4 [H5 H6]] Hx. rewrite <- H4 in Hn. rewrite (acquire_ok _ _ Hn).
  eexists. split; [done|]. split; [done|]. split.
  - split; try done; [ksimpl; by rewrite H4|]. split; [done|]. intros i. ksimpl. specialize (H6 i). specialize (Hp i).
    set_solver.
  - destruct (fs_step_refl s) as [F1 F2]. split; [by destruct s|done].
Qed.

Lemma runs_release H x lk : lk ∈ H -> runs H (release lk) x tt (H ∖ {[lk]}) x.
Proof.
  intros Hn s [H1 H2 H3 H4 [H5 H6]] Hx. rewrite <- H4 in Hn. rewrite (release_ok _ _ Hn).
  eexists. split; [done|]. split; [done|]. split.
  - split; try done; [ksimpl; by rewrite H4|]. split; [done|]. intros i. ksimpl. specialize (H6 i).
    set_solver.
  - destruct (fs_step_refl s) as [F1 F2]. split; [by destruct s|done].
Qed.

Lemma runs_myproc H x : runs H myproc x me H x.
Proof.
  intros s Hc Hx. exists s. split; [|split_and!; try done; apply fs_step_refl].
  unfold myproc. mrun. by rewrite (ctx_cur _ _ _ _ Hc).
Qed.

Lemma runs_pid H x : runs H (get_proc me p_pid) x my_pid H x.
Proof. apply runs_gets. intros s Hc _. apply Hc. Qed.

Lemma woken_imap (f : nat -> proc -> proc) l :
  (forall i q, woken q (f i q)) -> Forall2 woken l (imap f l).
Proof.
  intros Hf. apply Forall2_same_length_lookup. split; [by rewrite length_imap|].
  intros i q q' Hq. rewrite list_lookup_imap, Hq. intros [= <-]. apply Hf.
Qed.

Lemma wake_proc_woken ch c i q : woken q (wake_proc ch c i q).
Proof. unfold wake_proc. case_decide; [right; tauto|by left]. Qed.

Lemma runs_wakeup H x ch : runs H (wakeup ch) x tt H x.
Proof.
  intros s [H1 H2 H3 H4 H5] Hx. rewrite (wakeup_spec ch s H5). eexists. split; [done|]. split; [done|].
  pose proof (woken_imap _ (k_procs s) (wake_proc_woken ch (k_cur s))) as Hw. split.
  - destruct H5 as [Hl Hp]. split; try done; [|split; [by ksimpl; rewrite length_imap|done]].
    unfold the_proc. ksimpl. rewrite list_lookup_imap. unfold the_proc in H3.
    destruct (k_procs s !! me) as [q|]; [|done]. cbn in *. destruct (wake_proc_woken ch (k_cur s) me q) as [->|[_ ->]]; done.
  - split; [by destruct s|exact Hw].
Qed.

Lemma runs_if {A} H x (b : bool) (c1 c2 : K A) a H' x' :
  runs H (if b then c1 else c2) x a H' x' <->
  if b then runs H c1 x a H' x' else runs H c2 x a H' x'.
Proof. by destruct b. Qed.

(** A loop whose body changes the state along an invariant. *)
Lemma runs_for {A R} H (I : list A -> fsstate -> Prop) (l : list A) (body : A -> K (ctl R)) x :
  I l x ->
  (forall i l' x0, I (i :: l') x0 -> exists x1, runs H (body i) x0 Continue H x1 /\ I l' x1) ->
  exists x', runs H (for_loop l body) x None H x' /\ I [] x'.
Proof.
  intros HI Hb. revert x HI. induction l as [|i l IH]; intros x HI.
  - exists x. split; [apply runs_ret|done].
  - destruct (Hb _ _ _ HI) as (x1 & R1 & HI1). destruct (IH x1 HI1) as (x' & R2 & HI2).
    exists x'. split; [|done]. cbn [for_loop]. eapply runs_bind; [exact R1|exact R2].
Qed.

(** A scan that only looks until it finds its element. *)
Lemma runs_scan {A R} H (pre : list A) i post (body : A -> K (ctl R)) x r H' x' :
  Forall (fun j => runs H (body j) x Continue H x) pre ->
  runs H (body i) x (Return r) H' x' ->
  runs H (for_loop (pre ++ i :: post) body) x (Some r) H' x'.
Proof.
  intros Hpre Hi. induction Hpre as [|j pre Hj _ IH]; cbn [app for_loop].
  - eapply runs_bind; [exact Hi|apply runs_ret].
  - eapply runs_bind; [exact Hj|exact IH].
Qed.

Lemma runs_scan_none {A R} H (l : list A) (body : A -> K (ctl R)) x :
  Forall (fun j => runs H (body j) x Continue H x) l ->
  runs H (for_loop l body) x None H x.
Proof.
  induction 1 as [|j l Hj _ IH]; cbn [for_loop]; [apply runs_ret|].
  eapply runs_bind; [exact Hj|exact IH].
Qed.

(** ** printf() *)

(** The console has been sent [out]. *)
Definition printed (out : list Z) (x : fsstate) : fsstate := set_fs_out (fs_out x ++ out) x.

Lemma printed_twice a b x : printed b (printed a x) = printed (a ++ b) x.
Proof. unfold printed. fsimpl. by rewrite app_assoc. Qed.

Lemma printed_nil x : printed [] x = x.
Proof. unfold printed. rewrite app_nil_r. by destruct x. Qed.

(** What consputc() sends to the device for a character. *)
Definition sent (c : Z) : list Z := if c =? BACKSPACE then [u8 8; u8 32; u8 8] else [u8 c].

Lemma runs_consputc H x c : runs H (consputc c) x tt H (printed (sent c) x).
Proof.
  unfold consputc, uartputc_sync, sent, write_thr. destruct (c =? BACKSPACE); [|apply runs_putf].
  change [u8 8; u8 32; u8 8] with ([u8 8] ++ [u8 32] ++ [u8 8]). rewrite <- !printed_twice.
  do 2 (eapply runs_bind; [apply runs_putf|]). apply runs_putf.
Qed.

Lemma runs_printf H x fmt args :
  LPr ∉ H -> runs H (printf fmt args) x tt H (printed (format fmt args ≫= sent) x).
Proof.
  intros Hl. unfold printf. eapply runs_bind; [by apply runs_acquire|].
  pose proof (fun y => runs_release ({[LPr]} ∪ H) y LPr ltac:(set_solver)) as Hr.
  rewrite held_add_remove in Hr by done. eapply runs_bind; [|apply Hr]. clear Hr.
  revert x. induction (format fmt args) as [|c l IH]; intros x; cbn [for_loop mbind list_bind].
  - rewrite printed_nil. apply runs_ret.
  - eapply runs_bind; [eapply runs_bind; [apply runs_consputc|apply runs_ret]|].
    rewrite <- printed_twice. apply IH.
Qed.

End runs.

(** Stepping through straight-line code. *)
Ltac rstep :=
  lazymatch goal with
  | |- runs _ (bindM (bindM _ _) _) _ _ _ _ => eapply runs_bind; [rstep|cbv beta]
  | |- runs _ (bindM (acquire _) _) _ _ _ _ => eapply runs_bind; [apply runs_acquire; [set_solver|done]|cbv beta]
  | |- runs _ (bindM (release _) _) _ _ _ _ => eapply runs_bind; [apply runs_release; set_solver|cbv beta]
  | |- runs _ (bindM (get_buf _ _) _) _ _ _ _ => eapply runs_bind; [apply runs_get_buf|cbv beta]
  | |- runs _ (bindM (get_inode _ _) _) _ _ _ _ => eapply runs_bind; [apply runs_get_inode|cbv beta]
  | |- runs _ (bindM (getf _) _) _ _ _ _ => eapply runs_bind; [apply runs_getf|cbv beta]
  | |- runs _ (bindM (putf _) _) _ _ _ _ => eapply runs_bind; [apply runs_putf|cbv beta]
  | |- runs _ (bindM myproc _) _ _ _ _ => eapply runs_bind; [apply runs_myproc|cbv beta]
  | |- runs _ (bindM (get_proc _ p_pid) _) _ _ _ _ => eapply runs_bind; [apply runs_pid|cbv beta]
  | |- runs _ (bindM (wakeup _) _) _ _ _ _ => eapply runs_bind; [apply runs_wakeup|cbv beta]
  | |- runs _ (bindM (retM _) _) _ _ _ _ => eapply runs_bind; [apply runs_ret|cbv beta]
  end.

End FsRun.
