(* ===== verification/BioProofs.v ===== *)
(** * The buffer cache as a view of the disk

    [cur x n] is the content of block [n] as bread() returns it: the cached copy if there is
    one, the disk otherwise.  [cache x] is the invariant of the cache; bread(), bwrite(),
    brelse(), bpin() and bunpin() are characterised by what they do to [cur], to the disk and
    to the reference counts. *)

From S2P Require Import Prelude Machine FsData State Locks CString VM Sched SchedProofs Bio FsRun.

Module BioProofs.
Import CString VM Sched SchedProofs Sleeplock Bio FsRun.

(** ** Updates of the tables *)

Lemma alter_alter {A} (f g : A -> A) i (l : list A) : alter f i (alter g i l) = alter (fun x => f (g x)) i l.
Proof.
  apply list_eq. intros j. destruct (decide (i = j)) as [->|].
  - rewrite !list_lookup_alter_eq. by destruct (l !! j).
  - by rewrite !list_lookup_alter_ne.
Qed.

Lemma upd_buf_twice i f g x : upd_buf i f (upd_buf i g x) = upd_buf i (fun b => f (g b)) x.
Proof. unfold upd_buf. fsimpl. by rewrite alter_alter. Qed.

Lemma upd_inode_twice i f g x : upd_inode i f (upd_inode i g x) = upd_inode i (fun b => f (g b)) x.
Proof. unfold upd_inode. fsimpl. by rewrite alter_alter. Qed.

Lemma upd_sleep_twice sl f g x : upd_sleep sl f (upd_sleep sl g x) = upd_sleep sl (fun l => f (g l)) x.
Proof. destruct sl; cbn [upd_sleep]; [apply upd_buf_twice|apply upd_inode_twice]. Qed.

Definition fsleep (sl : sleepid) (x : fsstate) : sleeplock :=
  match sl with SBuf i => b_lock (fbuf i x) | SInode i => i_lock (finode i x) end.

Section runs.
Context {env : Env} {caller : Caller}.

Lemma runs_get_sleep {A} H x sl (f : sleeplock -> A) : runs H (get_sleep sl f) x (f (fsleep sl x)) H x.
Proof. apply runs_gets. intros s _ <-. by destruct sl. Qed.

Lemma runs_put_sleep H x sl f : runs H (put_sleep sl f) x tt H (upd_sleep sl f x).
Proof. apply runs_putf. Qed.

Ltac lock_set := rewrite ?held_add_remove by done.

Lemma acquiresleep_run H x sl :
  slk_locked (fsleep sl x) = 0 -> spin_of sl ∉ H ->
  runs H (acquiresleep sl) x tt H (upd_sleep sl (fun _ => MkSleeplock 1 my_pid) x).
Proof.
  intros Hl Hn. unfold acquiresleep. eapply runs_bind; [apply runs_acquire; [done|by destruct sl]|].
  eapply runs_bind.
  { instantiate (1 := x). instantiate (2 := tt). instantiate (1 := {[spin_of sl]} ∪ H).
    destruct env_patience; cbn [acquiresleep_loop];
      (eapply runs_bind; [apply runs_get_sleep|]); rewrite Hl; apply runs_ret. }
  eapply runs_bind; [apply runs_put_sleep|]. rstep. rstep.
  eapply runs_bind; [apply runs_put_sleep|]. rewrite upd_sleep_twice.
  rewrite <- (held_add_remove (spin_of sl) H) at 2 by done. apply runs_release. set_solver.
Qed.

Lemma releasesleep_run H x sl :
  spin_of sl ∉ H -> runs H (releasesleep sl) x tt H (upd_sleep sl (fun _ => sleeplock0) x).
Proof.
  intros Hn. unfold releasesleep. eapply runs_bind; [apply runs_acquire; [done|by destruct sl]|].
  eapply runs_bind; [apply runs_put_sleep|]. eapply runs_bind; [apply runs_put_sleep|].
  rewrite upd_sleep_twice. rstep.
  rewrite <- (held_add_remove (spin_of sl) H) at 2 by done. apply runs_release. set_solver.
Qed.

Lemma holdingsleep_run H x sl :
  spin_of sl ∉ H ->
  runs H (holdingsleep sl) x (negb (slk_locked (fsleep sl x) =? 0) && (slk_pid (fsleep sl x) =? my_pid)) H x.
Proof.
  intros Hn. unfold holdingsleep. eapply runs_bind; [apply runs_acquire; [done|by destruct sl]|].
  eapply runs_bind; [apply runs_get_sleep|]. eapply runs_bind; [apply runs_get_sleep|]. rstep. rstep.
  eapply runs_bind; [apply runs_release; set_solver|]. rewrite held_add_remove by done. apply runs_ret.
Qed.

End runs.

(** ** The view *)

(** The buffer that holds block [n] of the disk. *)
Definition slot (x : fsstate) (n : Z) : option nat :=
  List.find (fun i => (b_dev (fbuf i x) =? ROOTDEV) && (b_blockno (fbuf i x) =? n)) (seq 0 NBUF).

Definition cur (x : fsstate) (n : Z) : list Z :=
  match slot x n with
  | Some i => if b_valid (fbuf i x) =? 0 then fs_disk x n else b_data (fbuf i x)
  | None => fs_disk x n
  end.

Definition refs (x : fsstate) (n : Z) : Z :=
  match slot x n with Some i => b_refcnt (fbuf i x) | None => 0 end.

Definition block_lock (x : fsstate) (n : Z) : sleeplock :=
  match slot x n with Some i => b_lock (fbuf i x) | None => sleeplock0 end.

(** Buffers in use. *)
Definition used (x : fsstate) : nat := length (List.filter (fun i => negb (b_refcnt (fbuf i x) =? 0)) (seq 0 NBUF)).

Record cache (x : fsstate) : Prop := {
  ca_len : length (fs_buf x) = NBUF;
  ca_lru : Permutation (fs_lru x) (seq 0 NBUF);
  ca_uniq i j : (i < NBUF)%nat -> (j < NBUF)%nat -> b_dev (fbuf i x) = ROOTDEV -> b_dev (fbuf j x) = ROOTDEV ->
    b_blockno (fbuf i x) = b_blockno (fbuf j x) -> i = j;
  ca_clean n : refs x n = 0 -> cur x n = fs_disk x n;
  ca_free n : refs x n = 0 -> block_lock x n = sleeplock0;
  ca_other i : (i < NBUF)%nat -> b_dev (fbuf i x) <> ROOTDEV -> b_refcnt (fbuf i x) = 0 /\ b_lock (fbuf i x) = sleeplock0;
  ca_range i : (i < NBUF)%nat -> 0 <= b_refcnt (fbuf i x) < 2 ^ 31
}.

(** Only the cache changed, and not the disk. *)
Definition bio_only (x x' : fsstate) : Prop := x' = set_fs_buf (fs_buf x') (set_fs_lru (fs_lru x') x).

(** The caller has buffer [b] with block [n] locked. *)
Record has_buf {caller : Caller} (x : fsstate) (b : nat) (n : Z) : Prop := {
  hb_slot : slot x n = Some b;
  hb_valid : b_valid (fbuf b x) <> 0;
  hb_lock : b_lock (fbuf b x) = MkSleeplock 1 my_pid
}.

Lemma slot_Some x n i :
  cache x -> slot x n = Some i <-> (i < NBUF)%nat /\ b_dev (fbuf i x) = ROOTDEV /\ b_blockno (fbuf i x) = n.
Proof.
  intros Hc. unfold slot. split.
  - intros H. apply List.find_some in H as [Hi Hb]. apply in_seq in Hi. apply andb_true_iff in Hb.
    rewrite !Z.eqb_eq in Hb. split; [lia|tauto].
  - intros (Hi & Hd & Hb). destruct (List.find _ _) as [j|] eqn:E.
    + apply List.find_some in E as [Hj E]. apply in_seq in Hj. apply andb_true_iff in E.
      rewrite !Z.eqb_eq in E. f_equal. apply (ca_uniq _ Hc); try lia; try tauto.
    + pose proof (List.find_none _ _ E i ltac:(apply in_seq; lia)) as Hn.
      cbv beta in Hn. rewrite Hd, Hb, !Z.eqb_refl in Hn. done.
Qed.

Lemma slot_None x n :
  slot x n = None -> forall i, (i < NBUF)%nat -> ~ (b_dev (fbuf i x) = ROOTDEV /\ b_blockno (fbuf i x) = n).
Proof.
  intros H i Hi [Hd Hb]. pose proof (List.find_none _ _ H i ltac:(apply in_seq; lia)) as Hn.
  cbv beta in Hn. rewrite Hd, Hb, !Z.eqb_refl in Hn. done.
Qed.

(** ** One buffer is replaced *)

Definition nz (r : Z) : nat := if r =? 0 then 0 else 1.

(** Block [n] now has content [c], reference count [r] and lock [l]; the other blocks are as
    before. *)
Record view_step (x x' : fsstate) (n : Z) (c : list Z) (r : Z) (l : sleeplock) : Prop := {
  vs_cache : cache x';
  vs_bio : bio_only x x';
  vs_cur m : cur x' m = if m =? n then c else cur x m;
  vs_refs m : refs x' m = if m =? n then r else refs x m;
  vs_lock m : block_lock x' m = if m =? n then l else block_lock x m;
  vs_used : (used x' + nz (refs x n) = used x + nz r)%nat;
  vs_keep m b : m <> n -> slot x m = Some b -> refs x m <> 0 -> slot x' m = Some b /\ fbuf b x' = fbuf b x
}.

Lemma fbuf_upd x i f j :
  (i < length (fs_buf x))%nat -> fbuf j (upd_buf i f x) = if decide (j = i) then f (fbuf i x) else fbuf j x.
Proof.
  intros Hi. unfold fbuf, upd_buf. fsimpl. case_decide as Hj.
  - subst. rewrite list_lookup_alter_eq. destruct (lookup_lt_is_Some_2 _ _ Hi) as [y ->]. done.
  - by rewrite list_lookup_alter_ne.
Qed.

Lemma filter_count (P Q : nat -> bool) i l :
  NoDup l -> i ∈ l -> (forall j, j ∈ l -> j <> i -> P j = Q j) ->
  (length (List.filter P l) + (if Q i then 1 else 0) = length (List.filter Q l) + (if P i then 1 else 0))%nat.
Proof.
  induction l as [|j l IH]; intros Hnd Hi He; [by apply not_elem_of_nil in Hi|].
  apply NoDup_cons in Hnd as [Hj Hnd]. cbn [List.filter].
  destruct (decide (j = i)) as [->|Hne].
  - assert (E : List.filter P l = List.filter Q l).
    { apply List.filter_ext_in. intros k Hk. apply list_elem_of_In in Hk. apply He; [by right|]. by intros ->. }
    rewrite E. destruct (P i), (Q i); cbn; lia.
  - apply elem_of_cons in Hi as [->|Hi]; [done|].
    specialize (IH Hnd Hi (fun k Hk => He k (proj2 (elem_of_cons _ _ _) (or_intror Hk)))).
    rewrite (He j) by (done || by left). destruct (Q j); cbn; lia.
Qed.

Section replace.
Context (x : fsstate) (i : nat) (n : Z) (nb : buf).
Hypothesis (Hc : cache x) (Hi : (i < NBUF)%nat) (Hd : b_dev nb = ROOTDEV) (Hb : b_blockno nb = n).
Hypothesis Hslot : slot x n = Some i \/ (slot x n = None /\ b_refcnt (fbuf i x) = 0).

Let x' := upd_buf i (fun _ => nb) x.

Lemma replaced j : fbuf j x' = if decide (j = i) then nb else fbuf j x.
Proof. apply fbuf_upd. rewrite (ca_len _ Hc). done. Qed.

(** No other buffer holds [n]. *)
Lemma replace_other j :
  (j < NBUF)%nat -> j <> i -> b_dev (fbuf j x) = ROOTDEV -> b_blockno (fbuf j x) <> n.
Proof.
  intros Hj Hne Hdj Hbj. destruct Hslot as [Hs|[Hs _]].
  - apply (slot_Some x n i Hc) in Hs as (_ & H1 & H2). apply Hne, (ca_uniq _ Hc); try done. congruence.
  - by apply (slot_None _ _ Hs j Hj).
Qed.

Lemma replace_uniq j k :
  (j < NBUF)%nat -> (k < NBUF)%nat -> b_dev (fbuf j x') = ROOTDEV -> b_dev (fbuf k x') = ROOTDEV ->
  b_blockno (fbuf j x') = b_blockno (fbuf k x') -> j = k.
Proof.
  intros Hj Hk. rewrite !replaced. destruct (decide (j = i)) as [Ej|Ej], (decide (k = i)) as [Ek|Ek].
  - congruence.
  - intros _ Hdk E. destruct (replace_other k Hk Ek Hdk). congruence.
  - intros Hdj _ E. destruct (replace_other j Hj Ej Hdj). congruence.
  - by apply (ca_uniq _ Hc).
Qed.

Lemma slot_iff m j :
  slot x' m = Some j <-> (j < NBUF)%nat /\ b_dev (fbuf j x') = ROOTDEV /\ b_blockno (fbuf j x') = m.
Proof.
  unfold slot. split.
  - intros H. apply List.find_some in H as [Hj Hb']. apply in_seq in Hj. apply andb_true_iff in Hb'.
    rewrite !Z.eqb_eq in Hb'. split; [lia|tauto].
  - intros (Hj & Hdj & Hbj). destruct (List.find _ _) as [k|] eqn:E.
    + apply List.find_some in E as [Hk E]. apply in_seq in Hk. apply andb_true_iff in E.
      rewrite !Z.eqb_eq in E. f_equal. apply replace_uniq; try lia; try tauto.
    + pose proof (List.find_none _ _ E j ltac:(apply in_seq; lia)) as Hn.
      cbv beta in Hn. rewrite Hdj, Hbj, !Z.eqb_refl in Hn. done.
Qed.

Lemma replace_slot_n : slot x' n = Some i.
Proof. apply slot_iff. rewrite replaced, decide_True by done. done. Qed.

(** Another block keeps its buffer, or was in the recycled one. *)
Lemma replace_slot m :
  m <> n -> slot x' m = slot x m \/ (slot x m = Some i /\ slot x' m = None /\ b_refcnt (fbuf i x) = 0).
Proof.
  intros Hm. destruct (slot x m) as [j|] eqn:E.
  - destruct (decide (j = i)) as [->|Hne].
    + right. destruct Hslot as [Hs|[Hs Hr]].
      * apply (slot_Some _ _ _ Hc) in E, Hs. destruct E as (_ & _ & E), Hs as (_ & _ & Hs). congruence.
      * split; [done|]. split; [|done]. destruct (slot x' m) as [k|] eqn:E'; [|done]. exfalso.
        apply slot_iff in E' as (Hk & Hdk & Hbk). rewrite replaced in Hdk, Hbk.
        case_decide as Hki; [congruence|]. apply (slot_Some _ _ _ Hc) in E as (_ & E1 & E2).
        apply Hki, (ca_uniq _ Hc); try done. congruence.
    + left. apply (slot_Some _ _ _ Hc) in E. apply slot_iff. rewrite replaced, decide_False by done. done.
  - left. destruct (slot x' m) as [k|] eqn:E'; [|done]. exfalso. apply slot_iff in E' as (Hk & Hdk & Hbk).
    rewrite replaced in Hdk, Hbk. case_decide; [congruence|]. by apply (slot_None _ _ E k Hk).
Qed.

(** The recycled block was clean and unlocked, so dropping it from the cache shows nothing. *)
Lemma replace_other_view m :
  m <> n -> cur x' m = cur x m /\ refs x' m = refs x m /\ block_lock x' m = block_lock x m.
Proof.
  intros Hm. destruct (replace_slot m Hm) as [E|(E & E' & Hr)].
  - destruct (slot x m) as [j|] eqn:Ej.
    + assert (Hji : j <> i).
      { intros ->. apply slot_iff in E as (_ & _ & E). rewrite replaced, decide_True in E by done. congruence. }
      unfold cur, refs, block_lock. rewrite E, Ej, replaced, decide_False by done. done.
    + unfold cur, refs, block_lock. by rewrite E, Ej.
  - assert (Hz : refs x m = 0) by (unfold refs; by rewrite E).
    rewrite (ca_clean _ Hc _ Hz), (ca_free _ Hc _ Hz), Hz. unfold cur, refs, block_lock. by rewrite E'.
Qed.

Lemma replace_used : (used x' + nz (refs x n) = used x + nz (b_refcnt nb))%nat.
Proof.
  assert (Er : refs x n = b_refcnt (fbuf i x)).
  { unfold refs. destruct Hslot as [->|[-> ->]]; done. }
  unfold used. pose proof (filter_count (fun j => negb (b_refcnt (fbuf j x') =? 0))
    (fun j => negb (b_refcnt (fbuf j x) =? 0)) i (seq 0 NBUF)) as H.
  cbv beta in H. rewrite (replaced i), decide_True in H by done. rewrite Er. unfold nz.
  destruct (b_refcnt nb =? 0), (b_refcnt (fbuf i x) =? 0); cbn [negb] in H; apply H;
    try apply NoDup_seq; try (apply elem_of_seq; lia);
    intros j _ Hj; by rewrite replaced, decide_False.
Qed.

Lemma replace_view :
  0 <= b_refcnt nb < 2 ^ 31 ->
  (b_refcnt nb = 0 -> (b_valid nb <> 0 -> b_data nb = fs_disk x n) /\ b_lock nb = sleeplock0) ->
  view_step x x' n (if b_valid nb =? 0 then fs_disk x n else b_data nb) (b_refcnt nb) (b_lock nb).
Proof.
  intros Hr Hz. pose proof replace_slot_n as Hsn.
  assert (Hcn : cur x' n = if b_valid nb =? 0 then fs_disk x n else b_data nb)
    by (unfold cur; rewrite Hsn, replaced, decide_True by done; done).
  assert (Hrn : refs x' n = b_refcnt nb) by (unfold refs; rewrite Hsn, replaced, decide_True by done; done).
  assert (Hln : block_lock x' n = b_lock nb) by (unfold block_lock; rewrite Hsn, replaced, decide_True by done; done).
  split.
  - split.
    + unfold x', upd_buf. fsimpl. rewrite length_alter. apply Hc.
    + apply Hc.
    + apply replace_uniq.
    + intros m Hm. destruct (decide (m = n)) as [->|Hne].
      * rewrite Hcn. rewrite Hrn in Hm. destruct (Z.eqb_spec (b_valid nb) 0); [done|]. by apply Hz.
      * destruct (replace_other_view m Hne) as (-> & Er & _). rewrite Er in Hm. by apply (ca_clean _ Hc).
    + intros m Hm. destruct (decide (m = n)) as [->|Hne].
      * rewrite Hln. rewrite Hrn in Hm. by apply Hz.
      * destruct (replace_other_view m Hne) as (_ & Er & ->). rewrite Er in Hm. by apply (ca_free _ Hc).
    + intros j Hj. rewrite replaced. case_decide; [done|]. by apply (ca_other _ Hc).
    + intros j Hj. rewrite replaced. case_decide; [done|]. by apply (ca_range _ Hc).
  - unfold bio_only, x', upd_buf. by destruct x.
  - intros m. destruct (Z.eqb_spec m n) as [->|Hne]; [done|]. by apply replace_other_view.
  - intros m. destruct (Z.eqb_spec m n) as [->|Hne]; [done|]. by apply replace_other_view.
  - intros m. destruct (Z.eqb_spec m n) as [->|Hne]; [done|]. by apply replace_other_view.
  - apply replace_used.
  - intros m b Hm Hs Hr'. destruct (replace_slot m Hm) as [E|(E & _ & Hr0)].
    + split; [by rewrite E|]. rewrite replaced, decide_False; [done|]. intros ->. rewrite Hs in E.
      apply slot_iff in E as (_ & _ & E). rewrite replaced, decide_True in E by done. congruence.
    + exfalso. apply Hr'. unfold refs. by rewrite E.
Qed.

End replace.

(** ** The operations *)

(** The spinlocks the cache takes are free. *)
Definition locks_free (H : gset lockid) : Prop := (LBcache ∉ H) /\ forall i, LSleepBuf i ∉ H.

Lemma lru_lt x i : cache x -> ((i ∈ fs_lru x) <-> (i < NBUF)%nat).
Proof. intros Hc. rewrite (ca_lru _ Hc), elem_of_seq. lia. Qed.

Lemma cache_range x n : cache x -> 0 <= refs x n < 2 ^ 31.
Proof.
  intros Hc. unfold refs. destruct (slot x n) as [i|] eqn:E; [|lia].
  apply (slot_Some _ _ _ Hc) in E as [Hi _]. by apply (ca_range _ Hc).
Qed.

Lemma upd_buf_const x i f :
  (i < length (fs_buf x))%nat -> upd_buf i f x = upd_buf i (fun _ => f (fbuf i x)) x.
Proof.
  intros Hi. unfold upd_buf. f_equal. apply list_alter_ext; [|done]. intros b Hb.
  unfold fbuf. by rewrite Hb.
Qed.

(** A buffer nobody uses is unlocked. *)
Lemma unused_free x i : cache x -> (i < NBUF)%nat -> b_refcnt (fbuf i x) = 0 -> b_lock (fbuf i x) = sleeplock0.
Proof.
  intros Hc Hi Hr. destruct (decide (b_dev (fbuf i x) = ROOTDEV)) as [Hd|Hd]; [|by apply (ca_other _ Hc)].
  assert (Hs : slot x (b_blockno (fbuf i x)) = Some i) by (by apply slot_Some).
  pose proof (ca_free _ Hc (b_blockno (fbuf i x))) as H. unfold refs, block_lock in H. rewrite Hs in H. auto.
Qed.

Lemma filter_short {A} (f : A -> bool) l :
  (length (List.filter f l) < length l)%nat -> exists i, i ∈ l /\ f i = false.
Proof.
  induction l as [|i l IH]; cbn [List.filter length]; [lia|]. destruct (f i) eqn:E; cbn [length].
  - intros H. destruct IH as (j & Hj & Hf); [lia|]. exists j. split; [by right|done].
  - intros _. exists i. split; [by left|done].
Qed.

Lemma used_eq x : used x = length (List.filter (fun i => negb (b_refcnt (fbuf i x) =? 0)) (seq 0 NBUF)).
Proof. reflexivity. Qed.

Lemma some_unused x : (used x < NBUF)%nat -> exists i, (i < NBUF)%nat /\ b_refcnt (fbuf i x) = 0.
Proof.
  rewrite used_eq. intros Hu.
  destruct (filter_short (fun i => negb (b_refcnt (fbuf i x) =? 0)) (seq 0 NBUF)) as (i & Hi & Hf).
  { rewrite length_seq. exact Hu. }
  apply elem_of_seq in Hi. exists i. split; [lia|]. apply negb_false_iff in Hf. by apply Z.eqb_eq.
Qed.

Section ops.
Context {env : Env} {caller : Caller}.

(** The buffer bget() returns for a cached block. *)
Definition grabbed (b : buf) : buf := set_b_lock (MkSleeplock 1 my_pid) (set_b_refcnt (b_refcnt b + 1) b).

(** The same for a recycled buffer. *)
Definition recycled (n : Z) (b : buf) : buf :=
  set_b_lock (MkSleeplock 1 my_pid) (set_b_refcnt 1 (set_b_valid 0 (set_b_blockno n (set_b_dev ROOTDEV b)))).

Lemma bget_hit H x n i :
  cache x -> locks_free H -> slot x n = Some i -> b_lock (fbuf i x) = sleeplock0 ->
  refs x n + 1 < 2 ^ 31 ->
  runs H (bget ROOTDEV n) x i H (upd_buf i (fun _ => grabbed (fbuf i x)) x).
Proof.
  intros Hc [HB HS] Hs Hl Hr. pose proof (proj1 (slot_Some _ _ _ Hc) Hs) as (Hi & Hd & Hb).
  pose proof (proj2 (lru_lt x i Hc) Hi) as Hin. apply list_elem_of_split in Hin as (pre & post & Elru).
  assert (Hnd : NoDup (fs_lru x)) by (rewrite (ca_lru _ Hc); apply NoDup_seq).
  unfold bget. rstep. rstep. rewrite Elru.
  eapply runs_bind.
  - apply (runs_scan (R := nat)) with (r := i).
    + apply Forall_forall. intros j Hj. rstep. rstep.
      destruct (Z.eqb_spec (b_dev (fbuf j x)) ROOTDEV) as [Hdj|]; [|apply runs_ret].
      destruct (Z.eqb_spec (b_blockno (fbuf j x)) n) as [Hbj|]; [|apply runs_ret]. exfalso.
      assert (Hjl : (j < NBUF)%nat) by (apply (lru_lt x j Hc); rewrite Elru, elem_of_app; by left).
      assert (j = i) as -> by (apply (ca_uniq _ Hc); congruence).
      rewrite Elru in Hnd. apply NoDup_app in Hnd as (_ & Hnd & _). apply (Hnd i Hj). by left.
    + rstep. rstep. rewrite Hd, Hb, !Z.eqb_refl. cbn [andb]. unfold put_buf. rstep. rstep.
      rewrite held_add_remove by done.
      eapply runs_bind; [|apply runs_ret]. eapply acquiresleep_run; [|apply HS].
      cbn [fsleep]. rewrite fbuf_upd, decide_True by (rewrite ?(ca_len _ Hc); done). fsimpl. by rewrite Hl.
  - cbn [upd_sleep]. rewrite upd_buf_twice. rewrite upd_buf_const by (rewrite (ca_len _ Hc); done). cbv beta.
    replace (set_b_lock _ _) with (grabbed (fbuf i x)); [apply runs_ret|].
    unfold grabbed. do 2 f_equal. symmetry. apply u32_small. unfold refs in Hr. rewrite Hs in Hr.
    pose proof (ca_range _ Hc i Hi). lia.
Qed.

Lemma bget_miss H x n :
  cache x -> locks_free H -> slot x n = None -> (used x < NBUF)%nat ->
  exists i, (i < NBUF)%nat /\ b_refcnt (fbuf i x) = 0 /\
    runs H (bget ROOTDEV n) x i H (upd_buf i (fun _ => recycled n (fbuf i x)) x).
Proof.
  intros Hc [HB HS] Hs Hu. destruct (List.find (fun i => b_refcnt (fbuf i x) =? 0) (reverse (fs_lru x))) as [i|] eqn:E.
  2: { exfalso. destruct (some_unused x Hu) as (i & Hi & Hr).
       pose proof (List.find_none _ _ E i) as Hn. cbv beta in Hn. rewrite Hr in Hn.
       discriminate Hn. apply list_elem_of_In, elem_of_reverse. by apply lru_lt. }
  destruct (find_split _ _ _ E) as (pre & post & Elru & Hpre & Hr). apply Z.eqb_eq in Hr.
  assert (Hi : (i < NBUF)%nat).
  { apply (lru_lt x i Hc). apply elem_of_reverse. rewrite Elru, elem_of_app. right. by left. }
  pose proof (unused_free x i Hc Hi Hr) as Hl. exists i. split; [done|]. split; [done|].
  assert (Hlen : (i < length (fs_buf x))%nat) by (rewrite (ca_len _ Hc); done).
  unfold bget. rstep. rstep. eapply runs_bind.
  { apply runs_scan_none. apply Forall_forall. intros j Hj. rstep. rstep.
    destruct (Z.eqb_spec (b_dev (fbuf j x)) ROOTDEV) as [Hdj|]; [|apply runs_ret].
    destruct (Z.eqb_spec (b_blockno (fbuf j x)) n) as [Hbj|]; [|apply runs_ret]. exfalso.
    apply (slot_None _ _ Hs j); [by apply (lru_lt x j Hc)|done]. }
  cbv beta iota. rewrite Elru. eapply runs_bind.
  - apply (runs_scan (R := nat)) with (r := i).
    + eapply Forall_impl; [exact Hpre|]. intros j Hj. cbv beta in Hj. rstep. rewrite Hj. apply runs_ret.
    + rstep. rewrite Hr. cbn [Z.eqb]. unfold put_buf. do 5 rstep. rewrite held_add_remove by done.
      rewrite !upd_buf_twice. eapply runs_bind; [|apply runs_ret]. eapply acquiresleep_run; [|apply HS].
      cbn [fsleep]. rewrite fbuf_upd, decide_True by done. fsimpl. by rewrite Hl.
  - cbn [upd_sleep]. rewrite upd_buf_twice, upd_buf_const by done. apply runs_ret.
Qed.

(** The end of bread(): read the block if the buffer is not valid. *)
Definition filled (x : fsstate) (b : buf) : buf :=
  if b_valid b =? 0 then set_b_valid 1 (set_b_data (fs_disk x (b_blockno b)) b) else b.

Lemma fill_run H x i g :
  (i < length (fs_buf x))%nat ->
  runs H (v <- get_buf i b_valid ;;
          whenM (v =? 0) (virtio_disk_rw i false ;; put_buf i (set_b_valid 1)) ;; retM i)
    (upd_buf i (fun _ => g) x) i H (upd_buf i (fun _ => filled x g) x).
Proof.
  intros Hi. rstep. rewrite fbuf_upd, decide_True by done. unfold filled.
  destruct (Z.eqb_spec (b_valid g) 0) as [E|E]; cbn [whenM]; [|eapply runs_bind; apply runs_ret].
  eapply runs_bind; [|apply runs_ret]. eapply runs_bind.
  - unfold virtio_disk_rw. rstep. rewrite fbuf_upd, decide_True by done. rstep. apply runs_putf.
  - unfold put_buf. rewrite <- (upd_buf_twice i (set_b_valid 1) (fun _ => _)).
    rewrite <- (upd_buf_twice i (set_b_data _) (fun _ => g)). apply runs_putf.
Qed.

Lemma filled_valid x g : b_valid (filled x g) <> 0.
Proof. unfold filled. destruct (Z.eqb_spec (b_valid g) 0); [done|]. done. Qed.

(** bread() of a block that nobody has locked: the caller gets its current content. *)
Lemma bread_run H x n :
  cache x -> locks_free H -> 0 <= n < 2 ^ 32 -> block_lock x n = sleeplock0 -> refs x n + 1 < 2 ^ 31 ->
  (refs x n = 0 -> (used x < NBUF)%nat) ->
  exists b x', runs H (bread ROOTDEV n) x b H x' /\ has_buf x' b n /\ b_data (fbuf b x') = cur x n /\
    view_step x x' n (cur x n) (refs x n + 1) (MkSleeplock 1 my_pid).
Proof.
  intros Hc HL Hn Hl Hr Hu. unfold bread. rewrite (u32_small n) by lia.
  change (u32 ROOTDEV) with ROOTDEV. pose proof (cache_range x n Hc) as Hr0.
  enough (exists i g, (i < NBUF)%nat /\ (slot x n = Some i \/ slot x n = None /\ b_refcnt (fbuf i x) = 0) /\
    runs H (bget ROOTDEV n) x i H (upd_buf i (fun _ => g) x) /\ b_dev g = ROOTDEV /\ b_blockno g = n /\
    b_refcnt g = refs x n + 1 /\ b_lock g = MkSleeplock 1 my_pid /\
    cur x n = (if b_valid g =? 0 then fs_disk x n else b_data g)) as
    (i & g & Hi & Hslot & R & Hd & Hb & Hrc & Hlk & Hcur).
  { assert (Hlen : (i < length (fs_buf x))%nat) by (rewrite (ca_len _ Hc); done).
    assert (Ed : b_data (filled x g) = cur x n).
    { rewrite Hcur. unfold filled. destruct (b_valid g =? 0); [|done]. fsimpl. by rewrite Hb. }
    pose proof (filled_valid x g) as Hv.
    assert (Ef : b_dev (filled x g) = ROOTDEV /\ b_blockno (filled x g) = n /\
      b_refcnt (filled x g) = refs x n + 1 /\ b_lock (filled x g) = MkSleeplock 1 my_pid)
      by (unfold filled; destruct (b_valid g =? 0); done).
    destruct Ef as (E1 & E2 & E3 & E4).
    pose proof (replace_view x i n (filled x g) Hc Hi E1 E2 Hslot ltac:(lia) ltac:(lia)) as V.
    rewrite E3, E4, (proj2 (Z.eqb_neq _ _) Hv), Ed in V.
    eexists i, _. split; [eapply runs_bind; [exact R|by apply fill_run]|]. split_and!; [|by rewrite fbuf_upd, decide_True|exact V].
    split; [by apply replace_slot_n|by rewrite fbuf_upd, decide_True|by rewrite fbuf_upd, decide_True]. }
  destruct (slot x n) as [i|] eqn:Hs.
  - exists i, (grabbed (fbuf i x)). pose proof (proj1 (slot_Some _ _ _ Hc) Hs) as (Hi & Hd & Hb).
    unfold refs, cur, block_lock in *. rewrite Hs in *. split_and!; try done; [by left|].
    apply bget_hit; try done. unfold refs. by rewrite Hs.
  - destruct (bget_miss H x n Hc HL Hs) as (i & Hi & Hri & R); [apply Hu; unfold refs; by rewrite Hs|].
    exists i, (recycled n (fbuf i x)). unfold refs, cur. rewrite Hs. split_and!; try done. by right.
Qed.

(** Storing into the caller's buffer. *)
Lemma has_buf_lt x b n : cache x -> has_buf x b n -> (b < NBUF)%nat /\ b_dev (fbuf b x) = ROOTDEV /\ b_blockno (fbuf b x) = n.
Proof. intros Hc [H _ _]. by apply slot_Some. Qed.

Lemma has_buf_refs x b n : cache x -> has_buf x b n -> refs x n = b_refcnt (fbuf b x) /\ 1 <= refs x n.
Proof.
  intros Hc [H _ Hl]. pose proof (cache_range x n Hc) as Hr. assert (E : refs x n = b_refcnt (fbuf b x)) by (unfold refs; by rewrite H).
  split; [done|]. destruct (decide (refs x n = 0)) as [Hz|]; [|lia].
  pose proof (ca_free _ Hc n Hz) as Hf. unfold block_lock in Hf. rewrite H, Hl in Hf. done.
Qed.

Lemma has_buf_cur x b n : has_buf x b n -> cur x n = b_data (fbuf b x) /\ block_lock x n = MkSleeplock 1 my_pid.
Proof.
  intros [H Hv Hl]. unfold cur, block_lock. rewrite H, Hl. apply Z.eqb_neq in Hv. by rewrite Hv.
Qed.

(** Any change of the caller's buffer that keeps its identity and does not drop the last
    reference. *)
Lemma change_buf x b n f :
  cache x -> has_buf x b n ->
  let g := f (fbuf b x) in
  b_dev g = ROOTDEV -> b_blockno g = n -> b_valid g = b_valid (fbuf b x) -> 0 <= b_refcnt g < 2 ^ 31 ->
  (b_refcnt g = 0 -> b_data g = fs_disk x n /\ b_lock g = sleeplock0) ->
  view_step x (upd_buf b f x) n (b_data g) (b_refcnt g) (b_lock g) /\ slot (upd_buf b f x) n = Some b /\
  fbuf b (upd_buf b f x) = g.
Proof.
  intros Hc Hb g Hd Hn Hv Hr Hz. destruct (has_buf_lt x b n Hc Hb) as (Hlt & _).
  assert (Hlen : (b < length (fs_buf x))%nat) by (rewrite (ca_len _ Hc); done).
  rewrite upd_buf_const by done. change (f (fbuf b x)) with g.
  pose proof (replace_view x b n g Hc Hlt Hd Hn (or_introl (hb_slot _ _ _ Hb)) Hr) as V.
  rewrite Hv, (proj2 (Z.eqb_neq _ _) (hb_valid _ _ _ Hb)) in V.
  split_and!; [apply V; intros H0; destruct (Hz H0); done| |by rewrite fbuf_upd, decide_True].
  apply replace_slot_n; try done. left. apply Hb.
Qed.

Lemma put_data_run H x b n d :
  cache x -> has_buf x b n ->
  let x' := upd_buf b (set_b_data d) x in
  runs H (put_buf b (set_b_data d)) x tt H x' /\ has_buf x' b n /\
  view_step x x' n d (refs x n) (MkSleeplock 1 my_pid).
Proof.
  intros Hc Hb x'. pose proof (has_buf_lt x b n Hc Hb) as (Hlt & Hd & Hn).
  destruct (has_buf_refs x b n Hc Hb) as [Er Hr]. pose proof (cache_range x n Hc).
  destruct (change_buf x b n (set_b_data d) Hc Hb) as (V & Hs & Ef); fsimpl; try done; try lia.
  fsimpl_in V. rewrite (hb_lock _ _ _ Hb), <- Er in V.
  split; [apply runs_putf|]. split; [|exact V]. unfold x'. split; [done| |]; rewrite Ef; fsimpl; apply Hb.
Qed.

(** The caller's own sleep lock passes the test of bwrite() and brelse(). *)
Lemma holding_mine H x b n :
  has_buf x b n -> locks_free H -> runs H (holdingsleep (SBuf b)) x true H x.
Proof.
  intros Hb [_ HS]. pose proof (holdingsleep_run H x (SBuf b) (HS b)) as R. cbn [fsleep] in R.
  rewrite (hb_lock _ _ _ Hb) in R. cbn [slk_locked slk_pid] in R. by rewrite Z.eqb_refl in R.
Qed.

(** bwrite() makes the disk agree with the buffer. *)
Lemma buf_same x x' :
  fs_buf x' = fs_buf x ->
  (forall i, fbuf i x' = fbuf i x) /\ (forall m, slot x' m = slot x m) /\ (forall m, refs x' m = refs x m) /\
  (forall m, block_lock x' m = block_lock x m) /\ used x' = used x.
Proof.
  intros E. assert (Ef : forall i, fbuf i x' = fbuf i x) by (intros i; unfold fbuf; by rewrite E).
  assert (Es : forall m, slot x' m = slot x m) by (intros m; unfold slot, fbuf; by rewrite E).
  split_and!; [done|done| | |].
  - intros m. unfold refs. rewrite Es. destruct (slot x m); [by rewrite Ef|done].
  - intros m. unfold block_lock. rewrite Es. destruct (slot x m); [by rewrite Ef|done].
  - unfold used, fbuf. by rewrite E.
Qed.

Lemma cache_same x x' :
  cache x -> fs_buf x' = fs_buf x -> Permutation (fs_lru x') (fs_lru x) ->
  (forall n, refs x n = 0 -> cur x' n = fs_disk x' n) -> cache x'.
Proof.
  intros [C1 C2 C3 C4 C5 C6 C7] E Hp Hd. destruct (buf_same x x' E) as (Ef & Es & Er & El & Eu). split.
  - by rewrite E.
  - by rewrite Hp.
  - intros i j. rewrite !Ef. apply C3.
  - intros n. rewrite Er. apply Hd.
  - intros n. rewrite Er, El. apply C5.
  - intros i. rewrite Ef. apply C6.
  - intros i. rewrite Ef. apply C7.
Qed.

Lemma cur_same x x' m : fs_buf x' = fs_buf x -> fs_disk x' m = fs_disk x m -> cur x' m = cur x m.
Proof.
  intros E Ed. destruct (buf_same x x' E) as (Ef & Es & _). unfold cur. rewrite Es, Ed.
  destruct (slot x m); [by rewrite Ef|done].
Qed.

Lemma disk_write_view x b n :
  cache x -> has_buf x b n ->
  let x' := disk_write n (cur x n) x in
  cache x' /\ has_buf x' b n /\ forall m, cur x' m = cur x m.
Proof.
  intros Hc Hb x'. destruct (buf_same x x') as (Ef & Es & Er & El & Eu); [done|].
  assert (Hd : forall m, fs_disk x' m = if m =? n then cur x n else fs_disk x m) by (intros m; reflexivity).
  assert (Elru : fs_lru x' = fs_lru x) by reflexivity. assert (Eb : fs_buf x' = fs_buf x) by reflexivity.
  clearbody x'. assert (Hcur : forall m, cur x' m = cur x m).
  { intros m. unfold cur at 1. rewrite Es, Hd. destruct (Z.eqb_spec m n) as [->|].
    - rewrite (hb_slot _ _ _ Hb), Ef. unfold cur at 2. rewrite (hb_slot _ _ _ Hb).
      pose proof (hb_valid _ _ _ Hb) as Hv. apply Z.eqb_neq in Hv. by rewrite Hv.
    - unfold cur. destruct (slot x m); [by rewrite Ef|done]. }
  split; [|split; [by destruct Hb; split; rewrite ?Es, ?Ef|done]].
  apply (cache_same x); [done|done|by rewrite Elru|]. intros m Hm. rewrite Hcur, Hd.
  destruct (Z.eqb_spec m n) as [->|]; [done|]. by apply (ca_clean _ Hc).
Qed.

Lemma bwrite_run H x b n :
  cache x -> locks_free H -> has_buf x b n ->
  runs H (bwrite b) x tt H (disk_write n (cur x n) x).
Proof.
  intros Hc HL Hb. unfold bwrite. eapply runs_bind; [by eapply holding_mine|]. cbn [negb].
  unfold virtio_disk_rw. rstep. destruct (has_buf_lt x b n Hc Hb) as (_ & _ & ->). cbv iota. rstep.
  rewrite <- (proj1 (has_buf_cur x b n Hb)). apply runs_putf.
Qed.

Lemma lru_view x y n c r l lru :
  view_step x y n c r l -> Permutation lru (fs_lru y) -> view_step x (set_fs_lru lru y) n c r l.
Proof.
  intros [C B1 V1 V2 V3 V4 V5] Hp. set (y' := set_fs_lru lru y).
  assert (E : fs_buf y' = fs_buf y) by reflexivity. assert (Ed : fs_disk y' = fs_disk y) by reflexivity.
  assert (El : fs_lru y' = lru) by reflexivity. assert (Eb : bio_only x y').
  { unfold bio_only, y' in *. rewrite B1. by destruct x. }
  clearbody y'. destruct (buf_same y y' E) as (Ef & Es & Er & Ek & Eu).
  assert (Hcur : forall m, cur y' m = cur y m) by (intros m; apply cur_same; [done|by rewrite Ed]).
  split; try done.
  - apply (cache_same y); [done|done|by rewrite El|]. intros m Hm. rewrite Hcur, Ed. by apply (ca_clean _ C).
  - intros m. by rewrite Hcur.
  - intros m. by rewrite Er.
  - intros m. by rewrite Ek.
  - by rewrite Eu.
  - intros m b. rewrite Es, Ef. apply V5.
Qed.

Lemma move_front_perm b (l : list nat) : NoDup l -> b ∈ l -> Permutation (b :: filter (fun i => i <> b) l) l.
Proof.
  intros Hnd Hb. apply NoDup_Permutation.
  - apply NoDup_cons. split; [|by apply NoDup_filter]. rewrite list_elem_of_filter. tauto.
  - done.
  - intros j. rewrite elem_of_cons, list_elem_of_filter. destruct (decide (j = b)) as [->|]; naive_solver.
Qed.

(** brelse() by the holder; dropping the last reference needs a clean buffer. *)
Lemma brelse_run H x b n :
  cache x -> locks_free H -> has_buf x b n -> (refs x n = 1 -> cur x n = fs_disk x n) ->
  exists x', runs H (brelse b) x tt H x' /\ view_step x x' n (cur x n) (refs x n - 1) sleeplock0.
Proof.
  intros Hc HL Hb Hclean. pose proof (has_buf_lt x b n Hc Hb) as (Hlt & Hd & Hn).
  destruct (has_buf_refs x b n Hc Hb) as [Er Hr]. pose proof (cache_range x n Hc) as Hr'.
  destruct (has_buf_cur x b n Hb) as [Ec _]. pose proof HL as [HB HS].
  set (f := fun y => set_b_refcnt (u32 (b_refcnt y - 1)) (set_b_lock sleeplock0 y)).
  assert (Ef : b_refcnt (f (fbuf b x)) = refs x n - 1) by (unfold f; fsimpl; rewrite <- Er; apply u32_small; lia).
  destruct (change_buf x b n f Hc Hb) as (V & Hs & Eb); try (unfold f; fsimpl; done); try lia.
  { intros Hz. rewrite Ef in Hz. unfold f. fsimpl. split; [|done]. rewrite <- Ec. apply Hclean. lia. }
  rewrite Ef in V. replace (b_data (f (fbuf b x))) with (cur x n) in V by (unfold f; fsimpl; done).
  replace (b_lock (f (fbuf b x))) with sleeplock0 in V by (unfold f; fsimpl; done).
  set (y := upd_buf b f x) in *.
  set (z := if refs x n - 1 =? 0 then move_front b y else y).
  exists z. split.
  - unfold brelse. eapply runs_bind; [by eapply holding_mine|]. cbn [negb].
    eapply runs_bind; [apply releasesleep_run, HS|]. rstep. unfold put_buf. rstep. cbn [upd_sleep].
    rewrite upd_buf_twice. rstep. change (upd_buf b _ x) with y. rewrite Eb, Ef.
    rewrite <- (held_add_remove LBcache H) at 2 by done.
    eapply runs_bind; [|apply runs_release; set_solver]. unfold z.
    destruct (refs x n - 1 =? 0); cbn [whenM]; [apply runs_putf|apply runs_ret].
  - unfold z. destruct (refs x n - 1 =? 0); [|done]. apply lru_view; [done|].
    apply move_front_perm; [|by apply (lru_lt x b Hc)]. change (fs_lru y) with (fs_lru x).
    rewrite (ca_lru _ Hc). apply NoDup_seq.
Qed.

(** Pinning and unpinning the caller's buffer. *)
Lemma repin_run H x b n (d : Z) c :
  cache x -> locks_free H -> has_buf x b n -> 1 <= refs x n + d < 2 ^ 31 ->
  c = (acquire LBcache ;; put_buf b (fun y => set_b_refcnt (u32 (b_refcnt y + d)) y) ;; release LBcache) ->
  exists x', runs H c x tt H x' /\ has_buf x' b n /\
    view_step x x' n (cur x n) (refs x n + d) (MkSleeplock 1 my_pid).
Proof.
  intros Hc [HB HS] Hb Hr ->. pose proof (has_buf_lt x b n Hc Hb) as (Hlt & Hd & Hn).
  destruct (has_buf_refs x b n Hc Hb) as [Er Hr0]. destruct (has_buf_cur x b n Hb) as [Ec _].
  set (f := fun y => set_b_refcnt (u32 (b_refcnt y + d)) y).
  assert (Ef : b_refcnt (f (fbuf b x)) = refs x n + d) by (unfold f; fsimpl; rewrite <- Er; apply u32_small; lia).
  destruct (change_buf x b n f Hc Hb) as (V & Hs & Eb); try (unfold f; fsimpl; done); try lia.
  rewrite Ef in V. replace (b_data (f (fbuf b x))) with (cur x n) in V by (unfold f; fsimpl; done).
  replace (b_lock (f (fbuf b x))) with (MkSleeplock 1 my_pid) in V by (unfold f; fsimpl; symmetry; apply Hb).
  exists (upd_buf b f x). split; [|split; [|exact V]].
  - rstep. unfold put_buf. rstep. rewrite <- (held_add_remove LBcache H) at 2 by done. apply runs_release. set_solver.
  - split; [done|rewrite Eb; apply Hb|rewrite Eb; apply Hb].
Qed.

Lemma bpin_run H x b n :
  cache x -> locks_free H -> has_buf x b n -> refs x n + 1 < 2 ^ 31 ->
  exists x', runs H (bpin b) x tt H x' /\ has_buf x' b n /\
    view_step x x' n (cur x n) (refs x n + 1) (MkSleeplock 1 my_pid).
Proof.
  intros Hc HL Hb Hr. pose proof (has_buf_refs x b n Hc Hb). by apply repin_run; [..|lia|].
Qed.

Lemma bunpin_run H x b n :
  cache x -> locks_free H -> has_buf x b n -> 2 <= refs x n ->
  exists x', runs H (bunpin b) x tt H x' /\ has_buf x' b n /\
    view_step x x' n (cur x n) (refs x n - 1) (MkSleeplock 1 my_pid).
Proof.
  intros Hc HL Hb Hr. pose proof (cache_range x n Hc). by apply (repin_run H x b n (-1)); [..|lia|].
Qed.

End ops.

End BioProofs.
