(* ===== verification/LogProofs.v ===== *)
(** * The log makes transactions atomic under crashes

    A crash keeps the writes the disk has completed and loses everything else.  commit() and
    the recovery at the next boot are run on the model of the cache; the theorem is that after
    a crash at any point recovery leaves the file system either as before the transaction or
    as after it. *)

From S2P Require Import Prelude Machine FsData Bytes State Locks CString VM Sched SchedProofs Bio Print Console FsRun BioProofs Log.

Module LogProofs.
Import CString VM Sched SchedProofs Sleeplock Bio Print Console FsRun BioProofs Log.

(** ** Disk writes *)

Definition store_block (d : Z -> list Z) (w : Z * list Z) : Z -> list Z :=
  fun m => if m =? fst w then snd w else d m.

Definition disk_after (d : Z -> list Z) (ws : list (Z * list Z)) : Z -> list Z := fold_left store_block ws d.

Lemma disk_after_app d ws ws' : disk_after d (ws ++ ws') = disk_after (disk_after d ws) ws'.
Proof. apply fold_left_app. Qed.

Lemma disk_after_ext d d' ws m : (forall k, d k = d' k) -> disk_after d ws m = disk_after d' ws m.
Proof.
  revert d d'. induction ws as [|w ws IH]; intros d d' E; [apply E|]. cbn. apply IH.
  intros k. unfold store_block. destruct (k =? fst w); done.
Qed.

(** A block none of the writes is to. *)
Lemma disk_after_out d ws m : m ∉ ws.*1 -> disk_after d ws m = d m.
Proof.
  revert d. induction ws as [|[n c] ws IH]; intros d Hm; [done|].
  change (disk_after d _) with (disk_after (store_block d (n, c)) ws). rewrite IH by set_solver.
  unfold store_block. cbn. destruct (Z.eqb_spec m n); [set_solver|done].
Qed.

(** The file system moved from [x] to [x'] writing [ws]; nothing but the cache, the disk and
    what is on the console changed. *)
Record moved (x x' : fsstate) (ws : list (Z * list Z)) : Prop := {
  mv_rest : x' = set_fs_buf (fs_buf x') (set_fs_lru (fs_lru x') (set_fs_disk (fs_disk x')
    (set_fs_dwrites (fs_dwrites x ++ ws) (set_fs_out (fs_out x') x))));
  mv_disk m : fs_disk x' m = disk_after (fs_disk x) ws m
}.

Lemma moved_refl x : moved x x [].
Proof. split; [|done]. rewrite app_nil_r. by destruct x. Qed.

Lemma moved_trans x1 x2 x3 w1 w2 : moved x1 x2 w1 -> moved x2 x3 w2 -> moved x1 x3 (w1 ++ w2).
Proof.
  intros [R1 D1] [R2 D2]. split.
  - rewrite R2. assert (E : fs_dwrites x2 = fs_dwrites x1 ++ w1) by (by rewrite R1).
    rewrite E, R1. fsimpl. by rewrite app_assoc.
  - intros m. rewrite D2, disk_after_app. apply disk_after_ext. exact D1.
Qed.

Lemma bio_moved x x' : bio_only x x' -> moved x x' [].
Proof.
  intros B. split.
  - rewrite B. rewrite app_nil_r. fsimpl. by destruct x.
  - intros m. cbn. by rewrite B.
Qed.

Lemma write_moved x n c : moved x (disk_write n c x) [(n, c)].
Proof. split; [by destruct x|done]. Qed.

(** ** Holding two buffers *)

Section two.
Context {env : Env} {caller : Caller}.

Lemma has_buf_keep x x' b m n c r l :
  cache x -> view_step x x' n c r l -> m <> n -> has_buf x b m -> has_buf x' b m /\ fbuf b x' = fbuf b x.
Proof.
  intros Hc V Hm Hb. destruct (has_buf_refs x b m Hc Hb) as [_ Hr].
  destruct (vs_keep _ _ _ _ _ _ V m b Hm (hb_slot _ _ _ Hb)) as [Hs Ef]; [lia|].
  split; [|done]. destruct Hb as [H1 H2 H3]. split; rewrite ?Ef; done.
Qed.

(** Nobody has a buffer locked. *)
Definition idle (x : fsstate) : Prop := forall m, block_lock x m = sleeplock0.

(** What a caller knows while it holds the buffers of [n1] and [n2], relative to the state [x]
    in which it held none: [cur x'] is [c], and the counts other than its own are [r]. *)
Record two_held (x x' : fsstate) (b1 : nat) (n1 : Z) (b2 : nat) (n2 : Z) (c : Z -> list Z)
    (r : Z -> Z) (ws : list (Z * list Z)) : Prop := {
  th_cache : cache x';
  th_ne : n1 <> n2;
  th_b1 : has_buf x' b1 n1;
  th_b2 : has_buf x' b2 n2;
  th_cur m : cur x' m = c m;
  th_refs m : refs x' m = r m + (if m =? n1 then 1 else 0) + (if m =? n2 then 1 else 0);
  th_lock m : m <> n1 -> m <> n2 -> block_lock x' m = block_lock x m;
  th_moved : moved x x' ws
}.

Definition room (x : fsstate) (r : Z -> Z) (n1 n2 : Z) : nat := nz (r n1) + nz (r n2).

Lemma bread2 H x n1 n2 :
  cache x -> locks_free H -> idle x -> n1 <> n2 -> 0 <= n1 < 2 ^ 32 -> 0 <= n2 < 2 ^ 32 ->
  refs x n1 + 1 < 2 ^ 31 -> refs x n2 + 1 < 2 ^ 31 ->
  (used x + 2 <= NBUF + nz (refs x n1) + nz (refs x n2))%nat ->
  exists b1 x1 b2 x2, runs H (bread ROOTDEV n1) x b1 H x1 /\ runs H (bread ROOTDEV n2) x1 b2 H x2 /\
    two_held x x2 b1 n1 b2 n2 (cur x) (refs x) [] /\ bio_only x x1 /\
    (used x2 + nz (refs x n1) + nz (refs x n2) = used x + 2)%nat.
Proof.
  intros Hc HL Hid Hne Hn1 Hn2 Hr1 Hr2 Hu.
  assert (Hnz : forall z, z = 0 -> nz z = 0%nat) by (by intros z ->).
  assert (Hle : forall z, (nz z <= 1)%nat) by (intros z; unfold nz; destruct (z =? 0); lia).
  pose proof (cache_range x n1 Hc) as P1. pose proof (cache_range x n2 Hc) as P2.
  assert (Hone : forall z, z <> 0 -> nz z = 1%nat) by (intros z Hz; unfold nz; by destruct (Z.eqb_spec z 0)).
  destruct (bread_run H x n1 Hc HL Hn1 (Hid n1) Hr1) as (b1 & x1 & R1 & B1 & D1 & V1).
  { intros Hz. rewrite (Hnz _ Hz) in Hu. pose proof (Hle (refs x n2)). lia. }
  pose proof (vs_cache _ _ _ _ _ _ V1) as C1. pose proof (vs_used _ _ _ _ _ _ V1) as U1.
  rewrite (Hone (refs x n1 + 1)) in U1 by lia.
  assert (E2 : refs x1 n2 = refs x n2) by (rewrite (vs_refs _ _ _ _ _ _ V1); by destruct (Z.eqb_spec n2 n1)).
  destruct (bread_run H x1 n2 C1 HL Hn2) as (b2 & x2 & R2 & B2 & D2 & V2).
  { rewrite (vs_lock _ _ _ _ _ _ V1). destruct (Z.eqb_spec n2 n1); [congruence|apply Hid]. }
  { by rewrite E2. }
  { rewrite E2. intros Hz. rewrite (Hnz _ Hz) in Hu. lia. }
  pose proof (vs_cache _ _ _ _ _ _ V2) as C2. pose proof (vs_used _ _ _ _ _ _ V2) as U2.
  rewrite E2, (Hone (refs x n2 + 1)) in U2 by lia.
  destruct (has_buf_keep x1 x2 b1 n1 n2 _ _ _ C1 V2 Hne B1) as [B1' F1].
  exists b1, x1, b2, x2. split; [exact R1|]. split; [exact R2|]. split; [|split; [apply V1|lia]].
  split; try done.
  - intros m. rewrite (vs_cur _ _ _ _ _ _ V2), !(vs_cur _ _ _ _ _ _ V1).
    destruct (Z.eqb_spec n2 n1); [congruence|]. destruct (Z.eqb_spec m n2), (Z.eqb_spec m n1); subst; done.
  - intros m. rewrite (vs_refs _ _ _ _ _ _ V2), E2, (vs_refs _ _ _ _ _ _ V1).
    destruct (Z.eqb_spec m n2), (Z.eqb_spec m n1); subst; lia.
  - intros m H1 H2. rewrite (vs_lock _ _ _ _ _ _ V2), (vs_lock _ _ _ _ _ _ V1).
    destruct (Z.eqb_spec m n2), (Z.eqb_spec m n1); done.
  - change [] with ([] ++ [] : list (Z * list Z)). eapply moved_trans; apply bio_moved; [apply V1|apply V2].
Qed.

Lemma two_swap x x' b1 n1 b2 n2 c r ws :
  two_held x x' b1 n1 b2 n2 c r ws -> two_held x x' b2 n2 b1 n1 c r ws.
Proof. intros []. split; try done; [intros m; rewrite th_refs0; lia|auto]. Qed.

Lemma th_disk x x' b1 n1 b2 n2 c r ws m :
  two_held x x' b1 n1 b2 n2 c r ws -> fs_disk x' m = disk_after (fs_disk x) ws m.
Proof. intros T. apply (mv_disk _ _ _ (th_moved _ _ _ _ _ _ _ _ _ T)). Qed.

(** A change of the first buffer. *)
Lemma th_change x x' y b1 n1 b2 n2 c r ws d k :
  two_held x x' b1 n1 b2 n2 c r ws -> has_buf y b1 n1 -> view_step x' y n1 d (k + 1) (MkSleeplock 1 my_pid) ->
  1 <= refs x' n1 -> 0 <= k ->
  two_held x y b1 n1 b2 n2 (fun m => if m =? n1 then d else c m) (fun m => if m =? n1 then k else r m) ws /\
  used y = used x'.
Proof.
  intros T B1 V H1 Hk. pose proof (th_cache _ _ _ _ _ _ _ _ _ T) as C.
  destruct (has_buf_keep x' y b2 n2 n1 _ _ _ C V) as [B2 _].
  { intros E. by apply (th_ne _ _ _ _ _ _ _ _ _ T). } { apply T. }
  split; [split; try done|].
  - apply V.
  - apply T.
  - intros m. rewrite (vs_cur _ _ _ _ _ _ V). destruct (m =? n1); [done|apply T].
  - intros m. rewrite (vs_refs _ _ _ _ _ _ V). pose proof (th_ne _ _ _ _ _ _ _ _ _ T).
    destruct (Z.eqb_spec m n1) as [->|Hm]; [by destruct (Z.eqb_spec n1 n2); [|lia]|].
    rewrite (th_refs _ _ _ _ _ _ _ _ _ T). by destruct (Z.eqb_spec m n1).
  - intros m Hm1 Hm2. rewrite (vs_lock _ _ _ _ _ _ V). destruct (Z.eqb_spec m n1); [done|]. by apply T.
  - rewrite <- (app_nil_r ws). eapply moved_trans; [apply T|]. apply bio_moved, V.
  - pose proof (vs_used _ _ _ _ _ _ V) as U. unfold nz in U.
    destruct (Z.eqb_spec (refs x' n1) 0), (Z.eqb_spec (k + 1) 0); lia.
Qed.

Lemma th_mine x x' b1 n1 b2 n2 c r ws :
  two_held x x' b1 n1 b2 n2 c r ws -> refs x' n1 = r n1 + 1 /\ 1 <= refs x' n1 < 2 ^ 31 /\ 0 <= r n1.
Proof.
  intros T. pose proof (th_cache _ _ _ _ _ _ _ _ _ T) as C.
  destruct (has_buf_refs _ _ _ C (th_b1 _ _ _ _ _ _ _ _ _ T)) as [_ H]. pose proof (cache_range x' n1 C).
  pose proof (th_ne _ _ _ _ _ _ _ _ _ T) as Hne.
  assert (E : refs x' n1 = r n1 + 1).
  { rewrite (th_refs _ _ _ _ _ _ _ _ _ T), Z.eqb_refl. destruct (Z.eqb_spec n1 n2); [done|lia]. }
  lia.
Qed.

Lemma two_ext x x' b1 n1 b2 n2 c r c' r' ws :
  two_held x x' b1 n1 b2 n2 c r ws -> (forall m, c' m = c m) -> (forall m, r' m = r m) ->
  two_held x x' b1 n1 b2 n2 c' r' ws.
Proof. intros [] Hc Hr. split; try done; intros m; by rewrite ?Hc, ?Hr. Qed.

Lemma th_copy H x x' b1 n1 b2 n2 c r ws d :
  two_held x x' b1 n1 b2 n2 c r ws ->
  exists y, runs H (put_buf b1 (set_b_data d)) x' tt H y /\ used y = used x' /\
    two_held x y b1 n1 b2 n2 (fun m => if m =? n1 then d else c m) r ws.
Proof.
  intros T. destruct (th_mine _ _ _ _ _ _ _ _ _ T) as (E & Hr & Hk).
  destruct (put_data_run H x' b1 n1 d (th_cache _ _ _ _ _ _ _ _ _ T) (th_b1 _ _ _ _ _ _ _ _ _ T)) as (R & B & V).
  rewrite E in V. destruct (th_change _ _ _ _ _ _ _ _ _ _ _ _ T B V) as [T' U]; [lia|lia|].
  eexists. split; [exact R|]. split; [exact U|]. eapply two_ext; [exact T'|done|].
  intros m. cbv beta. destruct (Z.eqb_spec m n1) as [->|]; done.
Qed.

Lemma th_bwrite H x x' b1 n1 b2 n2 c r ws :
  two_held x x' b1 n1 b2 n2 c r ws -> locks_free H ->
  exists y, runs H (bwrite b1) x' tt H y /\ used y = used x' /\
    two_held x y b1 n1 b2 n2 c r (ws ++ [(n1, c n1)]).
Proof.
  intros T HL. pose proof (th_cache _ _ _ _ _ _ _ _ _ T) as C. pose proof (th_b1 _ _ _ _ _ _ _ _ _ T) as B.
  pose proof (bwrite_run H x' b1 n1 C HL B) as R. rewrite (th_cur _ _ _ _ _ _ _ _ _ T) in R.
  destruct (disk_write_view x' b1 n1 C B) as (C' & B' & Hcur). rewrite (th_cur _ _ _ _ _ _ _ _ _ T) in C', B', Hcur.
  set (y := disk_write n1 (c n1) x') in *. assert (Eb : fs_buf y = fs_buf x') by reflexivity.
  assert (M : moved x' y [(n1, c n1)]) by apply write_moved. clearbody y.
  destruct (buf_same x' y Eb) as (Ef & Es & Er & El & Eu).
  exists y. split; [exact R|]. split; [exact Eu|]. split; try done.
  - apply T.
  - destruct (th_b2 _ _ _ _ _ _ _ _ _ T) as [H1 H2 H3]. split; rewrite ?Es, ?Ef; done.
  - intros m. rewrite Hcur. apply T.
  - intros m. rewrite Er. apply T.
  - intros m H1 H2. rewrite El. by apply T.
  - eapply moved_trans; [apply T|exact M].
Qed.

Lemma th_unpin H x x' b1 n1 b2 n2 c r ws :
  two_held x x' b1 n1 b2 n2 c r ws -> locks_free H -> 1 <= r n1 ->
  exists y, runs H (bunpin b1) x' tt H y /\ used y = used x' /\
    two_held x y b1 n1 b2 n2 c (fun m => if m =? n1 then r n1 - 1 else r m) ws.
Proof.
  intros T HL Hk. destruct (th_mine _ _ _ _ _ _ _ _ _ T) as (E & Hr & _).
  destruct (bunpin_run H x' b1 n1 (th_cache _ _ _ _ _ _ _ _ _ T) HL (th_b1 _ _ _ _ _ _ _ _ _ T)) as (y & R & B & V); [lia|].
  replace (refs x' n1 - 1) with (r n1 - 1 + 1) in V by lia. rewrite (th_cur _ _ _ _ _ _ _ _ _ T) in V.
  destruct (th_change _ _ _ _ _ _ _ _ _ _ _ _ T B V) as [T' U]; [lia|lia|].
  exists y. split; [exact R|]. split; [exact U|]. eapply two_ext; [exact T'| |done].
  intros m. cbv beta. destruct (Z.eqb_spec m n1) as [->|]; done.
Qed.

(** Giving both back. *)
Lemma th_release H x x' b1 n1 b2 n2 c r ws :
  two_held x x' b1 n1 b2 n2 c r ws -> locks_free H -> idle x ->
  (r n1 = 0 -> c n1 = disk_after (fs_disk x) ws n1) -> (r n2 = 0 -> c n2 = disk_after (fs_disk x) ws n2) ->
  exists y z, runs H (brelse b1) x' tt H y /\ runs H (brelse b2) y tt H z /\
    cache z /\ idle z /\ moved x z ws /\ (forall m, cur z m = c m) /\ (forall m, refs z m = r m) /\
    (used z + 2 = used x' + nz (r n1) + nz (r n2))%nat.
Proof.
  intros T HL Hid D1 D2. pose proof (th_cache _ _ _ _ _ _ _ _ _ T) as C. pose proof (th_ne _ _ _ _ _ _ _ _ _ T) as Hne.
  destruct (th_mine _ _ _ _ _ _ _ _ _ T) as (E1 & R1 & K1).
  destruct (th_mine _ _ _ _ _ _ _ _ _ (two_swap _ _ _ _ _ _ _ _ _ T)) as (E2 & R2 & K2).
  destruct (brelse_run H x' b1 n1 C HL (th_b1 _ _ _ _ _ _ _ _ _ T)) as (y & Ry & V).
  { intros Hz. rewrite (th_cur _ _ _ _ _ _ _ _ _ T), (th_disk _ _ _ _ _ _ _ _ _ _ T). apply D1. lia. }
  destruct (has_buf_keep x' y b2 n2 n1 _ _ _ C V) as [B2 _]; [congruence|apply T|].
  pose proof (vs_cache _ _ _ _ _ _ V) as Cy.
  assert (Ey2 : refs y n2 = r n2 + 1) by (rewrite (vs_refs _ _ _ _ _ _ V), E2; by destruct (Z.eqb_spec n2 n1)).
  assert (Ecy : cur y n2 = c n2).
  { rewrite (vs_cur _ _ _ _ _ _ V), !(th_cur _ _ _ _ _ _ _ _ _ T). by destruct (Z.eqb_spec n2 n1) as [->|]. }
  destruct (brelse_run H y b2 n2 Cy HL B2) as (z & Rz & V2).
  { intros Hz. rewrite Ecy. replace (fs_disk y n2) with (disk_after (fs_disk x) ws n2); [apply D2; lia|].
    rewrite (vs_bio _ _ _ _ _ _ V). symmetry. apply (th_disk _ _ _ _ _ _ _ _ _ _ T). }
  exists y, z. split; [exact Ry|]. split; [exact Rz|]. split; [apply V2|]. split; [|split; [|split; [|split]]].
  - intros m. rewrite (vs_lock _ _ _ _ _ _ V2), (vs_lock _ _ _ _ _ _ V).
    destruct (Z.eqb_spec m n2); [done|]. destruct (Z.eqb_spec m n1); [done|].
    rewrite (th_lock _ _ _ _ _ _ _ _ _ T) by done. apply Hid.
  - rewrite <- (app_nil_r ws). eapply moved_trans; [apply T|].
    change [] with ([] ++ [] : list (Z * list Z)). eapply moved_trans; apply bio_moved; [apply V|apply V2].
  - intros m. rewrite (vs_cur _ _ _ _ _ _ V2), Ecy, (vs_cur _ _ _ _ _ _ V), !(th_cur _ _ _ _ _ _ _ _ _ T).
    destruct (Z.eqb_spec m n2), (Z.eqb_spec m n1); subst; done.
  - intros m. rewrite (vs_refs _ _ _ _ _ _ V2), Ey2, (vs_refs _ _ _ _ _ _ V), E1.
    destruct (Z.eqb_spec m n2) as [->|]; [lia|]. destruct (Z.eqb_spec m n1) as [->|]; [lia|].
    rewrite (th_refs _ _ _ _ _ _ _ _ _ T). destruct (Z.eqb_spec m n1), (Z.eqb_spec m n2); try done. lia.
  - pose proof (vs_used _ _ _ _ _ _ V) as U1. pose proof (vs_used _ _ _ _ _ _ V2) as U2.
    rewrite E1 in U1. rewrite Ey2 in U2. replace (r n1 + 1 - 1) with (r n1) in U1 by lia.
    replace (r n2 + 1 - 1) with (r n2) in U2 by lia.
    assert (forall z0, 0 <= z0 -> nz (z0 + 1) = 1%nat) as Hone by (intros z0 ?; unfold nz; destruct (Z.eqb_spec (z0 + 1) 0); lia).
    rewrite (Hone _ K1) in U1. rewrite (Hone _ K2) in U2. lia.
Qed.

End two.

(** ** The copies between the log and the home blocks *)

Lemma mv_log x x' ws : moved x x' ws -> fs_log x' = fs_log x /\ fs_sb x' = fs_sb x.
Proof. intros [E _]. by rewrite E. Qed.

Lemma mv_writes x x' ws : moved x x' ws -> fs_dwrites x' = fs_dwrites x ++ ws.
Proof. intros [E _]. by rewrite E. Qed.

(** The writes of write_log() and of install_trans(), for contents [c]. *)
Definition log_writes (st : Z) (c : Z -> list Z) (bs : list Z) : list (Z * list Z) :=
  imap (fun i b => (st + Z.of_nat i + 1, c b)) bs.
Definition home_writes (st : Z) (c : Z -> list Z) (bs : list Z) : list (Z * list Z) :=
  imap (fun i b => (b, c (st + Z.of_nat i + 1))) bs.

(** The log's variables describe the transaction [bs]. *)
Record log_vars (lg : logst) (st : Z) (bs : list Z) : Prop := {
  lv_dev : lg_dev lg = ROOTDEV;
  lv_start : lg_start lg = st;
  lv_n : lg_n lg = Z.of_nat (length bs);
  lv_blocks : forall i b, bs !! i = Some b -> nth i (lg_block lg) 0 = b;
  lv_st : 0 <= st /\ st + 31 < 2 ^ 31;
  lv_size : (length bs <= 30)%nat;
  lv_nodup : NoDup bs;
  lv_out b : b ∈ bs -> 0 <= b < 2 ^ 31 /\ ~ (st <= b <= st + 30)
}.

Lemma log_writes_out st c bs m k :
  (length bs <= 30)%nat -> ~ (st <= m <= st + 30) -> m ∉ (take k (log_writes st c bs)).*1.
Proof.
  intros Hl Hm Hin. apply list_elem_of_fmap in Hin as ([a d] & -> & Hin). apply list_elem_of_lookup in Hin as [i Hi].
  apply lookup_take_Some in Hi as [Hi _]. unfold log_writes in Hi. rewrite list_lookup_imap in Hi.
  destruct (bs !! i) as [b|] eqn:E; [|done]. injection Hi as <- _. apply lookup_lt_Some in E. cbn in Hm. lia.
Qed.

Lemma home_writes_fst st c bs : (home_writes st c bs).*1 = bs.
Proof.
  apply list_eq. intros i. unfold home_writes. rewrite list_lookup_fmap, list_lookup_imap. by destruct (bs !! i).
Qed.

Lemma entries_split n k : (k < Z.to_nat n)%nat -> seq k (Z.to_nat n - k) = k :: seq (S k) (Z.to_nat n - S k).
Proof. intros H. replace (Z.to_nat n - k)%nat with (S (Z.to_nat n - S k)) by lia. done. Qed.

Section steps.
Context {env : Env} {caller : Caller}.

Lemma runs_get_log {A} H x (f : logst -> A) : runs H (get_log f) x (f (fs_log x)) H x.
Proof. apply (runs_getf H x (fun y => f (fs_log y))). Qed.

Lemma runs_log_block H x i : runs H (log_block i) x (nth i (lg_block (fs_log x)) 0) H x.
Proof. apply (runs_get_log H x (fun l => nth i (lg_block l) 0)). Qed.

(** The body of write_log(). *)
Definition write_log_body (tail : nat) : K (ctl unit) :=
  dev <- get_log lg_dev ;;
  start <- get_log lg_start ;;
  to <- bread dev (start + Z.of_nat tail + 1) ;;
  src <- log_block tail ;;
  from <- bread dev src ;;
  data <- get_buf from b_data ;;
  put_buf to (set_b_data data) ;;
  bwrite to ;;
  brelse from ;;
  brelse to ;;
  retM (@Continue unit).

Lemma write_log_step H x st bs k b :
  cache x -> locks_free H -> idle x -> log_vars (fs_log x) st bs -> bs !! k = Some b ->
  (forall j, st < j <= st + 30 -> refs x j = 0) -> 1 <= refs x b -> refs x b + 1 < 2 ^ 31 -> (used x < NBUF)%nat ->
  exists x', runs H (write_log_body k) x Continue H x' /\ cache x' /\ idle x' /\
    moved x x' [(st + Z.of_nat k + 1, cur x b)] /\
    (forall m, cur x' m = store_block (cur x) (st + Z.of_nat k + 1, cur x b) m) /\
    (forall m, refs x' m = refs x m) /\ used x' = used x.
Proof.
  intros Hc HL Hid LV Hb Hlog Hr Hr' Hu. set (n1 := st + Z.of_nat k + 1).
  pose proof (lv_size _ _ _ LV). pose proof (lv_st _ _ _ LV). pose proof (lookup_lt_Some _ _ _ Hb).
  destruct (lv_out _ _ _ LV b) as [Hbr Hbo]; [by eapply list_elem_of_lookup_2|].
  assert (Hz : refs x n1 = 0) by (apply Hlog; lia).
  destruct (bread2 H x n1 b Hc HL Hid) as (b1 & x1 & b2 & x2 & R1 & R2 & T2 & B1 & U2); try lia.
  { rewrite Hz. unfold nz. cbn [Z.eqb]. destruct (Z.eqb_spec (refs x b) 0); lia. }
  destruct (th_copy H _ _ _ _ _ _ _ _ _ (cur x b) T2) as (x3 & R3 & U3 & T3).
  destruct (th_bwrite H _ _ _ _ _ _ _ _ _ T3 HL) as (x4 & R4 & U4 & T4). rewrite Z.eqb_refl in T4.
  destruct (th_release H _ _ _ _ _ _ _ _ _ (two_swap _ _ _ _ _ _ _ _ _ T4) HL Hid)
    as (x5 & x6 & R5 & R6 & C6 & I6 & M6 & Cu6 & Re6 & U6).
  { lia. }
  { intros _. rewrite Z.eqb_refl. cbn. unfold store_block. cbn. by rewrite Z.eqb_refl. }
  assert (Hd2 : b_data (fbuf b2 x2) = cur x b).
  { rewrite <- (proj1 (has_buf_cur _ _ _ (th_b2 _ _ _ _ _ _ _ _ _ T2))). apply T2. }
  assert (L1 : fs_log x1 = fs_log x) by (by rewrite B1).
  exists x6. split; [|split_and!; try done; lia].
  unfold write_log_body. eapply runs_bind; [apply runs_get_log|]. eapply runs_bind; [apply runs_get_log|].
    rewrite (lv_dev _ _ _ LV), (lv_start _ _ _ LV). fold n1.
    eapply runs_bind; [exact R1|]. eapply runs_bind; [apply runs_log_block|].
    rewrite L1, (lv_blocks _ _ _ LV k b Hb). eapply runs_bind; [exact R2|].
    rstep. rewrite Hd2. eapply runs_bind; [exact R3|]. eapply runs_bind; [exact R4|].
    eapply runs_bind; [exact R5|]. eapply runs_bind; [exact R6|]. apply runs_ret.
Qed.

Lemma store_snoc (c d : Z -> list Z) ws w m :
  (forall k, d k = disk_after c ws k) -> store_block d w m = disk_after c (ws ++ [w]) m.
Proof. intros E. rewrite disk_after_app. cbn. unfold store_block. destruct (m =? fst w); [done|apply E]. Qed.

Lemma take_imap_snoc {A B} (f : nat -> A -> B) l k a :
  l !! k = Some a -> take (S k) (imap f l) = take k (imap f l) ++ [f k a].
Proof. intros E. apply take_S_r. by rewrite list_lookup_imap, E. Qed.

(** write_log() copies the current contents of the blocks of the transaction to the log. *)
Lemma write_log_run H x st bs :
  cache x -> locks_free H -> idle x -> log_vars (fs_log x) st bs ->
  (forall j, st < j <= st + 30 -> refs x j = 0) ->
  (forall b, b ∈ bs -> 1 <= refs x b /\ refs x b + 1 < 2 ^ 31) -> (used x < NBUF)%nat ->
  exists x', runs H write_log x tt H x' /\ cache x' /\ idle x' /\ moved x x' (log_writes st (cur x) bs) /\
    (forall m, cur x' m = disk_after (cur x) (log_writes st (cur x) bs) m) /\
    (forall m, refs x' m = refs x m) /\ used x' = used x.
Proof.
  intros Hc HL Hid LV Hlog Hpin Hu. unfold write_log. pose proof (lv_size _ _ _ LV) as Hsz.
  set (W k := take k (log_writes st (cur x) bs)).
  destruct (runs_for H (fun l y => exists k, (k <= length bs)%nat /\ l = seq k (length bs - k) /\ cache y /\ idle y /\
      moved x y (W k) /\ (forall m, cur y m = disk_after (cur x) (W k) m) /\
      (forall m, refs y m = refs x m) /\ used y = used x) (seq 0 (length bs)) write_log_body x)
    as (x' & R & k & Hk & Hl & C & I & M & Cu & Re & U).
  - exists 0%nat. rewrite Nat.sub_0_r. split_and!; try done; [lia|apply moved_refl].
  - intros i l' y (k & Hk & Hl & C & I & M & Cu & Re & U).
    destruct (decide (k < length bs)%nat) as [Hlt|]; [|by replace (length bs - k)%nat with 0%nat in Hl by lia].
    replace (length bs - k)%nat with (S (length bs - S k)) in Hl by lia. injection Hl as <- ->.
    destruct (lookup_lt_is_Some_2 _ _ Hlt) as [b Hb]. pose proof (list_elem_of_lookup_2 _ _ _ Hb) as Hin.
    destruct (lv_out _ _ _ LV b Hin) as [_ Hbo].
    assert (Ecb : cur y b = cur x b).
    { rewrite Cu. unfold W. by apply disk_after_out, log_writes_out. }
    destruct (write_log_step H y st bs i b) as (z & R & C' & I' & M' & Cu' & Re' & U'); try done.
    { by rewrite (proj1 (mv_log _ _ _ M)). }
    { intros j Hj. rewrite Re. by apply Hlog. }
    { rewrite Re. by apply Hpin. } { rewrite Re. by apply Hpin. } { by rewrite U. }
    rewrite Ecb in M', Cu'. exists z. split; [exact R|]. exists (S i).
    assert (EW : W (S i) = W i ++ [(st + Z.of_nat i + 1, cur x b)])
      by (by apply (take_imap_snoc (fun i b => (st + Z.of_nat i + 1, cur x b)))).
    rewrite EW. split_and!; try done; try lia.
    + by eapply moved_trans.
    + intros m. rewrite Cu'. by apply store_snoc.
    + intros m. by rewrite Re'.
  - assert (k = length bs) as -> by (destruct (length bs - k)%nat eqn:?; [lia|done]).
    assert (EW : W (length bs) = log_writes st (cur x) bs).
    { apply take_ge. unfold log_writes. rewrite length_imap. lia. }
    rewrite EW in *. exists x'. split_and!; try done.
    eapply runs_bind; [apply runs_get_log|]. rewrite (lv_n _ _ _ LV). unfold entries. rewrite Nat2Z.id.
    eapply runs_bind; [exact R|apply runs_ret].
Qed.

(** The body of install_trans(). *)
(** A state with the same cache and the same disk. *)
Lemma keep_cache x x' :
  cache x -> fs_buf x' = fs_buf x -> fs_disk x' = fs_disk x -> fs_lru x' = fs_lru x ->
  cache x' /\ (forall m, cur x' m = cur x m) /\ (forall m, refs x' m = refs x m) /\
  (forall m, block_lock x' m = block_lock x m) /\ used x' = used x /\ (forall b n, has_buf x b n -> has_buf x' b n).
Proof.
  intros Hc Eb Ed El. destruct (buf_same x x' Eb) as (Ef & Es & Er & Ek & Eu).
  assert (Hcur : forall m, cur x' m = cur x m) by (intros m; apply cur_same; [done|by rewrite Ed]).
  split_and!; try done.
  - apply (cache_same x); [done|done|by rewrite El|]. intros n Hn. rewrite Hcur, Ed. by apply (ca_clean _ Hc).
  - intros b n [H1 H2 H3]. split; rewrite ?Es, ?Ef; done.
Qed.

Definition install_copy (recovering : bool) (tail : nat) : K (ctl unit) :=
  dev <- get_log lg_dev ;;
  start <- get_log lg_start ;;
  lbuf <- bread dev (start + Z.of_nat tail + 1) ;;
  dst <- log_block tail ;;
  dbuf <- bread dev dst ;;
  data <- get_buf lbuf b_data ;;
  put_buf dbuf (set_b_data data) ;;
  bwrite dbuf ;;
  whenM (negb recovering) (bunpin dbuf) ;;
  brelse lbuf ;;
  brelse dbuf ;;
  retM (@Continue unit).

Definition install_body (recovering : bool) (tail : nat) : K (ctl unit) :=
  whenM recovering
    (dst <- log_block tail ;;
     printf (chars "recovering tail %d dst %d" ++ [newline]) [AInt (Z.of_nat tail); AInt dst]) ;;
  install_copy recovering tail.

(** Other references to a block after its installation. *)
Definition unpinned (recovering : bool) (r : Z) : Z := if recovering then r else r - 1.

Lemma install_copy_run H x st bs k b rec :
  cache x -> locks_free H -> idle x -> log_vars (fs_log x) st bs -> bs !! k = Some b ->
  (forall j, st < j <= st + 30 -> refs x j = 0) -> (rec = false -> 1 <= refs x b) -> refs x b + 1 < 2 ^ 31 ->
  (used x + 2 <= NBUF + nz (refs x b))%nat ->
  exists x', runs H (install_copy rec k) x Continue H x' /\ cache x' /\ idle x' /\
    moved x x' [(b, cur x (st + Z.of_nat k + 1))] /\
    (forall m, cur x' m = store_block (cur x) (b, cur x (st + Z.of_nat k + 1)) m) /\
    (forall m, refs x' m = if m =? b then unpinned rec (refs x b) else refs x m) /\
    (used x' + nz (refs x b) = used x + nz (unpinned rec (refs x b)))%nat.
Proof.
  intros Hc HL Hid LV Hb Hlog Hr Hr' Hu. set (n1 := st + Z.of_nat k + 1).
  pose proof (lv_size _ _ _ LV). pose proof (lv_st _ _ _ LV). pose proof (lookup_lt_Some _ _ _ Hb).
  destruct (lv_out _ _ _ LV b) as [Hbr Hbo]; [by eapply list_elem_of_lookup_2|].
  assert (Hz : refs x n1 = 0) by (apply Hlog; lia). pose proof (cache_range x b Hc) as Hrb.
  destruct (bread2 H x n1 b Hc HL Hid) as (b1 & x1 & b2 & x2 & R1 & R2 & T2 & B1 & U2); try lia.
  assert (Hd1 : b_data (fbuf b1 x2) = cur x n1).
  { rewrite <- (proj1 (has_buf_cur _ _ _ (th_b1 _ _ _ _ _ _ _ _ _ T2))). apply T2. }
  destruct (th_copy H _ _ _ _ _ _ _ _ _ (cur x n1) (two_swap _ _ _ _ _ _ _ _ _ T2)) as (x3 & R3 & U3 & T3).
  destruct (th_bwrite H _ _ _ _ _ _ _ _ _ T3 HL) as (x4 & R4 & U4 & T4). rewrite Z.eqb_refl in T4.
  assert (exists x5, runs H (whenM (negb rec) (bunpin b2)) x4 tt H x5 /\ used x5 = used x4 /\
    two_held x x5 b2 b b1 n1 (fun m => if m =? b then cur x n1 else cur x m)
      (fun m => if m =? b then unpinned rec (refs x b) else refs x m) ([] ++ [(b, cur x n1)])) as (x5 & R5 & U5 & T5).
  { destruct rec; cbn [negb whenM unpinned].
    - exists x4. split; [apply runs_ret|]. split; [done|]. eapply two_ext; [exact T4|done|].
      intros m. cbv beta. by destruct (Z.eqb_spec m b) as [->|].
    - apply th_unpin; [exact T4|done|auto]. }
  destruct (th_release H _ _ _ _ _ _ _ _ _ (two_swap _ _ _ _ _ _ _ _ _ T5) HL Hid)
    as (x6 & x7 & R6 & R7 & C7 & I7 & M7 & Cu7 & Re7 & U7).
  { intros _. cbn. unfold store_block. cbn. destruct (Z.eqb_spec n1 b); [done|]. by apply (ca_clean _ Hc). }
  { intros _. cbn. unfold store_block. cbn. by rewrite Z.eqb_refl. }
  assert (L1 : fs_log x1 = fs_log x) by (by rewrite B1).
  exists x7. split; [|split_and!; try done].
  - unfold install_copy. eapply runs_bind; [apply runs_get_log|]. eapply runs_bind; [apply runs_get_log|].
    rewrite (lv_dev _ _ _ LV), (lv_start _ _ _ LV). fold n1.
    eapply runs_bind; [exact R1|]. eapply runs_bind; [apply runs_log_block|].
    rewrite L1, (lv_blocks _ _ _ LV k b Hb). eapply runs_bind; [exact R2|].
    rstep. rewrite Hd1. eapply runs_bind; [exact R3|]. eapply runs_bind; [exact R4|].
    eapply runs_bind; [exact R5|]. eapply runs_bind; [exact R6|]. eapply runs_bind; [exact R7|]. apply runs_ret.
  - cbv beta in U7. rewrite Z.eqb_refl in U7. destruct (Z.eqb_spec n1 b); [lia|]. rewrite Hz in U7, U2. lia.
Qed.

Lemma install_step H x st bs k b rec :
  cache x -> locks_free H -> (rec = true -> LPr ∉ H) -> idle x -> log_vars (fs_log x) st bs -> bs !! k = Some b ->
  (forall j, st < j <= st + 30 -> refs x j = 0) -> (rec = false -> 1 <= refs x b) -> refs x b + 1 < 2 ^ 31 ->
  (used x + 2 <= NBUF + nz (refs x b))%nat ->
  exists x', runs H (install_body rec k) x Continue H x' /\ cache x' /\ idle x' /\
    moved x x' [(b, cur x (st + Z.of_nat k + 1))] /\
    (forall m, cur x' m = store_block (cur x) (b, cur x (st + Z.of_nat k + 1)) m) /\
    (forall m, refs x' m = if m =? b then unpinned rec (refs x b) else refs x m) /\
    (used x' + nz (refs x b) = used x + nz (unpinned rec (refs x b)))%nat.
Proof.
  intros Hc HL HP Hid LV Hb Hlog Hr Hr' Hu.
  assert (exists out, runs H (whenM rec (dst <- log_block k ;;
      printf (chars "recovering tail %d dst %d" ++ [newline]) [AInt (Z.of_nat k); AInt dst])) x tt H (printed out x)) as [out R0].
  { destruct rec; cbn [whenM]; [|exists []; rewrite printed_nil; apply runs_ret].
    eexists. eapply runs_bind; [apply runs_log_block|]. by apply runs_printf, HP. }
  destruct (keep_cache x (printed out x) Hc) as (C0 & Cu0 & Re0 & Lk0 & U0 & _); [done..|].
  assert (M0 : moved x (printed out x) []) by (split; [rewrite app_nil_r; by destruct x|done]).
  assert (L0 : fs_log (printed out x) = fs_log x) by done.
  set (y := printed out x) in *. clearbody y.
  destruct (install_copy_run H y st bs k b rec) as (x' & R & C & I & M & Cu & Re & U); try done.
  { intros m. by rewrite Lk0. } { by rewrite L0. } { intros j Hj. rewrite Re0. auto. } { by rewrite Re0. }
  { by rewrite Re0. } { by rewrite U0, Re0. }
  rewrite ?Cu0, ?Re0, ?U0 in *. exists x'. split; [by eapply runs_bind|]. split_and!; try done.
  - exact (moved_trans _ _ _ _ _ M0 M).
  - intros m. rewrite Cu. unfold store_block. by rewrite Cu0.
  - intros m. by rewrite Re, Re0.
Qed.

Lemma nz_unpinned rec r : (rec = false -> 1 <= r) -> (nz (unpinned rec r) <= nz r)%nat.
Proof.
  intros H. destruct rec; cbn [unpinned]; [done|]. specialize (H eq_refl).
  unfold nz. destruct (Z.eqb_spec (r - 1) 0), (Z.eqb_spec r 0); lia.
Qed.

(** install_trans() copies the log to the home blocks. *)
Lemma install_run H x st bs rec :
  cache x -> locks_free H -> (rec = true -> LPr ∉ H) -> idle x -> log_vars (fs_log x) st bs ->
  (forall j, st < j <= st + 30 -> refs x j = 0) ->
  (forall b, b ∈ bs -> (rec = false -> 1 <= refs x b) /\ refs x b + 1 < 2 ^ 31 /\
     (used x + 2 <= NBUF + nz (refs x b))%nat) ->
  exists x', runs H (install_trans rec) x tt H x' /\ cache x' /\ idle x' /\ moved x x' (home_writes st (cur x) bs) /\
    (forall m, cur x' m = disk_after (cur x) (home_writes st (cur x) bs) m) /\
    (forall m, refs x' m = if decide (m ∈ bs) then unpinned rec (refs x m) else refs x m) /\ (used x' <= used x)%nat.
Proof.
  intros Hc HL HP Hid LV Hlog Hpin. unfold install_trans. pose proof (lv_size _ _ _ LV) as Hsz.
  set (W k := take k (home_writes st (cur x) bs)).
  assert (HW : forall k, (W k).*1 = take k bs) by (intros k; unfold W; by rewrite fmap_take, home_writes_fst).
  destruct (runs_for H (fun l y => exists k, (k <= length bs)%nat /\ l = seq k (length bs - k) /\ cache y /\ idle y /\
      moved x y (W k) /\ (forall m, cur y m = disk_after (cur x) (W k) m) /\
      (forall m, refs y m = if decide (m ∈ take k bs) then unpinned rec (refs x m) else refs x m) /\
      (used y <= used x)%nat) (seq 0 (length bs)) (install_body rec) x)
    as (x' & R & k & Hk & Hl & C & I & M & Cu & Re & U).
  - exists 0%nat. rewrite Nat.sub_0_r. split_and!; try done; [lia|apply moved_refl].
  - intros i l' y (k & Hk & Hl & C & I & M & Cu & Re & U).
    destruct (decide (k < length bs)%nat) as [Hlt|]; [|by replace (length bs - k)%nat with 0%nat in Hl by lia].
    replace (length bs - k)%nat with (S (length bs - S k)) in Hl by lia. injection Hl as <- ->.
    destruct (lookup_lt_is_Some_2 _ _ Hlt) as [b Hb]. pose proof (list_elem_of_lookup_2 _ _ _ Hb) as Hin.
    pose proof (take_S_r _ _ _ Hb) as Etake. pose proof (lv_nodup _ _ _ LV) as Hnd.
    assert (Hnew : b ∉ take i bs).
    { rewrite <- (take_drop (S i) bs), Etake, <- app_assoc in Hnd. apply NoDup_app in Hnd as (_ & Hnd & _).
      intros Hb'. apply (Hnd b Hb'). by left. }
    assert (Hlogk : forall j, st <= j <= st + 30 -> j ∉ take i bs).
    { intros j Hj Hj'. destruct (lv_out _ _ _ LV j) as [_ Ho]; [|done]. rewrite <- (take_drop i bs), elem_of_app. by left. }
    assert (Ecb : cur y (st + Z.of_nat i + 1) = cur x (st + Z.of_nat i + 1)).
    { rewrite Cu. apply disk_after_out. rewrite HW. apply Hlogk. lia. }
    assert (Erb : refs y b = refs x b) by (rewrite Re, decide_False; done).
    destruct (Hpin b Hin) as (P1 & P2 & P3).
    destruct (install_step H y st bs i b rec) as (z & R & C' & I' & M' & Cu' & Re' & U'); try done.
    { by rewrite (proj1 (mv_log _ _ _ M)). }
    { intros j Hj. rewrite Re, decide_False by (apply Hlogk; lia). by apply Hlog. }
    { by rewrite Erb. } { by rewrite Erb. } { rewrite Erb. lia. }
    rewrite Ecb in M', Cu'. rewrite Erb in Re', U'. pose proof (nz_unpinned rec (refs x b) P1).
    exists z. split; [exact R|]. exists (S i).
    assert (EW : W (S i) = W i ++ [(b, cur x (st + Z.of_nat i + 1))])
      by (by apply (take_imap_snoc (fun i b => (b, cur x (st + Z.of_nat i + 1))))).
    rewrite EW, Etake. split_and!; try done; try lia.
    + by eapply moved_trans.
    + intros m. rewrite Cu'. by apply store_snoc.
    + intros m. rewrite Re', Re. destruct (Z.eqb_spec m b) as [->|Hm].
      * rewrite decide_True; [reflexivity|]. rewrite elem_of_app, list_elem_of_singleton. by right.
      * destruct (decide (m ∈ take i bs)); [rewrite decide_True|rewrite decide_False]; try reflexivity;
          rewrite elem_of_app, list_elem_of_singleton; tauto.
  - assert (k = length bs) as -> by (destruct (length bs - k)%nat eqn:?; [lia|done]).
    assert (EW : W (length bs) = home_writes st (cur x) bs).
    { apply take_ge. unfold home_writes. rewrite length_imap. lia. }
    rewrite EW, (take_ge bs) in * by lia. exists x'. split_and!; try done.
    eapply runs_bind; [apply runs_get_log|]. rewrite (lv_n _ _ _ LV). unfold entries. rewrite Nat2Z.id.
    eapply runs_bind; [exact R|apply runs_ret].
Qed.

(** ** The header block *)

Definition put_blocks (blocks : list Z) (l : list nat) (d : list Z) : list Z :=
  fold_left (fun d i => put_head_block i (nth i blocks 0) d) l d.

(** What write_head() makes of the header block. *)
Definition head_image (lg : logst) (d : list Z) : list Z :=
  put_blocks (lg_block lg) (entries (lg_n lg)) (put_head_n (lg_n lg) d).

Lemma upd_buf_id b f x : (forall y, f y = y) -> upd_buf b f x = x.
Proof.
  intros E. unfold upd_buf. replace (alter f b (fs_buf x)) with (fs_buf x); [by destruct x|].
  apply list_eq. intros i. destruct (decide (b = i)) as [->|]; [|by rewrite list_lookup_alter_ne].
  rewrite list_lookup_alter_eq. destruct (_ !! i); [cbn; by rewrite E|done].
Qed.

Lemma put_blocks_run H x b l :
  runs H (for_loop l (fun i =>
    v <- log_block i ;;
    put_buf b (fun y => set_b_data (put_head_block i v (b_data y)) y) ;;
    retM (@Continue unit))) x None H
    (upd_buf b (fun y => set_b_data (put_blocks (lg_block (fs_log x)) l (b_data y)) y) x).
Proof.
  revert x. induction l as [|i l IH]; intros x; cbn [for_loop].
  - rewrite upd_buf_id; [apply runs_ret|]. by intros [].
  - eapply runs_bind.
    + eapply runs_bind; [apply runs_log_block|]. unfold put_buf. rstep. apply runs_ret.
    + set (x1 := upd_buf b _ x). specialize (IH x1). change (fs_log x1) with (fs_log x) in IH.
      unfold x1 in IH. rewrite upd_buf_twice in IH. exact IH.
Qed.

Lemma write_head_run H x st :
  cache x -> locks_free H -> idle x -> lg_dev (fs_log x) = ROOTDEV -> lg_start (fs_log x) = st ->
  0 <= st < 2 ^ 32 -> refs x st = 0 -> (used x < NBUF)%nat ->
  let d := head_image (fs_log x) (cur x st) in
  exists x', runs H write_head x tt H x' /\ cache x' /\ idle x' /\ moved x x' [(st, d)] /\
    (forall m, cur x' m = store_block (cur x) (st, d) m) /\ (forall m, refs x' m = refs x m) /\ used x' = used x.
Proof.
  intros Hc HL Hid Hdev Hst Hrg Hz Hu d.
  destruct (bread_run H x st Hc HL Hrg (Hid st)) as (b & x1 & R1 & B1 & D1 & V1); [lia|done|].
  pose proof (vs_cache _ _ _ _ _ _ V1) as C1. pose proof (has_buf_lt x1 b st C1 B1) as (Hlt & _).
  assert (L1 : fs_log x1 = fs_log x) by (by rewrite (vs_bio _ _ _ _ _ _ V1)).
  destruct (put_data_run H x1 b st d C1 B1) as (_ & B2 & V2). set (x2 := upd_buf b (set_b_data d) x1) in *.
  pose proof (vs_cache _ _ _ _ _ _ V2) as C2.
  assert (E2 : upd_buf b (fun y => set_b_data (put_blocks (lg_block (fs_log x)) (entries (lg_n (fs_log x)))
    (put_head_n (lg_n (fs_log x)) (b_data y))) y) x1 = x2).
  { rewrite upd_buf_const by (rewrite (ca_len _ C1); done). cbv beta. rewrite D1. fold (head_image (fs_log x) (cur x st)).
    fold d. unfold x2. by rewrite (upd_buf_const x1 b (set_b_data d)) by (rewrite (ca_len _ C1); done). }
  assert (Ecur2 : cur x2 st = d) by (by rewrite (vs_cur _ _ _ _ _ _ V2), Z.eqb_refl).
  assert (Er1 : refs x1 st = 1) by (by rewrite (vs_refs _ _ _ _ _ _ V1), Z.eqb_refl, Hz).
  assert (Er2 : refs x2 st = 1) by (by rewrite (vs_refs _ _ _ _ _ _ V2), Z.eqb_refl).
  pose proof (bwrite_run H x2 b st C2 HL B2) as R3. destruct (disk_write_view x2 b st C2 B2) as (C3 & B3 & Cu3).
  pose proof (write_moved x2 st (cur x2 st)) as M3.
  rewrite Ecur2 in *. set (x3 := disk_write st d x2) in *.
  destruct (buf_same x2 x3 eq_refl) as (_ & _ & Er3 & El3 & Eu3). clearbody x3.
  destruct (brelse_run H x3 b st C3 HL B3) as (x4 & R4 & V4).
  { intros _. rewrite Cu3, Ecur2, (mv_disk _ _ _ M3). cbn. unfold store_block. cbn. by rewrite Z.eqb_refl. }
  exists x4. split; [|split; [apply V4|split; [|split; [|split; [|split]]]]].
  - unfold write_head. eapply runs_bind; [apply runs_get_log|]. eapply runs_bind; [apply runs_get_log|].
    rewrite Hdev, Hst. eapply runs_bind; [exact R1|]. eapply runs_bind; [apply runs_get_log|]. rewrite L1.
    unfold put_buf at 1. rstep. eapply runs_bind; [apply put_blocks_run|].
    change (fs_log (upd_buf b _ x1)) with (fs_log x1). rewrite L1, upd_buf_twice.
    lazymatch goal with |- runs _ _ ?y _ _ _ => replace y with x2 by (symmetry; exact E2) end.
    eapply runs_bind; [exact R3|exact R4].
  - intros m. rewrite (vs_lock _ _ _ _ _ _ V4), El3, (vs_lock _ _ _ _ _ _ V2), (vs_lock _ _ _ _ _ _ V1).
    destruct (m =? st); [done|apply Hid].
  - change [(st, d)] with ([] ++ [] ++ [(st, d)] ++ []). eapply moved_trans; [apply bio_moved, V1|].
    eapply moved_trans; [apply bio_moved, V2|]. eapply moved_trans; [exact M3|apply bio_moved, V4].
  - intros m. rewrite (vs_cur _ _ _ _ _ _ V4), !Cu3, !(vs_cur _ _ _ _ _ _ V2), Z.eqb_refl.
    unfold store_block. cbn [fst snd]. destruct (Z.eqb_spec m st); [done|].
    rewrite (vs_cur _ _ _ _ _ _ V1). by destruct (Z.eqb_spec m st).
  - intros m. rewrite (vs_refs _ _ _ _ _ _ V4). destruct (Z.eqb_spec m st) as [->|Hm]; [by rewrite Er3, Er2, Hz|].
    apply Z.eqb_neq in Hm. by rewrite Er3, (vs_refs _ _ _ _ _ _ V2), Hm, (vs_refs _ _ _ _ _ _ V1), Hm.
  - pose proof (vs_used _ _ _ _ _ _ V1) as U1. pose proof (vs_used _ _ _ _ _ _ V2) as U2.
    pose proof (vs_used _ _ _ _ _ _ V4) as U4. rewrite Er3, Er2 in U4. rewrite Er1 in U2. rewrite Hz in U1.
    change (nz 0) with 0%nat in U1. change (nz (0 + 1)) with 1%nat in U1.
    change (nz 1) with 1%nat in U2, U4. change (nz (1 - 1)) with 0%nat in U4. lia.
Qed.

Lemma put_blocks_spec blocks n d k :
  length d = 1024%nat -> (k <= 30)%nat -> 0 <= n < 2 ^ 31 ->
  let d' := put_blocks blocks (seq 0 k) (put_head_n n d) in
  length d' = 1024%nat /\ get_u32 d' 0 = n /\ forall i, (i < k)%nat -> get_u32 d' (4 + 4 * Z.of_nat i) = u32 (nth i blocks 0).
Proof.
  intros Hd Hk Hn. induction k as [|k IH]; cbv zeta.
  - change (put_blocks blocks (seq 0 0) (put_head_n n d)) with (put_u32 d 0 n). rewrite length_put_u32, get_put_u32 by lia. split_and!; [done|apply u32_small; lia|lia].
  - destruct IH as (L & H0 & Hi); [lia|]. unfold put_blocks in *. rewrite seq_S, fold_left_app. cbn [fold_left Nat.add].
    set (d1 := fold_left _ _ _) in *. unfold put_head_block. rewrite length_put_u32.
    split_and!; [done|rewrite get_put_u32_other by lia; done|]. intros i Hik.
    destruct (decide (i = k)) as [->|]; [apply get_put_u32; lia|].
    rewrite get_put_u32_other by lia. apply Hi. lia.
Qed.

(** The header block names the transaction [bs]. *)
Definition head_of (d : list Z) (bs : list Z) : Prop :=
  head_n d = Z.of_nat (length bs) /\ forall i b, bs !! i = Some b -> head_block d i = b.

Lemma head_image_of lg st bs d : length d = 1024%nat -> log_vars lg st bs -> head_of (head_image lg d) bs.
Proof.
  intros Hd LV. unfold head_image. rewrite (lv_n _ _ _ LV). unfold entries. rewrite Nat2Z.id.
  pose proof (lv_size _ _ _ LV) as Hs.
  destruct (put_blocks_spec (lg_block lg) (Z.of_nat (length bs)) d (length bs)) as (_ & H0 & Hi); try lia.
  split; unfold head_n, head_block.
  - rewrite H0. apply s32_small. lia.
  - intros i b Hb. rewrite Hi by (by eapply lookup_lt_Some). rewrite (lv_blocks _ _ _ LV i b Hb).
    apply s32_of_u32. destruct (lv_out _ _ _ LV b); [by eapply list_elem_of_lookup_2|]. lia.
Qed.

(** read_head() on a header block [d]. *)
Definition read_log (d : list Z) (lg : logst) : logst :=
  fold_left (fun l i => set_lg_block (<[i := head_block d i]> (lg_block l)) l) (entries (head_n d)) (set_lg_n (head_n d) lg).

Lemma put_log_run H x d l :
  runs H (for_loop l (fun i =>
    put_log (fun l => set_lg_block (<[i := head_block d i]> (lg_block l)) l) ;; retM (@Continue unit))) x None H
    (set_fs_log (fold_left (fun l i => set_lg_block (<[i := head_block d i]> (lg_block l)) l) l (fs_log x)) x).
Proof.
  revert x. induction l as [|i l IH]; intros x; cbn [for_loop fold_left].
  - replace (set_fs_log _ x) with x by (by destruct x). apply runs_ret.
  - eapply runs_bind; [eapply runs_bind; [apply runs_putf|apply runs_ret]|]. exact (IH _).
Qed.

Lemma read_blocks_spec d lg k :
  length (lg_block lg) = 30%nat -> (k <= 30)%nat ->
  let lg' := fold_left (fun l i => set_lg_block (<[i := head_block d i]> (lg_block l)) l) (seq 0 k) lg in
  lg_dev lg' = lg_dev lg /\ lg_start lg' = lg_start lg /\ lg_n lg' = lg_n lg /\ length (lg_block lg') = 30%nat /\
  forall i, (i < k)%nat -> nth i (lg_block lg') 0 = head_block d i.
Proof.
  intros Hl Hk. induction k as [|k IH]; cbv zeta; [cbn; split_and!; try done; lia|].
  destruct IH as (E1 & E2 & E3 & E4 & E5); [lia|]. rewrite seq_S, fold_left_app. cbn [fold_left Nat.add].
  set (l1 := fold_left _ _ _) in *. fsimpl. rewrite length_insert. split_and!; try done.
  intros i Hi. rewrite nth_lookup. destruct (decide (i = k)) as [->|].
  - rewrite list_lookup_insert_eq by lia. done.
  - rewrite list_lookup_insert_ne by done. rewrite <- nth_lookup. apply E5. lia.
Qed.

Lemma read_log_vars d lg st bs :
  head_of d bs -> length (lg_block lg) = 30%nat -> lg_dev lg = ROOTDEV -> lg_start lg = st ->
  0 <= st /\ st + 31 < 2 ^ 31 -> (length bs <= 30)%nat -> NoDup bs ->
  (forall b, b ∈ bs -> 0 <= b < 2 ^ 31 /\ ~ (st <= b <= st + 30)) ->
  log_vars (read_log d lg) st bs /\ length (lg_block (read_log d lg)) = 30%nat.
Proof.
  intros [Hn Hb] Hl Hdev Hst Hrg Hsz Hnd Hout. unfold read_log. rewrite Hn. unfold entries. rewrite Nat2Z.id.
  destruct (read_blocks_spec d (set_lg_n (Z.of_nat (length bs)) lg) (length bs)) as (E1 & E2 & E3 & E4 & E5); [done|done|].
  split; [|done]. split; try done; [by rewrite E1|by rewrite E2|].
  intros i b Hi. rewrite E5 by (by eapply lookup_lt_Some). by apply Hb.
Qed.

(** Only the log's variables change. *)
Lemma set_log_cache x lg :
  cache x -> let x' := set_fs_log lg x in
  cache x' /\ (forall m, cur x' m = cur x m) /\ (forall m, refs x' m = refs x m) /\
  (forall m, block_lock x' m = block_lock x m) /\ used x' = used x /\ (forall b n, has_buf x b n -> has_buf x' b n).
Proof. intros Hc x'. by apply keep_cache. Qed.

Lemma read_head_run H x st :
  cache x -> locks_free H -> idle x -> lg_dev (fs_log x) = ROOTDEV -> lg_start (fs_log x) = st ->
  0 <= st < 2 ^ 32 -> refs x st = 0 -> (used x < NBUF)%nat ->
  exists x', runs H read_head x tt H x' /\ cache x' /\ idle x' /\
    moved (set_fs_log (read_log (cur x st) (fs_log x)) x) x' [] /\
    (forall m, cur x' m = cur x m) /\ (forall m, refs x' m = refs x m) /\ used x' = used x.
Proof.
  intros Hc HL Hid Hdev Hst Hrg Hz Hu.
  destruct (bread_run H x st Hc HL Hrg (Hid st)) as (b & x1 & R1 & B1 & D1 & V1); [lia|done|].
  pose proof (vs_cache _ _ _ _ _ _ V1) as C1. pose proof (vs_bio _ _ _ _ _ _ V1) as Bio1.
  assert (L1 : fs_log x1 = fs_log x) by (by rewrite Bio1).
  set (lg := read_log (cur x st) (fs_log x)). set (x2 := set_fs_log lg x1).
  destruct (set_log_cache x1 lg C1) as (C2 & Cu2 & Re2 & Lk2 & U2 & B2). fold x2 in C2, Cu2, Re2, Lk2, U2, B2.
  assert (Er1 : refs x1 st = 1) by (by rewrite (vs_refs _ _ _ _ _ _ V1), Z.eqb_refl, Hz).
  assert (Dx2 : fs_disk x2 = fs_disk x) by (unfold x2; rewrite Bio1; reflexivity).
  destruct (brelse_run H x2 b st C2 HL (B2 _ _ B1)) as (x3 & R3 & V3).
  { intros _. rewrite Cu2, (vs_cur _ _ _ _ _ _ V1), Z.eqb_refl, Dx2. by apply (ca_clean _ Hc). }
  exists x3. split; [|split; [apply V3|split; [|split; [|split; [|split]]]]].
  - unfold read_head. eapply runs_bind; [apply runs_get_log|]. eapply runs_bind; [apply runs_get_log|].
    rewrite Hdev, Hst. eapply runs_bind; [exact R1|]. rstep. rewrite D1.
    unfold put_log at 1. rstep. eapply runs_bind; [apply put_log_run|]. fsimpl. rewrite L1. exact R3.
  - intros m. rewrite (vs_lock _ _ _ _ _ _ V3), Lk2, (vs_lock _ _ _ _ _ _ V1). destruct (m =? st); [done|apply Hid].
  - change [] with ([] ++ [] : list (Z * list Z)). eapply moved_trans; [|apply bio_moved, V3]. apply bio_moved.
    unfold bio_only in *. unfold x2. rewrite Bio1 at 1. reflexivity.
  - intros m. rewrite (vs_cur _ _ _ _ _ _ V3), !Cu2, !(vs_cur _ _ _ _ _ _ V1), Z.eqb_refl.
    by destruct (Z.eqb_spec m st) as [->|].
  - intros m. rewrite (vs_refs _ _ _ _ _ _ V3). destruct (Z.eqb_spec m st) as [->|Hm]; [by rewrite Re2, Er1, Hz|].
    apply Z.eqb_neq in Hm. by rewrite Re2, (vs_refs _ _ _ _ _ _ V1), Hm.
  - pose proof (vs_used _ _ _ _ _ _ V1) as U1. pose proof (vs_used _ _ _ _ _ _ V3) as U3.
    rewrite Re2, Er1 in U3. rewrite Hz in U1.
    change (nz 0) with 0%nat in U1. change (nz (0 + 1)) with 1%nat in U1.
    change (nz 1) with 1%nat in U3. change (nz (1 - 1)) with 0%nat in U3. lia.
Qed.

(** ** Recovery *)

(** The transaction in the log of a disk is [bs]. *)
Record on_disk (st : Z) (bs : list Z) (d : Z -> list Z) : Prop := {
  od_head : head_of (d st) bs;
  od_len : length (d st) = 1024%nat;
  od_size : (length bs <= 30)%nat;
  od_nodup : NoDup bs;
  od_out b : b ∈ bs -> 0 <= b < 2 ^ 31 /\ ~ (st <= b <= st + 30)
}.

(** What recovery makes of a disk, outside the log. *)
Definition content (st : Z) (bs : list Z) (d : Z -> list Z) (m : Z) : list Z :=
  disk_after d (home_writes st d bs) m.

(** The kernel has booted on the disk [d]: nothing is cached. *)
Record booted (x : fsstate) (st : Z) (d : Z -> list Z) : Prop := {
  bo_cache : cache x;
  bo_idle : idle x;
  bo_refs m : refs x m = 0;
  bo_used : (used x + 2 <= NBUF)%nat;
  bo_sb : sb_logstart (fs_sb x) = st;
  bo_log : length (lg_block (fs_log x)) = 30%nat;
  bo_disk m : fs_disk x m = d m
}.

Lemma home_writes_ext st c c' bs :
  (length bs <= 30)%nat -> (forall j, st < j <= st + 30 -> c j = c' j) -> home_writes st c bs = home_writes st c' bs.
Proof.
  intros Hl E. apply imap_ext. intros i b Hb. apply lookup_lt_Some in Hb. rewrite E by lia. done.
Qed.

Lemma recover_run H x st bs :
  cache x -> locks_free H -> LPr ∉ H -> idle x -> (forall m, refs x m = 0) -> (used x + 2 <= NBUF)%nat ->
  lg_dev (fs_log x) = ROOTDEV -> lg_start (fs_log x) = st -> length (lg_block (fs_log x)) = 30%nat ->
  0 <= st /\ st + 31 < 2 ^ 31 -> on_disk st bs (fs_disk x) ->
  exists x' h, runs H recover_from_log x tt H x' /\
    fs_dwrites x' = fs_dwrites x ++ home_writes st (fs_disk x) bs ++ [(st, h)] /\
    (forall m, fs_disk x' m = disk_after (fs_disk x) (home_writes st (fs_disk x) bs ++ [(st, h)]) m) /\
    head_of h [] /\ length h = 1024%nat.
Proof.
  intros Hc HL HP Hid Hrz Hu Hdev Hst Hlen Hrg [Hhd Hl1 Hsz Hnd Hout].
  assert (Hcd : forall m, cur x m = fs_disk x m) by (intros m; by apply (ca_clean _ Hc)).
  destruct (read_head_run H x st Hc HL Hid Hdev Hst) as (x1 & R1 & C1 & I1 & M1 & Cu1 & Re1 & U1); [lia|done|lia|].
  rewrite Hcd in M1. destruct (read_log_vars (fs_disk x st) (fs_log x) st bs) as [LV Ll]; try done.
  set (lg := read_log (fs_disk x st) (fs_log x)) in *.
  pose proof (proj1 (mv_log _ _ _ M1)) as L1. change (fs_log (set_fs_log lg x)) with lg in L1.
  pose proof LV as LV'. rewrite <- L1 in LV.
  assert (Hcd1 : forall m, cur x1 m = fs_disk x m) by (intros m; by rewrite Cu1).
  destruct (install_run H x1 st bs true C1 HL (fun _ => HP) I1 LV) as (x2 & R2 & C2 & I2 & M2 & Cu2 & Re2 & U2).
  { intros j _. by rewrite Re1. }
  { intros b Hb. rewrite Re1, Hrz, U1. split_and!; [done|lia|]. change (nz 0) with 0%nat. lia. }
  rewrite (home_writes_ext st (cur x1) (fs_disk x)) in M2, Cu2 by (by intros; rewrite ?Hcd1).
  pose proof (proj1 (mv_log _ _ _ M2)) as L2. rewrite L1 in L2.
  set (x3 := set_fs_log (set_lg_n 0 lg) x2).
  destruct (set_log_cache x2 (set_lg_n 0 lg) C2) as (C3 & Cu3 & Re3 & Lk3 & U3 & _). fold x3 in C3, Cu3, Re3, Lk3, U3.
  assert (Hz3 : forall m, refs x3 m = 0).
  { intros m. rewrite Re3, Re2, Re1, Hrz. by case_decide. }
  destruct (write_head_run H x3 st C3 HL) as (x4 & R4 & C4 & I4 & M4 & _).
  { intros m. rewrite Lk3. apply I2. } { apply LV'. } { apply LV'. } { lia. } { apply Hz3. } { lia. }
  set (h := head_image (fs_log x3) (cur x3 st)) in *.
  assert (Hlst : length (cur x3 st) = 1024%nat).
  { rewrite Cu3, Cu2, disk_after_out, Hcd1; [done|]. rewrite home_writes_fst. intros Hin.
    destruct (Hout st Hin). lia. }
  assert (Ed3 : fs_disk x3 = fs_disk x2) by reflexivity.
  exists x4, h. split; [|split; [|split; [|split]]].
  - unfold recover_from_log. eapply runs_bind; [exact R1|]. eapply runs_bind; [exact R2|].
    eapply runs_bind; [apply runs_putf|]. rewrite L2. exact R4.
  - rewrite (mv_writes _ _ _ M4). change (fs_dwrites x3) with (fs_dwrites x2).
    rewrite (mv_writes _ _ _ M2), (mv_writes _ _ _ M1), app_nil_r, <- app_assoc. done.
  - intros m. rewrite (mv_disk _ _ _ M4), disk_after_app. apply disk_after_ext. intros k. rewrite Ed3, (mv_disk _ _ _ M2).
    apply disk_after_ext. intros j. rewrite (mv_disk _ _ _ M1). done.
  - destruct (put_blocks_spec (lg_block lg) 0 (cur x3 st) 0) as (_ & H0 & _); [done|lia|lia|].
    split; [|by intros i b]. change (head_n h) with (s32 (get_u32 (put_blocks (lg_block lg) (seq 0 0) (put_head_n 0 (cur x3 st))) 0)).
    rewrite H0. reflexivity.
  - apply (put_blocks_spec (lg_block lg) 0 (cur x3 st) 0); [done|lia|lia].
Qed.

Lemma initlog_run H x st bs d :
  booted x st d -> locks_free H -> LPr ∉ H -> 0 <= st /\ st + 31 < 2 ^ 31 -> on_disk st bs d ->
  exists x' h, runs H (initlog ROOTDEV) x tt H x' /\
    fs_dwrites x' = fs_dwrites x ++ home_writes st d bs ++ [(st, h)] /\
    (forall m, fs_disk x' m = disk_after d (home_writes st d bs ++ [(st, h)]) m) /\
    head_of h [] /\ length h = 1024%nat.
Proof.
  intros [C I Hr Hu Hsb Hlg Hd] HL HP Hrg OD.
  set (lg := set_lg_dev ROOTDEV (set_lg_start st (fs_log x))). set (x1 := set_fs_log lg x).
  destruct (set_log_cache x lg C) as (C1 & Cu1 & Re1 & Lk1 & U1 & _). fold x1 in C1, Cu1, Re1, Lk1, U1.
  destruct (recover_run H x1 st bs C1 HL HP) as (x' & h & R & Hw & Hdk & Hh & Hl).
  { intros m. rewrite Lk1. apply I. } { intros m. rewrite Re1. apply Hr. } { rewrite U1. exact Hu. }
  { reflexivity. } { reflexivity. } { exact Hlg. } { exact Hrg. }
  { change (fs_disk x1) with (fs_disk x). destruct OD. split; rewrite ?Hd; assumption. }
  change (fs_disk x1) with (fs_disk x) in *.
  rewrite (home_writes_ext st (fs_disk x) d) in Hw, Hdk by (apply OD || done).
  exists x', h. split; [|split; [exact Hw|split; [|split; [exact Hh|exact Hl]]]].
  - unfold initlog. rstep. rewrite Hsb. unfold put_log. rstep. rstep. exact R.
  - intros m. rewrite Hdk. apply disk_after_ext. exact Hd.
Qed.

(** ** Commit *)

(** The last operation of a transaction has ended: the blocks of the transaction are pinned
    in the cache, nothing else differs from the disk, and the log on the disk is empty. *)
Record committing (x : fsstate) (st : Z) (bs : list Z) : Prop := {
  cm_cache : cache x;
  cm_idle : idle x;
  cm_vars : log_vars (fs_log x) st bs;
  cm_some : bs <> [];
  cm_log j : st <= j <= st + 30 -> refs x j = 0;
  cm_pin b : b ∈ bs -> 1 <= refs x b /\ refs x b + 1 < 2 ^ 31;
  cm_used : (used x < NBUF)%nat;
  cm_head : on_disk st [] (fs_disk x);
  cm_clean m : m ∉ bs -> cur x m = fs_disk x m
}.

(** Installing the current contents [c]. *)
Definition final_writes (c : Z -> list Z) (bs : list Z) : list (Z * list Z) := imap (fun _ b => (b, c b)) bs.

Lemma final_writes_after c bs d m : disk_after d (final_writes c bs) m = if decide (m ∈ bs) then c m else d m.
Proof.
  revert d. induction bs as [|b bs IH]; intros d; [by rewrite decide_False by apply not_elem_of_nil|].
  change (disk_after d (final_writes c (b :: bs))) with (disk_after (store_block d (b, c b)) (final_writes c bs)).
  rewrite IH. unfold store_block. cbn [fst snd]. destruct (decide (m ∈ bs)) as [Hm|Hm].
  - rewrite decide_True; [done|]. by right.
  - destruct (Z.eqb_spec m b) as [->|Hne]; [rewrite decide_True; [done|by left]|].
    rewrite decide_False; [done|]. rewrite elem_of_cons. tauto.
Qed.

(** The log block of the i-th block of the transaction. *)
Lemma log_writes_after st c bs d i b :
  bs !! i = Some b -> disk_after d (log_writes st c bs) (st + Z.of_nat i + 1) = c b.
Proof.
  intros Hb. pose proof (take_imap_snoc (fun i b => (st + Z.of_nat i + 1, c b)) bs i b Hb) as E.
  fold (log_writes st c bs) in E. rewrite <- (take_drop (S i) (log_writes st c bs)), E, !disk_after_app.
  rewrite disk_after_out.
  - cbn. unfold store_block. cbn. by rewrite Z.eqb_refl.
  - intros Hin. apply list_elem_of_fmap in Hin as ([a e] & Ha & Hin). apply list_elem_of_lookup in Hin as [j Hj].
    rewrite lookup_drop in Hj. unfold log_writes in Hj. rewrite list_lookup_imap in Hj.
    destruct (bs !! (S i + j)%nat); [|done]. injection Hj as <- _. cbn in Ha. lia.
Qed.

Lemma home_final st c c' bs :
  (forall i b, bs !! i = Some b -> c' (st + Z.of_nat i + 1) = c b) -> home_writes st c' bs = final_writes c bs.
Proof. intros E. apply imap_ext. intros i b Hb. by rewrite (E i b Hb). Qed.

(** The first half of commit(): the blocks are in the log, and the header on disk names them. *)
Lemma commit_logged H x st bs :
  committing x st bs -> locks_free H ->
  let h := head_image (fs_log x) (fs_disk x st) in
  exists x2, (forall (k : K unit) x', runs H k x2 tt H x' -> runs H (write_log ;; write_head ;; k) x tt H x') /\
    cache x2 /\ idle x2 /\ moved x x2 (log_writes st (cur x) bs ++ [(st, h)]) /\ cur x2 st = h /\
    (forall i b, bs !! i = Some b -> cur x2 (st + Z.of_nat i + 1) = cur x b) /\
    (forall m, refs x2 m = refs x m) /\ used x2 = used x.
Proof.
  intros [Hc Hid LV Hne Hlog Hpin Hu [Hhd Hl0 _ _ _] Hclean] HL h. pose proof (lv_st _ _ _ LV) as Hst.
  assert (Hcst : cur x st = fs_disk x st) by (apply (ca_clean _ Hc), Hlog; lia).
  destruct (write_log_run H x st bs Hc HL Hid LV) as (x1 & R1 & C1 & I1 & M1 & Cu1 & Re1 & U1).
  { intros j Hj. apply Hlog. lia. } { exact Hpin. } { exact Hu. }
  pose proof (proj1 (mv_log _ _ _ M1)) as L1.
  assert (Hst1 : cur x1 st = fs_disk x st).
  { rewrite Cu1, disk_after_out; [done|]. intros Hin. apply list_elem_of_fmap in Hin as ([a e] & Ha & Hin).
    apply list_elem_of_lookup in Hin as [j Hj]. unfold log_writes in Hj. rewrite list_lookup_imap in Hj.
    destruct (bs !! j); [|done]. injection Hj as <- _. cbn in Ha. lia. }
  destruct (write_head_run H x1 st C1 HL I1) as (x2 & R2 & C2 & I2 & M2 & Cu2 & Re2 & U2).
  { rewrite L1. apply LV. } { rewrite L1. apply LV. } { lia. } { rewrite Re1. apply Hlog. lia. } { lia. }
  rewrite L1, Hst1 in M2, Cu2. fold h in M2, Cu2. exists x2.
  split; [|split; [exact C2|split; [exact I2|split; [by eapply moved_trans|split; [|split; [|split; [|by rewrite U2]]]]]]].
  - intros k x' R. eapply runs_bind; [exact R1|]. eapply runs_bind; [exact R2|exact R].
  - rewrite Cu2. unfold store_block. cbn [fst snd]. by rewrite Z.eqb_refl.
  - intros i b Hb. rewrite Cu2. unfold store_block. cbn [fst snd].
    destruct (Z.eqb_spec (st + Z.of_nat i + 1) st); [lia|]. rewrite Cu1. by apply log_writes_after.
  - intros m. by rewrite Re2.
Qed.

Lemma commit_run H x st bs :
  committing x st bs -> locks_free H ->
  exists x' h h0, runs H commit x tt H x' /\
    let ws := log_writes st (cur x) bs ++ [(st, h)] ++ final_writes (cur x) bs ++ [(st, h0)] in
    fs_dwrites x' = fs_dwrites x ++ ws /\ (forall m, fs_disk x' m = disk_after (fs_disk x) ws m) /\
    head_of h bs /\ length h = 1024%nat /\ head_of h0 [] /\ length h0 = 1024%nat.
Proof.
  intros HC HL. destruct (commit_logged H x st bs HC HL) as (x2 & R2 & C2 & I2 & M2 & Cs2 & Ecl & Re2 & U2).
  destruct HC as [Hc Hid LV Hne Hlog Hpin Hu [Hhd Hl0 _ _ _] Hclean]. pose proof (lv_st _ _ _ LV) as Hst.
  pose proof (lv_size _ _ _ LV) as Hsz. pose proof (proj1 (mv_log _ _ _ M2)) as L2.
  set (h := head_image (fs_log x) (fs_disk x st)) in *.
  assert (length h = 1024%nat /\ head_of h bs) as [Lh Hh].
  { split; [|by eapply head_image_of].
    unfold h, head_image, entries. rewrite (lv_n _ _ _ LV), Nat2Z.id.
    apply (put_blocks_spec (lg_block (fs_log x)) (Z.of_nat (length bs)) (fs_disk x st) (length bs)); [done|lia|lia]. }
  destruct (install_run H x2 st bs false C2 HL ltac:(done) I2) as (x3 & R3 & C3 & I3 & M3 & Cu3 & Re3 & U3).
  { by rewrite L2. }
  { intros j Hj. rewrite Re2. apply Hlog. lia. }
  { intros b Hb. rewrite Re2. destruct (Hpin b Hb). split_and!; [done|done|].
    unfold nz. destruct (Z.eqb_spec (refs x b) 0); lia. }
  rewrite (home_final st (cur x) (cur x2) bs Ecl) in M3, Cu3.
  pose proof (proj1 (mv_log _ _ _ M3)) as L3. rewrite L2 in L3.
  set (x4 := set_fs_log (set_lg_n 0 (fs_log x)) x3).
  destruct (set_log_cache x3 (set_lg_n 0 (fs_log x)) C3) as (C4 & Cu4 & Re4 & Lk4 & U4 & _).
  fold x4 in C4, Cu4, Re4, Lk4, U4.
  assert (Hsto : st ∉ bs) by (intros Hin; destruct (lv_out _ _ _ LV st Hin); lia).
  destruct (write_head_run H x4 st C4 HL) as (x5 & R5 & C5 & I5 & M5 & _).
  { intros m. rewrite Lk4. apply I3. } { apply LV. } { apply LV. } { lia. }
  { rewrite Re4, Re3, decide_False by done. rewrite Re2. apply Hlog. lia. } { lia. }
  set (h0 := head_image (fs_log x4) (cur x4 st)) in *.
  assert (L4 : length (cur x4 st) = 1024%nat) by (by rewrite Cu4, Cu3, final_writes_after, decide_False, Cs2 by done).
  destruct (put_blocks_spec (lg_block (fs_log x)) 0 (cur x4 st) 0) as (Lh0 & H0 & _); [done|lia|lia|].
  change (put_blocks _ _ _) with h0 in Lh0, H0.
  assert (Ed4 : fs_disk x4 = fs_disk x3) by reflexivity. assert (Ew4 : fs_dwrites x4 = fs_dwrites x3) by reflexivity.
  assert (Rp : runs H (put_log (set_lg_n 0)) x3 tt H x4).
  { unfold x4. rewrite <- L3. exact (runs_putf H x3 (fun y => set_fs_log (set_lg_n 0 (fs_log y)) y)). }
  exists x5, h, h0. clearbody x4 h h0. split; [|cbv zeta; split; [|split; [|split; [exact Hh|split; [exact Lh|split; [|exact Lh0]]]]]].
  - unfold commit. eapply runs_bind; [apply runs_get_log|]. rewrite (lv_n _ _ _ LV).
    destruct bs as [|b0 bs0]; [done|]. replace (Z.of_nat (length (b0 :: bs0)) >? 0) with true
      by (symmetry; apply Z.gtb_lt; cbn [length]; lia).
    cbn [whenM]. apply R2. eapply runs_bind; [exact R3|]. eapply runs_bind; [exact Rp|exact R5].
  - rewrite (mv_writes _ _ _ M5), Ew4, (mv_writes _ _ _ M3), (mv_writes _ _ _ M2). by rewrite <- !app_assoc.
  - intros m. rewrite (mv_disk _ _ _ M5), (app_assoc _ [(st, h)]), !(app_assoc _ (final_writes _ _)), disk_after_app. apply disk_after_ext. intros k1.
    rewrite Ed4, (mv_disk _ _ _ M3), disk_after_app. apply disk_after_ext. apply M2.
  - split; [|by intros i b]. unfold head_n. rewrite H0. reflexivity.
Qed.

(** ** Crashes *)

Definition outside (st m : Z) : Prop := ~ (st <= m <= st + 30).

(** Writing the header of a transaction (or of none) to a disk. *)
Lemma on_disk_head st bs d h ws :
  head_of h bs -> length h = 1024%nat -> (length bs <= 30)%nat -> NoDup bs ->
  (forall b, b ∈ bs -> 0 <= b < 2 ^ 31 /\ ~ (st <= b <= st + 30)) -> st ∉ ws.*1 ->
  on_disk st bs (disk_after d ((st, h) :: ws)).
Proof.
  intros Hh Hl Hs Hn Ho Hws.
  assert (E : disk_after d ((st, h) :: ws) st = h).
  { change (disk_after d ((st, h) :: ws)) with (disk_after (store_block d (st, h)) ws).
    rewrite disk_after_out by done. unfold store_block. cbn. by rewrite Z.eqb_refl. }
  split; rewrite ?E; done.
Qed.

Lemma on_disk_none st d h : head_of h [] -> length h = 1024%nat -> on_disk st [] (disk_after d [(st, h)]).
Proof.
  intros Hh Hl. apply on_disk_head; [done|done|cbn; lia|apply NoDup_nil_2| |apply not_elem_of_nil].
  intros b Hb. by apply not_elem_of_nil in Hb.
Qed.

Lemma on_disk_keep st bs d ws : on_disk st bs d -> st ∉ ws.*1 -> on_disk st bs (disk_after d ws).
Proof. intros [] Hws. split; try done; by rewrite disk_after_out. Qed.

Lemma content_nil st d m : content st [] d m = d m.
Proof. reflexivity. Qed.

Lemma elem_take_fst (ws : list (Z * list Z)) k m : m ∈ (take k ws).*1 -> m ∈ ws.*1.
Proof. rewrite fmap_take. intros H. rewrite <- (take_drop k ws.*1), elem_of_app. by left. Qed.

Lemma final_writes_fst c bs : (final_writes c bs).*1 = bs.
Proof.
  apply list_eq. intros i. unfold final_writes. rewrite list_lookup_fmap, list_lookup_imap. by destruct (bs !! i).
Qed.

Section crash.
Context (st : Z) (bs : list Z) (d c : Z -> list Z) (h h0 : list Z).
Hypothesis (Hd : on_disk st [] d) (Hsz : (length bs <= 30)%nat) (Hnd : NoDup bs).
Hypothesis (Hout : forall b, b ∈ bs -> 0 <= b < 2 ^ 31 /\ ~ (st <= b <= st + 30)).
Hypothesis (Hh : head_of h bs) (Hl : length h = 1024%nat) (Hh0 : head_of h0 []) (Hl0 : length h0 = 1024%nat).
Hypothesis (Hc : forall m, m ∉ bs -> c m = d m).

Let L := log_writes st c bs.
Let F := final_writes c bs.

Lemma log_area_fst m k : m ∈ (take k L).*1 -> st < m <= st + 30.
Proof.
  intros Hin. apply elem_take_fst in Hin. apply list_elem_of_fmap in Hin as ([a e] & -> & Hin).
  apply list_elem_of_lookup in Hin as [j Hj]. unfold L, log_writes in Hj. rewrite list_lookup_imap in Hj.
  destruct (bs !! j) eqn:E; [|done]. injection Hj as <- _. apply lookup_lt_Some in E. cbn. lia.
Qed.

(** Before the header is written the transaction is not there. *)
Lemma crash_before k m : outside st m ->
  on_disk st [] (disk_after d (take k L)) /\ content st [] (disk_after d (take k L)) m = d m.
Proof.
  intros Hm. split.
  - apply on_disk_keep; [done|]. intros Hin%log_area_fst. lia.
  - rewrite content_nil. apply disk_after_out. intros Hin%log_area_fst. unfold outside in Hm. lia.
Qed.

(** After it, recovery completes it. *)
Lemma crash_during k m : outside st m ->
  let D := disk_after d (L ++ (st, h) :: take k F) in
  on_disk st bs D /\ content st bs D m = c m.
Proof.
  intros Hm D. assert (HF : forall j, j ∈ (take k F).*1 -> j ∈ bs).
  { intros j Hj. apply elem_take_fst in Hj. unfold F in Hj. by rewrite final_writes_fst in Hj. }
  assert (ED : forall j, D j = disk_after (disk_after d L) ((st, h) :: take k F) j) by (intros j; unfold D; by rewrite disk_after_app).
  split.
  - unfold D. rewrite disk_after_app. apply on_disk_head; try done. intros Hin%HF. destruct (Hout st Hin). lia.
  - unfold content. rewrite (home_final st c D bs).
    + rewrite final_writes_after. case_decide as Hin; [done|]. rewrite ED, disk_after_out, disk_after_out.
      * symmetry. by apply Hc.
      * intros Hj. rewrite <- (take_ge L (length L)) in Hj by done. apply log_area_fst in Hj. unfold outside in Hm. lia.
      * cbn. intros [->|Hj]%elem_of_cons; [unfold outside in Hm; lia|]. by apply Hin, HF.
    + intros i b Hb. rewrite ED, disk_after_out; [by apply log_writes_after|].
      apply lookup_lt_Some in Hb. cbn. intros [E|Hj]%elem_of_cons; [lia|].
      destruct (Hout _ (HF _ Hj)). lia.
Qed.

(** When the header has been cleared the home blocks are up to date. *)
Lemma crash_after m : outside st m ->
  let D := disk_after d (L ++ [(st, h)] ++ F ++ [(st, h0)]) in
  on_disk st [] D /\ content st [] D m = c m.
Proof.
  intros Hm D. split.
  - unfold D. rewrite !disk_after_app. by apply on_disk_none.
  - rewrite content_nil. unfold D. rewrite !disk_after_app. cbn. unfold store_block at 1. cbn.
    destruct (Z.eqb_spec m st); [unfold outside in Hm; lia|].
    unfold F. change (fold_left store_block ?ws ?e) with (disk_after e ws).
    rewrite final_writes_after. case_decide as Hin; [done|]. unfold store_block. cbn.
    destruct (Z.eqb_spec m st); [lia|]. rewrite disk_after_out; [symmetry; by apply Hc|].
    intros Hj. rewrite <- (take_ge L (length L)) in Hj by done. apply log_area_fst in Hj. unfold outside in Hm. lia.
Qed.

Lemma crash_commit k :
  let D := disk_after d (take k (L ++ [(st, h)] ++ F ++ [(st, h0)])) in
  exists bs', on_disk st bs' D /\
    forall m, outside st m -> content st bs' D m = if decide (k <= length bs)%nat then d m else c m.
Proof.
  intros D. assert (EL : length L = length bs) by (unfold L, log_writes; by rewrite length_imap).
  assert (EF : length F = length bs) by (unfold F, final_writes; by rewrite length_imap).
  assert (Hex : exists m, outside st m) by (exists (st - 1); unfold outside; lia). destruct Hex as [m0 Hm0].
  destruct (decide (k <= length bs)%nat) as [Hk|Hk].
  - exists []. unfold D. rewrite take_app_le by lia. split; [by apply (crash_before k m0)|].
    intros m Hm. by apply crash_before.
  - destruct (decide (k - length bs - 1 <= length bs)%nat) as [Hk2|Hk2].
    + exists bs. assert (E : take k (L ++ [(st, h)] ++ F ++ [(st, h0)]) = L ++ (st, h) :: take (k - length bs - 1) F).
      { rewrite take_app_ge by lia. f_equal. destruct (k - length L)%nat as [|j] eqn:Ej; [lia|]. cbn. f_equal.
        replace (k - length bs - 1)%nat with j by lia. apply take_app_le. lia. }
      unfold D. rewrite E. split; [by apply (crash_during _ m0)|]. intros m Hm. by apply crash_during.
    + exists []. assert (E : take k (L ++ [(st, h)] ++ F ++ [(st, h0)]) = L ++ [(st, h)] ++ F ++ [(st, h0)]).
      { apply take_ge. rewrite !length_app. cbn. lia. }
      unfold D. rewrite E. split; [by apply (crash_after m0)|]. intros m Hm. by apply crash_after.
Qed.

End crash.

(** A block of the transaction after its installation. *)
Lemma home_writes_after st c bs d i b :
  NoDup bs -> bs !! i = Some b -> disk_after d (home_writes st c bs) b = c (st + Z.of_nat i + 1).
Proof.
  intros Hnd Hb. pose proof (take_imap_snoc (fun i b => (b, c (st + Z.of_nat i + 1))) bs i b Hb) as E.
  fold (home_writes st c bs) in E. rewrite <- (take_drop (S i) (home_writes st c bs)), E, !disk_after_app.
  rewrite disk_after_out.
  - cbn. unfold store_block. cbn. by rewrite Z.eqb_refl.
  - rewrite fmap_drop, home_writes_fst. intros Hin. apply list_elem_of_lookup in Hin as [j Hj].
    rewrite lookup_drop in Hj. pose proof (NoDup_lookup _ _ _ _ Hnd Hb Hj). lia.
Qed.

(** A crash during recovery does not change what recovery will find. *)
Lemma crash_recover st bs d h k :
  on_disk st bs d -> head_of h [] -> length h = 1024%nat ->
  let D := disk_after d (take k (home_writes st d bs ++ [(st, h)])) in
  exists bs', on_disk st bs' D /\ forall m, outside st m -> content st bs' D m = content st bs d m.
Proof.
  intros OD Hh Hl D. pose proof OD as [_ _ Hsz Hnd Hout].
  assert (EH : length (home_writes st d bs) = length bs) by (unfold home_writes; by rewrite length_imap).
  destruct (decide (k <= length bs)%nat) as [Hk|Hk].
  - exists bs. unfold D. rewrite take_app_le by lia. set (T := take k _).
    assert (HT : forall j, j ∈ T.*1 -> j ∈ bs).
    { intros j Hj. apply elem_take_fst in Hj. by rewrite home_writes_fst in Hj. }
    split; [apply on_disk_keep; [done|]; intros Hin%HT; destruct (Hout st Hin); lia|].
    intros m Hm. unfold content. rewrite (home_writes_ext st (disk_after d T) d bs Hsz).
    2: { intros j Hj. apply disk_after_out. intros Hin%HT. destruct (Hout j Hin). lia. }
    destruct (decide (m ∈ bs)) as [Hin|Hin].
    + apply list_elem_of_lookup in Hin as [i Hi]. by rewrite !(home_writes_after st d bs _ i m Hnd Hi).
    + rewrite !(disk_after_out _ (home_writes _ _ _)) by (by rewrite home_writes_fst). apply disk_after_out. auto.
  - exists []. unfold D. rewrite take_ge by (rewrite length_app; cbn; lia). rewrite disk_after_app. split.
    + by apply on_disk_none.
    + intros m Hm. rewrite content_nil. cbn. unfold store_block at 1. cbn.
      destruct (Z.eqb_spec m st); [unfold outside in Hm; lia|done].
Qed.

Lemma recovered_disk x h st bs D m :
  (forall m, fs_disk x m = disk_after D (home_writes st D bs ++ [(st, h)]) m) -> outside st m ->
  fs_disk x m = content st bs D m.
Proof.
  intros E Hm. rewrite E, disk_after_app. cbn. unfold store_block at 1. cbn.
  destruct (Z.eqb_spec m st); [unfold outside in Hm; lia|done].
Qed.

(** C1: transactions are atomic under crashes.  commit() of a transaction [bs] terminates
    and leaves the current contents of the blocks on the disk.  If instead the machine crashes
    after any number [k] of its disk writes, initlog() at the next boot terminates and leaves
    the disk, outside the log, as it was before the transaction (when the header was not
    yet written) or as the transaction left it; and if the machine crashes again after any
    number of the writes of that recovery, the recovery of the next boot gives the same. *)
Theorem log_crash_atomic x st bs :
  committing x st bs ->
  exists x' ws, runs ∅ commit x tt ∅ x' /\ fs_dwrites x' = fs_dwrites x ++ ws /\
    (forall m, outside st m -> fs_disk x' m = cur x m) /\
    forall k y, booted y st (disk_after (fs_disk x) (take k ws)) ->
      exists y' ws', runs ∅ (initlog ROOTDEV) y tt ∅ y' /\ fs_dwrites y' = fs_dwrites y ++ ws' /\
        (forall m, outside st m -> fs_disk y' m = if decide (k <= length bs)%nat then fs_disk x m else cur x m) /\
        forall k' z, booted z st (disk_after (fs_disk y) (take k' ws')) ->
          exists z', runs ∅ (initlog ROOTDEV) z tt ∅ z' /\ forall m, outside st m -> fs_disk z' m = fs_disk y' m.
Proof.
  intros HC. assert (HL : locks_free ∅) by (split; [|intros i]; apply not_elem_of_empty).
  destruct (commit_run ∅ x st bs HC HL) as (x' & h & h0 & R & Hw & Hdk & Hh & Hl & Hh0 & Hl0).
  destruct HC as [_ _ LV _ _ _ _ OD Hcl]. destruct LV as [_ _ _ _ Hst Hsz Hnd Hout].
  set (ws := log_writes st (cur x) bs ++ _) in *.
  exists x', ws. split; [exact R|]. split; [exact Hw|]. split.
  { intros m Hm. rewrite Hdk. apply (crash_after st bs (fs_disk x) (cur x) h h0); try done. }
  intros k y Hy.
  destruct (crash_commit st bs (fs_disk x) (cur x) h h0 OD Hsz Hnd Hout Hh Hl Hh0 Hl0 Hcl k) as (bs1 & OD1 & Hc1).
  fold ws in OD1, Hc1. set (D := disk_after (fs_disk x) (take k ws)) in *.
  destruct (initlog_run ∅ y st bs1 D Hy HL (not_elem_of_empty _) Hst OD1) as (y' & h1 & R1 & Hw1 & Hd1 & Hh1 & Hl1).
  assert (Ec : forall m, outside st m -> fs_disk y' m = content st bs1 D m) by (intros m Hm; by apply (recovered_disk y' h1)).
  exists y', (home_writes st D bs1 ++ [(st, h1)]). split; [exact R1|]. split; [exact Hw1|]. split.
  { intros m Hm. rewrite Ec by done. by apply Hc1. }
  intros k' z Hz. destruct (crash_recover st bs1 D h1 k' OD1 Hh1 Hl1) as (bs2 & OD2 & Hc2).
  set (D2 := disk_after D (take k' _)) in OD2, Hc2.
  assert (Hz2 : booted z st D2).
  { destruct Hz as [Z1 Z2 Z3 Z4 Z5 Z6 Z7]. split; try assumption. intros m. rewrite Z7. apply disk_after_ext, Hy. }
  destruct (initlog_run ∅ z st bs2 D2 Hz2 HL (not_elem_of_empty _) Hst OD2) as (z' & h2 & R2 & _ & Hd2 & _).
  exists z'. split; [exact R2|]. intros m Hm. rewrite (recovered_disk z' h2 st bs2 D2 m Hd2 Hm), Ec by done. by apply Hc2.
Qed.

End steps.

(** ** A transaction of one block: block 100, now full of sevens, on a disk of zeros. *)

Definition demo_buf : buf := MkBuf 1 0 ROOTDEV 100 sleeplock0 1 (replicate 1024 7).

Definition demo_fs : fsstate :=
  MkFs (demo_buf :: replicate 29 buf0) (seq 0 NBUF) (fun _ => replicate 1024 0) []
    (MkLog 2 0 1 ROOTDEV 1 (100 :: replicate 29 0)) super0 [] [] (MkCons [] 0 0 0) [] 0 0.

Definition demo_caller : Caller := {| me := 0; my_pid := 1 |}.

Lemma demo_fbuf i : fbuf i demo_fs = match i with O => demo_buf | _ => buf0 end.
Proof.
  unfold fbuf, demo_fs. fsimpl. destruct i as [|i]; [done|].
  change ((demo_buf :: replicate 29 buf0) !! S i) with (replicate 29 buf0 !! i).
  destruct (replicate 29 buf0 !! i) eqn:E; [|done]. by apply lookup_replicate in E as [-> _].
Qed.

Lemma demo_slot n : slot demo_fs n = if n =? 100 then Some 0%nat else None.
Proof.
  unfold slot. destruct (Z.eqb_spec n 100) as [->|Hn]; [reflexivity|].
  destruct (List.find _ _) as [i|] eqn:E; [|done]. apply List.find_some in E as [_ E].
  rewrite demo_fbuf in E. apply andb_true_iff in E as [E1 E2]. apply Z.eqb_eq in E2.
  destruct i; [|done]. cbn in E2. congruence.
Qed.

Lemma demo_committing : committing demo_fs 2 [100].
Proof.
  assert (Hr : forall n, refs demo_fs n = if n =? 100 then 1 else 0).
  { intros n. unfold refs. rewrite demo_slot. by destruct (n =? 100). }
  assert (Hl : forall n, block_lock demo_fs n = sleeplock0).
  { intros n. unfold block_lock. rewrite demo_slot. by destruct (n =? 100). }
  assert (Hc : forall n, n <> 100 -> cur demo_fs n = fs_disk demo_fs n).
  { intros n Hn. unfold cur. rewrite demo_slot. by destruct (Z.eqb_spec n 100). }
  assert (Hd : on_disk 2 [] (fs_disk demo_fs)).
  { split; [split; [reflexivity|by intros i b]|reflexivity|cbn; lia|apply NoDup_nil_2|].
    intros b Hb. by apply not_elem_of_nil in Hb. }
  split.
  - split.
    + reflexivity.
    + reflexivity.
    + intros i j Hi Hj. rewrite !demo_fbuf. destruct i, j; try done.
    + intros n. rewrite Hr. destruct (Z.eqb_spec n 100); [done|]. intros _. by apply Hc.
    + intros n _. apply Hl.
    + intros i Hi. rewrite demo_fbuf. by destruct i.
    + intros i Hi. rewrite demo_fbuf. by destruct i.
  - exact Hl.
  - split; try done.
    + intros i b Hb. destruct i as [|i]; [by injection Hb as <-|done].
    + cbn. lia.
    + apply NoDup_singleton.
    + intros b Hb. apply list_elem_of_singleton in Hb as ->. lia.
  - done.
  - intros j Hj. rewrite Hr. destruct (Z.eqb_spec j 100); [lia|done].
  - intros b Hb. apply list_elem_of_singleton in Hb as ->. rewrite Hr. cbn. lia.
  - apply Nat.ltb_lt. vm_compute. reflexivity.
  - exact Hd.
  - intros m Hm. apply Hc. intros ->. apply Hm. by left.
Qed.

Lemma log_crash_atomic_witness : exists x',
  runs (caller := demo_caller) ∅ (commit (env := eager)) demo_fs tt ∅ x' /\ fs_disk x' 100 = replicate 1024 7.
Proof.
  destruct (log_crash_atomic (env := eager) (caller := demo_caller) demo_fs 2 [100] demo_committing)
    as (x' & ws & R & _ & Hd & _).
  exists x'. split; [exact R|]. rewrite Hd by (unfold outside; lia). unfold cur. rewrite demo_slot. reflexivity.
Defined.

End LogProofs.
