(* ===== verification/Ulib.v ===== *)
(** * user/ulib.c

    The string functions are on lists: a C string is the list of its characters before the nul;
    characters are unsigned.  The functions that store are on a byte store, as those of the
    kernel. *)

From S2P Require Import Prelude Machine CString.

Module Ulib.

Fixpoint strcmp (p q : list Z) : Z :=
  match p with
  | [] => 0 - hd 0 q
  | a :: p' => if a =? hd 0 q then strcmp p' (tl q) else a - hd 0 q
  end.

Definition strlen (s : list Z) : Z := Z.of_nat (length s).

(** strchr(s, c) as the characters before the match and those from it on. *)
Fixpoint strchr (s : list Z) (c : Z) : option (list Z * list Z) :=
  match s with
  | [] => None
  | a :: s' =>
      if a =? 0 then None
      else if a =? c then Some ([], s)
      else match strchr s' c with Some (pre, post) => Some (a :: pre, post) | None => None end
  end.

(** n is an int, and wraps. *)
Fixpoint atoi_loop (n : Z) (s : list Z) : Z :=
  match s with
  | [] => n
  | c :: s' => if (48 <=? c) && (c <=? 57) then atoi_loop (s32 (n * 10 + c - 48)) s' else n
  end.

Definition atoi (s : list Z) : Z := atoi_loop 0 s.

(** gets() on the results of read(0, &c, 1): a character, or the end. *)
Fixpoint gets_loop (max : nat) (input : list Z) : list Z :=
  match max, input with
  | S (S max'), c :: input' =>
      c :: (if (c =? 10) || (c =? 13) then [] else gets_loop (S max') input')
  | _, _ => []
  end.

Definition gets (max : Z) (input : list Z) : list Z := gets_loop (Z.to_nat max) input.

(** ** Functions on memory *)

(** The loop copies up to and with the nul; [None] when no nul is met within [fuel] bytes. *)
Fixpoint strcpy (fuel : nat) (m : memory) (s t : Z) : option memory :=
  match fuel with
  | O => None
  | S fuel =>
      let c := load8 m t in
      let m := store8 m s c in
      if negb (u8 c =? 0) then strcpy fuel m (s + 1) (t + 1) else Some m
  end.

Fixpoint memset_loop (m : memory) (cdst i c : Z) (k : nat) : memory :=
  match k with
  | O => m
  | S k' => memset_loop (store8 m (cdst + i) c) cdst (i + 1) c k'
  end.

Definition memset (m : memory) (dst c n : Z) : memory := memset_loop m dst 0 c (Z.to_nat (u32 n)).

(** n is an int; the loops do nothing when it is negative. *)
Definition memmove (m : memory) (dst src n : Z) : memory :=
  let n := s32 n in
  if src >? dst then CString.copy_up m dst src (Z.to_nat n)
  else CString.copy_down m (dst + n) (src + n) (Z.to_nat n).

Fixpoint memcmp_loop (m : memory) (p1 p2 : Z) (k : nat) : Z :=
  match k with
  | O => 0
  | S k' =>
      if negb (load8 m p1 =? load8 m p2) then load8 m p1 - load8 m p2
      else memcmp_loop m (p1 + 1) (p2 + 1) k'
  end.

Definition memcmp (m : memory) (s1 s2 n : Z) : Z := memcmp_loop m s1 s2 (Z.to_nat (u32 n)).

(** memmove() takes the size as an int. *)
Definition memcpy (m : memory) (dst src n : Z) : memory := memmove m dst src (u32 n).

(** ** Lemmas *)

Lemma s32_id n : 0 <= n < 2 ^ 31 -> s32 n = n.
Proof. intros H. unfold s32. dlia. Qed.

(** memmove() copies as the kernel's does, in whichever direction, also where the ranges
    overlap. *)
Lemma memmove_same m dst src n a :
  mem_ok m -> 0 <= n < 2 ^ 31 -> memmove m dst src n a = CString.memmove m dst src n a.
Proof.
  intros Hm Hn. rewrite CString.memmove_run by (done || lia). unfold memmove. rewrite s32_id by lia. rewrite Z.gtb_ltb.
  destruct (Z.ltb_spec dst src); rewrite ?CString.copy_down_spec, ?CString.copy_up_spec, ?Z2Nat.id by (done || lia);
    zcases; try done; f_equal; lia.
Qed.

(** memcpy() of two gigabytes or more copies nothing. *)
Lemma memcpy_large m dst src n : 2 ^ 31 <= n < 2 ^ 32 -> memcpy m dst src n = m.
Proof.
  intros Hn. unfold memcpy, memmove. assert (s32 (u32 n) < 0) by (unfold s32, u32; dlia).
  replace (Z.to_nat (s32 (u32 n))) with 0%nat by lia. by destruct (src >? dst).
Qed.

Lemma strchr_spec s c pre post :
  strchr s c = Some (pre, post) -> s = pre ++ post /\ hd_error post = Some c /\ c ∉ pre.
Proof.
  revert pre post; induction s as [|a s IH]; intros pre post H; cbn in H; [done|].
  destruct (a =? 0); [done|]. destruct (Z.eqb_spec a c) as [->|Hac].
  - injection H as <- <-. repeat split. by apply not_elem_of_nil.
  - destruct (strchr s c) as [[pre' post']|] eqn:E; [|done]. injection H as <- <-.
    destruct (IH _ _ eq_refl) as (-> & ? & ?). repeat split; [done|]. by apply not_elem_of_cons.
Qed.

Lemma strchr_app pre c post : c <> 0 -> c ∉ pre -> 0 ∉ pre -> strchr (pre ++ c :: post) c = Some (pre, c :: post).
Proof.
  intros Hc. induction pre as [|a pre IH]; intros H1 H2; cbn.
  - rewrite (proj2 (Z.eqb_neq c 0)), Z.eqb_refl by done. done.
  - apply not_elem_of_cons in H1 as [H1 H1'], H2 as [H2 H2'].
    rewrite !(proj2 (Z.eqb_neq _ _)) by done. by rewrite IH.
Qed.

Lemma strchr_none s c : c ∉ s -> strchr s c = None.
Proof.
  induction s as [|a s IH]; intros H; cbn; [done|]. apply not_elem_of_cons in H as [H1 H2].
  destruct (a =? 0); [done|]. rewrite (proj2 (Z.eqb_neq _ _)) by done. by rewrite IH.
Qed.

End Ulib.
