(* ===== verification/Grep.v ===== *)
(** * user/grep.c: the matcher and the line loop

    [match_], [matchhere] and [matchstar] are the functions of the same names.  The reference
    semantics reads a pattern as a list of items and gives the set of texts each matches. *)

From S2P Require Import Prelude Machine Ulib.

Module Grep.
Import Ulib.

Definition caret : Z := 94.
Definition dollar : Z := 36.
Definition star : Z := 42.
Definition dot : Z := 46.
Definition newline : Z := 10.

(** matchstar() with [matchhere(re, .)] given as [here]. *)
Fixpoint matchstar (here : list Z -> bool) (c : Z) (text : list Z) : bool :=
  if here text then true else
  match text with
  | [] => false
  | t :: text' => if (t =? c) || (c =? dot) then matchstar here c text' else false
  end.

Fixpoint matchhere (re text : list Z) : bool :=
  match re with
  | [] => true
  | c :: re1 =>
      match re1 with
      | c1 :: re2 =>
          if c1 =? star then matchstar (matchhere re2) c text
          else match text with
               | [] => false
               | t :: text' => if (c =? dot) || (c =? t) then matchhere re1 text' else false
               end
      | [] =>
          if c =? dollar then bool_decide (text = [])
          else match text with
               | [] => false
               | t :: text' => if (c =? dot) || (c =? t) then matchhere re1 text' else false
               end
      end
  end.

(** The do-while loop of match(). *)
Fixpoint match_anywhere (re text : list Z) : bool :=
  if matchhere re text then true else
  match text with
  | [] => false
  | _ :: text' => match_anywhere re text'
  end.

Definition match_ (re text : list Z) : bool :=
  match re with
  | c :: re1 => if c =? caret then matchhere re1 text else match_anywhere re text
  | [] => match_anywhere re text
  end.

(** The inner loop of grep(): the lines of buf, from p; the result is what is written and the
    rest, from the last p.  [fuel] is at least the number of characters. *)
Fixpoint grep_lines (fuel : nat) (pattern p : list Z) : list Z * list Z :=
  match fuel with
  | O => ([], p)
  | S fuel =>
      match strchr p newline with
      | None => ([], p)
      | Some (line, q) =>
          let '(out, rest) := grep_lines fuel pattern (tl q) in
          ((if match_ pattern line then line ++ [newline] else []) ++ out, rest)
      end
  end.

Definition BUF : nat := 1024.

(** The outer loop on the input [inp]: [sizes] is how many bytes each read() returns at most.
    [pend] is buf[0..m]; a read of 0 bytes ends the loop. *)
Fixpoint grep_loop (sizes : list nat) (pattern pend inp : list Z) : list Z :=
  match sizes with
  | [] => []
  | k :: sizes =>
      let want := (BUF - length pend - 1)%nat in
      let got := take (Nat.min (S k) want) inp in
      if bool_decide (got = []) then [] else
      let '(out, rest) := grep_lines (length (pend ++ got)) pattern (pend ++ got) in
      out ++ grep_loop sizes pattern rest (drop (length got) inp)
  end.

Definition grep (sizes : list nat) (pattern inp : list Z) : list Z := grep_loop sizes pattern [] inp.

(** ** Reference semantics of patterns *)

Inductive item : Type :=
| One (c : Z)       (* the character, or any if it is a dot *)
| Many (c : Z)      (* zero or more of them *)
| End.              (* the end of the text *)

Fixpoint parse (re : list Z) : list item :=
  match re with
  | [] => []
  | c :: re1 =>
      match re1 with
      | c1 :: re2 => if c1 =? star then Many c :: parse re2 else One c :: parse re1
      | [] => [if c =? dollar then End else One c]
      end
  end.

Definition is_char (c t : Z) : Prop := c = dot \/ c = t.

(** Some prefix of [t] is described by the items. *)
Inductive matches : list item -> list Z -> Prop :=
| matches_nil t : matches [] t
| matches_end l : matches l [] -> matches (End :: l) []
| matches_one c l x t : is_char c x -> matches l t -> matches (One c :: l) (x :: t)
| matches_many c l pre t : Forall (is_char c) pre -> matches l t -> matches (Many c :: l) (pre ++ t).

Definition matches_line (re text : list Z) : Prop :=
  match re with
  | c :: re1 =>
      if c =? caret then matches (parse re1) text
      else exists pre post, text = pre ++ post /\ matches (parse re) post
  | [] => True
  end.

Lemma is_char_dec c t : (t =? c) || (c =? dot) = true <-> is_char c t.
Proof. unfold is_char. rewrite orb_true_iff, !Z.eqb_eq. intuition congruence. Qed.

Lemma matchstar_spec here c text :
  matchstar here c text = true <->
  exists pre post, text = pre ++ post /\ Forall (is_char c) pre /\ here post = true.
Proof.
  induction text as [|t text IH]; cbn.
  - destruct (here []) eqn:E; split; try done; [by exists [], []|].
    intros ([|] & [|] & ? & _ & H); simplify_eq/=; congruence.
  - destruct (here (t :: text)) eqn:E; [split; [by exists [], (t :: text)|done]|].
    transitivity (is_char c t /\ matchstar here c text = true).
    { rewrite <- is_char_dec. destruct ((t =? c) || (c =? dot)); intuition congruence. }
    rewrite IH. split.
    + intros (Ht & pre & post & -> & Hpre & H). exists (t :: pre), post. split_and!; [done|by constructor|done].
    + intros (pre & post & Heq & Hpre & H). destruct pre as [|a pre]; cbn in Heq; [congruence|].
      injection Heq as -> ->. apply Forall_cons in Hpre as [Ha Hpre]. split; [done|]. by exists pre, post.
Qed.

Lemma one_spec c l text (b : list Z -> bool) :
  (forall t, b t = true <-> matches l t) ->
  match text with [] => false | t :: text' => if (c =? dot) || (c =? t) then b text' else false end = true
  <-> matches (One c :: l) text.
Proof.
  intros Hb. destruct text as [|t text]; [split; [done|inversion 1]|].
  pose proof (is_char_dec c t) as Hc. rewrite (Z.eqb_sym t c), orb_comm in Hc. split.
  - destruct ((c =? dot) || (c =? t)) eqn:E; [|done]. intros H. constructor; [by apply Hc|by apply Hb].
  - inversion 1; subst. rewrite (proj2 Hc) by done. by apply Hb.
Qed.

Lemma matchhere_spec re text : matchhere re text = true <-> matches (parse re) text.
Proof.
  remember (length re) as n eqn:Hn. revert re text Hn.
  induction n as [n IH] using (well_founded_induction lt_wf). intros re text ->.
  destruct re as [|c [|c1 re2]]; cbn [matchhere parse].
  - split; [constructor|done].
  - destruct (c =? dollar).
    + rewrite bool_decide_eq_true. split; [intros ->; repeat constructor|by inversion 1].
    + apply (one_spec c [] text (matchhere [])). split; [constructor|done].
  - destruct (c1 =? star).
    + rewrite matchstar_spec. split.
      * intros (pre & post & -> & Hpre & H). constructor; [done|]. by eapply (IH (length re2)); cbn; eauto.
      * inversion 1; subst. exists pre, t. split_and!; [done..|]. by eapply (IH (length re2)); cbn; eauto.
    + apply (one_spec c (parse (c1 :: re2)) text (matchhere (c1 :: re2))).
      intros t. by eapply (IH (length (c1 :: re2))); cbn; eauto.
Qed.

Lemma match_anywhere_spec re text :
  match_anywhere re text = true <-> exists pre post, text = pre ++ post /\ matches (parse re) post.
Proof.
  induction text as [|t text IH]; cbn [match_anywhere]; destruct (matchhere re _) eqn:E.
  1,3: split; [exists []; eexists; split; [done|by apply matchhere_spec]|done].
  - split; [done|]. intros (pre & post & Heq & H). destruct pre, post; simplify_eq/=.
    apply matchhere_spec in H. congruence.
  - rewrite IH. split; [intros (pre & post & -> & H); exists (t :: pre); eauto|].
    intros (pre & post & Heq & H). destruct pre as [|a pre]; simplify_eq/=; [|eauto].
    apply matchhere_spec in H. congruence.
Qed.

(** C21: The backtracking matcher decides the pattern language: match() returns 1 exactly on the
    texts the pattern describes, where [c*] stands for any number of [c], [.] for any
    character, a leading [^] anchors the match at the start and a final [$] at the end of the
    text; it terminates on every pattern and text. *)
Theorem match_decides re text : match_ re text = true <-> matches_line re text.
Proof.
  destruct re as [|c re]; unfold match_, matches_line.
  - split; [done|]. intros _. by destruct text.
  - destruct (c =? caret); [apply matchhere_spec|apply match_anywhere_spec].
Qed.

(** ** The line loop *)

(** The lines of a text, each without its newline, and what follows the last one. *)
Fixpoint lines (s : list Z) : list (list Z) * list Z :=
  match s with
  | [] => ([], [])
  | c :: s' =>
      let '(ls, rest) := lines s' in
      if c =? newline then ([] :: ls, rest)
      else match ls with [] => ([], c :: rest) | l :: ls => ((c :: l) :: ls, rest) end
  end.

Definition matching (pattern : list Z) (ls : list (list Z)) : list Z :=
  concat ((fun l => l ++ [newline]) <$> filter (fun l => match_ pattern l = true) ls).

Lemma lines_cut line s : newline ∉ line -> lines (line ++ newline :: s) = (line :: (lines s).1, (lines s).2).
Proof.
  induction line as [|c line IH]; intros H; cbn.
  - by destruct (lines s).
  - apply not_elem_of_cons in H as [Hc H]. rewrite IH by done.
    by rewrite (proj2 (Z.eqb_neq c newline)) by done.
Qed.

Lemma lines_none s : newline ∉ s -> lines s = ([], s).
Proof.
  induction s as [|c s IH]; intros H; cbn; [done|]. apply not_elem_of_cons in H as [Hc H].
  rewrite IH by done. by rewrite (proj2 (Z.eqb_neq c newline)) by done.
Qed.

Lemma matching_cons pattern l ls :
  matching pattern (l :: ls) = (if match_ pattern l then l ++ [newline] else []) ++ matching pattern ls.
Proof. unfold matching. rewrite filter_cons. destruct (match_ pattern l); by case_decide. Qed.

Lemma grep_lines_spec fuel pattern p :
  0 ∉ p -> (length p <= fuel)%nat -> grep_lines fuel pattern p = (matching pattern (lines p).1, (lines p).2).
Proof.
  revert p; induction fuel as [|fuel IH]; intros p Hz Hf; cbn [grep_lines].
  { by destruct p; [|cbn in Hf; lia]. }
  destruct (decide (newline ∈ p)) as [Hin|Hin].
  - apply list_elem_of_split_l in Hin as (line & rest & -> & Hl).
    apply not_elem_of_app in Hz as [Hz1 Hz2]. apply not_elem_of_cons in Hz2 as [_ Hz2].
    rewrite strchr_app by done. cbn [tl]. rewrite length_app in Hf. cbn in Hf.
    rewrite IH by (done || lia). rewrite lines_cut by done. cbn [fst snd]. by rewrite matching_cons.
  - by rewrite strchr_none, lines_none by done.
Qed.

Lemma lines_app s t :
  (lines (s ++ t)).1 = (lines s).1 ++ (lines ((lines s).2 ++ t)).1 /\
  (lines (s ++ t)).2 = (lines ((lines s).2 ++ t)).2.
Proof.
  remember (length s) as n eqn:Hn. revert s Hn.
  induction n as [n IH] using (well_founded_induction lt_wf). intros s ->.
  destruct (decide (newline ∈ s)) as [Hin|Hin].
  - apply list_elem_of_split_l in Hin as (line & rest & -> & Hl).
    rewrite <- app_assoc. cbn [app]. rewrite !lines_cut by done. cbn [fst snd].
    destruct (IH (length rest) ltac:(rewrite length_app; cbn; lia) rest eq_refl) as [-> ->]. done.
  - by rewrite (lines_none s).
Qed.

Lemma lines_rest_nonl s : newline ∉ (lines s).2.
Proof.
  induction s as [|c s IH]; cbn; [apply not_elem_of_nil|].
  destruct (lines s) as [[|l ls] rest]; cbn in *; destruct (Z.eqb_spec c newline); cbn; try done.
  by apply not_elem_of_cons.
Qed.

Lemma lines_rest_sub s x : x ∈ (lines s).2 -> x ∈ s.
Proof.
  induction s as [|c s IH]; cbn; [done|].
  destruct (lines s) as [[|l ls] rest]; cbn in *; destruct (Z.eqb_spec c newline); cbn; set_solver.
Qed.

Lemma matching_app pattern l1 l2 : matching pattern (l1 ++ l2) = matching pattern l1 ++ matching pattern l2.
Proof. unfold matching. by rewrite filter_app, fmap_app, concat_app. Qed.

(** Every line, and the rest after the last newline, fits the buffer. *)
Definition short_lines (s : list Z) : Prop :=
  Forall (fun l => (length l <= 1022)%nat) (lines s).1 /\ (length (lines s).2 <= 1022)%nat.

Lemma short_pending pend t : newline ∉ pend -> short_lines (pend ++ t) -> (length pend <= 1022)%nat.
Proof.
  intros Hp [H1 H2]. destruct (decide (newline ∈ t)) as [Hin|Hin].
  - apply list_elem_of_split_l in Hin as (l & r & -> & Hl). rewrite app_assoc, lines_cut in H1 by set_solver.
    apply Forall_cons in H1 as [H1 _]. rewrite length_app in H1. lia.
  - rewrite lines_none in H2 by set_solver. cbn in H2. rewrite length_app in H2. lia.
Qed.

Lemma grep_loop_spec sizes pattern pend inp :
  newline ∉ pend -> 0 ∉ pend ++ inp -> short_lines (pend ++ inp) -> (length inp < length sizes)%nat ->
  grep_loop sizes pattern pend inp = matching pattern (lines (pend ++ inp)).1.
Proof.
  revert pend inp; induction sizes as [|k sizes IH]; intros pend inp Hp Hz Hs Hl; [cbn in Hl; lia|].
  cbn [grep_loop]. pose proof (short_pending _ _ Hp Hs) as Hlen. cbn in Hl.
  destruct inp as [|c inp].
  { rewrite take_nil, bool_decide_true by done. by rewrite app_nil_r, lines_none. }
  set (n := Nat.min (S k) (BUF - length pend - 1)).
  assert (Hn : (1 <= n)%nat) by (unfold n, BUF; lia).
  set (got := take n (c :: inp)). set (inp' := drop (length got) (c :: inp)).
  assert (Hgot : c :: inp = got ++ inp').
  { unfold inp', got. rewrite length_take. destruct (decide (n <= length (c :: inp))%nat).
    - rewrite Nat.min_l by done. by rewrite take_drop.
    - rewrite Nat.min_r by lia. rewrite take_ge by lia. by rewrite drop_all, app_nil_r. }
  assert (Hne : (1 <= length got)%nat) by (unfold got; rewrite length_take, length_cons; clear -Hn; lia).
  rewrite bool_decide_false by (intros E; rewrite E in Hne; cbn in Hne; lia).
  assert (Hlen' : S (length inp) = (length got + length inp')%nat).
  { rewrite <- length_app, <- Hgot. done. }
  clearbody got inp'. rewrite Hgot in Hz, Hs |- *. rewrite app_assoc in Hz, Hs |- *. assert (Hz1 : 0 ∉ pend ++ got) by set_solver.
  rewrite grep_lines_spec by done. destruct (lines_app (pend ++ got) inp') as [E1 E2].
  rewrite IH.
  - by rewrite E1, matching_app.
  - apply lines_rest_nonl.
  - assert (Hsub : forall x, x ∈ (lines (pend ++ got)).2 -> x ∈ pend ++ got) by (intros; by apply lines_rest_sub).
    set_solver.
  - unfold short_lines in *. rewrite E1, E2 in Hs. destruct Hs as [Hs ?]. by apply Forall_app in Hs as [_ ?].
  - cbn in Hl. lia.
Qed.

(** grep() writes exactly the lines of its input that match, in order and with their
    newline, however read() splits the input, provided no line exceeds the buffer and the
    input holds no nul: the bytes carried over between two reads are never lost or matched
    twice. *)
Theorem grep_prints_matching sizes pattern inp :
  0 ∉ inp -> short_lines inp -> (length inp < length sizes)%nat ->
  grep sizes pattern inp = matching pattern (lines inp).1.
Proof. intros. apply (grep_loop_spec sizes pattern [] inp); [apply not_elem_of_nil|done..]. Qed.

(** Pattern ^a.*c$ on three lines, read two bytes at a time. *)
End Grep.
