(* ===== verification/FsPath.v ===== *)
(** * Paths and names: what the functions of kernel/fs.c on names compute *)

From S2P Require Import Prelude Machine FsData Bytes State Sched Bio Log Fs.

Module FsPath.
Import Sched Fs.

(** ** The elements of a path *)

(** The reference: cut the path at the slashes. *)
Fixpoint split (path : list Z) : list (list Z) :=
  match path with
  | [] => [[]]
  | c :: rest =>
      if c =? slash then [] :: split rest
      else match split rest with e :: es => (c :: e) :: es | [] => [[c]] end
  end.

(** The non-empty pieces, cut to the length of a directory entry's name. *)
Definition elements (path : list Z) : list (list Z) := take 14 <$> filter (fun e => e <> []) (split path).

(** What a caller gets from skipelem() called until it returns null. *)
Fixpoint skipelems (fuel : nat) (path : list Z) : list (list Z) :=
  match fuel with
  | O => []
  | S fuel =>
      match skipelem path with
      | None => []
      | Some (name, rest) => name :: skipelems fuel rest
      end
  end.

Lemma elements_skip path : elements (skip_slashes path) = elements path.
Proof.
  induction path as [|c path IH]; [done|]. cbn [skip_slashes]. destruct (c =? slash) eqn:E; [|done].
  rewrite IH. unfold elements. cbn [split]. rewrite E, filter_cons. by rewrite decide_False by tauto.
Qed.

Lemma path_elem_spec path e r :
  path_elem path = (e, r) ->
  path = e ++ r /\ (r = [] \/ hd 0 r = slash) /\
  (exists es, split path = e :: es /\ filter (fun x => x <> []) es = filter (fun x => x <> []) (split r)).
Proof.
  revert e r. induction path as [|c path IH]; intros e r H; cbn in H.
  - injection H as <- <-. split_and!; [done|by left|]. exists []. done.
  - destruct (c =? slash) eqn:E.
    + injection H as <- <-. split_and!; [done|right; cbn; by apply Z.eqb_eq|].
      cbn [split]. rewrite E. eexists; split; [done|]. rewrite filter_cons. by rewrite decide_False by tauto.
    + destruct (path_elem path) as [e' r'] eqn:Ep. injection H as <- <-.
      destruct (IH _ _ eq_refl) as (-> & Hr & es & Hs & Hf). split_and!; [done|done|].
      exists es. cbn [split]. by rewrite E, Hs.
Qed.

Lemma skip_slashes_length path : (length (skip_slashes path) <= length path)%nat.
Proof. induction path as [|c path IH]; cbn; [done|]. destruct (c =? slash); cbn; lia. Qed.

Lemma skip_slashes_hd path c rest : skip_slashes path = c :: rest -> (c =? slash) = false.
Proof.
  induction path as [|d path IH]; cbn; [done|]. destruct (d =? slash) eqn:E; [done|]. by intros [= <- <-].
Qed.

Lemma skipelem_spec path :
  match skipelem path with
  | None => elements path = []
  | Some (name, rest) => elements path = name :: elements rest /\ (length rest < length path)%nat
  end.
Proof.
  unfold skipelem. pose proof (elements_skip path) as He. pose proof (skip_slashes_length path) as Hl.
  destruct (skip_slashes path) as [|c p] eqn:E; [by rewrite <- He|]. pose proof (skip_slashes_hd _ _ _ E) as Hc.
  destruct (path_elem (c :: p)) as [e r] eqn:Ep. destruct (path_elem_spec _ _ _ Ep) as (Hpr & _ & es & Hs & Hf).
  assert (e <> []) as Hne.
  { intros ->. cbn in Ep. rewrite Hc in Ep. by destruct (path_elem p). }
  rewrite <- He. split.
  - rewrite elements_skip. unfold elements. rewrite Hs, filter_cons, decide_True by done. cbn. by rewrite Hf.
  - rewrite Hpr, length_app in Hl. pose proof (skip_slashes_length r). destruct e; [done|]. cbn in Hl. lia.
Qed.

(** The elements skipelem() takes off a path one after the other are the non-empty pieces
    between its slashes, each cut to DIRSIZ characters, whatever the number of leading,
    repeated and trailing slashes; it returns null exactly when none is left. *)
Theorem skipelem_splits path : skipelems (S (length path)) path = elements path.
Proof.
  assert (forall n, (length path < n)%nat -> skipelems n path = elements path) as H; [|apply H; lia].
  remember (length path) as k eqn:Hk. revert path Hk.
  induction k as [k IH] using (well_founded_induction lt_wf). intros path -> [|n] Hn; [lia|].
  cbn [skipelems]. pose proof (skipelem_spec path) as Hs. destruct (skipelem path) as [[name rest]|]; [|done].
  destruct Hs as [-> Hl]. f_equal. apply (IH (length rest)); [lia|done|lia].
Qed.

(** ** The loops of fs.c end *)

Section loops.
Context {img : Image} {env : Env}.

Lemma bind_ext {S A B} (m : M S A) (f g : A -> M S B) s :
  (forall a s', f a s' = g a s') -> bindM m f s = bindM m g s.
Proof. unfold bindM. intros H. destruct (m s); auto. Qed.

(** The rounds a transfer from [off] still needs: one for each block it touches. *)
Definition need (n tot off : Z) : Z := if tot <? n then (n - tot + off mod BSIZE + BSIZE - 1) / BSIZE else 0.

Lemma need_pos n tot off : (tot <? n) = true -> 1 <= need n tot off.
Proof.
  intros H. unfold need. rewrite H. apply Z.ltb_lt in H. unfold BSIZE.
  pose proof (Z.mod_pos_bound off 1024). apply Z.div_le_lower_bound; lia.
Qed.

Lemma need_step n tot off :
  (tot <? n) = true -> need n (tot + chunk n tot off) (off + chunk n tot off) < need n tot off.
Proof.
  intros H. pose proof (need_pos n tot off H) as Hp. unfold need in *. rewrite H in *.
  destruct (Z.ltb_spec (tot + chunk n tot off) n) as [Hlt|]; [|lia].
  apply Z.ltb_lt in H. unfold chunk, BSIZE in *. pose proof (Z.mod_pos_bound off 1024).
  set (o := off mod 1024) in *. rewrite Z.min_r in * by lia.
  replace ((off + (1024 - o)) mod 1024) with 0.
  - replace (n - (tot + (1024 - o)) + 0 + 1024 - 1) with (n - tot + o + 1024 - 1 + (-1) * 1024) by lia.
    rewrite Z.div_add by lia. lia.
  - unfold o. rewrite (Z.div_mod off 1024) at 1 by lia.
    replace (1024 * (off / 1024) + off mod 1024 + (1024 - off mod 1024)) with ((off / 1024 + 1) * 1024) by lia.
    by rewrite Z.mod_mul.
Qed.

Lemma need_rounds n off : 0 <= n -> need n 0 off < Z.of_nat (rounds n).
Proof.
  intros Hn. unfold need, rounds, BSIZE. pose proof (Z.mod_pos_bound off 1024). pose proof (Z.div_pos n 1024).
  destruct (0 <? n); [|lia]. rewrite Nat2Z.inj_add, Z2Nat.id by lia.
  apply Z.div_lt_upper_bound; [lia|]. pose proof (Z.div_mod n 1024). pose proof (Z.mod_pos_bound n 1024). lia.
Qed.

Lemma readi_loop_out out out' fuel ip t n tot off got s :
  need n tot off < Z.of_nat fuel ->
  readi_loop out fuel ip t n tot off got s = readi_loop out' fuel ip t n tot off got s.
Proof.
  revert tot off got s; induction fuel as [|fuel IH]; intros tot off got s H.
  { unfold need in H. destruct (tot <? n) eqn:E; [|lia]. pose proof (need_pos n tot off E) as Hp.
    unfold need in Hp. rewrite E in Hp. lia. }
  cbn [readi_loop]. destruct (tot <? n) eqn:E; [|done]. pose proof (need_step n tot off E).
  apply bind_ext; intros addr s1. destruct (addr =? 0); [done|]. apply bind_ext; intros dev s2.
  apply bind_ext; intros bp s3. apply bind_ext; intros d s4. apply bind_ext; intros r s5.
  destruct (r =? -1); [done|]. apply bind_ext; intros [] s6. apply IH. lia.
Qed.

Lemma writei_loop_out out out' fuel ip t n tot off s :
  need n tot off < Z.of_nat fuel ->
  writei_loop out fuel ip t n tot off s = writei_loop out' fuel ip t n tot off s.
Proof.
  revert tot off s; induction fuel as [|fuel IH]; intros tot off s H.
  { unfold need in H. destruct (tot <? n) eqn:E; [|lia]. pose proof (need_pos n tot off E) as Hp.
    unfold need in Hp. rewrite E in Hp. lia. }
  cbn [writei_loop]. destruct (tot <? n) eqn:E; [|done]. pose proof (need_step n tot off E).
  apply bind_ext; intros addr s1. destruct (addr =? 0); [done|]. apply bind_ext; intros dev s2.
  apply bind_ext; intros bp s3. apply bind_ext; intros [r bs] s4. apply bind_ext; intros [] s5.
  destruct (r =? -1); [done|]. apply bind_ext; intros [] s6. apply bind_ext; intros [] s7. apply IH. lia.
Qed.

Lemma namex_loop_out out out' fuel ip path np s :
  (length path < fuel)%nat -> namex_loop out fuel ip path np s = namex_loop out' fuel ip path np s.
Proof.
  revert ip path s; induction fuel as [|fuel IH]; intros ip path s H; [lia|]. cbn [namex_loop].
  pose proof (skipelem_spec path) as Hs. destruct (skipelem path) as [[name rest]|]; [|done].
  destruct Hs as [_ Hl]. apply bind_ext; intros [] s1. apply bind_ext; intros t s2.
  destruct (negb (t =? T_DIR)); [done|]. destruct (np && bool_decide (rest = [])); [done|].
  apply bind_ext; intros [[next off]|] s3; [|done]. apply bind_ext; intros [] s4. apply IH. lia.
Qed.

(** C37: The loops of readi(), writei() and namex() end within the rounds the model gives them:
    what would happen after the last round has no influence on their result, for every
    transfer size and offset and every path. *)
Theorem fs_loops_end :
  (forall out ip t n off got s, 0 <= n ->
     readi_loop out (rounds n) ip t n 0 off got s = readi_loop block (rounds n) ip t n 0 off got s) /\
  (forall out ip t n off s, 0 <= n ->
     writei_loop out (rounds n) ip t n 0 off s = writei_loop block (rounds n) ip t n 0 off s) /\
  (forall out ip path np s,
     namex_loop out (S (length path)) ip path np s = namex_loop block (S (length path)) ip path np s).
Proof.
  split_and!; intros.
  - by apply readi_loop_out, need_rounds.
  - by apply writei_loop_out, need_rounds.
  - apply namex_loop_out. lia.
Qed.

End loops.

End FsPath.
