(* ===== verification/PrintProofs.v ===== *)
(** * What printf prints for a number: its digits, within the buffer, and atoi reads them back *)

From S2P Require Import Prelude Machine Print Ulib.

Module PrintProofs.
Import Print Ulib.

Lemma digit_loop_length fuel x base k :
  2 <= base -> 0 <= x < base ^ Z.of_nat k -> (1 <= k)%nat -> (length (digit_loop fuel x base) <= k)%nat.
Proof.
  intros Hb. revert x k; induction fuel as [|fuel IH]; intros x k Hx Hk; cbn [digit_loop]; [cbn; lia|].
  cbn [length]. destruct (Z.eqb_spec (x / base) 0) as [|Hne]; [cbn; lia|].
  pose proof (Z.div_pos x base). destruct k as [|[|k]]; [lia| |].
  - exfalso. apply Hne, Z.div_small. cbn in Hx. lia.
  - apply le_n_S, IH; [|lia]. split; [lia|]. apply Z.div_lt_upper_bound; [lia|].
    rewrite Nat2Z.inj_succ, Z.pow_succ_r in Hx by lia. lia.
Qed.

Lemma digit_loop_pos fuel x base : (1 <= length (digit_loop (S fuel) x base))%nat.
Proof. cbn [digit_loop length]. lia. Qed.

(** printint() never writes past its buffer buf[20]: for every 64-bit value, in base 10 or
    16, signed or not, the digits and the sign take at most 20 characters. *)
Theorem printint_fits (xx base : Z) (sign : bool) :
  - 2 ^ 63 <= xx < 2 ^ 64 -> base = 10 \/ base = 16 -> (1 <= length (printint_buf xx base sign) <= 20)%nat.
Proof.
  intros Hx Hb. unfold printint_buf. cbv zeta. set (neg := sign && (xx <? 0)).
  assert (Hdig : forall x, (1 <= length (digit_loop 64 x base))%nat).
  { intros x. apply digit_loop_pos. }
  rewrite length_app. split; [specialize (Hdig (if neg then u64 (- xx) else u64 xx)); lia|].
  assert (Hu : forall y, 0 <= u64 y < 2 ^ 64) by (intros; apply Z.mod_pos_bound; lia).
  destruct neg eqn:E; cbn [length chars].
  - assert (length (digit_loop 64 (u64 (- xx)) base) <= 19)%nat; [|change (length (chars "-")) with 1%nat; lia].
    apply digit_loop_length; [lia| |lia]. unfold neg in E. apply andb_true_iff in E as [_ E%Z.ltb_lt].
    unfold u64. rewrite Z.mod_small by lia. destruct Hb as [->| ->]; cbn; lia.
  - rewrite Nat.add_0_r. apply digit_loop_length; [lia| |lia]. specialize (Hu xx).
    destruct Hb as [->| ->]; [|lia]. cbn. lia.
Qed.

(** ** Reading the digits back *)

Lemma digit_dec d : 0 <= d < 10 -> digit d = 48 + d.
Proof.
  intros H. assert (d = 0 \/ d = 1 \/ d = 2 \/ d = 3 \/ d = 4 \/ d = 5 \/ d = 6 \/ d = 7 \/ d = 8 \/ d = 9) by lia.
  by repeat destruct H0 as [->|H0]; [..|subst d].
Qed.

Lemma atoi_app n s d :
  Forall (fun c => 48 <= c <= 57) s -> 0 <= d < 10 ->
  atoi_loop n (s ++ [48 + d]) = s32 (atoi_loop n s * 10 + d).
Proof.
  intros Hs Hd. revert n; induction Hs as [|c s Hc Hs IH]; intros n.
  - cbn [app atoi_loop]. rewrite (proj2 (Z.leb_le 48 (48 + d))), (proj2 (Z.leb_le (48 + d) 57)) by lia.
    cbn [andb]. f_equal. lia.
  - cbn [app atoi_loop]. rewrite (proj2 (Z.leb_le 48 c)), (proj2 (Z.leb_le c 57)) by lia. apply IH.
Qed.

Lemma digit_loop_reads fuel x :
  0 <= x < 10 ^ Z.of_nat fuel -> x < 2 ^ 31 ->
  Forall (fun c => 48 <= c <= 57) (rev (digit_loop fuel x 10)) /\ atoi_loop 0 (rev (digit_loop fuel x 10)) = x.
Proof.
  revert x; induction fuel as [|fuel IH]; intros x Hx Hlt; [cbn in *; split; [constructor|lia]|].
  cbn [digit_loop rev]. pose proof (Z.mod_pos_bound x 10 eq_refl) as Hm. rewrite digit_dec by done.
  destruct (Z.eqb_spec (x / 10) 0) as [E|E].
  - assert (x < 10) by (pose proof (Z.div_mod x 10); lia). rewrite (Z.mod_small x 10) by lia.
    cbn [rev app]. split; [constructor; [|constructor]; lia|]. 
    change (atoi_loop 0 ([] ++ [48 + x]) = x). rewrite atoi_app; [|by apply Forall_nil_2|lia]. cbn.
    apply s32_small. lia.
  - destruct (IH (x / 10)) as [H1 H2].
    + split; [apply Z.div_pos; lia|]. apply Z.div_lt_upper_bound; [lia|].
      rewrite Nat2Z.inj_succ, Z.pow_succ_r in Hx by lia. lia.
    + apply Z.div_lt_upper_bound; lia.
    + split; [apply Forall_app; split; [done|constructor; [lia|constructor]]|].
      rewrite atoi_app, H2 by done. rewrite s32_small; pose proof (Z.div_mod x 10); lia.
Qed.

(** What printf prints for the conversion %d of a non-negative int is a numeral that atoi()
    of the user library reads back as the same number. *)
Theorem atoi_printint n :
  0 <= n < 2 ^ 31 -> atoi (format (chars "%d") [AInt n]) = n.
Proof.
  intros Hn. change (format (chars "%d") [AInt n]) with (printint (s32 n) 10 true ++ []).
  rewrite app_nil_r, s32_small by lia. unfold printint, printint_buf.
  rewrite (proj2 (Z.ltb_ge n 0)), andb_false_r, app_nil_r by lia. unfold u64. rewrite Z.mod_small by lia.
  apply digit_loop_reads; lia.
Qed.

End PrintProofs.
