(* ===== verification/ConsoleProofs.v ===== *)
(** * The console's line discipline

    The ring buffer of kernel/console.c implements two queues: the characters of complete
    lines, which consoleread() takes from, and the line being edited.  [type_char] says what a
    typed character does to them. *)

From S2P Require Import Prelude Machine FsData State Locks Sched SchedProofs Proc Bio FsRun Print Console.

Module ConsoleProofs.
Import Sched SchedProofs FsRun Console.

(** The complete lines, and the line being edited. *)
Record tty : Type := MkTty { tty_done : list Z; tty_edit : list Z }.

Definition tty_len (t : tty) : Z := Z.of_nat (length (tty_done t)) + Z.of_nat (length (tty_edit t)).

Definition type_char (c : Z) (t : tty) : tty :=
  if c =? ctrl 85 then MkTty (tty_done t) []
  else if (c =? ctrl 72) || (c =? 127) then MkTty (tty_done t) (take (length (tty_edit t) - 1) (tty_edit t))
  else if (c =? 0) || (INPUT_BUF_SIZE <=? tty_len t) then t
  else
    let c := if c =? 13 then newline else c in
    if (c =? newline) || (c =? ctrl 68) || (tty_len t =? INPUT_BUF_SIZE - 1)
    then MkTty (tty_done t ++ tty_edit t ++ [c]) []
    else MkTty (tty_done t) (tty_edit t ++ [c]).

(** The ring buffer holds the two queues one after the other, from its read index. *)
Record holds (c : consst) (t : tty) : Prop := {
  hd_size : length (cons_buf c) = Z.to_nat INPUT_BUF_SIZE;
  hd_r : 0 <= cons_r c < 2 ^ 32;
  hd_w : cons_w c = u32 (cons_r c + Z.of_nat (length (tty_done t)));
  hd_e : cons_e c = u32 (cons_r c + tty_len t);
  hd_len : tty_len t <= INPUT_BUF_SIZE;
  hd_data i v : (tty_done t ++ tty_edit t) !! i = Some v ->
    cons_buf c !! Z.to_nat ((cons_r c + Z.of_nat i) mod INPUT_BUF_SIZE) = Some v;
  hd_edit : newline ∉ tty_edit t
}.

Lemma u32_mod_ring x : u32 x mod INPUT_BUF_SIZE = x mod INPUT_BUF_SIZE.
Proof.
  unfold u32, INPUT_BUF_SIZE. apply Z.mod_mod_divide. by exists (2 ^ 25).
Qed.

Lemma u32_diff r a b : 0 <= r < 2 ^ 32 -> 0 <= a -> 0 <= b <= a -> a < 2 ^ 32 -> u32 (u32 (r + a) - u32 (r + b)) = a - b.
Proof.
  intros Hr Ha Hb Hlt. unfold u32. rewrite <- Zminus_mod. replace (r + a - (r + b)) with (a - b) by lia.
  apply Z.mod_small. lia.
Qed.

Lemma u32_diff0 r a : 0 <= r < 2 ^ 32 -> 0 <= a < 2 ^ 32 -> u32 (u32 (r + a) - r) = a.
Proof.
  intros Hr Ha. pose proof (u32_diff r a 0 Hr) as H. rewrite Z.add_0_r, Z.sub_0_r in H.
  rewrite <- H at 2 by lia. do 2 f_equal. unfold u32. symmetry. by apply Z.mod_small.
Qed.

Lemma u32_step x d : u32 (u32 x + d) = u32 (x + d).
Proof. unfold u32. by rewrite Zplus_mod_idemp_l. Qed.

Lemma u32_same r a b : 0 <= a < 2 ^ 32 -> 0 <= b < 2 ^ 32 -> u32 (r + a) = u32 (r + b) -> a = b.
Proof.
  intros Ha Hb H. unfold u32 in H. assert ((a - b) mod 2 ^ 32 = 0) as H0.
  { replace (a - b) with (r + a - (r + b)) by lia. rewrite Zminus_mod, H, Z.sub_diag. by apply Z.mod_0_l. }
  apply Z.mod_divide in H0 as [k Hk]; [|lia]. lia.
Qed.

Lemma tty_len_pos t : 0 <= tty_len t.
Proof. unfold tty_len. lia. Qed.

Lemma ring_inj r i j :
  0 <= i < INPUT_BUF_SIZE -> 0 <= j < INPUT_BUF_SIZE ->
  (r + i) mod INPUT_BUF_SIZE = (r + j) mod INPUT_BUF_SIZE -> i = j.
Proof.
  unfold INPUT_BUF_SIZE. intros Hi Hj H. assert ((i - j) mod 128 = 0) as H0.
  { replace (i - j) with (r + i - (r + j)) by lia. by rewrite Zminus_mod, H, Z.sub_diag. }
  apply Z.mod_divide in H0 as [k Hk]; [|lia]. lia.
Qed.

Section proofs.
Context {img : Image} {env : Env} {caller : Caller}.

Lemma consputc_run H x c : exists out, runs H (consputc c) x tt H (printed out x).
Proof. eexists. apply runs_consputc. Qed.

(** A new console state and some output. *)
Definition upd_cons (c : consst) (out : list Z) (x : fsstate) : fsstate := printed out (set_fs_cons c x).

Lemma upd_cons_twice c c' o o' x : upd_cons c' o' (upd_cons c o x) = upd_cons c' (o ++ o') x.
Proof. unfold upd_cons, printed. fsimpl. by rewrite app_assoc. Qed.

Lemma printed_upd c o o' x : printed o' (upd_cons c o x) = upd_cons c (o ++ o') x.
Proof. unfold upd_cons. by rewrite printed_twice. Qed.

Lemma upd_cons_same x : upd_cons (fs_cons x) [] x = x.
Proof. unfold upd_cons, printed. fsimpl. rewrite app_nil_r. by destruct x. Qed.

Lemma put_cons_run H x f : runs H (put_cons f) x tt H (upd_cons (f (fs_cons x)) [] x).
Proof.
  unfold put_cons. eassert (upd_cons (f (fs_cons x)) [] x = _) as ->; [|apply (runs_putf H x (fun x => set_fs_cons (f (fs_cons x)) x))].
  unfold upd_cons, printed. fsimpl. rewrite app_nil_r. by destruct x.
Qed.

Lemma get_cons_run H x : runs H (get_cons id) x (fs_cons x) H x.
Proof. apply (runs_getf H x (fun x => id (fs_cons x))). Qed.

(** Erasing the last character of the edited line. *)
Lemma erase_holds c t :
  holds c t -> tty_edit t <> [] ->
  holds (set_cons_e (u32 (cons_e c - 1)) c) (MkTty (tty_done t) (take (length (tty_edit t) - 1) (tty_edit t))).
Proof.
  intros [H1 H2 H3 H4 H5 H6 H7] Hne. destruct (tty_edit t) as [|a l] eqn:El; [done|]. clear Hne.
  assert (tty_len (MkTty (tty_done t) (take (length (a :: l) - 1) (a :: l))) = tty_len t - 1) as HL.
  { unfold tty_len. cbn [tty_done tty_edit]. rewrite El, length_take. cbn [length]. lia. }
  split; fsimpl; try done.
  - rewrite HL, H4. replace (cons_r c + (tty_len t - 1)) with (cons_r c + tty_len t + -1) by lia.
    apply (u32_step _ (-1)).
  - rewrite HL. lia.
  - cbn [tty_done tty_edit]. intros i v Hi. apply H6.
    eapply prefix_lookup_Some; [exact Hi|]. apply prefix_app. exists (drop (length (a :: l) - 1) (a :: l)).
    symmetry. apply take_drop.
  - cbn [tty_edit]. intros Hin. apply H7. rewrite <- (take_drop (length (a :: l) - 1) (a :: l)). apply elem_of_app. by left.
Qed.

Lemma empty_edit c t : holds c t -> (cons_e c =? cons_w c) = bool_decide (tty_edit t = []).
Proof.
  intros [H1 H2 H3 H4 H5 H6 H7]. pose proof (tty_len_pos t). unfold tty_len, INPUT_BUF_SIZE in *.
  destruct (bool_decide (tty_edit t = [])) eqn:E.
  - apply bool_decide_eq_true in E. rewrite E in *. apply Z.eqb_eq. rewrite H3, H4. f_equal. cbn. lia.
  - apply bool_decide_eq_false in E. apply Z.eqb_neq. rewrite H3, H4. intros Heq.
    apply u32_same in Heq; [|lia..]. destruct (tty_edit t); [done|cbn in *; lia].
Qed.

Lemma last_edit c t v :
  holds c t -> last (tty_edit t) = Some v -> nth (Z.to_nat (u32 (cons_e c - 1) mod INPUT_BUF_SIZE)) (cons_buf c) 0 = v.
Proof.
  intros [H1 H2 H3 H4 H5 H6 H7] Hl. pose proof Hl as [l Hl']%last_Some. apply nth_lookup_Some.
  rewrite u32_mod_ring, H4. unfold Z.sub. rewrite <- (u32_mod_ring (u32 _ + _)), u32_step, u32_mod_ring.
  specialize (H6 (length (tty_done t) + length l)%nat v). unfold tty_len. rewrite Hl' in *.
  rewrite length_app. cbn [length].
  replace (cons_r c + _ + -1) with (cons_r c + Z.of_nat (length (tty_done t) + length l)) by lia. apply H6.
  rewrite app_assoc. rewrite lookup_app_r; rewrite length_app; [|lia]. by rewrite Nat.sub_diag.
Qed.

(** One character typed while the console's lock is held. *)
Lemma kill_line_run H x t n :
  holds (fs_cons x) t -> (length (tty_edit t) <= n)%nat ->
  exists c' out, runs H (kill_line n) x tt H (upd_cons c' out x) /\ holds c' (MkTty (tty_done t) []).
Proof.
  revert x t; induction n as [|n IH]; intros x t Hh Hn.
  - exists (fs_cons x), []. rewrite upd_cons_same. split; [apply runs_ret|].
    destruct t as [d [|]]; [done|cbn in Hn; lia].
  - cbn [kill_line].
    destruct (decide (tty_edit t = [])) as [E|E].
    + exists (fs_cons x), []. rewrite upd_cons_same. destruct t as [d e]; cbn in E; subst. split; [|done].
      eapply runs_bind; [apply get_cons_run|cbv beta]. rewrite (empty_edit _ _ Hh). apply runs_ret.
    + destruct (last (tty_edit t)) as [v|] eqn:El; [|by apply last_None in El].
      pose proof (last_edit _ _ _ Hh El) as Hv. pose proof (erase_holds _ _ Hh E) as Hh'.
      destruct (consputc_run H (upd_cons (set_cons_e (u32 (cons_e (fs_cons x) - 1)) (fs_cons x)) [] x) BACKSPACE) as [o1 R1].
      rewrite printed_upd in R1. cbn [app] in R1.
      destruct (IH (upd_cons (set_cons_e (u32 (cons_e (fs_cons x) - 1)) (fs_cons x)) o1 x) _ Hh') as (c' & o2 & R2 & Hd).
      { cbn. rewrite length_take. lia. }
      exists c', (o1 ++ o2). split; [|done]. eapply runs_bind; [apply get_cons_run|cbv beta].
      rewrite (empty_edit _ _ Hh), bool_decide_false, Hv by done.
      rewrite (proj2 (Z.eqb_neq v newline)).
      2:{ intros ->. apply (hd_edit _ _ Hh). apply last_Some in El as [l' ->]. set_solver. }
      cbn [negb andb]. eapply runs_bind; [apply (put_cons_run H x (fun c => set_cons_e (u32 (cons_e c - 1)) c))|cbv beta].
      eapply runs_bind; [exact R1|cbv beta]. rewrite <- (upd_cons_twice (set_cons_e (u32 (cons_e (fs_cons x) - 1)) (fs_cons x)) c' o1 o2 x). exact R2.
Qed.

(** Storing a character behind the edited line. *)
Definition stored (v : Z) (c : consst) : consst :=
  set_cons_e (u32 (cons_e c + 1))
    (set_cons_buf (<[Z.to_nat (cons_e c mod INPUT_BUF_SIZE) := v]> (cons_buf c)) c).

Lemma stored_data c t v i u :
  holds c t -> tty_len t < INPUT_BUF_SIZE -> (tty_done t ++ tty_edit t ++ [v]) !! i = Some u ->
  cons_buf (stored v c) !! Z.to_nat ((cons_r c + Z.of_nat i) mod INPUT_BUF_SIZE) = Some u.
Proof.
  intros [H1 H2 H3 H4 H5 H6 H7] Hlt Hi. unfold stored. fsimpl. rewrite H4, u32_mod_ring, app_assoc in *.
  pose proof (lookup_lt_Some _ _ _ Hi) as Hlen. rewrite !length_app in Hlen. cbn in Hlen.
  assert (Hb : forall y, (Z.to_nat (y mod INPUT_BUF_SIZE) < length (cons_buf c))%nat).
  { intros y. pose proof (Z.mod_pos_bound y INPUT_BUF_SIZE eq_refl). unfold INPUT_BUF_SIZE in *. lia. }
  destruct (decide (i = length (tty_done t ++ tty_edit t))) as [->|Hne].
  - rewrite lookup_app_r, Nat.sub_diag in Hi by done. injection Hi as <-.
    replace (Z.of_nat (length (tty_done t ++ tty_edit t))) with (tty_len t)
      by (unfold tty_len; rewrite length_app; lia).
    by rewrite list_lookup_insert_eq by done.
  - rewrite length_app in Hne. rewrite list_lookup_insert_ne.
    + apply H6. by rewrite lookup_app_l in Hi by (rewrite length_app; lia).
    + intros E. apply Z2Nat.inj in E; [|apply Z.mod_pos_bound; done..].
      apply ring_inj in E; unfold tty_len in *; lia.
Qed.

Lemma stored_e c t v : holds c t -> tty_len t < INPUT_BUF_SIZE -> cons_e (stored v c) = u32 (cons_r c + (tty_len t + 1)).
Proof. intros Hh Hlt. unfold stored. fsimpl. rewrite (hd_e _ _ Hh), u32_step. f_equal. lia. Qed.

Lemma append_holds c t v :
  holds c t -> tty_len t < INPUT_BUF_SIZE -> v <> newline ->
  holds (stored v c) (MkTty (tty_done t) (tty_edit t ++ [v])).
Proof.
  intros Hh Hlt Hv. pose proof (stored_e c t v Hh Hlt) as He. pose proof (fun i u => stored_data c t v i u Hh Hlt) as Hd.
  destruct Hh as [H1 H2 H3 H4 H5 H6 H7].
  assert (tty_len (MkTty (tty_done t) (tty_edit t ++ [v])) = tty_len t + 1) as HL.
  { unfold tty_len. cbn. rewrite length_app. cbn. lia. }
  split; cbn [tty_done tty_edit]; [| | | | | |set_solver].
  - unfold stored. fsimpl. by rewrite length_insert.
  - done.
  - done.
  - by rewrite HL.
  - rewrite HL. lia.
  - apply Hd.
Qed.

Lemma complete_holds c t v :
  holds c t -> tty_len t < INPUT_BUF_SIZE ->
  holds (set_cons_w (cons_e (stored v c)) (stored v c)) (MkTty (tty_done t ++ tty_edit t ++ [v]) []).
Proof.
  intros Hh Hlt. pose proof (stored_e c t v Hh Hlt) as He. pose proof (fun i u => stored_data c t v i u Hh Hlt) as Hd.
  destruct Hh as [H1 H2 H3 H4 H5 H6 H7].
  assert (tty_len (MkTty (tty_done t ++ tty_edit t ++ [v]) []) = tty_len t + 1) as HL.
  { unfold tty_len. cbn. rewrite !length_app. cbn. lia. }
  split; cbn [tty_done tty_edit]; fsimpl; [| | | | | |set_solver].
  - unfold stored. fsimpl. by rewrite length_insert.
  - done.
  - rewrite He. f_equal. change (cons_r (stored v c)) with (cons_r c). f_equal. rewrite !length_app. unfold tty_len. cbn. lia.
  - by rewrite HL.
  - rewrite HL. lia.
  - intros i u. rewrite app_nil_r. apply Hd.
Qed.

(** The default branch of consoleintr(). *)
Definition store_char (c : Z) : K unit :=
  consputc c ;;
  put_cons (fun x => set_cons_buf (<[Z.to_nat (cons_e x mod INPUT_BUF_SIZE) := u8 c]> (cons_buf x)) x) ;;
  put_cons (fun x => set_cons_e (u32 (cons_e x + 1)) x) ;;
  x <- get_cons id ;;
  whenM ((c =? newline) || (c =? ctrl 68) || (u32 (cons_e x - cons_r x) =? INPUT_BUF_SIZE))
    (put_cons (fun x => set_cons_w (cons_e x) x) ;;
     wakeup (Some ChConsR)).

Lemma store_char_run H x t c :
  holds (fs_cons x) t -> tty_len t < INPUT_BUF_SIZE -> 0 <= c < 256 ->
  exists c' out, runs H (store_char c) x tt H (upd_cons c' out x) /\
    holds c' (if (c =? newline) || (c =? ctrl 68) || (tty_len t =? INPUT_BUF_SIZE - 1)
              then MkTty (tty_done t ++ tty_edit t ++ [c]) [] else MkTty (tty_done t) (tty_edit t ++ [c])).
Proof.
  intros Hh Hlt Hc. destruct (consputc_run H x c) as [o R1]. pose proof (tty_len_pos t).
  assert (Hu : u8 c = c) by (unfold u8; apply Z.mod_small; lia).
  assert (Hfull : (u32 (cons_e (stored c (fs_cons x)) - cons_r (stored c (fs_cons x))) =? INPUT_BUF_SIZE)
                  = (tty_len t =? INPUT_BUF_SIZE - 1)).
  { rewrite (stored_e _ t) by done. change (cons_r (stored c (fs_cons x))) with (cons_r (fs_cons x)).
    rewrite u32_diff0; [|apply (hd_r _ _ Hh)|unfold INPUT_BUF_SIZE in *; lia].
    destruct (Z.eqb_spec (tty_len t + 1) INPUT_BUF_SIZE), (Z.eqb_spec (tty_len t) (INPUT_BUF_SIZE - 1)); lia. }
  assert (R : forall c' , runs H (whenM ((c =? newline) || (c =? ctrl 68) || (tty_len t =? INPUT_BUF_SIZE - 1))
       (put_cons (fun x => set_cons_w (cons_e x) x) ;; wakeup (Some ChConsR))) (upd_cons (stored c (fs_cons x)) o x) tt H (upd_cons c' o x)
     -> runs H (store_char c) x tt H (upd_cons c' o x)).
  { intros c' Rw. unfold store_char. eapply runs_bind; [exact R1|cbv beta].
    eapply runs_bind; [apply put_cons_run|cbv beta]. eapply runs_bind; [apply put_cons_run|cbv beta].
    eapply runs_bind; [apply get_cons_run|cbv beta]. rewrite Hu.
    replace (upd_cons _ _ _) with (upd_cons (stored c (fs_cons x)) o x).
    - change (fs_cons (upd_cons (stored c (fs_cons x)) o x)) with (stored c (fs_cons x)). by rewrite Hfull.
    - unfold upd_cons, printed, stored. fsimpl. by rewrite !app_nil_r. }
  destruct ((c =? newline) || (c =? ctrl 68) || (tty_len t =? INPUT_BUF_SIZE - 1)) eqn:E.
  - exists (set_cons_w (cons_e (stored c (fs_cons x))) (stored c (fs_cons x))), o.
    split; [|by apply complete_holds]. apply R. cbn [whenM].
    eapply runs_bind; [apply put_cons_run|cbv beta].
    replace (upd_cons _ _ (upd_cons _ _ _)) with
      (upd_cons (set_cons_w (cons_e (stored c (fs_cons x))) (stored c (fs_cons x))) o x).
    + apply runs_wakeup.
    + unfold upd_cons, printed. fsimpl. by rewrite app_nil_r.
  - exists (stored c (fs_cons x)), o. split; [apply R, runs_ret|]. apply append_holds; try done.
    intros ->. cbn in E. done.
Qed.

(** C15: Typing implements line editing: on a console whose ring buffer holds the complete lines
    and the edited line of [t], the interrupt handler consoleintr() leaves one that holds those
    of [type_char c t], whatever the indices and their wrap-around: a line kill and a backspace
    touch only the edited line, a full buffer drops the character, a newline, control-D or
    the last free byte completes the line.  Control-P only prints the process table. *)
Theorem consoleintr_edits H x t c :
  0 <= c < 256 -> c <> ctrl 80 -> LCons ∉ H -> holds (fs_cons x) t ->
  exists c' out, runs H (consoleintr c) x tt H (upd_cons c' out x) /\ holds c' (type_char c t).
Proof.
  intros Hc HP HL Hh.
  assert (HH : ({[LCons]} ∪ H) ∖ {[LCons]} = H) by set_solver.
  assert (HC : LCons ∈ ({[LCons]} ∪ H : gset lockid)) by set_solver.
  set (H1 := {[LCons]} ∪ H) in *.
  assert (R : forall m c' out, runs H1 m x tt H1 (upd_cons c' out x) ->
    (forall y, y = fs_cons x -> (m = (if c =? ctrl 85 then kill_line (Z.to_nat (u32 (cons_e y - cons_w y)))
   else if (c =? ctrl 72) || (c =? 127) then
     whenM (negb (cons_e y =? cons_w y))
       (put_cons (fun x => set_cons_e (u32 (cons_e x - 1)) x) ;; consputc BACKSPACE)
   else whenM (negb (c =? 0) && (u32 (cons_e y - cons_r y) <? INPUT_BUF_SIZE))
       (store_char (if c =? 13 then newline else c))))) ->
    runs H (consoleintr c) x tt H (upd_cons c' out x)).
  { intros m c' out Rm Em. unfold consoleintr. eapply runs_bind; [apply runs_acquire; [done|by intros]|cbv beta].
    eapply runs_bind; [apply get_cons_run|cbv beta]. rewrite (proj2 (Z.eqb_neq c (ctrl 80))) by done.
    eapply runs_bind; [rewrite (Em _ eq_refl) in Rm; exact Rm|cbv beta]. rewrite <- HH.
    by apply runs_release. }
  clearbody H1. unfold type_char. destruct (c =? ctrl 85) eqn:EU.
  - destruct (kill_line_run H1 x t (Z.to_nat (u32 (cons_e (fs_cons x) - cons_w (fs_cons x)))) Hh) as (c' & out & Rk & Hh').
    + rewrite (hd_e _ _ Hh), (hd_w _ _ Hh), u32_diff; pose proof (hd_r _ _ Hh); pose proof (hd_len _ _ Hh);
        unfold tty_len, INPUT_BUF_SIZE in *; lia.
    + exists c', out. split; [|done]. eapply R; [exact Rk|]. by intros y ->.
  - destruct ((c =? ctrl 72) || (c =? 127)) eqn:EB.
    + destruct (bool_decide (tty_edit t = [])) eqn:E.
      * exists (fs_cons x), []. split.
        -- eapply R; [rewrite upd_cons_same; apply runs_ret|]. intros y ->. by rewrite (empty_edit _ _ Hh), E.
        -- apply bool_decide_eq_true in E. rewrite E in *. destruct t; cbn in *; by subst.
      * destruct (consputc_run H1 (upd_cons (set_cons_e (u32 (cons_e (fs_cons x) - 1)) (fs_cons x)) [] x) BACKSPACE) as [o R1].
        rewrite printed_upd in R1. cbn [app] in R1. apply bool_decide_eq_false in E.
        eexists _, o. split; [|by apply erase_holds]. 
        apply (R (put_cons (fun x => set_cons_e (u32 (cons_e x - 1)) x) ;; consputc BACKSPACE)).
        -- eapply runs_bind; [apply put_cons_run|exact R1].
        -- intros y ->. by rewrite (empty_edit _ _ Hh), bool_decide_false.
    + set (full := (c =? 0) || (INPUT_BUF_SIZE <=? tty_len t)).
      assert (Ef : negb (c =? 0) && (u32 (cons_e (fs_cons x) - cons_r (fs_cons x)) <? INPUT_BUF_SIZE) = negb full).
      { pose proof (hd_r _ _ Hh). pose proof (hd_len _ _ Hh). pose proof (tty_len_pos t). unfold INPUT_BUF_SIZE in *.
        rewrite (hd_e _ _ Hh), u32_diff0 by lia. unfold full. rewrite negb_orb. f_equal. apply Z.ltb_antisym. }
      destruct full eqn:Efull.
      * exists (fs_cons x), []. split; [|done]. eapply R; [rewrite upd_cons_same; apply runs_ret|].
        intros y ->. by rewrite Ef.
      * apply orb_false_iff in Efull as [_ Hl%Z.leb_gt].
        destruct (store_char_run H1 x t (if c =? 13 then newline else c) Hh Hl) as (c' & out & Rs & Hh').
        { destruct (c =? 13); [by unfold newline|done]. }
        exists c', out. split; [|done]. eapply R; [exact Rs|]. intros y ->. by rewrite Ef.
Qed.

End proofs.

(** The letter a typed on an empty console. *)
Definition caller0 : Caller := {| me := 0; my_pid := 1 |}.

Lemma consoleintr_edits_witness : exists c' out,
  let x := fsstate0 (fun _ => []) in
  @runs caller0 unit ∅ (consoleintr 97) x tt ∅ (upd_cons c' out x) /\ holds c' (MkTty [] [97]).
Proof.
  pose proof (@consoleintr_edits caller0 ∅ (fsstate0 (fun _ => [])) (MkTty [] []) 97) as W.
  destruct W as (c' & out & R & Hh); [done|done|set_solver| |by exists c', out].
  split; try done. apply not_elem_of_nil.
Defined.

End ConsoleProofs.
