(* ===== verification/FileProofs.v ===== *)
(** * The content of files: readi() and writei() of kernel/fs.c

    A file is read through the view of the buffer cache: [blk] is the block bmap() finds for a
    block of a file, [byte] a byte of its content. *)

From S2P Require Import Prelude Machine FsData Bytes State Locks CString VM Sched SchedProofs Proc Bio Log FsRun BioProofs LogProofs Fs FsPath.

Module FileProofs.
Import CString VM Sched SchedProofs Proc Sleeplock Bio Log FsRun BioProofs LogProofs Fs FsPath.

Section proofs.
Context {img : Image} {env : Env} {caller : Caller}.

(** ** Reading a block *)

(** The cache is at rest, and has a buffer to spare. *)
Record ready (x : fsstate) : Prop := {
  rd_cache : cache x;
  rd_idle : idle x;
  rd_room : (used x < NBUF)%nat;
  rd_refs n : refs x n + 1 < 2 ^ 31
}.

(** The same view: what a read leaves behind. *)
Record same (x x' : fsstate) : Prop := {
  sm_cache : cache x';
  sm_bio : bio_only x x';
  sm_cur m : cur x' m = cur x m;
  sm_refs m : refs x' m = refs x m;
  sm_lock m : block_lock x' m = block_lock x m;
  sm_used : used x' = used x
}.

Lemma same_refl x : cache x -> same x x.
Proof. intros Hc. split; try done. unfold bio_only. by destruct x. Qed.

Lemma same_trans x y z : same x y -> same y z -> same x z.
Proof.
  intros [H1 H2 H3 H4 H5 H6] [G1 G2 G3 G4 G5 G6]. unfold bio_only in *. split; try done.
  - unfold bio_only. rewrite G2. rewrite H2. fsimpl. done.
  - intros m. by rewrite G3.
  - intros m. by rewrite G4.
  - intros m. by rewrite G5.
  - by rewrite G6.
Qed.

Lemma same_ready x x' : ready x -> same x x' -> ready x'.
Proof.
  intros [H1 H2 H3 H4] [G1 G2 G3 G4 G5 G6]. split; try done.
  - intros m. by rewrite G5.
  - by rewrite G6.
  - intros m. by rewrite G4.
Qed.

Lemma bio_inode x x' i : bio_only x x' -> finode i x' = finode i x /\ fs_sb x' = fs_sb x /\ fs_log x' = fs_log x.
Proof. unfold bio_only. intros ->. done. Qed.

Lemma read_block H x n :
  ready x -> locks_free H -> 0 <= n < 2 ^ 32 ->
  exists b x1 x2, runs H (bread ROOTDEV n) x b H x1 /\ b_data (fbuf b x1) = cur x n /\ bio_only x x1 /\
    runs H (brelse b) x1 tt H x2 /\ same x x2.
Proof.
  intros [Hc Hid Hu Hr] HL Hn.
  destruct (bread_run H x n Hc HL Hn (Hid n) (Hr n) (fun _ => Hu)) as (b & x1 & R1 & B1 & D1 & V1).
  pose proof (cache_range x n Hc) as Hr0. pose proof (vs_refs _ _ _ _ _ _ V1 n) as E1. rewrite Z.eqb_refl in E1.
  pose proof (vs_cur _ _ _ _ _ _ V1 n) as C1. rewrite Z.eqb_refl in C1.
  pose proof (vs_bio _ _ _ _ _ _ V1) as BO.
  destruct (brelse_run H x1 b n (vs_cache _ _ _ _ _ _ V1) HL B1) as (x2 & R2 & V2).
  { intros E. rewrite C1. assert (fs_disk x1 = fs_disk x) as -> by (by rewrite BO). apply (ca_clean _ Hc). lia. }
  exists b, x1, x2. split; [exact R1|]. split; [exact D1|]. split; [exact BO|]. split; [exact R2|].
  rewrite E1, C1 in V2. destruct V2 as [W1 W2 W3 W4 W5 W6 _]. destruct V1 as [_ _ X3 X4 X5 X6 _].
  split; [done| | | | |].
  - unfold bio_only in *. rewrite W2. rewrite BO. fsimpl. done.
  - intros m. rewrite W3, X3. destruct (Z.eqb_spec m n) as [Em|]; [by rewrite Em|done].
  - intros m. rewrite W4, X4. destruct (Z.eqb_spec m n) as [Em|]; [rewrite Em; lia|done].
  - intros m. rewrite W5, X5. destruct (Z.eqb_spec m n) as [Em|]; [by rewrite Em, Hid|done].
  - rewrite E1 in W6. replace (refs x n + 1 - 1) with (refs x n) in W6 by lia. lia.
Qed.

(** ** The blocks of a file *)

Definition addr_of (x : fsstate) (ip : nat) (i : Z) : Z := nth (Z.to_nat i) (i_addrs (finode ip x)) 0.

Definition blk (x : fsstate) (ip : nat) (bn : Z) : Z :=
  if bn <? NDIRECT then addr_of x ip bn else get_u32 (cur x (addr_of x ip NDIRECT)) (4 * (bn - NDIRECT)).

Definition byte (x : fsstate) (ip : nat) (k : Z) : Z :=
  nth (Z.to_nat (k mod BSIZE)) (cur x (blk x ip (k / BSIZE))) 0.

(** The bytes from [off]. *)
Definition bytes (x : fsstate) (ip : nat) (off n : Z) : list Z :=
  (fun i : nat => byte x ip (off + Z.of_nat i)) <$> seq 0 (Z.to_nat n).

(** A block of the file is allocated. *)
Definition mapped (x : fsstate) (ip : nat) (bn : Z) : Prop :=
  0 <= bn < MAXFILE /\ 0 < blk x ip bn < 2 ^ 32 /\ (NDIRECT <= bn -> 0 < addr_of x ip NDIRECT < 2 ^ 32).

Lemma same_blk x x' ip bn : same x x' -> blk x' ip bn = blk x ip bn.
Proof.
  intros S. destruct (bio_inode x x' ip (sm_bio _ _ S)) as (E & _). unfold blk, addr_of. by rewrite E, (sm_cur _ _ S).
Qed.

Lemma same_byte x x' ip k : same x x' -> byte x' ip k = byte x ip k.
Proof. intros S. unfold byte. by rewrite (same_blk x x' ip _ S), (sm_cur _ _ S). Qed.

Lemma same_mapped x x' ip bn : same x x' -> mapped x ip bn -> mapped x' ip bn.
Proof.
  intros S (H1 & H2 & H3). destruct (bio_inode x x' ip (sm_bio _ _ S)) as (E & _).
  unfold mapped. rewrite (same_blk x x' ip bn S). unfold addr_of. by rewrite E.
Qed.

Lemma bmap_run H x ip bn :
  ready x -> locks_free H -> i_dev (finode ip x) = ROOTDEV -> mapped x ip bn ->
  exists x', runs H (bmap ip bn) x (blk x ip bn) H x' /\ same x x'.
Proof.
  intros Hrd HL Hdev (Hbn & Hb & Hi). unfold bmap. pose proof (same_refl x (rd_cache _ Hrd)) as Hs.
  assert (Hblk : forall a, a = blk x ip bn -> (a =? 0) = false) by (intros a ->; apply Z.eqb_neq; lia).
  unfold blk in *. destruct (bn <? NDIRECT) eqn:E.
  - exists x. split; [|done]. unfold get_addr. rstep. fold (addr_of x ip bn). rewrite Hblk by done. apply runs_ret.
  - apply Z.ltb_ge in E. specialize (Hi E).
    destruct (read_block H x (addr_of x ip NDIRECT) Hrd HL ltac:(lia)) as (b & x1 & x2 & R1 & D1 & BO & R2 & S2).
    exists x2. split; [|done].
    rewrite (proj2 (Z.ltb_lt (bn - NDIRECT) NINDIRECT)) by (unfold MAXFILE in Hbn; lia).
    unfold get_addr. rstep. fold (addr_of x ip NDIRECT).
    eapply runs_bind; [|cbv beta].
    { rewrite (proj2 (Z.eqb_neq (addr_of x ip NDIRECT) 0)) by lia. apply runs_ret. }
    rewrite (proj2 (Z.eqb_neq (addr_of x ip NDIRECT) 0)) by lia. rstep. rewrite Hdev.
    eapply runs_bind; [exact R1|cbv beta]. rstep. rewrite D1.
    eapply runs_bind; [rewrite Hblk by done; apply runs_ret|cbv beta].
    eapply runs_bind; [exact R2|cbv beta]. apply runs_ret.
Qed.

(** ** readi() *)

(** The file's blocks under the bytes from [off] to [off + n] are allocated. *)
Definition mapped_range (x : fsstate) (ip : nat) (off n : Z) : Prop :=
  forall k, off <= k < off + n -> mapped x ip (k / BSIZE).

Lemma block_part_bytes x ip off m :
  0 <= off -> 0 <= m -> off mod BSIZE + m <= BSIZE -> length (cur x (blk x ip (off / BSIZE))) = 1024%nat ->
  block_part (cur x (blk x ip (off / BSIZE))) off m = bytes x ip off m.
Proof.
  intros Ho Hm Hle Hlen. unfold block_part, bytes. apply list_eq. intros i. rewrite list_lookup_fmap.
  pose proof (Z.mod_pos_bound off BSIZE eq_refl) as Hb.
  destruct (decide (i < Z.to_nat m)%nat) as [Hi|Hi].
  - rewrite lookup_take_lt, lookup_drop, lookup_seq_lt by done. cbn. unfold byte.
    assert (Hd : (off + Z.of_nat i) / BSIZE = off / BSIZE).
    { rewrite (Z.div_mod off BSIZE) at 1 by done. symmetry. apply Z.div_unique with (off mod BSIZE + Z.of_nat i); lia. }
    assert (Hmod : (off + Z.of_nat i) mod BSIZE = off mod BSIZE + Z.of_nat i).
    { pose proof (Z.div_mod (off + Z.of_nat i) BSIZE) as E. rewrite Hd in E. pose proof (Z.div_mod off BSIZE). lia. }
    rewrite Hd, Hmod. rewrite Z2Nat.inj_add, Nat2Z.id by lia.
    destruct (lookup_lt_is_Some_2 (cur x (blk x ip (off / BSIZE))) (Z.to_nat (off mod BSIZE) + i)) as [v Hv].
    { rewrite Hlen. unfold BSIZE in *. lia. }
    rewrite Hv. f_equal. symmetry. by apply nth_lookup_Some.
  - rewrite lookup_take_ge, lookup_seq_ge by lia. done.
Qed.

Lemma bytes_app x ip off n m :
  0 <= n -> 0 <= m -> bytes x ip off (n + m) = bytes x ip off n ++ bytes x ip (off + n) m.
Proof.
  intros Hn Hm. unfold bytes. rewrite Z2Nat.inj_add by done. rewrite seq_app, fmap_app. f_equal.
  rewrite Nat.add_0_l. replace (seq (Z.to_nat n) (Z.to_nat m)) with (Nat.add (Z.to_nat n) <$> seq 0 (Z.to_nat m))
    by (by rewrite fmap_add_seq, Nat.add_0_r).
  rewrite <- list_fmap_compose. apply list_fmap_ext. intros i k _. cbn. f_equal. lia.
Qed.

(** What the state has to offer for a read of [n] bytes at [off]. *)
Record readable (x : fsstate) (ip : nat) (off n : Z) : Prop := {
  rb_ready : ready x;
  rb_dev : i_dev (finode ip x) = ROOTDEV;
  rb_off : 0 <= off;
  rb_mapped : mapped_range x ip off n;
  rb_full bn : mapped x ip bn -> length (cur x (blk x ip bn)) = 1024%nat
}.

Lemma same_readable x x' ip off n : same x x' -> readable x ip off n -> readable x' ip off n.
Proof.
  intros S [H1 H2 H3 H4 H5]. destruct (bio_inode x x' ip (sm_bio _ _ S)) as (E & _). split; try done.
  - by eapply same_ready.
  - by rewrite E.
  - intros k Hk. by apply (same_mapped x x'), H4.
  - intros bn (Hm1 & Hm2 & Hm3). rewrite (same_blk x x' ip bn S) in *. rewrite (sm_cur _ _ S). apply H5.
    unfold mapped, addr_of in *. by rewrite E in Hm3.
Qed.

Lemma chunk_bounds n tot off : tot < n -> 0 < chunk n tot off <= n - tot /\ off mod BSIZE + chunk n tot off <= BSIZE.
Proof. intros H. unfold chunk. pose proof (Z.mod_pos_bound off BSIZE eq_refl). unfold BSIZE in *. lia. Qed.

Lemma readi_loop_run H out fuel x ip n tot off got :
  readable x ip off (n - tot) -> locks_free H -> need n tot off < Z.of_nat fuel -> tot <= n ->
  exists x', runs H (readi_loop out fuel ip ToLocal n tot off got) x (n, got ++ bytes x ip off (n - tot)) H x' /\ same x x'.
Proof.
  revert x tot off got. induction fuel as [|fuel IH]; intros x tot off got Hr HL Hf Ht.
  { exfalso. destruct (tot <? n) eqn:E; [pose proof (need_pos n tot off E); lia|]. unfold need in Hf. rewrite E in Hf. lia. }
  pose proof (rb_ready _ _ _ _ Hr) as Hrd. cbn [readi_loop]. destruct (tot <? n) eqn:E.
  - pose proof (need_step n tot off E) as Hs. pose proof (rb_off _ _ _ _ Hr) as Ho.
    apply Z.ltb_lt in E. destruct (chunk_bounds n tot off E) as [Hm Hle].
    assert (Hmap : mapped x ip (off / BSIZE)) by (apply (rb_mapped _ _ _ _ Hr); lia).
    destruct (bmap_run H x ip (off / BSIZE) Hrd HL (rb_dev _ _ _ _ Hr) Hmap) as (x1 & R1 & S1).
    pose proof (same_ready _ _ Hrd S1) as Hrd1. pose proof Hmap as (_ & Hb & _).
    destruct (read_block H x1 (blk x ip (off / BSIZE)) Hrd1 HL ltac:(lia)) as (b & x2 & x3 & R2 & D2 & BO & R3 & S3).
    pose proof (same_trans _ _ _ S1 S3) as S13. destruct (bio_inode x x1 ip (sm_bio _ _ S1)) as (Ei & _).
    assert (Hr3 : readable x3 ip (off + chunk n tot off) (n - (tot + chunk n tot off))).
    { apply (same_readable x x3); [done|]. destruct Hr as [G1 G2 G3 G4 G5]. split; try done; [lia|].
      intros k Hk. apply G4. lia. }
    set (m := chunk n tot off) in *.
    destruct (IH x3 (tot + m) (off + m) (got ++ bytes x ip off m) Hr3 HL ltac:(lia) ltac:(lia)) as (x4 & R4 & S4).
    exists x4. split; [|by eapply same_trans]. eapply runs_bind; [exact R1|cbv beta].
    rewrite (proj2 (Z.eqb_neq (blk x ip (off / BSIZE)) 0)) by lia. rstep. rewrite Ei, (rb_dev _ _ _ _ Hr).
    eapply runs_bind; [exact R2|cbv beta]. rstep. rewrite D2, (sm_cur _ _ S1). cbv zeta.
    rewrite block_part_bytes by (try lia; by apply (rb_full _ _ _ _ Hr)).
    eapply runs_bind; [apply runs_ret|cbv beta]. change (0 =? -1) with false. cbv iota.
    eapply runs_bind; [exact R3|cbv beta]. 
    replace (got ++ bytes x ip off (n - tot))
      with ((got ++ bytes x ip off m) ++ bytes x3 ip (off + m) (n - (tot + m))); [exact R4|].
    rewrite <- app_assoc. f_equal. replace (n - tot) with (m + (n - (tot + m))) by lia.
    rewrite bytes_app by lia. f_equal. replace (m + (n - (tot + m)) - m) with (n - (tot + m)) by lia. unfold bytes. apply list_fmap_ext. intros. by rewrite (same_byte x x3).
  - apply Z.ltb_ge in E. exists x. split; [|apply same_refl, Hrd]. replace tot with n by lia.
    replace (n - n) with 0 by lia. rewrite app_nil_r. apply runs_ret.
Qed.

(** How many bytes a read gets. *)
Definition read_count (size off n : Z) : Z := if off >? size then 0 else Z.min n (size - off).

Lemma readi_run H x ip off n :
  0 <= off -> 0 <= n -> off + n < 2 ^ 32 -> 0 <= i_size (finode ip x) < 2 ^ 32 ->
  let k := read_count (i_size (finode ip x)) off n in
  readable x ip off k -> locks_free H ->
  exists x', runs H (readi ip ToLocal off n) x (k, bytes x ip off k) H x' /\ same x x'.
Proof.
  intros Ho Hn Hlt Hsz k Hr HL. unfold readi. cbv zeta.
  rewrite (u32_small off), (u32_small n), (u32_small (off + n)) by lia.
  pose proof (rd_cache _ (rb_ready _ _ _ _ Hr)) as Hc.
  rewrite (proj2 (Z.ltb_ge (off + n) off)) by lia. unfold read_count in k. destruct (off >? i_size (finode ip x)) eqn:E.
  - exists x. split; [|by apply same_refl]. rstep. rewrite orb_false_r, E. apply runs_ret.
  - rewrite Z.gtb_ltb in E. apply Z.ltb_ge in E.
    destruct (readi_loop_run H block (rounds k) x ip k 0 off []) as (x' & R & S).
    + by rewrite Z.sub_0_r.
    + done.
    + apply need_rounds. lia.
    + lia.
    + exists x'. split; [|done]. rewrite Z.sub_0_r in R. rstep.
      rewrite orb_false_r, (Z.gtb_ltb off), (proj2 (Z.ltb_ge _ _)) by done.
      replace (if off + n >? i_size (finode ip x) then _ else n) with k; [exact R|].
      unfold k. rewrite Z.gtb_ltb. destruct (Z.ltb_spec (i_size (finode ip x)) (off + n)); lia.
Qed.

(** ** Writing a block in a transaction *)

(** A transaction that has logged the blocks [bs] and may log [k] more. *)
Record tx (x : fsstate) (st : Z) (bs : list Z) (k : nat) : Prop := {
  tx_cache : cache x;
  tx_idle : idle x;
  tx_room : (used x + k < NBUF)%nat;
  tx_refs n : refs x n + Z.of_nat k + 1 < 2 ^ 31;
  tx_log : log_vars (fs_log x) st bs;
  tx_len : length (lg_block (fs_log x)) = 30%nat;
  tx_out : 1 <= lg_outstanding (fs_log x);
  tx_pin b : b ∈ bs -> 1 <= refs x b;
  tx_size : (length bs + k <= 30)%nat
}.

Lemma tx_ready x st bs k : tx x st bs k -> ready x.
Proof. intros [H1 H2 H3 H4 H5 H6 H7 H8 H9]. split; try done; [lia|]. intros n. specialize (H4 n). lia. Qed.

(** Only the cache and the log changed. *)
Definition logged (x x' : fsstate) : Prop :=
  x' = set_fs_buf (fs_buf x') (set_fs_lru (fs_lru x') (set_fs_log (fs_log x') x)).

Definition with_block (bs : list Z) (n : Z) : list Z := if decide (n ∈ bs) then bs else bs ++ [n].

Lemma log_vars_add lg st bs n :
  log_vars lg st bs -> length (lg_block lg) = 30%nat -> (length bs < 30)%nat -> n ∉ bs -> 0 <= n < 2 ^ 31 ->
  outside st n ->
  log_vars (set_lg_n (lg_n lg + 1) (set_lg_block (<[length bs := n]> (lg_block lg)) lg)) st (bs ++ [n]).
Proof.
  intros [H1 H2 H3 H4 H5 H6 H7 H8] Hlen Hlt Hn Hr Ho. split; fsimpl; try done.
  - rewrite H3, length_app. cbn. lia.
  - intros i b Hi. apply nth_lookup_Some. apply lookup_app_Some in Hi as [Hi|[Hge Hi]].
    + pose proof (lookup_lt_Some _ _ _ Hi) as Hl. rewrite list_lookup_insert_ne by lia.
      specialize (H4 i b Hi). destruct (lookup_lt_is_Some_2 (lg_block lg) i ltac:(lia)) as [v Hv].
      rewrite Hv. f_equal. rewrite <- H4. symmetry. by apply nth_lookup_Some.
    + apply list_lookup_singleton_Some in Hi as [Hi <-]. replace i with (length bs) by lia.
      by rewrite list_lookup_insert_eq by lia.
  - rewrite length_app. cbn. lia.
  - apply NoDup_app. split_and!; [done| |apply NoDup_singleton]. intros b Hb ->%list_elem_of_singleton. done.
  - intros b [Hb|Hb%list_elem_of_singleton]%elem_of_app; [by apply H8|]. subst b. done.
Qed.

(** The scan of log_write(). *)
Lemma log_scan_run H x st bs n :
  log_vars (fs_log x) st bs ->
  exists r, runs H (for_loop (entries (lg_n (fs_log x))) (fun i =>
      v <- log_block i ;; if u32 v =? n then retM (Return i) else retM Continue)) x r H x /\
    match r with Some i => bs !! i = Some n | None => n ∉ bs end.
Proof.
  intros LV. unfold entries. rewrite (lv_n _ _ _ LV), Nat2Z.id.
  assert (Hbody : forall i b, bs !! i = Some b ->
    runs H (v <- log_block i ;; if u32 v =? n then retM (Return i) else retM Continue) x
      (if b =? n then Return i else Continue) H x).
  { intros i b Hi. eapply runs_bind; [apply runs_log_block|cbv beta]. rewrite (lv_blocks _ _ _ LV i b Hi).
    rewrite u32_small by (pose proof (lv_out _ _ _ LV b (list_elem_of_lookup_2 _ _ _ Hi)); lia).
    destruct (b =? n); apply runs_ret. }
  destruct (decide (n ∈ bs)) as [Hin|Hin].
  - apply list_elem_of_lookup in Hin as [i Hi]. pose proof (lookup_lt_Some _ _ _ Hi) as Hlt.
    exists (Some i). split; [|done]. replace (seq 0 (length bs)) with (seq 0 i ++ i :: seq (S i) (length bs - S i)).
    + apply runs_scan.
      * apply Forall_forall. intros j Hj%elem_of_seq. destruct (lookup_lt_is_Some_2 bs j ltac:(lia)) as [b Hb].
        specialize (Hbody j b Hb). destruct (Z.eqb_spec b n) as [Eb|]; [|done]. subst b.
        pose proof (NoDup_lookup _ _ _ _ (lv_nodup _ _ _ LV) Hb Hi). lia.
      * specialize (Hbody i n Hi). by rewrite Z.eqb_refl in Hbody.
    + replace (length bs) with (i + S (length bs - S i))%nat at 2 by lia. by rewrite seq_app.
  - exists None. split; [|done]. apply runs_scan_none, Forall_forall. intros j Hj%elem_of_seq.
    destruct (lookup_lt_is_Some_2 bs j ltac:(lia)) as [b Hb]. specialize (Hbody j b Hb).
    destruct (Z.eqb_spec b n) as [Eb|]; [|done]. subst b. exfalso. by apply Hin, (list_elem_of_lookup_2 _ j).
Qed.

(** log_write() of a block the caller holds. *)
Record log_written (x x' : fsstate) (b : nat) (n st : Z) (bs : list Z) : Prop := {
  lw_cache : cache x';
  lw_buf : has_buf x' b n;
  lw_logged : logged x x';
  lw_cur m : cur x' m = cur x m;
  lw_refs m : refs x' m = refs x m + (if m =? n then if decide (n ∈ bs) then 0 else 1 else 0);
  lw_lock m : block_lock x' m = block_lock x m;
  lw_used : used x' = used x;
  lw_vars : log_vars (fs_log x') st (with_block bs n);
  lw_len : length (lg_block (fs_log x')) = length (lg_block (fs_log x));
  lw_out : lg_outstanding (fs_log x') = lg_outstanding (fs_log x)
}.

Lemma insert_same_block lg st bs i n :
  log_vars lg st bs -> bs !! i = Some n -> length (lg_block lg) = 30%nat -> 0 <= n < 2 ^ 31 ->
  set_lg_block (<[i := s32 n]> (lg_block lg)) lg = lg.
Proof.
  intros LV Hi Hlen Hn. rewrite s32_small by lia. rewrite list_insert_id; [by destruct lg|].
  pose proof (lookup_lt_Some _ _ _ Hi). pose proof (lv_size _ _ _ LV).
  destruct (lookup_lt_is_Some_2 (lg_block lg) i ltac:(lia)) as [v Hv]. rewrite Hv. f_equal.
  rewrite <- (lv_blocks _ _ _ LV i n Hi). symmetry. by apply nth_lookup_Some.
Qed.

Lemma runs_put_log H x f : runs H (put_log f) x tt H (set_fs_log (f (fs_log x)) x).
Proof. apply (runs_putf H x (fun x => set_fs_log (f (fs_log x)) x)). Qed.

(** log_write() of a block that is not in the log yet: it is pinned and appended. *)
Lemma log_append_run H1 x b n st bs :
  let x1 := set_fs_log (set_lg_block (<[length bs := s32 n]> (lg_block (fs_log x))) (fs_log x)) x in
  cache x -> locks_free H1 -> has_buf x b n -> log_vars (fs_log x) st bs -> n ∉ bs ->
  length (lg_block (fs_log x)) = 30%nat -> (length bs < 30)%nat -> 0 <= n < 2 ^ 31 -> outside st n -> refs x n + 1 < 2 ^ 31 ->
  exists x', runs H1 (bpin b ;; put_log (fun l => set_lg_n (lg_n l + 1) l)) x1 tt H1 x' /\ log_written x x' b n st bs.
Proof.
  intros x1 Hc HL' Hb LV Hs Hlen Hlt Hn Ho Hr. pose proof (lv_n _ _ _ LV) as Hln.
  destruct (set_log_cache x (set_lg_block (<[length bs := s32 n]> (lg_block (fs_log x))) (fs_log x)) Hc) as (C1 & U1 & F1 & K1 & N1 & B1).
  fold x1 in C1, U1, F1, K1, N1, B1. pose proof (B1 b n Hb) as Hb1.
  destruct (bpin_run H1 x1 b n C1 HL' Hb1 ltac:(rewrite F1; lia)) as (x2 & R2 & Hb2 & V2).
  pose proof (vs_bio _ _ _ _ _ _ V2) as BO. destruct (bio_inode x1 x2 0 BO) as (_ & _ & El).
  destruct (set_log_cache x2 (set_lg_n (lg_n (fs_log x2) + 1) (fs_log x2)) (vs_cache _ _ _ _ _ _ V2)) as (C3 & U3 & F3 & K3 & N3 & B3).
  set (x3 := set_fs_log (set_lg_n (lg_n (fs_log x2) + 1) (fs_log x2)) x2) in *.
  assert (El3 : fs_log x3 = set_lg_n (lg_n (fs_log x) + 1) (set_lg_block (<[length bs := n]> (lg_block (fs_log x))) (fs_log x))).
  { unfold x3. fsimpl. rewrite El. unfold x1. fsimpl. rewrite s32_small by lia. done. }
  destruct (has_buf_refs x b n Hc Hb) as [_ Hr1]. destruct (has_buf_cur x b n Hb) as [_ Hlk].
  assert (Ex3 : x3 = set_fs_log (fs_log x3) x2) by reflexivity.
  exists x3. split.
  { eapply runs_bind; [exact R2|cbv beta]. exact (runs_put_log H1 x2 _). }
  clearbody x3. split.
  - exact C3.
  - by apply B3.
  - unfold logged, bio_only in *. rewrite Ex3. rewrite BO. unfold x1. fsimpl. reflexivity.
  - intros m. rewrite U3, (vs_cur _ _ _ _ _ _ V2), !U1. destruct (Z.eqb_spec m n) as [Em|]; [by rewrite Em|done].
  - intros m. rewrite F3, (vs_refs _ _ _ _ _ _ V2), !F1, decide_False by done.
    destruct (Z.eqb_spec m n) as [Em|]; [by rewrite Em|lia].
  - intros m. rewrite K3, (vs_lock _ _ _ _ _ _ V2), K1. destruct (Z.eqb_spec m n) as [Em|]; [by rewrite Em, Hlk|done].
  - rewrite N3, <- N1. pose proof (vs_used _ _ _ _ _ _ V2) as U. rewrite F1 in U.
    unfold nz in U. rewrite !(proj2 (Z.eqb_neq _ _)) in U by lia. lia.
  - rewrite El3. unfold with_block. rewrite decide_False by done. by apply log_vars_add.
  - rewrite El3. fsimpl. by rewrite length_insert.
  - rewrite El3. done.
Qed.

Lemma log_write_run H x b n st bs :
  cache x -> locks_free H -> LLog ∉ H -> has_buf x b n -> log_vars (fs_log x) st bs ->
  length (lg_block (fs_log x)) = 30%nat -> (length bs < 30)%nat -> 1 <= lg_outstanding (fs_log x) ->
  0 <= n < 2 ^ 31 -> outside st n -> refs x n + 1 < 2 ^ 31 ->
  exists x', runs H (log_write b) x tt H x' /\ log_written x x' b n st bs.
Proof.
  intros Hc HL HLL Hb LV Hlen Hlt Hout Hn Ho Hr.
  assert (HH : ({[LLog]} ∪ H) ∖ {[LLog]} = H) by set_solver.
  assert (HL' : locks_free ({[LLog]} ∪ H)) by (destruct HL as [L1 L2]; split; [set_solver|intros i; specialize (L2 i); set_solver]).
  assert (HC : LLog ∈ ({[LLog]} ∪ H : gset lockid)) by set_solver.
  set (H1 := {[LLog]} ∪ H) in *.
  destruct (has_buf_lt x b n Hc Hb) as (_ & _ & Hbn). pose proof (lv_n _ _ _ LV) as Hln.
  destruct (log_scan_run H1 x st bs n LV) as (r & Rs & Hs).
  set (i := default (Z.to_nat (lg_n (fs_log x))) r).
  set (x1 := set_fs_log (set_lg_block (<[i := s32 n]> (lg_block (fs_log x))) (fs_log x)) x).
  destruct (set_log_cache x (set_lg_block (<[i := s32 n]> (lg_block (fs_log x))) (fs_log x)) Hc) as (C1 & U1 & F1 & K1 & N1 & B1).
  fold x1 in C1, U1, F1, K1, N1, B1.
  enough (exists x', runs H1 (whenM (Z.of_nat i =? lg_n (fs_log x)) (bpin b ;; put_log (fun l => set_lg_n (lg_n l + 1) l))) x1 tt H1 x' /\
    log_written x x' b n st bs) as (x' & Rw & W).
  { exists x'. split; [|done]. unfold log_write. eapply runs_bind; [apply runs_acquire; [done|by intros]|cbv beta].
    eapply runs_bind; [apply runs_get_log|cbv beta]. unfold id. rewrite Z.geb_leb, (proj2 (Z.leb_gt _ _)).
    2:{ rewrite Hln. unfold LOGBLOCKS, MAXOPBLOCKS. lia. }
    rewrite (proj2 (Z.ltb_ge _ _)) by done. rstep. rewrite Hbn.
    eapply runs_bind; [exact Rs|cbv beta zeta]. fold i. eapply runs_bind; [apply runs_put_log|cbv beta].
    eapply runs_bind; [exact Rw|cbv beta]. rewrite <- HH. by apply runs_release. }
  clear Rs. clearbody H1. destruct r as [j|]; cbn [default] in i; unfold id in i.
  - (* the block is already in the log *)
    pose proof (lookup_lt_Some _ _ _ Hs) as Hj. subst i. unfold x1 in *.
    rewrite (insert_same_block _ st bs j n LV Hs Hlen Hn) in *. replace (set_fs_log (fs_log x) x) with x by (by destruct x).
    exists x. split; [rewrite (proj2 (Z.eqb_neq (Z.of_nat j) _)) by lia; apply runs_ret|].
    assert (Hin : n ∈ bs) by (by eapply list_elem_of_lookup_2).
    split; [exact Hc|exact Hb|unfold logged; by destruct x|by intros| |by intros|reflexivity| |reflexivity|reflexivity].
    + intros m. rewrite decide_True by exact Hin. destruct (m =? n); lia.
    + unfold with_block. rewrite decide_True by exact Hin. exact LV.
  - (* it is new *)
    assert (Ei : i = length bs) by (unfold i; lia). unfold x1. rewrite Ei. rewrite (proj2 (Z.eqb_eq _ _)) by lia. cbn [whenM].
    by apply log_append_run.
Qed.

(** The transaction wrote [D] to block [n]. *)
Record wrote (x x' : fsstate) (n : Z) (D : list Z) (st : Z) (bs : list Z) (k : nat) : Prop := {
  wr_tx : tx x' st (with_block bs n) k;
  wr_logged : logged x x';
  wr_cur m : cur x' m = if m =? n then D else cur x m
}.

Lemma with_block_size bs n k : (length bs + S k <= 30)%nat -> (length (with_block bs n) + k <= 30)%nat.
Proof. unfold with_block. case_decide; [lia|]. rewrite length_app. cbn. lia. Qed.

Lemma nz_pos r : 1 <= r -> nz r = 1%nat.
Proof. intros. unfold nz. by rewrite (proj2 (Z.eqb_neq r 0)) by lia. Qed.

Lemma update_block H x n st bs k :
  tx x st bs (S k) -> locks_free H -> LLog ∉ H -> 0 <= n < 2 ^ 31 -> outside st n ->
  exists b x1, runs H (bread ROOTDEV n) x b H x1 /\ b_data (fbuf b x1) = cur x n /\ bio_only x x1 /\
    (b < length (fs_buf x1))%nat /\
    forall D, exists x2 x3, runs H (log_write b) (upd_buf b (set_b_data D) x1) tt H x2 /\
      runs H (brelse b) x2 tt H x3 /\ wrote x x3 n D st bs k.
Proof.
  intros T HL HLL Hn Ho. pose proof (tx_ready _ _ _ _ T) as [_ Hid _ _]. destruct T as [Hc _ Hu Hr LV Hlen Hout Hpin Hsz].
  pose proof (Hr n) as Hrn. pose proof (cache_range x n Hc) as Hr0.
  destruct (bread_run H x n Hc HL ltac:(lia) (Hid n) ltac:(lia) ltac:(lia)) as (b & x1 & R1 & B1 & D1 & V1).
  pose proof V1 as [C1 BO1 Ec1 Er1 El1 Eu1 _]. destruct (bio_inode x x1 0 BO1) as (_ & _ & EL).
  rewrite (nz_pos (refs x n + 1)) in Eu1 by lia.
  destruct (has_buf_lt x1 b n C1 B1) as (Hb & _ & _).
  exists b, x1. split; [exact R1|]. split; [exact D1|]. split; [exact BO1|]. split; [by rewrite (ca_len _ C1)|]. intros D.
  destruct (put_data_run H x1 b n D C1 B1) as (_ & B1' & V1'). set (x1' := upd_buf b (set_b_data D) x1) in *.
  clearbody x1'. pose proof V1' as [C1' BO1' Ec1' Er1' El1' Eu1' _]. destruct (bio_inode x1 x1' 0 BO1') as (_ & _ & EL').
  assert (Rn : refs x1' n = refs x n + 1) by (rewrite Er1', Z.eqb_refl, Er1, Z.eqb_refl; done).
  assert (ELx : fs_log x1' = fs_log x) by (by rewrite EL', EL).
  destruct (log_write_run H x1' b n st bs C1' HL HLL B1') as (x2 & R2 & W);
    [by rewrite ELx|by rewrite ELx|lia|by rewrite ELx|done|done|lia|].
  destruct W as [C2 B2 LG2 Ec2 Er2 El2 Eu2 LV2 Hlen2 Hout2].
  set (dl := if decide (n ∈ bs) then 0 else 1) in *.
  assert (Hdl : 1 <= refs x n + dl).
  { unfold dl. destruct (decide (n ∈ bs)) as [Hin|]; [specialize (Hpin n Hin)|]; lia. }
  assert (Rn2 : refs x2 n = refs x n + 1 + dl) by (rewrite Er2, Z.eqb_refl, Rn; done).
  destruct (brelse_run H x2 b n C2 HL B2 ltac:(lia)) as (x3 & R3 & V3).
  exists x2, x3. split; [exact R2|]. split; [exact R3|]. destruct V3 as [C3 BO3 Ec3 Er3 El3 Eu3 _].
  destruct (bio_inode x2 x3 0 BO3) as (_ & _ & EL3).
  assert (Hcur : forall m, cur x3 m = if m =? n then D else cur x m).
  { intros m. rewrite Ec3, !Ec2, !Ec1', !Ec1. destruct (m =? n) eqn:E; [|done]. by rewrite Z.eqb_refl. }
  assert (Href : forall m, refs x3 m = refs x m + (if m =? n then dl else 0)).
  { intros m. specialize (Er3 m). specialize (Er2 m). specialize (Er1' m). specialize (Er1 m).
    destruct (Z.eqb_spec m n) as [Em|]; [rewrite Em in *|]; lia. }
  assert (Husd : (used x3 <= used x + 1)%nat).
  { rewrite Rn2, (nz_pos (refs x n + 1 + dl)), nz_pos in Eu3 by lia. unfold nz in Eu1'. lia. }
  split; [|..].
  - split.
    + exact C3.
    + intros m. rewrite El3, El2, El1', El1. destruct (m =? n); [done|apply Hid].
    + lia.
    + intros m. rewrite Href. specialize (Hr m). unfold dl. destruct (m =? n), (decide (n ∈ bs)); lia.
    + by rewrite EL3.
    + rewrite EL3, Hlen2, ELx. exact Hlen.
    + rewrite EL3, Hout2, ELx. exact Hout.
    + intros m Hm. rewrite Href. destruct (Z.eqb_spec m n) as [Em|Hne]; [rewrite Em; lia|].
      rewrite Z.add_0_r. apply Hpin. unfold with_block in Hm. destruct (decide (n ∈ bs)); [done|].
      apply elem_of_app in Hm as [|Hm%list_elem_of_singleton]; done.
    + by apply with_block_size.
  - unfold logged, bio_only in *. rewrite BO3. rewrite LG2. rewrite BO1'. rewrite BO1. fsimpl. reflexivity.
  - exact Hcur.
Qed.

(** A store to a buffer's data as a new value. *)
Lemma put_data_as H x b f D :
  (b < length (fs_buf x))%nat -> f (b_data (fbuf b x)) = D ->
  runs H (put_data b f) x tt H (upd_buf b (set_b_data D) x).
Proof.
  intros Hb <-. unfold put_data, put_buf.
  rewrite (upd_buf_const x b (set_b_data (f (b_data (fbuf b x))))) by done.
  rewrite <- (upd_buf_const x b (fun y => set_b_data (f (b_data y)) y)) by done. apply runs_putf.
Qed.

(** ** writei() *)

Lemma tx_le x st bs k k' : tx x st bs k -> (k' <= k)%nat -> tx x st bs k'.
Proof.
  intros [H1 H2 H3 H4 H5 H6 H7 H8 H9] Hle. split; try done; try lia. intros n. specialize (H4 n). lia.
Qed.

(** The block of the inode on disk. *)
Definition iblk (x : fsstate) (ip : nat) : Z := IBLOCK (i_inum (finode ip x)) (fs_sb x).

(** The blocks of a file are apart from each other, from the log and from the inode's. *)
Record layout (x : fsstate) (ip : nat) (st : Z) : Prop := {
  ly_dev : i_dev (finode ip x) = ROOTDEV;
  ly_full bn : mapped x ip bn -> length (cur x (blk x ip bn)) = 1024%nat;
  ly_inj bn bn' : mapped x ip bn -> mapped x ip bn' -> blk x ip bn = blk x ip bn' -> bn = bn';
  ly_out bn : mapped x ip bn -> blk x ip bn < 2 ^ 31 /\ outside st (blk x ip bn);
  ly_ind bn : mapped x ip bn -> blk x ip bn <> addr_of x ip NDIRECT;
  ly_inode bn : mapped x ip bn -> blk x ip bn <> iblk x ip;
  ly_ind_inode : addr_of x ip NDIRECT <> iblk x ip;
  ly_iblk : 0 <= iblk x ip < 2 ^ 31 /\ outside st (iblk x ip)
}.

Lemma logged_inode x x' i : logged x x' -> finode i x' = finode i x /\ fs_sb x' = fs_sb x.
Proof. unfold logged. intros ->. done. Qed.

(** A write to another block than the indirect one leaves the addresses alone. *)
Lemma wrote_blk x x' ip n D bn :
  logged x x' -> (forall m, cur x' m = if m =? n then D else cur x m) -> n <> addr_of x ip NDIRECT ->
  blk x' ip bn = blk x ip bn /\ addr_of x' ip NDIRECT = addr_of x ip NDIRECT.
Proof.
  intros L Hcur Hne. destruct (logged_inode x x' ip L) as [E _]. unfold blk, addr_of in *. rewrite E, Hcur.
  by rewrite (proj2 (Z.eqb_neq _ n)) by congruence.
Qed.

Lemma wrote_layout x x' ip st n D :
  layout x ip st -> logged x x' -> (forall m, cur x' m = if m =? n then D else cur x m) ->
  n <> addr_of x ip NDIRECT -> (length (cur x n) = 1024%nat -> length D = 1024%nat) ->
  layout x' ip st /\ (forall bn, mapped x' ip bn <-> mapped x ip bn).
Proof.
  intros [H1 H2 H3 H4 H5 H6 H7 H8] L Hcur Hne HD. destruct (logged_inode x x' ip L) as [E Esb].
  assert (Eb : forall bn, blk x' ip bn = blk x ip bn) by (intros; by eapply wrote_blk).
  assert (Ea : addr_of x' ip NDIRECT = addr_of x ip NDIRECT) by (unfold addr_of; by rewrite E).
  assert (Ei : iblk x' ip = iblk x ip) by (unfold iblk; by rewrite E, Esb).
  assert (Hm : forall bn, mapped x' ip bn <-> mapped x ip bn) by (intros bn; unfold mapped; by rewrite Eb, Ea).
  split; [|done]. split; rewrite ?Ea, ?Ei; try done.
  - by rewrite E.
  - intros bn Hbn. rewrite Eb, Hcur. destruct (Z.eqb_spec (blk x ip bn) n) as [En|].
    + apply HD. rewrite <- En. by apply H2, Hm.
    + by apply H2, Hm.
  - intros bn bn' G1%Hm G2%Hm. rewrite !Eb. by apply H3.
  - intros bn G%Hm. rewrite Eb. by apply H4.
  - intros bn G%Hm. rewrite Eb. by apply H5.
  - intros bn G%Hm. rewrite Eb. by apply H6.
Qed.

Lemma nth_put_bytes d o bs j :
  0 <= o -> (Z.to_nat o + length bs <= length d)%nat -> 0 <= j ->
  nth (Z.to_nat j) (put_bytes d o bs) 0 =
  if (o <=? j) && (j <? o + Z.of_nat (length bs)) then nth (Z.to_nat (j - o)) bs 0 else nth (Z.to_nat j) d 0.
Proof.
  intros Ho Hlen Hj. unfold put_bytes. rewrite !nth_lookup.
  destruct (Z.leb_spec o j) as [H1|H1]; cbn [andb].
  - destruct (Z.ltb_spec j (o + Z.of_nat (length bs))) as [H2|H2].
    + rewrite list_lookup_inserts by lia. do 3 f_equal. lia.
    + by rewrite list_lookup_inserts_ge by lia.
  - by rewrite list_lookup_inserts_lt by lia.
Qed.

(** Storing a piece of the data at [off] in its block. *)
Lemma wrote_byte x x' ip st off piece D j :
  layout x ip st -> logged x x' -> 0 <= off -> mapped x ip (off / BSIZE) ->
  off mod BSIZE + Z.of_nat (length piece) <= BSIZE ->
  D = put_bytes (cur x (blk x ip (off / BSIZE))) (off mod BSIZE) piece ->
  (forall m, cur x' m = if m =? blk x ip (off / BSIZE) then D else cur x m) ->
  0 <= j -> mapped x ip (j / BSIZE) ->
  byte x' ip j = if (off <=? j) && (j <? off + Z.of_nat (length piece))
                 then nth (Z.to_nat (j - off)) piece 0 else byte x ip j.
Proof.
  intros HY L Ho Hmo Hle -> Hcur Hj Hmj. pose proof (ly_full _ _ _ HY _ Hmo) as Hlen.
  destruct (wrote_blk x x' ip _ _ (j / BSIZE) L Hcur (ly_ind _ _ _ HY _ Hmo)) as [Eb _].
  unfold byte. rewrite Eb, Hcur. pose proof (Z.mod_pos_bound off BSIZE eq_refl) as Hob.
  pose proof (Z.mod_pos_bound j BSIZE eq_refl) as Hjb.
  pose proof (Z.div_mod j BSIZE ltac:(done)) as Dj. pose proof (Z.div_mod off BSIZE ltac:(done)) as Do.
  destruct (Z.eqb_spec (blk x ip (j / BSIZE)) (blk x ip (off / BSIZE))) as [Es|Es].
  - apply (ly_inj _ _ _ HY) in Es; [|done..]. rewrite Es in *.
    rewrite nth_put_bytes by (unfold BSIZE in *; lia).
    replace (off mod BSIZE <=? j mod BSIZE) with (off <=? j) by (destruct (Z.leb_spec off j), (Z.leb_spec (off mod BSIZE) (j mod BSIZE)); lia).
    replace (j mod BSIZE <? off mod BSIZE + Z.of_nat (length piece)) with (j <? off + Z.of_nat (length piece))
      by (destruct (Z.ltb_spec j (off + Z.of_nat (length piece))), (Z.ltb_spec (j mod BSIZE) (off mod BSIZE + Z.of_nat (length piece))); lia).
    by replace (j mod BSIZE - off mod BSIZE) with (j - off) by lia.
  - assert (j / BSIZE <> off / BSIZE) by (intros G; by rewrite G in Es).
    destruct (Z.leb_spec off j); cbn [andb]; [|done]. destruct (Z.ltb_spec j (off + Z.of_nat (length piece))); [|done].
    exfalso. unfold BSIZE in *. lia.
Qed.

Lemma same_logged x x' : same x x' -> logged x x'.
Proof. intros S. pose proof (sm_bio _ _ S) as B. unfold logged, bio_only in *. rewrite B. fsimpl. by destruct x. Qed.

Lemma logged_trans x y z : logged x y -> logged y z -> logged x z.
Proof. unfold logged. intros H1 H2. rewrite H2. rewrite H1. fsimpl. reflexivity. Qed.

Lemma same_tx x x' st bs k : tx x st bs k -> same x x' -> tx x' st bs k.
Proof.
  intros [H1 H2 H3 H4 H5 H6 H7 H8 H9] S. destruct (bio_inode x x' 0 (sm_bio _ _ S)) as (_ & _ & E).
  split; rewrite ?E; try done.
  - apply S.
  - intros m. rewrite (sm_lock _ _ S). apply H2.
  - by rewrite (sm_used _ _ S).
  - intros m. rewrite (sm_refs _ _ S). apply H4.
  - intros b Hb. rewrite (sm_refs _ _ S). by apply H8.
Qed.

Lemma same_layout x x' ip st : layout x ip st -> same x x' -> layout x' ip st.
Proof.
  intros HY S. destruct (wrote_layout x x' ip st (addr_of x ip NDIRECT - 1) (cur x (addr_of x ip NDIRECT - 1)) HY) as [HY' _].
  - by apply same_logged.
  - intros m. rewrite (sm_cur _ _ S). destruct (Z.eqb_spec m (addr_of x ip NDIRECT - 1)) as [Em|]; [by rewrite Em|done].
  - lia.
  - done.
  - done.
Qed.

(** The state after the bytes [src] from [tot] on were written at [off]. *)
Record filled_in (x x' : fsstate) (ip : nat) (st off n tot : Z) (src : list Z) : Prop := {
  fi_logged : logged x x';
  fi_layout : layout x' ip st;
  fi_mapped bn : mapped x' ip bn <-> mapped x ip bn;
  fi_byte j : 0 <= j -> mapped x ip (j / BSIZE) ->
    byte x' ip j = if (off <=? j) && (j <? off + (n - tot)) then nth (Z.to_nat (tot + (j - off))) src 0 else byte x ip j;
  fi_blk bn : blk x' ip bn = blk x ip bn;
  fi_other m : (forall bn, mapped x ip bn -> m <> blk x ip bn) -> cur x' m = cur x m
}.

Lemma filled_step x x1 x2 ip st off n tot m src :
  0 <= tot -> 0 < m -> tot + m <= n -> n = Z.of_nat (length src) ->
  filled_in x x1 ip st off m 0 (take (Z.to_nat m) (drop (Z.to_nat tot) src)) ->
  filled_in x1 x2 ip st (off + m) n (tot + m) src -> filled_in x x2 ip st off n tot src.
Proof.
  intros Ht Hm Hle Hn [L1 Y1 M1 B1 K1 O1] [L2 Y2 M2 B2 K2 O2].
  split; [by eapply logged_trans|done| | |by intros; rewrite K2|].
  - intros bn. by rewrite M2.
  - intros j Hj Hmj. rewrite B2; [|done|by apply M1]. rewrite B1 by done.
    destruct (Z.leb_spec (off + m) j); destruct (Z.ltb_spec j (off + m + (n - (tot + m)))); cbn [andb].
    1: rewrite (proj2 (Z.leb_le off j)), (proj2 (Z.ltb_lt j (off + (n - tot)))) by lia; cbn; f_equal; lia.
    1: rewrite (proj2 (Z.ltb_ge j (off + (m - 0)))), (proj2 (Z.ltb_ge j (off + (n - tot)))), !andb_false_r by lia; done.
    all: destruct (Z.leb_spec off j); cbn [andb]; [|done].
    all: rewrite (proj2 (Z.ltb_lt j (off + (m - 0)))), (proj2 (Z.ltb_lt j (off + (n - tot)))) by lia.
    all: rewrite !nth_lookup, lookup_take_lt, lookup_drop by lia; do 3 f_equal; lia.
  - intros m' Hne. rewrite O2, O1; [done|done|]. intros bn Hb. rewrite K1. by apply Hne, M1.
Qed.

Lemma need_nat n tot off :
  (tot <? n) = true -> exists r, Z.to_nat (need n tot off) = S r /\
    (Z.to_nat (need n (tot + chunk n tot off) (off + chunk n tot off)) <= r)%nat.
Proof.
  intros E. pose proof (need_pos n tot off E). pose proof (need_step n tot off E).
  exists (Z.to_nat (need n tot off) - 1)%nat. lia.
Qed.

Lemma filled_start x ip st off n src : layout x ip st -> filled_in x x ip st off n n src.
Proof.
  intros HY. split; [unfold logged; by destruct x|done|done| |done|done]. intros j Hj _.
  replace (off + (n - n)) with off by lia. destruct (Z.leb_spec off j), (Z.ltb_spec j off); cbn; try done. lia.
Qed.

Lemma writei_loop_run H out fuel x ip st lg src n tot off k :
  layout x ip st -> tx x st lg (Z.to_nat (need n tot off) + k) -> locks_free H -> LLog ∉ H ->
  0 <= off -> 0 <= tot <= n -> n = Z.of_nat (length src) -> mapped_range x ip off (n - tot) ->
  need n tot off < Z.of_nat fuel ->
  exists x' lg', runs H (writei_loop out fuel ip (FromLocal src) n tot off) x (n, off + (n - tot)) H x' /\
    tx x' st lg' k /\ filled_in x x' ip st off n tot src.
Proof.
  revert x lg tot off. induction fuel as [|fuel IH]; intros x lg tot off HY T HL HLL Ho Ht Hn Hmr Hf.
  { exfalso. destruct (tot <? n) eqn:E; [pose proof (need_pos n tot off E); lia|]. unfold need in Hf. rewrite E in Hf. lia. }
  cbn [writei_loop]. destruct (tot <? n) eqn:E.
  - destruct (need_nat n tot off E) as (r & Er & Hr). rewrite Er in T. pose proof (need_step n tot off E) as Hs.
    apply Z.ltb_lt in E. destruct (chunk_bounds n tot off E) as [Hm Hle]. set (m := chunk n tot off) in *.
    assert (Hmap : mapped x ip (off / BSIZE)) by (apply Hmr; lia).
    destruct (bmap_run H x ip (off / BSIZE) (tx_ready _ _ _ _ T) HL (ly_dev _ _ _ HY) Hmap) as (x1 & R1 & S1).
    pose proof (same_tx _ _ _ _ _ T S1) as T1. pose proof (same_layout _ _ _ _ HY S1) as HY1.
    pose proof (same_blk x x1 ip (off / BSIZE) S1) as Eb. pose proof (same_mapped x x1 ip _ S1 Hmap) as Hmap1.
    destruct (ly_out _ _ _ HY1 _ Hmap1) as [Hb1 Hb2]. pose proof Hmap1 as (_ & Hb & _).
    destruct (update_block H x1 (blk x1 ip (off / BSIZE)) st lg (r + k) T1 HL HLL ltac:(lia) Hb2) as (b & x2 & R2 & D2 & BO & Hlt & HW).
    set (piece := take (Z.to_nat m) (drop (Z.to_nat tot) src)).
    assert (Hpl : Z.of_nat (length piece) = m) by (unfold piece; rewrite length_take, length_drop; lia).
    destruct (HW (put_bytes (cur x1 (blk x1 ip (off / BSIZE))) (off mod BSIZE) piece)) as (x3 & x4 & R3 & R4 & [T4 L4 C4]).
    destruct (wrote_layout x1 x4 ip st _ _ HY1 L4 C4 (ly_ind _ _ _ HY1 _ Hmap1)) as [HY4 M4].
    { intros G. unfold put_bytes. by rewrite length_inserts. }
    assert (F1 : filled_in x x4 ip st off m 0 piece).
    { split; [eapply logged_trans; [by apply same_logged|done]|done| | | |].
      3:{ intros bn. rewrite <- (same_blk x x1 ip bn S1). apply (wrote_blk x1 x4 ip _ _ bn L4 C4 (ly_ind _ _ _ HY1 _ Hmap1)). }
      3:{ intros m' Hne. rewrite C4, (proj2 (Z.eqb_neq m' _)); [apply S1|]. rewrite Eb. by apply Hne. }
      - intros bn. rewrite M4. split; intros G; [|by apply (same_mapped x x1)].
        destruct (bio_inode x x1 ip (sm_bio _ _ S1)) as (Ei & _). destruct G as (G1 & G2 & G3).
        rewrite (same_blk x x1 ip bn S1) in G2. unfold mapped, addr_of in *. by rewrite Ei in G3.
      - intros j Hj Hmj. rewrite (wrote_byte x1 x4 ip st off piece _ j HY1 L4 Ho Hmap1 ltac:(lia) eq_refl C4 Hj)
          by (by apply (same_mapped x x1)). rewrite (same_byte x x1 ip j S1), Hpl.
        replace (m - 0) with m by lia. by replace (0 + (j - off)) with (j - off) by lia. }
    destruct (IH x4 (with_block lg (blk x1 ip (off / BSIZE))) (tot + m) (off + m)) as (x5 & lg5 & R5 & T5 & F5);
      [done|apply (tx_le _ _ _ _ _ T4); lia|done|done|lia|lia|done| |lia|].
    { intros j Hj. apply (fi_mapped _ _ _ _ _ _ _ _ F1), Hmr. lia. }
    exists x5, lg5. split; [|split; [exact T5|]].
    + eapply runs_bind; [exact R1|cbv beta]. rewrite Eb in *.
      rewrite (proj2 (Z.eqb_neq (blk x ip (off / BSIZE)) 0)) by lia. rstep. rewrite (ly_dev _ _ _ HY1).
      eapply runs_bind; [exact R2|cbv beta zeta]. eapply runs_bind; [apply runs_ret|cbv beta iota].
      eapply runs_bind; [apply (put_data_as H x2 b _ (put_bytes (cur x1 (blk x ip (off / BSIZE))) (off mod BSIZE) piece) Hlt); by rewrite D2|cbv beta].
      change (0 =? -1) with false. cbv iota. eapply runs_bind; [exact R3|cbv beta].
      eapply runs_bind; [exact R4|cbv beta]. fold m.
      replace (off + (n - tot)) with (off + m + (n - (tot + m))) by lia. exact R5.
    + apply (filled_step x x4 x5 ip st off n tot m src); try done; lia.
  - apply Z.ltb_ge in E. assert (tot = n) as Htn by lia. subst tot. exists x, lg.
    replace (off + (n - n)) with off by lia. split; [apply runs_ret|]. split; [|by apply filled_start].
    apply (tx_le _ _ _ _ _ T). lia.
Qed.

(** ** iupdate() *)

(** A dinode with the fields of [i] at [o] of a block. *)
Definition dinode_image (i : inode) (o : Z) (d : list Z) : list Z :=
  put_addrs o (i_addrs i) (put_u32 (put_u16 (put_u16 (put_u16 (put_u16 d o (i_type i)) (o + 2) (i_major i))
    (o + 4) (i_minor i)) (o + 6) (i_nlink i)) (o + 8) (i_size i)).

Lemma put_again H x b D f :
  (b < length (fs_buf x))%nat ->
  runs H (put_data b f) (upd_buf b (set_b_data D) x) tt H (upd_buf b (set_b_data (f D)) x).
Proof.
  intros Hb. assert (Hb' : (b < length (fs_buf (upd_buf b (set_b_data D) x)))%nat) by (unfold upd_buf; fsimpl; by rewrite length_alter).
  assert (Ef : b_data (fbuf b (upd_buf b (set_b_data D) x)) = D) by (rewrite fbuf_upd, decide_True by done; done).
  replace (upd_buf b (set_b_data (f D)) x) with (upd_buf b (set_b_data (f D)) (upd_buf b (set_b_data D) x)).
  - apply put_data_as; [done|by rewrite Ef].
  - by rewrite upd_buf_twice.
Qed.

Lemma iupdate_run H x ip st lg k :
  tx x st lg (S k) -> locks_free H -> LLog ∉ H -> i_dev (finode ip x) = ROOTDEV ->
  0 <= iblk x ip < 2 ^ 31 -> outside st (iblk x ip) ->
  exists x', runs H (iupdate ip) x tt H x' /\
    wrote x x' (iblk x ip) (dinode_image (finode ip x) (dino (i_inum (finode ip x))) (cur x (iblk x ip))) st lg k.
Proof.
  intros T HL HLL Hdev Hib Ho.
  destruct (update_block H x (iblk x ip) st lg k T HL HLL Hib Ho) as (b & x1 & R1 & D1 & BO & Hlt & HW).
  destruct (bio_inode x x1 ip BO) as (Ei & _).
  destruct (HW (dinode_image (finode ip x) (dino (i_inum (finode ip x))) (cur x (iblk x ip)))) as (x2 & x3 & R2 & R3 & W).
  exists x3. split; [|exact W]. unfold iupdate. do 2 rstep. unfold id. rewrite Hdev. fold (iblk x ip).
  eapply runs_bind; [exact R1|cbv beta]. rstep. rewrite Ei. cbv zeta.
  eapply runs_bind; [apply (put_data_as H x1 b _ _ Hlt eq_refl)|cbv beta]. rewrite D1.
  do 5 (eapply runs_bind; [apply put_again, Hlt|cbv beta]).
  eapply runs_bind; [exact R2|cbv beta]. exact R3.
Qed.

(** ** The inode table and the transaction are apart *)

Lemma frame_tx x x' st bs k :
  fs_buf x' = fs_buf x -> fs_lru x' = fs_lru x -> fs_disk x' = fs_disk x -> fs_log x' = fs_log x ->
  tx x st bs k -> tx x' st bs k /\ forall m, cur x' m = cur x m.
Proof.
  intros Eb El Ed Eg [H1 H2 H3 H4 H5 H6 H7 H8 H9]. destruct (buf_same x x' Eb) as (Ef & Es & Er & Ek & Eu).
  assert (Hcur : forall m, cur x' m = cur x m) by (intros m; apply cur_same; [done|by rewrite Ed]).
  split; [|done]. split; rewrite ?Eg; try done.
  - apply (cache_same x); [done|done|by rewrite El|]. intros n Hn. rewrite Hcur, Ed. by apply (ca_clean _ H1).
  - intros m. rewrite Ek. apply H2.
  - by rewrite Eu.
  - intros m. rewrite Er. apply H4.
  - intros b Hb. rewrite Er. by apply H8.
Qed.

Lemma finode_upd x i f j :
  (i < length (fs_inode x))%nat -> finode j (upd_inode i f x) = if decide (j = i) then f (finode i x) else finode j x.
Proof.
  intros Hi. unfold finode, upd_inode. fsimpl. case_decide as E.
  - subst j. rewrite list_lookup_alter_eq. destruct (lookup_lt_is_Some_2 _ _ Hi) as [b Hb]. by rewrite Hb.
  - by rewrite list_lookup_alter_ne.
Qed.

(** Changing the size only. *)
Lemma set_size_view x ip sz bn :
  (ip < length (fs_inode x))%nat -> let x' := upd_inode ip (set_i_size sz) x in
  (forall m, cur x' m = cur x m) -> blk x' ip bn = blk x ip bn /\ addr_of x' ip NDIRECT = addr_of x ip NDIRECT /\
  iblk x' ip = iblk x ip.
Proof.
  intros Hi x' Hcur. assert (E : finode ip x' = set_i_size sz (finode ip x)) by (unfold x'; by rewrite finode_upd, decide_True).
  assert (Ea : forall i, addr_of x' ip i = addr_of x ip i) by (intros i; unfold addr_of; by rewrite E).
  split_and!; [|done|].
  - unfold blk. by rewrite !Ea, Hcur.
  - unfold iblk. by rewrite E.
Qed.

Lemma set_size_layout x ip st sz :
  (ip < length (fs_inode x))%nat -> let x' := upd_inode ip (set_i_size sz) x in
  (forall m, cur x' m = cur x m) -> layout x ip st ->
  layout x' ip st /\ (forall bn, mapped x' ip bn <-> mapped x ip bn) /\ (forall j, byte x' ip j = byte x ip j).
Proof.
  intros Hi x' Hcur [H1 H2 H3 H4 H5 H6 H7 H8].
  assert (Eb : forall bn, blk x' ip bn = blk x ip bn) by (intros; by apply set_size_view).
  assert (Ea : addr_of x' ip NDIRECT = addr_of x ip NDIRECT) by (apply (set_size_view x ip sz 0 Hi Hcur)).
  assert (Ei : iblk x' ip = iblk x ip) by (apply (set_size_view x ip sz 0 Hi Hcur)).
  assert (Hm : forall bn, mapped x' ip bn <-> mapped x ip bn) by (intros bn; unfold mapped; by rewrite Eb, Ea).
  assert (Ed : i_dev (finode ip x') = i_dev (finode ip x)) by (unfold x'; by rewrite finode_upd, decide_True).
  clearbody x'. split_and!; [|done|intros j; unfold byte; by rewrite Eb, Hcur].
  split; rewrite ?Ea, ?Ei; try done.
  - by rewrite Ed.
  - intros bn G%Hm. rewrite Eb, Hcur. by apply H2.
  - intros bn bn' G1%Hm G2%Hm. rewrite !Eb. by apply H3.
  - intros bn G%Hm. rewrite Eb. by apply H4.
  - intros bn G%Hm. rewrite Eb. by apply H5.
  - intros bn G%Hm. rewrite Eb. by apply H6.
Qed.

Lemma alter_noop {A} (f : A -> A) i (l : list A) a : l !! i = Some a -> f a = a -> alter f i l = l.
Proof.
  intros Hi Hf. apply list_eq. intros j. destruct (decide (j = i)) as [Ej|Ej].
  - subst j. rewrite list_lookup_alter_eq, Hi. cbn. by rewrite Hf.
  - by rewrite list_lookup_alter_ne.
Qed.

Lemma grow_run H x ip off :
  (ip < length (fs_inode x))%nat ->
  runs H (size <- get_inode ip i_size ;; whenM (off >? size) (put_inode ip (set_i_size off))) x tt H
    (upd_inode ip (set_i_size (Z.max (i_size (finode ip x)) off)) x).
Proof.
  intros Hi. rstep. rewrite Z.gtb_ltb. destruct (Z.ltb_spec (i_size (finode ip x)) off) as [Hlt|Hge].
  - rewrite Z.max_r by lia. apply runs_putf.
  - rewrite Z.max_l by lia. replace (upd_inode _ _ _) with x; [apply runs_ret|].
    destruct (lookup_lt_is_Some_2 _ _ Hi) as [a Ha]. unfold finode. rewrite Ha. cbn [default]. unfold upd_inode.
    rewrite (alter_noop _ ip (fs_inode x) a Ha); [by destruct x|by destruct a].
Qed.

Lemma length_dinode_image i o d : length (dinode_image i o d) = length d.
Proof. unfold dinode_image, put_addrs, put_u32, put_u16, put_bytes. by rewrite !length_inserts. Qed.

(** What writei() leaves behind. *)
Record written (x x' : fsstate) (ip : nat) (st off n : Z) (src : list Z) : Prop := {
  wi_inode : finode ip x' = set_i_size (Z.max (i_size (finode ip x)) (off + n)) (finode ip x);
  wi_layout : layout x' ip st;
  wi_mapped bn : mapped x' ip bn <-> mapped x ip bn;
  wi_byte j : 0 <= j -> mapped x ip (j / BSIZE) ->
    byte x' ip j = if (off <=? j) && (j <? off + n) then nth (Z.to_nat (j - off)) src 0 else byte x ip j;
  wi_dinode : cur x' (iblk x ip) =
    dinode_image (finode ip x') (dino (i_inum (finode ip x))) (cur x (iblk x ip))
}.

Lemma writei_run H x ip st lg src off k :
  let n := Z.of_nat (length src) in
  layout x ip st -> (ip < length (fs_inode x))%nat -> locks_free H -> LLog ∉ H ->
  0 <= off <= i_size (finode ip x) -> off + n <= MAXFILE * BSIZE -> mapped_range x ip off n ->
  tx x st lg (Z.to_nat (need n 0 off) + S k) ->
  exists x' lg', runs H (writei ip (FromLocal src) off n) x n H x' /\ tx x' st lg' k /\ written x x' ip st off n src.
Proof.
  intros n HY Hip HL HLL Ho Hmax Hmr T. assert (Hn : 0 <= n) by lia.
  assert (Hmax' : off + n <= 274432) by exact Hmax.
  destruct (writei_loop_run H block (rounds n) x ip st lg src n 0 off (S k)) as (x1 & lg1 & R1 & T1 & F1);
    try done; try lia; [by rewrite Z.sub_0_r|by apply need_rounds|].
  rewrite Z.sub_0_r in R1. destruct F1 as [L1 Y1 M1 B1 K1 O1]. destruct (logged_inode x x1 ip L1) as [E1 _].
  assert (Hip1 : (ip < length (fs_inode x1))%nat) by (by rewrite L1).
  set (M := Z.max (i_size (finode ip x)) (off + n)). set (x2 := upd_inode ip (set_i_size M) x1).
  destruct (frame_tx x1 x2 st lg1 (S k)) as [T2 C2]; try done.
  destruct (set_size_layout x1 ip st M Hip1 C2 Y1) as (Y2 & M2 & B2). fold x2 in Y2, M2, B2.
  assert (E2 : finode ip x2 = set_i_size M (finode ip x)) by (unfold x2; rewrite finode_upd, decide_True by done; by rewrite E1).
  assert (Ib : iblk x2 ip = iblk x ip) by (unfold iblk; rewrite E2; unfold x2; by rewrite L1).
  destruct (iupdate_run H x2 ip st lg1 k T2 HL HLL (ly_dev _ _ _ Y2)) as (x3 & R3 & [T3 L3 C3]);
    [apply (ly_iblk _ _ _ Y2)..|].
  destruct (wrote_layout x2 x3 ip st _ _ Y2 L3 C3) as [Y3 M3].
  { intros G. by apply (ly_ind_inode _ _ _ Y2). }
  { by rewrite length_dinode_image. }
  destruct (logged_inode x2 x3 ip L3) as [E3 _].
  exists x3, (with_block lg1 (iblk x2 ip)). split; [|split; [exact T3|]].
  - unfold writei. cbv zeta. rewrite (u32_small off), (u32_small n), (u32_small (off + n)) by lia.
    rewrite (proj2 (Z.ltb_ge (off + n) off)) by lia. rstep.
    rewrite orb_false_r, (Z.gtb_ltb off), (proj2 (Z.ltb_ge _ _)) by lia.
    rewrite (Z.gtb_ltb (off + n)), (proj2 (Z.ltb_ge (MAXFILE * BSIZE) (off + n))) by exact Hmax.
    eapply runs_bind; [exact R1|cbv beta iota].
    pose proof (grow_run H x1 ip (off + n) Hip1) as R2. rewrite E1 in R2. fold M in R2. fold x2 in R2.
    intros s Hc Hx. destruct (R2 s Hc Hx) as (s2 & Es & Hx2 & Hc2 & F2).
    assert (R23 : runs H (iupdate ip ;; retM n) x2 n H x3) by (eapply runs_bind; [exact R3|apply runs_ret]).
    destruct (R23 s2 Hc2 Hx2) as (s3 & Es3 & Hx3 & Hc3 & F3).
    exists s3. split_and!; [|done|done|by eapply fs_step_trans].
    apply bind_inv in Es as (sz & s' & Ea & Eb). erewrite bind_ok by exact Ea. erewrite bind_ok by exact Eb. exact Es3.
  - split; [by rewrite E3, E2|done| | |].
    + intros bn. by rewrite M3, M2, M1.
    + intros j Hj Hmj. assert (Hm2 : mapped x2 ip (j / BSIZE)) by (by apply M2, M1).
      destruct (wrote_blk x2 x3 ip _ _ (j / BSIZE) L3 C3) as [Eb _].
      { intros G. by apply (ly_ind_inode _ _ _ Y2). }
      transitivity (byte x1 ip j); [|rewrite B1 by done; by rewrite Z.sub_0_r].
      rewrite <- B2. unfold byte. rewrite Eb, C3.
      rewrite (proj2 (Z.eqb_neq _ _)) by (by apply (ly_inode _ _ _ Y2)). done.
    + rewrite C3, <- Ib, Z.eqb_refl, E3, E2. f_equal. rewrite C2, Ib. apply O1. intros bn Hbn G.
      by apply (ly_inode _ _ _ HY bn Hbn).
Qed.

(** C2: What writei() wrote is what readi() reads.  In a transaction with room in the log, a
    write inside the allocated blocks of a file, at any offset and across any number of blocks
    (direct or through the indirect block), returns the number of bytes asked for; reading the
    same range returns exactly the bytes written, every other byte of the file is unchanged,
    and the file has grown to the end of the write if that lies beyond its old size. *)
Theorem writei_readi H x ip st lg src off k :
  let n := Z.of_nat (length src) in
  layout x ip st -> (ip < length (fs_inode x))%nat -> locks_free H -> LLog ∉ H ->
  0 <= off <= i_size (finode ip x) -> i_size (finode ip x) < 2 ^ 32 -> off + n <= MAXFILE * BSIZE ->
  mapped_range x ip off n -> tx x st lg (Z.to_nat (need n 0 off) + S k) ->
  exists x1 x2, runs H (writei ip (FromLocal src) off n) x n H x1 /\
    runs H (readi ip ToLocal off n) x1 (n, src) H x2 /\
    i_size (finode ip x1) = Z.max (i_size (finode ip x)) (off + n) /\
    (forall j, 0 <= j -> mapped x ip (j / BSIZE) -> ~ (off <= j < off + n) -> byte x1 ip j = byte x ip j) /\
    (forall j, byte x2 ip j = byte x1 ip j).
Proof.
  intros n HY Hip HL HLL Ho Hsz Hmax Hmr T.
  destruct (writei_run H x ip st lg src off k HY Hip HL HLL Ho Hmax Hmr T) as (x1 & lg1 & R1 & T1 & [E1 Y1 M1 B1 _]).
  fold n in R1, E1, B1. assert (Hn : 0 <= n) by lia. assert (Hmax' : off + n <= 274432) by exact Hmax.
  assert (Hs1 : i_size (finode ip x1) = Z.max (i_size (finode ip x)) (off + n)) by (by rewrite E1).
  assert (Hk : read_count (i_size (finode ip x1)) off n = n).
  { unfold read_count. rewrite Hs1, Z.gtb_ltb, (proj2 (Z.ltb_ge _ _)) by lia. lia. }
  destruct (readi_run H x1 ip off n) as (x2 & R2 & S2); [lia|lia|lia|rewrite Hs1; lia| |done|].
  { rewrite Hk. split; [by eapply tx_ready|apply (ly_dev _ _ _ Y1)|lia| |apply (ly_full _ _ _ Y1)].
    intros j Hj. by apply M1, Hmr. }
  exists x1, x2. rewrite Hk in R2. split; [done|]. split; [|split_and!; [done| |intros j; by apply same_byte]].
  - replace src with (bytes x1 ip off n); [done|]. unfold bytes. apply list_eq. intros i. rewrite list_lookup_fmap.
    destruct (decide (i < length src)%nat) as [Hi|Hi].
    + rewrite lookup_seq_lt by lia. cbn. destruct (lookup_lt_is_Some_2 src i Hi) as [v Hv].
      rewrite B1; [|lia|apply Hmr; lia].
      rewrite (proj2 (Z.leb_le _ _)), (proj2 (Z.ltb_lt _ _)) by lia. cbn [andb].
      replace (Z.to_nat (off + Z.of_nat i - off)) with i by lia. rewrite Hv. f_equal. by apply nth_lookup_Some.
    + rewrite lookup_seq_ge, lookup_ge_None_2 by lia. done.
  - intros j Hj Hmj Hout. rewrite B1 by done.
    destruct (Z.leb_spec off j), (Z.ltb_spec j (off + n)); cbn [andb]; done || lia.
Qed.

End proofs.

(** ** An empty cache, and a file of one block *)

Section empty.
Context (x : fsstate) (Hb : fs_buf x = replicate NBUF buf0) (Hl : fs_lru x = seq 0 NBUF).

Lemma empty_fbuf i : fbuf i x = buf0.
Proof.
  unfold fbuf. rewrite Hb. destruct (replicate NBUF buf0 !! i) eqn:E; [|done]. by apply lookup_replicate in E as [-> _].
Qed.

Lemma empty_slot n : slot x n = None.
Proof.
  unfold slot. destruct (List.find _ _) as [i|] eqn:E; [|done]. apply List.find_some in E as [_ E].
  by rewrite empty_fbuf in E.
Qed.

Lemma empty_view n : cur x n = fs_disk x n /\ refs x n = 0 /\ block_lock x n = sleeplock0.
Proof. unfold cur, refs, block_lock. by rewrite empty_slot. Qed.

Lemma empty_used : used x = 0%nat.
Proof.
  rewrite used_eq. generalize (seq 0 NBUF). induction l as [|i l IH]; [done|]. cbn. by rewrite empty_fbuf.
Qed.

Lemma empty_cache : cache x /\ idle x.
Proof.
  split; [|intros n; apply empty_view]. split.
  - by rewrite Hb, length_replicate.
  - by rewrite Hl.
  - intros i j _ _. rewrite !empty_fbuf. done.
  - intros n _. apply empty_view.
  - intros n _. apply empty_view.
  - intros i _ _. by rewrite empty_fbuf.
  - intros i _. rewrite empty_fbuf. cbn. lia.
Qed.

End empty.

Definition file_inode : inode := MkInode ROOTDEV 1 1 sleeplock0 1 T_FILE 0 0 1 0 (50 :: replicate 12 0).

Definition file_fs : fsstate :=
  MkFs (replicate NBUF buf0) (seq 0 NBUF) (fun _ => replicate 1024 0) []
    (MkLog 2 1 0 ROOTDEV 0 (replicate 30 0)) (MkSuper FSMAGIC 1000 900 16 30 2 40 45) [file_inode] []
    (MkCons [] 0 0 0) [] 0 0.

Lemma file_mapped bn : mapped file_fs 0 bn -> bn = 0.
Proof.
  intros (H1 & H2 & H3). unfold NDIRECT in H3. destruct (Z.leb_spec 12 bn) as [G|G].
  - specialize (H3 G). change (addr_of file_fs 0 12) with 0 in H3. lia.
  - assert (bn = 0 \/ 1 <= bn < 12) as [|Hb] by lia; [done|]. exfalso. unfold blk, NDIRECT in H2.
    rewrite (proj2 (Z.ltb_lt bn 12)) in H2 by lia. unfold addr_of in H2.
    change (i_addrs (finode 0 file_fs)) with (50 :: replicate 12 0) in H2.
    destruct (Z.to_nat bn) as [|i] eqn:E; [lia|]. cbn [nth] in H2. rewrite nth_lookup, lookup_replicate_2 in H2 by lia. cbn in H2. lia.
Qed.

Lemma file_layout : layout file_fs 0 2.
Proof.
  split.
  - reflexivity.
  - intros bn Hb. apply file_mapped in Hb. subst bn. reflexivity.
  - intros bn bn' Hb Hb' _. apply file_mapped in Hb, Hb'. by subst.
  - intros bn Hb. apply file_mapped in Hb. subst bn. unfold outside. change (blk file_fs 0 0) with 50. lia.
  - intros bn Hb. apply file_mapped in Hb. subst bn. by vm_compute.
  - intros bn Hb. apply file_mapped in Hb. subst bn. by vm_compute.
  - by vm_compute.
  - unfold outside. change (iblk file_fs 0) with 40. lia.
Qed.

Lemma file_tx k : (k <= 20)%nat -> tx file_fs 2 [] k.
Proof.
  intros Hk. destruct (empty_cache file_fs eq_refl eq_refl) as [Hc Hi].
  split; [exact Hc|exact Hi| | | |reflexivity|done| |cbn; lia].
  - rewrite (empty_used file_fs eq_refl). unfold NBUF. lia.
  - intros n. destruct (empty_view file_fs eq_refl n) as (_ & -> & _). lia.
  - split; try done; [cbn; lia|apply NoDup_nil_2|]. by intros b Hb%not_elem_of_nil.
  - by intros b Hb%not_elem_of_nil.
Qed.

Lemma writei_readi_witness : exists x1 x2,
  runs (caller := demo_caller) ∅ (writei (img := tiny_image) (env := eager) 0 (FromLocal [1; 2; 3]) 0 3) file_fs 3 ∅ x1 /\
  runs (caller := demo_caller) ∅ (readi (img := tiny_image) (env := eager) 0 ToLocal 0 3) x1 (3, [1; 2; 3]) ∅ x2.
Proof.
  destruct (writei_readi (img := tiny_image) (env := eager) (caller := demo_caller) ∅ file_fs 0 2 [] [1; 2; 3] 0 0) as (x1 & x2 & R1 & R2 & _).
  - apply file_layout.
  - cbn. lia.
  - split; [set_solver|]. intros i. set_solver.
  - set_solver.
  - done.
  - done.
  - done.
  - intros j Hj. replace (j / BSIZE) with 0 by (symmetry; apply Z.div_small; unfold BSIZE; cbn in Hj; lia). by vm_compute.
  - apply file_tx. by apply Nat.leb_le.
  - by exists x1, x2.
Defined.

End FileProofs.
