(* ===== verification/InodeProofs.v ===== *)
(** * Inodes on disk: iupdate() and ilock() of kernel/fs.c

    A dinode keeps exactly the fields of the in-memory inode: what iupdate() stores, ilock()
    finds again. *)

From S2P Require Import Prelude Machine FsData Bytes State Locks CString VM Sched SchedProofs Proc Bio Log FsRun BioProofs LogProofs Fs FsPath FileProofs.

Module InodeProofs.
Import CString VM Sched SchedProofs Proc Sleeplock Bio Log FsRun BioProofs LogProofs Fs FsPath FileProofs.

(** The fields have the widths of their C types. *)
Record inode_ok (i : inode) : Prop := {
  io_type : - 2 ^ 15 <= i_type i < 2 ^ 15;
  io_major : - 2 ^ 15 <= i_major i < 2 ^ 15;
  io_minor : - 2 ^ 15 <= i_minor i < 2 ^ 15;
  io_nlink : - 2 ^ 15 <= i_nlink i < 2 ^ 15;
  io_size : 0 <= i_size i < 2 ^ 32;
  io_addrs : length (i_addrs i) = 13%nat;
  io_addr a : a ∈ i_addrs i -> 0 <= a < 2 ^ 32
}.

Lemma s16_u16 v : - 2 ^ 15 <= v < 2 ^ 15 -> s16 (v mod 256 ^ 2) = v.
Proof.
  intros H. unfold s16. change (256 ^ 2) with (2 ^ 16). rewrite Zplus_mod_idemp_l, Z.mod_small by lia. lia.
Qed.

Lemma get_put_u16 d o v :
  0 <= o -> o + 2 <= Z.of_nat (length d) -> - 2 ^ 15 <= v < 2 ^ 15 -> s16 (get_u16 (put_u16 d o v) o) = v.
Proof.
  intros Ho Hl Hv. unfold get_u16, put_u16. pose proof (get_put_same d o (le_split 2 v) Ho) as E.
  rewrite length_le_split in E. change (Z.of_nat 2) with 2 in E. rewrite E by lia.
  rewrite le_combine_split. by apply s16_u16.
Qed.

(** The bytes of an array of uints. *)
Lemma get_words (ws : list Z) d o i w :
  0 <= o -> o + 4 * Z.of_nat (length ws) <= Z.of_nat (length d) -> ws !! i = Some w -> 0 <= w < 2 ^ 32 ->
  get_u32 (put_bytes d o (concat (le_split 4 <$> ws))) (o + 4 * Z.of_nat i) = w.
Proof.
  revert o d i. induction ws as [|v ws IH]; intros o d i Ho Hl Hi Hw; [done|].
  assert (Hlen : length (concat (le_split 4 <$> ws)) = (4 * length ws)%nat).
  { clear. induction ws as [|v ws IH]; [done|]. cbn [fmap list_fmap concat]. rewrite length_app, IH, length_le_split. cbn. lia. }
  cbn [length] in Hl.
  assert (Hsplit : put_bytes d o (concat (le_split 4 <$> v :: ws)) =
                   put_bytes (put_bytes d o (le_split 4 v)) (o + 4) (concat (le_split 4 <$> ws))).
  { cbn [fmap list_fmap concat]. unfold put_bytes. apply list_eq. intros j.
    pose proof (length_le_split 4 v) as H4.
    destruct (decide (j < Z.to_nat o)%nat) as [H1|H1].
    { rewrite !list_lookup_inserts_lt by lia. done. }
    destruct (decide (j < Z.to_nat o + 4)%nat) as [H2|H2].
    { rewrite (list_lookup_inserts_lt _ (Z.to_nat (o + 4))) by lia.
      rewrite !list_lookup_inserts by (rewrite ?length_app; lia). by rewrite lookup_app_l by lia. }
    destruct (decide (j < Z.to_nat o + 4 + 4 * length ws)%nat) as [H3|H3].
    - rewrite !list_lookup_inserts by (rewrite ?length_app, ?length_inserts; lia).
      rewrite lookup_app_r by lia. f_equal. lia.
    - rewrite !list_lookup_inserts_ge by (rewrite ?length_app; lia). done. }
  rewrite Hsplit. destruct i as [|i].
  - injection Hi as ->. rewrite Z.add_0_r. unfold get_u32. rewrite get_put_other by (rewrite ?Hlen; lia).
    fold (put_u32 d o w). fold (get_u32 (put_u32 d o w) o). rewrite get_put_u32 by lia. apply Z.mod_small. lia.
  - replace (o + 4 * Z.of_nat (S i)) with (o + 4 + 4 * Z.of_nat i) by lia.
    apply IH; [lia|rewrite length_put_bytes; lia|done|done].
Qed.

(** The fields of the dinode at [o]. *)
Record dinode_is (d : list Z) (o : Z) (i : inode) : Prop := {
  di_type : dip_type d o = i_type i;
  di_major : dip_major d o = i_major i;
  di_minor : dip_minor d o = i_minor i;
  di_nlink : dip_nlink d o = i_nlink i;
  di_size : dip_size d o = i_size i;
  di_addrs : dip_addrs d o = i_addrs i
}.

Lemma dinode_image_is i o d :
  inode_ok i -> 0 <= o -> o + 64 <= Z.of_nat (length d) -> dinode_is (dinode_image i o d) o i.
Proof.
  intros [H1 H2 H3 H4 H5 H6 H7] Ho Hl. unfold dinode_image.
  assert (Hw : length (concat (le_split 4 <$> i_addrs i)) = 52%nat).
  { clear -H6. revert H6. generalize (i_addrs i). intros l Hl.
    do 14 (destruct l as [|? l]; try done). }
  assert (L16 : forall d o v, length (put_u16 d o v) = length d) by (intros; apply length_put_bytes).
  assert (L32 : forall d o v, length (put_u32 d o v) = length d) by (intros; apply length_put_bytes).
  split; unfold dip_type, dip_major, dip_minor, dip_nlink, dip_size, put_addrs.
  1-4: unfold get_u16; rewrite get_put_other by lia; unfold put_u32; rewrite get_put_other by (rewrite ?length_le_split; lia).
  - unfold put_u16 at 1 2 3. rewrite !get_put_other by (rewrite ?length_le_split; lia). apply get_put_u16; lia.
  - unfold put_u16 at 1 2. rewrite !get_put_other by (rewrite ?length_le_split; lia). apply get_put_u16; rewrite ?L16; lia.
  - unfold put_u16 at 1. rewrite !get_put_other by (rewrite ?length_le_split; lia). apply get_put_u16; rewrite ?L16; lia.
  - apply get_put_u16; rewrite ?L16; lia.
  - unfold get_u32. rewrite get_put_other by lia. fold (get_u32 (put_u32 (put_u16 (put_u16 (put_u16 (put_u16 d o (i_type i)) (o + 2) (i_major i)) (o + 4) (i_minor i)) (o + 6) (i_nlink i)) (o + 8) (i_size i)) (o + 8)).
    rewrite get_put_u32 by (rewrite ?L16; lia). apply Z.mod_small. lia.
  - unfold dip_addrs. apply list_eq. intros j. rewrite list_lookup_fmap.
    destruct (decide (j < 13)%nat) as [Hj|Hj].
    + rewrite lookup_seq_lt by done. cbn [fmap option_fmap option_map].
      destruct (lookup_lt_is_Some_2 (i_addrs i) j ltac:(lia)) as [w Hw']. rewrite Hw'. f_equal.
      rewrite Nat.add_0_l.
      apply get_words; [lia|rewrite L32, !L16, H6; lia|done|]. apply H7. by eapply list_elem_of_lookup_2.
    + rewrite lookup_seq_ge, lookup_ge_None_2 by lia. done.
Qed.

Section proofs.
Context {img : Image} {env : Env} {caller : Caller}.

(** The cache does not depend on the inode table. *)
Lemma inode_frame x ip f :
  cache x -> let x' := upd_inode ip f x in
  cache x' /\ (forall m, cur x' m = cur x m) /\ (forall m, refs x' m = refs x m) /\
  (forall m, block_lock x' m = block_lock x m) /\ used x' = used x /\ (forall b n, has_buf x b n -> has_buf x' b n) /\
  (forall b, fbuf b x' = fbuf b x).
Proof.
  intros Hc x'. assert (Eb : fs_buf x' = fs_buf x) by reflexivity.
  assert (Ed : fs_disk x' = fs_disk x) by reflexivity. assert (El : fs_lru x' = fs_lru x) by reflexivity.
  clearbody x'. destruct (buf_same x x' Eb) as (Ef & Es & Er & Ek & Eu).
  assert (Hcur : forall m, cur x' m = cur x m) by (intros m; apply cur_same; [done|by rewrite Ed]).
  split_and!; try done.
  - apply (cache_same x); [done|done|by rewrite El|]. intros n Hn. rewrite Hcur, Ed. by apply (ca_clean _ Hc).
  - intros b n [H1 H2 H3]. split; rewrite ?Es, ?Ef; done.
Qed.

Lemma inode_ready x ip f : ready x -> ready (upd_inode ip f x).
Proof.
  intros [H1 H2 H3 H4]. destruct (inode_frame x ip f H1) as (C & _ & R & K & U & _). split.
  - exact C.
  - intros m. rewrite K. apply H2.
  - rewrite U. exact H3.
  - intros m. rewrite R. apply H4.
Qed.

(** Reading a block, with changes to the inode table between bread() and brelse(). *)
Lemma read_block_inode H x n ip f :
  ready x -> locks_free H -> 0 <= n < 2 ^ 32 ->
  exists b x1 x2, runs H (bread ROOTDEV n) x b H x1 /\ b_data (fbuf b x1) = cur x n /\ bio_only x x1 /\
    runs H (brelse b) (upd_inode ip f x1) tt H x2 /\ bio_only (upd_inode ip f x1) x2.
Proof.
  intros [Hc Hid Hu Hr] HL Hn.
  destruct (bread_run H x n Hc HL Hn (Hid n) (Hr n) (fun _ => Hu)) as (b & x1 & R1 & B1 & D1 & V1).
  pose proof V1 as [C1 BO1 Ec1 Er1 _ _ _]. pose proof (cache_range x n Hc) as Hr0.
  destruct (inode_frame x1 ip f C1) as (C & Ec & Er & _ & _ & HB & _).
  destruct (brelse_run H (upd_inode ip f x1) b n C HL (HB b n B1)) as (x2 & R2 & V2).
  { rewrite Er, Ec, Er1, Ec1, Z.eqb_refl. intros G. change (fs_disk (upd_inode ip f x1)) with (fs_disk x1).
    assert (fs_disk x1 = fs_disk x) as -> by (by rewrite BO1). apply (ca_clean _ Hc). lia. }
  exists b, x1, x2. split; [exact R1|]. split; [exact D1|]. split; [exact BO1|]. split; [exact R2|]. apply V2.
Qed.

(** What ilock() copies from the dinode at [o] of the block [d]. *)
Definition loaded (d : list Z) (o : Z) (i : inode) : inode :=
  set_i_addrs (dip_addrs d o) (set_i_size (dip_size d o) (set_i_nlink (dip_nlink d o)
    (set_i_minor (dip_minor d o) (set_i_major (dip_major d o) (set_i_type (dip_type d o) i))))).

Lemma upd_inode_runs H x ip f : runs H (put_inode ip f) x tt H (upd_inode ip f x).
Proof. apply runs_putf. Qed.

Lemma ilock_run H x ip :
  ready x -> locks_free H -> LSleepInode ip ∉ H -> (ip < length (fs_inode x))%nat ->
  i_dev (finode ip x) = ROOTDEV -> 1 <= i_ref (finode ip x) -> i_valid (finode ip x) = 0 ->
  slk_locked (i_lock (finode ip x)) = 0 -> 0 <= iblk x ip < 2 ^ 32 ->
  let d := cur x (iblk x ip) in let o := dino (i_inum (finode ip x)) in
  dip_type d o <> 0 ->
  exists x', runs H (ilock ip) x tt H x' /\
    finode ip x' = set_i_valid 1 (loaded d o (set_i_lock (MkSleeplock 1 my_pid) (finode ip x))).
Proof.
  intros Hrd HL Hsl Hip Hdev Href Hval Hlk Hib d o Ht.
  set (lk := fun _ : sleeplock => MkSleeplock 1 my_pid). set (y := upd_sleep (SInode ip) lk x).
  assert (Ey : y = upd_inode ip (fun i => set_i_lock (lk (i_lock i)) i) x) by reflexivity.
  assert (Fy : finode ip y = set_i_lock (MkSleeplock 1 my_pid) (finode ip x)) by (rewrite Ey, finode_upd, decide_True by done; done).
  pose proof (inode_ready x ip (fun i => set_i_lock (lk (i_lock i)) i) Hrd) as Hrdy. rewrite <- Ey in Hrdy.
  destruct (inode_frame x ip (fun i => set_i_lock (lk (i_lock i)) i) (rd_cache _ Hrd)) as (_ & Ec & _). rewrite <- Ey in Ec.
  assert (Hipy : (ip < length (fs_inode y))%nat) by (rewrite Ey; unfold upd_inode; fsimpl; by rewrite length_alter).
  destruct (read_block_inode H y (iblk x ip) ip (loaded d o) Hrdy HL Hib) as (b & x1 & x2 & R1 & D1 & BO1 & R2 & BO2).
  rewrite Ec in D1. fold d in D1. destruct (bio_inode y x1 ip BO1) as (F1 & _ & _). destruct (bio_inode _ x2 ip BO2) as (F2 & _ & _).
  assert (Hip1 : (ip < length (fs_inode x1))%nat) by (by rewrite BO1). rewrite finode_upd, decide_True in F2 by done.
  assert (Hip2 : (ip < length (fs_inode x2))%nat) by (rewrite BO2; unfold upd_inode; fsimpl; by rewrite length_alter).
  exists (upd_inode ip (set_i_valid 1) x2). split.
  - unfold ilock. rstep. rewrite (proj2 (Z.ltb_ge _ _)) by done.
    eapply runs_bind; [apply acquiresleep_run; [done|done]|cbv beta]. fold lk. fold y. rstep. unfold id. rewrite Fy.
    change (i_valid (set_i_lock _ _)) with (i_valid (finode ip x)). rewrite Hval. cbn [whenM Z.eqb]. rstep.
    change (i_dev (set_i_lock _ _)) with (i_dev (finode ip x)). rewrite Hdev.
    change (IBLOCK _ (fs_sb y)) with (iblk x ip). eapply runs_bind; [exact R1|cbv beta]. rstep. rewrite D1. rstep. rewrite F1, Fy.
    cbv zeta. change (dino (i_inum (set_i_lock (MkSleeplock 1 my_pid) (finode ip x)))) with o.
    do 6 (eapply runs_bind; [apply upd_inode_runs|cbv beta]). rewrite !upd_inode_twice.
    eapply runs_bind; [exact R2|cbv beta]. eapply runs_bind; [apply upd_inode_runs|cbv beta]. rstep.
    rewrite finode_upd, decide_True, F2 by done. change (i_type (set_i_valid 1 (loaded d o (finode ip x1)))) with (dip_type d o).
    rewrite (proj2 (Z.eqb_neq _ 0)) by done. apply runs_ret.
  - rewrite finode_upd, decide_True, F2, F1, Fy by done. done.
Qed.

(** iupdate() and ilock() are inverse: after iupdate() of an inode whose fields fit their C
    types, locking any table entry for the same inode number that is not valid yet loads
    exactly those fields (type, device numbers, link count, size and all thirteen block
    addresses) from the block the transaction wrote. *)
Theorem iupdate_ilock H x ip st lg k :
  tx x st lg (S k) -> locks_free H -> LLog ∉ H -> layout x ip st -> inode_ok (finode ip x) ->
  length (cur x (iblk x ip)) = 1024%nat -> 0 <= i_inum (finode ip x) -> i_type (finode ip x) <> 0 ->
  exists x1, runs H (iupdate ip) x tt H x1 /\
    forall jp x2, ready x2 -> LSleepInode jp ∉ H -> (jp < length (fs_inode x2))%nat ->
      fs_sb x2 = fs_sb x -> cur x2 (iblk x ip) = cur x1 (iblk x ip) ->
      i_dev (finode jp x2) = ROOTDEV -> i_inum (finode jp x2) = i_inum (finode ip x) ->
      1 <= i_ref (finode jp x2) -> i_valid (finode jp x2) = 0 -> slk_locked (i_lock (finode jp x2)) = 0 ->
      exists x3, runs H (ilock jp) x2 tt H x3 /\
        let i := finode jp x3 in let i0 := finode ip x in
        i_valid i = 1 /\ i_lock i = MkSleeplock 1 my_pid /\
        i_type i = i_type i0 /\ i_major i = i_major i0 /\ i_minor i = i_minor i0 /\ i_nlink i = i_nlink i0 /\
        i_size i = i_size i0 /\ i_addrs i = i_addrs i0.
Proof.
  intros T HL HLL HY Hok Hlen Hin Hty. destruct (ly_iblk _ _ _ HY) as [Hib Hout].
  destruct (iupdate_run H x ip st lg k T HL HLL (ly_dev _ _ _ HY) Hib Hout) as (x1 & R1 & [_ _ C1]).
  exists x1. split; [done|]. intros jp x2 Hrd Hsl Hjp Hsb Hcur Hdev Hinum Href Hval Hlk.
  rewrite C1, Z.eqb_refl in Hcur.
  assert (Ho : 0 <= dino (i_inum (finode ip x)) /\ dino (i_inum (finode ip x)) + 64 <= 1024).
  { unfold dino, IPB, BSIZE. pose proof (Z.mod_pos_bound (i_inum (finode ip x)) 16 ltac:(lia)).
    change (1024 / 64) with 16. lia. }
  assert (Eib : iblk x2 jp = iblk x ip) by (unfold iblk; by rewrite Hsb, Hinum).
  assert (HD : dinode_is (cur x2 (iblk x2 jp)) (dino (i_inum (finode jp x2))) (finode ip x)).
  { rewrite Eib, Hcur, Hinum. apply dinode_image_is; [done|lia|rewrite Hlen; lia]. }
  destruct HD as [D1 D2 D3 D4 D5 D6].
  destruct (ilock_run H x2 jp Hrd HL Hsl Hjp Hdev Href Hval Hlk) as (x3 & R3 & E3);
    [rewrite Eib; lia|by rewrite D1|].
  exists x3. split; [done|]. rewrite E3. unfold loaded. fsimpl. by rewrite D1, D2, D3, D4, D5, D6.
Qed.

End proofs.

(** The file system after a restart, with what the transaction wrote to block 40. *)
Definition restarted (d : list Z) : fsstate :=
  set_fs_inode [set_i_valid 0 inode0; set_i_valid 0 (set_i_type 0 (set_i_addrs [] file_inode))]
    (set_fs_disk (fun n => if n =? 40 then d else replicate 1024 0) file_fs).

End InodeProofs.
