(* ===== verification/BitmapProofs.v ===== *)
(** * Block allocation: balloc() and bfree() of kernel/fs.c *)

From S2P Require Import Prelude Machine FsData Bytes State Locks CString VM Sched SchedProofs Proc Bio Print Console Log FsRun BioProofs LogProofs Fs FsPath FileProofs.

Module BitmapProofs.
Import CString VM Sched SchedProofs Proc Sleeplock Bio Print Console Log FsRun BioProofs LogProofs Fs FsPath FileProofs.

(** ** Bits of a bitmap block *)

Definition bit_set (d : list Z) (bi : Z) : bool := negb (Z.land (bitmap_byte d bi) (bit_mask bi) =? 0).

Lemma land_mask v i : 0 <= i -> negb (Z.land v (Z.shiftl 1 i) =? 0) = Z.testbit v i.
Proof.
  intros Hi. rewrite Z.shiftl_1_l. destruct (Z.eqb_spec (Z.land v (2 ^ i)) 0) as [E|E]; cbn.
  - symmetry. apply (f_equal (fun z => Z.testbit z i)) in E. rewrite Z.land_spec, Z.pow2_bits_true, andb_true_r, Z.bits_0 in E by done. done.
  - symmetry. destruct (Z.testbit v i) eqn:T; [done|]. exfalso. apply E. apply Z.bits_inj'. intros j Hj.
    rewrite Z.land_spec, Z.bits_0, Z.pow2_bits_eqb by done. destruct (Z.eqb_spec i j) as [->|]; [by rewrite T|by rewrite andb_false_r].
Qed.

Lemma bit_set_testbit d bi : bit_set d bi = Z.testbit (bitmap_byte d bi) (bi mod 8).
Proof. unfold bit_set, bit_mask. apply land_mask. apply Z.mod_pos_bound. lia. Qed.

Lemma testbit_u8 v i : 0 <= i < 8 -> Z.testbit (u8 v) i = Z.testbit v i.
Proof. intros H. unfold u8. change 256 with (2 ^ 8). rewrite Z.mod_pow2_bits_low by lia. done. Qed.

(** Storing a byte changes the bits of that byte only. *)
Lemma bit_set_put d bi v bj :
  0 <= bi < 8 * Z.of_nat (length d) -> 0 <= bj ->
  bit_set (set_bitmap_byte bi v d) bj = if bj / 8 =? bi / 8 then Z.testbit v (bj mod 8) else bit_set d bj.
Proof.
  intros Hi Hj. rewrite !bit_set_testbit. unfold set_bitmap_byte, bitmap_byte. rewrite !nth_lookup.
  pose proof (Z.mod_pos_bound bj 8 ltac:(lia)). pose proof (Z.div_pos bi 8 ltac:(lia) ltac:(lia)).
  pose proof (Z.div_pos bj 8 Hj ltac:(lia)). assert (bi / 8 < Z.of_nat (length d)) by (apply Z.div_lt_upper_bound; lia).
  destruct (Z.eqb_spec (bj / 8) (bi / 8)) as [E|E].
  - rewrite E, list_lookup_insert_eq by lia. cbn. by apply testbit_u8.
  - by rewrite list_lookup_insert_ne by lia.
Qed.

Lemma div_mod_same bi bj : bj / 8 = bi / 8 -> bj mod 8 = bi mod 8 -> bj = bi.
Proof. intros H1 H2. rewrite (Z.div_mod bj 8), (Z.div_mod bi 8), H1, H2 by lia. done. Qed.

(** Marking a bit, and clearing it. *)
Lemma mark_bit d bi bj :
  0 <= bi < 8 * Z.of_nat (length d) -> 0 <= bj ->
  bit_set (set_bitmap_byte bi (Z.lor (bitmap_byte d bi) (bit_mask bi)) d) bj = (bj =? bi) || bit_set d bj.
Proof.
  intros Hi Hj. rewrite bit_set_put by done. pose proof (Z.mod_pos_bound bi 8 ltac:(lia)).
  destruct (Z.eqb_spec (bj / 8) (bi / 8)) as [E|E].
  - rewrite Z.lor_spec. unfold bit_mask. rewrite Z.shiftl_1_l, Z.pow2_bits_eqb by lia.
    rewrite bit_set_testbit. unfold bitmap_byte. rewrite E.
    destruct (Z.eqb_spec (bi mod 8) (bj mod 8)) as [Em|Em]; destruct (Z.eqb_spec bj bi) as [Eb|Eb].
    + by rewrite orb_true_r.
    + exfalso. apply Eb, div_mod_same; congruence.
    + subst. done.
    + by rewrite orb_false_r.
  - destruct (Z.eqb_spec bj bi) as [->|]; [done|]. done.
Qed.

Lemma clear_bit d bi bj :
  0 <= bi < 8 * Z.of_nat (length d) -> 0 <= bj ->
  bit_set (set_bitmap_byte bi (Z.land (bitmap_byte d bi) (Z.lnot (bit_mask bi))) d) bj = negb (bj =? bi) && bit_set d bj.
Proof.
  intros Hi Hj. rewrite bit_set_put by done. pose proof (Z.mod_pos_bound bi 8 ltac:(lia)).
  pose proof (Z.mod_pos_bound bj 8 ltac:(lia)).
  destruct (Z.eqb_spec (bj / 8) (bi / 8)) as [E|E].
  - rewrite Z.land_spec, Z.lnot_spec by lia. unfold bit_mask. rewrite Z.shiftl_1_l, Z.pow2_bits_eqb by lia.
    rewrite bit_set_testbit. unfold bitmap_byte. rewrite E.
    destruct (Z.eqb_spec (bi mod 8) (bj mod 8)) as [Em|Em]; destruct (Z.eqb_spec bj bi) as [Eb|Eb].
    + by rewrite andb_false_r.
    + exfalso. apply Eb, div_mod_same; congruence.
    + subst. done.
    + by rewrite andb_true_r.
  - destruct (Z.eqb_spec bj bi) as [->|]; [done|]. done.
Qed.

(** ** balloc() *)

Section proofs.
Context {img : Image} {env : Env} {caller : Caller}.

(** Block [b] is marked in the bitmap. *)
Definition in_use (x : fsstate) (b : Z) : bool := bit_set (cur x (BBLOCK b (fs_sb x))) (b mod BPB).

(** The bitmap's blocks are apart from the log, and a block that is free is neither the boot
    block nor one of the log or of the bitmap. *)
Record bitmap_ok (x : fsstate) (st : Z) : Prop := {
  bm_size : 0 <= sb_size (fs_sb x) < 2 ^ 31;
  bm_start : 0 <= sb_bmapstart (fs_sb x) < 2 ^ 31;
  bm_block b : 0 <= b < sb_size (fs_sb x) ->
    0 <= BBLOCK b (fs_sb x) < 2 ^ 31 /\ outside st (BBLOCK b (fs_sb x)) /\ length (cur x (BBLOCK b (fs_sb x))) = 1024%nat;
  bm_free b : 0 <= b < sb_size (fs_sb x) -> in_use x b = false ->
    0 < b /\ outside st b /\ forall b', 0 <= b' < sb_size (fs_sb x) -> BBLOCK b' (fs_sb x) <> b
}.

Lemma same_in_use x x' b : same x x' -> in_use x' b = in_use x b.
Proof.
  intros S. destruct (bio_inode x x' 0 (sm_bio _ _ S)) as (_ & E & _). unfold in_use. by rewrite E, (sm_cur _ _ S).
Qed.

Lemma same_bitmap x x' st : same x x' -> bitmap_ok x st -> bitmap_ok x' st.
Proof.
  intros S [H1 H0 H2 H3]. destruct (bio_inode x x' 0 (sm_bio _ _ S)) as (_ & E & _). split; rewrite ?E.
  - exact H1.
  - exact H0.
  - intros b Hb. rewrite (sm_cur _ _ S). by apply H2.
  - intros b Hb. rewrite (same_in_use x x' b S). by apply H3.
Qed.

Lemma first_split {A} (P : A -> bool) (l : list A) :
  (forall a, a ∈ l -> P a = true) \/
  exists pre a post, l = pre ++ a :: post /\ (forall b, b ∈ pre -> P b = true) /\ P a = false.
Proof.
  induction l as [|a l IH]; [left; by intros a Ha%not_elem_of_nil|].
  destruct (P a) eqn:E; [|right; exists [], a, l; split_and!; [done|by intros b Hb%not_elem_of_nil|done]].
  destruct IH as [IH|(pre & b & post & -> & H1 & H2)].
  - left. intros b [->|Hb]%elem_of_cons; auto.
  - right. exists (a :: pre), b, post. split_and!; [done| |done]. intros c [->|Hc]%elem_of_cons; auto.
Qed.

(** The bits of the block that starts at [BPB * j]. *)
Lemma bits_in size j bi :
  bi ∈ bitmap_bits size (BPB * j) <-> 0 <= bi < BPB /\ BPB * j + bi < size.
Proof.
  unfold bitmap_bits. rewrite list_elem_of_fmap. split.
  - intros (i & -> & Hi%elem_of_seq). lia.
  - intros [H1 H2]. exists (Z.to_nat bi). split; [lia|]. apply elem_of_seq. lia.
Qed.

Lemma in_block j bi sb : 0 <= bi < BPB -> BBLOCK (BPB * j + bi) sb = BBLOCK (BPB * j) sb /\ (BPB * j + bi) mod BPB = bi.
Proof.
  intros H. assert (E : (BPB * j + bi) / BPB = j).
  { symmetry. apply Z.div_unique with bi; [by left|lia]. }
  split.
  - unfold BBLOCK. rewrite E. replace (BPB * j / BPB) with j; [done|]. symmetry. rewrite Z.mul_comm. by apply Z.div_mul.
  - symmetry. apply Z.mod_unique with j; [by left|lia].
Qed.

(** The bits before the first clear one. *)
Lemma before_bit size j pre bi post bj :
  bitmap_bits size (BPB * j) = pre ++ bi :: post -> 0 <= bj < bi -> bj ∈ pre.
Proof.
  intros Hl Hb. assert (Hi : forall i v, (pre ++ bi :: post) !! i = Some v -> v = Z.of_nat i).
  { intros i v. rewrite <- Hl. unfold bitmap_bits. rewrite list_lookup_fmap_Some. intros (m & -> & Hm).
    apply lookup_seq in Hm as [-> _]. done. }
  assert (Ebi : bi = Z.of_nat (length pre)) by (apply Hi; rewrite lookup_app_r, Nat.sub_diag; done).
  destruct (lookup_lt_is_Some_2 pre (Z.to_nat bj) ltac:(lia)) as [v Hv].
  assert (v = Z.of_nat (Z.to_nat bj)) by (apply Hi; by rewrite lookup_app_l by lia).
  apply list_elem_of_lookup. exists (Z.to_nat bj). rewrite Hv. f_equal. lia.
Qed.

Lemma BBLOCK_inj sb b b' :
  0 <= sb_bmapstart sb < 2 ^ 31 -> 0 <= b < 2 ^ 31 -> 0 <= b' < 2 ^ 31 -> BBLOCK b sb = BBLOCK b' sb -> b / BPB = b' / BPB.
Proof.
  intros Hs Hb Hb' E. unfold BBLOCK in E.
  assert (Hq : forall c, 0 <= c < 2 ^ 31 -> 0 <= c / BPB < 2 ^ 31).
  { intros c Hc. split; [apply Z.div_pos; [lia|done]|]. apply Z.div_lt_upper_bound; unfold BPB, BSIZE; lia. }
  pose proof (Hq b Hb). pose proof (Hq b' Hb'). rewrite !u32_small in E by lia. lia.
Qed.

(** One bit of the inner loop. *)
Definition scan_bit (dev : Z) (bp : nat) (b bi : Z) : K (ctl Z) :=
  d <- get_buf bp b_data ;;
  let m := bit_mask bi in
  if Z.land (bitmap_byte d bi) m =? 0 then
    put_data bp (set_bitmap_byte bi (Z.lor (bitmap_byte d bi) m)) ;;
    log_write bp ;;
    brelse bp ;;
    bzero dev (b + bi) ;;
    retM (Return (b + bi))
  else retM Continue.

Lemma scan_bit_set H dev bp b bi x d :
  b_data (fbuf bp x) = d -> bit_set d bi = true -> runs H (scan_bit dev bp b bi) x Continue H x.
Proof.
  intros <- Hb. unfold scan_bit. rstep. cbv zeta. unfold bit_set in Hb. apply negb_true_iff in Hb. rewrite Hb. apply runs_ret.
Qed.

(** bzero() in a transaction. *)
Lemma bzero_run H x n st lg k :
  tx x st lg (S k) -> locks_free H -> LLog ∉ H -> 0 <= n < 2 ^ 31 -> outside st n ->
  exists x', runs H (bzero ROOTDEV n) x tt H x' /\ wrote x x' n (replicate 1024 0) st lg k.
Proof.
  intros T HL HLL Hn Ho. destruct (update_block H x n st lg k T HL HLL Hn Ho) as (b & x1 & R1 & D1 & BO & Hlt & HW).
  destruct (HW (replicate 1024 0)) as (x2 & x3 & R2 & R3 & W). exists x3. split; [|done]. unfold bzero.
  eapply runs_bind; [exact R1|cbv beta]. eapply runs_bind; [by apply (put_data_as H x1 b (fun _ => replicate (Z.to_nat BSIZE) 0) (replicate 1024 0) Hlt)|cbv beta].
  eapply runs_bind; [exact R2|cbv beta]. exact R3.
Qed.

(** What an allocation of [b] leaves. *)
Record allocated (x x' : fsstate) (b : Z) : Prop := {
  al_range : 0 < b < sb_size (fs_sb x);
  al_free : in_use x b = false;
  al_first b' : 0 <= b' < b -> in_use x b' = true;
  al_zero : cur x' b = replicate 1024 0;
  al_bits b' : 0 <= b' < sb_size (fs_sb x) -> in_use x' b' = (b' =? b) || in_use x b';
  al_rest m : m <> b -> m <> BBLOCK b (fs_sb x) -> cur x' m = cur x m;
  al_logged : logged x x'
}.

Lemma hit_run H x st lg k j bi bp x1 :
  let b := BPB * j in let n := BBLOCK b (fs_sb x) in
  tx x st lg (S (S k)) -> bitmap_ok x st -> locks_free H -> LLog ∉ H -> 0 <= j ->
  0 <= bi < BPB -> b + bi < sb_size (fs_sb x) -> bit_set (cur x n) bi = false ->
  (forall b', 0 <= b' < b + bi -> in_use x b' = true) ->
  b_data (fbuf bp x1) = cur x n -> (bp < length (fs_buf x1))%nat ->
  (forall D, exists x2 x3, runs H (log_write bp) (upd_buf bp (set_b_data D) x1) tt H x2 /\
      runs H (brelse bp) x2 tt H x3 /\ wrote x x3 n D st lg (S k)) ->
  exists x' lg', runs H (scan_bit ROOTDEV bp b bi) x1 (Return (b + bi)) H x' /\ tx x' st lg' k /\ allocated x x' (b + bi).
Proof.
  intros b n T HB HL HLL Hj Hbi Hlt Hclear Hfirst D1 Hbp HW.
  destruct (in_block j bi (fs_sb x) Hbi) as [En Em]. fold b in En, Em. fold n in En.
  assert (Hfree : in_use x (b + bi) = false) by (unfold in_use; by rewrite En, Em).
  assert (Hb0 : 0 <= b + bi < sb_size (fs_sb x)) by (unfold b, BPB, BSIZE in *; lia).
  destruct (bm_free _ _ HB (b + bi) Hb0 Hfree) as (Hpos & Hout & Hnb).
  destruct (bm_block _ _ HB (b + bi) Hb0) as (Hn & Hnout & Hnlen). rewrite En in *.
  set (D := set_bitmap_byte bi (Z.lor (bitmap_byte (cur x n) bi) (bit_mask bi)) (cur x n)).
  destruct (HW D) as (x2 & x3 & R2 & R3 & [T3 L3 C3]).
  assert (Hsz : sb_size (fs_sb x) < 2 ^ 31) by apply HB.
  destruct (bzero_run H x3 (b + bi) st _ k T3 HL HLL ltac:(lia) Hout) as (x4 & R4 & [T4 L4 C4]).
  eexists x4, _. split; [|split; [exact T4|]].
  - unfold scan_bit. rstep. rewrite D1. cbv zeta. unfold bit_set in Hclear. apply negb_false_iff in Hclear. rewrite Hclear.
    eapply runs_bind; [by apply (put_data_as H x1 bp _ D Hbp); rewrite D1|cbv beta].
    eapply runs_bind; [exact R2|cbv beta]. eapply runs_bind; [exact R3|cbv beta].
    eapply runs_bind; [exact R4|cbv beta]. apply runs_ret.
  - assert (Hne : n <> b + bi) by (intros G; apply (Hnb (b + bi) Hb0); by rewrite En).
    destruct (logged_inode x x3 0 L3) as [_ Esb3]. destruct (logged_inode x3 x4 0 L4) as [_ Esb4].
    split; [lia|done|done| | | |by eapply logged_trans].
    + by rewrite C4, Z.eqb_refl.
    + intros b' Hb'. unfold in_use at 1. rewrite Esb4, Esb3, C4.
      rewrite (proj2 (Z.eqb_neq _ _)) by (by apply Hnb). rewrite C3.
      destruct (Z.eqb_spec (BBLOCK b' (fs_sb x)) n) as [Eb'|Eb'].
      * unfold D. rewrite mark_bit; [|rewrite Hnlen; unfold BPB, BSIZE in *; lia|apply Z.mod_pos_bound; done].
        unfold in_use. rewrite Eb'. f_equal. rewrite <- En in Eb'.
        apply BBLOCK_inj in Eb'; [|apply HB|lia|lia]. pose proof (Z.div_mod b' BPB ltac:(done)) as P1.
        pose proof (Z.div_mod (b + bi) BPB ltac:(done)) as P2. rewrite Em, <- Eb' in P2.
        destruct (Z.eqb_spec (b' mod BPB) bi), (Z.eqb_spec b' (b + bi)); lia.
      * destruct (Z.eqb_spec b' (b + bi)) as [Ebb|]; [|done]. subst b'. by rewrite En in Eb'.
    + intros m Hm1 Hm2. rewrite C4, (proj2 (Z.eqb_neq _ _)), C3, (proj2 (Z.eqb_neq _ _)) by congruence. done.
Qed.

(** The inner loop on a bitmap block, and the outer loop from block [j] on. *)
Definition scan_block (dev : Z) (sb : superblock) (b : Z) : K (ctl Z) :=
  bp <- bread dev (BBLOCK b sb) ;;
  r <- for_loop (bitmap_bits (sb_size sb) b) (scan_bit dev bp b) ;;
  match r with
  | Some v => retM (Return v)
  | None => brelse bp ;; retM Continue
  end.

Definition blocks_from (j c : nat) : list Z := (fun i : nat => BPB * Z.of_nat i) <$> seq j c.

Lemma scan_blocks_run H c j x st lg k :
  tx x st lg (S (S k)) -> bitmap_ok x st -> locks_free H -> LLog ∉ H ->
  sb_size (fs_sb x) <= BPB * Z.of_nat (j + c) -> ((1 <= c)%nat -> BPB * Z.of_nat (j + c - 1) < sb_size (fs_sb x)) ->
  (forall b', 0 <= b' < BPB * Z.of_nat j -> b' < sb_size (fs_sb x) -> in_use x b' = true) ->
  (exists x', runs H (for_loop (blocks_from j c) (scan_block ROOTDEV (fs_sb x))) x None H x' /\ same x x' /\
     forall b', 0 <= b' < sb_size (fs_sb x) -> in_use x b' = true) \/
  (exists b x' lg', runs H (for_loop (blocks_from j c) (scan_block ROOTDEV (fs_sb x))) x (Some b) H x' /\
     tx x' st lg' k /\ allocated x x' b).
Proof.
  revert j x. induction c as [|c IH]; intros j x T HB HL HLL Hcover Hlast Hfull.
  { left. exists x. split; [apply runs_ret|]. split; [apply same_refl, T|]. intros b' Hb'. apply Hfull; lia. }
  set (b := BPB * Z.of_nat j). set (n := BBLOCK b (fs_sb x)).
  assert (Hb : 0 <= b < sb_size (fs_sb x)) by (unfold b, BPB, BSIZE in *; lia).
  destruct (bm_block _ _ HB b Hb) as (Hn & Hnout & Hnlen). fold n in Hn, Hnout, Hnlen.
  change (blocks_from j (S c)) with (b :: blocks_from (S j) c). cbn [for_loop].
  destruct (first_split (bit_set (cur x n)) (bitmap_bits (sb_size (fs_sb x)) b)) as [Hall|(pre & bi & post & Hl & Hpre & Hbi)].
  - destruct (read_block H x n (tx_ready _ _ _ _ T) HL ltac:(lia)) as (bp & x1 & x2 & R1 & D1 & BO & R2 & S2).
    assert (Rb : runs H (scan_block ROOTDEV (fs_sb x) b) x Continue H x2).
    { unfold scan_block. fold n. eapply runs_bind; [exact R1|cbv beta]. eapply runs_bind; [apply runs_scan_none|cbv beta].
      - apply Forall_forall. intros bi Hin. by apply (scan_bit_set H ROOTDEV bp b bi x1 (cur x n)), Hall.
      - cbv iota. eapply runs_bind; [exact R2|apply runs_ret]. }
    destruct (bio_inode x x2 0 (sm_bio _ _ S2)) as (_ & Esb & _).
    destruct (IH (S j) x2) as [(x' & R & S & Hf)|(b1 & x' & lg' & R & T' & A)]; try done.
    + by eapply same_tx.
    + by eapply same_bitmap.
    + rewrite Esb. by replace (S j + c)%nat with (j + S c)%nat by lia.
    + rewrite Esb. intros Hc. replace (S j + c - 1)%nat with (j + S c - 1)%nat by lia. apply Hlast. lia.
    + intros b' Hb' Hsz. rewrite Esb in Hsz. rewrite (same_in_use x x2 b' S2).
      destruct (Z.ltb_spec b' b) as [Hlt|Hge]; [apply Hfull; unfold b in *; lia|].
      assert (Hi : 0 <= b' - b < BPB) by (unfold b in *; lia).
      destruct (in_block (Z.of_nat j) (b' - b) (fs_sb x) Hi) as [E1 E2]. fold b in E1, E2. replace (b + (b' - b)) with b' in * by lia.
      unfold in_use. rewrite E1, E2. fold n. apply Hall. apply bits_in. fold b. lia.
    + left. exists x'. rewrite Esb in *. split; [eapply runs_bind; [exact Rb|exact R]|]. split; [by eapply same_trans|].
      intros b' Hb'. rewrite <- (same_in_use x x2 b' S2). by apply Hf.
    + right. exists b1, x', lg'. rewrite Esb in *. split; [eapply runs_bind; [exact Rb|exact R]|]. split; [done|].
      destruct A as [A1 A2 A3 A4 A5 A6 A7]. rewrite Esb in *. split; try done.
      * by rewrite <- (same_in_use x x2 b1 S2).
      * intros b' Hb'. rewrite <- (same_in_use x x2 b' S2). by apply A3.
      * intros b' Hb'. rewrite A5 by done. by rewrite (same_in_use x x2 b' S2).
      * intros m H1 H2. rewrite A6 by done. apply S2.
      * eapply logged_trans; [by apply same_logged|done].
  - right. assert (Hin : bi ∈ bitmap_bits (sb_size (fs_sb x)) b) by (rewrite Hl; set_solver).
    apply bits_in in Hin as [Hbr Hbs]. fold b in Hbs.
    destruct (update_block H x n st lg (S k) T HL HLL Hn Hnout) as (bp & x1 & R1 & D1 & BO & Hlt & HW).
    destruct (hit_run H x st lg k (Z.of_nat j) bi bp x1) as (x' & lg' & R & T' & A); try done; [lia| |].
    { intros b' Hb'. fold b in Hb'. destruct (Z.ltb_spec b' b) as [Hlt'|Hge]; [apply Hfull; unfold b in *; lia|].
      assert (Hi : 0 <= b' - b < BPB) by lia.
      destruct (in_block (Z.of_nat j) (b' - b) (fs_sb x) Hi) as [E1 E2]. fold b in E1, E2. replace (b + (b' - b)) with b' in * by lia.
      unfold in_use. rewrite E1, E2. fold n. apply Hpre. apply (before_bit (sb_size (fs_sb x)) (Z.of_nat j) pre bi post); [by fold b|lia]. }
    fold b in R, A.
    assert (Rb : runs H (scan_block ROOTDEV (fs_sb x) b) x (Return (b + bi)) H x').
    { unfold scan_block. fold n. eapply runs_bind; [exact R1|cbv beta]. eapply runs_bind.
      - rewrite Hl. apply runs_scan; [|exact R]. apply Forall_forall. intros bj Hbj.
        by apply (scan_bit_set H ROOTDEV bp b bj x1 (cur x n)), Hpre.
      - apply runs_ret. }
    exists (b + bi), x', lg'. split; [|done]. eapply runs_bind; [exact Rb|apply runs_ret].
Qed.


Lemma bitmap_starts_from size : 0 <= size -> bitmap_starts size = blocks_from 0 (Z.to_nat ((size + BPB - 1) / BPB)).
Proof. done. Qed.

(** Printing does not concern the transaction. *)
Lemma printed_tx x st lg k out : tx x st lg k -> tx (printed out x) st lg k.
Proof.
  intros [H1 H2 H3 H4 H5 H6 H7 H8 H9].
  destruct (keep_cache x (printed out x) H1) as (C & _ & Re & Lk & U & _); [reflexivity..|].
  assert (El : fs_log (printed out x) = fs_log x) by reflexivity.
  set (y := printed out x) in *. clearbody y. split; rewrite ?El.
  - exact C.
  - intros m. rewrite Lk. apply H2.
  - rewrite U. exact H3.
  - intros n. rewrite Re. apply H4.
  - exact H5.
  - exact H6.
  - exact H7.
  - intros b Hb. rewrite Re. by apply H8.
  - exact H9.
Qed.

(** C11: balloc() returns the lowest block the bitmap has free, marks that block and no other as
    in use, and hands it out zeroed, both in the current transaction; no other block of the
    disk changes.  Exactly when no block is free it returns 0, prints a message on the console,
    and changes nothing else. *)
Theorem balloc_first_free H x st lg k :
  tx x st lg (S (S k)) -> bitmap_ok x st -> locks_free H -> LLog ∉ H -> LPr ∉ H ->
  exists r x' lg', runs H (balloc ROOTDEV) x r H x' /\ tx x' st lg' k /\
    if r =? 0 then
      (exists x1, same x x1 /\ x' = printed (chars "balloc: out of blocks" ++ [10]) x1) /\
      forall b, 0 <= b < sb_size (fs_sb x) -> in_use x b = true
    else allocated x x' r.
Proof.
  intros T HB HL HLL HP. pose proof (bm_size _ _ HB) as Hs.
  set (c := Z.to_nat ((sb_size (fs_sb x) + BPB - 1) / BPB)).
  assert (Hc : Z.of_nat c = (sb_size (fs_sb x) + BPB - 1) / BPB).
  { unfold c. rewrite Z2Nat.id; [done|]. apply Z.div_pos; unfold BPB, BSIZE; lia. }
  pose proof (Z.div_mod (sb_size (fs_sb x) + BPB - 1) BPB ltac:(done)) as Hd.
  pose proof (Z.mod_pos_bound (sb_size (fs_sb x) + BPB - 1) BPB ltac:(done)) as Hm. rewrite <- Hc in Hd.
  destruct (scan_blocks_run H c 0 x st lg k T HB HL HLL) as [(x' & R & Sm & Hf)|(b & x' & lg' & R & T' & A)].
  - cbn [Nat.add]. lia.
  - intros H1. cbn [Nat.add]. unfold BPB, BSIZE in *. lia.
  - lia.
  - exists 0, (printed (chars "balloc: out of blocks" ++ [10]) x'), lg. split; [|split; [|split; [by exists x'|done]]].
    + unfold balloc. rstep. rewrite bitmap_starts_from by lia. fold c. eapply runs_bind; [exact R|cbv iota].
      eapply runs_bind; [by apply runs_printf|apply runs_ret].
    + apply printed_tx, (tx_le _ _ _ (S (S k))); [by eapply same_tx|lia].
  - exists b, x', lg'. split; [|split; [done|]].
    + unfold balloc. rstep. rewrite bitmap_starts_from by lia. fold c. eapply runs_bind; [exact R|apply runs_ret].
    + pose proof (al_range _ _ _ A). by rewrite (proj2 (Z.eqb_neq b 0)) by lia.
Qed.

(** bfree() clears the bit of the block it is given and no other; a block that is already
    free makes it panic, so a double free is always caught. *)
Theorem bfree_clears H x st lg k b :
  tx x st lg (S k) -> bitmap_ok x st -> locks_free H -> LLog ∉ H -> 0 <= b < sb_size (fs_sb x) ->
  if in_use x b then
    exists x' lg', runs H (bfree ROOTDEV b) x tt H x' /\ tx x' st lg' k /\
      (forall b', 0 <= b' < sb_size (fs_sb x) -> in_use x' b' = negb (b' =? b) && in_use x b') /\
      (forall m, m <> BBLOCK b (fs_sb x) -> cur x' m = cur x m)
  else forall s, ctx me my_pid H s -> k_fs s = x -> bfree ROOTDEV b s = Panic "freeing free block".
Proof.
  intros T HB HL HLL Hb. destruct (bm_block _ _ HB b Hb) as (Hn & Hnout & Hnlen). pose proof (bm_size _ _ HB) as Hs.
  set (n := BBLOCK b (fs_sb x)) in *. pose proof (Z.mod_pos_bound b BPB ltac:(done)) as Hm.
  destruct (update_block H x n st lg k T HL HLL Hn Hnout) as (bp & x1 & R1 & D1 & BO & Hlt & HW).
  unfold in_use at 1. fold n. destruct (bit_set (cur x n) (b mod BPB)) eqn:E.
  - set (D := set_bitmap_byte (b mod BPB) (Z.land (bitmap_byte (cur x n) (b mod BPB)) (Z.lnot (bit_mask (b mod BPB)))) (cur x n)).
    destruct (HW D) as (x2 & x3 & R2 & R3 & [T3 L3 C3]). destruct (logged_inode x x3 0 L3) as [_ Esb].
    exists x3, (with_block lg n). split_and!; [|done| |].
    + unfold bfree. rstep. fold n. eapply runs_bind; [exact R1|cbv beta]. rstep. rewrite D1. cbv zeta.
      unfold bit_set in E. apply negb_true_iff in E. rewrite E.
      eapply runs_bind; [by apply (put_data_as H x1 bp _ D Hlt); rewrite D1|cbv beta].
      eapply runs_bind; [exact R2|cbv beta]. exact R3.
    + intros b' Hb'. unfold in_use at 1. rewrite Esb, C3. unfold in_use.
      destruct (Z.eqb_spec (BBLOCK b' (fs_sb x)) n) as [Eb|Eb].
      * unfold D. rewrite clear_bit; [|rewrite Hnlen; unfold BPB, BSIZE in *; lia|apply Z.mod_pos_bound; done].
        rewrite Eb. f_equal. f_equal. apply BBLOCK_inj in Eb; [|apply HB|lia|lia].
        pose proof (Z.div_mod b' BPB ltac:(done)). pose proof (Z.div_mod b BPB ltac:(done)).
        destruct (Z.eqb_spec (b' mod BPB) (b mod BPB)) as [Em|Em], (Z.eqb_spec b' b) as [Eq|Eq];
          [done|exfalso; apply Eq; congruence|exfalso; apply Em; congruence|done].
      * destruct (Z.eqb_spec b' b) as [Ebb|]; [by subst b'|done].
    + intros m Hne. by rewrite C3, (proj2 (Z.eqb_neq _ _)).
  - intros s Hc Hx. unfold bfree. erewrite bind_ok; [|unfold getf, gets; reflexivity]. cbv beta. rewrite Hx.
    destruct (R1 s Hc Hx) as (s1 & E1 & Hx1 & _). fold n. erewrite bind_ok by exact E1. cbv beta.
    erewrite bind_ok; [|unfold get_buf, gets; reflexivity]. cbv beta zeta.
    replace (b_data (the_buf bp s1)) with (cur x n) by (rewrite <- D1, <- Hx1; reflexivity).
    unfold bit_set in E. apply negb_false_iff in E. by rewrite E.
Qed.

End proofs.

(** ** A bitmap with the blocks up to 55 in use *)

Definition bitmap_data : list Z := replicate 7 255 ++ replicate 1017 0.
Definition bitmap_fs : fsstate := set_fs_disk (fun n => if n =? 45 then bitmap_data else replicate 1024 0) file_fs.

Lemma bitmap_cur n : cur bitmap_fs n = if n =? 45 then bitmap_data else replicate 1024 0.
Proof. apply (empty_view bitmap_fs eq_refl). Qed.

Lemma bitmap_tx k : (k <= 20)%nat -> tx bitmap_fs 2 [] k.
Proof.
  intros Hk. destruct (empty_cache bitmap_fs eq_refl eq_refl) as [Hc Hi].
  split; [exact Hc|exact Hi| | | |reflexivity|done| |cbn; lia].
  - rewrite (empty_used bitmap_fs eq_refl). unfold NBUF. lia.
  - intros n. destruct (empty_view bitmap_fs eq_refl n) as (_ & -> & _). lia.
  - split; try done; [cbn; lia|apply NoDup_nil_2|]. by intros b Hb%not_elem_of_nil.
  - by intros b Hb%not_elem_of_nil.
Qed.

Lemma bitmap_BBLOCK b : 0 <= b < 1000 -> BBLOCK b (fs_sb bitmap_fs) = 45 /\ b mod BPB = b.
Proof.
  intros Hb. unfold BBLOCK. rewrite Z.div_small, Z.mod_small by (unfold BPB, BSIZE; lia). done.
Qed.

Lemma bitmap_in_use : Forall (fun i : nat => in_use bitmap_fs (Z.of_nat i) = true) (seq 0 56).
Proof. repeat constructor; unfold in_use; rewrite bitmap_cur; reflexivity. Qed.

Lemma bitmap_demo : bitmap_ok bitmap_fs 2.
Proof.
  split; [by vm_compute|by vm_compute| |].
  - intros b Hb. destruct (bitmap_BBLOCK b Hb) as [-> _]. rewrite bitmap_cur. unfold outside. split_and!; [lia|lia|lia|done].
  - intros b Hb Hf. assert (56 <= b) as Hge.
    { destruct (Z.leb_spec 56 b) as [|Hlt]; [done|]. exfalso.
      assert (in_use bitmap_fs (Z.of_nat (Z.to_nat b)) = true) as Ht.
      { apply (proj1 (Forall_forall _ _) bitmap_in_use). apply elem_of_seq. lia. }
      rewrite Z2Nat.id in Ht by lia. congruence. }
    unfold outside. split_and!; [lia|lia|]. intros b' Hb'. destruct (bitmap_BBLOCK b' Hb') as [-> _]. lia.
Qed.

Lemma no_locks : locks_free ∅.
Proof. split; [set_solver|intros i; set_solver]. Qed.

Lemma balloc_first_free_witness : exists r x',
  runs (caller := demo_caller) ∅ (balloc (env := eager) ROOTDEV) bitmap_fs r ∅ x' /\ r = 56.
Proof.
  destruct (balloc_first_free (env := eager) (caller := demo_caller) ∅ bitmap_fs 2 [] 1) as (r & x' & lg' & R & _ & Hr).
  - apply bitmap_tx. lia.
  - apply bitmap_demo.
  - apply no_locks.
  - set_solver.
  - set_solver.
  - exists r, x'. split; [done|]. assert (H56 : in_use bitmap_fs 56 = false) by (unfold in_use; rewrite bitmap_cur; reflexivity).
    destruct (r =? 0).
    + destruct Hr as [_ Hr]. rewrite Hr in H56; [done|by vm_compute].
    + pose proof (al_range _ _ _ Hr). pose proof (al_free _ _ _ Hr) as Hf. pose proof (al_first _ _ _ Hr) as Hfi.
      destruct (Z.lt_trichotomy r 56) as [Hlt|[|Hgt]]; [exfalso|done|exfalso].
      * assert (in_use bitmap_fs (Z.of_nat (Z.to_nat r)) = true) as Ht.
        { apply (proj1 (Forall_forall _ _) bitmap_in_use). apply elem_of_seq. lia. }
        rewrite Z2Nat.id in Ht by lia. congruence.
      * rewrite (Hfi 56) in H56; [done|lia].
Defined.

End BitmapProofs.
