(* ===== verification/DirProofs.v ===== *)
(** * The inode table and directories: iget() and dirlookup() of kernel/fs.c *)

From S2P Require Import Prelude Machine FsData Bytes State Locks CString VM Sched SchedProofs Proc Bio Log FsRun BioProofs LogProofs Fs FsPath FileProofs InodeProofs BitmapProofs.

Module DirProofs.
Import CString VM Sched SchedProofs Proc Sleeplock Bio Log FsRun BioProofs LogProofs Fs FsPath FileProofs InodeProofs BitmapProofs.

(** ** iget() *)

(** The inode table: an entry in use is the only one for its inode. *)
Record itable_ok (x : fsstate) : Prop := {
  it_len : length (fs_inode x) = NINODE;
  it_ref i : (i < NINODE)%nat -> 0 <= i_ref (finode i x);
  it_uniq i j : (i < NINODE)%nat -> (j < NINODE)%nat -> 0 < i_ref (finode i x) -> 0 < i_ref (finode j x) ->
    i_dev (finode i x) = i_dev (finode j x) -> i_inum (finode i x) = i_inum (finode j x) -> i = j
}.

(** The entry is in use for this inode. *)
Definition entry_for (x : fsstate) (dev inum : Z) (i : nat) : bool :=
  (i_ref (finode i x) >? 0) && (i_dev (finode i x) =? dev) && (i_inum (finode i x) =? inum).

Lemma before_seq n pre i post k : seq 0 n = pre ++ i :: post -> (k < i)%nat -> k ∈ pre.
Proof.
  intros Hl Hk. assert (Hi : forall j v, (pre ++ i :: post) !! j = Some v -> v = j).
  { intros j v. rewrite <- Hl. intros H%lookup_seq. lia. }
  assert (i = length pre) by (apply Hi; rewrite lookup_app_r, Nat.sub_diag; done).
  destruct (lookup_lt_is_Some_2 pre k ltac:(lia)) as [v Hv]. apply list_elem_of_lookup. exists k.
  rewrite Hv. f_equal. apply Hi. by rewrite lookup_app_l by lia.
Qed.

Section proofs.
Context {caller : Caller}.

Lemma runs_acc_scan {A V R} H (l : list A) (f : A -> V -> V) (body : A -> V -> K (V * ctl R)) v x :
  (forall a v, a ∈ l -> runs H (body a v) x (f a v, Continue) H x) ->
  runs H (for_acc l v body) x (fold_left (fun v a => f a v) l v, None) H x.
Proof.
  revert v. induction l as [|a l IH]; intros v Hb; cbn [for_acc fold_left]; [apply runs_ret|].
  eapply runs_bind; [apply Hb; set_solver|]. cbv beta iota. apply IH. intros. apply Hb. set_solver.
Qed.

Lemma runs_acc_hit {A V R} H (pre : list A) a post (f : A -> V -> V) (body : A -> V -> K (V * ctl R)) v x r H' x' :
  (forall b v, b ∈ pre -> runs H (body b v) x (f b v, Continue) H x) ->
  (forall v, runs H (body a v) x (v, Return r) H' x') ->
  exists v', runs H (for_acc (pre ++ a :: post) v body) x (v', Some r) H' x'.
Proof.
  revert v. induction pre as [|b pre IH]; intros v Hb Ha; cbn [app for_acc].
  - exists v. eapply runs_bind; [apply Ha|]. cbv beta iota. apply runs_ret.
  - destruct (IH (f b v)) as [v' R']; [intros; apply Hb; set_solver|done|].
    exists v'. eapply runs_bind; [apply Hb; set_solver|]. cbv beta iota. exact R'.
Qed.

(** The local variable [empty] of iget(). *)
Definition next_empty (x : fsstate) (i : nat) (empty : option nat) : option nat :=
  match empty with None => if i_ref (finode i x) =? 0 then Some i else None | Some _ => empty end.

Lemma empty_scan x l e :
  match fold_left (fun v i => next_empty x i v) l e with
  | Some i => e = Some i \/ (i ∈ l /\ i_ref (finode i x) = 0)
  | None => e = None /\ forall i, i ∈ l -> i_ref (finode i x) <> 0
  end.
Proof.
  revert e. induction l as [|j l IH]; intros e; cbn [fold_left].
  - destruct e; [by left|]. split; [done|]. by intros i Hi%not_elem_of_nil.
  - specialize (IH (next_empty x j e)). destruct (fold_left _ l _) as [i|].
    + destruct IH as [IH|[IH1 IH2]]; [|right; set_solver]. unfold next_empty in IH. destruct e; [by left|].
      destruct (Z.eqb_spec (i_ref (finode j x)) 0); [injection IH as <-; right; set_solver|done].
    + destruct IH as [IH1 IH2]. unfold next_empty in IH1. destruct e; [done|].
      destruct (Z.eqb_spec (i_ref (finode j x)) 0); [done|]. split; [done|]. intros i [->|Hi]%elem_of_cons; auto.
Qed.

(** What iget() returns: an entry for the inode with one more reference; a new entry is not
    valid; no other entry changes. *)
Record got (x x' : fsstate) (dev inum : Z) (i : nat) : Prop := {
  gt_lt : (i < NINODE)%nat;
  gt_dev : i_dev (finode i x') = dev;
  gt_inum : i_inum (finode i x') = inum;
  gt_ref : i_ref (finode i x') = if entry_for x dev inum i then i_ref (finode i x) + 1 else 1;
  gt_old : entry_for x dev inum i = false ->
    i_ref (finode i x) = 0 /\ i_valid (finode i x') = 0 /\ forall j, (j < NINODE)%nat -> entry_for x dev inum j = false;
  gt_other j : j <> i -> finode j x' = finode j x;
  gt_len : length (fs_inode x') = length (fs_inode x);
  gt_rest : x' = set_fs_inode (fs_inode x') x
}.

Lemma finode_same_len x i f : length (fs_inode (upd_inode i f x)) = length (fs_inode x).
Proof. unfold upd_inode. fsimpl. apply length_alter. Qed.

Lemma iget_run H x dev inum :
  itable_ok x -> LItable ∉ H -> (forall i, (i < NINODE)%nat -> i_ref (finode i x) < 2 ^ 31 - 1) ->
  (exists i, (i < NINODE)%nat /\ (entry_for x dev inum i = true \/ i_ref (finode i x) = 0)) ->
  exists i x', runs H (iget dev inum) x i H x' /\ got x x' dev inum i.
Proof.
  intros HI HL Hmax Hex. assert (HH : ({[LItable]} ∪ H) ∖ {[LItable]} = H) by set_solver.
  assert (HC : LItable ∈ ({[LItable]} ∪ H : gset lockid)) by set_solver. set (H1 := {[LItable]} ∪ H) in *.
  set (body := fun i (empty : option nat) =>
    ip <- get_inode i id ;;
    if (i_ref ip >? 0) && (i_dev ip =? dev) && (i_inum ip =? inum) then
      put_inode i (fun x => set_i_ref (s32 (i_ref x + 1)) x) ;;
      release LItable ;;
      retM (empty, Return i)
    else retM (match empty with
               | None => if i_ref ip =? 0 then Some i else None
               | Some _ => empty
               end, Continue)).
  assert (Hcont : forall i v, entry_for x dev inum i = false -> runs H1 (body i v) x (next_empty x i v, Continue) H1 x).
  { intros i v He. unfold body. rstep. unfold id. unfold entry_for in He. rewrite He. apply runs_ret. }
  pose proof (it_len _ HI) as Hlen.
  destruct (first_split (fun i => negb (entry_for x dev inum i)) (seq 0 NINODE)) as [Hall|(pre & i & post & Hl & Hpre & Hi)].
  - assert (Hnone : forall i, (i < NINODE)%nat -> entry_for x dev inum i = false).
    { intros i Hi. apply negb_true_iff, Hall, elem_of_seq. lia. }
    assert (R : runs H1 (for_acc (seq 0 NINODE) None body) x (fold_left (fun v i => next_empty x i v) (seq 0 NINODE) None, None) H1 x).
    { apply runs_acc_scan. intros i v Hi%elem_of_seq. apply Hcont, Hnone. lia. }
    pose proof (empty_scan x (seq 0 NINODE) None) as He.
    destruct (fold_left _ (seq 0 NINODE) None) as [i|].
    2:{ destruct He as [_ He], Hex as (i & Hi & [Hf|Hz]); [by rewrite Hnone in Hf|]. exfalso. apply (He i); [apply elem_of_seq; lia|done]. }
    destruct He as [|[Hi%elem_of_seq Hz]]; [done|]. assert (Hi' : (i < length (fs_inode x))%nat) by lia.
    exists i. eexists. split.
    + unfold iget. eapply runs_bind; [apply runs_acquire; [done|by intros]|cbv beta].
      eapply runs_bind; [exact R|cbv beta iota].
      do 4 (eapply runs_bind; [apply upd_inode_runs|cbv beta]). rewrite !upd_inode_twice.
      eapply runs_bind; [by apply runs_release|cbv beta]. rewrite HH. apply runs_ret.
    + assert (Hf : entry_for x dev inum i = false) by (apply Hnone; lia).
      split; rewrite ?finode_upd, ?decide_True by done; rewrite ?Hf; try done; [lia| |].
      * intros j Hj. rewrite finode_upd by done. by rewrite decide_False.
      * by rewrite finode_same_len.
  - apply negb_false_iff in Hi. assert (Hi' : (i < NINODE)%nat).
    { assert (i ∈ seq 0 NINODE) as Hin by (rewrite Hl; set_solver). apply elem_of_seq in Hin. lia. }
    assert (Hs : forall v, runs H1 (body i v) x (v, Return i) H (upd_inode i (fun x => set_i_ref (s32 (i_ref x + 1)) x) x)).
    { intros v. unfold body. rstep. unfold id. unfold entry_for in Hi. rewrite Hi.
      eapply runs_bind; [apply upd_inode_runs|cbv beta]. eapply runs_bind; [by apply runs_release|cbv beta]. rewrite HH. apply runs_ret. }
    destruct (runs_acc_hit H1 pre i post (next_empty x) body None x i H _ (fun b v Hb => Hcont b v (proj1 (negb_true_iff _) (Hpre b Hb))) Hs) as [v' R].
    exists i. eexists. split.
    + unfold iget. eapply runs_bind; [apply runs_acquire; [done|by intros]|cbv beta]. fold body. rewrite Hl.
      eapply runs_bind; [exact R|cbv beta iota]. apply runs_ret.
    + pose proof (it_ref _ HI i Hi') as Hr. pose proof (Hmax i Hi'). assert (Hi'' : (i < length (fs_inode x))%nat) by lia.
      assert (Hi2 := Hi). unfold entry_for in Hi. apply andb_true_iff in Hi as [[Hgt Hd%Z.eqb_eq]%andb_true_iff Hn%Z.eqb_eq].
      split; rewrite ?finode_upd, ?decide_True by done; rewrite ?Hi2; try done.
      * fsimpl. apply s32_small. lia.
      * intros j Hj. rewrite finode_upd by done. by rewrite decide_False.
      * by rewrite finode_same_len.
Qed.

Lemma entry_for_true x dev inum i :
  entry_for x dev inum i = true <-> 0 < i_ref (finode i x) /\ i_dev (finode i x) = dev /\ i_inum (finode i x) = inum.
Proof. unfold entry_for. rewrite !andb_true_iff, !Z.eqb_eq, Z.gtb_lt. tauto. Qed.

Lemma got_ok x x' dev inum i : itable_ok x -> got x x' dev inum i -> itable_ok x'.
Proof.
  intros HI [Hlt Hd Hn Hr Hold Ho Hlen Hrest].
  assert (Hpos : 0 < i_ref (finode i x')) by (pose proof (it_ref _ HI i Hlt); rewrite Hr; destruct (entry_for x dev inum i); lia).
  assert (Hother : forall j, (j < NINODE)%nat -> 0 < i_ref (finode j x') -> i_dev (finode j x') = dev ->
    i_inum (finode j x') = inum -> j = i).
  { intros j Hj Hrj Hdj Hnj. destruct (decide (j = i)) as [|Hne]; [done|]. rewrite (Ho j Hne) in Hrj, Hdj, Hnj.
    assert (Hej : entry_for x dev inum j = true) by (by apply entry_for_true).
    destruct (entry_for x dev inum i) eqn:E.
    - apply entry_for_true in E as (E1 & E2 & E3). apply (it_uniq _ HI); congruence || done.
    - destruct (Hold eq_refl) as (_ & _ & Hno). by rewrite Hno in Hej. }
  split.
  - rewrite Hlen. apply HI.
  - intros j Hj. destruct (decide (j = i)) as [Ej|Hne]; [subst j; lia|]. rewrite (Ho j Hne). by apply HI.
  - intros j1 j2 H1 H2 R1 R2 Ed En.
    destruct (decide (j1 = i)) as [E1|N1]; [subst j1; symmetry; apply Hother; congruence|].
    destruct (decide (j2 = i)) as [E2|N2]; [subst j2; apply Hother; congruence|].
    rewrite (Ho j1 N1) in *. rewrite (Ho j2 N2) in *. by apply (it_uniq _ HI).
Qed.

(** C30: iget() keeps the inode table free of duplicates: it returns the entry in use for the
    inode if there is one, with one more reference, and otherwise takes a free entry, which it
    marks as not yet read from disk; no other entry changes, and two entries in use never name
    the same inode. *)
Theorem iget_unique H x dev inum :
  itable_ok x -> LItable ∉ H -> (forall i, (i < NINODE)%nat -> i_ref (finode i x) < 2 ^ 31 - 1) ->
  (exists i, (i < NINODE)%nat /\ (entry_for x dev inum i = true \/ i_ref (finode i x) = 0)) ->
  exists i x', runs H (iget dev inum) x i H x' /\ got x x' dev inum i /\ itable_ok x'.
Proof.
  intros HI HL Hmax Hex. destruct (iget_run H x dev inum HI HL Hmax Hex) as (i & x' & R & G).
  exists i, x'. split_and!; [done|done|]. by eapply got_ok.
Qed.

(** ** dirlookup() *)

Definition dir_entry (x : fsstate) (dp : nat) (i : nat) : list Z := bytes x dp (16 * Z.of_nat i) 16.

(** The entry is in use and has this name. *)
Definition entry_named (x : fsstate) (dp : nat) (name : list Z) (i : nat) : bool :=
  negb (de_inum (dir_entry x dp i) =? 0) && (namecmp name (de_name (dir_entry x dp i)) =? 0).

(** A directory of [n] entries whose blocks are allocated. *)
Record directory (x : fsstate) (dp : nat) (n : nat) : Prop := {
  dr_type : i_type (finode dp x) = T_DIR;
  dr_size : i_size (finode dp x) = 16 * Z.of_nat n;
  dr_small : 16 * Z.of_nat n < 2 ^ 31;
  dr_read : readable x dp 0 (16 * Z.of_nat n)
}.

Lemma same_entry x x' dp i : same x x' -> dir_entry x' dp i = dir_entry x dp i.
Proof. intros S. unfold dir_entry, bytes. apply list_fmap_ext. intros. by rewrite (same_byte x x'). Qed.

Lemma same_directory x x' dp n : same x x' -> directory x dp n -> directory x' dp n.
Proof.
  intros S [H1 H2 H3 H4]. destruct (bio_inode x x' dp (sm_bio _ _ S)) as (E & _). split; rewrite ?E; try done.
  by eapply same_readable.
Qed.

Context {img : Image} {env : Env}.

Lemma read_entry_run H x dp n i :
  directory x dp n -> locks_free H -> (i < n)%nat ->
  exists x', runs H (readi dp ToLocal (16 * Z.of_nat i) 16) x (16, dir_entry x dp i) H x' /\ same x x'.
Proof.
  intros [H1 H2 H3 H4] HL Hi.
  assert (Hk : read_count (i_size (finode dp x)) (16 * Z.of_nat i) 16 = 16).
  { unfold read_count. rewrite H2, Z.gtb_ltb, (proj2 (Z.ltb_ge _ _)) by lia. lia. }
  destruct (readi_run H x dp (16 * Z.of_nat i) 16) as (x' & R & S); [lia|lia|lia|rewrite H2; lia| |done|].
  - rewrite Hk. destruct H4 as [G1 G2 G3 G4 G5]. split; try done; [lia|]. intros k Hk'. apply G4. lia.
  - rewrite Hk in R. by exists x'.
Qed.

(** The body of the loop of dirlookup(). *)
Definition look_body (dp : nat) (name : list Z) (off : Z) : K (ctl (nat * Z)) :=
  '(r, de) <- readi dp ToLocal off 16 ;;
  if negb (r =? 16) then panic "dirlookup read" else
  if de_inum de =? 0 then retM Continue else
  if namecmp name (de_name de) =? 0 then
    dev <- get_inode dp i_dev ;;
    i <- iget dev (de_inum de) ;;
    retM (Return (i, off))
  else retM Continue.

Lemma look_miss H x dp n name i :
  directory x dp n -> locks_free H -> (i < n)%nat -> entry_named x dp name i = false ->
  exists x', runs H (look_body dp name (16 * Z.of_nat i)) x Continue H x' /\ same x x'.
Proof.
  intros HD HL Hi Hn. destruct (read_entry_run H x dp n i HD HL Hi) as (x' & R & S). exists x'. split; [|done].
  unfold look_body. eapply runs_bind; [exact R|cbv beta iota]. change (negb (16 =? 16)) with false. cbv iota.
  unfold entry_named in Hn. destruct (de_inum (dir_entry x dp i) =? 0); [apply runs_ret|]. cbn [negb andb] in Hn.
  rewrite Hn. apply runs_ret.
Qed.

Lemma look_all H c j x dp n name :
  directory x dp n -> locks_free H -> (j + c <= n)%nat ->
  (forall i, (j <= i < j + c)%nat -> entry_named x dp name i = false) ->
  exists x', runs H (for_loop ((fun i : nat => 16 * Z.of_nat i) <$> seq j c) (look_body dp name)) x None H x' /\ same x x'.
Proof.
  revert j x. induction c as [|c IH]; intros j x HD HL Hle Hn; cbn [seq fmap list_fmap for_loop].
  { exists x. split; [apply runs_ret|]. apply same_refl, HD. }
  destruct (look_miss H x dp n name j HD HL ltac:(lia)) as (x1 & R1 & S1); [apply Hn; lia|].
  destruct (IH (S j) x1) as (x2 & R2 & S2); [by eapply same_directory|done|lia| |].
  - intros i Hi. unfold entry_named. rewrite (same_entry x x1 dp i S1). apply Hn. lia.
  - exists x2. split; [|by eapply same_trans]. eapply runs_bind; [exact R1|exact R2].
Qed.

Lemma look_hit H c j i x dp n name :
  directory x dp n -> locks_free H -> LItable ∉ H -> (j <= i < j + c)%nat -> (j + c <= n)%nat -> entry_named x dp name i = true ->
  (forall k, (j <= k < i)%nat -> entry_named x dp name k = false) ->
  itable_ok x -> (forall i, (i < NINODE)%nat -> i_ref (finode i x) < 2 ^ 31 - 1) ->
  (exists k, (k < NINODE)%nat /\ i_ref (finode k x) = 0) ->
  exists x1 ip x', runs H (for_loop ((fun i : nat => 16 * Z.of_nat i) <$> seq j c) (look_body dp name)) x
      (Some (ip, 16 * Z.of_nat i)) H x' /\
    same x x1 /\ got x1 x' ROOTDEV (de_inum (dir_entry x dp i)) ip.
Proof.
  revert j x. induction c as [|c IH]; intros j x HD HL HLI Hi Hle Hh Hn HI Hmax Hex; [lia|]. cbn [seq fmap list_fmap for_loop].
  assert (Hsame : forall x1, same x x1 -> (forall k, finode k x1 = finode k x) /\ fs_inode x1 = fs_inode x).
  { intros x1 S1. pose proof (sm_bio _ _ S1) as B. split; [intros k; by destruct (bio_inode x x1 k B)|by rewrite B]. }
  assert (Hok : forall x1, same x x1 -> itable_ok x1).
  { intros x1 S1. destruct (Hsame x1 S1) as [E El]. destruct HI as [G1 G2 G3]. split; [by rewrite El| |].
    - intros k. rewrite E. apply G2.
    - intros k1 k2. rewrite !E. apply G3. }
  destruct (decide (i = j)) as [Eij|Hne].
  - subst j. destruct (read_entry_run H x dp n i HD HL ltac:(lia)) as (x1 & R1 & S1). destruct (Hsame x1 S1) as [E El].
    destruct (iget_run H x1 ROOTDEV (de_inum (dir_entry x dp i)) (Hok x1 S1) HLI) as (ip & x' & R2 & G).
    { intros k Hk. rewrite E. by apply Hmax. }
    { destruct Hex as (k & Hk & Hz). exists k. split; [done|]. right. by rewrite E. }
    exists x1, ip, x'. split_and!; [|done|done].
    assert (Rb : runs H (look_body dp name (16 * Z.of_nat i)) x (Return (ip, 16 * Z.of_nat i)) H x').
    { unfold look_body. eapply runs_bind; [exact R1|cbv beta iota]. change (negb (16 =? 16)) with false. cbv iota.
      unfold entry_named in Hh. apply andb_true_iff in Hh as [Hz%negb_true_iff Hnm]. rewrite Hz, Hnm. rstep.
      rewrite E, (rb_dev _ _ _ _ (dr_read _ _ _ HD)). eapply runs_bind; [exact R2|cbv beta]. apply runs_ret. }
    eapply runs_bind; [exact Rb|]. apply runs_ret.
  - destruct (look_miss H x dp n name j HD HL ltac:(lia)) as (x1 & R1 & S1); [apply Hn; lia|]. destruct (Hsame x1 S1) as [E El].
    assert (Hnm : forall k, entry_named x1 dp name k = entry_named x dp name k) by (intros k; unfold entry_named; by rewrite (same_entry x x1 dp k S1)).
    destruct (IH (S j) x1) as (x2 & ip & x' & R2 & S2 & G); [by eapply same_directory|done|done|lia|lia|by rewrite Hnm| |by apply Hok| | |].
    + intros k Hk. rewrite Hnm. apply Hn. lia.
    + intros k Hk. rewrite E. by apply Hmax.
    + destruct Hex as (k & Hk & Hz). exists k. split; [done|]. by rewrite E.
    + rewrite (same_entry x x1 dp i S1) in G. exists x2, ip, x'. split_and!; [|by eapply same_trans|done].
      eapply runs_bind; [exact R1|exact R2].
Qed.

(** C16: dirlookup() finds the first entry in use whose name matches, and returns a referenced
    inode-table entry for the inode it names and the entry's byte offset; it returns null when
    no entry in use has the name.  The directory itself is left as it was. *)
Theorem dirlookup_first H x dp n name :
  directory x dp n -> locks_free H -> LItable ∉ H -> itable_ok x ->
  (forall i, (i < NINODE)%nat -> i_ref (finode i x) < 2 ^ 31 - 1) ->
  (exists k, (k < NINODE)%nat /\ i_ref (finode k x) = 0) ->
  (exists x', runs H (dirlookup dp name) x None H x' /\ same x x' /\
     forall i, (i < n)%nat -> entry_named x dp name i = false) \/
  (exists i x1 ip x', (i < n)%nat /\ entry_named x dp name i = true /\
     (forall k, (k < i)%nat -> entry_named x dp name k = false) /\
     runs H (dirlookup dp name) x (Some (ip, 16 * Z.of_nat i)) H x' /\ same x x1 /\
     got x1 x' ROOTDEV (de_inum (dir_entry x dp i)) ip).
Proof.
  intros HD HL HLI HI Hmax Hex.
  assert (Ho : dirent_offs (i_size (finode dp x)) = (fun i : nat => 16 * Z.of_nat i) <$> seq 0 n).
  { unfold dirent_offs. rewrite (dr_size _ _ _ HD). f_equal. f_equal.
    replace (16 * Z.of_nat n + 15) with (15 + Z.of_nat n * 16) by lia. rewrite Z.div_add by lia.
    change (15 / 16) with 0. lia. }
  assert (R0 : forall r x', runs H (for_loop ((fun i : nat => 16 * Z.of_nat i) <$> seq 0 n) (look_body dp name)) x r H x' ->
    runs H (dirlookup dp name) x r H x').
  { intros r x' R. unfold dirlookup. rstep. unfold id. rewrite (dr_type _ _ _ HD). change (negb (T_DIR =? T_DIR)) with false.
    cbv iota. rewrite Ho. exact R. }
  destruct (first_split (fun i => negb (entry_named x dp name i)) (seq 0 n)) as [Hall|(pre & i & post & Hl & Hpre & Hi)].
  - left. assert (Hnone : forall i, (i < n)%nat -> entry_named x dp name i = false).
    { intros i Hi. apply negb_true_iff, Hall, elem_of_seq. lia. }
    destruct (look_all H n 0 x dp n name HD HL) as (x' & R & S); [lia|intros i Hi; apply Hnone; lia|].
    exists x'. split_and!; [by apply R0|done|done].
  - right. apply negb_false_iff in Hi. assert (Hin : i ∈ seq 0 n) by (rewrite Hl; set_solver). apply elem_of_seq in Hin.
    assert (Hbefore : forall k, (k < i)%nat -> entry_named x dp name k = false).
    { intros k Hk. apply negb_true_iff, Hpre. by apply (before_seq n pre i post). }
    destruct (look_hit H n 0 i x dp n name) as (x1 & ip & x' & R & S & G); try done; try lia; [intros k Hk; apply Hbefore; lia|].
    exists i, x1, ip, x'. split_and!; try done; [lia|by apply R0].
Qed.

End proofs.

(** A directory with the entries [.] (inode 1) and [ab] (inode 7). *)
Definition dir_inode : inode := MkInode ROOTDEV 1 1 sleeplock0 1 T_DIR 0 0 1 32 (50 :: replicate 12 0).

Definition dir_block : list Z := dirent_bytes 1 (strncpy_bytes [46; 0] 14) ++ dirent_bytes 7 (strncpy_bytes [97; 98; 0] 14) ++ replicate 992 0.

Definition dir_fs : fsstate :=
  MkFs (replicate NBUF buf0) (seq 0 NBUF) (fun n => if n =? 50 then dir_block else replicate 1024 0) []
    (MkLog 2 1 0 ROOTDEV 0 (replicate 30 0)) (MkSuper FSMAGIC 1000 900 16 30 2 40 45)
    (dir_inode :: replicate 49 inode0) [] (MkCons [] 0 0 0) [] 0 0.

Lemma dir_fs_inode i : finode (S i) dir_fs = inode0.
Proof.
  unfold finode. change (fs_inode dir_fs) with (dir_inode :: replicate 49 inode0). rewrite lookup_cons_ne_0 by done.
  cbn [pred]. destruct (replicate 49 inode0 !! i) eqn:E; [|done]. by apply lookup_replicate in E as [-> _].
Qed.

Lemma dir_fs_table : itable_ok dir_fs.
Proof.
  split; [reflexivity| |].
  - intros [|i] _; [by vm_compute|]. by rewrite dir_fs_inode.
  - intros [|i] [|j] _ _; rewrite ?dir_fs_inode; intros H1 H2; done.
Qed.

Lemma dir_fs_directory : directory dir_fs 0 2.
Proof.
  destruct (empty_cache dir_fs eq_refl eq_refl) as [Hc Hi].
  assert (Hm : forall bn, mapped dir_fs 0 bn -> bn = 0) by exact file_mapped.
  split; [reflexivity|reflexivity|lia|]. split; [|reflexivity|lia| |].
  - split; [exact Hc|exact Hi|rewrite (empty_used dir_fs eq_refl); unfold NBUF; lia|].
    intros n. destruct (empty_view dir_fs eq_refl n) as (_ & -> & _). lia.
  - intros j Hj. replace (j / BSIZE) with 0 by (symmetry; apply Z.div_small; unfold BSIZE; lia). by vm_compute.
  - intros bn Hb. apply Hm in Hb. subst bn. by vm_compute.
Qed.

Lemma iget_unique_witness : exists i x',
  runs (caller := demo_caller) ∅ (iget ROOTDEV 7) dir_fs i ∅ x' /\ i_inum (finode i x') = 7 /\ itable_ok x'.
Proof.
  destruct (iget_unique (caller := demo_caller) ∅ dir_fs ROOTDEV 7) as (i & x' & R & G & HI).
  - apply dir_fs_table.
  - set_solver.
  - intros [|i] _; [by vm_compute|]. by rewrite dir_fs_inode.
  - exists 1%nat. split; [by apply Nat.ltb_lt|]. right. reflexivity.
  - exists i, x'. split_and!; [exact R|apply G|exact HI].
Defined.

Lemma dirlookup_first_witness : exists ip x',
  runs (caller := demo_caller) ∅ (dirlookup (img := tiny_image) (env := eager) 0 [97; 98; 0]) dir_fs (Some (ip, 16)) ∅ x' /\
  i_inum (finode ip x') = 7.
Proof.
  assert (HF : locks_free ∅) by (split; [set_solver|intros i; set_solver]).
  destruct (dirlookup_first (img := tiny_image) (env := eager) (caller := demo_caller) ∅ dir_fs 0 2 [97; 98; 0])
    as [(x' & R & _ & Hn)|(i & x1 & ip & x' & Hi & Hm & Hk & R & _ & G)].
  - apply dir_fs_directory.
  - exact HF.
  - set_solver.
  - apply dir_fs_table.
  - intros [|i] _; [by vm_compute|]. by rewrite dir_fs_inode.
  - exists 1%nat. split; [by apply Nat.ltb_lt|reflexivity].
  - specialize (Hn 1%nat ltac:(lia)). vm_compute in Hn. discriminate.
  - destruct i as [|[|i]]; [vm_compute in Hm; discriminate| |lia]. exists ip, x'. split; [exact R|apply G].
Defined.

End DirProofs.
