(* ===== verification/SyscallProofs.v ===== *)
(** * System calls: the dispatch of a number that is not a call, and the limits of sbrk() *)

From S2P Require Import Prelude Machine FsData State Locks CString VM Sched SchedProofs Proc Bio FsRun Print Console ConsoleProofs Sysfile Syscall.

Module SyscallProofs.
Import CString VM Sched SchedProofs Proc FsRun Print Console ConsoleProofs Sysfile Syscall.

Section proofs.
Context {img : Image} {env : Env}.

(** ** printf() *)

Definition show (out : list Z) (s : kstate) : kstate := set_k_fs (printed out (k_fs s)) s.

Lemma show_show a b s : show b (show a s) = show (a ++ b) s.
Proof. unfold show. ksimpl. by rewrite printed_twice. Qed.

Lemma show_nil s : show [] s = s.
Proof. destruct s as [? ? ? ? ? ? ? ? ? ? ? ? ? x ?]. unfold show, printed. ksimpl. rewrite app_nil_r. by destruct x. Qed.

Lemma write_thr_shows c s : write_thr c s = Ok tt (show [u8 c] s).
Proof. done. Qed.

Lemma consputc_shows c s : consputc c s = Ok tt (show (sent c) s).
Proof.
  unfold consputc, uartputc_sync, sent. destruct (c =? BACKSPACE); [|apply write_thr_shows].
  do 2 (erewrite bind_ok by apply write_thr_shows). rewrite write_thr_shows. by rewrite !show_show.
Qed.

Lemma printf_prints fmt args s :
  LPr ∉ k_held s -> printf fmt args s = Ok tt (show (format fmt args ≫= sent) s).
Proof.
  intros Hl. unfold printf. mcall acquire_ok. set (s1 := set_k_held _ s).
  assert (Hloop : forall l s, for_loop l (fun c => consputc c ;; retM (@Continue unit)) s = Ok None (show (l ≫= sent) s)).
  { induction l as [|c l IH]; intros s0; cbn [for_loop mbind list_bind]; [by rewrite show_nil|].
    mrun. erewrite bind_ok by apply consputc_shows. mrun. rewrite IH. by rewrite show_show. }
  erewrite bind_ok by apply Hloop. rewrite release_ok by (unfold show, s1; ksimpl; set_solver).
  f_equal. unfold show, s1. ksimpl. rewrite held_add_remove by done. by destruct s.
Qed.

(** ** syscall() *)

(** The saved register a7, and the C int the call number is. *)
Definition call_number (p : nat) (s : kstate) : Z := s32 (load64 (k_mem s) (p_trapframe (the_proc p s) + TF_a7)).

(** The line an unknown call prints. *)
Definition unknown_call (q : proc) (num : Z) : list Z :=
  format (chars "%d %s: unknown sys call %d" ++ [newline]) [AInt (p_pid q); AStr (Some (c_string (p_name q))); AInt num].

Lemma no_call num : num <= 0 \/ 31 < num -> syscall_at num = None.
Proof.
  intros Hn. unfold syscall_at. rewrite Z.gtb_ltb. destruct (Z.ltb_spec 0 num); [|done].
  apply lookup_ge_None. change (length syscalls) with 31%nat. lia.
Qed.

Lemma some_call num : 1 <= num <= 31 -> exists f, syscall_at num = Some f.
Proof.
  intros Hn. unfold syscall_at. rewrite Z.gtb_ltb, (proj2 (Z.ltb_lt 0 num)) by lia.
  apply lookup_lt_is_Some. change (length syscalls) with 31%nat. lia.
Qed.

(** C40: the numbers 1 to 31 are the system calls.  Any other number in the caller's a7, zero and
    negative ones included, prints one line with the caller's pid and name and the number, sets
    the caller's a0 to -1, and changes nothing else. *)
Theorem syscall_unknown p s :
  k_cur s = Some p -> LPr ∉ k_held s ->
  if decide (1 <= call_number p s <= 31)
  then exists f, syscall_at (call_number p s) = Some f
  else syscall s = Ok tt
    (set_k_mem (store64 (k_mem s) (p_trapframe (the_proc p s) + TF_a0) (2 ^ 64 - 1))
      (show (unknown_call (the_proc p s) (call_number p s) ≫= sent) s)).
Proof.
  intros Hp Hl. case_decide as Hn; [by apply some_call|].
  unfold syscall. rewrite (bind_ok _ _ s p s) by (unfold myproc; mrun; by rewrite Hp).
  rewrite (bind_ok _ _ s (p_trapframe (the_proc p s)) s) by done. rewrite (bind_ok _ _ s (call_number p s) s) by done.
  cbv beta. rewrite no_call by lia. unfold get_proc, put_mem.
  mrun. rewrite (bind_ok _ _ _ _ _ (printf_prints _ _ _ Hl)). mrun. unfold unknown_call. ksimpl. reflexivity.
Qed.

(** ** sbrk() *)

Definition int_arg (n : Z) (p : nat) (s : kstate) : Z := s32 (load64 (k_mem s) (p_trapframe (the_proc p s) + TF_a0 + 8 * n)).

Lemma argint_ok n p s : k_cur s = Some p -> 0 <= n <= 5 -> argint n s = Ok (int_arg n p s) s.
Proof.
  intros Hp Hn. unfold argint, argraw, myproc, get_proc, get_mem. mrun. rewrite Hp. mrun.
  rewrite (proj2 (Z.leb_le 0 n)), (proj2 (Z.leb_le n 5)) by lia. cbn [andb]. mrun. done.
Qed.

(** C39: the limits of sbrk().  Growing a process past TRAPFRAME, eagerly or lazily, returns -1 and
    changes nothing; lazy growth up to it only moves the size and returns the old one; shrinking by more than the size returns the old size and changes nothing. *)
Theorem sbrk_bounds p s (n t sz : Z) :
  k_cur s = Some p -> int_arg 0 p s = n -> int_arg 1 p s = t -> p_sz (the_proc p s) = sz -> 0 <= sz <= TRAPFRAME ->
  (TRAPFRAME < sz + n -> sys_sbrk s = Ok (-1) s) /\
  (0 <= n -> sz + n <= TRAPFRAME -> t <> SBRK_EAGER -> sys_sbrk s = Ok sz (upd_proc p (set_p_sz (sz + n)) s)) /\
  (sz + n < 0 -> sys_sbrk s = Ok sz s).
Proof.
  intros Hp Hn Ht Hsz Hb.
  assert (Hr : - 2 ^ 31 <= n < 2 ^ 31) by (rewrite <- Hn; apply s32_range).
  assert (HT : TRAPFRAME < 2 ^ 38) by by vm_compute.
  unfold sys_sbrk, growproc, uvmdealloc, myproc, get_proc, put_proc.
  rewrite (bind_ok _ _ _ _ _ (argint_ok 0 p s Hp ltac:(lia))), (bind_ok _ _ _ _ _ (argint_ok 1 p s Hp ltac:(lia))).
  rewrite Hn, Ht. mrun. rewrite Hp. mrun. rewrite Hsz. unfold SBRK_EAGER. split_and!; intros.
  - rewrite u64_small by lia. zcases; mrun; rewrite ?Hp; mrun; rewrite ?Hsz, ?u64_small by lia; zcases; done.
  - rewrite u64_small, (proj2 (Z.eqb_neq t 1)), (proj2 (Z.ltb_ge n 0)) by done || lia. cbn [orb].
    rewrite (proj2 (Z.ltb_ge (sz + n) sz)), Z.gtb_ltb, (proj2 (Z.ltb_ge TRAPFRAME (sz + n))) by lia. mrun.
    unfold modify, bindM, retM. f_equal. apply upd_proc_ext. intros q ->. by rewrite Hsz, u64_small by lia.
  - assert (Hw : u64 (sz + n) = sz + n + 2 ^ 64) by (symmetry; apply (Zmod_unique _ _ (-1)); lia).
    zcases; mrun; rewrite ?Hp; mrun; rewrite ?Hsz, ?Hw; zcases; mrun; zcases; unfold modify, bindM, retM; f_equal; apply upd_proc_id; rewrite <- Hsz; by destruct (the_proc p s).
Qed.

End proofs.

(** A process whose trapframe is at 0x1000 and with these saved registers. *)
Definition with_regs (a0 a1 a7 sz : Z) : kstate :=
  let m := store64 (store64 (store64 (fun _ => 0) (4096 + TF_a0) a0) (4096 + TF_a0 + 8) a1) (4096 + TF_a7) a7 in
  set_k_mem m (upd_proc 0 (fun q => set_p_sz sz (set_p_trapframe 4096 q)) demo).

Lemma syscall_unknown_witness :
  call_number 0 (with_regs 0 0 99 0) = 99 /\
  exists s', syscall (img := tiny_image) (env := eager) (with_regs 0 0 99 0) = Ok tt s' /\
    load64 (k_mem s') (4096 + TF_a0) = 2 ^ 64 - 1.
Proof.
  split; [by vm_compute|]. eexists. split.
  - exact (syscall_unknown (img := tiny_image) (env := eager) 0 (with_regs 0 0 99 0) eq_refl (not_elem_of_empty _)).
  - by vm_compute.
Defined.

Lemma sbrk_bounds_witness :
  sys_sbrk (img := tiny_image) (with_regs 5000 SBRK_LAZY 12 8192) =
    Ok 8192 (upd_proc 0 (set_p_sz 13192) (with_regs 5000 SBRK_LAZY 12 8192)) /\
  sys_sbrk (img := tiny_image) (with_regs (u64 (-9000)) SBRK_EAGER 12 8192) = Ok 8192 (with_regs (u64 (-9000)) SBRK_EAGER 12 8192) /\
  sys_sbrk (img := tiny_image) (with_regs 5000 SBRK_EAGER 12 TRAPFRAME) = Ok (-1) (with_regs 5000 SBRK_EAGER 12 TRAPFRAME).
Proof.
  split_and!.
  - apply (sbrk_bounds (img := tiny_image) 0 (with_regs 5000 SBRK_LAZY 12 8192) 5000 SBRK_LAZY 8192); by vm_compute.
  - apply (sbrk_bounds (img := tiny_image) 0 (with_regs (u64 (-9000)) SBRK_EAGER 12 8192) (-9000) SBRK_EAGER 8192); by vm_compute.
  - apply (sbrk_bounds (img := tiny_image) 0 (with_regs 5000 SBRK_EAGER 12 TRAPFRAME) 5000 SBRK_EAGER TRAPFRAME); by vm_compute.
Defined.

End SyscallProofs.
