(* ===== verification/Asm.v ===== *)
(** * The assembly of the kernel: trampoline.S, swtch.S, kernelvec.S, entry.S, and the stubs of
      user/usys.pl

    A hart with its registers, control registers and privilege, the instructions the assembly
    files use, and the files as lists of them.  Loads and stores go through the Sv39 page table
    satp selects, as the hardware walks it; the accessed and dirty bits, which no code reads,
    are left out.  An access that faults, or is not aligned, is [None].  Where a file calls a C
    function its code ends and goes on in a second list.  The addresses of labels are
    parameters, for the assembler chooses the size of the instructions. *)

From stdpp Require Import functions.
From S2P Require Import Prelude Machine VM Trap.

Module Asm.
Import VM Trap.

(** ** The hart *)

Inductive reg : Type :=
| zero | ra | sp | gp | tp | t0 | t1 | t2 | s0 | s1 | a0 | a1 | a2 | a3 | a4 | a5 | a6 | a7
| s2 | s3 | s4 | s5 | s6 | s7 | s8 | s9 | s10 | s11 | t3 | t4 | t5 | t6.

(** The registers by number, x0 to x31. *)
Definition regs : list reg :=
  [zero; ra; sp; gp; tp; t0; t1; t2; s0; s1; a0; a1; a2; a3; a4; a5; a6; a7;
   s2; s3; s4; s5; s6; s7; s8; s9; s10; s11; t3; t4; t5; t6].

Definition regno (r : reg) : nat :=
  match r with
  | zero => 0 | ra => 1 | sp => 2 | gp => 3 | tp => 4 | t0 => 5 | t1 => 6 | t2 => 7
  | s0 => 8 | s1 => 9 | a0 => 10 | a1 => 11 | a2 => 12 | a3 => 13 | a4 => 14 | a5 => 15
  | a6 => 16 | a7 => 17 | s2 => 18 | s3 => 19 | s4 => 20 | s5 => 21 | s6 => 22 | s7 => 23
  | s8 => 24 | s9 => 25 | s10 => 26 | s11 => 27 | t3 => 28 | t4 => 29 | t5 => 30 | t6 => 31
  end.

Lemma regs_regno r : regs !! regno r = Some r.
Proof. by destruct r. Qed.

#[global] Instance reg_eq_dec : EqDecision reg.
Proof.
  intros r r'. destruct (decide (regno r = regno r')) as [E|Hne]; [left|right; by intros ->].
  pose proof (regs_regno r) as H. rewrite E, regs_regno in H. by injection H.
Defined.

Inductive priv : Type := User | Supervisor | Machine.

Record hart : Type := Hart {
  h_reg : reg -> Z;
  h_csr : csrs;
  h_sscratch : Z;
  h_mem : memory;
  h_priv : priv;
  h_pc : Z
}.

Definition set_reg (r : reg) (v : Z) (h : hart) : hart :=
  Hart (<[r := v]> (h_reg h)) (h_csr h) (h_sscratch h) (h_mem h) (h_priv h) (h_pc h).
Definition set_csr (f : csrs -> csrs) (h : hart) : hart :=
  Hart (h_reg h) (f (h_csr h)) (h_sscratch h) (h_mem h) (h_priv h) (h_pc h).
Definition set_sscratch (v : Z) (h : hart) : hart :=
  Hart (h_reg h) (h_csr h) v (h_mem h) (h_priv h) (h_pc h).
Definition set_mem (m : memory) (h : hart) : hart :=
  Hart (h_reg h) (h_csr h) (h_sscratch h) m (h_priv h) (h_pc h).
Definition set_pc (v : Z) (h : hart) : hart :=
  Hart (h_reg h) (h_csr h) (h_sscratch h) (h_mem h) (h_priv h) v.
Definition set_priv (v : priv) (h : hart) : hart :=
  Hart (h_reg h) (h_csr h) (h_sscratch h) (h_mem h) v (h_pc h).

(** x0 is constant. *)
Definition rget (r : reg) (h : hart) : Z := if decide (r = zero) then 0 else h_reg h r.
Definition rset (r : reg) (v : Z) (h : hart) : hart := if decide (r = zero) then h else set_reg r (u64 v) h.

(** ** Sv39 *)

Inductive access : Type := Read | Write.

(** The permission bits an access needs. *)
Definition allowed (p : priv) (acc : access) (v : Z) : bool :=
  match p with User => has v PTE_U | _ => negb (has v PTE_U) end &&
  match acc with Read => has v PTE_R | Write => has v PTE_R && has v PTE_W end.

(** The walk from the table [pg] of level [lv].  An entry with R or X is a leaf, of a large page
    above level 0, whose address has to be aligned. *)
Fixpoint sv39_walk (p : priv) (acc : access) (m : memory) (lv : nat) (pg va : Z) : option Z :=
  let v := load64 m (pg + 8 * PX (Z.of_nat lv) va) in
  if negb (has v PTE_V) then None else
  if has v (Z.lor PTE_R PTE_X) then
    let size := 2 ^ (12 + 9 * Z.of_nat lv) in
    if allowed p acc v && (PTE2PA v mod size =? 0) then Some (PTE2PA v + va mod size) else None
  else match lv with
  | O => None
  | S lv => sv39_walk p acc m lv (PTE2PA v) va
  end.

(** satp holds the mode in its upper four bits and the number of the root page in its lower 44.
    Bits 39 to 63 of an address have to be equal to bit 38.  Machine mode does not translate. *)
Definition translate (p : priv) (acc : access) (satp : Z) (m : memory) (va : Z) : option Z :=
  if (Z.shiftr satp 60 =? 0) || match p with Machine => true | _ => false end then Some va else
  if (va <? MAXVA) || (2 ^ 64 - MAXVA <=? va)
  then sv39_walk p acc m 2 (Z.shiftl (Z.land satp (Z.ones 44)) 12) va
  else None.

Definition addr_of (acc : access) (va : Z) (h : hart) : option Z :=
  if va mod 8 =? 0 then translate (h_priv h) acc (r_satp (h_csr h)) (h_mem h) va else None.

(** ** Instructions *)

Inductive csr : Type := sscratch | satp | mhartid.

Inductive instr : Type :=
| SD (rs : reg) (off : Z) (base : reg)
| LD (rd : reg) (off : Z) (base : reg)
| LI (rd : reg) (imm : Z)
| LA (rd : reg) (symbol : Z)
| ADDI (rd rs : reg) (imm : Z)
| ADD (rd rs1 rs2 : reg)
| MUL (rd rs1 rs2 : reg)
| CSRW (c : csr) (rs : reg)
| CSRR (rd : reg) (c : csr)
| SFENCE_VMA
| JALR (rs : reg) (next : Z)    (* ra = the address of the next instruction *)
| CALL (symbol : Z) (next : Z)
| RET
| SRET
| ECALL.

Definition csr_read (c : csr) (h : hart) : Z :=
  match c with
  | sscratch => h_sscratch h
  | satp => r_satp (h_csr h)
  | mhartid => r_mhartid (h_csr h)
  end.

Definition csr_write (c : csr) (v : Z) (h : hart) : hart :=
  match c with
  | sscratch => set_sscratch v h
  | satp => set_csr (w_satp v) h
  | mhartid => h
  end.

Definition w_scause (v : Z) (c : csrs) : csrs :=
  MkCsrs (r_mhartid c) (r_mstatus c) (r_mepc c) (r_sstatus c) (r_sip c) (r_sie c) (r_mie c) (r_sepc c) (r_medeleg c) (r_mideleg c) (r_stvec c) (r_stimecmp c) (r_menvcfg c) (r_pmpcfg0 c) (r_pmpaddr0 c) (r_satp c) v (r_stval c) (r_mcounteren c) (r_time c) (r_tp c).
Definition w_stval (v : Z) (c : csrs) : csrs :=
  MkCsrs (r_mhartid c) (r_mstatus c) (r_mepc c) (r_sstatus c) (r_sip c) (r_sie c) (r_mie c) (r_sepc c) (r_medeleg c) (r_mideleg c) (r_stvec c) (r_stimecmp c) (r_menvcfg c) (r_pmpcfg0 c) (r_pmpaddr0 c) (r_satp c) (r_scause c) v (r_mcounteren c) (r_time c) (r_tp c).

(** Sets or clears the bits of [mask]. *)
Definition put_bits (mask : Z) (b : bool) (x : Z) : Z :=
  if b then Z.lor x mask else Z.land x (Z.lnot mask).

(** A trap to supervisor mode. *)
Definition trap (cause tval : Z) (h : hart) : hart :=
  let st := r_sstatus (h_csr h) in
  let st' := put_bits SSTATUS_SPP (match h_priv h with User => false | _ => true end)
               (put_bits SSTATUS_SPIE (has st SSTATUS_SIE) (put_bits SSTATUS_SIE false st)) in
  set_pc (r_stvec (h_csr h)) (set_priv Supervisor
    (set_csr (fun c => w_sstatus st' (w_stval tval (w_scause cause (w_sepc (h_pc h) c)))) h)).

Definition sret (h : hart) : hart :=
  let st := r_sstatus (h_csr h) in
  let st' := put_bits SSTATUS_SPP false
               (put_bits SSTATUS_SPIE true (put_bits SSTATUS_SIE (has st SSTATUS_SPIE) st)) in
  set_pc (r_sepc (h_csr h)) (set_priv (if has st SSTATUS_SPP then Supervisor else User)
    (set_csr (w_sstatus st') h)).

Definition exec (i : instr) (h : hart) : option hart :=
  match i with
  | SD rs off base =>
      pa ← addr_of Write (u64 (rget base h + off)) h;
      Some (set_mem (store64 (h_mem h) pa (rget rs h)) h)
  | LD rd off base =>
      pa ← addr_of Read (u64 (rget base h + off)) h;
      Some (rset rd (load64 (h_mem h) pa) h)
  | LI rd imm => Some (rset rd imm h)
  | LA rd symbol => Some (rset rd symbol h)
  | ADDI rd rs imm => Some (rset rd (rget rs h + imm) h)
  | ADD rd rs1 rs2 => Some (rset rd (rget rs1 h + rget rs2 h) h)
  | MUL rd rs1 rs2 => Some (rset rd (rget rs1 h * rget rs2 h) h)
  | CSRW c rs => Some (csr_write c (rget rs h) h)
  | CSRR rd c => Some (rset rd (csr_read c h) h)
  | SFENCE_VMA => Some h
  | JALR rs next => Some (set_pc (rget rs h) (rset ra next h))
  | CALL symbol next => Some (set_pc symbol (rset ra next h))
  | RET => Some (set_pc (rget ra h) h)
  | SRET => Some (sret h)
  | ECALL => Some (trap 8 0 h)
  end.

(** A list of instructions; only the last one jumps. *)
Fixpoint run (code : list instr) (h : hart) : option hart :=
  match code with
  | [] => Some h
  | i :: code => h ← exec i h; run code h
  end.

(** ** The files *)

Section code.
Context {img : Image} {vec : Vectors}.

(** The addresses of uservec and userret in the trampoline page. *)
Definition uservec_va : Z := u64 (TRAMPOLINE + (image_uservec - image_trampoline)).
Definition userret_va : Z := u64 (TRAMPOLINE + (image_userret - image_trampoline)).

Definition uservec : list instr :=
  [CSRW sscratch a0;
   LI a0 TRAPFRAME;
   SD ra 40 a0;
   SD sp 48 a0;
   SD gp 56 a0;
   SD tp 64 a0;
   SD t0 72 a0;
   SD t1 80 a0;
   SD t2 88 a0;
   SD s0 96 a0;
   SD s1 104 a0;
   SD a1 120 a0;
   SD a2 128 a0;
   SD a3 136 a0;
   SD a4 144 a0;
   SD a5 152 a0;
   SD a6 160 a0;
   SD a7 168 a0;
   SD s2 176 a0;
   SD s3 184 a0;
   SD s4 192 a0;
   SD s5 200 a0;
   SD s6 208 a0;
   SD s7 216 a0;
   SD s8 224 a0;
   SD s9 232 a0;
   SD s10 240 a0;
   SD s11 248 a0;
   SD t3 256 a0;
   SD t4 264 a0;
   SD t5 272 a0;
   SD t6 280 a0;
   CSRR t0 sscratch;
   SD t0 112 a0;
   LD sp 8 a0;
   LD tp 32 a0;
   LD t0 16 a0;
   LD t1 0 a0;
   SFENCE_VMA;
   CSRW satp t1;
   SFENCE_VMA;
   JALR t0 userret_va].

Definition userret : list instr :=
  [SFENCE_VMA;
   CSRW satp a0;
   SFENCE_VMA;
   LI a0 TRAPFRAME;
   LD ra 40 a0;
   LD sp 48 a0;
   LD gp 56 a0;
   LD tp 64 a0;
   LD t0 72 a0;
   LD t1 80 a0;
   LD t2 88 a0;
   LD s0 96 a0;
   LD s1 104 a0;
   LD a1 120 a0;
   LD a2 128 a0;
   LD a3 136 a0;
   LD a4 144 a0;
   LD a5 152 a0;
   LD a6 160 a0;
   LD a7 168 a0;
   LD s2 176 a0;
   LD s3 184 a0;
   LD s4 192 a0;
   LD s5 200 a0;
   LD s6 208 a0;
   LD s7 216 a0;
   LD s8 224 a0;
   LD s9 232 a0;
   LD s10 240 a0;
   LD s11 248 a0;
   LD t3 256 a0;
   LD t4 264 a0;
   LD t5 272 a0;
   LD t6 280 a0;
   LD a0 112 a0;
   SRET].

Definition swtch : list instr :=
  [SD ra 0 a0;
   SD sp 8 a0;
   SD s0 16 a0;
   SD s1 24 a0;
   SD s2 32 a0;
   SD s3 40 a0;
   SD s4 48 a0;
   SD s5 56 a0;
   SD s6 64 a0;
   SD s7 72 a0;
   SD s8 80 a0;
   SD s9 88 a0;
   SD s10 96 a0;
   SD s11 104 a0;
   LD ra 0 a1;
   LD sp 8 a1;
   LD s0 16 a1;
   LD s1 24 a1;
   LD s2 32 a1;
   LD s3 40 a1;
   LD s4 48 a1;
   LD s5 56 a1;
   LD s6 64 a1;
   LD s7 72 a1;
   LD s8 80 a1;
   LD s9 88 a1;
   LD s10 96 a1;
   LD s11 104 a1;
   RET].

(** kernelvec up to the call of kerneltrap(), and from its return, at [back]. *)
Definition kernelvec_call (kerneltrap back : Z) : list instr :=
  [ADDI sp sp (-256);
   SD ra 0 sp;
   SD gp 16 sp;
   SD tp 24 sp;
   SD t0 32 sp;
   SD t1 40 sp;
   SD t2 48 sp;
   SD a0 72 sp;
   SD a1 80 sp;
   SD a2 88 sp;
   SD a3 96 sp;
   SD a4 104 sp;
   SD a5 112 sp;
   SD a6 120 sp;
   SD a7 128 sp;
   SD t3 216 sp;
   SD t4 224 sp;
   SD t5 232 sp;
   SD t6 240 sp;
   CALL kerneltrap back].

Definition kernelvec_back : list instr :=
  [LD ra 0 sp;
   LD gp 16 sp;
   LD t0 32 sp;
   LD t1 40 sp;
   LD t2 48 sp;
   LD a0 72 sp;
   LD a1 80 sp;
   LD a2 88 sp;
   LD a3 96 sp;
   LD a4 104 sp;
   LD a5 112 sp;
   LD a6 120 sp;
   LD a7 128 sp;
   LD t3 216 sp;
   LD t4 224 sp;
   LD t5 232 sp;
   LD t6 240 sp;
   ADDI sp sp 256;
   SRET].

(** _entry; start() does not return, so the loop at [spin] is not reached. *)
Definition _entry (stack0 start spin : Z) : list instr :=
  [LA sp stack0;
   LI a0 (1024 * 4);
   CSRR a1 mhartid;
   ADDI a1 a1 1;
   MUL a0 a0 a1;
   ADD sp sp a0;
   CALL start spin].

End code.

(** ** kernel/syscall.h and user/usys.pl *)

Definition SYS : list (string * Z) :=
  [("fork", 1); ("exit", 2); ("wait", 3); ("pipe", 4); ("read", 5); ("kill", 6); ("exec", 7);
   ("fstat", 8); ("chdir", 9); ("dup", 10); ("getpid", 11); ("sbrk", 12); ("pause", 13);
   ("uptime", 14); ("open", 15); ("write", 16); ("mknod", 17); ("unlink", 18); ("link", 19);
   ("mkdir", 20); ("close", 21); ("getreadcount", 22); ("getprocinfo", 23); ("setpriority", 24);
   ("getpriority", 25); ("wait_stat", 26); ("shm_open", 27); ("shm_close", 28);
   ("mutex_init", 29); ("mutex_lock", 30); ("mutex_unlock", 31)].

Definition SYS_ (name : string) : option Z :=
  '(_, (_, num)) ← list_find (fun x => x.1 = name) SYS;
  Some num.

(** The stub of a system call: its code up to the ecall, and from the return of the trap. *)
Definition entry (name : string) : option (list instr * list instr) :=
  num ← SYS_ name;
  Some ([LI a7 num; ECALL], [RET]).

(** The names usys.pl makes stubs for. *)
Definition usys : list string :=
  ["fork"; "exit"; "wait"; "pipe"; "read"; "write"; "close"; "kill"; "exec"; "open"; "mknod";
   "unlink"; "fstat"; "link"; "mkdir"; "chdir"; "dup"; "getpid"; "sbrk"; "pause"; "uptime";
   "getreadcount"; "getprocinfo"; "setpriority"; "getpriority"; "wait_stat"; "shm_open";
   "shm_close"; "mutex_init"; "mutex_lock"; "mutex_unlock"].

(** ** struct trapframe and struct context *)

(** Where the trapframe keeps a user register. *)
Definition tf_offset (r : reg) : Z :=
  match r with
  | zero => 0
  | ra => 40 | sp => 48 | gp => 56 | tp => 64 | t0 => 72 | t1 => 80 | t2 => 88 | s0 => 96
  | s1 => 104 | a0 => 112 | a1 => 120 | a2 => 128 | a3 => 136 | a4 => 144 | a5 => 152
  | a6 => 160 | a7 => 168 | s2 => 176 | s3 => 184 | s4 => 192 | s5 => 200 | s6 => 208
  | s7 => 216 | s8 => 224 | s9 => 232 | s10 => 240 | s11 => 248 | t3 => 256 | t4 => 264
  | t5 => 272 | t6 => 280
  end.

(** The registers of struct context, in its order. *)
Definition context_regs : list reg := [ra; sp; s0; s1; s2; s3; s4; s5; s6; s7; s8; s9; s10; s11].
End Asm.
