(* ===== verification/AsmProofs.v ===== *)
(** * The assembly: what it saves and restores, and a system call from user mode to user mode

    [window] says that a range of virtual addresses is a range of physical memory whatever that
    memory holds.  Sequences of stores and loads through a window are [save_all] and
    [load_regs]; the theorems on the files put these together. *)

From stdpp Require Import functions.
From S2P Require Import Prelude Machine FsData State Locks CString Kalloc VM PageTable UserVM Sched SchedProofs Proc ProcProofs Shm Mutex Bio Sysfile Syscall Trap Asm.

Module AsmProofs.
Import Kalloc VM PageTable UserVM Sched SchedProofs Proc Mutex Sysfile Syscall Trap Asm.

(** ** Windows *)

Definition window (p : priv) (satp : Z) (m : memory) (va pa n : Z) : Prop :=
  forall acc m' o, (forall a, ~ (pa <= a < pa + n) -> m' a = m a) ->
    0 <= o -> o + 8 <= n -> (va + o) mod 8 = 0 -> translate p acc satp m' (va + o) = Some (pa + o).

Lemma window_mem p satp m m' va pa n :
  window p satp m va pa n -> (forall a, ~ (pa <= a < pa + n) -> m' a = m a) ->
  window p satp m' va pa n.
Proof. intros Hw Hm acc m'' o Hm''. apply Hw. intros a Ha. by rewrite Hm'', Hm. Qed.

Section sv39.
Context {img : Image}.

Lemma has_lor_false v x y : has v (Z.lor x y) = false -> has v x = false /\ has v y = false.
Proof.
  unfold has. rewrite !negb_false_iff, !Z.eqb_eq, Z.land_lor_distr_r. apply Z.lor_eq_0_iff.
Qed.

(** In a well-formed table the hardware finds the leaf entry of [lookup_va]. *)
Lemma sv39_lookup p acc m root F va v :
  pt_ok m root F -> 0 <= va < MAXVA -> v = lookup_va m root va -> has v PTE_V = true ->
  has v (Z.lor PTE_R PTE_X) = true -> allowed p acc v = true -> PTE2PA v mod PGSIZE = 0 ->
  sv39_walk p acc m 2 root va = Some (PTE2PA v + va mod PGSIZE).
Proof.
  intros Hok Hva -> Hv Hl Ha Hal. unfold lookup_va in *.
  assert (Hq : F !! root = Some (2%nat, prefix 2 va)) by (rewrite prefix_root; [apply Hok|done]).
  revert Hq Hv Hl Ha Hal. generalize 2%nat root. intros n.
  induction n as [|n IH]; intros q Hq; cbn [pt_lookup sv39_walk].
  - intros -> -> -> Hal. change (2 ^ _) with PGSIZE. rewrite Hal. done.
  - destruct (has (load64 m _) PTE_V) eqn:Hv; [|done]. cbn [negb]. intros Hv' Hl Ha Hal.
    destruct (pt_node _ _ _ Hok _ _ _ _ Hq (PX_range _ va) Hv) as [_ Hf].
    rewrite <- Z.lor_assoc, (Z.lor_comm PTE_W), Z.lor_assoc in Hf.
    apply has_lor_false in Hf as [-> _]. apply IH; try done. by eapply pt_child.
Qed.

Lemma MAKE_SATP_root root : page_ok root ->
  Z.shiftr (MAKE_SATP root) 60 = 8 /\ Z.shiftl (Z.land (MAKE_SATP root) (Z.ones 44)) 12 = root.
Proof.
  intros Hp. destruct (page_ok_pos root Hp) as [H0 H1]. destruct Hp as [Hal _].
  unfold MAKE_SATP, SATP_SV39, PGSIZE in *. rewrite Z.shiftr_lor, Z.land_lor_distr_l, !Z.land_ones by lia.
  change (Z.shiftl 8 60 mod 2 ^ 44) with 0. change (Z.shiftr (Z.shiftl 8 60) 60) with 8.
  rewrite Z.lor_0_l, (Z.shiftl_mul_pow2 _ 12), (Z.shiftr_div_pow2 root) by lia. change (2 ^ 12) with 4096.
  rewrite (Z.mod_small (root / 4096)) by dlia. split; [|dlia].
  rewrite Z.shiftr_div_pow2, (Z.div_small (root / 4096)) by dlia. done.
Qed.

(** A page mapped for the kernel only is a window for supervisor mode. *)
Lemma page_window m root F va pa :
  pt_ok m root F -> 0 <= va < MAXVA -> va mod PGSIZE = 0 -> page_ok pa -> F !! pa = None ->
  lookup_va m root va = mk_pte pa (Z.lor PTE_R PTE_W) ->
  window Supervisor (MAKE_SATP root) m va pa PGSIZE.
Proof.
  intros Hok Hva Hal Hp HF Hl acc m' o Hm Ho Ho' _.
  destruct (page_ok_pos pa Hp) as [Hb0 Hb1]. pose proof (proj1 Hp) as Hpal.
  destruct (pt_frame m m' root F Hok) as [Hok' Hsame].
  { intros a [x Hx]. apply Hm. intros Ha. rewrite <- (proj2 (in_page_iff pa a Hpal)) in HF by done. congruence. }
  destruct (MAKE_SATP_root root) as [E1 E2]; [by eapply pt_page; [|apply Hok]|].
  assert (HM : MAXVA = 2 ^ 38) by done. unfold PGSIZE in *.
  assert (Hva' : 0 <= va + o < MAXVA) by dlia.
  unfold translate. rewrite E1, E2. cbn [Z.eqb orb]. rewrite (proj2 (Z.ltb_lt _ _)) by lia. cbn [orb].
  destruct (mk_pte_spec pa (Z.lor PTE_R PTE_W)) as (_ & Hv & Hpa & Hf); [lia|done|done|].
  assert (Ev : lookup_va m' root (va + o) = mk_pte pa (Z.lor PTE_R PTE_W)).
  { rewrite Hsame by done. rewrite <- Hl. apply lookup_va_page. unfold vpn, PGSIZE. dlia. }
  rewrite (sv39_lookup _ _ _ _ F _ (mk_pte pa (Z.lor PTE_R PTE_W))); try done.
  - rewrite Hpa. f_equal. unfold PGSIZE. dlia.
  - rewrite has_flags, Hf by done. done.
  - assert (Hb : forall mask, Z.land 0x3FF mask = mask -> has (mk_pte pa (Z.lor PTE_R PTE_W)) mask = has 7 mask).
    { intros mask Hmask. by rewrite has_flags, Hf. }
    unfold allowed. rewrite !Hb by done. by destruct acc.
  - by rewrite Hpa.
Qed.
End sv39.

(** ** Sequences of stores and loads *)

Definition saves (tbl : list (reg * Z)) (base : reg) : list instr := (fun '(r, o) => SD r o base) <$> tbl.
Definition loads (tbl : list (reg * Z)) (base : reg) : list instr := (fun '(r, o) => LD r o base) <$> tbl.

Fixpoint save_all (tbl : list (reg * Z)) (f : reg -> Z) (pa : Z) (m : memory) : memory :=
  match tbl with
  | [] => m
  | (r, o) :: tbl => save_all tbl f pa (store64 m (pa + o) (f r))
  end.

Fixpoint load_regs (tbl : list (reg * Z)) (pa : Z) (m : memory) (f : reg -> Z) : reg -> Z :=
  match tbl with
  | [] => f
  | (r, o) :: tbl => load_regs tbl pa m (<[r := load64 m (pa + o)]> f)
  end.

(** A table of registers with the offsets of their slots in a window of [n] bytes. *)
Definition slot_ok (n : Z) (x : reg * Z) : Prop := x.1 <> zero /\ 0 <= x.2 /\ x.2 + 8 <= n /\ x.2 mod 8 = 0.
Record slots_ok (n : Z) (tbl : list (reg * Z)) : Prop := {
  slots_in : Forall (slot_ok n) tbl;
  slots_regs : NoDup (tbl.*1);
  slots_offs : NoDup (tbl.*2)
}.

#[global] Instance slot_ok_dec n x : Decision (slot_ok n x).
Proof. unfold slot_ok. apply _. Defined.

Lemma slots_ok_of n tbl :
  (bool_decide (Forall (slot_ok n) tbl) && bool_decide (NoDup (tbl.*1))) && bool_decide (NoDup (tbl.*2)) = true ->
  slots_ok n tbl.
Proof. rewrite !andb_true_iff, !bool_decide_eq_true. intros [[? ?] ?]. done. Qed.

Lemma slots_ok_cons n x tbl : slots_ok n (x :: tbl) -> slot_ok n x /\ (x.1 ∉ tbl.*1) /\ (x.2 ∉ tbl.*2) /\ slots_ok n tbl.
Proof.
  intros [H1 H2 H3]. apply Forall_cons in H1 as [? ?]. cbn [fmap list_fmap] in *.
  apply NoDup_cons in H2 as [? ?], H3 as [? ?]. done.
Qed.

Lemma slots_apart n x y : slot_ok n x -> slot_ok n y -> x.2 <> y.2 -> x.2 + 8 <= y.2 \/ y.2 + 8 <= x.2.
Proof. intros (_ & ? & _ & ?) (_ & ? & _ & ?) Hne. dlia. Qed.

Lemma save_all_out tbl n f pa m a :
  Forall (slot_ok n) tbl -> (forall r o, (r, o) ∈ tbl -> ~ (pa + o <= a < pa + o + 8)) ->
  save_all tbl f pa m a = m a.
Proof.
  revert m. induction tbl as [|[r o] tbl IH]; intros m Hok Ha; cbn [save_all]; [done|].
  apply Forall_cons in Hok as [_ Hok]. rewrite IH; [|done|].
  - apply store64_out. apply (Ha r). left.
  - intros r' o' Hin. apply (Ha r'). by right.
Qed.

Lemma save_all_mem_ok tbl f pa m : mem_ok m -> mem_ok (save_all tbl f pa m).
Proof. revert m. induction tbl as [|[r o] tbl IH]; intros m Hm; cbn [save_all]; [done|]. apply IH. by apply store64_ok. Qed.

Lemma save_all_frame tbl n f pa m a :
  Forall (slot_ok n) tbl -> ~ (pa <= a < pa + n) -> save_all tbl f pa m a = m a.
Proof.
  intros Hok Ha. eapply save_all_out; [done|]. intros r o Hin.
  rewrite Forall_forall in Hok. destruct (Hok _ Hin) as (_ & H1 & H2 & _). cbn in *. lia.
Qed.

Lemma save_all_in tbl n f pa m r o :
  slots_ok n tbl -> (r, o) ∈ tbl -> load64 (save_all tbl f pa m) (pa + o) = u64 (f r).
Proof.
  revert m. induction tbl as [|x tbl IH]; intros m Hok Hin; [by apply elem_of_nil in Hin|].
  destruct x as [r' o']. apply slots_ok_cons in Hok as (Hx & _ & Hno & Hok). cbn [save_all].
  apply elem_of_cons in Hin as [E|Hin]; [injection E as -> ->|by apply IH].
  rewrite <- (load64_store64 m (pa + o') (f r')). apply load64_same. intros a Ha.
  eapply save_all_out; [apply Hok|]. intros r o Hin.
  pose proof (slots_in _ _ Hok) as Hall. rewrite Forall_forall in Hall. pose proof (Hall _ Hin) as Hy.
  assert (o <> o') by (intros ->; apply Hno; by apply (list_elem_of_fmap_2 snd _ (r, o'))).
  destruct (slots_apart n (r', o') (r, o)) as [?|?]; cbn in *; try done; lia.
Qed.

Lemma load_regs_out tbl pa m f r : r ∉ (tbl.*1) -> load_regs tbl pa m f r = f r.
Proof.
  revert f. induction tbl as [|[r' o] tbl IH]; intros f Hr; cbn [load_regs]; [done|].
  cbn in Hr. apply not_elem_of_cons in Hr as [Hne Hr]. rewrite IH by done. by apply fn_lookup_insert_ne.
Qed.

Lemma load_regs_same tbl pa m m' f :
  (forall r o, (r, o) ∈ tbl -> load64 m' (pa + o) = load64 m (pa + o)) ->
  load_regs tbl pa m' f = load_regs tbl pa m f.
Proof.
  revert f. induction tbl as [|[r o] tbl IH]; intros f H; [done|]. cbn [load_regs].
  rewrite (H r o) by left. apply IH. intros r' o' Hin. apply (H r'). by right.
Qed.

Lemma load_regs_in tbl n pa m f r o :
  slots_ok n tbl -> (r, o) ∈ tbl -> load_regs tbl pa m f r = load64 m (pa + o).
Proof.
  revert f. induction tbl as [|x tbl IH]; intros f Hok Hin; [by apply elem_of_nil in Hin|].
  destruct x as [r' o']. apply slots_ok_cons in Hok as (_ & Hno & _ & Hok). cbn [load_regs].
  apply elem_of_cons in Hin as [E|Hin]; [injection E as -> ->|by apply IH].
  rewrite load_regs_out by done. apply fn_lookup_insert.
Qed.

(** ** Running them *)

Lemma run_app c1 c2 h : run (c1 ++ c2) h = h ← run c1 h; run c2 h.
Proof.
  revert h. induction c1 as [|i c1 IH]; intros h; [done|]. cbn [run app].
  destruct (exec i h) as [h1|]; cbn [mbind option_bind]; [apply IH|done].
Qed.

Definition set_regs (f : reg -> Z) (h : hart) : hart :=
  Hart f (h_csr h) (h_sscratch h) (h_mem h) (h_priv h) (h_pc h).

(** [base] points to a window. *)
Record based (h : hart) (base : reg) (pa n : Z) : Prop := {
  based_window : window (h_priv h) (r_satp (h_csr h)) (h_mem h) (rget base h) pa n;
  based_low : 0 <= rget base h;
  based_high : rget base h + n <= 2 ^ 64;
  based_aligned : rget base h mod 8 = 0
}.

Lemma based_addr h base pa n acc r o :
  based h base pa n -> slot_ok n (r, o) -> addr_of acc (u64 (rget base h + o)) h = Some (pa + o).
Proof.
  intros [Hw Hlo Hhi Hal] (_ & H1 & H2 & H3). cbn in *. unfold addr_of. rewrite u64_small by lia.
  rewrite (proj2 (Z.eqb_eq _ _)) by dlia. apply Hw; try done. dlia.
Qed.

Lemma run_saves tbl base h pa n :
  based h base pa n -> Forall (slot_ok n) tbl ->
  run (saves tbl base) h = Some (set_mem (save_all tbl (fun r => rget r h) pa (h_mem h)) h).
Proof.
  revert h. induction tbl as [|[r o] tbl IH]; intros h Hb Hok; cbn [save_all]; [by destruct h|].
  apply Forall_cons in Hok as [Hx Hok]. unfold saves. cbn [fmap list_fmap run exec].
  rewrite (based_addr h base pa n Write r o) by done. cbn [mbind option_bind].
  rewrite IH; [done| |done]. destruct Hb as [Hw ? ? ?]. split; try done.
  eapply window_mem; [exact Hw|]. intros a Ha. apply store64_out.
  destruct Hx as (_ & ? & ? & _). cbn in *. lia.
Qed.

Lemma run_loads tbl base h pa n :
  mem_ok (h_mem h) -> based h base pa n -> Forall (slot_ok n) tbl -> base ∉ (tbl.*1) ->
  run (loads tbl base) h = Some (set_regs (load_regs tbl pa (h_mem h) (h_reg h)) h).
Proof.
  intros Hm. revert h Hm. induction tbl as [|[r o] tbl IH]; intros h Hm Hb Hok Hno; cbn [load_regs]; [by destruct h|].
  apply Forall_cons in Hok as [Hx Hok]. unfold loads. cbn [fmap list_fmap run exec].
  rewrite (based_addr h base pa n Read r o) by done. cbn [mbind option_bind snd].
  cbn in Hno. apply not_elem_of_cons in Hno as [Hne Hno].
  assert (Es : rset r (load64 (h_mem h) (pa + o)) h = set_reg r (load64 (h_mem h) (pa + o)) h).
  { unfold rset. rewrite decide_False by apply Hx. by rewrite u64_small by (by apply load64_range). }
  rewrite Es. rewrite IH; [done|done| |done|done].
  assert (Er : rget base (set_reg r (load64 (h_mem h) (pa + o)) h) = rget base h).
  { unfold rget. cbn [h_reg set_reg]. by rewrite fn_lookup_insert_ne. }
  destruct Hb as [Hw ? ? ?]. split; rewrite ?Er; done.
Qed.

Lemma save_all_ext tbl f g pa m :
  (forall r, r ∈ tbl.*1 -> f r = g r) -> save_all tbl f pa m = save_all tbl g pa m.
Proof.
  revert m. induction tbl as [|[r o] tbl IH]; intros m H; [done|]. cbn [save_all].
  rewrite (H r) by left. apply IH. intros r' Hr'. apply H. by right.
Qed.

Lemma save_all_app tbl1 tbl2 f pa m :
  save_all (tbl1 ++ tbl2) f pa m = save_all tbl2 f pa (save_all tbl1 f pa m).
Proof. revert m. induction tbl1 as [|[r o] tbl1 IH]; intros m; [done|]. apply IH. Qed.

Lemma rget_rset_ne r r' v h : r <> r' -> rget r (rset r' v h) = rget r h.
Proof.
  intros Hne. unfold rget, rset. destruct (decide (r = zero)), (decide (r' = zero)); try done.
  cbn [h_reg set_reg]. by apply fn_lookup_insert_ne.
Qed.

Lemma rget_rset r v h : r <> zero -> rget r (rset r v h) = u64 v.
Proof.
  intros Hr. unfold rget, rset. rewrite !decide_False by done. cbn [h_reg set_reg]. apply fn_lookup_insert.
Qed.

Lemma based_same h h' base pa n :
  based h base pa n -> h_priv h' = h_priv h -> r_satp (h_csr h') = r_satp (h_csr h) ->
  rget base h' = rget base h -> (forall a, ~ (pa <= a < pa + n) -> h_mem h' a = h_mem h a) ->
  based h' base pa n.
Proof.
  intros [Hw Hlo Hhi Hal] E1 E2 E3 Hm. split; rewrite ?E1, ?E2, ?E3; [|exact Hlo|exact Hhi|exact Hal].
  by eapply window_mem.
Qed.

Lemma store64_u64 m a v : store64 m a (u64 v) = store64 m a v.
Proof.
  unfold store64. f_equal. pose proof (le_split_combine _ (le_split_ok 8 v)) as H.
  rewrite length_le_split, le_combine_split in H. exact H.
Qed.

Lemma window_sub p satp m va pa n d n' :
  window p satp m va pa n -> 0 <= d -> d + n' <= n -> window p satp m (va + d) (pa + d) n'.
Proof.
  intros Hw Hd Hn acc m' o Hm Ho Ho' Hal. rewrite <- !Z.add_assoc. apply Hw; [|lia..|by rewrite Z.add_assoc].
  intros a Ha. apply Hm. lia.
Qed.

(** [base] points into a window of kernel memory, mapped at its own address. *)
Lemma based_inside h base lo n d n' :
  window (h_priv h) (r_satp (h_csr h)) (h_mem h) lo lo n -> 0 <= lo -> lo + n <= 2 ^ 64 ->
  rget base h = d -> d mod 8 = 0 -> lo <= d -> d + n' <= lo + n -> based h base d n'.
Proof.
  intros Hw Hlo Hhi Er Hal H1 H2. split; rewrite Er; [|lia|lia|done].
  replace d with (lo + (d - lo)) by lia. apply (window_sub _ _ _ _ _ n); [done|lia|lia].
Qed.

(** ** swtch.S *)

Definition context_slots : list (reg * Z) := zip context_regs ((fun i => 8 * Z.of_nat i) <$> seq 0 14).

Lemma context_slots_ok : slots_ok 112 context_slots.
Proof. apply slots_ok_of. by vm_compute. Qed.

Lemma context_slots_args : (a0 ∉ context_slots.*1) /\ (a1 ∉ context_slots.*1).
Proof. split; apply (bool_decide_unpack _); by vm_compute. Qed.

Lemma swtch_shape : swtch = saves context_slots a0 ++ loads context_slots a1 ++ [RET].
Proof. done. Qed.

(** A call swtch(old, new): both are in kernel memory and do not overlap. *)
Record switching (h : hart) (lo n old new : Z) : Prop := {
  sw_mem : mem_ok (h_mem h);
  sw_window : window (h_priv h) (r_satp (h_csr h)) (h_mem h) lo lo n;
  sw_low : 0 <= lo;
  sw_high : lo + n <= 2 ^ 64;
  sw_old : rget a0 h = old /\ old mod 8 = 0 /\ lo <= old /\ old + 112 <= lo + n;
  sw_new : rget a1 h = new /\ new mod 8 = 0 /\ lo <= new /\ new + 112 <= lo + n;
  sw_apart : old + 112 <= new \/ new + 112 <= old
}.

Lemma swtch_run h lo n old new :
  switching h lo n old new ->
  exists h', run swtch h = Some h' /\ h_mem h' = save_all context_slots (fun r => rget r h) old (h_mem h) /\
    h_csr h' = h_csr h /\ h_priv h' = h_priv h /\ h_pc h' = load64 (h_mem h) new /\
    h_reg h' = load_regs context_slots new (h_mem h) (h_reg h).
Proof.
  intros [Hm Hw Hlo Hhi (Ea0 & Hal0 & H1 & H2) (Ea1 & Hal1 & H3 & H4) Hap].
  assert (Hb : based h a0 old 112) by (by eapply based_inside).
  rewrite swtch_shape, run_app, (run_saves _ _ _ old 112 Hb (slots_in _ _ context_slots_ok)).
  cbn [mbind option_bind]. set (m1 := save_all _ _ old _). set (h1 := set_mem m1 h).
  assert (Hfr : forall a, ~ (old <= a < old + 112) -> m1 a = h_mem h a).
  { intros a Ha. eapply save_all_frame; [apply context_slots_ok|done]. }
  assert (Hb1 : based h1 a1 new 112).
  { eapply (based_inside h1 a1 lo n); try done. eapply window_mem; [exact Hw|].
    intros a Ha. apply Hfr. lia. }
  assert (Hm1 : mem_ok (h_mem h1)) by (by apply save_all_mem_ok).
  rewrite run_app, (run_loads _ _ h1 new 112 Hm1 Hb1 (slots_in _ _ context_slots_ok) (proj2 context_slots_args)).
  cbn [mbind option_bind run exec].
  assert (El : load_regs context_slots new (h_mem h1) (h_reg h1) = load_regs context_slots new (h_mem h) (h_reg h)).
  { apply load_regs_same. intros r o Hin. pose proof (slots_in _ _ context_slots_ok) as Hall.
    rewrite Forall_forall in Hall. destruct (Hall _ Hin) as (_ & ? & ? & _). cbn in *.
    apply load64_same. intros a Ha. apply Hfr. lia. }
  rewrite El. set (f := load_regs _ _ _ _).
  assert (Hra : f ra = load64 (h_mem h) new).
  { rewrite <- (Z.add_0_r new). apply (load_regs_in _ 112); [apply context_slots_ok|by apply (bool_decide_unpack _)]. }
  clearbody f. eexists. split; [reflexivity|]. rewrite <- Hra. done.
Qed.

Definition regs_ok (h : hart) : Prop := forall r, 0 <= rget r h < 2 ^ 64.

Lemma context_regs_slot r : r ∈ context_regs -> exists o, (r, o) ∈ context_slots.
Proof.
  intros Hr. change context_regs with (context_slots.*1) in Hr.
  apply list_elem_of_fmap in Hr as ([r' o] & -> & Hin). by exists o.
Qed.

Lemma slot_range n tbl r o : slots_ok n tbl -> (r, o) ∈ tbl -> slot_ok n (r, o).
Proof. intros Hok Hin. pose proof (slots_in _ _ Hok) as Hall. rewrite Forall_forall in Hall. by apply (Hall _ Hin). Qed.

(** C8: swtch(old, new) saves the caller and resumes the context in [new]: it jumps to the saved
    ra with the saved sp and s0 to s11, and leaves the other registers.  When some hart later
    calls swtch(other, old), and nothing has written to [old] in between, that hart continues as
    if the first call returned: at its return address, with the values of sp, ra and s0 to s11
    it had there. *)
Theorem swtch_resumes h lo n old new :
  regs_ok h -> switching h lo n old new ->
  exists h1, run swtch h = Some h1 /\ h_csr h1 = h_csr h /\
    h_pc h1 = load64 (h_mem h) new /\
    (forall r o, (r, o) ∈ context_slots -> rget r h1 = load64 (h_mem h) (new + o)) /\
    (forall r, r ∉ context_regs -> rget r h1 = rget r h) /\
    (forall a, ~ (old <= a < old + 112) -> h_mem h1 a = h_mem h a) /\ mem_ok (h_mem h1) /\
    forall h2 other, switching h2 lo n other old ->
      (forall a, old <= a < old + 112 -> h_mem h2 a = h_mem h1 a) ->
      exists h3, run swtch h2 = Some h3 /\ h_csr h3 = h_csr h2 /\ h_pc h3 = rget ra h /\
        forall r, r ∈ context_regs -> rget r h3 = rget r h.
Proof.
  intros Hr Hs. destruct (swtch_run _ _ _ _ _ Hs) as (h1 & E & Em & Ec & Ep & Epc & Er).
  assert (Hnz : forall r o, (r, o) ∈ context_slots -> r <> zero) by (intros r o Hin; apply (slot_range _ _ _ _ context_slots_ok Hin)).
  exists h1. split_and!; try done.
  - intros r o Hin. unfold rget. rewrite decide_False by eauto. rewrite Er.
    by apply (load_regs_in _ 112), Hin; apply context_slots_ok.
  - intros r Hin. unfold rget. rewrite Er. by rewrite load_regs_out.
  - intros a Ha. rewrite Em. eapply save_all_frame; [apply context_slots_ok|done].
  - rewrite Em. apply save_all_mem_ok, Hs.
  - intros h2 other Hs2 Hsame. destruct (swtch_run _ _ _ _ _ Hs2) as (h3 & E3 & _ & Ec3 & _ & Epc3 & Er3).
    assert (Hback : forall r o, (r, o) ∈ context_slots -> load64 (h_mem h2) (old + o) = rget r h).
    { intros r o Hin. rewrite <- (u64_small (rget r h)) by apply Hr.
      rewrite <- (save_all_in context_slots 112 (fun r => rget r h) old (h_mem h) r o context_slots_ok Hin), <- Em.
      destruct (slot_range _ _ _ _ context_slots_ok Hin) as (_ & ? & ? & _). cbn in *.
      apply load64_same. intros a Ha. apply Hsame. lia. }
    exists h3. split_and!; try done.
    + rewrite Epc3, <- (Z.add_0_r old). apply Hback. by apply (bool_decide_unpack _).
    + intros r Hin. destruct (context_regs_slot r Hin) as [o Ho]. unfold rget at 1. rewrite decide_False by eauto.
      rewrite Er3, <- (Hback r o Ho). by apply (load_regs_in _ 112), Ho; apply context_slots_ok.
Qed.

(** ** kernelvec.S *)

Definition vec_regs : list (reg * Z) :=
  [(t0, 32); (t1, 40); (t2, 48); (a0, 72); (a1, 80); (a2, 88); (a3, 96); (a4, 104); (a5, 112);
   (a6, 120); (a7, 128); (t3, 216); (t4, 224); (t5, 232); (t6, 240)].
Definition vec_saves : list (reg * Z) := (ra, 0) :: (gp, 16) :: (tp, 24) :: vec_regs.
Definition vec_loads : list (reg * Z) := (ra, 0) :: (gp, 16) :: vec_regs.

Lemma vec_saves_ok : slots_ok 256 vec_saves.
Proof. apply slots_ok_of. by vm_compute. Qed.
Lemma vec_loads_ok : slots_ok 256 vec_loads.
Proof. apply slots_ok_of. by vm_compute. Qed.

Lemma vec_loads_saved : vec_loads ⊆ vec_saves.
Proof. intros x Hx. unfold vec_loads, vec_saves in *. set_solver. Qed.

(** The registers a C function keeps for its caller. *)
Definition callee_saved : list reg := [s0; s1; s2; s3; s4; s5; s6; s7; s8; s9; s10; s11].

Lemma vec_cases r : r = zero \/ r = sp \/ r = tp \/ r ∈ callee_saved \/ exists o, (r, o) ∈ vec_loads.
Proof.
  assert (H : r ∈ vec_loads.*1 \/ r = zero \/ r = sp \/ r = tp \/ r ∈ callee_saved) by (apply (bool_decide_unpack _); destruct r; done).
  destruct H as [H|H]; [|naive_solver]. apply list_elem_of_fmap in H as ([r' o] & -> & Hin). eauto 10.
Qed.

Lemma vec_loads_others r : r = sp \/ r ∈ callee_saved -> r ∉ vec_loads.*1.
Proof. intros H. apply (bool_decide_unpack _). revert H. destruct r; set_solver. Qed.

Lemma kernelvec_call_run kt back h lo :
  mem_ok (h_mem h) -> rget sp h = lo + 256 -> 0 <= lo -> lo + 256 < 2 ^ 64 -> lo mod 8 = 0 ->
  window (h_priv h) (r_satp (h_csr h)) (h_mem h) lo lo 256 ->
  exists h', run (kernelvec_call kt back) h = Some h' /\
    h_mem h' = save_all vec_saves (fun r => rget r h) lo (h_mem h) /\
    h_csr h' = h_csr h /\ h_priv h' = h_priv h /\ h_pc h' = kt /\ rget ra h' = u64 back /\
    rget sp h' = lo /\ forall r, r <> ra -> r <> sp -> rget r h' = rget r h.
Proof.
  intros Hm Esp Hlo Hhi Hal Hw.
  change (kernelvec_call kt back) with ([ADDI sp sp (-256)] ++ saves vec_saves sp ++ [CALL kt back]).
  rewrite run_app. cbn [run exec mbind option_bind]. rewrite Esp.
  replace (lo + 256 + -256) with lo by lia.
  set (h1 := rset sp lo h).
  assert (Hsp1 : rget sp h1 = lo) by (unfold h1; rewrite rget_rset by done; apply u64_small; lia).
  assert (Hr1 : forall r, r <> sp -> rget r h1 = rget r h) by (intros r Hr; by apply rget_rset_ne).
  assert (H1 : h_mem h1 = h_mem h /\ h_csr h1 = h_csr h /\ h_priv h1 = h_priv h) by done.
  clearbody h1. destruct H1 as (Em1 & Ec1 & Ep1).
  assert (Hb : based h1 sp lo 256) by (split; rewrite Hsp1, ?Ep1, ?Ec1, ?Em1; [exact Hw|lia|lia|exact Hal]).
  rewrite run_app, (run_saves _ _ h1 lo 256 Hb (slots_in _ _ vec_saves_ok)). cbn [mbind option_bind run exec].
  rewrite Em1, (save_all_ext vec_saves _ (fun r => rget r h)).
  2: { intros r Hr. apply Hr1. intros ->. by apply (bool_decide_unpack (sp ∉ vec_saves.*1)) in Hr. }
  set (m1 := save_all _ _ _ _). clearbody m1.
  eexists. split; [reflexivity|]. split_and!; try done.
  - intros r Hra Hsp. rewrite <- (Hr1 r Hsp). exact (rget_rset_ne r ra back (set_mem m1 h1) Hra).
Qed.

Lemma kernelvec_back_run h lo :
  mem_ok (h_mem h) -> rget sp h = lo -> 0 <= lo -> lo + 256 < 2 ^ 64 -> lo mod 8 = 0 ->
  window (h_priv h) (r_satp (h_csr h)) (h_mem h) lo lo 256 ->
  exists h', run kernelvec_back h = Some h' /\ h_mem h' = h_mem h /\
    h_csr h' = h_csr (sret h) /\ h_priv h' = h_priv (sret h) /\ h_pc h' = r_sepc (h_csr h) /\
    rget sp h' = lo + 256 /\
    (forall r o, (r, o) ∈ vec_loads -> rget r h' = load64 (h_mem h) (lo + o)) /\
    (forall r, r <> sp -> r ∉ vec_loads.*1 -> rget r h' = rget r h).
Proof.
  intros Hm Esp Hlo Hhi Hal Hw.
  change kernelvec_back with (loads vec_loads sp ++ [ADDI sp sp 256; SRET]).
  assert (Hb : based h sp lo 256) by (split; rewrite Esp; [exact Hw|lia|lia|exact Hal]).
  assert (Hno : sp ∉ vec_loads.*1) by (apply vec_loads_others; by left).
  rewrite run_app, (run_loads _ _ h lo 256 Hm Hb (slots_in _ _ vec_loads_ok) Hno). cbn [mbind option_bind run exec].
  set (f := load_regs _ _ _ _).
  assert (Hin : forall r o, (r, o) ∈ vec_loads -> f r = load64 (h_mem h) (lo + o)).
  { intros r o Hin. exact (load_regs_in vec_loads 256 lo (h_mem h) _ r o vec_loads_ok Hin). }
  assert (Hout : forall r, r ∉ vec_loads.*1 -> f r = h_reg h r) by (intros r Hr; by apply load_regs_out).
  clearbody f. assert (Esp2 : rget sp (set_regs f h) = lo) by (unfold rget; cbn; rewrite Hout by done; exact Esp).
  rewrite Esp2. eexists. split; [reflexivity|]. split_and!; try done.
  - etrans; [exact (rget_rset sp (lo + 256) (set_regs f h) ltac:(done))|]. apply u64_small. lia.
  - intros r o Hr. assert (r <> sp) by (intros ->; apply Hno; by apply (list_elem_of_fmap_2 fst _ (sp, o))).
    etrans; [exact (rget_rset_ne r sp (lo + 256) (set_regs f h) ltac:(done))|].
    unfold rget. rewrite decide_False by apply (slot_range _ _ _ _ vec_loads_ok Hr). by apply Hin.
  - intros r Hr Hr'. etrans; [exact (rget_rset_ne r sp (lo + 256) (set_regs f h) Hr)|].
    unfold rget. cbn [h_reg set_regs]. by rewrite Hout.
Qed.

(** ** trampoline.S *)

(** The user registers but a0, and all of them, with their slots in the trapframe. *)
Definition tf_slots : list (reg * Z) :=
  (fun r => (r, tf_offset r)) <$>
    [ra; sp; gp; tp; t0; t1; t2; s0; s1; a1; a2; a3; a4; a5; a6; a7; s2; s3; s4; s5; s6; s7; s8; s9; s10; s11; t3; t4; t5; t6].
Definition tf_all : list (reg * Z) := tf_slots ++ [(a0, tf_offset a0)].

Definition kernel_slots : list (reg * Z) := [(sp, 8); (tp, 32); (t0, 16); (t1, 0)].

Lemma tf_slots_ok : slots_ok 288 tf_slots.
Proof. apply slots_ok_of. by vm_compute. Qed.
Lemma tf_all_ok : slots_ok 288 tf_all.
Proof. apply slots_ok_of. by vm_compute. Qed.
Lemma kernel_slots_ok : slots_ok 288 kernel_slots.
Proof. apply slots_ok_of. by vm_compute. Qed.

Lemma tf_all_in r : r <> zero -> (r, tf_offset r) ∈ tf_all.
Proof. intros Hr. apply (bool_decide_unpack _). destruct r; done. Qed.

Lemma tf_slots_in r : r <> zero -> r <> a0 -> (r, tf_offset r) ∈ tf_slots.
Proof. intros Hr Ha. apply (bool_decide_unpack _). destruct r; done. Qed.

Lemma tf_slots_a0 : a0 ∉ tf_slots.*1.
Proof. apply (bool_decide_unpack _). by vm_compute. Qed.

(** The slots begin after the words for the kernel. *)
Lemma save_tf_low f pa m a : pa <= a < pa + 40 -> save_all tf_all f pa m a = m a.
Proof.
  intros Ha. eapply save_all_out; [apply tf_all_ok|]. intros r o Hin.
  assert (Hall : Forall (fun x : reg * Z => 40 <= x.2) tf_all) by (apply (bool_decide_unpack _); by vm_compute).
  rewrite Forall_forall in Hall. specialize (Hall _ Hin). cbn in Hall. lia.
Qed.

Section trampoline.
Context {img : Image} {vec : Vectors}.

Lemma enter_kernel f h next :
  exists h', run [SFENCE_VMA; CSRW satp t1; SFENCE_VMA; JALR t0 next] (set_regs f h) = Some h' /\
    h_mem h' = h_mem h /\ h_csr h' = w_satp (f t1) (h_csr h) /\ h_priv h' = h_priv h /\
    h_pc h' = f t0 /\ rget sp h' = f sp /\ rget tp h' = f tp /\ rget ra h' = u64 next.
Proof. eexists. split; [reflexivity|]. done. Qed.

Lemma uservec_shape : uservec = [CSRW sscratch a0; LI a0 TRAPFRAME] ++ saves tf_slots a0 ++
  [CSRR t0 sscratch; SD t0 112 a0] ++ loads kernel_slots a0 ++
  [SFENCE_VMA; CSRW satp t1; SFENCE_VMA; JALR t0 userret_va].
Proof. done. Qed.

Lemma userret_shape : userret = [SFENCE_VMA; CSRW satp a0; SFENCE_VMA; LI a0 TRAPFRAME] ++
  loads tf_slots a0 ++ [LD a0 112 a0; SRET].
Proof. done. Qed.

Lemma save_a0 h tf :
  based h a0 tf 288 ->
  run [CSRR t0 sscratch; SD t0 112 a0] h =
    Some (set_mem (store64 (h_mem h) (tf + 112) (h_sscratch h)) (rset t0 (h_sscratch h) h)).
Proof.
  intros Hb. cbn [run exec csr_read]. cbn [mbind option_bind].
  assert (Hb' : based (rset t0 (h_sscratch h) h) a0 tf 288) by (eapply based_same; [exact Hb|done..]).
  rewrite (based_addr _ a0 tf 288 _ a0 112 Hb') by done. cbn [mbind option_bind].
  rewrite rget_rset, store64_u64 by done. done.
Qed.

(** uservec saves every user register in its slot and enters the kernel. *)
Lemma uservec_run h tf :
  mem_ok (h_mem h) -> window (h_priv h) (r_satp (h_csr h)) (h_mem h) TRAPFRAME tf 288 ->
  let m := h_mem h in
  exists h', run uservec h = Some h' /\
    h_mem h' = save_all tf_all (fun r => rget r h) tf m /\
    h_csr h' = w_satp (load64 m tf) (h_csr h) /\ h_priv h' = h_priv h /\
    h_pc h' = load64 m (tf + 16) /\ rget sp h' = load64 m (tf + 8) /\
    rget tp h' = load64 m (tf + 32) /\ rget ra h' = userret_va.
Proof.
  intros Hm Hw m. rewrite uservec_shape, run_app.
  change (run [CSRW sscratch a0; LI a0 TRAPFRAME] h) with
    (Some (rset a0 TRAPFRAME (set_sscratch (rget a0 h) h))). cbn [mbind option_bind].
  set (h1 := rset a0 TRAPFRAME _).
  assert (H1 : h_mem h1 = m /\ h_priv h1 = h_priv h /\ h_csr h1 = h_csr h /\ h_sscratch h1 = rget a0 h) by done.
  assert (Hr1 : forall r, r <> a0 -> rget r h1 = rget r h)
    by (intros r Hr; apply (rget_rset_ne r a0 TRAPFRAME (set_sscratch (rget a0 h) h) Hr)).
  assert (Hb : based h1 a0 tf 288) by done.
  clearbody h1. destruct H1 as (Em1 & Ep1 & Ec1 & Es1).
  rewrite run_app, (run_saves _ _ _ tf 288 Hb (slots_in _ _ tf_slots_ok)). cbn [mbind option_bind].
  rewrite (save_all_ext tf_slots _ (fun r => rget r h))
    by (intros r Hr; apply Hr1; intros ->; by apply tf_slots_a0).
  rewrite Em1. set (m1 := save_all tf_slots _ tf m).
  assert (Hb2 : based (set_mem m1 h1) a0 tf 288).
  { eapply based_same; [exact Hb|done..|]. intros a Ha. rewrite Em1.
    eapply save_all_frame; [apply tf_slots_ok|done]. }
  rewrite run_app, (save_a0 _ tf Hb2). cbn [mbind option_bind].
  cbn [h_mem set_mem h_sscratch]. rewrite Es1.
  assert (Em : store64 m1 (tf + 112) (rget a0 h) = save_all tf_all (fun r => rget r h) tf m)
    by (unfold tf_all; by rewrite save_all_app).
  rewrite Em. clear Em. set (m2 := save_all tf_all _ tf m). set (h3 := set_mem m2 _).
  assert (Hlow : forall o, 0 <= o -> o + 8 <= 40 -> load64 m2 (tf + o) = load64 m (tf + o)).
  { intros o H0 H1. apply load64_same. intros a Ha. apply save_tf_low. lia. }
  assert (H3 : h_mem h3 = m2 /\ h_priv h3 = h_priv h1 /\ h_csr h3 = h_csr h1) by done.
  assert (Hb3 : based h3 a0 tf 288).
  { eapply based_same; [exact Hb|done..|]. intros a Ha. rewrite Em1.
    eapply save_all_frame; [apply tf_all_ok|done]. }
  assert (Hm2 : mem_ok m2) by (by apply save_all_mem_ok).
  clearbody h3 m2. destruct H3 as (Em3 & Ep3 & Ec3).
  rewrite run_app, (run_loads _ _ _ tf 288); [|by rewrite Em3|done|apply kernel_slots_ok|by apply (bool_decide_unpack _)].
  cbn [mbind option_bind]. rewrite Em3. set (f := load_regs _ _ _ _).
  assert (Hf : forall r o, (r, o) ∈ kernel_slots -> o + 8 <= 40 -> f r = load64 m (tf + o)).
  { intros r o Hin Ho. unfold f. rewrite (load_regs_in _ 288 _ _ _ _ o kernel_slots_ok Hin).
    apply Hlow; [|done]. pose proof (slots_in _ _ kernel_slots_ok) as Hall. rewrite Forall_forall in Hall. by apply (Hall _ Hin). }
  destruct (enter_kernel f h3 userret_va) as (h' & E & Em' & Ec & Ep & Epc & Esp & Etp & Era).
  assert (Hf0 : f t1 = load64 m tf) by (rewrite (Hf t1 0), Z.add_0_r by (done || by apply (bool_decide_unpack _)); done).
  exists h'. split; [exact E|]. rewrite Em', Ec, Ep, Epc, Esp, Etp, Era, Em3, Ec3, Ep3, Ec1, Ep1, Hf0.
  rewrite (Hf sp 8), (Hf tp 32), (Hf t0 16) by (done || by apply (bool_decide_unpack _)).
  rewrite (u64_small userret_va) by apply u64_range. done.
Qed.

Lemma leave_kernel h tf :
  mem_ok (h_mem h) -> based h a0 tf 288 ->
  exists h', run [LD a0 112 a0; SRET] h = Some h' /\ h_mem h' = h_mem h /\
    h_csr h' = h_csr (sret h) /\ h_priv h' = h_priv (sret h) /\ h_pc h' = r_sepc (h_csr h) /\
    rget a0 h' = load64 (h_mem h) (tf + 112) /\ forall r, r <> a0 -> rget r h' = rget r h.
Proof.
  intros Hm Hb. cbn [run exec]. rewrite (based_addr h a0 tf 288 _ a0 112 Hb) by done.
  cbn [mbind option_bind]. eexists. split; [reflexivity|]. split_and!; [done..| |].
  - etrans; [exact (rget_rset a0 (load64 (h_mem h) (tf + 112)) h ltac:(done))|].
    apply u64_small. by apply load64_range.
  - intros r Hne. exact (rget_rset_ne r a0 (load64 (h_mem h) (tf + 112)) h Hne).
Qed.

(** userret restores every user register from its slot and returns to user mode. *)
Lemma userret_run h tf root_satp :
  mem_ok (h_mem h) -> rget a0 h = root_satp ->
  window (h_priv h) root_satp (h_mem h) TRAPFRAME tf 288 ->
  exists h', run userret h = Some h' /\ h_mem h' = h_mem h /\
    h_csr h' = h_csr (sret (set_csr (w_satp root_satp) h)) /\
    h_priv h' = h_priv (sret h) /\ h_pc h' = r_sepc (h_csr h) /\
    forall r, r <> zero -> rget r h' = load64 (h_mem h) (tf + tf_offset r).
Proof.
  intros Hm Ha Hw. rewrite userret_shape, run_app.
  change (run [SFENCE_VMA; CSRW satp a0; SFENCE_VMA; LI a0 TRAPFRAME] h) with
    (Some (rset a0 TRAPFRAME (set_csr (w_satp (rget a0 h)) h))). rewrite Ha. cbn [mbind option_bind].
  set (h1 := rset a0 TRAPFRAME _).
  assert (H1 : h_mem h1 = h_mem h /\ h_priv h1 = h_priv h /\ h_csr h1 = w_satp root_satp (h_csr h)) by done.
  assert (Hb : based h1 a0 tf 288) by done.
  clearbody h1. destruct H1 as (Em1 & Ep1 & Ec1).
  rewrite run_app, (run_loads _ _ _ tf 288 ltac:(by rewrite Em1) Hb (slots_in _ _ tf_slots_ok) tf_slots_a0).
  cbn [mbind option_bind]. rewrite Em1. set (f := load_regs _ _ _ _).
  assert (Hf : forall r, r <> zero -> r <> a0 -> f r = load64 (h_mem h) (tf + tf_offset r)).
  { intros r Hr Hne. exact (load_regs_in tf_slots 288 tf (h_mem h) _ r _ tf_slots_ok (tf_slots_in r Hr Hne)). }
  assert (Hf0 : rget a0 (set_regs f h1) = rget a0 h1) by exact (load_regs_out tf_slots tf (h_mem h) (h_reg h1) a0 tf_slots_a0).
  clearbody f. assert (Hb2 : based (set_regs f h1) a0 tf 288) by (eapply based_same; [exact Hb|done..]).
  destruct (leave_kernel (set_regs f h1) tf) as (h' & E & Em' & Ec & Ep & Epc & Er0 & Er); [by rewrite <- Em1 in Hm|done|].
  exists h'. split; [exact E|]. rewrite Em', Ec, Ep, Epc. unfold sret. cbn [h_csr h_mem h_priv set_regs set_csr set_priv set_pc].
  rewrite Em1, Ec1. split_and!; try done. intros r Hr. destruct (decide (r = a0)) as [->|Hne].
  - rewrite Er0. cbn [h_mem set_regs]. by rewrite Em1.
  - rewrite Er by done. unfold rget. rewrite decide_False by done. by apply Hf.
Qed.
End trampoline.

(** ** entry.S *)

(** Hart [i] calls start() on the 4096 bytes of stack0 that are its own. *)
Lemma entry_stack stack0 start spin h :
  0 <= stack0 -> 0 <= r_mhartid (h_csr h) < 8 -> stack0 + 8 * 4096 < 2 ^ 64 ->
  exists h', run (_entry stack0 start spin) h = Some h' /\ h_pc h' = start /\
    rget sp h' = stack0 + 4096 * r_mhartid (h_csr h) + 4096.
Proof.
  intros H0 Hi Hmax. eexists. split; [reflexivity|]. split; [reflexivity|].
  set (i := r_mhartid (h_csr h)) in *.
  transitivity (u64 (u64 stack0 + u64 (u64 (1024 * 4) * u64 (u64 i + 1)))); [reflexivity|].
  rewrite (u64_small stack0), (u64_small i), (u64_small (i + 1)) by lia. change (u64 (1024 * 4)) with 4096.
  rewrite (u64_small (4096 * _)), u64_small by lia. lia.
Qed.

(** ** usys.pl *)

(** Every stub of usys.pl loads the number under which syscall() finds the function of the same
    name. *)
Lemma usys_reaches {img : Image} {env : Env} :
  Forall2 (fun name f => exists num, entry name = Some ([LI a7 num; ECALL], [RET]) /\ syscall_at num = Some f)
    usys
    [sys_fork; sys_exit; sys_wait; sys_pipe; sys_read; sys_write; sys_close; sys_kill; sys_exec;
     sys_open; sys_mknod; sys_unlink; sys_fstat; sys_link; sys_mkdir; sys_chdir; sys_dup;
     sys_getpid; sys_sbrk; sys_pause; sys_uptime; sys_getreadcount; sys_getprocinfo;
     sys_setpriority; sys_getpriority; sys_wait_stat; sys_shm_open; sys_shm_close;
     sys_mutex_init; sys_mutex_lock env_patience; sys_mutex_unlock].
Proof. repeat constructor; eexists; (split; [vm_compute; reflexivity|reflexivity]). Qed.

(** ** Evaluation on a hart without translation *)

Definition csrs0 : csrs := MkCsrs 0 0 0 0 0 0 0 0 0 0 0 0 0 0 0 0 0 0 0 0 0.

Lemma bare_window p m va n : window p 0 m va va n.
Proof. intros acc m' o _ _ _ _. done. Qed.

Definition swtch_hart (m : memory) (old new ret : Z) : hart :=
  Hart (fun r => match r with a0 => old | a1 => new | ra => ret | _ => 7 end) csrs0 0 m Supervisor 0.

Lemma swtch_resumes_witness : exists h1 h3,
  run swtch (swtch_hart (fun _ => 0) KERNBASE (KERNBASE + 112) 42) = Some h1 /\
  run swtch (swtch_hart (h_mem h1) (KERNBASE + 112) KERNBASE 0) = Some h3 /\ h_pc h3 = 42.
Proof.
  assert (Hsw : forall m old new ret, mem_ok m -> (old = KERNBASE /\ new = KERNBASE + 112 \/ old = KERNBASE + 112 /\ new = KERNBASE) ->
    switching (swtch_hart m old new ret) KERNBASE 224 old new).
  { intros m old new ret Hm Hon. assert (HK : KERNBASE = 2147483648) by reflexivity.
    split; [exact Hm|apply bare_window|lia|lia| | |lia].
    - split; [reflexivity|]. split; [dlia|lia].
    - split; [reflexivity|]. split; [dlia|lia]. }
  destruct (swtch_resumes (swtch_hart (fun _ => 0) KERNBASE (KERNBASE + 112) 42) KERNBASE 224 KERNBASE (KERNBASE + 112))
    as (h1 & E1 & _ & _ & _ & _ & _ & Hm1 & Hback).
  - intros r. destruct r; vm_compute; split; (discriminate || reflexivity).
  - apply Hsw; [|by left]. intros a. lia.
  - destruct (Hback (swtch_hart (h_mem h1) (KERNBASE + 112) KERNBASE 0) (KERNBASE + 112)) as (h3 & E3 & _ & Epc & _).
    + apply Hsw; [exact Hm1|right; split; reflexivity].
    + intros a _. reflexivity.
    + exists h1, h3. split; [exact E1|]. split; [exact E3|]. exact Epc.
Defined.

End AsmProofs.
