(* ===== verification/TrapProofs.v ===== *)
(** * Traps from end to end: the hardware, the assembly and the C handlers together

    A trap in the kernel is invisible to the code it interrupts, and a system call takes a user
    program from its ecall instruction to the next one. *)

From stdpp Require Import functions.
From S2P Require Import Prelude Machine FsData State Locks CString Kalloc VM PageTable UserVM Sched SchedProofs Proc ProcProofs Bio Syscall SyscallProofs Trap Asm AsmProofs.

Module TrapProofs.
Import Kalloc VM PageTable UserVM Sched Proc Syscall SyscallProofs Trap Asm AsmProofs.

(** ** The bits of sstatus *)

Lemma has_bit v k : 0 <= k -> has v (Z.shiftl 1 k) = Z.testbit v k.
Proof.
  intros Hk. unfold has. rewrite Z.shiftl_1_l. destruct (Z.testbit v k) eqn:E.
  - apply negb_true_iff, Z.eqb_neq. intros H. apply (f_equal (fun x => Z.testbit x k)) in H.
    by rewrite Z.land_spec, E, Z.pow2_bits_true, Z.bits_0 in H.
  - apply negb_false_iff, Z.eqb_eq, Z.bits_inj'. intros i Hi. rewrite Z.land_spec, Z.bits_0, Z.pow2_bits_eqb by done.
    destruct (Z.eqb_spec k i) as [<-|]; [by rewrite E|by rewrite andb_false_r].
Qed.

Lemma put_bits_bit j k b v : 0 <= j -> 0 <= k ->
  has (put_bits (Z.shiftl 1 j) b v) (Z.shiftl 1 k) = if decide (j = k) then b else has v (Z.shiftl 1 k).
Proof.
  intros Hj Hk. rewrite !has_bit by done. unfold put_bits. rewrite Z.shiftl_1_l.
  destruct b; [rewrite Z.lor_spec|rewrite Z.land_spec, Z.lnot_spec by done];
    rewrite Z.pow2_bits_eqb by done; case_decide as E; destruct (Z.eqb_spec j k); try done;
    cbn [negb]; rewrite ?orb_true_r, ?orb_false_r, ?andb_false_r, ?andb_true_r; done.
Qed.

Lemma sstatus_spp b v : has (put_bits SSTATUS_SPP b v) SSTATUS_SPP = b.
Proof. unfold SSTATUS_SPP. by rewrite put_bits_bit. Qed.
Lemma sstatus_spp_spie b v : has (put_bits SSTATUS_SPP b v) SSTATUS_SPIE = has v SSTATUS_SPIE.
Proof. unfold SSTATUS_SPP, SSTATUS_SPIE. by rewrite put_bits_bit. Qed.
Lemma sstatus_spp_sie b v : has (put_bits SSTATUS_SPP b v) SSTATUS_SIE = has v SSTATUS_SIE.
Proof. unfold SSTATUS_SPP, SSTATUS_SIE. by rewrite put_bits_bit. Qed.
Lemma sstatus_spie b v : has (put_bits SSTATUS_SPIE b v) SSTATUS_SPIE = b.
Proof. unfold SSTATUS_SPIE. by rewrite put_bits_bit. Qed.
Lemma sstatus_spie_spp b v : has (put_bits SSTATUS_SPIE b v) SSTATUS_SPP = has v SSTATUS_SPP.
Proof. unfold SSTATUS_SPP, SSTATUS_SPIE. by rewrite put_bits_bit. Qed.
Lemma sstatus_spie_sie b v : has (put_bits SSTATUS_SPIE b v) SSTATUS_SIE = has v SSTATUS_SIE.
Proof. unfold SSTATUS_SIE, SSTATUS_SPIE. by rewrite put_bits_bit. Qed.
Lemma sstatus_sie b v : has (put_bits SSTATUS_SIE b v) SSTATUS_SIE = b.
Proof. unfold SSTATUS_SIE. by rewrite put_bits_bit. Qed.
Lemma sstatus_sie_spp b v : has (put_bits SSTATUS_SIE b v) SSTATUS_SPP = has v SSTATUS_SPP.
Proof. unfold SSTATUS_SPP, SSTATUS_SIE. by rewrite put_bits_bit. Qed.
Lemma sstatus_sie_spie b v : has (put_bits SSTATUS_SIE b v) SSTATUS_SPIE = has v SSTATUS_SPIE.
Proof. unfold SSTATUS_SIE, SSTATUS_SPIE. by rewrite put_bits_bit. Qed.

Create Rewrite HintDb sstatus.
#[export] Hint Rewrite sstatus_spp sstatus_spp_spie sstatus_spp_sie sstatus_spie sstatus_spie_spp
  sstatus_spie_sie sstatus_sie sstatus_sie_spp sstatus_sie_spie : sstatus.

(** ** Traps in the kernel *)

Section kernel.
Context {img : Image} {env : Env} {vec : Vectors} {harts : Harts}.

(** Only the timer's register changes. *)
Lemma devintr_csrs d c s k c' s' :
  devintr d c s = Ok (k, c') s' -> exists t, c' = w_stimecmp t c \/ c' = c.
Proof.
  unfold devintr. destruct (_ =? _).
  - intros E. apply bind_inv in E as (? & ? & _ & E). apply bind_inv in E as (? & ? & _ & E).
    injection E as _ <- _. exists 0. by right.
  - destruct (_ =? _).
    + intros E. apply bind_inv in E as (c1 & ? & E1 & E). injection E as _ <- _.
      unfold clock_tick in E1. apply bind_inv in E1 as (? & ? & _ & E1). injection E1 as <- _.
      eexists. by left.
    + intros E. injection E as _ <- _. exists 0. by right.
Qed.

Lemma kerneltrap_csrs d c s c' s' :
  kerneltrap d c s = Ok c' s' ->
  r_sepc c' = r_sepc c /\ r_sstatus c' = r_sstatus c /\ r_satp c' = r_satp c /\
  has (r_sstatus c) SSTATUS_SPP = true /\ has (r_sstatus c) SSTATUS_SIE = false.
Proof.
  unfold kerneltrap, intr_get. destruct (has _ SSTATUS_SPP) eqn:E1; [|done]. cbn [negb].
  destruct (has _ SSTATUS_SIE) eqn:E2; [done|]. intros E.
  apply bind_inv in E as ([k c1] & s1 & Ed & E). destruct (k =? 0).
  { by apply bind_inv in E as (? & ? & _ & E). }
  apply bind_inv in E as (cur & s2 & _ & E). apply bind_inv in E as (c2 & s3 & Ey & E). injection E as <- _. csr_simpl.
  assert (K : r_satp c2 = r_satp c1).
  { destruct (_ && _); [|by injection Ey as <- _]. apply bind_inv in Ey as (? & ? & _ & Ey). injection Ey as <- _. apply resume_satp. }
  rewrite K. apply devintr_csrs in Ed as (t & [->| ->]); done.
Qed.

(** What the calling convention says of the state in which a C function that was called in [h1]
    returns: sp and the callee-saved registers are the caller's, and so are the 256 bytes of
    stack at [lo] and their mapping.  [c] are the control registers it leaves. *)
Record returned (h1 h2 : hart) (c : csrs) (lo : Z) : Prop := {
  ret_sp : rget sp h2 = rget sp h1;
  ret_saved r : r ∈ callee_saved -> rget r h2 = rget r h1;
  ret_csr : h_csr h2 = c;
  ret_priv : h_priv h2 = h_priv h1;
  ret_ok : mem_ok (h_mem h2);
  ret_mem a : lo <= a < lo + 256 -> h_mem h2 a = h_mem h1 a;
  ret_window : window (h_priv h2) (r_satp c) (h_mem h2) lo lo 256
}.

(** C7: a trap in the kernel is invisible to the code it interrupts.  kernelvec saves the
    registers on the stack and calls kerneltrap(); whatever kerneltrap() does, be it the handler
    of the uart, of the disk or of the clock, and whatever the control registers hold when a
    yield() in it returns, possibly on another hart, if kerneltrap() returns kernelvec goes back
    to the interrupted instruction in supervisor mode, with every register as before except tp,
    which holds the number of the hart and may differ when the process was moved, and with
    interrupts enabled exactly if they were. *)
Theorem kernel_trap_transparent d kt back h lo cause tval :
  regs_ok h -> mem_ok (h_mem h) -> h_priv h = Supervisor ->
  rget sp h = lo + 256 -> 0 <= lo -> lo + 256 < 2 ^ 64 -> lo mod 8 = 0 ->
  window Supervisor (r_satp (h_csr h)) (h_mem h) lo lo 256 ->
  exists h1, run (kernelvec_call kt back) (trap cause tval h) = Some h1 /\
    h_pc h1 = kt /\ rget ra h1 = u64 back /\ h_csr h1 = h_csr (trap cause tval h) /\ mem_ok (h_mem h1) /\
    forall s c s' h2, kerneltrap d (h_csr h1) s = Ok c s' -> returned h1 h2 c lo ->
      exists h3, run kernelvec_back h2 = Some h3 /\ h_pc h3 = h_pc h /\ h_priv h3 = Supervisor /\
        r_satp (h_csr h3) = r_satp (h_csr h) /\
        has (r_sstatus (h_csr h3)) SSTATUS_SIE = has (r_sstatus (h_csr h)) SSTATUS_SIE /\
        forall r, r <> tp -> rget r h3 = rget r h.
Proof.
  intros Hr Hm Hp Esp Hlo Hhi Hal Hw.
  destruct (kernelvec_call_run kt back (trap cause tval h) lo) as (h1 & E1 & Em1 & Ec1 & Ep1 & Epc1 & Era1 & Esp1 & Er1);
    try done.
  exists h1. split_and!; try done; [rewrite Em1; by apply save_all_mem_ok|]. rewrite Ec1.
  intros s c s' h2 Ek [Rsp Rs Rc Rp Rok Rm Rw].
  apply kerneltrap_csrs in Ek as (K1 & K2 & K3 & _).
  rewrite <- Rc in Rw, K1, K2, K3.
  destruct (kernelvec_back_run h2 lo) as (h3 & E3 & Em3 & Ec3 & Ep3 & Epc3 & Esp3 & Er3 & Eo3);
    try done; [by rewrite Rsp|].
  assert (Hback : forall r o, (r, o) ∈ vec_loads -> rget r h3 = rget r h).
  { intros r o Hin. rewrite (Er3 r o Hin), <- (u64_small (rget r h)) by apply Hr.
    transitivity (load64 (h_mem h1) (lo + o)).
    - destruct (slot_range _ _ _ _ vec_loads_ok Hin) as (_ & ? & ? & _). cbn in *.
      apply load64_same. intros a Ha. apply Rm. lia.
    - rewrite Em1. exact (save_all_in vec_saves 256 _ lo _ r o vec_saves_ok (vec_loads_saved _ Hin)). }
  exists h3. rewrite Ec3, Ep3, Epc3. unfold sret. cbn [h_csr h_priv set_pc set_priv set_csr].
  csr_simpl. rewrite K1, K2, K3. cbn [trap h_csr set_pc set_priv set_csr]. csr_simpl. rewrite Hp.
  autorewrite with sstatus. split_and!; try done.
  intros r Htp. destruct (vec_cases r) as [->|[->|[->|[Hin|[o Hin]]]]]; [done| |done| |eauto].
  - by rewrite Esp3.
  - assert (r <> sp /\ r <> ra) as [? ?] 
      by (split; intros ->; revert Hin; apply (bool_decide_unpack (_ ∉ _)); by vm_compute).
    rewrite Eo3 by (done || apply vec_loads_others; by right). rewrite Rs by done. by rewrite Er1.
Qed.

End kernel.

(** ** System calls *)

Section user.
Context {img : Image} {env : Env} {vec : Vectors} {harts : Harts}.

(** The trapframe page [tf] in the user page table at [root]. *)
Record frame_mapped (m : memory) (root : Z) (F : gmap Z (nat * Z)) (tf : Z) : Prop := {
  fm_pt : pt_ok m root F;
  fm_page : page_ok tf;
  fm_apart : F !! tf = None;
  fm_entry : lookup_va m root TRAPFRAME = mk_pte tf (Z.lor PTE_R PTE_W)
}.

Lemma frame_window m root F tf :
  frame_mapped m root F tf -> window Supervisor (MAKE_SATP root) m TRAPFRAME tf 288.
Proof.
  intros [Hpt Hp HF He].
  assert (Hw : window Supervisor (MAKE_SATP root) m TRAPFRAME tf PGSIZE)
    by (eapply page_window; done).
  rewrite <- (Z.add_0_r TRAPFRAME), <- (Z.add_0_r tf). by eapply window_sub.
Qed.

(** Stores to the trapframe keep it mapped. *)
Lemma frame_mapped_store m m' root F tf :
  frame_mapped m root F tf -> (forall a, ~ (tf <= a < tf + PGSIZE) -> m' a = m a) ->
  frame_mapped m' root F tf.
Proof.
  intros [Hpt Hp HF He] Hm. destruct (pt_frame m m' root F Hpt) as [Hpt' Hl].
  { intros a [x Hx]. apply Hm. intros Ha. rewrite <- (proj2 (in_page_iff tf a (proj1 Hp))) in HF by done. congruence. }
  split; try done. by rewrite Hl.
Qed.

(** A hart that runs process [p] in user mode, as prepare_return() and userret leave it: the
    next trap enters uservec, and the trapframe holds what uservec needs. *)
Record user_ready (p : nat) (F : gmap Z (nat * Z)) (s : kstate) (h : hart) : Prop := {
  ur_user : h_priv h = User;
  ur_stvec : r_stvec (h_csr h) = uservec_va;
  ur_satp : r_satp (h_csr h) = MAKE_SATP (p_pagetable (the_proc p s));
  ur_mem : h_mem h = k_mem s;
  ur_bytes : mem_ok (k_mem s);
  ur_cur : k_cur s = Some p;
  ur_locks : k_held s = ∅;
  ur_alive : p_killed (the_proc p s) = 0;
  ur_frame : frame_mapped (k_mem s) (p_pagetable (the_proc p s)) F (p_trapframe (the_proc p s));
  ur_trap : load64 (k_mem s) (p_trapframe (the_proc p s) + TF_kernel_trap) = u64 image_usertrap;
  ur_sp : load64 (k_mem s) (p_trapframe (the_proc p s) + TF_kernel_sp) = u64 (p_kstack (the_proc p s) + PGSIZE)
}.

(** What a system call leaves alone: the process goes on with its trapframe, in which the saved
    registers and the saved pc are what they were. *)
Record keeps_user (p : nat) (s s' : kstate) (F' : gmap Z (nat * Z)) : Prop := {
  ku_cur : k_cur s' = Some p;
  ku_locks : k_held s' = ∅;
  ku_alive : p_killed (the_proc p s') = 0;
  ku_trapframe : p_trapframe (the_proc p s') = p_trapframe (the_proc p s);
  ku_bytes : mem_ok (k_mem s');
  ku_frame : frame_mapped (k_mem s') (p_pagetable (the_proc p s')) F' (p_trapframe (the_proc p s'));
  ku_saved o : TF_epc <= o < TF_kernel_hartid \/ TF_kernel_hartid + 8 <= o < TF_size ->
    k_mem s' (p_trapframe (the_proc p s) + o) = k_mem s (p_trapframe (the_proc p s) + o)
}.

(** The kernel's memory once uservec has saved the registers of [h], and the state in which
    the function of the system call is called. *)
Definition saved_state (p : nat) (h : hart) (s : kstate) : kstate :=
  set_k_mem (save_all tf_all (fun r => rget r h) (p_trapframe (the_proc p s)) (k_mem s)) s.
Definition call_state (p : nat) (h : hart) (s : kstate) : kstate :=
  let s1 := saved_state p h s in
  set_k_mem (store64 (store64 (k_mem s1) (p_trapframe (the_proc p s) + TF_epc) (h_pc h))
    (p_trapframe (the_proc p s) + TF_epc) (u64 (h_pc h + 4))) s1.

Lemma killed_run p s :
  LProc p ∉ k_held s -> killed p s = Ok (p_killed (the_proc p s)) s.
Proof.
  intros Hl. unfold killed. mcall acquire_ok. unfold get_proc. mrun.
  erewrite bind_ok by (apply release_ok; ksimpl; set_solver). ksimpl.
  rewrite held_add_remove by done. unfold retM. f_equal. by destruct s.
Qed.

(** The memory prepare_return() leaves. *)
Definition prepared (p : nat) (c : csrs) (s : kstate) : kstate :=
  let q := the_proc p s in
  let tf := p_trapframe q in
  set_k_mem (store64 (store64 (store64 (store64 (k_mem s) (tf + TF_kernel_satp) (r_satp c))
    (tf + TF_kernel_sp) (u64 (p_kstack q + PGSIZE))) (tf + TF_kernel_trap) image_usertrap)
    (tf + TF_kernel_hartid) (r_tp c)) s.

Lemma prepare_return_run p c s :
  k_cur s = Some p ->
  exists c', prepare_return c s = Ok c' (prepared p c s) /\
    r_sepc c' = load64 (k_mem s) (p_trapframe (the_proc p s) + TF_epc) /\
    r_stvec c' = uservec_va /\ r_satp c' = r_satp c /\
    has (r_sstatus c') SSTATUS_SPP = false /\ has (r_sstatus c') SSTATUS_SPIE = true.
Proof.
  intros Hc. unfold prepare_return, myproc, get_proc, put_mem, get_mem. mrun. rewrite Hc. mrun.
  set (tf := p_trapframe (the_proc p s)).
  assert (Hepc : forall m a b e f, load64 (store64 (store64 (store64 (store64 m (tf + TF_kernel_satp) a)
    (tf + TF_kernel_sp) b) (tf + TF_kernel_trap) e) (tf + TF_kernel_hartid) f) (tf + TF_epc) = load64 m (tf + TF_epc)).
  { intros. unfold TF_kernel_satp, TF_kernel_sp, TF_kernel_trap, TF_kernel_hartid, TF_epc.
    rewrite !load64_store64_ne by lia. done. }
  eexists. split; [reflexivity|]. split; [apply Hepc|]. split; [done|]. split; [done|].
  change (r_sstatus _) with (put_bits SSTATUS_SPIE true (put_bits SSTATUS_SPP false (put_bits SSTATUS_SIE false (r_sstatus c)))).
  by autorewrite with sstatus.
Qed.

(** The state after the system call has returned [r] in [s2]. *)
Definition answered (p : nat) (r : Z) (s2 : kstate) : kstate :=
  set_k_mem (store64 (k_mem s2) (p_trapframe (the_proc p s2) + TF_a0) (u64 r)) s2.

Lemma syscall_run p f r s1 s2 :
  k_cur s1 = Some p -> syscall_at (call_number p s1) = Some f -> f s1 = Ok r s2 ->
  syscall s1 = Ok tt (answered p r s2).
Proof.
  intros Hc Hf Ef. unfold syscall. rewrite (bind_ok _ _ s1 p s1) by (unfold myproc; mrun; by rewrite Hc).
  rewrite (bind_ok _ _ s1 (p_trapframe (the_proc p s1)) s1) by done. rewrite (bind_ok _ _ s1 (call_number p s1) s1) by done.
  cbv beta. rewrite Hf. by rewrite (bind_ok _ _ _ _ _ Ef).
Qed.

Lemma handle_cause_ecall d p c s f r s2 :
  k_cur s = Some p -> LProc p ∉ k_held s -> p_killed (the_proc p s) = 0 -> r_scause c = 8 ->
  let tf := p_trapframe (the_proc p s) in
  let s1 := set_k_mem (store64 (k_mem s) (tf + TF_epc) (u64 (load64 (k_mem s) (tf + TF_epc) + 4))) s in
  syscall_at (call_number p s1) = Some f -> f s1 = Ok r s2 ->
  handle_cause d p c s = Ok (0, resume_csrs (answered p r s2) (intr_on c)) (answered p r s2).
Proof.
  intros Hcur Hl Hk Hsc tf s1 Hf Ef. unfold handle_cause, get_proc. mrun. rewrite Hsc. cbn [Z.eqb Pos.eqb].
  rewrite (bind_ok _ _ _ _ _ (killed_run p s Hl)), Hk. cbn [negb Z.eqb]. mrun.
  unfold put_mem. mrun. fold tf. fold s1.
  by rewrite (bind_ok _ _ _ _ _ (syscall_run p f r s1 s2 Hcur Hf Ef)).
Qed.

Lemma usertrap_ecall d p c s pc f r s2 F' :
  k_cur s = Some p -> k_held s = ∅ -> p_killed (the_proc p s) = 0 ->
  r_scause c = 8 -> has (r_sstatus c) SSTATUS_SPP = false -> r_sepc c = pc -> 0 <= pc < 2 ^ 64 ->
  let tf := p_trapframe (the_proc p s) in
  let s1 := set_k_mem (store64 (store64 (k_mem s) (tf + TF_epc) pc) (tf + TF_epc) (u64 (pc + 4))) s in
  syscall_at (call_number p s) = Some f -> f s1 = Ok r s2 -> keeps_user p s1 s2 F' ->
  exists c1 c', usertrap d c s = Ok (MAKE_SATP (p_pagetable (the_proc p s2)), c') (prepared p c1 (answered p r s2)) /\
    r_sepc c' = load64 (k_mem (answered p r s2)) (tf + TF_epc) /\
    r_stvec c' = uservec_va /\
    has (r_sstatus c') SSTATUS_SPP = false /\ has (r_sstatus c') SSTATUS_SPIE = true.
Proof.
  intros Hcur Hheld Hk Hsc Hspp Hpc Hpc' tf s1 Hf Ef [Kc Kh Ka Kt Kb Kf Ks].
  unfold usertrap. rewrite Hspp. unfold myproc at 1. mrun. rewrite Hcur. mrun. unfold get_proc, put_mem. mrun.
  csr_simpl. rewrite Hpc. fold tf. set (c0 := w_stvec _ c). set (s0 := set_k_mem _ s).
  assert (E1 : load64 (k_mem s0) (tf + TF_epc) = pc) by (cbn [s0 k_mem set_k_mem]; rewrite load64_store64; by apply u64_small).
  assert (En : call_number p s1 = call_number p s).
  { unfold call_number. change (the_proc p s1) with (the_proc p s). fold tf. f_equal. unfold s1. ksimpl.
    rewrite !load64_store64_ne; unfold TF_a7, TF_epc; lia || done. }
  rewrite (bind_ok _ _ _ _ _ (handle_cause_ecall d p c0 s0 f r s2 Hcur ltac:(change (k_held s0) with (k_held s); rewrite Hheld; apply not_elem_of_empty) Hk Hsc
    ltac:(change (p_trapframe (the_proc p s0)) with tf; rewrite E1; exact (eq_trans (f_equal _ En) Hf))
    ltac:(change (p_trapframe (the_proc p s0)) with tf; rewrite E1; exact Ef))).
  set (s3 := answered p r s2).
  assert (Hl3 : LProc p ∉ k_held s3) by (change (k_held s3) with (k_held s2); rewrite Kh; set_solver).
  rewrite (bind_ok _ _ _ _ _ (killed_run p s3 Hl3)).
  change (the_proc p s3) with (the_proc p s2). rewrite Ka. cbn [negb Z.eqb whenM]. mrun.
  destruct (prepare_return_run p (resume_csrs s3 (intr_on c0)) s3 Kc) as (c' & Ep & H1 & H2 & H3 & H4 & H5).
  rewrite (bind_ok _ _ _ _ _ Ep). exists (resume_csrs s3 (intr_on c0)), c'. split; [reflexivity|].
  rewrite H1. change (the_proc p s3) with (the_proc p s2). rewrite Kt. done.
Qed.

Lemma saved_reg p h s x :
  regs_ok h -> x <> zero ->
  load64 (k_mem (saved_state p h s)) (p_trapframe (the_proc p s) + tf_offset x) = rget x h.
Proof.
  intros Hr Hx. etrans; [exact (save_all_in tf_all 288 _ _ (k_mem s) x _ tf_all_ok (tf_all_in x Hx))|].
  apply u64_small, Hr.
Qed.

Lemma tf_offset_range x : x <> zero -> TF_kernel_hartid + 8 <= tf_offset x /\ tf_offset x + 8 <= TF_size.
Proof. by destruct x. Qed.

Lemma tf_offset_a0 x : x <> zero -> x <> a0 -> tf_offset x + 8 <= TF_a0 \/ TF_a0 + 8 <= tf_offset x.
Proof. intros ? ?. destruct x; done || (unfold TF_a0; cbn [tf_offset]; lia). Qed.

(** What the trapframe holds when usertrap() returns. *)
Lemma prepared_load p c s o :
  TF_epc <= o < TF_kernel_hartid - 7 \/ TF_kernel_hartid + 8 <= o ->
  load64 (k_mem (prepared p c s)) (p_trapframe (the_proc p s) + o) = load64 (k_mem s) (p_trapframe (the_proc p s) + o).
Proof.
  intros Ho. unfold prepared. ksimpl. unfold TF_kernel_satp, TF_kernel_sp, TF_kernel_trap, TF_kernel_hartid, TF_epc in *.
  rewrite !load64_store64_ne by lia. done.
Qed.

Lemma page_store m tf o v a : 0 <= o -> o + 8 <= PGSIZE -> ~ (tf <= a < tf + PGSIZE) -> store64 m (tf + o) v a = m a.
Proof. intros ? ? ?. apply store64_out. lia. Qed.

(** A word of the trapframe that the system call and the handler leave alone. *)
Lemma kept_word p s1 s2 F' r c o :
  keeps_user p s1 s2 F' ->
  (TF_epc <= o /\ o + 8 <= TF_kernel_hartid \/ TF_kernel_hartid + 8 <= o /\ o + 8 <= TF_size) ->
  (o + 8 <= TF_a0 \/ TF_a0 + 8 <= o) ->
  load64 (k_mem (prepared p c (answered p r s2))) (p_trapframe (the_proc p s1) + o) =
  load64 (k_mem s1) (p_trapframe (the_proc p s1) + o).
Proof.
  intros HK Ho Ha. rewrite <- (ku_trapframe _ _ _ _ HK).
  rewrite (prepared_load p c (answered p r s2)) by (unfold TF_kernel_hartid, TF_epc in *; lia).
  change (the_proc p (answered p r s2)) with (the_proc p s2).
  unfold answered. ksimpl. rewrite load64_store64_ne by lia. rewrite (ku_trapframe _ _ _ _ HK).
  apply load64_same. intros a Ha'. replace a with (p_trapframe (the_proc p s1) + (a - p_trapframe (the_proc p s1))) by lia.
  apply (ku_saved _ _ _ _ HK). lia.
Qed.

(** The hart that userret enters in [s3], after [prepared], is ready again. *)
Lemma prepared_ready p c r s1 s2 F' :
  keeps_user p s1 s2 F' ->
  let s3 := prepared p c (answered p r s2) in
  mem_ok (k_mem s3) /\ frame_mapped (k_mem s3) (p_pagetable (the_proc p s3)) F' (p_trapframe (the_proc p s3)) /\
  load64 (k_mem s3) (p_trapframe (the_proc p s3) + TF_kernel_trap) = u64 image_usertrap /\
  load64 (k_mem s3) (p_trapframe (the_proc p s3) + TF_kernel_sp) = u64 (p_kstack (the_proc p s3) + PGSIZE) /\
  load64 (k_mem s3) (p_trapframe (the_proc p s3) + TF_a0) = u64 r.
Proof.
  intros HK s3. change (the_proc p s3) with (the_proc p s2).
  set (tf := p_trapframe (the_proc p s2)).
  unfold s3, prepared. ksimpl. change (the_proc p (answered p r s2)) with (the_proc p s2). fold tf.
  unfold answered. ksimpl. fold tf. split_and!.
  - do 5 apply store64_ok. apply HK.
  - eapply frame_mapped_store; [apply HK|]. fold tf. intros a Ha. rewrite !page_store by done. done.
  - unfold TF_kernel_hartid, TF_kernel_trap. rewrite load64_store64_ne by lia. apply load64_store64.
  - unfold TF_kernel_hartid, TF_kernel_trap, TF_kernel_sp. rewrite 2!load64_store64_ne by lia.
    rewrite load64_store64. apply u64_small, u64_range.
  - unfold TF_kernel_hartid, TF_kernel_trap, TF_kernel_sp, TF_kernel_satp, TF_a0. rewrite 4!load64_store64_ne by lia.
    rewrite load64_store64. apply u64_small, u64_range.
Qed.

(** C6: a system call from user mode to user mode.  When the program of process [p] executes an
    ecall, the trap enters uservec, which saves the registers in the trapframe and calls
    usertrap() on the kernel stack; usertrap() runs the function that the number in a7 selects.
    If that function returns [r] and leaves the saved registers alone, userret goes back to user
    mode at the instruction after the ecall, with [r] in a0 and every other register as it was,
    and everything is ready for the next trap. *)
Theorem ecall_returns d p F h s :
  regs_ok h -> 0 <= h_pc h < 2 ^ 64 -> user_ready p F s h ->
  h_pc (trap 8 0 h) = uservec_va /\
  exists hk, run uservec (trap 8 0 h) = Some hk /\ h_pc hk = u64 image_usertrap /\
    rget ra hk = userret_va /\ rget sp hk = u64 (p_kstack (the_proc p s) + PGSIZE) /\
    h_mem hk = k_mem (saved_state p h s) /\
    forall f r s2 F', syscall_at (s32 (rget a7 h)) = Some f ->
      f (call_state p h s) = Ok r s2 -> keeps_user p (call_state p h s) s2 F' ->
      exists c s3, usertrap d (w_tp (rget tp hk) (h_csr hk)) (saved_state p h s) =
          Ok (MAKE_SATP (p_pagetable (the_proc p s2)), c) s3 /\
        forall hr, h_csr hr = c -> h_priv hr = Supervisor -> h_mem hr = k_mem s3 ->
          rget a0 hr = MAKE_SATP (p_pagetable (the_proc p s2)) ->
          exists hu, run userret hr = Some hu /\ h_pc hu = u64 (h_pc h + 4) /\ rget a0 hu = u64 r /\
            (forall x, x <> a0 -> rget x hu = rget x h) /\ user_ready p F' s3 hu.
Proof.
  intros Hr Hpc [Uu Uv Us Um Ub Uc Ul Ua Uf Ut Usp]. split; [exact Uv|].
  set (tf := p_trapframe (the_proc p s)) in *.
  destruct (uservec_run (trap 8 0 h) tf) as (hk & E & Em & Ec & Ep & Epc & Esp & Etp & Era).
  { change (h_mem (trap 8 0 h)) with (h_mem h). by rewrite Um. }
  { change (h_mem (trap 8 0 h)) with (h_mem h). change (r_satp _) with (r_satp (h_csr h)).
    rewrite Um, Us. exact (frame_window _ _ F _ Uf). }
  change (h_mem (trap 8 0 h)) with (h_mem h) in *. rewrite Um in *.
  exists hk. rewrite Era, Epc, Esp. split_and!; try done.
  intros f r s2 F' Hf Ef HK.
  destruct (usertrap_ecall d p (w_tp (rget tp hk) (h_csr hk)) (saved_state p h s) (h_pc h) f r s2 F')
    as (c1 & c & Eu & Hsepc & Hstv & Hspp & Hspie); try done.
  { by rewrite Ec. }
  { rewrite Ec. csr_simpl. cbn [trap h_csr set_pc set_priv set_csr]. csr_simpl. rewrite Uu. apply sstatus_spp. }
  { by rewrite Ec. }
  { unfold call_number. change (the_proc p (saved_state p h s)) with (the_proc p s).
    change TF_a7 with (tf_offset a7). rewrite (saved_reg p h s a7) by done. exact Hf. }
  set (s3 := prepared _ _ _) in *. exists c, s3. split; [exact Eu|].
  intros hr Hrc Hrp Hrm Hra. destruct (prepared_ready p c1 r _ _ _ HK) as (R1 & R2 & R3 & R4 & R5).
  fold s3 in R1, R2, R3, R4, R5. change (p_trapframe (the_proc p s3)) with (p_trapframe (the_proc p s2)) in *.
  rewrite (ku_trapframe _ _ _ _ HK) in *. change (p_trapframe (the_proc p (call_state p h s))) with tf in *.
  destruct (userret_run hr tf (MAKE_SATP (p_pagetable (the_proc p s2)))) as (hu & Eh & Hm & Hc & Hp & Hpcu & Hreg).
  { by rewrite Hrm. }
  { exact Hra. }
  { rewrite Hrm, Hrp. exact (frame_window _ _ F' _ R2). }
  assert (Hkw : forall o, (TF_epc <= o /\ o + 8 <= TF_kernel_hartid \/ TF_kernel_hartid + 8 <= o /\ o + 8 <= TF_size) ->
    (o + 8 <= TF_a0 \/ TF_a0 + 8 <= o) -> load64 (k_mem s3) (tf + o) = load64 (k_mem (call_state p h s)) (tf + o))
    by exact (fun o => kept_word p (call_state p h s) s2 F' r c1 o HK).
  exists hu. split; [exact Eh|]. split_and!.
  - rewrite Hpcu, Hrc, Hsepc. change (p_trapframe (the_proc p (saved_state p h s))) with tf.
    pose proof (prepared_load p c1 (answered p r s2) TF_epc ltac:(left; done)) as Hl.
    change (p_trapframe (the_proc p (answered p r s2))) with (p_trapframe (the_proc p s2)) in Hl.
    rewrite (ku_trapframe _ _ _ _ HK) in Hl. change (p_trapframe (the_proc p (call_state p h s))) with tf in Hl.
    rewrite <- Hl. fold s3. rewrite Hkw by (left; done). unfold call_state. ksimpl. rewrite load64_store64. apply u64_small, u64_range.
  - rewrite Hreg by done. rewrite Hrm. exact R5.
  - intros x Hx. destruct (decide (x = zero)) as [->|Hz]; [done|]. rewrite Hreg by done. rewrite Hrm.
    pose proof (tf_offset_range x Hz) as Ho.
    rewrite (Hkw _ (or_intror Ho) (tf_offset_a0 x Hz Hx)). unfold call_state. ksimpl. fold tf.
    rewrite !load64_store64_ne by (unfold TF_epc, TF_kernel_hartid in *; lia). by apply saved_reg.
  - assert (Et : p_trapframe (the_proc p s3) = tf) by exact (ku_trapframe _ _ _ _ HK).
    split; rewrite ?Et.
    + rewrite Hp. unfold sret. cbn [h_priv set_pc set_priv]. by rewrite Hrc, Hspp.
    + rewrite Hc. unfold sret. cbn [h_csr set_pc set_priv set_csr]. csr_simpl. by rewrite Hrc.
    + rewrite Hc. reflexivity.
    + by rewrite Hm.
    + exact R1.
    + exact (ku_cur _ _ _ _ HK).
    + exact (ku_locks _ _ _ _ HK).
    + exact (ku_alive _ _ _ _ HK).
    + exact R2.
    + exact R3.
    + exact R4.
Qed.

(** A system call that changes nothing keeps what it has to. *)
Lemma quiet_call p F h s : user_ready p F s h -> keeps_user p (call_state p h s) (call_state p h s) F.
Proof.
  intros [Uu Uv Us Um Ub Uc Ul Ua Uf Ut Usp]. split; try assumption; try reflexivity.
  - do 2 apply store64_ok. by apply save_all_mem_ok.
  - change (the_proc p (call_state p h s)) with (the_proc p s).
    eapply frame_mapped_store; [exact Uf|]. intros a Ha. unfold call_state. ksimpl. rewrite !page_store by done.
    eapply save_all_frame; [apply tf_all_ok|]. unfold PGSIZE in Ha. lia.
Qed.

End user.

(** ** A process that asks for its pid *)

#[local] Instance tiny_vectors : Vectors := {|
  image_kernelvec := KERNBASE + 2048;
  image_uservec := KERNBASE + 7 * PGSIZE;
  image_userret := KERNBASE + 7 * PGSIZE + 160;
  image_usertrap := KERNBASE + 512
|}.

(** Whoever runs on finds the registers of another trap, on hart 2. *)
Definition elsewhere : Harts := {|
  resume_csrs := fun s c => w_sepc 12 (w_sstatus 2 (w_tp 2 c));
  resume_satp := fun s c => eq_refl
|}.

Definition pid_csrs : csrs :=
  w_satp (MAKE_SATP (PHYSTOP - PGSIZE)) (w_stvec (uservec_va (img := tiny_image)) csrs0).

Definition pid_proc (tf : Z) : proc :=
  set_p_pid 5 (set_p_kstack (KSTACK 0) (set_p_trapframe tf (set_p_pagetable (PHYSTOP - PGSIZE) proc0))).

(** About to execute ecall with the number of getpid(). *)
Definition pid_hart (m : memory) : hart :=
  Hart (fun r => match r with a7 => 11 | _ => 3 end) pid_csrs 0 m User PGSIZE.

Lemma pid_regs m : regs_ok (pid_hart m).
Proof. intros r. unfold rget. case_decide; [lia|]. cbn. destruct r; lia. Qed.

Lemma tiny_user : exists s F, user_ready (img := tiny_image) 0 F s (pid_hart (k_mem s)) /\
  p_pid (the_proc 0 s) = 5 /\ p_pagetable (the_proc 0 s) = PHYSTOP - PGSIZE.
Proof.
  destruct tiny_space as (s & l & Hinv & Hlen & Hl). destruct l as [|tf l]; [discriminate|].
  destruct (kalloc_zeroed (img := tiny_image) _ _ _ _ _ Hinv) as (s1 & _ & Hinv2 & _ & Hl2 & _ & _ & Hto & Htl & HtF).
  set (s2 := set_k_mem _ s1) in *. clearbody s2.
  pose proof (page_ok_pos (img := tiny_image) tf Hto) as Hb. change PGSIZE with 4096 in Hb.
  assert (HM : MAXVA = 2 ^ 38) by reflexivity. assert (HT : TRAPFRAME = 2 ^ 38 - 8192) by reflexivity.
  destruct (mappages_spec (img := tiny_image) s2 (PHYSTOP - PGSIZE) _ l TRAPFRAME 1 tf (Z.lor PTE_R PTE_W) Hinv2)
    as (r & s3 & F & l' & k & _ & Hg & Hmap & Hk & Hlen' & _ & Hr); try done; try (change PGSIZE with 4096; lia).
  { apply Hto. }
  { intros va Hva. change PGSIZE with 4096 in Hva. rewrite Hl2, Hl by lia. done. }
  destruct Hr as [[_ ->]|(_ & _ & ->)]; [|cbn in Hlen, Hlen'; lia].
  pose proof (Hmap TRAPFRAME ltac:(lia)) as Hm.
  change (_ && _) with true in Hm. cbv iota in Hm. change (PGROUNDDOWN TRAPFRAME - TRAPFRAME) with 0 in Hm. rewrite Z.add_0_r in Hm.
  destruct Hg as [[Hpt (_ & _ & _ & Hmo) _ _] _ _ (used & El & Hu) _].
  assert (Hfm : frame_mapped (img := tiny_image) (k_mem s3) (PHYSTOP - PGSIZE) F tf).
  { split; [exact Hpt|exact Hto| |exact Hm]. apply eq_None_not_Some. rewrite Hu. intros [[x Hx]|Hin]; [congruence|].
    apply Htl. rewrite El. apply elem_of_app. by left. }
  set (m := store64 (store64 (k_mem s3) (tf + TF_kernel_trap) (image_usertrap)) (tf + TF_kernel_sp) (u64 (KSTACK 0 + PGSIZE))).
  exists (set_k_cur (Some 0%nat) (set_k_held ∅ (set_k_procs [pid_proc tf] (set_k_mem m s3)))), F. split; [|done].
  split; try reflexivity.
  - do 2 apply store64_ok. exact Hmo.
  - apply (frame_mapped_store (k_mem s3)); [exact Hfm|]. intros a Ha. change (p_trapframe _) with tf in Ha.
    ksimpl. unfold m. rewrite !page_store by done. done.
  - ksimpl. unfold m. change (p_trapframe _) with tf.
    rewrite load64_store64_ne by (unfold TF_kernel_trap, TF_kernel_sp; lia). apply load64_store64.
  - ksimpl. unfold m. change (p_trapframe _) with tf. rewrite load64_store64. reflexivity.
Qed.

Lemma ecall_returns_witness : exists h s hk c s3 hr hu,
  run (uservec (img := tiny_image)) (trap 8 0 h) = Some hk /\
  usertrap (img := tiny_image) (env := SchedProofs.eager) (harts := elsewhere) (MkDevice 0 true []) (w_tp (rget tp hk) (h_csr hk)) (saved_state 0 h s) =
    Ok (MAKE_SATP (PHYSTOP - PGSIZE), c) s3 /\ h_mem hr = k_mem s3 /\
  run userret hr = Some hu /\ h_pc hu = PGSIZE + 4 /\ rget a0 hu = 5.
Proof.
  destruct tiny_user as (s & F & Hready & Hpid & Hroot).
  destruct (ecall_returns (img := tiny_image) (env := SchedProofs.eager) (harts := elsewhere) (MkDevice 0 true []) 0 F (pid_hart (k_mem s)) s
    (pid_regs _)) as (_ & hk & E1 & _ & _ & _ & _ & Hcall).
  - split; [discriminate|reflexivity].
  - exact Hready.
  - destruct (Hcall sys_getpid 5 (call_state 0 (pid_hart (k_mem s)) s) F) as (c & s3 & Eu & Hret).
    + reflexivity.
    + unfold sys_getpid. rewrite (bind_ok _ _ _ 0%nat (call_state 0 (pid_hart (k_mem s)) s)).
      * unfold get_proc, gets. rewrite <- Hpid. reflexivity.
      * unfold myproc. mrun. change (k_cur (call_state _ _ s)) with (k_cur s). rewrite (ur_cur _ _ _ _ Hready). reflexivity.
    + exact (quiet_call _ _ _ _ Hready).
    + change (the_proc 0 (call_state _ _ s)) with (the_proc 0 s) in Eu, Hret. rewrite Hroot in Eu, Hret.
      set (hr := Hart (fun _ => MAKE_SATP (PHYSTOP - PGSIZE)) c 0 (k_mem s3) Supervisor 0).
      destruct (Hret hr eq_refl eq_refl eq_refl eq_refl) as (hu & Er & Hpc & Ha0 & _).
      exists (pid_hart (k_mem s)), s, hk, c, s3, hr, hu.
      split; [exact E1|]. split; [exact Eu|]. split; [reflexivity|]. split; [exact Er|]. split; [exact Hpc|exact Ha0].
Defined.

(** A timer interrupt of process 0 in the kernel, with interrupts enabled. *)
Definition busy_hart : hart :=
  Hart (fun r => match r with sp => KERNBASE + 256 | _ => 9 end) (w_sstatus SSTATUS_SIE csrs0) 0 (fun _ => 0) Supervisor PGSIZE.
Definition busy_state : kstate := set_k_cur (Some 0%nat) (kstate0 (fun _ => 0)).

(** The process gives up the CPU and runs on on hart 2. *)
Lemma kernel_trap_transparent_witness : exists h1 c s' h3,
  run (kernelvec_call (KERNBASE + 512) (KERNBASE + 2100)) (trap 0x8000000000000005 0 busy_hart) = Some h1 /\
  kerneltrap (env := SchedProofs.eager) (harts := elsewhere) (MkDevice 0 true []) (h_csr h1) busy_state = Ok c s' /\
  run kernelvec_back (Hart (h_reg h1) c 0 (h_mem h1) (h_priv h1) 0) = Some h3 /\
  h_pc h3 = PGSIZE /\ has (r_sstatus (h_csr h3)) SSTATUS_SIE = true /\ rget s0 h3 = 9 /\ rget t0 h3 = 9 /\
  k_ticks s' = 1 /\ k_switches s' = 1%nat /\ r_tp c = 2.
Proof.
  destruct (kernel_trap_transparent (env := SchedProofs.eager) (harts := elsewhere) (MkDevice 0 true []) (KERNBASE + 512) (KERNBASE + 2100) busy_hart KERNBASE 0x8000000000000005 0)
    as (h1 & E1 & _ & _ & Ec & Hm & Hback).
  - intros r. unfold rget. case_decide; [lia|]. cbn. unfold KERNBASE. destruct r; lia.
  - intros a. cbn. lia.
  - reflexivity.
  - reflexivity.
  - discriminate.
  - reflexivity.
  - reflexivity.
  - apply bare_window.
  - set (o := kerneltrap (env := SchedProofs.eager) (harts := elsewhere) (MkDevice 0 true []) (h_csr h1) busy_state).
    assert (Ho : match o with Ok c s' => (k_ticks s' =? 1) && (k_switches s' =? 1)%nat && (r_tp c =? 2) | _ => false end = true) by (unfold o; rewrite Ec; vm_compute; reflexivity).
    destruct o as [c s'| |] eqn:Eo; [|discriminate..]. apply andb_prop in Ho as [Ho Ht]. apply andb_prop in Ho as [Hk Hw].
    apply Z.eqb_eq in Hk, Ht. apply Nat.eqb_eq in Hw. unfold o in Eo.
    pose proof (kerneltrap_csrs _ _ _ _ _ Eo) as (_ & _ & Hsatp & _). rewrite Ec in Hsatp.
    destruct (Hback _ c s' (Hart (h_reg h1) c 0 (h_mem h1) (h_priv h1) 0) Eo) as (h3 & E3 & Hpc & _ & _ & Hsie & Hr).
    { split; try reflexivity; [exact Hm|]. rewrite Hsatp. apply bare_window. }
    exists h1, c, s', h3. rewrite !Hr by discriminate.
    split; [exact E1|]. split; [exact Eo|]. split; [exact E3|]. split; [exact Hpc|]. split; [exact Hsie|]. split; [reflexivity|]. split; [reflexivity|].
    split; [exact Hk|]. split; [exact Hw|exact Ht].
Defined.
End TrapProofs.
