(* ===== verification/KernelMap.v ===== *)
(** * The kernel's page table: what kvmmake() builds

    A region is one call of kvmmap(); [kmap] is the page table that a list of disjoint regions
    describes.  [staged] holds between the calls.  Its count of the pages taken rests on the
    labels of the tables: a table is there for a prefix of an address that is mapped, and each
    prefix has one table, so the tables are at most as many as the prefixes ([kernel_labels]). *)

From S2P Require Import Prelude Machine State Locks CString Kalloc VM PageTable UserVM Sched Proc.

Module KernelMap.
Import CString Kalloc VM PageTable UserVM Sched Proc.

(** ** Regions *)

Record region : Type := Region { rg_va : Z; rg_pages : Z; rg_pa : Z; rg_perm : Z }.

Definition covers (r : region) (va : Z) : bool := (rg_va r <=? va) && (va <? rg_va r + rg_pages r * PGSIZE).

Definition region_pte (r : region) (va : Z) : Z := mk_pte (rg_pa r + (PGROUNDDOWN va - rg_va r)) (rg_perm r).

(** The entry for [va]; 0 (invalid) where no region covers it. *)
Fixpoint kmap (R : list region) (va : Z) : Z :=
  match R with
  | [] => 0
  | r :: R => if covers r va then region_pte r va else kmap R va
  end.

Record region_ok (r : region) : Prop := {
  rg_aligned : rg_va r mod PGSIZE = 0 /\ rg_pa r mod PGSIZE = 0;
  rg_low : 0 <= rg_va r /\ 0 < rg_pages r /\ 0 <= rg_pa r;
  rg_high : rg_va r + rg_pages r * PGSIZE <= MAXVA /\ rg_pa r + rg_pages r * PGSIZE <= 2 ^ 56;
  rg_flags : 0 <= rg_perm r < 1024
}.

(** The label of a table that is on the path of an address of the region. *)
Definition label_of (r : region) (x : nat * Z) : Prop :=
  (x.1 < 2)%nat /\ exists va, covers r va = true /\ x.2 = prefix x.1 va.

Section stages.
Context {img : Image}.

(** Between two calls of kvmmap(): [R] is mapped, the pages [st] of [l0] are stacks, [l] are still
    free, and the labels of the tables are in [L]. *)
Record staged (s0 : kstate) (l0 : list Z) (root : Z) (L : list (nat * Z)) (R : list region) (st : list Z)
    (s : kstate) (F : gmap Z (nat * Z)) (l : list Z) : Prop := {
  sg_inv : vm_inv s root F l;
  sg_mem : mem_only s0 s;
  sg_map va : 0 <= va < MAXVA -> lookup_va (k_mem s) root va = kmap R va;
  sg_labels q x : F !! q = Some x -> x ∈ L;
  sg_count : (size F + length st + length l = length l0)%nat;
  sg_free : l ⊆ l0;
  sg_stacks : NoDup st /\ forall q, q ∈ st -> q ∈ l0 /\ page_ok q /\ (q ∉ l) /\ F !! q = None
}.

(** There are at most as many tables as labels. *)
Lemma tables_bound m root F (L : list (nat * Z)) :
  pt_ok m root F -> (forall q x, F !! q = Some x -> x ∈ L) -> (size F <= length L)%nat.
Proof.
  intros Hok HL.
  assert (Hnd : NoDup (map_to_list F).*2).
  { apply NoDup_fmap_2_strong; [|apply NoDup_map_to_list]. intros [q1 x1] [q2 x2] H1 H2 E. cbn in E. subst.
    apply elem_of_map_to_list in H1, H2. f_equal. by eapply pt_inj. }
  assert (Hsub : (map_to_list F).*2 ⊆ L).
  { intros x Hx. apply list_elem_of_fmap in Hx as ([q y] & -> & Hin). apply elem_of_map_to_list in Hin. by eapply HL. }
  pose proof (submseteq_length _ _ (NoDup_submseteq _ _ Hnd Hsub)) as Hl.
  by rewrite length_fmap, length_map_to_list in Hl.
Qed.

(** vm_grow takes as many pages as it adds tables. *)
Lemma vm_grow_size s root F l s' F' l' :
  vm_inv s root F l -> vm_grow s root F l s' F' l' -> (size F' + length l' = size F + length l)%nat.
Proof.
  intros Hinv [_ _ _ (used & -> & Hu) _]. destruct (vm_kmem _ _ _ _ Hinv) as (_ & Hnd & _).
  apply NoDup_app in Hnd as (Hnd & _ & _).
  assert (Hd : dom F' = dom F ∪ list_to_set used).
  { apply set_eq. intros q. rewrite elem_of_union, !elem_of_dom, elem_of_list_to_set. apply Hu. }
  rewrite <- !size_dom, Hd, size_union, size_list_to_set, length_app; [lia|done|].
  intros q H1 H2. apply elem_of_dom in H1 as [x Hx]. apply elem_of_list_to_set in H2.
  rewrite (vm_disj _ _ _ _ Hinv q) in Hx; [done|]. apply elem_of_app. by left.
Qed.

Lemma kmap_app R1 R2 va : kmap (R1 ++ R2) va = if existsb (fun r => covers r va) R1 then kmap R1 va else kmap R2 va.
Proof. induction R1 as [|r R1 IH]; [done|]. cbn [kmap app existsb]. destruct (covers r va); [done|]. apply IH. Qed.

Lemma kmap_none R va : existsb (fun r => covers r va) R = false -> kmap R va = 0.
Proof. induction R as [|r R IH]; [done|]. cbn [kmap existsb]. destruct (covers r va); [done|]. apply IH. Qed.

(** One call of kvmmap(), for a region that overlaps none of those before and whose tables have
    labels of [L], when more than the tables of [L] and the stacks are there. *)
Lemma kvmmap_staged s0 l0 root L R st s F l r :
  staged s0 l0 root L R st s F l -> region_ok r ->
  (forall va, covers r va = true -> existsb (fun r' => covers r' va) R = false) ->
  (forall x, label_of r x -> x ∈ L) -> (length L + length st < length l0)%nat ->
  exists s' F' l', kvmmap root (rg_va r) (rg_pa r) (rg_pages r * PGSIZE) (rg_perm r) s = Ok tt s' /\
    staged s0 l0 root L (R ++ [r]) st s' F' l' /\ vm_grow s root F l s' F' l'.
Proof.
  intros [Hinv Hmo Hmap Hlab Hcnt Hfree [Hnd Hst]] [[Ha1 Ha2] (H1 & H2 & H3) [H4 H5] H6] Hdisj HL Hlen.
  destruct (mappages_spec s root F l (rg_va r) (rg_pages r) (rg_pa r) (rg_perm r))
    as (e & s' & F' & l' & k & E & Hg & Hm & Hk & _ & Hnew & Hr); try done.
  { intros va Hva. assert (Hc : covers r va = true) by (unfold covers; zcases; done).
    rewrite Hmap by lia. by rewrite (kmap_none _ _ (Hdisj _ Hc)). }
  assert (Hlab' : forall q x, F' !! q = Some x -> x ∈ L).
  { intros q [lv pre] Hq. destruct (Hnew _ _ _ Hq) as [?|(Hlv & va & Hva & ->)]; [by eapply Hlab|].
    apply HL. split; [done|]. exists va. split; [|done]. unfold covers. zcases; done. }
  pose proof (vm_grow_size _ _ _ _ _ _ _ Hinv Hg) as Hsz.
  assert (Hb : (size F' <= length L)%nat) by (eapply tables_bound; [apply Hg|done]).
  destruct Hr as [[-> ->]|(_ & _ & ->)]; [|cbn in Hsz; lia].
  exists s', F', l'. split; [|split; [|done]].
  - unfold kvmmap. by rewrite (bind_ok _ _ _ _ _ E).
  - split; try done.
    + apply Hg.
    + eapply mem_only_trans; [done|apply Hg].
    + intros va Hva. rewrite Hm by done. rewrite kmap_app. cbn [kmap]. fold (covers r va). rewrite <- Hmap by done.
      destruct (covers r va) eqn:Hc; [by rewrite (Hdisj _ Hc)|].
      destruct (existsb _ R) eqn:He; [done|]. rewrite Hmap by done. by apply kmap_none.
    + lia.
    + destruct (vg_pages _ _ _ _ _ _ _ Hg) as (used & -> & _). intros q Hq. apply Hfree, elem_of_app. by right.
    + split; [done|]. intros q Hq. destruct (Hst q Hq) as (Q1 & Q2 & Q3 & Q4). split_and!; try done.
      * intros Hin. apply Q3. eapply vm_grow_pages; [exact Hinv|exact Hg|]. by left.
      * apply eq_None_not_Some. intros Hs. apply Q3. eapply vm_grow_pages; [exact Hinv|exact Hg|]. by right.
Qed.

(** kalloc() for a page that the table does not get. *)
Lemma kalloc_staged s0 l0 root L R st s F l :
  staged s0 l0 root L R st s F l -> (length L + length st < length l0)%nat ->
  exists p l' s', l = p :: l' /\ kalloc s = Ok p s' /\ p <> 0 /\ staged s0 l0 root L R (st ++ [p]) s' F l'.
Proof.
  intros [Hinv Hmo Hmap Hlab Hcnt Hfree [Hnd Hst]] Hlen. pose proof Hinv as [Hok Hk Hdis Hlk].
  assert (Hb : (size F <= length L)%nat) by (eapply tables_bound; done).
  destruct l as [|p l]; [cbn in Hcnt; lia|].
  pose proof Hk as (_ & [Hpl _]%NoDup_cons & [Hp _]%Forall_cons & _).
  destruct (kalloc_some s p l Hk Hlk) as (s' & E & Hk' & Hmo' & Hout & _).
  assert (HpF : F !! p = None) by (apply Hdis; by left).
  destruct (pt_frame (k_mem s) (k_mem s') root F Hok) as [Hok' Hl'].
  { intros a [x Hx]. apply Hout. intros Ha. rewrite (proj2 (in_page_iff p a (proj1 Hp)) Ha) in Hx. congruence. }
  exists p, l, s'. split; [done|]. split; [done|]. split; [apply page_ok_pos in Hp; lia|]. split.
  - split; try done; [|by rewrite (mem_only_held _ _ Hmo')]. intros q Hq. apply Hdis. by right.
  - by eapply mem_only_trans.
  - intros va Hva. rewrite Hl' by done. by apply Hmap.
  - done.
  - rewrite length_app. cbn in *. lia.
  - intros q Hq. apply Hfree. by right.
  - split.
    + apply NoDup_app. split; [done|]. split; [|apply NoDup_singleton]. intros q Hq Hq'. apply list_elem_of_singleton in Hq' as ->.
      destruct (Hst p Hq) as (_ & _ & Hn & _). apply Hn. by left.
    + intros q [Hq|Hq]%elem_of_app; [|apply list_elem_of_singleton in Hq as ->].
      * destruct (Hst q Hq) as (? & ? & Hn & ?). split_and!; try done. intros ?. apply Hn. by right.
      * split_and!; try done. apply Hfree. by left.
Qed.

End stages.

(** ** The kernel's regions *)

Section kernel.
Context {img : Image}.

(** What kernel.ld says of the image: etext and the trampoline are at page boundaries, and the
    trampoline is in the text. *)
Record image_ok : Prop := {
  etext_aligned : image_etext mod PGSIZE = 0;
  etext_range : KERNBASE < image_etext < PHYSTOP;
  trampoline_aligned : image_trampoline mod PGSIZE = 0;
  trampoline_range : KERNBASE <= image_trampoline < image_etext
}.

Definition RW : Z := Z.lor PTE_R PTE_W.
Definition RX : Z := Z.lor PTE_R PTE_X.

Definition kernel_regions : list region :=
  [Region UART0 1 UART0 RW;
   Region VIRTIO0 1 VIRTIO0 RW;
   Region PLIC 0x4000 PLIC RW;
   Region KERNBASE ((image_etext - KERNBASE) / PGSIZE) KERNBASE RX;
   Region image_etext ((PHYSTOP - image_etext) / PGSIZE) image_etext RW;
   Region TRAMPOLINE 1 image_trampoline RX].

Definition stack_region (i : nat) (pa : Z) : region := Region (KSTACK (Z.of_nat i)) 1 pa RW.

(** The kernel's page table, with the stack of process [i] at [st !! i]. *)
Definition kernel_map (st : list Z) : list region := kernel_regions ++ imap stack_region st.

(** The tables: one root; one table of level 1 for each of the three gigabytes; one of level 0
    for each two megabytes, of which the uart and the disk share one, the PLIC takes 32, memory
    64, and the trampoline with the stacks one. *)
Definition kernel_labels : list (nat * Z) :=
  [(2%nat, 0); (1%nat, 0); (1%nat, 2); (1%nat, 255); (0%nat, 128); (0%nat, 131071)] ++
  ((fun i => (0%nat, 96 + Z.of_nat i)) <$> seq 0 32) ++ ((fun i => (0%nat, 1024 + Z.of_nat i)) <$> seq 0 64).

Lemma label_seq a n v : a <= v < a + Z.of_nat n -> (0%nat, v) ∈ ((fun i => (0%nat, a + Z.of_nat i)) <$> seq 0 n).
Proof.
  intros Hv. apply list_elem_of_fmap. exists (Z.to_nat (v - a)). split; [f_equal; lia|]. apply elem_of_seq. lia.
Qed.

(** Addresses by the two megabytes and the gigabyte they are in. *)
Lemma kernel_label r lo hi x :
  label_of r x -> (forall va, covers r va = true -> lo <= va <= hi) ->
  x.1 = 0%nat /\ lo / 2 ^ 21 <= x.2 <= hi / 2 ^ 21 \/ x.1 = 1%nat /\ lo / 2 ^ 30 <= x.2 <= hi / 2 ^ 30.
Proof.
  intros (Hlv & va & Hc & ->) Hr. specialize (Hr va Hc). unfold prefix.
  destruct (x.1) as [|[|n]]; [left|right|lia]; (split; [done|]).
  - change (12 + 9 * Z.of_nat 1) with 21. split; apply Z.div_le_mono; lia.
  - change (12 + 9 * Z.of_nat 2) with 30. split; apply Z.div_le_mono; lia.
Qed.

Lemma in_labels_0 v :
  v = 128 \/ v = 131071 \/ 96 <= v < 128 \/ 1024 <= v < 1088 -> (0%nat, v) ∈ kernel_labels.
Proof.
  intros Hv. unfold kernel_labels. rewrite !elem_of_app.
  destruct Hv as [->|[->|[Hv|Hv]]].
  - left. by repeat constructor.
  - left. by repeat constructor.
  - right. left. by apply (label_seq 96 32).
  - right. right. by apply (label_seq 1024 64).
Qed.

Lemma in_labels_1 v : v = 0 \/ v = 2 \/ v = 255 -> (1%nat, v) ∈ kernel_labels.
Proof. intros Hv. unfold kernel_labels. apply elem_of_app. left. destruct Hv as [->|[->| ->]]; by repeat constructor. Qed.

(** The labels of a region between [lo] and [hi]. *)
Lemma region_labels r lo hi :
  lo <= rg_va r -> rg_va r + rg_pages r * PGSIZE <= hi + 1 ->
  (forall v, lo / 2 ^ 21 <= v <= hi / 2 ^ 21 -> v = 128 \/ v = 131071 \/ 96 <= v < 128 \/ 1024 <= v < 1088) ->
  (forall v, lo / 2 ^ 30 <= v <= hi / 2 ^ 30 -> v = 0 \/ v = 2 \/ v = 255) ->
  forall x, label_of r x -> x ∈ kernel_labels.
Proof.
  intros Hlo Hhi H0 H1 [lv v] Hx. destruct (kernel_label r lo hi _ Hx) as [[E Hv]|[E Hv]].
  - intros va Hc. unfold covers in Hc. zcases; try done. lia.
  - cbn in *. subst. by apply in_labels_0, H0.
  - cbn in *. subst. by apply in_labels_1, H1.
Qed.

Definition apart (r r' : region) : Prop :=
  rg_va r + rg_pages r * PGSIZE <= rg_va r' \/ rg_va r' + rg_pages r' * PGSIZE <= rg_va r.

Lemma apart_covers r R va :
  Forall (apart r) R -> covers r va = true -> existsb (fun r' => covers r' va) R = false.
Proof.
  intros HR Hc. induction HR as [|r' R Ha _ IH]; [done|]. cbn [existsb]. rewrite IH, orb_false_r.
  unfold covers, apart in *. zcases; done || lia.
Qed.

(** The whole step from one stage to the next. *)
Lemma kvmmap_stage s0 l0 root R st s F l r lo hi size :
  staged s0 l0 root kernel_labels R st s F l -> region_ok r -> Forall (apart r) R ->
  lo <= rg_va r -> rg_va r + rg_pages r * PGSIZE <= hi + 1 ->
  (forall v, lo / 2 ^ 21 <= v <= hi / 2 ^ 21 -> v = 128 \/ v = 131071 \/ 96 <= v < 128 \/ 1024 <= v < 1088) ->
  (forall v, lo / 2 ^ 30 <= v <= hi / 2 ^ 30 -> v = 0 \/ v = 2 \/ v = 255) ->
  size = rg_pages r * PGSIZE -> (102 + length st < length l0)%nat ->
  exists s' F' l', kvmmap root (rg_va r) (rg_pa r) size (rg_perm r) s = Ok tt s' /\
    staged s0 l0 root kernel_labels (R ++ [r]) st s' F' l'.
Proof.
  intros Hs Hok Hap Hlo Hhi H0 H1 -> Hlen.
  destruct (kvmmap_staged _ _ _ _ _ _ _ _ _ r Hs Hok) as (s' & F' & l' & E & Hs' & _); [| |done|by exists s', F', l'].
  - intros va. by apply apart_covers.
  - by eapply region_labels.
Qed.

Lemma kernel_map_snoc st p : kernel_map (st ++ [p]) = kernel_map st ++ [stack_region (length st) p].
Proof. unfold kernel_map. rewrite imap_app, <- app_assoc. cbn [imap]. by rewrite Nat.add_0_r. Qed.

Lemma KSTACK_eq i : KSTACK i = 2 ^ 38 - 4096 - (i + 1) * 8192.
Proof. unfold KSTACK. change TRAMPOLINE with (2 ^ 38 - 4096). unfold PGSIZE. lia. Qed.

(** The new stack is below all the others, and above memory. *)
Lemma stack_apart st p : image_ok -> (length st < 64)%nat -> Forall (apart (stack_region (length st) p)) (kernel_map st).
Proof.
  intros [Ha He Hta Ht] Hlen. apply Forall_app. split.
  - assert (HP : PHYSTOP = 2281701376) by done. assert (HK : KERNBASE = 2147483648) by done.
    unfold kernel_regions. rewrite !Forall_cons, Forall_nil. split_and!; [..|done];
      unfold apart; cbn [rg_va rg_pages stack_region]; rewrite KSTACK_eq; unfold PGSIZE in *.
    + right. change UART0 with 268435456. lia.
    + right. change VIRTIO0 with 268439552. lia.
    + right. change PLIC with 201326592. lia.
    + right. dlia.
    + right. dlia.
    + left. change TRAMPOLINE with (2 ^ 38 - 4096). lia.
  - apply Forall_lookup. intros i r Hr. apply list_lookup_imap_Some in Hr as (q & Hq & ->).
    apply lookup_lt_Some in Hq. left. cbn [rg_va rg_pages stack_region]. rewrite !KSTACK_eq. unfold PGSIZE. lia.
Qed.

Lemma mapstacks_run root s0 l0 n : forall st s F l,
  image_ok -> staged s0 l0 root kernel_labels (kernel_map st) st s F l ->
  (length st + n = 64)%nat -> (166 < length l0)%nat ->
  exists s' F' l' st', for_loop (seq (length st) n) (fun p =>
      pa <- kalloc ;;
      if pa =? 0 then panic "kalloc" else
      kvmmap root (KSTACK (Z.of_nat p)) pa PGSIZE (Z.lor PTE_R PTE_W) ;;
      retM (@Continue unit)) s = Ok None s' /\
    staged s0 l0 root kernel_labels (kernel_map st') st' s' F' l' /\ length st' = 64%nat.
Proof.
  induction n as [|n IH]; intros st s F l Him Hs Hlen Hl0; cbn [seq for_loop].
  { exists s, F, l, st. split; [done|]. split; [done|lia]. }
  destruct (kalloc_staged _ _ _ _ _ _ _ _ _ Hs) as (p & l1 & s1 & -> & E & Hp & Hs1);
    [change (length kernel_labels) with 102%nat; lia|].
  assert (Hpok : page_ok p) by (apply (sg_stacks _ _ _ _ _ _ _ _ _ Hs1); apply elem_of_app; right; by left).
  destruct (page_ok_pos p Hpok) as [Hp1 Hp2].
  destruct (kvmmap_stage _ _ _ _ _ _ _ _ (stack_region (length st) p) (2 ^ 38 - 2 ^ 21) (2 ^ 38 - 1) PGSIZE Hs1)
    as (s2 & F2 & l2 & E2 & Hs2); cbn [rg_va rg_pages stack_region]; try (rewrite KSTACK_eq; unfold PGSIZE; lia).
  - split; cbn [rg_va rg_pages rg_pa rg_perm stack_region]; rewrite ?KSTACK_eq; try done.
    + split; [unfold PGSIZE; dlia|apply Hpok].
    + lia.
    + change MAXVA with (2 ^ 38). unfold PGSIZE in *. lia.
  - by apply stack_apart; [|lia].
  - intros v Hv. right. left. change ((2 ^ 38 - 2 ^ 21) / 2 ^ 21) with 131071 in Hv. change ((2 ^ 38 - 1) / 2 ^ 21) with 131071 in Hv. lia.
  - intros v Hv. right. right. change ((2 ^ 38 - 2 ^ 21) / 2 ^ 30) with 255 in Hv. change ((2 ^ 38 - 1) / 2 ^ 30) with 255 in Hv. lia.
  - done.
  - rewrite length_app. cbn. lia.
  - rewrite <- kernel_map_snoc in Hs2.
    destruct (IH (st ++ [p]) s2 F2 l2 Him Hs2) as (s' & F' & l' & st' & E' & Hs' & Hlen'); [rewrite length_app; cbn; lia|done|].
    exists s', F', l', st'. split; [|done]. rewrite length_app, Nat.add_1_r in E'.
    rewrite bind_assoc, (bind_ok _ _ _ _ _ E). destruct (Z.eqb_spec p 0); [done|].
    rewrite bind_assoc, (bind_ok _ _ _ _ _ E2). mrun. exact E'.
Qed.


(** kalloc() and memset() at the start of kvmmake(). *)
Lemma root_staged s root l :
  kmem_inv s (root :: l) -> LKmem ∉ k_held s ->
  exists s1, kalloc s = Ok root s1 /\
    staged s (root :: l) root kernel_labels [] [] (set_k_mem (memset (k_mem s1) root 0 PGSIZE) s1) {[root := (2%nat, 0)]} l.
Proof.
  intros Hk Hlk. destruct (uvmcreate_spec s root l Hk Hlk) as (s' & E & Hinv & Hmo & Hl & _).
  destruct (kalloc_some s root l Hk Hlk) as (s1 & E1 & _). exists s1. split; [done|].
  unfold uvmcreate in E. rewrite (bind_ok _ _ _ _ _ E1) in E.
  assert (Hp : page_ok root) by (by destruct Hk as (_ & _ & [? _]%Forall_cons & _)).
  apply page_ok_pos in Hp. destruct (Z.eqb_spec root 0); [lia|]. injection E as E. rewrite E.
  split; try done.
  - intros q x [<- <-]%lookup_singleton_Some. by left.
  - rewrite map_size_singleton. cbn. lia.
  - intros q Hq. by right.
  - split; [apply NoDup_nil_2|]. intros q Hq. by apply elem_of_nil in Hq.
Qed.

(** The calls of kvmmap() for a list of regions. *)
Fixpoint kvmmaps (root : Z) (R : list region) : K unit :=
  match R with
  | [] => retM tt
  | r :: R => kvmmap root (rg_va r) (rg_pa r) (rg_pages r * PGSIZE) (rg_perm r) ;; kvmmaps root R
  end.

Definition placed (r : region) : Prop := region_ok r /\ forall x, label_of r x -> x ∈ kernel_labels.

Fixpoint all_apart (R : list region) : Prop :=
  match R with
  | [] => True
  | r :: R => Forall (fun r' => apart r' r) R /\ all_apart R
  end.

Lemma kvmmaps_staged s0 l0 root R : forall R0 s F l,
  staged s0 l0 root kernel_labels R0 [] s F l -> Forall placed R -> all_apart R ->
  Forall (fun r => Forall (apart r) R0) R -> (102 < length l0)%nat ->
  exists s' F' l', kvmmaps root R s = Ok tt s' /\ staged s0 l0 root kernel_labels (R0 ++ R) [] s' F' l'.
Proof.
  induction R as [|r R IH]; intros R0 s F l Hs Hp Ha H0 Hlen; cbn [kvmmaps].
  { exists s, F, l. by rewrite app_nil_r. }
  apply Forall_cons in Hp as [[Hok Hlab] Hp]. destruct Ha as [Har Ha]. apply Forall_cons in H0 as [H0r H0].
  destruct (kvmmap_staged _ _ _ _ _ _ _ _ _ r Hs Hok) as (s1 & F1 & l1 & E & Hs1 & _); [|done|done|].
  { intros va. by apply apart_covers. }
  destruct (IH (R0 ++ [r]) s1 F1 l1 Hs1 Hp Ha) as (s' & F' & l' & E' & Hs'); [|done|].
  { rewrite Forall_forall in H0, Har |- *. intros r' Hr'. apply Forall_app. split; [by apply H0|].
    apply Forall_singleton. by apply Har. }
  exists s', F', l'. rewrite (bind_ok _ _ _ _ _ E), E'. by rewrite <- app_assoc in Hs'.
Qed.

Lemma image_sizes : image_ok ->
  (image_etext - KERNBASE) / PGSIZE * PGSIZE = image_etext - KERNBASE /\
  (PHYSTOP - image_etext) / PGSIZE * PGSIZE = PHYSTOP - image_etext /\
  0 < (image_etext - KERNBASE) / PGSIZE /\ 0 < (PHYSTOP - image_etext) / PGSIZE.
Proof.
  intros [Ha He _ _]. assert (HP : PHYSTOP = 2281701376) by done. assert (HK : KERNBASE = 2147483648) by done.
  rewrite HP, HK in *. unfold PGSIZE in *. split_and!; dlia.
Qed.

Lemma kernel_regions_placed : image_ok -> Forall placed kernel_regions.
Proof.
  intros Him. pose proof Him as [Ha He Hta Ht]. destruct (image_sizes Him) as (E1 & E2 & E3 & E4).
  assert (HP : PHYSTOP = 2281701376) by done. assert (HK : KERNBASE = 2147483648) by done.
  assert (HM : MAXVA = 2 ^ 38) by done. assert (HT : TRAMPOLINE = 2 ^ 38 - 4096) by done.
  unfold kernel_regions. rewrite !Forall_cons, Forall_nil.
  assert (Hmk : forall va n pa perm lo hi b b' g, 0 <= perm < 1024 -> lo <= va -> va + n * PGSIZE <= hi + 1 -> 0 < n ->
    va mod PGSIZE = 0 -> pa mod PGSIZE = 0 -> 0 <= lo -> hi < 2 ^ 38 -> 0 <= pa -> pa + n * PGSIZE <= 2 ^ 56 ->
    lo / 2 ^ 21 = b -> hi / 2 ^ 21 = b' -> lo / 2 ^ 30 = g -> hi / 2 ^ 30 = g ->
    (128 = b /\ b' = 128 \/ 131071 = b /\ b' = 131071 \/ 96 <= b /\ b' < 128 \/ 1024 <= b /\ b' < 1088) ->
    g = 0 \/ g = 2 \/ g = 255 -> placed (Region va n pa perm)).
  { intros va n pa perm lo hi b b' g H1 H2 H3 H4 H5 H6 H7 H8 H9 H10 Hb Hb' Hg Hg' Hbb Hgg. split.
    - split; cbn [rg_va rg_pages rg_pa rg_perm]; rewrite ?HM; done || lia.
    - apply (region_labels _ lo hi); cbn [rg_va rg_pages]; [done|done| |]; intros v Hv; lia. }
  split_and!; [apply (Hmk _ _ _ _ UART0 (UART0 + 8191) 128 128 0)|apply (Hmk _ _ _ _ UART0 (UART0 + 8191) 128 128 0)|
    apply (Hmk _ _ _ _ PLIC (PLIC + 67108863) 96 127 0)|apply (Hmk _ _ _ _ KERNBASE (PHYSTOP - 1) 1024 1087 2)|
    apply (Hmk _ _ _ _ KERNBASE (PHYSTOP - 1) 1024 1087 2)|apply (Hmk _ _ _ _ TRAMPOLINE (MAXVA - 1) 131071 131071 255)|done];
    try done; try lia; unfold PGSIZE in *; lia.
Qed.

Lemma kernel_regions_apart : image_ok -> all_apart kernel_regions.
Proof.
  intros Him. pose proof Him as [Ha He Hta Ht]. destruct (image_sizes Him) as (E1 & E2 & E3 & E4).
  assert (HP : PHYSTOP = 2281701376) by done. assert (HK : KERNBASE = 2147483648) by done.
  assert (HT : TRAMPOLINE = 2 ^ 38 - 4096) by done. assert (HG : PGSIZE = 4096) by done.
  assert (HU : UART0 = 268435456 /\ VIRTIO0 = 268439552 /\ PLIC = 201326592) by done. destruct HU as (HU & HV & HL).
  unfold kernel_regions. cbn [all_apart]. rewrite !Forall_cons, !Forall_nil.
  unfold apart; cbn [rg_va rg_pages]. rewrite E1, E2. lia.
Qed.

Lemma kvmmake_run s root l :
  image_ok -> kmem_inv s (root :: l) -> LKmem ∉ k_held s -> (166 <= length l)%nat ->
  exists s' F' l' st, kvmmake s = Ok root s' /\ length st = 64%nat /\
    staged s (root :: l) root kernel_labels (kernel_map st) st s' F' l'.
Proof.
  intros Him Hk Hlk Hlen. pose proof Him as [Ha He _ _]. destruct (image_sizes Him) as (E1 & E2 & _).
  assert (HP : PHYSTOP = 2281701376) by done. assert (HK : KERNBASE = 2147483648) by done.
  destruct (root_staged s root l Hk Hlk) as (s1 & Ea & S0). unfold kvmmake. rewrite (bind_ok _ _ _ _ _ Ea).
  unfold put_mem. mrun. set (s2 := set_k_mem _ s1) in *.
  destruct (kvmmaps_staged _ _ root kernel_regions [] s2 _ l S0 (kernel_regions_placed Him) (kernel_regions_apart Him))
    as (s3 & F3 & l3 & E & S3).
  { apply Forall_forall. intros r _. apply Forall_nil_2. }
  { cbn. lia. }
  destruct (mapstacks_run root s (root :: l) 64 [] s3 F3 l3 Him S3) as (s' & F' & l' & st & E' & S' & Hst); [done|cbn; lia|].
  exists s', F', l', st. split; [|split; assumption].
  rewrite (u64_small (image_etext - _)), (u64_small (PHYSTOP - _)) by lia.
  cbn [kvmmaps kernel_regions rg_va rg_pa rg_pages rg_perm] in E. rewrite E1, E2 in E.
  change (1 * PGSIZE) with PGSIZE in E. change (0x4000 * PGSIZE) with 0x4000000 in E.
  apply bind_inv in E as ([] & t1 & K1 & E). apply bind_inv in E as ([] & t2 & K2 & E).
  apply bind_inv in E as ([] & t3 & K3 & E). apply bind_inv in E as ([] & t4 & K4 & E).
  apply bind_inv in E as ([] & t5 & K5 & E). apply bind_inv in E as ([] & t6 & K6 & E). injection E as ->.
  rewrite (bind_ok _ _ _ _ _ K1), (bind_ok _ _ _ _ _ K2), (bind_ok _ _ _ _ _ K3), (bind_ok _ _ _ _ _ K4),
    (bind_ok _ _ _ _ _ K5), (bind_ok _ _ _ _ _ K6).
  unfold proc_mapstacks. rewrite bind_assoc, (bind_ok _ _ _ _ _ E'). reflexivity.
Qed.

(** ** What the table says *)

Lemma kmap_guard st i va :
  image_ok -> (length st <= 64)%nat -> (i < 64)%nat -> KSTACK (Z.of_nat i) - PGSIZE <= va < KSTACK (Z.of_nat i) ->
  kmap (kernel_map st) va = 0.
Proof.
  intros Him Hlen Hi Hva. pose proof Him as [Ha He Hta Ht]. destruct (image_sizes Him) as (E1 & E2 & E3 & E4).
  assert (HP : PHYSTOP = 2281701376) by done. assert (HK : KERNBASE = 2147483648) by done.
  assert (HT : TRAMPOLINE = 2 ^ 38 - 4096) by done. assert (HG : PGSIZE = 4096) by done.
  assert (HU : UART0 = 268435456 /\ VIRTIO0 = 268439552 /\ PLIC = 201326592) by done. destruct HU as (HU & HV & HL).
  rewrite KSTACK_eq in Hva. apply kmap_none. unfold kernel_map. rewrite existsb_app. apply orb_false_iff. split.
  - unfold kernel_regions. cbn [existsb]. unfold covers. cbn [rg_va rg_pages]. rewrite E1, E2. zcases; done || lia.
  - apply not_true_is_false. intros (r & Hin & Hc)%existsb_exists. apply list_elem_of_In, list_elem_of_lookup in Hin as [j Hj].
    apply list_lookup_imap_Some in Hj as (q & Hq & ->). apply lookup_lt_Some in Hq.
    unfold covers in Hc. cbn [rg_va rg_pages stack_region] in Hc. rewrite KSTACK_eq in Hc. zcases; done || lia.
Qed.

(** Every entry is invalid or belongs to a region. *)
Lemma kmap_cases R va : kmap R va = 0 \/ exists r, r ∈ R /\ covers r va = true /\ kmap R va = region_pte r va.
Proof.
  induction R as [|r R IH]; [by left|]. cbn [kmap]. destruct (covers r va) eqn:Hc.
  - right. exists r. split; [by left|done].
  - destruct IH as [?|(r' & ? & ?)]; [by left|right]. exists r'. split; [by right|done].
Qed.

Lemma kernel_perms st r : r ∈ kernel_map st -> rg_perm r = RW \/ rg_perm r = RX.
Proof.
  intros [Hr|Hr]%elem_of_app.
  - unfold kernel_regions in Hr. rewrite !elem_of_cons in Hr. set_solver.
  - apply list_elem_of_lookup in Hr as [j Hj]. apply list_lookup_imap_Some in Hj as (q & Hq & ->). by left.
Qed.

(** A region's entry, for an address in it. *)
Lemma region_pte_spec r va :
  region_ok r -> covers r va = true ->
  has (region_pte r va) PTE_V = true /\ PTE2PA (region_pte r va) = rg_pa r + (PGROUNDDOWN va - rg_va r) /\
  PTE_FLAGS (region_pte r va) = Z.lor (rg_perm r) PTE_V.
Proof.
  intros [[Ha1 Ha2] (H1 & H2 & H3) [H4 H5] H6] Hc. unfold covers in Hc. zcases; try done.
  rewrite PGROUNDDOWN_eq. assert (HG : PGSIZE = 4096) by done.
  destruct (mk_pte_spec (rg_pa r + (va - va mod PGSIZE - rg_va r)) (rg_perm r)) as (_ & Hv & Hpa & Hf); [| |done|].
  - rewrite HG in *. dlia.
  - rewrite HG in *. dlia.
  - unfold region_pte. rewrite PGROUNDDOWN_eq. done.
Qed.

Lemma stack_region_ok i q : (i < 64)%nat -> page_ok q -> region_ok (stack_region i q).
Proof.
  intros Hi Hq. destruct (page_ok_pos q Hq) as [H1 H2]. split; cbn [rg_va rg_pages rg_pa rg_perm stack_region]; rewrite ?KSTACK_eq.
  - split; [unfold PGSIZE; dlia|apply Hq].
  - lia.
  - change MAXVA with (2 ^ 38). unfold PGSIZE in *. lia.
  - done.
Qed.

Lemma kernel_map_ok st : image_ok -> (length st <= 64)%nat -> (forall q, q ∈ st -> page_ok q) -> Forall region_ok (kernel_map st).
Proof.
  intros Him Hlen Hst. apply Forall_app. split.
  - eapply Forall_impl; [by apply kernel_regions_placed|]. by intros r [? _].
  - apply Forall_lookup. intros j r Hj. apply list_lookup_imap_Some in Hj as (q & Hq & ->).
    apply stack_region_ok; [apply lookup_lt_Some in Hq; lia|]. apply Hst. by apply list_elem_of_lookup_2 in Hq.
Qed.

(** C9: kvmmake() builds the kernel's address space.  With 167 free pages or more it does not
    panic, and the table it returns maps the devices and all of memory at their own addresses
    (the text readable and executable, the rest readable and writable), the trampoline at the
    top, and a stack of one fresh page for each process, all different; nothing else.  The page
    below each stack is not mapped, no page is both writable and executable, and at most 166
    pages are used. *)
Theorem kvmmake_maps s root l :
  image_ok -> kmem_inv s (root :: l) -> LKmem ∉ k_held s -> (166 <= length l)%nat ->
  exists s' st F l', kvmmake s = Ok root s' /\ mem_only s s' /\ vm_inv s' root F l' /\
    length st = NPROC /\ NoDup st /\ (forall q, q ∈ st -> q ∈ root :: l /\ (q ∉ l') /\ F !! q = None) /\
    (length l <= length l' + 165)%nat /\
    (forall va, 0 <= va < MAXVA -> lookup_va (k_mem s') root va = kmap (kernel_map st) va) /\
    (forall i va, (i < NPROC)%nat -> KSTACK (Z.of_nat i) - PGSIZE <= va < KSTACK (Z.of_nat i) ->
       lookup_va (k_mem s') root va = 0) /\
    (forall va, 0 <= va < MAXVA -> has (lookup_va (k_mem s') root va) PTE_W && has (lookup_va (k_mem s') root va) PTE_X = false).
Proof.
  intros Him Hk Hlk Hlen. destruct (kvmmake_run s root l Him Hk Hlk Hlen) as (s' & F & l' & st & E & Hst & S).
  pose proof S as [Hinv Hmo Hmap Hlab Hcnt Hfree [Hnd Hin]].
  assert (Hb : (size F <= 102)%nat) by (eapply (tables_bound _ _ _ kernel_labels); [apply Hinv|done]).
  exists s', st, F, l'. split_and!; try done.
  - intros q Hq. destruct (Hin q Hq) as (? & _ & ? & ?). done.
  - cbn in Hcnt. lia.
  - intros i va Hi Hva. rewrite Hmap by (rewrite KSTACK_eq in Hva; change NPROC with 64%nat in Hi; change MAXVA with (2 ^ 38); unfold PGSIZE in *; lia).
    eapply kmap_guard; [done| |done|done]. lia.
  - intros va Hva. rewrite Hmap by done. destruct (kmap_cases (kernel_map st) va) as [->|(r & Hr & Hc & ->)]; [done|].
    assert (Hok : region_ok r).
    { pose proof (kernel_map_ok st Him) as H. rewrite Forall_forall in H. apply H; [lia| |done]. intros q Hq. by apply Hin. }
    destruct (region_pte_spec r va Hok Hc) as (_ & _ & Hf).
    rewrite (has_flags _ PTE_W), (has_flags _ PTE_X), Hf by done. by destruct (kernel_perms st r Hr) as [->| ->].
Qed.

End kernel.

(** ** A machine with 200 free pages above the kernel *)

Lemma small_image_range : KERNBASE <= PHYSTOP - 200 * PGSIZE < PHYSTOP.
Proof. by vm_compute. Qed.

Definition small_image : Image := {|
  image_end := PHYSTOP - 200 * PGSIZE;
  image_etext := KERNBASE + 8 * PGSIZE;
  image_trampoline := KERNBASE + 7 * PGSIZE;
  image_forkret := KERNBASE + 1024;
  image_end_range := small_image_range
|}.

Lemma small_image_ok : image_ok (img := small_image).
Proof. split; try reflexivity; vm_compute; split; (discriminate || reflexivity). Qed.

Lemma small_pages : exists s root l,
  kinit (img := small_image) (kstate0 (fun _ => 0)) = Ok tt s /\
  kmem_inv (img := small_image) s (root :: l) /\ k_held s = ∅ /\ length l = 199%nat.
Proof.
  destruct (freerange_run (img := small_image) (kstate0 (fun _ => 0)) [] (PHYSTOP - 200 * PGSIZE) PHYSTOP)
    as (s & E & Hk & Hmo).
  - split; [reflexivity|]. split; [apply NoDup_nil_2|]. split; [apply Forall_nil_2|].
    intros a. split; [discriminate|reflexivity].
  - apply not_elem_of_empty.
  - rewrite Forall_forall. intros q Hq. apply elem_page_range in Hq as (i & -> & Hi & Hq);
      [|vm_compute; discriminate].
    change (PGROUNDUP (PHYSTOP - 200 * PGSIZE)) with (PHYSTOP - 200 * PGSIZE) in *.
    unfold page_ok. change (@image_end small_image) with (PHYSTOP - 200 * PGSIZE).
    unfold PHYSTOP, KERNBASE, PGSIZE in *. dlia.
  - set_solver.
  - set (l := reverse _ ++ []) in Hk.
    assert (Hl : length l = 200%nat) by (vm_compute; reflexivity).
    clearbody l. destruct l as [|root l]; [discriminate|]. injection Hl as Hl.
    exists s, root, l. split; [exact E|]. split; [exact Hk|]. split; [|exact Hl].
    rewrite (mem_only_held _ _ Hmo). reflexivity.
Qed.

Lemma kvmmake_maps_witness : exists s root s' (st : list Z),
  kvmmake (img := small_image) s = Ok root s' /\ length st = 64%nat /\
  lookup_va (k_mem s') root KERNBASE = mk_pte KERNBASE (RX) /\ lookup_va (k_mem s') root UART0 = mk_pte UART0 RW.
Proof.
  destruct small_pages as (s & root & l & _ & Hk & Hh & Hl).
  destruct (kvmmake_maps (img := small_image) s root l small_image_ok Hk) as (s' & st & F & l' & E & _ & _ & Hst & _ & _ & _ & Hmap & _).
  - rewrite Hh. apply not_elem_of_empty.
  - rewrite Hl. lia.
  - exists s, root, s', st. split; [exact E|]. split; [exact Hst|]. rewrite !Hmap by (vm_compute; split; (discriminate || reflexivity)).
    split; reflexivity.
Defined.

End KernelMap.
