(* ===== verification/Sh.v ===== *)
(** * user/sh.c: the parser of the shell

    The line is the list of its characters before the nul.  A [char *] into it is the list of
    the characters from there on, so that [s < es] says the list is not empty and [*s] is its
    head, or the nul at the end.  The state of the monad is [*ps]; panic() prints its message
    and exits.  A string of a parsed command is a pair of pointers, its start and its end,
    until nulterminate() has written a nul at each end. *)

From S2P Require Import Prelude Machine CString Ulib Print.

Module Sh.
Import CString Ulib.

(** ** Commands *)

(** The five structs, over the representation [A] of strings; argv without its final null. *)
Inductive cmd (A : Type) : Type :=
| EXEC (argv : list A)
| REDIR (c : cmd A) (file : A) (mode fd : Z)
| PIPE (left right : cmd A)
| LIST (left right : cmd A)
| BACK (c : cmd A).
Arguments EXEC {A} _.
Arguments REDIR {A} _ _ _ _.
Arguments PIPE {A} _ _.
Arguments LIST {A} _ _.
Arguments BACK {A} _.

Definition MAXARGS : nat := 10.

(** A pointer, and a string given by its two ends. *)
Definition ptr : Type := list Z.
Definition str : Type := ptr * ptr.

Definition O_RDONLY : Z := 0x000.
Definition O_WRONLY : Z := 0x001.
Definition O_CREATE : Z := 0x200.
Definition O_TRUNC : Z := 0x400.

(** ** Tokens *)

Definition whitespace : list Z := [32; 9; 13; 10; 11].
Definition symbols : list Z := [60; 124; 62; 38; 59; 40; 41].

(** strchr(cs, c) as a truth value. *)
Definition has_char (cs : list Z) (c : Z) : bool := match strchr cs c with Some _ => true | None => false end.

(** [while(s < es && strchr(whitespace, *s)) s++;] *)
Fixpoint skip_space (s : ptr) : ptr :=
  match s with
  | c :: s' => if has_char whitespace c then skip_space s' else s
  | [] => []
  end.

(** [while(s < es && !strchr(whitespace, *s) && !strchr(symbols, *s)) s++;] *)
Fixpoint skip_word (s : ptr) : ptr :=
  match s with
  | c :: s' => if negb (has_char whitespace c) && negb (has_char symbols c) then skip_word s' else s
  | [] => []
  end.

(** The switch of gettoken(): the token's code and the position behind it; the code of a word
    is [a], that of [>>] is [+]. *)
Definition scan (s : ptr) : Z * ptr :=
  match s with
  | [] => (0, s)
  | c :: t =>
      if c =? 0 then (0, s)
      else if (c =? 124) || (c =? 40) || (c =? 41) || (c =? 59) || (c =? 38) || (c =? 60) then (c, t)
      else if c =? 62 then
        match t with
        | d :: t' => if d =? 62 then (43, t') else (62, t)
        | [] => (62, t)
        end
      else (97, skip_word s)
  end.

Definition gettoken : M ptr (Z * str) := fun s =>
  let q := skip_space s in
  let '(ret, eq) := scan q in
  Ok (ret, (q, eq)) (skip_space eq).

Definition peek (toks : list Z) : M ptr bool := fun s =>
  let s := skip_space s in
  Ok (negb (hd 0 s =? 0) && has_char toks (hd 0 s)) s.

(** ** The parser

    parseline() calls itself after each [;] and each opening parenthesis; [fuel] bounds that
    nesting and the rounds of each loop. *)

Definition redir (tok : Z) (file : str) (c : cmd str) : cmd str :=
  if tok =? 60 then REDIR c file O_RDONLY 0
  else if tok =? 62 then REDIR c file (Z.lor (Z.lor O_WRONLY O_CREATE) O_TRUNC) 1
  else if tok =? 43 then REDIR c file (Z.lor O_WRONLY O_CREATE) 1
  else c.

Fixpoint parseredirs (fuel : nat) (c : cmd str) : M ptr (cmd str) :=
  b <- peek [60; 62] ;;
  if b then
    match fuel with
    | O => block
    | S fuel =>
        '(tok, _) <- gettoken ;;
        '(t, file) <- gettoken ;;
        if negb (t =? 97) then panic "missing file for redirection" else
        parseredirs fuel (redir tok file c)
    end
  else retM c.

(** [cmd->argv[argc] = q; cmd->eargv[argc] = eq;] where [cmd] is the EXEC node below the
    redirections that [ret] has wrapped around it. *)
Fixpoint push_arg {A} (w : A) (ret : cmd A) : cmd A :=
  match ret with
  | EXEC argv => EXEC (argv ++ [w])
  | REDIR c file mode fd => REDIR (push_arg w c) file mode fd
  | _ => ret
  end.

Fixpoint parseexec_loop (fuel : nat) (argc : nat) (ret : cmd str) : M ptr (cmd str) :=
  b <- peek [124; 41; 38; 59] ;;
  if b then retM ret else
  match fuel with
  | O => block
  | S fuel =>
      '(tok, w) <- gettoken ;;
      if tok =? 0 then retM ret else
      if negb (tok =? 97) then panic "syntax" else
      let ret := push_arg w ret in
      if (MAXARGS <=? argc + 1)%nat then panic "too many args" else
      ret <- parseredirs fuel ret ;;
      parseexec_loop fuel (argc + 1) ret
  end.

Definition parseblock (fuel : nat) (parseline : M ptr (cmd str)) : M ptr (cmd str) :=
  b <- peek [40] ;;
  if negb b then panic "parseblock" else
  gettoken ;;
  c <- parseline ;;
  b <- peek [41] ;;
  if negb b then panic "syntax - missing )" else
  gettoken ;;
  parseredirs fuel c.

Definition parseexec (fuel : nat) (parseline : M ptr (cmd str)) : M ptr (cmd str) :=
  b <- peek [40] ;;
  if b then parseblock fuel parseline else
  ret <- parseredirs fuel (EXEC []) ;;
  parseexec_loop fuel 0 ret.

Fixpoint parsepipe (fuel : nat) (parseline : M ptr (cmd str)) : M ptr (cmd str) :=
  match fuel with
  | O => block
  | S fuel' =>
      c <- parseexec fuel parseline ;;
      b <- peek [124] ;;
      if b then
        gettoken ;;
        r <- parsepipe fuel' parseline ;;
        retM (PIPE c r)
      else retM c
  end.

Fixpoint back_loop (fuel : nat) (c : cmd str) : M ptr (cmd str) :=
  b <- peek [38] ;;
  if b then
    match fuel with
    | O => block
    | S fuel => gettoken ;; back_loop fuel (BACK c)
    end
  else retM c.

Fixpoint parseline (fuel : nat) : M ptr (cmd str) :=
  match fuel with
  | O => block
  | S fuel' =>
      c <- parsepipe fuel (parseline fuel') ;;
      c <- back_loop fuel c ;;
      b <- peek [59] ;;
      if b then
        gettoken ;;
        r <- parseline fuel' ;;
        retM (LIST c r)
      else retM c
  end.

(** ** Terminating the strings *)

(** [*p = 0] in the buffer that holds a line of [len] characters. *)
Definition put_nul (len : nat) (p : ptr) (buf : list Z) : list Z := <[(len - length p)%nat := 0]> buf.

Fixpoint nulterminate (len : nat) (c : cmd str) (buf : list Z) : list Z :=
  match c with
  | EXEC argv => foldl (fun buf w => put_nul len w.2 buf) buf argv
  | REDIR c file _ _ => put_nul len file.2 (nulterminate len c buf)
  | PIPE l r => nulterminate len r (nulterminate len l buf)
  | LIST l r => nulterminate len r (nulterminate len l buf)
  | BACK c => nulterminate len c buf
  end.

(** The command and the buffer after nulterminate(). *)
Definition parsecmd (line : list Z) : outcome ptr (cmd str * list Z) :=
  (c <- parseline (S (length line)) ;;
   peek [] ;;
   s <- Prelude.gets id ;;
   if negb (length s =? 0)%nat then panic "syntax" else
   retM (c, nulterminate (length line) c (line ++ [0]))) line.

(** The C string at a pointer, in the buffer. *)
Definition string_at (len : nat) (buf : list Z) (p : ptr) : list Z := c_string (drop (len - length p) buf).

(** The command with its strings as a program sees them. *)
Fixpoint strings (len : nat) (buf : list Z) (c : cmd str) : cmd (list Z) :=
  match c with
  | EXEC argv => EXEC ((fun w => string_at len buf w.1) <$> argv)
  | REDIR c file mode fd => REDIR (strings len buf c) (string_at len buf file.1) mode fd
  | PIPE l r => PIPE (strings len buf l) (strings len buf r)
  | LIST l r => LIST (strings len buf l) (strings len buf r)
  | BACK c => BACK (strings len buf c)
  end.

(** ** Running commands

    The shell sees its open files as a table from descriptors to open files, in which a new
    descriptor is always the lowest free one.  A pipe is named by the place in the command that
    creates it. *)

Inductive openfile : Type :=
| Std (n : nat)
| File (path : list Z) (mode : Z)
| PipeRead (id : list bool)
| PipeWrite (id : list bool).

Definition fds : Type := list (option openfile).

Fixpoint lowest_free {A} (t : list (option A)) : option nat :=
  match t with
  | [] => None
  | None :: _ => Some 0%nat
  | Some _ :: t => S <$> lowest_free t
  end.

(** The lowest free descriptor for [f], or -1. *)
Definition install {A} (f : A) (t : list (option A)) : Z * list (option A) :=
  match lowest_free t with
  | Some fd => (Z.of_nat fd, <[fd := Some f]> t)
  | None => (-1, t)
  end.

Definition close {A} (fd : Z) (t : list (option A)) : list (option A) := <[Z.to_nat fd := None]> t.

Definition dup (fd : Z) (t : fds) : fds :=
  match t !! Z.to_nat fd with
  | Some (Some f) => (install f t).2
  | _ => t
  end.

(** Which calls the kernel refuses; fork() and pipe() by the place in the command. *)
Class Os := {
  os_open : list Z -> Z -> bool;
  os_fork : list bool -> nat -> bool;
  os_pipe : list bool -> bool
}.

(** What a process does: exit, call exec() with a table, and go on if that fails, print a message
    to descriptor 2, fork, or wait while it holds a table. *)
Inductive behaviour : Type :=
| Exit (status : Z)
| Exec (argv : list (list Z)) (t : fds) (failed : behaviour)
| Say (msg : list Z) (k : behaviour)
| Fork (child parent : behaviour)
| Wait (t : fds) (k : behaviour).

Section run.
Context {os : Os}.

Definition open (path : list Z) (mode : Z) (t : fds) : Z * fds :=
  if os_open path mode then install (File path mode) t else (-1, t).

Definition pipe (id : list bool) (t : fds) : option (Z * Z * fds) :=
  if os_pipe id then
    let '(p0, t1) := install (PipeRead id) t in
    let '(p1, t2) := install (PipeWrite id) t1 in
    if (p0 <? 0) || (p1 <? 0) then None else Some (p0, p1, t2)
  else None.

(** panic() of a process that runs a command. *)
Definition sh_panic (s : list Z) : behaviour := Say (s ++ [10]) (Exit 1).

(** What the child, which sees 0, and the parent do then. *)
Definition fork1 (id : list bool) (n : nat) (child parent : behaviour) : behaviour :=
  if os_fork id n then Fork child parent else sh_panic (chars "fork").

Fixpoint runcmd (id : list bool) (c : cmd (list Z)) (t : fds) : behaviour :=
  match c with
  | EXEC argv =>
      match argv with
      | [] => Exit 1
      | path :: _ => Exec argv t (Say (chars "exec " ++ path ++ chars " failed" ++ [10]) (Exit 0))
      end
  | REDIR c file mode fd =>
      let t := close fd t in
      let '(r, t) := open file mode t in
      if r <? 0 then Say (chars "open " ++ file ++ chars " failed" ++ [10]) (Exit 1) else runcmd id c t
  | LIST l r =>
      fork1 id 0 (runcmd (id ++ [false]) l t)
        (Wait t (runcmd (id ++ [true]) r t))
  | PIPE l r =>
      match pipe id t with
      | None => sh_panic (chars "pipe")
      | Some (p0, p1, t) =>
          fork1 id 0
            (let t := dup p1 (close 1 t) in
             runcmd (id ++ [false]) l (close p1 (close p0 t)))
            (fork1 id 1
              (let t := dup p0 (close 0 t) in
               runcmd (id ++ [true]) r (close p1 (close p0 t)))
              (let t := close p1 (close p0 t) in
               Wait t (Wait t (Exit 0))))
      end
  | BACK c => fork1 id 0 (runcmd (id ++ [false]) c t) (Exit 0)
  end.

End run.

(** ** The main loop *)

(** What main() does with a line. *)
Inductive action : Type :=
| Blank
| Cd (dir : list Z)
| Run (parsed : outcome ptr (cmd str * list Z)).

Fixpoint skip_blank (s : list Z) : list Z :=
  match s with
  | c :: s' => if (c =? 32) || (c =? 9) then skip_blank s' else s
  | [] => []
  end.

Definition line_action (buf : list Z) : action :=
  let cmd := skip_blank buf in
  if hd 0 cmd =? 10 then Blank
  else if (nth 0 cmd 0 =? 99) && (nth 1 cmd 0 =? 100) && (nth 2 cmd 0 =? 32)
  then Cd (drop 3 (take (length cmd - 1) cmd))
  else Run (parsecmd cmd).

(** The line getcmd() reads, of which [buf[0] == 0] is the end of the input. *)
Definition getcmd (input : list Z) : option (list Z) :=
  let buf := c_string (gets 100 input) in
  match buf with [] => None | _ => Some buf end.

(** main()'s loop; a line is read from what the ones before it have left. *)
Fixpoint main_loop (fuel : nat) (input : list Z) : list action :=
  match fuel with
  | O => []
  | S fuel =>
      match getcmd input with
      | None => []
      | Some buf => line_action buf :: main_loop fuel (drop (length (gets 100 input)) input)
      end
  end.

Definition main (input : list Z) : list action := main_loop (length input) input.

End Sh.
