(* ===== verification/ShProofs.v ===== *)
(** * The shell's parser decides its grammar

    The reference is a grammar over tokens.  A line is cut into tokens by [lex]; [gline],
    [gpipe] and [gexec] are the sentences, [line_toks] and the like give the tokens of a
    sentence and [line_cmd] and the like the command it stands for. *)

From S2P Require Import Prelude Machine CString Ulib Sh.

Module ShProofs.
Import CString Ulib Sh.

(** ** Tokens *)

(** A word, or a symbol by its code in gettoken(). *)
Inductive token : Type :=
| Word (w : list Z)
| Sym (c : Z).

Fixpoint lex_fuel (n : nat) (s : list Z) : list token :=
  match n with
  | O => []
  | S n =>
      match skip_space s with
      | [] => []
      | c :: t =>
          if has_char symbols c then
            if (c =? 62) && (hd 0 t =? 62) then Sym 43 :: lex_fuel n (tl t) else Sym c :: lex_fuel n t
          else
            let r := skip_word (c :: t) in
            Word (take (length (c :: t) - length r) (c :: t)) :: lex_fuel n r
      end
  end.

Definition lex (s : list Z) : list token := lex_fuel (length s) s.

(** ** The grammar *)

Inductive redirection : Type := In (f : list Z) | Out (f : list Z) | Append (f : list Z).

(** The parts of a simple command: arguments and redirections, in any order. *)
Inductive item : Type := Arg (w : list Z) | Redirect (r : redirection).

Inductive gline : Type :=
| Line (p : gpipe) (nback : nat)
| Seq (p : gpipe) (nback : nat) (l : gline)
with gpipe : Type :=
| Pipe1 (e : gexec)
| Pipe (e : gexec) (p : gpipe)
with gexec : Type :=
| Simple (its : list item)
| Block (l : gline) (rs : list redirection).

Definition redir_toks (r : redirection) : list token :=
  match r with In f => [Sym 60; Word f] | Out f => [Sym 62; Word f] | Append f => [Sym 43; Word f] end.

Definition item_toks (i : item) : list token := match i with Arg w => [Word w] | Redirect r => redir_toks r end.

Fixpoint line_toks (l : gline) : list token :=
  match l with
  | Line p n => pipe_toks p ++ replicate n (Sym 38)
  | Seq p n l => pipe_toks p ++ replicate n (Sym 38) ++ Sym 59 :: line_toks l
  end
with pipe_toks (p : gpipe) : list token :=
  match p with
  | Pipe1 e => exec_toks e
  | Pipe e p => exec_toks e ++ Sym 124 :: pipe_toks p
  end
with exec_toks (e : gexec) : list token :=
  match e with
  | Simple its => its ≫= item_toks
  | Block l rs => Sym 40 :: line_toks l ++ Sym 41 :: (rs ≫= redir_toks)
  end.

(** A later redirection is outside an earlier one, so that it is opened first. *)
Definition redir_cmd (c : cmd (list Z)) (r : redirection) : cmd (list Z) :=
  match r with
  | In f => REDIR c f 0x000 0
  | Out f => REDIR c f 0x601 1
  | Append f => REDIR c f 0x201 1
  end.

Definition item_cmd (c : cmd (list Z)) (i : item) : cmd (list Z) :=
  match i with Arg w => push_arg w c | Redirect r => redir_cmd c r end.

Fixpoint line_cmd (l : gline) : cmd (list Z) :=
  match l with
  | Line p n => Nat.iter n BACK (pipe_cmd p)
  | Seq p n l => LIST (Nat.iter n BACK (pipe_cmd p)) (line_cmd l)
  end
with pipe_cmd (p : gpipe) : cmd (list Z) :=
  match p with
  | Pipe1 e => exec_cmd e
  | Pipe e p => PIPE (exec_cmd e) (pipe_cmd p)
  end
with exec_cmd (e : gexec) : cmd (list Z) :=
  match e with
  | Simple its => foldl item_cmd (EXEC []) its
  | Block l rs => foldl redir_cmd (line_cmd l) rs
  end.

Fixpoint nargs (its : list item) : nat :=
  match its with
  | [] => 0
  | Arg _ :: its => S (nargs its)
  | Redirect _ :: its => nargs its
  end.

(** No simple command has more than nine arguments. *)
Fixpoint line_ok (l : gline) : Prop :=
  match l with
  | Line p n => pipe_ok p
  | Seq p n l => pipe_ok p /\ line_ok l
  end
with pipe_ok (p : gpipe) : Prop :=
  match p with
  | Pipe1 e => exec_ok e
  | Pipe e p => exec_ok e /\ pipe_ok p
  end
with exec_ok (e : gexec) : Prop :=
  match e with
  | Simple its => (nargs its < MAXARGS)%nat
  | Block l rs => line_ok l
  end.

(** ** The scanner *)

Lemma has_char_elem cs c : 0 ∉ cs -> has_char cs c = bool_decide (c ∈ cs).
Proof.
  unfold has_char. induction cs as [|a cs IH]; intros H0; cbn [strchr].
  - symmetry. apply bool_decide_eq_false, not_elem_of_nil.
  - apply not_elem_of_cons in H0 as [Ha H0]. rewrite (proj2 (Z.eqb_neq a 0)) by done. destruct (Z.eqb_spec a c) as [->|Hne].
    + symmetry. apply bool_decide_eq_true. by left.
    + specialize (IH H0). destruct (strchr cs c) as [[]|]; rewrite IH; apply bool_decide_ext; rewrite elem_of_cons; naive_solver.
Qed.

Definition word_char (c : Z) : bool := negb (has_char whitespace c) && negb (has_char symbols c).

(** The end of a word: the end of the line or a character that is not part of a word. *)
Definition word_end (s : list Z) : Prop := match s with [] => True | c :: _ => word_char c = false end.

Lemma skip_word_spec s : exists w, s = w ++ skip_word s /\ Forall (fun c => word_char c = true) w /\ word_end (skip_word s).
Proof.
  induction s as [|c s (w & E & Hw & He)]; cbn [skip_word]; [by exists []|]. fold (word_char c).
  destruct (word_char c) eqn:Hc; [|by exists []]. exists (c :: w). split_and!; [by rewrite E at 1|by constructor|done].
Qed.

Lemma skip_space_suffix s : skip_space s `suffix_of` s.
Proof. induction s as [|c s IH]; cbn; [done|]. destruct (has_char _ _); [by apply suffix_cons_r|done]. Qed.

Lemma skip_space_idem s : skip_space (skip_space s) = skip_space s.
Proof. induction s as [|c s IH]; cbn; [done|]. destruct (has_char whitespace c) eqn:E; [done|]. cbn. by rewrite E. Qed.

Lemma skip_space_head s c t : skip_space s = c :: t -> has_char whitespace c = false.
Proof. induction s as [|a s IH]; cbn; [done|]. destruct (has_char whitespace a) eqn:E; [done|]. by intros [= <- <-]. Qed.

Lemma skip_word_suffix s : skip_word s `suffix_of` s.
Proof. destruct (skip_word_spec s) as (w & E & _). rewrite E at 2. by exists w. Qed.

Lemma suffix_le {A} (s t : list A) : s `suffix_of` t -> (length s <= length t)%nat.
Proof. apply suffix_length. Qed.

Lemma skip_word_lt c t : has_char whitespace c = false -> has_char symbols c = false -> (length (skip_word (c :: t)) <= length t)%nat.
Proof. intros H1 H2. cbn [skip_word]. rewrite H1, H2. apply suffix_le, skip_word_suffix. Qed.

Lemma lex_fuel_more n m s : (length s <= n)%nat -> (length s <= m)%nat -> lex_fuel n s = lex_fuel m s.
Proof.
  revert m s. induction n as [|n IH]; intros m s Hn Hm.
  - destruct s; [|cbn in Hn; lia]. by destruct m.
  - destruct m as [|m]; [destruct s; [done|cbn in Hm; lia]|]. cbn [lex_fuel].
    pose proof (suffix_le _ _ (skip_space_suffix s)) as Hs. destruct (skip_space s) as [|c t] eqn:E; [done|]. cbn [length] in Hs.
    destruct (has_char symbols c) eqn:Hc.
    + destruct ((c =? 62) && (hd 0 t =? 62)); f_equal; apply IH; destruct t; cbn in *; lia.
    + cbv zeta. f_equal. pose proof (skip_word_lt c t (skip_space_head _ _ _ E) Hc). apply IH; lia.
Qed.

Lemma lex_step s : lex s =
  match skip_space s with
  | [] => []
  | c :: t =>
      if has_char symbols c then
        if (c =? 62) && (hd 0 t =? 62) then Sym 43 :: lex (tl t) else Sym c :: lex t
      else Word (take (length (c :: t) - length (skip_word (c :: t))) (c :: t)) :: lex (skip_word (c :: t))
  end.
Proof.
  unfold lex. rewrite (lex_fuel_more _ (S (length s)) s) by lia. cbn [lex_fuel].
  pose proof (suffix_le _ _ (skip_space_suffix s)) as Hs. destruct (skip_space s) as [|c t] eqn:E; [done|]. cbn [length] in Hs.
  destruct (has_char symbols c) eqn:Hc.
  - destruct ((c =? 62) && (hd 0 t =? 62)); f_equal; apply lex_fuel_more; destruct t; cbn in *; lia.
  - cbv zeta. f_equal. pose proof (skip_word_lt c t (skip_space_head _ _ _ E) Hc). apply lex_fuel_more; lia.
Qed.

Lemma lex_skip s : lex (skip_space s) = lex s.
Proof. by rewrite (lex_step (skip_space s)), skip_space_idem, (lex_step s). Qed.

(** The characters of a string given by its ends. *)
Definition slice (w : str) : list Z := take (length w.1 - length w.2) w.1.

(** A word of the line, with its ends. *)
Definition word_of (line : list Z) (w : str) : Prop :=
  exists x, w.1 = x ++ w.2 /\ x <> [] /\ Forall (fun c => word_char c = true) x /\ word_end w.2 /\ w.1 `suffix_of` line.

Lemma word_slice x e : slice (x ++ e, e) = x.
Proof. unfold slice. cbn [fst snd]. rewrite length_app, Nat.add_sub. by rewrite take_app_length. Qed.

(** The symbols as [scan] tests them. *)
Definition scan_symbol (c : Z) : bool := (c =? 124) || (c =? 40) || (c =? 41) || (c =? 59) || (c =? 38) || (c =? 60).

Lemma symbol_cases c : has_char symbols c = scan_symbol c || (c =? 62).
Proof.
  rewrite has_char_elem by (unfold symbols; rewrite !elem_of_cons, elem_of_nil; lia). unfold scan_symbol, symbols.
  apply eq_true_iff_eq. rewrite bool_decide_eq_true, !orb_true_iff, !Z.eqb_eq, !elem_of_cons, elem_of_nil. tauto.
Qed.

(** gettoken() takes the first token off the line. *)
Lemma gettoken_lex line s :
  0 ∉ line -> s `suffix_of` line ->
  exists ret w s', gettoken s = Ok (ret, w) s' /\ s' `suffix_of` s /\
    match lex s with
    | [] => ret = 0 /\ lex s' = []
    | Word x :: ts => ret = 97 /\ word_of line w /\ slice w = x /\ lex s' = ts /\ (length s' < length s)%nat
    | Sym c :: ts => ret = c /\ c <> 0 /\ c <> 97 /\ lex s' = ts /\ (length s' < length s)%nat
    end.
Proof.
  intros H0 Hs. unfold gettoken. rewrite lex_step. pose proof (skip_space_suffix s) as Hq.
  destruct (skip_space s) as [|c t] eqn:E.
  { eexists _, _, _. split; [reflexivity|]. split; [apply suffix_nil|done]. }
  assert (Hsl : (c :: t) `suffix_of` line) by (by etrans).
  assert (Hc0 : c <> 0) by (intros ->; apply H0; destruct Hsl as [k ->]; set_solver).
  pose proof (suffix_le _ _ Hq) as Hlen. cbn [length] in Hlen. pose proof (skip_space_head _ _ _ E) as Hws.
  assert (Htail : forall r, r `suffix_of` t -> skip_space r `suffix_of` s /\ lex (skip_space r) = lex r /\ (length (skip_space r) < length s)%nat).
  { intros r Hr. pose proof (suffix_le _ _ Hr). pose proof (suffix_le _ _ (skip_space_suffix r)). split_and!; [|apply lex_skip|lia].
    etrans; [apply skip_space_suffix|]. etrans; [exact Hr|]. etrans; [|exact Hq]. by apply suffix_cons_r. }
  cbn [scan]. rewrite (proj2 (Z.eqb_neq c 0)) by done. fold (scan_symbol c). rewrite symbol_cases.
  assert (Hsym : scan_symbol c = true -> c <> 97 /\ c <> 62) by (unfold scan_symbol; rewrite !orb_true_iff, !Z.eqb_eq; lia).
  destruct (scan_symbol c) eqn:Hsc; cbn [orb].
  - destruct (Hsym eq_refl). rewrite (proj2 (Z.eqb_neq c 62)) by done. cbn [andb].
    destruct (Htail t (reflexivity _)) as (T1 & T2 & T3). eexists _, _, _. split; [reflexivity|]. by split_and!.
  - destruct (Z.eqb_spec c 62) as [->|Hne]; cbn [andb].
    + destruct t as [|d t']; cbn [hd tl].
      * eexists _, _, _. split; [reflexivity|]. split; [apply suffix_nil|]. cbn in *. split_and!; done.
      * destruct (d =? 62).
        -- destruct (Htail t') as (T1 & T2 & T3); [by apply suffix_cons_r|]. eexists _, _, _. split; [reflexivity|]. by split_and!.
        -- destruct (Htail (d :: t') (reflexivity _)) as (T1 & T2 & T3). eexists _, _, _. split; [reflexivity|]. by split_and!.
    + assert (Hk : has_char symbols c = false) by (rewrite symbol_cases, Hsc; by rewrite (proj2 (Z.eqb_neq c 62))).
      destruct (skip_word_spec (c :: t)) as (x & Ex & Hx & He). pose proof (skip_word_lt c t Hws Hk) as Hlt.
      destruct (Htail (skip_word (c :: t))) as (T1 & T2 & T3).
      { cbn [skip_word]. rewrite Hws, Hk. apply skip_word_suffix. }
      eexists _, (c :: t, skip_word (c :: t)), _. split; [reflexivity|]. split_and!; try done.
      exists x. split_and!; try done. intros ->. cbn [app] in Ex. rewrite <- Ex in Hlt. cbn in Hlt. lia.
Qed.

(** Whether the first token is one of these symbols; [>>] starts with [>]. *)
Definition starts (toks : list Z) (ts : list token) : bool :=
  match ts with Sym c :: _ => has_char toks (if c =? 43 then 62 else c) | _ => false end.

Lemma peek_lex line s toks :
  0 ∉ line -> s `suffix_of` line -> forallb (has_char symbols) toks = true ->
  exists s', peek toks s = Ok (starts toks (lex s)) s' /\ s' `suffix_of` s /\ lex s' = lex s.
Proof.
  intros H0 Hs Ht. assert (Hsub : forall c, has_char toks c = true -> has_char symbols c = true).
  { rewrite forallb_forall in Ht. intros c. rewrite has_char_elem.
    - rewrite bool_decide_eq_true. intros Hc. by apply Ht, list_elem_of_In.
    - intros Hc%list_elem_of_In%Ht. done. }
  unfold peek. exists (skip_space s). split; [|split; [apply skip_space_suffix|apply lex_skip]].
  rewrite (lex_step s). pose proof (skip_space_suffix s) as Hq. destruct (skip_space s) as [|c t] eqn:E; [done|]. cbn [hd].
  assert (Hc0 : c <> 0) by (intros ->; apply H0; destruct Hs as [k1 ->], Hq as [k2 ->]; set_solver).
  rewrite (proj2 (Z.eqb_neq c 0)) by done. cbn [negb andb]. f_equal.
  destruct (has_char symbols c) eqn:Hk; [|destruct (has_char toks c) eqn:Hc; [apply Hsub in Hc; congruence|done]].
  destruct (Z.eqb_spec c 62) as [->|Hne]; [destruct (hd 0 t =? 62); done|]. cbn [andb starts].
  by destruct (Z.eqb_spec c 43) as [->|].
Qed.

(** ** Parsed commands *)

(** The strings of a command, and the command with the characters of its strings. *)
Fixpoint words (c : cmd str) : list str :=
  match c with
  | EXEC argv => argv
  | REDIR c file _ _ => words c ++ [file]
  | PIPE l r | LIST l r => words l ++ words r
  | BACK c => words c
  end.

Fixpoint cmd_map {A B} (f : A -> B) (c : cmd A) : cmd B :=
  match c with
  | EXEC argv => EXEC (f <$> argv)
  | REDIR c file mode fd => REDIR (cmd_map f c) (f file) mode fd
  | PIPE l r => PIPE (cmd_map f l) (cmd_map f r)
  | LIST l r => LIST (cmd_map f l) (cmd_map f r)
  | BACK c => BACK (cmd_map f c)
  end.

Definition text : cmd str -> cmd (list Z) := cmd_map slice.

Lemma text_push w c : text (push_arg w c) = push_arg (slice w) (text c).
Proof.
  unfold text. induction c as [argv|c IH file mode fd|? ? ? ?|? ? ? ?|]; cbn [push_arg cmd_map]; try done.
  - by rewrite fmap_app.
  - by rewrite IH.
Qed.

Lemma words_push P w c : Forall P (words c) -> P w -> Forall P (words (push_arg w c)).
Proof.
  intros Hc Hw. induction c as [argv|c IH file mode fd|? ? ? ?|? ? ? ?|]; cbn [push_arg words] in *; try done.
  - apply Forall_app. by split; [|constructor].
  - apply Forall_app in Hc as [H1 H2]. apply Forall_app. by split; [apply IH|].
Qed.

(** The code of a redirection. *)
Definition redir_of (tok : Z) (f : list Z) : redirection := if tok =? 60 then In f else if tok =? 62 then Out f else Append f.

Definition redir_code (tok : Z) : Prop := tok = 60 \/ tok = 62 \/ tok = 43.

Lemma redir_of_toks tok f : redir_code tok -> redir_toks (redir_of tok f) = [Sym tok; Word f].
Proof. by intros [->|[->| ->]]. Qed.

Lemma redir_of_cmd tok w c : redir_code tok -> text (redir tok w c) = redir_cmd (text c) (redir_of tok (slice w)).
Proof. by intros [->|[->| ->]]. Qed.

Lemma redir_words tok w c : redir_code tok -> words (redir tok w c) = words c ++ [w].
Proof. by intros [->|[->| ->]]. Qed.

Lemma starts_redir ts : starts [60; 62] ts = true -> exists c ts', ts = Sym c :: ts' /\ redir_code c.
Proof.
  destruct ts as [|[|c] ts]; try done. cbn [starts]. rewrite has_char_elem by (rewrite !elem_of_cons, elem_of_nil; lia).
  rewrite bool_decide_eq_true, !elem_of_cons, elem_of_nil. intros H. exists c, ts. split; [done|]. unfold redir_code.
  destruct (Z.eqb_spec c 43); [auto|]. lia.
Qed.

Lemma redirs_items rs : ((Redirect <$> rs) ≫= item_toks) = rs ≫= redir_toks.
Proof. induction rs as [|r rs IH]; [done|]. cbn. by rewrite <- IH. Qed.

Lemma foldl_redirs c rs : foldl item_cmd c (Redirect <$> rs) = foldl redir_cmd c rs.
Proof. revert c. induction rs as [|r rs IH]; intros c; [done|]. cbn. apply IH. Qed.

Lemma nargs_redirs rs its : nargs ((Redirect <$> rs) ++ its) = nargs its.
Proof. induction rs; done. Qed.

Section parser.
Context (line : list Z) (Hnul : 0 ∉ line).

(** A suffix by way of the suffixes of the context. *)
Ltac suff := solve [repeat first [eassumption | etrans; [eassumption|]]].

(** A call of peek() at the head of the goal. *)
Ltac do_peek s1 L1 S1 :=
  lazymatch goal with
  | |- context [bindM (peek ?toks) _ ?s] =>
      let E := fresh in
      destruct (peek_lex line s toks Hnul) as (s1 & E & S1 & L1); [suff|reflexivity|];
      rewrite !(bind_ok _ _ _ _ _ E); clear E
  end.

Lemma parseredirs_spec fuel c s :
  s `suffix_of` line -> (length s <= fuel)%nat -> Forall (word_of line) (words c) ->
  match parseredirs fuel c s with
  | Ok c' s' => s' `suffix_of` s /\ Forall (word_of line) (words c') /\ starts [60; 62] (lex s') = false /\
      exists rs, lex s = (rs ≫= redir_toks) ++ lex s' /\ text c' = foldl redir_cmd (text c) rs
  | Panic _ => True
  | Blocked _ => False
  end.
Proof.
  revert c s. induction fuel as [|fuel IH]; intros c s Hs Hlen Hc.
  - destruct s; [|cbn in Hlen; lia]. cbn. split_and!; try done. by exists [].
  - cbn [parseredirs]. do_peek s1 L1 S1. destruct (starts [60; 62] (lex s)) eqn:Hst.
    + apply starts_redir in Hst as (tok & ts & Hts & Hcode).
      destruct (gettoken_lex line s1 Hnul) as (ret & w1 & s2 & E2 & S2 & G2); [suff|]. rewrite (bind_ok _ _ _ _ _ E2).
      rewrite L1, Hts in G2. destruct G2 as (-> & _ & _ & L2 & Hlt).
      destruct (gettoken_lex line s2 Hnul) as (ret & w & s3 & E3 & S3 & G3); [suff|]. rewrite (bind_ok _ _ _ _ _ E3).
      destruct (Z.eqb_spec ret 97) as [->|Hne]; [|done]. cbn [negb]. rewrite L2 in G3.
      destruct ts as [|[f|c'] ts']; [by destruct G3 as [? _]| |by destruct G3 as (? & _ & ? & _)].
      destruct G3 as (_ & Hw & Hf & L3 & Hlt3). pose proof (suffix_le _ _ S1).
      specialize (IH (redir tok w c) s3). destruct (parseredirs fuel (redir tok w c) s3) as [c' s'| |].
      * destruct IH as (S4 & W4 & N4 & rs & T4 & E4); [suff|lia| |].
        { rewrite redir_words by done. apply Forall_app. by split; [|constructor]. }
        split_and!; [suff|done|done|]. exists (redir_of tok f :: rs). cbn [mbind list_bind foldl].
        split; [rewrite Hts, redir_of_toks by done; cbn [app]; by rewrite <- T4, L3|]. by rewrite E4, redir_of_cmd, Hf by done.
      * done.
      * apply IH; [suff|lia|]. rewrite redir_words by done. apply Forall_app. by split; [|constructor].
    + split_and!; [done|done|by rewrite L1|]. exists []. by rewrite L1.
Qed.

Lemma parseredirs_accepts fuel c s rs ts :
  s `suffix_of` line -> (length s <= fuel)%nat -> lex s = (rs ≫= redir_toks) ++ ts -> starts [60; 62] ts = false ->
  exists c' s', parseredirs fuel c s = Ok c' s' /\ s' `suffix_of` s /\ lex s' = ts /\ text c' = foldl redir_cmd (text c) rs.
Proof.
  revert c s rs. induction fuel as [|fuel IH]; intros c s rs Hs Hlen Hl Hts.
  - destruct s; [|cbn in Hlen; lia]. cbn in Hl. symmetry in Hl. apply app_eq_nil in Hl as [Hr ->].
    destruct rs as [|[]]; try done. by exists c, [].
  - cbn [parseredirs]. do_peek s1 L1 S1. destruct rs as [|r rs].
    + cbn in Hl. rewrite Hl, Hts. exists c, s1. by rewrite L1.
    + cbn [mbind list_bind] in Hl.
      assert (exists tok f, redir_toks r = [Sym tok; Word f] /\ redir_code tok /\ redir_of tok f = r) as (tok & f & Hr & Hcode & Er).
      { unfold redir_code. destruct r as [f|f|f]; [exists 60, f|exists 62, f|exists 43, f]; by auto. }
      rewrite Hr in Hl. cbn [app] in Hl. rewrite Hl. replace (starts [60; 62] _) with true by (by destruct Hcode as [->|[->| ->]]).
      destruct (gettoken_lex line s1 Hnul) as (ret & w1 & s2 & E2 & S2 & G2); [suff|]. rewrite (bind_ok _ _ _ _ _ E2).
      rewrite L1, Hl in G2. destruct G2 as (-> & _ & _ & L2 & Hlt).
      destruct (gettoken_lex line s2 Hnul) as (ret & w & s3 & E3 & S3 & G3); [suff|]. rewrite (bind_ok _ _ _ _ _ E3).
      rewrite L2 in G3. destruct G3 as (-> & Hw & Hf & L3 & Hlt3). cbn [negb]. change (97 =? 97) with true. cbn [negb].
      pose proof (suffix_le _ _ S1). destruct (IH (redir tok w c) s3 rs) as (c' & s' & E & S4 & L4 & T4); [suff|lia|done|done|].
      exists c', s'. split_and!; [exact E|suff|done|]. rewrite T4, redir_of_cmd, Hf, Er by done. done.
Qed.

(** What may follow a part of a command. *)
Definition follow (toks : list Z) (ts : list token) : Prop := ts = [] \/ starts toks ts = true.

Lemma parseexec_loop_spec fuel argc ret s :
  s `suffix_of` line -> (length s < fuel)%nat -> Forall (word_of line) (words ret) -> (argc < MAXARGS)%nat ->
  match parseexec_loop fuel argc ret s with
  | Ok c' s' => s' `suffix_of` s /\ Forall (word_of line) (words c') /\
      exists its, lex s = (its ≫= item_toks) ++ lex s' /\ text c' = foldl item_cmd (text ret) its /\ (argc + nargs its < MAXARGS)%nat
  | Panic _ => True
  | Blocked _ => False
  end.
Proof.
  revert argc ret s. induction fuel as [|fuel IH]; intros argc ret s Hs Hlen Hc Ha; [lia|].
  cbn [parseexec_loop]. do_peek s1 L1 S1. destruct (starts _ (lex s)) eqn:Hst.
  { split_and!; [done|done|]. exists []. rewrite L1. split_and!; [done|done|cbn; lia]. }
  destruct (gettoken_lex line s1 Hnul) as (tok & w & s2 & E2 & S2 & G2); [suff|]. rewrite (bind_ok _ _ _ _ _ E2). rewrite L1 in G2.
  destruct (lex s) as [|[x|c] ts] eqn:Hl.
  - destruct G2 as [-> L2]. cbn. split_and!; [suff|done|]. exists []. rewrite L2. split_and!; [done|done|cbn; lia].
  - destruct G2 as (-> & Hw & Hx & L2 & Hlt). change (97 =? 0) with false. change (negb (97 =? 97)) with false. cbv iota zeta.
    destruct (Nat.leb_spec MAXARGS (argc + 1)) as [|Hmax]; [done|]. pose proof (suffix_le _ _ S1).
    pose proof (parseredirs_spec fuel (push_arg w ret) s2 ltac:(suff) ltac:(lia) (words_push _ _ _ Hc Hw)) as R.
    unfold bindM at 1. destruct (parseredirs fuel (push_arg w ret) s2) as [c3 s3| |]; [|done|done].
    destruct R as (S3 & W3 & N3 & rs & L3 & T3). pose proof (suffix_le _ _ S3).
    specialize (IH (argc + 1)%nat c3 s3 ltac:(suff) ltac:(lia) W3 Hmax).
    destruct (parseexec_loop fuel (argc + 1) c3 s3) as [c' s'| |]; [|done|done]. destruct IH as (S4 & W4 & its & L4 & T4 & N4).
    split_and!; [suff|done|]. exists (Arg x :: (Redirect <$> rs) ++ its). split_and!.
    + cbn [mbind list_bind item_toks app]. rewrite bind_app, <- app_assoc, <- L4, redirs_items. f_equal. by rewrite <- L2.
    + cbn [foldl item_cmd]. by rewrite foldl_app, foldl_redirs, T4, T3, text_push, Hx.
    + cbn [nargs]. rewrite nargs_redirs. lia.
  - destruct G2 as (-> & Hc0 & Hc97 & _). rewrite (proj2 (Z.eqb_neq c 0)), (proj2 (Z.eqb_neq c 97)) by done. done.
Qed.

(** The leading redirections of a simple command. *)
Lemma items_split its : exists rs rest, its = (Redirect <$> rs) ++ rest /\ (rest = [] \/ exists w rest', rest = Arg w :: rest').
Proof.
  induction its as [|[w|r] its (rs & rest & E & H)]; [by exists [], []; auto|exists [], (Arg w :: its); eauto|].
  exists (r :: rs), rest. by rewrite E.
Qed.

Lemma follow_no_redir toks ts : follow toks ts -> forallb (fun c => negb (has_char [60; 62] c)) toks = true -> 0 ∉ toks -> starts [60; 62] ts = false.
Proof.
  intros [->|Hst] Ht H0; [done|]. destruct ts as [|[|c] ts]; try done. cbn [starts] in *. rewrite has_char_elem in Hst by done.
  apply bool_decide_eq_true in Hst. rewrite forallb_forall in Ht. apply negb_true_iff, Ht. by apply list_elem_of_In.
Qed.

Lemma parseexec_loop_accepts fuel argc ret s its ts :
  s `suffix_of` line -> (length s < fuel)%nat -> lex s = (its ≫= item_toks) ++ ts -> follow [124; 41; 38; 59] ts ->
  (its = [] \/ exists w its', its = Arg w :: its') -> (argc + nargs its < MAXARGS)%nat ->
  exists c' s', parseexec_loop fuel argc ret s = Ok c' s' /\ s' `suffix_of` s /\ lex s' = ts /\ text c' = foldl item_cmd (text ret) its.
Proof.
  revert argc ret s its. induction fuel as [|fuel IH]; intros argc ret s its Hs Hlen Hl Hf Hits Ha; [lia|].
  cbn [parseexec_loop]. do_peek s1 L1 S1.
  destruct (gettoken_lex line s1 Hnul) as (tok & w & s2 & E2 & S2 & G2); [suff|]. rewrite L1 in G2.
  destruct Hits as [->|(x & its' & ->)].
  - cbn in Hl. rewrite Hl in *. destruct Hf as [->|Hst]; [|rewrite Hst; by exists ret, s1].
    cbn [starts]. rewrite (bind_ok _ _ _ _ _ E2). destruct G2 as [-> L2]. exists ret, s2. split_and!; [done|suff|done|done].
  - cbn [mbind list_bind item_toks app nargs] in *. rewrite Hl in *. cbn [starts]. rewrite (bind_ok _ _ _ _ _ E2).
    destruct G2 as (-> & Hw & Hx & L2 & Hlt). change (97 =? 0) with false. change (negb (97 =? 97)) with false. cbv iota zeta.
    destruct (Nat.leb_spec MAXARGS (argc + 1)) as [|Hmax]; [lia|]. pose proof (suffix_le _ _ S1).
    destruct (items_split its') as (rs & rest & -> & Hrest). rewrite nargs_redirs in Ha.
    rewrite bind_app, redirs_items, <- app_assoc in L2.
    destruct (parseredirs_accepts fuel (push_arg w ret) s2 rs ((rest ≫= item_toks) ++ ts)) as (c3 & s3 & E3 & S3 & L3 & T3); [suff|lia|done| |].
    { destruct Hrest as [->|(w' & rest' & ->)]; [|done]. apply (follow_no_redir _ _ Hf); [done|rewrite !elem_of_cons, elem_of_nil; lia]. }
    rewrite (bind_ok _ _ _ _ _ E3). pose proof (suffix_le _ _ S3).
    destruct (IH (argc + 1)%nat c3 s3 rest) as (c' & s' & E4 & S4 & L4 & T4); [suff|lia|done|done|done|lia|].
    exists c', s'. split_and!; [done|suff|done|]. cbn [foldl item_cmd]. by rewrite T4, T3, text_push, Hx, foldl_app, foldl_redirs.
Qed.

(** ** The mutually recursive part

    [pl] stands for the call of parseline(), on lines shorter than [n]. *)

(** What a successful parse says. *)
Definition sound {G} (ok : G -> Prop) (toks : G -> list token) (den : G -> cmd (list Z)) (P : M ptr (cmd str)) (n : nat) : Prop :=
  forall s, s `suffix_of` line -> (length s < n)%nat ->
  match P s with
  | Ok c s' => s' `suffix_of` s /\ Forall (word_of line) (words c) /\
      exists g, ok g /\ lex s = toks g ++ lex s' /\ text c = den g
  | Panic _ => True
  | Blocked _ => False
  end.

(** The sentences that are parsed. *)
Definition complete {G} (ok : G -> Prop) (toks : G -> list token) (den : G -> cmd (list Z)) (fol : list Z)
    (P : M ptr (cmd str)) (n : nat) : Prop :=
  forall s g ts, s `suffix_of` line -> (length s < n)%nat -> ok g -> lex s = toks g ++ ts -> follow fol ts ->
  exists c s', P s = Ok c s' /\ s' `suffix_of` s /\ lex s' = ts /\ text c = den g.

Definition line_sound := sound line_ok line_toks line_cmd.
Definition pipe_sound := sound pipe_ok pipe_toks pipe_cmd.
Definition exec_sound := sound exec_ok exec_toks exec_cmd.
Definition line_complete := complete line_ok line_toks line_cmd [41].
Definition pipe_complete := complete pipe_ok pipe_toks pipe_cmd [41; 38; 59].
Definition exec_complete := complete exec_ok exec_toks exec_cmd [124; 41; 38; 59].

Lemma sound_mono {G} ok toks den P m n : (m <= n)%nat -> @sound G ok toks den P n -> @sound G ok toks den P m.
Proof. intros Hm HS s Hs Hl. apply HS; [done|lia]. Qed.

Lemma complete_mono {G} ok toks den fol P m n : (m <= n)%nat -> @complete G ok toks den fol P n -> @complete G ok toks den fol P m.
Proof. intros Hm HS s g ts Hs Hl. apply HS; [done|lia]. Qed.

Lemma starts_elem toks c ts : 0 ∉ toks -> starts toks (Sym c :: ts) = true <-> (if c =? 43 then 62 else c) ∈ toks.
Proof. intros H0. cbn [starts]. by rewrite has_char_elem, bool_decide_eq_true by done. Qed.

(** Follow sets: a larger one, and the symbols outside one. *)
Lemma follow_sub A B ts :
  follow A ts -> bool_decide (0 ∉ A) = true -> bool_decide (A ⊆ B) && bool_decide (0 ∉ B) = true -> follow B ts.
Proof.
  intros [->|Hst] HA [HAB HB]%andb_true_iff; [by left|]. right. apply bool_decide_eq_true in HA, HB, HAB.
  destruct ts as [|[|c] ts]; try done. apply starts_elem in Hst; [|done]. apply starts_elem; [done|]. by apply HAB.
Qed.

Lemma follow_not A ts c : follow A ts -> bool_decide (0 ∉ A) && bool_decide (c ∉ A) && negb (c =? 0) = true -> starts [c] ts = false.
Proof.
  intros HF [[H0 HcA]%andb_true_iff Hc]%andb_true_iff. apply bool_decide_eq_true in H0, HcA. apply negb_true_iff, Z.eqb_neq in Hc.
  destruct HF as [->|Hst]; [done|]. destruct ts as [|[|d] ts]; try done. apply starts_elem in Hst; [|done].
  apply not_true_iff_false. rewrite starts_elem, list_elem_of_singleton by (rewrite list_elem_of_singleton; lia).
  intros E. by rewrite E in Hst.
Qed.

Lemma starts_sym c ts : c <> 0 -> c <> 43 -> c <> 62 -> starts [c] ts = true -> exists ts', ts = Sym c :: ts'.
Proof.
  intros H0 H1 H2. destruct ts as [|[|d] ts]; try done. cbn [starts]. rewrite has_char_elem by (rewrite list_elem_of_singleton; lia).
  rewrite bool_decide_eq_true, list_elem_of_singleton. destruct (Z.eqb_spec d 43); [lia|]. intros ->. eauto.
Qed.

Lemma parseexec_sound fuel pl n :
  line_sound pl n -> (n < fuel)%nat -> exec_sound (parseexec fuel pl) (S n).
Proof.
  intros Hpl Hn s Hs Hlen. unfold parseexec. do_peek s1 L1 S1. pose proof (suffix_le _ _ S1).
  destruct (starts [40] (lex s)) eqn:Hst.
  - unfold parseblock. do_peek s2 L2 S2. pose proof (suffix_le _ _ S2). rewrite L1, Hst. cbn [negb].
    apply starts_sym in Hst as [ts Hts]; try done.
    destruct (gettoken_lex line s2 Hnul) as (tok & w & s3 & E3 & S3 & G3); [suff|]. rewrite (bind_ok _ _ _ _ _ E3).
    rewrite L2, L1, Hts in G3. destruct G3 as (-> & _ & _ & L3 & Hlt3).
    specialize (Hpl s3 ltac:(suff) ltac:(lia)). unfold bindM at 1. destruct (pl s3) as [c s4| |]; [|done|done].
    destruct Hpl as (S4 & W4 & l & Hl & L4 & T4). pose proof (suffix_le _ _ S4). do_peek s5 L5 S5.
    destruct (starts [41] (lex s4)) eqn:Hst; [|done]. cbn [negb]. apply starts_sym in Hst as [ts' Hts']; try done.
    destruct (gettoken_lex line s5 Hnul) as (tok & w' & s6 & E6 & S6 & G6); [suff|]. rewrite (bind_ok _ _ _ _ _ E6).
    rewrite L5, Hts' in G6. destruct G6 as (-> & _ & _ & L6 & Hlt6). pose proof (suffix_le _ _ S5).
    pose proof (parseredirs_spec fuel c s6 ltac:(suff) ltac:(lia) W4) as R.
    destruct (parseredirs fuel c s6) as [c' s'| |]; [|done|done]. destruct R as (S7 & W7 & _ & rs & L7 & T7).
    split_and!; [suff|done|]. exists (Block l rs). split_and!; [done| |by rewrite T7, T4].
    rewrite Hts, <- L3, L4, Hts', <- L6, L7. cbn [exec_toks app]. by rewrite <- !app_assoc.
  - pose proof (parseredirs_spec fuel (EXEC []) s1 ltac:(suff) ltac:(lia) (Forall_nil_2 _)) as R.
    unfold bindM at 1. destruct (parseredirs fuel (EXEC []) s1) as [c s2| |]; [|done|done].
    destruct R as (S2 & W2 & _ & rs & L2 & T2). pose proof (suffix_le _ _ S2).
    pose proof (parseexec_loop_spec fuel 0 c s2 ltac:(suff) ltac:(lia) W2 ltac:(unfold MAXARGS; lia)) as R.
    destruct (parseexec_loop fuel 0 c s2) as [c' s'| |]; [|done|done]. destruct R as (S3 & W3 & its & L3 & T3 & N3).
    split_and!; [suff|done|]. exists (Simple ((Redirect <$> rs) ++ its)). split_and!.
    + cbn. by rewrite nargs_redirs.
    + cbn [exec_toks]. by rewrite bind_app, redirs_items, <- app_assoc, <- L3, <- L2, L1.
    + cbn [exec_cmd]. by rewrite foldl_app, foldl_redirs, T3, T2.
Qed.

Lemma parseexec_complete fuel pl n :
  line_complete pl n -> (n < fuel)%nat -> exec_complete (parseexec fuel pl) (S n).
Proof.
  intros Hpl Hn s e ts Hs Hlen Hok Hl Hf. unfold parseexec. do_peek s1 L1 S1. pose proof (suffix_le _ _ S1).
  assert (Hnr : starts [60; 62] ts = false) by (apply (follow_no_redir _ _ Hf); [done|rewrite !elem_of_cons, elem_of_nil; lia]).
  destruct e as [its|l rs]; cbn [exec_toks exec_ok exec_cmd] in *.
  - destruct (items_split its) as (rs & rest & -> & Hrest). rewrite nargs_redirs in Hok.
    rewrite bind_app, redirs_items, <- app_assoc in Hl.
    assert (Hno : starts [40] (lex s) = false).
    { rewrite Hl. destruct rs as [|[]]; try done. destruct Hrest as [->|(w & rest' & ->)]; [|done]. cbn.
      destruct Hf as [->|Hst]; [done|]. destruct ts as [|[|c] ts]; try done. cbn [starts] in *.
      rewrite has_char_elem in Hst by (rewrite !elem_of_cons, elem_of_nil; lia). apply bool_decide_eq_true in Hst.
      rewrite has_char_elem by (rewrite list_elem_of_singleton; lia). apply bool_decide_eq_false.
      rewrite !elem_of_cons, elem_of_nil in *. lia. }
    rewrite Hno.
    destruct (parseredirs_accepts fuel (EXEC []) s1 rs ((rest ≫= item_toks) ++ ts)) as (c2 & s2 & E2 & S2 & L2 & T2); [suff|lia|by rewrite L1| |].
    { destruct Hrest as [->|(w' & rest' & ->)]; done. }
    rewrite (bind_ok _ _ _ _ _ E2). pose proof (suffix_le _ _ S2).
    destruct (parseexec_loop_accepts fuel 0 c2 s2 rest ts) as (c' & s' & E3 & S3 & L3 & T3); [suff|lia|done|done|done|lia|].
    exists c', s'. split_and!; [done|suff|done|]. by rewrite T3, T2, foldl_app, foldl_redirs.
  - rewrite Hl. change (starts [40] _) with true. unfold parseblock. do_peek s2 L2 S2. rewrite L1, Hl. change (starts [40] _) with true. cbn [negb].
    pose proof (suffix_le _ _ S2).
    destruct (gettoken_lex line s2 Hnul) as (tok & w & s3 & E3 & S3 & G3); [suff|]. rewrite (bind_ok _ _ _ _ _ E3).
    rewrite L2, L1, Hl in G3. destruct G3 as (_ & _ & _ & L3 & Hlt3). rewrite <- app_assoc in L3. cbn [app] in L3.
    destruct (Hpl s3 l (Sym 41 :: (rs ≫= redir_toks) ++ ts)) as (c & s4 & E4 & S4 & L4 & T4); [suff|lia|done|done|by right|].
    rewrite (bind_ok _ _ _ _ _ E4). pose proof (suffix_le _ _ S4). do_peek s5 L5 S5. rewrite L4. change (starts [41] _) with true. cbn [negb].
    destruct (gettoken_lex line s5 Hnul) as (tok' & w' & s6 & E6 & S6 & G6); [suff|]. rewrite (bind_ok _ _ _ _ _ E6).
    rewrite L5, L4 in G6. destruct G6 as (_ & _ & _ & L6 & Hlt6). pose proof (suffix_le _ _ S5).
    destruct (parseredirs_accepts fuel c s6 rs ts) as (c' & s' & E7 & S7 & L7 & T7); [suff|lia|done|done|].
    exists c', s'. split_and!; [done|suff|done|]. by rewrite T7, T4.
Qed.

Lemma parsepipe_sound fuel pl n :
  line_sound pl n -> (n < fuel)%nat -> pipe_sound (parsepipe fuel pl) (S n).
Proof.
  revert n. induction fuel as [|fuel IH]; intros n Hpl Hn s Hs Hlen; [lia|]. cbn [parsepipe].
  pose proof (parseexec_sound (S fuel) pl n Hpl Hn s Hs ltac:(lia)) as R. unfold bindM at 1.
  destruct (parseexec (S fuel) pl s) as [c s1| |]; [|done|done]. destruct R as (S1 & W1 & e & He & L1 & T1).
  pose proof (suffix_le _ _ S1). do_peek s2 L2 S2. pose proof (suffix_le _ _ S2). destruct (starts [124] (lex s1)) eqn:Hst.
  - apply starts_sym in Hst as [ts Hts]; try done.
    destruct (gettoken_lex line s2 Hnul) as (tok & w & s3 & E3 & S3 & G3); [suff|]. rewrite (bind_ok _ _ _ _ _ E3).
    rewrite L2, Hts in G3. destruct G3 as (_ & _ & _ & L3 & Hlt3). destruct n as [|n]; [lia|].
    specialize (IH n (sound_mono _ _ _ _ _ _ (Nat.le_succ_diag_r n) Hpl) ltac:(lia) s3 ltac:(suff) ltac:(lia)).
    unfold bindM at 1. destruct (parsepipe fuel pl s3) as [r s4| |]; [|done|done]. destruct IH as (S4 & W4 & p & Hp & L4 & T4).
    split_and!; [suff|by apply Forall_app|]. exists (Pipe e p). split_and!; [done| |cbn; by rewrite <- T1, <- T4].
    cbn [pipe_toks]. by rewrite L1, Hts, <- L3, L4, <- app_assoc.
  - split_and!; [suff|done|]. exists (Pipe1 e). by rewrite L2.
Qed.

Lemma parsepipe_complete fuel pl n :
  line_complete pl n -> (n < fuel)%nat -> pipe_complete (parsepipe fuel pl) (S n).
Proof.
  revert n. induction fuel as [|fuel IH]; intros n Hpl Hn s g ts Hs Hlen Hok Hl Hf; [lia|]. cbn [parsepipe].
  pose proof (parseexec_complete (S fuel) pl n Hpl Hn s) as R. destruct g as [e|e p]; cbn [pipe_toks pipe_ok pipe_cmd] in *.
  - destruct (R e ts Hs Hlen Hok Hl) as (c & s1 & E1 & S1 & L1 & T1).
    { apply (follow_sub _ _ _ Hf); by vm_compute. }
    rewrite (bind_ok _ _ _ _ _ E1). do_peek s2 L2 S2. rewrite L1, (follow_not _ _ _ Hf) by (by vm_compute).
    exists c, s2. split_and!; [done|suff|by rewrite L2|done].
  - destruct Hok as [He Hp]. rewrite <- app_assoc in Hl. cbn [app] in Hl.
    destruct (R e (Sym 124 :: pipe_toks p ++ ts) Hs Hlen He Hl) as (c & s1 & E1 & S1 & L1 & T1); [by right|].
    rewrite (bind_ok _ _ _ _ _ E1). pose proof (suffix_le _ _ S1). do_peek s2 L2 S2. pose proof (suffix_le _ _ S2).
    rewrite L1. change (starts [124] _) with true. cbv iota.
    destruct (gettoken_lex line s2 Hnul) as (tok & w & s3 & E3 & S3 & G3); [suff|]. rewrite (bind_ok _ _ _ _ _ E3).
    rewrite L2, L1 in G3. destruct G3 as (_ & _ & _ & L3 & Hlt3). destruct n as [|n]; [lia|].
    destruct (IH n (complete_mono _ _ _ _ _ _ _ (Nat.le_succ_diag_r n) Hpl) ltac:(lia) s3 p ts ltac:(suff) ltac:(lia) Hp L3 Hf)
      as (r & s4 & E4 & S4 & L4 & T4).
    rewrite (bind_ok _ _ _ _ _ E4). exists (PIPE c r), s4. split_and!; [done|suff|done|]. cbn. by rewrite <- T1, <- T4.
Qed.

Lemma back_loop_sound fuel c s :
  s `suffix_of` line -> (length s < fuel)%nat ->
  exists n s', back_loop fuel c s = Ok (Nat.iter n BACK c) s' /\ s' `suffix_of` s /\
    lex s = replicate n (Sym 38) ++ lex s' /\ starts [38] (lex s') = false.
Proof.
  revert c s. induction fuel as [|fuel IH]; intros c s Hs Hlen; [lia|]. cbn [back_loop]. do_peek s1 L1 S1.
  pose proof (suffix_le _ _ S1). destruct (starts [38] (lex s)) eqn:Hst.
  - apply starts_sym in Hst as [ts Hts]; try done.
    destruct (gettoken_lex line s1 Hnul) as (tok & w & s2 & E2 & S2 & G2); [suff|]. rewrite (bind_ok _ _ _ _ _ E2).
    rewrite L1, Hts in G2. destruct G2 as (_ & _ & _ & L2 & Hlt).
    destruct (IH (BACK c) s2 ltac:(suff) ltac:(lia)) as (n & s' & E & S3 & L3 & N3).
    exists (S n), s'. rewrite E, <- Nat.iter_succ_r. split_and!; [done|suff| |done]. cbn [replicate app]. by rewrite Hts, <- L3, L2.
  - exists 0%nat, s1. by rewrite L1.
Qed.

Lemma words_back P n c : Forall P (words c) -> Forall P (words (Nat.iter n BACK c)).
Proof. intros H. by induction n. Qed.

Lemma text_back n c : text (Nat.iter n BACK c) = Nat.iter n BACK (text c).
Proof. induction n as [|n IH]; [done|]. exact (f_equal BACK IH). Qed.

Lemma backs_split n m a b :
  replicate n (Sym 38) ++ a = replicate m (Sym 38) ++ b -> starts [38] a = false -> starts [38] b = false -> n = m /\ a = b.
Proof.
  revert m. induction n as [|n IH]; intros [|m] E Ha Hb; cbn in E.
  - done.
  - by rewrite E in Ha.
  - by rewrite <- E in Hb.
  - injection E as E. destruct (IH m E Ha Hb) as [-> ->]. done.
Qed.

Lemma parseline_sound fuel : line_sound (parseline fuel) fuel.
Proof.
  induction fuel as [|fuel IH]; intros s Hs Hlen; [lia|]. cbn [parseline].
  pose proof (parsepipe_sound (S fuel) (parseline fuel) fuel IH ltac:(lia) s Hs Hlen) as R. unfold bindM at 1.
  destruct (parsepipe (S fuel) (parseline fuel) s) as [c s1| |]; [|done|done]. destruct R as (S1 & W1 & p & Hp & L1 & T1).
  pose proof (suffix_le _ _ S1).
  destruct (back_loop_sound (S fuel) c s1 ltac:(suff) ltac:(lia)) as (n & s2 & E2 & S2 & L2 & N2). rewrite (bind_ok _ _ _ _ _ E2).
  pose proof (suffix_le _ _ S2). do_peek s3 L3 S3. pose proof (suffix_le _ _ S3). destruct (starts [59] (lex s2)) eqn:Hst.
  - apply starts_sym in Hst as [ts Hts]; try done.
    destruct (gettoken_lex line s3 Hnul) as (tok & w & s4 & E4 & S4 & G4); [suff|]. rewrite (bind_ok _ _ _ _ _ E4).
    rewrite L3, Hts in G4. destruct G4 as (_ & _ & _ & L4 & Hlt4). specialize (IH s4 ltac:(suff) ltac:(lia)).
    unfold bindM at 1. destruct (parseline fuel s4) as [r s5| |]; [|done|done]. destruct IH as (S5 & W5 & l & Hl & L5 & T5).
    split_and!; [suff|apply Forall_app; split; [by apply words_back|done]|]. exists (Seq p n l). split_and!; [done| |].
    + cbn [line_toks]. by rewrite L1, L2, Hts, <- L4, L5, <- !app_assoc.
    + change (text (LIST ?a ?b)) with (LIST (text a) (text b)). by rewrite text_back, T1, T5.
  - split_and!; [suff|by apply words_back|]. exists (Line p n). split_and!; [done| |].
    + cbn [line_toks]. by rewrite L1, L2, L3, <- app_assoc.
    + by rewrite text_back, T1.
Qed.

Lemma parseline_complete fuel : line_complete (parseline fuel) fuel.
Proof.
  induction fuel as [|fuel IH]; intros s g ts Hs Hlen Hok Hl Hf; [lia|]. cbn [parseline].
  pose proof (parsepipe_complete (S fuel) (parseline fuel) fuel IH ltac:(lia) s) as R.
  set (rest := match g with Line _ _ => ts | Seq _ _ l => Sym 59 :: line_toks l ++ ts end).
  set (p := match g with Line p _ | Seq p _ _ => p end). set (n := match g with Line _ n | Seq _ n _ => n end).
  assert (Hl' : lex s = pipe_toks p ++ replicate n (Sym 38) ++ rest).
  { rewrite Hl. unfold rest, p, n. destruct g; cbn [line_toks]; by rewrite <- ?app_assoc. }
  assert (Hp : pipe_ok p) by (unfold p; destruct g; [done|by destruct Hok]).
  assert (Hr38 : starts [38] rest = false) by (unfold rest; destruct g; [by apply (follow_not _ _ _ Hf)|done]).
  destruct (R p (replicate n (Sym 38) ++ rest) Hs Hlen Hp Hl') as (c & s1 & E1 & S1 & L1 & T1).
  { destruct n as [|n']; [|by right]. cbn [replicate app]. unfold rest. destruct g; [|by right]. by apply (follow_sub _ _ _ Hf). }
  rewrite (bind_ok _ _ _ _ _ E1). pose proof (suffix_le _ _ S1).
  destruct (back_loop_sound (S fuel) c s1 ltac:(suff) ltac:(lia)) as (n' & s2 & E2 & S2 & L2 & N2). rewrite (bind_ok _ _ _ _ _ E2).
  rewrite L1 in L2. destruct (backs_split _ _ _ _ L2 Hr38 N2) as [<- L2']. pose proof (suffix_le _ _ S2).
  do_peek s3 L3 S3. pose proof (suffix_le _ _ S3). rewrite <- L2'. unfold rest, p, n in *. destruct g as [p0 n0|p0 n0 l].
  - rewrite (follow_not _ _ _ Hf) by done. exists (Nat.iter n0 BACK c), s3. split_and!; [done|suff|by rewrite L3|].
    by rewrite text_back, T1.
  - change (starts [59] _) with true. cbv iota.
    destruct (gettoken_lex line s3 Hnul) as (tok & w & s4 & E4 & S4 & G4); [suff|]. rewrite (bind_ok _ _ _ _ _ E4).
    rewrite L3, <- L2' in G4. destruct G4 as (_ & _ & _ & L4 & Hlt4). destruct Hok as [_ Hok].
    destruct (IH s4 l ts ltac:(suff) ltac:(lia) Hok L4 Hf) as (r & s5 & E5 & S5 & L5 & T5). rewrite (bind_ok _ _ _ _ _ E5).
    exists (LIST (Nat.iter n0 BACK c) r), s5. split_and!; [done|suff|done|]. change (text (LIST ?a ?b)) with (LIST (text a) (text b)). by rewrite text_back, T1, T5.
Qed.

End parser.

(** ** Terminating the strings *)

Definition put_nuls (len : nat) (ws : list str) (buf : list Z) : list Z := foldl (fun buf w => put_nul len w.2 buf) buf ws.

Lemma nulterminate_words len c buf : nulterminate len c buf = put_nuls len (words c) buf.
Proof.
  unfold put_nuls. revert buf. induction c as [argv|c IH file mode fd|l IHl r IHr|l IHl r IHr|c IH]; intros buf; cbn [nulterminate words].
  - done.
  - by rewrite foldl_app, <- IH.
  - by rewrite foldl_app, IHr, IHl.
  - by rewrite foldl_app, IHr, IHl.
  - apply IH.
Qed.

Lemma put_nuls_other len ws buf i : (forall w, w ∈ ws -> (len - length w.2)%nat <> i) -> put_nuls len ws buf !! i = buf !! i.
Proof.
  revert buf. induction ws as [|w ws IH]; intros buf Hi; [done|]. unfold put_nuls in *. cbn [foldl]. rewrite IH by set_solver.
  unfold put_nul. apply list_lookup_insert_ne. set_solver.
Qed.

Lemma put_nul_at len p buf : (len < length buf)%nat -> put_nul len p buf !! (len - length p)%nat = Some 0.
Proof. intros H. unfold put_nul. apply list_lookup_insert_eq. lia. Qed.

Lemma put_nuls_kept len ws buf i : buf !! i = Some 0 -> put_nuls len ws buf !! i = Some 0.
Proof.
  revert buf. induction ws as [|w ws IH]; intros buf Hi; [done|]. apply IH. unfold put_nul.
  destruct (decide ((len - length w.2)%nat = i)) as [->|]; [|by rewrite list_lookup_insert_ne].
  apply list_lookup_insert_eq. by eapply lookup_lt_Some.
Qed.

Lemma put_nuls_at len ws buf w : w ∈ ws -> (len < length buf)%nat -> put_nuls len ws buf !! (len - length w.2)%nat = Some 0.
Proof.
  revert buf. induction ws as [|w' ws IH]; intros buf Hw Hlen; [by apply elem_of_nil in Hw|].
  apply elem_of_cons in Hw as [->|Hw].
  - apply (put_nuls_kept len ws). by apply put_nul_at.
  - apply (IH (put_nul len w'.2 buf)); [done|]. unfold put_nul. by rewrite length_insert.
Qed.

(** A nul at the end of every word leaves each of them as it was. *)
Lemma string_at_word line ws w :
  0 ∉ line -> Forall (word_of line) ws -> w ∈ ws ->
  string_at (length line) (put_nuls (length line) ws (line ++ [0])) w.1 = slice w.
Proof.
  intros H0 Hws Hw. rewrite Forall_forall in Hws. destruct (Hws w Hw) as (x & Ex & Hx & Hchars & Hend & k & Ek).
  destruct w as [q e]. cbn [fst snd] in *. subst q. rewrite word_slice. unfold string_at. cbn [fst].
  set (buf := put_nuls _ _ _). rewrite Forall_forall in Hchars.
  replace (length line - length (x ++ e))%nat with (length k) by (rewrite Ek, length_app; lia).
  assert (Hin : forall i, (i < length x)%nat -> drop (length k) buf !! i = x !! i).
  { intros i Hi. rewrite lookup_drop. destruct (lookup_lt_is_Some_2 x i Hi) as [ch Hch].
    assert (Hlk : line !! (length k + i)%nat = Some ch) by (rewrite Ek, lookup_app_r, lookup_app_l by lia; by rewrite Nat.add_comm, Nat.add_sub).
    unfold buf. rewrite put_nuls_other; [rewrite lookup_app_l by (apply lookup_lt_Some in Hlk; done); congruence|].
    intros [q' e'] Hw' E. destruct (Hws _ Hw') as (x' & Ex' & _ & _ & Hend' & k' & Ek'). cbn [fst snd] in *. subst q'.
    assert (Hpos : line !! length (k' ++ x') = hd_error e').
    { rewrite Ek', app_assoc, lookup_app_r, Nat.sub_diag by lia. by destruct e'. }
    assert (E' : length (k' ++ x') = (length k + i)%nat) by (rewrite <- E, Ek', !length_app; lia).
    rewrite E', Hlk in Hpos. specialize (Hchars ch (list_elem_of_lookup_2 _ _ _ Hch)).
    destruct e' as [|c0 r]; [done|]. injection Hpos as <-. cbn in Hend'. congruence. }
  assert (Hat : drop (length k) buf !! length x = Some 0).
  { rewrite lookup_drop. replace (length k + length x)%nat with (length line - length (x ++ e, e).2)%nat by (rewrite Ek, !length_app; cbn; lia).
    apply put_nuls_at; [done|]. rewrite length_app. cbn. lia. }
  rewrite <- (take_drop_middle _ _ _ Hat). replace (take (length x) (drop (length k) buf)) with x; [apply c_string_stop|].
  - intros Hz. apply H0. rewrite Ek. set_solver.
  - symmetry. apply list_eq. intros i. destruct (decide (i < length x)%nat).
    + by rewrite lookup_take_lt, Hin.
    + rewrite lookup_take_ge by lia. symmetry. apply lookup_ge_None. lia.
Qed.

Lemma strings_map len buf c : strings len buf c = cmd_map (fun w => string_at len buf w.1) c.
Proof. induction c as [argv|c IH file mode fd|l IHl r IHr|l IHl r IHr|c IH]; cbn; congruence. Qed.

Lemma cmd_map_words {B} (f g : str -> B) c : (forall w, w ∈ words c -> f w = g w) -> cmd_map f c = cmd_map g c.
Proof.
  induction c as [argv|c IH file mode fd|l IHl r IHr|l IHl r IHr|c IH]; intros H; cbn in *.
  - f_equal. apply list_fmap_ext. intros i w Hw. apply H. by eapply list_elem_of_lookup_2.
  - rewrite IH, H; [done|set_solver|set_solver].
  - rewrite IHl, IHr; [done|set_solver|set_solver].
  - rewrite IHl, IHr; [done|set_solver|set_solver].
  - by rewrite IH.
Qed.

(** C17: the shell's parser decides its grammar.  For every line it returns: with a command, and
    then the line is a sentence of the grammar, and the strings of the command, as they stand in
    the buffer after nulterminate(), make it the command of the sentence, whichever way one
    reads the line; or with a syntax error, and then no sentence of the grammar has the tokens
    of the line.  It never runs forever. *)
Theorem parsecmd_decides line :
  0 ∉ line ->
  match parsecmd line with
  | Ok (c, buf) _ =>
      (exists l, line_ok l /\ lex line = line_toks l) /\
      forall l, line_ok l -> lex line = line_toks l -> strings (length line) buf c = line_cmd l
  | Panic _ => forall l, line_ok l -> lex line <> line_toks l
  | Blocked _ => False
  end.
Proof.
  intros H0. unfold parsecmd. pose proof (parseline_sound line H0 (S (length line)) line (reflexivity _) ltac:(lia)) as R.
  pose proof (fun l Hl E => parseline_complete line H0 (S (length line)) line l [] (reflexivity _) ltac:(lia) Hl E (or_introl eq_refl)) as C.
  setoid_rewrite app_nil_r in C.
  unfold bindM at 1. destruct (parseline (S (length line)) line) as [c s1| |]; [|intros l Hl E; by destruct (C l Hl E) as (? & ? & ? & _)|done].
  destruct R as (S1 & W1 & l & Hl & L1 & T1).
  change (bindM (peek []) ?f s1) with (f (negb (hd 0 (skip_space s1) =? 0) && has_char [] (hd 0 (skip_space s1))) (skip_space s1)).
  cbv beta. unfold bindM, Prelude.gets, id. pose proof (lex_step s1) as Ls. destruct (skip_space s1) as [|ch t]; cbn [length Nat.eqb negb].
  - rewrite Ls, app_nil_r in L1. split; [by exists l|]. intros l' Hl' E'. destruct (C l' Hl' E') as (c' & s' & Ec & _ & _ & T').
    injection Ec as <- _. rewrite strings_map, nulterminate_words, <- T'. apply cmd_map_words. intros w Hw. by apply string_at_word.
  - intros l' Hl' E'. destruct (C l' Hl' E') as (c' & s' & Ec & _ & L' & _). injection Ec as _ <-. rewrite L' in Ls.
    destruct (has_char symbols ch); [|done]. by destruct ((ch =? 62) && _).
Qed.

(** [a b<f|(c>>g;d)&] *)
Definition demo_line : list Z := [97; 32; 98; 60; 102; 124; 40; 99; 62; 62; 103; 59; 100; 41; 38].

Definition demo_cmd : cmd (list Z) :=
  BACK (PIPE (REDIR (EXEC [[97]; [98]]) [102] 0 0) (LIST (REDIR (EXEC [[99]]) [103] 0x201 1) (EXEC [[100]]))).

Definition demo_gline : gline :=
  Line (Pipe (Simple [Arg [97]; Arg [98]; Redirect (In [102])])
    (Pipe1 (Block (Seq (Pipe1 (Simple [Arg [99]; Redirect (Append [103])])) 0 (Line (Pipe1 (Simple [Arg [100]])) 0)) []))) 1.

Lemma parsecmd_decides_witness : exists c buf s, parsecmd demo_line = Ok (c, buf) s /\ strings 15 buf c = demo_cmd.
Proof.
  assert (H0 : 0 ∉ demo_line) by (by apply (bool_decide_unpack (0 ∉ demo_line)); vm_compute).
  pose proof (parsecmd_decides demo_line H0) as P. destruct (parsecmd demo_line) as [[c buf] s|msg|s] eqn:E; [|by vm_compute in E|done].
  destruct P as [_ P]. exists c, buf, s. split; [done|].
  apply (P demo_gline).
  - unfold demo_gline, line_ok, MAXARGS. cbn. lia.
  - reflexivity.
Defined.

(** ** Running a command *)

(** The table of a process with only its three standard files. *)
Definition std (i o e : openfile) : fds := [Some i; Some o; Some e] ++ replicate 13 None.

(** The programs a process and its descendants start, in the order of their forks. *)
Fixpoint programs (b : behaviour) : list (list (list Z) * fds) :=
  match b with
  | Exit _ => []
  | Exec argv t failed => (argv, t) :: programs failed
  | Say _ k => programs k
  | Fork child parent => programs child ++ programs parent
  | Wait _ k => programs k
  end.

(** The tables held by waiting processes. *)
Fixpoint waiting (b : behaviour) : list fds :=
  match b with
  | Exit _ => []
  | Exec _ _ k | Say _ k => waiting k
  | Fork child parent => waiting child ++ waiting parent
  | Wait t k => t :: waiting k
  end.

(** Redirections as the parser makes them. *)
Fixpoint redirs_std {A} (c : cmd A) : Prop :=
  match c with
  | EXEC _ => True
  | REDIR c _ _ fd => (fd = 0 \/ fd = 1) /\ redirs_std c
  | PIPE l r | LIST l r => redirs_std l /\ redirs_std r
  | BACK c => redirs_std c
  end.

Section run.
Context {os : Os}.

(** The reference: each program with its input, output and error files. *)
Fixpoint wired (id : list bool) (c : cmd (list Z)) (i o e : openfile) : list (list (list Z) * fds) :=
  match c with
  | EXEC argv => match argv with [] => [] | _ => [(argv, std i o e)] end
  | REDIR c f mode fd =>
      if os_open f mode then
        if fd =? 0 then wired id c (File f mode) o e else wired id c i (File f mode) e
      else []
  | LIST l r => wired (id ++ [false]) l i o e ++ wired (id ++ [true]) r i o e
  | PIPE l r => wired (id ++ [false]) l i (PipeWrite id) e ++ wired (id ++ [true]) r (PipeRead id) o e
  | BACK c => wired (id ++ [false]) c i o e
  end.

Lemma pipe_std id i o e :
  os_pipe id = true ->
  pipe id (std i o e) = Some (3, 4, [Some i; Some o; Some e; Some (PipeRead id); Some (PipeWrite id)] ++ replicate 11 None).
Proof. intros H. unfold pipe. by rewrite H. Qed.

Lemma runcmd_wired id c i o e :
  redirs_std c -> (forall id, os_pipe id = true) -> (forall id n, os_fork id n = true) ->
  programs (runcmd id c (std i o e)) = wired id c i o e /\
  Forall (fun t => exists i o e, t = std i o e) (waiting (runcmd id c (std i o e))).
Proof.
  intros Hc Hp Hf. revert id i o e. induction c as [argv|c IH f mode fd|l IHl r IHr|l IHl r IHr|c IH]; intros id i o e; cbn [redirs_std runcmd wired] in *.
  - destruct argv; (split; [done|apply Forall_nil_2]).
  - destruct Hc as [Hfd Hc]. unfold open. destruct (os_open f mode); [|destruct Hfd as [->| ->]; (split; [done|apply Forall_nil_2])].
    destruct Hfd as [->| ->]; [apply (IH Hc id (File f mode) o e)|apply (IH Hc id i (File f mode) e)].
  - destruct Hc as [Hl Hr]. rewrite pipe_std by done. unfold fork1. rewrite !Hf. cbn [programs waiting]. rewrite app_nil_r.
    destruct (IHl Hl (id ++ [false]) i (PipeWrite id) e) as [P1 W1], (IHr Hr (id ++ [true]) (PipeRead id) o e) as [P2 W2].
    split; [by rewrite <- P1, <- P2|]. apply Forall_app. split; [exact W1|]. apply Forall_app. split; [exact W2|].
    repeat constructor; by exists i, o, e.
  - destruct Hc as [Hl Hr]. unfold fork1. rewrite !Hf. cbn [programs waiting].
    destruct (IHl Hl (id ++ [false]) i o e) as [P1 W1], (IHr Hr (id ++ [true]) i o e) as [P2 W2].
    split; [by rewrite <- P1, <- P2|]. apply Forall_app. split; [exact W1|]. constructor; [by exists i, o, e|exact W2].
  - unfold fork1. rewrite Hf. cbn [programs waiting]. rewrite !app_nil_r. by apply IH.
Qed.

(** Every line the parser accepts has such redirections. *)
Lemma redirs_std_foldl rs c : redirs_std c -> redirs_std (foldl redir_cmd c rs).
Proof. revert c. induction rs as [|[] rs IH]; intros c Hc; [done|..]; apply IH; cbn; auto. Qed.

Lemma redirs_std_push {A} (w : A) c : redirs_std c -> redirs_std (push_arg w c).
Proof. induction c; cbn; try done. intros [? ?]. auto. Qed.

Lemma redirs_std_back n (c : cmd (list Z)) : redirs_std c -> redirs_std (Nat.iter n BACK c).
Proof. intros H. by induction n. Qed.

Fixpoint line_redirs l : redirs_std (line_cmd l)
with pipe_redirs p : redirs_std (pipe_cmd p)
with exec_redirs e : redirs_std (exec_cmd e).
Proof.
  - destruct l as [p n|p n l]; cbn [line_cmd].
    + apply redirs_std_back, pipe_redirs.
    + split; [apply redirs_std_back, pipe_redirs|apply line_redirs].
  - destruct p as [e|e p]; cbn [pipe_cmd]; [apply exec_redirs|split; [apply exec_redirs|apply pipe_redirs]].
  - destruct e as [its|l rs]; cbn [exec_cmd]; [|apply redirs_std_foldl, line_redirs].
    assert (forall c, redirs_std c -> redirs_std (foldl item_cmd c its)) as H; [|by apply H].
    clear. induction its as [|[w|r] its IH]; intros c Hc; [done|..]; cbn [foldl]; apply IH.
    + by apply redirs_std_push.
    + destruct r; cbn; auto.
Qed.

(** C18: runcmd() wires the programs of a command line as the line says.  Provided pipe() and
    fork() succeed, the programs it starts from a process with three open files are exactly those
    of the line, each with the files the redirections and pipes around it name as its
    descriptors 0, 1 and 2 and with no other descriptor open; and a process that waits has three
    descriptors open, so that it keeps no end of a pipe it created. *)
Theorem runcmd_wires id l i o e :
  (forall id, os_pipe id = true) -> (forall id n, os_fork id n = true) ->
  programs (runcmd id (line_cmd l) (std i o e)) = wired id (line_cmd l) i o e /\
  Forall (fun t => exists i o e, t = std i o e) (waiting (runcmd id (line_cmd l) (std i o e))).
Proof. apply runcmd_wired, line_redirs. Qed.

End run.

Definition demo_os : Os := {| os_open := fun _ _ => true; os_fork := fun _ _ => true; os_pipe := fun _ => true |}.

(** [a b<f|(c>>g;d)&]: [a] reads f and writes to the pipe, [c] writes to g and [d] reads the pipe. *)
Lemma runcmd_wires_witness :
  programs (runcmd (os := demo_os) [] (line_cmd demo_gline) (std (Std 0) (Std 1) (Std 2))) =
    [([[97]; [98]], std (File [102] 0) (PipeWrite [false]) (Std 2));
     ([[99]], std (PipeRead [false]) (File [103] 0x201) (Std 2));
     ([[100]], std (PipeRead [false]) (Std 1) (Std 2))].
Proof.
  destruct (runcmd_wires (os := demo_os) [] demo_gline (Std 0) (Std 1) (Std 2)) as [P _].
  - done.
  - done.
  - rewrite P. reflexivity.
Defined.

End ShProofs.
