(* ===== verification/Umalloc.v ===== *)
(** * user/umalloc.c: the storage allocator of user programs

    The headers are a store from addresses to [union header]; a header takes 16 bytes, which is
    also the unit of sizes.  [base] is the address of the static header.  sbrk() is the kernel's:
    it returns the old end of the process, or -1 when [sbrk_ok] refuses, and a negative argument
    shrinks the process unless that would take more than there is.  [fuel] bounds the walks
    along the free list. *)

From S2P Require Import Prelude Machine.

Module Umalloc.

Record header : Type := Header { h_ptr : Z; h_size : Z }.

Record ustate : Type := Ustate { um_mem : Z -> header; um_freep : Z; um_brk : Z }.

Class Process := {
  base : Z;
  sbrk_ok : Z -> Z -> bool
}.

Definition store (a : Z) (h : header) (m : Z -> header) : Z -> header := fun x => if x =? a then h else m x.

Definition ptr (a : Z) : M ustate Z := gets (fun s => h_ptr (um_mem s a)).
Definition size (a : Z) : M ustate Z := gets (fun s => h_size (um_mem s a)).
Definition set_ptr (a v : Z) : M ustate unit :=
  modify (fun s => Ustate (store a (Header v (h_size (um_mem s a))) (um_mem s)) (um_freep s) (um_brk s)).
Definition set_size (a v : Z) : M ustate unit :=
  modify (fun s => Ustate (store a (Header (h_ptr (um_mem s a)) v) (um_mem s)) (um_freep s) (um_brk s)).
Definition set_freep (v : Z) : M ustate unit := modify (fun s => Ustate (um_mem s) v (um_brk s)).

Section code.
Context {process : Process}.

(** [for(p = freep; !(bp > p && bp < p->s.ptr); p = p->s.ptr)
       if(p >= p->s.ptr && (bp > p || bp < p->s.ptr)) break;] *)
Fixpoint free_loop (fuel : nat) (bp p : Z) : M ustate Z :=
  next <- ptr p ;;
  if (bp >? p) && (bp <? next) then retM p
  else if (p >=? next) && ((bp >? p) || (bp <? next)) then retM p
  else match fuel with O => block | S fuel => free_loop fuel bp next end.

Definition free (fuel : nat) (ap : Z) : M ustate unit :=
  let bp := ap - 16 in
  p <- gets um_freep ;;
  p <- free_loop fuel bp p ;;
  n <- size bp ;;
  next <- ptr p ;;
  (if bp + 16 * n =? next then
     m <- size next ;;
     set_size bp (u32 (n + m)) ;;
     nn <- ptr next ;;
     set_ptr bp nn
   else set_ptr bp next) ;;
  k <- size p ;;
  (if p + 16 * k =? bp then
     n <- size bp ;;
     set_size p (u32 (k + n)) ;;
     nn <- ptr bp ;;
     set_ptr p nn
   else set_ptr p bp) ;;
  set_freep p.

(** sbrk(n) of an int. *)
Definition sbrk (n : Z) : M ustate Z := fun s =>
  let b := um_brk s in
  if n <? 0 then Ok b (Ustate (um_mem s) (um_freep s) (if b + n <? 0 then b else b + n))
  else if sbrk_ok b n then Ok b (Ustate (um_mem s) (um_freep s) (b + n))
  else Ok (-1) s.

Definition morecore (fuel : nat) (nu : Z) : M ustate Z :=
  let nu := if nu <? 4096 then 4096 else nu in
  p <- sbrk (s32 (nu * 16)) ;;
  if p =? -1 then retM 0 else
  set_size p nu ;;
  free fuel (p + 16) ;;
  gets um_freep.

(** Taking [nunits] from the block at [p]. *)
Definition take (nunits prevp p : Z) : M ustate Z :=
  n <- size p ;;
  if n =? nunits then
    next <- ptr p ;;
    set_ptr prevp next ;;
    set_freep prevp ;;
    retM (p + 16)
  else
    set_size p (n - nunits) ;;
    let q := p + 16 * (n - nunits) in
    set_size q nunits ;;
    set_freep prevp ;;
    retM (q + 16).

Fixpoint malloc_loop (fuel : nat) (nunits prevp p : Z) : M ustate Z :=
  match fuel with
  | O => block
  | S fuel' =>
      n <- size p ;;
      if n >=? nunits then take nunits prevp p else
      freep <- gets um_freep ;;
      if p =? freep then
        q <- morecore fuel' nunits ;;
        if q =? 0 then retM 0 else
        next <- ptr q ;;
        malloc_loop fuel' nunits q next
      else
        next <- ptr p ;;
        malloc_loop fuel' nunits p next
  end.

Definition malloc (fuel : nat) (nbytes : Z) : M ustate Z :=
  let nunits := u32 ((nbytes + 16 - 1) / 16 + 1) in
  freep <- gets um_freep ;;
  prevp <-
    (if freep =? 0 then
       set_ptr base base ;;
       set_freep base ;;
       set_size base 0 ;;
       retM base
     else retM freep) ;;
  p <- ptr prevp ;;
  malloc_loop fuel nunits prevp p.

End code.
End Umalloc.
