(* ===== verification/UmallocProofs.v ===== *)
(** * The user allocator never hands out memory twice

    The free list is a ring through [base], sorted by address and with no two blocks that
    touch.  [heap] is the allocator's invariant over its free blocks and the blocks the program
    holds; malloc() and free() keep it, and return. *)

From S2P Require Import Prelude Machine Umalloc.

Module UmallocProofs.
Import Umalloc.

(** A block of memory: the address of its header and its size in units, the header included. *)
Notation "'area'" := (Z * Z)%type (at level 0).

Definition block_end (b : area) : Z := b.1 + 16 * b.2.

Definition apart (x y : area) : Prop := block_end x <= y.1 \/ block_end y <= x.1.

(** ** Chains of headers *)

Definition head_addr (l : list area) (t : Z) : Z := match l with [] => t | b :: _ => b.1 end.

(** The headers of [l] hold its sizes, and each points to the next, the last one to [t]. *)
Fixpoint chain (m : Z -> header) (l : list area) (t : Z) : Prop :=
  match l with
  | [] => True
  | b :: l => m b.1 = Header (head_addr l t) b.2 /\ chain m l t
  end.

Lemma chain_app m l1 l2 t : chain m (l1 ++ l2) t <-> chain m l1 (head_addr l2 t) /\ chain m l2 t.
Proof.
  induction l1 as [|b l1 IH]; cbn [app chain]; [tauto|]. rewrite IH.
  replace (head_addr (l1 ++ l2) t) with (head_addr l1 (head_addr l2 t)) by (by destruct l1). tauto.
Qed.

Lemma store_eq a h m : store a h m a = h.
Proof. unfold store. by rewrite Z.eqb_refl. Qed.

Lemma store_ne a h m x : x <> a -> store a h m x = m x.
Proof. intros H. unfold store. by rewrite (proj2 (Z.eqb_neq x a)). Qed.

Lemma chain_ext m m' l t : (forall b, b ∈ l -> m' b.1 = m b.1) -> chain m l t -> chain m' l t.
Proof.
  induction l as [|b l IH]; intros E; cbn [chain]; [done|]. intros [H1 H2]. split; [by rewrite E by set_solver|].
  apply IH; [set_solver|done].
Qed.

(** Each block ends before the next one starts, with something in between. *)
Fixpoint sorted (l : list area) : Prop :=
  match l with
  | [] => True
  | b :: l => 0 <= b.2 /\ Forall (fun c => block_end b < c.1) l /\ sorted l
  end.

Lemma sorted_app l1 l2 :
  sorted (l1 ++ l2) <-> sorted l1 /\ sorted l2 /\ forall x y, x ∈ l1 -> y ∈ l2 -> block_end x < y.1.
Proof.
  induction l1 as [|b l1 IH]; cbn [app sorted].
  - split; [|tauto]. intros H. split_and!; try done. by intros x y Hx%elem_of_nil.
  - rewrite IH, Forall_app, !Forall_forall. split.
    + intros (H1 & [H2 H3] & H4 & H5 & H6). split_and!; try done. intros x y [->|Hx]%elem_of_cons Hy; auto.
    + intros ((H1 & H2 & H3) & H4 & H5). split_and!; try done; intros; apply H5; set_solver.
Qed.

Lemma sorted_size l b : sorted l -> b ∈ l -> 0 <= b.2.
Proof.
  induction l as [|c l IH]; intros H Hb; [by apply elem_of_nil in Hb|]. destruct H as (H1 & _ & H3).
  apply elem_of_cons in Hb as [->|Hb]; auto.
Qed.

Lemma sorted_nodup l : sorted l -> NoDup l.
Proof.
  induction l as [|b l IH]; intros H; [apply NoDup_nil_2|]. destruct H as (H1 & H2 & H3). apply NoDup_cons. split; [|by apply IH].
  intros Hb. rewrite Forall_forall in H2. specialize (H2 b Hb). unfold block_end in H2. lia.
Qed.

(** The two parts of a sorted list around an address are those before and behind it. *)
Lemma sorted_split_nodup l1 b l2 : sorted (l1 ++ b :: l2) -> (b.1 ∉ l1.*1) /\ (b.1 ∉ l2.*1).
Proof.
  intros H. apply sorted_app in H as (H1 & (H2 & H3 & H4) & H5). rewrite Forall_forall in H3. split.
  - intros (x & E & Hx)%list_elem_of_fmap. specialize (H5 x b Hx ltac:(set_solver)). pose proof (sorted_size _ _ H1 Hx).
    unfold block_end in *. lia.
  - intros (x & E & Hx)%list_elem_of_fmap. specialize (H3 x Hx). unfold block_end in *. lia.
Qed.

Lemma sorted_same_split l1 b l2 l1' b' l2' :
  sorted (l1 ++ b :: l2) -> l1 ++ b :: l2 = l1' ++ b' :: l2' -> b.1 = b'.1 -> l1 = l1' /\ b = b' /\ l2 = l2'.
Proof.
  revert l1'. induction l1 as [|x l1 IH]; intros [|x' l1'] Hs E Eb; cbn [app] in *.
  - by injection E as -> ->.
  - injection E as -> ->. exfalso. destruct Hs as (H1 & H2 & _). rewrite Forall_forall in H2.
    specialize (H2 b' ltac:(set_solver)). unfold block_end in H2. lia.
  - injection E as -> E. exfalso. destruct Hs as (H1 & H2 & _). rewrite Forall_forall in H2.
    specialize (H2 b ltac:(set_solver)). unfold block_end in H2. lia.
  - injection E as -> E. destruct Hs as (_ & _ & Hs). destruct (IH l1' Hs E Eb) as (-> & -> & ->). done.
Qed.

Section proofs.
Context {process : Process}.

(** The free list: the blocks behind the static header. *)
Definition ring (m : Z -> header) (fl : list area) : Prop := chain m ((base, 0) :: fl) base /\ sorted ((base, 0) :: fl).

(** Walking the ring from one of its blocks. *)
Lemma ring_rotate m fl l1 b l2 :
  ring m fl -> (base, 0) :: fl = l1 ++ b :: l2 -> chain m (b :: l2 ++ l1) b.1.
Proof.
  intros [HC _] E. rewrite E in HC. apply chain_app in HC as [C1 C2]. change (b :: l2 ++ l1) with ((b :: l2) ++ l1).
  apply chain_app. split; [|exact C1]. destruct l1 as [|c l1]; [|injection E as <- _; exact C2].
  injection E as <- _. exact C2.
Qed.

(** ** The place of a block in the ring *)

(** The condition on which the loop of free() stops at [p]. *)
Definition stops (m : Z -> header) (bp p : Z) : bool :=
  ((bp >? p) && (bp <? h_ptr (m p))) || ((p >=? h_ptr (m p)) && ((bp >? p) || (bp <? h_ptr (m p)))).

Lemma free_loop_step fuel bp p s :
  free_loop fuel bp p s =
  if stops (um_mem s) bp p then Ok p s
  else match fuel with O => Blocked s | S fuel => free_loop fuel bp (h_ptr (um_mem s p)) s end.
Proof.
  unfold stops. destruct fuel; cbn [free_loop]; unfold ptr; mrun;
    destruct ((bp >? p) && (bp <? h_ptr (um_mem s p))); cbn [orb]; try done;
    by destruct ((p >=? h_ptr (um_mem s p)) && ((bp >? p) || (bp <? h_ptr (um_mem s p)))).
Qed.

Lemma free_loop_walk fuel bp s pre b post t :
  chain (um_mem s) (pre ++ b :: post) t -> (forall y, y ∈ pre -> stops (um_mem s) bp y.1 = false) ->
  stops (um_mem s) bp b.1 = true -> (length pre <= fuel)%nat ->
  free_loop fuel bp (head_addr (pre ++ b :: post) t) s = Ok b.1 s.
Proof.
  revert fuel. induction pre as [|y pre IH]; intros fuel HC Hpre Hb Hlen; rewrite free_loop_step.
  - cbn [app head_addr]. by rewrite Hb.
  - cbn [app head_addr chain] in *. destruct HC as [Ey HC]. rewrite Hpre by set_solver. destruct fuel as [|fuel]; [cbn in Hlen; lia|].
    rewrite Ey. cbn [h_ptr]. apply IH; try done; [set_solver|cbn in Hlen; lia].
Qed.

(** A block between [b] and the blocks of [l2]. *)
Definition between (b : area) (l2 : list area) (new : area) : Prop :=
  b.1 < new.1 /\ block_end b <= new.1 /\ forall y, y ∈ l2 -> block_end new <= y.1.

Lemma place_exists b l new :
  sorted (b :: l) -> b.1 < new.1 -> block_end b <= new.1 -> (forall y, y ∈ l -> 1 <= y.2 /\ apart y new) -> 1 <= new.2 ->
  exists l1 c l2, b :: l = l1 ++ c :: l2 /\ between c l2 new.
Proof.
  revert b. induction l as [|d l IH]; intros b Hs Hb Hbe Hl Hn.
  - exists [], b, []. split; [done|]. split_and!; try done. by intros y Hy%elem_of_nil.
  - destruct Hs as (_ & _ & Hs). destruct (Hl d ltac:(set_solver)) as [Hd [Ha|Ha]].
    + destruct (IH d Hs) as (l1 & c & l2 & E & HB); [unfold block_end in *; lia|done|intros; apply Hl; set_solver|done|].
      exists (b :: l1), c, l2. by rewrite E.
    + exists [], b, (d :: l). split; [done|]. split_and!; try done. destruct Hs as (_ & Hs & _). rewrite Forall_forall in Hs.
      intros y [->|Hy]%elem_of_cons; [done|]. specialize (Hs y Hy). unfold block_end in *. lia.
Qed.

Lemma ring_ptr m fl u y v : ring m fl -> (base, 0) :: fl = u ++ y :: v -> m y.1 = Header (head_addr v base) y.2.
Proof. intros [HC _] E. rewrite E in HC. by apply chain_app in HC as [_ [HC _]]. Qed.

Lemma ring_low m fl y : ring m fl -> y ∈ (base, 0) :: fl -> base <= y.1.
Proof.
  intros [_ (_ & Hs & _)] [->|Hy]%elem_of_cons; [done|]. rewrite Forall_forall in Hs. specialize (Hs y Hy). unfold block_end in Hs. cbn in Hs. lia.
Qed.

Lemma stops_there m fl l1 b l2 new :
  ring m fl -> (base, 0) :: fl = l1 ++ b :: l2 -> between b l2 new -> 1 <= new.2 -> stops m new.1 b.1 = true.
Proof.
  intros HR E (H1 & H2 & H3) Hn. unfold stops. rewrite (ring_ptr m fl l1 b l2 HR E). cbn [h_ptr].
  pose proof (ring_low m fl b HR ltac:(rewrite E; set_solver)) as Hlow.
  destruct l2 as [|c l2]; cbn [head_addr].
  - rewrite (proj2 (Z.gtb_lt new.1 b.1)), Z.geb_leb, (proj2 (Z.leb_le base b.1)) by lia. cbn. apply orb_true_r.
  - specialize (H3 c ltac:(set_solver)). unfold block_end in H3.
    by rewrite (proj2 (Z.gtb_lt new.1 b.1)), (proj2 (Z.ltb_lt new.1 c.1)) by lia.
Qed.

Lemma stops_only_there m fl l1 b l2 new y :
  ring m fl -> (base, 0) :: fl = l1 ++ b :: l2 -> between b l2 new -> 1 <= new.2 -> y ∈ l1 ++ l2 -> stops m new.1 y.1 = false.
Proof.
  intros HR E (H1 & H2 & H3) Hn Hy. pose proof (ring_low m fl b HR ltac:(rewrite E; set_solver)) as Hlow.
  pose proof (proj2 HR) as Hs. rewrite E in Hs. unfold stops, block_end in *.
  apply elem_of_app in Hy as [Hy|Hy]; apply list_elem_of_split in Hy as (u & v & ->).
  - rewrite <- app_assoc in E, Hs. cbn [app] in E, Hs. rewrite (ring_ptr m fl _ _ _ HR E). cbn [h_ptr].
    apply sorted_app in Hs as (_ & (Hy & Hv & Hs) & _). rewrite Forall_forall in Hv. unfold block_end in Hv.
    assert (Hnext : y.1 < head_addr (v ++ b :: l2) base <= b.1).
    { destruct v as [|z v]; cbn [app head_addr].
      - specialize (Hv b ltac:(set_solver)). lia.
      - destruct Hs as (Hz & Hzs & _). rewrite Forall_forall in Hzs. specialize (Hzs b ltac:(set_solver)).
        specialize (Hv z ltac:(set_solver)). unfold block_end in Hzs. lia. }
    rewrite (proj2 (Z.ltb_ge new.1 _)), Z.geb_leb, (proj2 (Z.leb_gt _ y.1)) by lia. by rewrite andb_false_r.
  - specialize (H3 y ltac:(set_solver)). rewrite (app_comm_cons u), app_assoc in E.
    rewrite (ring_ptr m fl _ _ _ HR E). cbn [h_ptr]. apply sorted_app in Hs as (_ & (_ & _ & Hs) & _).
    apply sorted_app in Hs as (_ & (Hy & Hv & _) & _). rewrite Forall_forall in Hv. unfold block_end in Hv.
    rewrite Z.gtb_ltb, (proj2 (Z.ltb_ge y.1 new.1)) by lia. cbn [andb orb]. destruct v as [|z v]; cbn [head_addr].
    + rewrite (proj2 (Z.ltb_ge new.1 base)) by lia. by rewrite andb_false_r.
    + specialize (Hv z ltac:(set_solver)). rewrite Z.geb_leb, (proj2 (Z.leb_gt z.1 y.1)) by lia. done.
Qed.

Lemma free_finds fuel s fl l1 b l2 new :
  ring (um_mem s) fl -> (base, 0) :: fl = l1 ++ b :: l2 -> between b l2 new -> 1 <= new.2 ->
  um_freep s ∈ base :: fl.*1 -> (length fl <= fuel)%nat -> free_loop fuel new.1 (um_freep s) s = Ok b.1 s.
Proof.
  intros HR E HB Hn Hf Hlen. change (base :: fl.*1) with (((base, 0) :: fl).*1) in Hf.
  apply list_elem_of_fmap in Hf as (x & Ex & Hx). apply list_elem_of_split in Hx as (k1 & k2 & Ek).
  pose proof (ring_rotate _ _ _ _ _ HR Ek) as HC. rewrite Ex.
  assert (HP : x :: k2 ++ k1 ≡ₚ l1 ++ b :: l2) by (rewrite <- E, Ek; solve_Permutation).
  assert (ND : NoDup (x :: k2 ++ k1)) by (rewrite HP, <- E; apply sorted_nodup, HR).
  assert (Hb : b ∈ x :: k2 ++ k1) by (rewrite HP; set_solver). apply list_elem_of_split in Hb as (pre & post & ER).
  assert (HL : length (pre ++ b :: post) = length ((base, 0) :: fl)) by (by rewrite <- ER, HP, E).
  rewrite length_app in HL. cbn [length] in HL.
  replace x.1 with (head_addr (pre ++ b :: post) 0) by (by rewrite <- ER). rewrite ER in HC, ND.
  replace (head_addr (pre ++ b :: post) 0) with (head_addr (pre ++ b :: post) x.1) by (by rewrite <- ER).
  apply free_loop_walk; [done| |by eapply stops_there|lia].
  intros y Hy. apply (stops_only_there _ fl l1 b l2); try done.
  assert (Hyl : y ∈ l1 ++ b :: l2) by (rewrite <- HP, ER; set_solver).
  assert (y <> b) by (intros ->; apply NoDup_app in ND as (_ & ND & _); apply (ND b Hy); set_solver). set_solver.
Qed.

(** Joining a block with the one behind it, and with the one before it. *)
Definition join_next (new : area) (l2 : list area) : area * list area :=
  match l2 with
  | c :: l2' => if block_end new =? c.1 then ((new.1, new.2 + c.2), l2') else (new, l2)
  | [] => (new, [])
  end.

Definition join_prev (b mid : area) : list area := if block_end b =? mid.1 then [(b.1, b.2 + mid.2)] else [b; mid].

(** Running straight-line code on the headers. *)
Ltac umrun :=
  repeat (mrun; cbn [um_mem um_freep um_brk head_addr fst snd h_ptr h_size];
    repeat first [rewrite store_eq | rewrite store_ne by lia | progress match goal with H : um_mem _ _ = _ |- _ => rewrite H end | rewrite u32_small by lia];
    cbn [h_ptr h_size]).

Ltac finish_free :=
  eexists; split; [reflexivity|]; cbn [um_mem um_freep um_brk];
  split; [done|]; split; [done|]; split; [intros a Ha1 Ha2; by rewrite ?store_ne by done|]; umrun; repeat match goal with H : h_size _ = _ |- _ => rewrite H end; done.

(** What free() does once it knows the place. *)
Lemma free_updates fuel s fl l1 b l2 new :
  let '(mid, rest) := join_next new l2 in
  ring (um_mem s) fl -> (base, 0) :: fl = l1 ++ b :: l2 -> between b l2 new -> 1 <= new.2 ->
  um_freep s ∈ base :: fl.*1 -> (length fl <= fuel)%nat -> h_size (um_mem s new.1) = new.2 ->
  0 <= b.2 -> b.2 + mid.2 < 2 ^ 32 -> mid.2 < 2 ^ 32 -> (forall y, y ∈ l2 -> 0 <= y.2) ->
  exists s', free fuel (new.1 + 16) s = Ok tt s' /\ um_freep s' = b.1 /\ um_brk s' = um_brk s /\
    (forall a, a <> b.1 -> a <> new.1 -> um_mem s' a = um_mem s a) /\
    if block_end b =? new.1 then um_mem s' b.1 = Header (head_addr rest base) (b.2 + mid.2)
    else um_mem s' b.1 = Header new.1 b.2 /\ um_mem s' new.1 = Header (head_addr rest base) mid.2.
Proof.
  destruct (join_next new l2) as [mid rest] eqn:EJ. intros HR E HB Hn Hf Hlen Hsz Hb Hm1 Hm2 Hl2.
  pose proof (free_finds fuel s fl l1 b l2 new HR E HB Hn Hf Hlen) as EL. pose proof (ring_ptr _ _ _ _ _ HR E) as Eb.
  pose proof (ring_low _ _ b HR ltac:(rewrite E; set_solver)) as Hlow. destruct HB as (H1 & H2 & H3).
  unfold free. replace (new.1 + 16 - 16) with new.1 by lia. mrun. rewrite (bind_ok _ _ _ _ _ EL).
  unfold size, ptr, set_size, set_ptr, set_freep. mrun. cbn [um_mem um_freep um_brk]. rewrite Hsz, Eb. cbn [h_ptr h_size].
  assert (Hnb : new.1 <> b.1) by lia.
  assert (Hright : (new.1 + 16 * new.2 =? head_addr l2 base) = match l2 with c :: _ => block_end new =? c.1 | [] => false end).
  { destruct l2 as [|c l2']; [|done]. cbn [head_addr]. apply Z.eqb_neq. lia. }
  rewrite Hright. change (block_end b) with (b.1 + 16 * b.2). unfold join_next in EJ. destruct l2 as [|c l2]; [|destruct (block_end new =? c.1) eqn:Ec].
  - injection EJ as <- <-. umrun. destruct (b.1 + 16 * b.2 =? new.1); umrun; finish_free.
  - injection EJ as <- <-. apply Z.eqb_eq in Ec. specialize (Hl2 c ltac:(set_solver)) as Hc. unfold block_end in Ec.
    cbn [fst snd] in *. assert (Hcm : um_mem s c.1 = Header (head_addr l2 base) c.2).
    { apply (ring_ptr _ fl (l1 ++ [b])); [done|]. by rewrite <- app_assoc. }
    umrun. destruct (b.1 + 16 * b.2 =? new.1); umrun; finish_free.
  - injection EJ as <- <-. umrun. destruct (b.1 + 16 * b.2 =? new.1); umrun; finish_free.
Qed.

(** ** The list with the new block *)

Lemma apart_join x y z :
  block_end x = y.1 -> 0 <= x.2 -> 0 <= y.2 -> 1 <= z.2 -> apart (x.1, x.2 + y.2) z <-> apart x z /\ apart y z.
Proof. unfold apart, block_end. cbn [fst snd]. intros. split; [intros [?|?]; lia|]. intros [[?|?] [?|?]]; lia. Qed.

Lemma join_next_spec new l2 mid rest :
  join_next new l2 = (mid, rest) -> sorted l2 -> (forall y, y ∈ l2 -> block_end new <= y.1) -> 1 <= new.2 ->
  mid.1 = new.1 /\ new.2 <= mid.2 /\ sorted (mid :: rest) /\ (forall y, y ∈ rest -> y ∈ l2) /\
  (forall z, 1 <= z.2 -> (forall y, y ∈ mid :: rest -> apart y z) <-> apart new z /\ forall y, y ∈ l2 -> apart y z) /\
  (forall e, block_end new <= e -> (forall y, y ∈ l2 -> block_end y <= e) -> block_end mid <= e).
Proof.
  intros EJ Hs Hle Hn. destruct l2 as [|c l2]; cbn [join_next] in EJ.
  - injection EJ as <- <-. refine (conj _ (conj _ (conj _ (conj _ (conj _ _))))); [done|lia|split_and!; [lia|apply Forall_nil_2|done]|done| |done].
    intros z Hz. split; [intros H; split; [apply H; set_solver|by intros y Hy%elem_of_nil]|intros [H _] y [->|Hy%elem_of_nil]%elem_of_cons; done].
  - destruct Hs as (Hc & Hcl & Hs). pose proof (Hle c ltac:(set_solver)) as Hnc. rewrite Forall_forall in Hcl.
    destruct (Z.eqb_spec (block_end new) c.1) as [Ec|Ec]; injection EJ as <- <-; cbn [fst snd].
    + assert (Hend : block_end (new.1, new.2 + c.2) = block_end c) by (unfold block_end in *; cbn; lia).
      refine (conj _ (conj _ (conj _ (conj _ (conj _ _))))); [done|lia| |set_solver| |].
      * cbn [sorted fst snd]. split_and!; [lia| |done]. apply Forall_forall. intros y Hy. rewrite Hend. by apply Hcl.
      * intros z Hz. pose proof (apart_join new c z Ec ltac:(lia) Hc Hz) as HJ. split.
        -- intros H. destruct (proj1 HJ (H (new.1, new.2 + c.2) ltac:(set_solver))). split; [done|]. intros y [->|Hy]%elem_of_cons; [done|apply H; set_solver].
        -- intros [H1 H2] y [->|Hy]%elem_of_cons; [apply HJ; split; [done|apply H2; set_solver]|apply H2; set_solver].
      * intros e _ H. rewrite Hend. apply H. set_solver.
    + refine (conj _ (conj _ (conj _ (conj _ (conj _ _))))); [done|lia| |done| |done].
      * cbn [sorted]. split_and!; [lia| |done|by apply Forall_forall|done]. apply Forall_forall.
        intros y [->|Hy]%elem_of_cons; [lia|]. specialize (Hcl y Hy). unfold block_end in *. lia.
      * intros z Hz. split; [intros H; split; [|intros]; apply H; set_solver|]. intros [H1 H2] y [->|Hy]%elem_of_cons; auto.
Qed.

Lemma join_prev_spec l1 b mid rest :
  sorted (l1 ++ [b]) -> sorted (mid :: rest) -> block_end b <= mid.1 -> 1 <= mid.2 -> b.1 < mid.1 ->
  sorted (l1 ++ join_prev b mid ++ rest) /\
  (forall z, 1 <= z.2 -> (forall y, y ∈ l1 ++ join_prev b mid ++ rest -> apart y z) <->
     (forall y, y ∈ l1 ++ [b] -> apart y z) /\ forall y, y ∈ mid :: rest -> apart y z).
Proof.
  intros Hs (_ & Hm & Hr) Hle Hn Hlt. apply sorted_app in Hs as (Hl1 & (Hb & _) & Hlb). rewrite Forall_forall in Hm.
  assert (Hlm : forall x, x ∈ l1 -> forall y : area, b.1 <= y.1 -> block_end x < y.1).
  { intros x Hx y Hy. specialize (Hlb x b Hx ltac:(set_solver)). lia. }
  assert (Hlr : forall y, y ∈ rest -> b.1 <= y.1) by (intros y Hy; specialize (Hm y Hy); unfold block_end in *; lia).
  unfold join_prev. destruct (Z.eqb_spec (block_end b) mid.1) as [E|E].
  - assert (Hend : block_end (b.1, b.2 + mid.2) = block_end mid) by (unfold block_end in *; cbn; lia). split.
    + apply sorted_app. refine (conj _ (conj _ _)); [done| |].
      * cbn [app sorted fst snd]. split_and!; [lia| |done]. apply Forall_forall. intros y Hy. rewrite Hend. by apply Hm.
      * intros x y Hx [->|Hy]%elem_of_cons; apply Hlm; first [done|cbn; lia|by apply Hlr].
    + intros z Hz. pose proof (apart_join b mid z E Hb ltac:(lia) Hz) as HJ. split.
      * intros H. destruct (proj1 HJ (H (b.1, b.2 + mid.2) ltac:(set_solver))). split; intros y Hy.
        -- apply elem_of_app in Hy as [Hy|Hy]; [apply H; set_solver|]. apply list_elem_of_singleton in Hy as ->. done.
        -- apply elem_of_cons in Hy as [->|Hy]; [done|apply H; set_solver].
      * intros [H1 H2] y Hy. apply elem_of_app in Hy as [Hy|Hy]; [apply H1; set_solver|].
        apply elem_of_cons in Hy as [->|Hy]; [apply HJ; split; [apply H1|apply H2]; set_solver|apply H2; set_solver].
  - split.
    + apply sorted_app. refine (conj _ (conj _ _)); [done| |].
      * cbn [app sorted]. split_and!; [done| |lia|by apply Forall_forall|done]. apply Forall_forall.
        intros y [->|Hy]%elem_of_cons; [lia|]. specialize (Hm y Hy). unfold block_end in *. lia.
      * intros x y Hx [->|[->|Hy]%elem_of_cons]%elem_of_cons; apply Hlm; first [done|lia|by apply Hlr].
    + intros z Hz. split; [intros H; split; intros; apply H; set_solver|]. intros [H1 H2] y Hy.
      apply elem_of_app in Hy as [Hy|Hy]; [apply H1; set_solver|]. apply elem_of_cons in Hy as [->|Hy]; [apply H1|apply H2]; set_solver.
Qed.

Lemma join_next_chain m new l2 mid rest t : join_next new l2 = (mid, rest) -> chain m l2 t -> chain m rest t.
Proof.
  destruct l2 as [|c l2]; cbn [join_next]; intros EJ HC; [by injection EJ as _ <-|].
  destruct (block_end new =? c.1); injection EJ as _ <-; [apply HC|done].
Qed.

Lemma ring_insert m m' fl l1 b l2 new mid rest :
  ring m fl -> (base, 0) :: fl = l1 ++ b :: l2 -> between b l2 new -> 1 <= new.2 -> join_next new l2 = (mid, rest) ->
  (forall a, a <> b.1 -> a <> new.1 -> m' a = m a) ->
  (if block_end b =? new.1 then m' b.1 = Header (head_addr rest base) (b.2 + mid.2)
   else m' b.1 = Header new.1 b.2 /\ m' new.1 = Header (head_addr rest base) mid.2) ->
  exists fl', (base, 0) :: fl' = l1 ++ join_prev b mid ++ rest /\ ring m' fl'.
Proof.
  intros [HC HS] E (B1 & B2 & B3) Hn EJ Hm Hb. rewrite E in HC, HS. apply chain_app in HC as [C1 [_ C2]].
  pose proof (sorted_split_nodup _ _ _ HS) as [N1 N2]. rewrite (cons_middle b) in HS. rewrite app_assoc in HS.
  apply sorted_app in HS as (S1 & S2 & S3).
  destruct (join_next_spec new l2 mid rest EJ S2 B3 Hn) as (M1 & M2 & M3 & M4 & _).
  destruct (join_prev_spec l1 b mid rest S1 M3) as [HS' _]; [lia|lia|lia|].
  assert (Hl1 : forall x, x ∈ l1 -> m' x.1 = m x.1).
  { intros x Hx. apply sorted_app in S1 as (S1 & _ & S4). specialize (S4 x b Hx ltac:(set_solver)).
    pose proof (sorted_size _ _ S1 Hx). unfold block_end in *. apply Hm; lia. }
  assert (Hrest : forall x, x ∈ rest -> m' x.1 = m x.1).
  { intros x Hx. apply M4 in Hx. specialize (B3 x Hx). unfold block_end in *. apply Hm; lia. }
  assert (HC' : chain m' (l1 ++ join_prev b mid ++ rest) base).
  { apply chain_app. split.
    - apply (chain_ext m); [done|]. unfold join_prev. by destruct (block_end b =? mid.1).
    - apply (join_next_chain m new l2 mid rest base EJ), (chain_ext m m' rest base Hrest) in C2.
      unfold join_prev. rewrite M1. destruct (block_end b =? new.1); cbn [app chain head_addr fst snd]; rewrite ?M1; tauto. }
  destruct l1 as [|x l1]; cbn [app] in *.
  - injection E as <- <-. unfold join_prev in *. replace (block_end (base, 0) =? mid.1) with false in *.
    + exists (mid :: rest). by split.
    + symmetry. apply Z.eqb_neq. unfold block_end. cbn in *. lia.
  - injection E as <- _. exists (l1 ++ join_prev b mid ++ rest). by split.
Qed.

(** ** The invariant *)

(** The free blocks [fl] and the blocks [al] the program holds. *)
Record heap (s : ustate) (fl al : list area) : Prop := {
  hp_ring : ring (um_mem s) fl;
  hp_freep : um_freep s ∈ base :: fl.*1;
  hp_size y : y ∈ fl ++ al -> 1 <= y.2;
  hp_range y : y ∈ fl ++ al -> base < y.1 /\ block_end y <= um_brk s;
  hp_held y : y ∈ al -> h_size (um_mem s y.1) = y.2;
  hp_apart x y : x ∈ fl -> y ∈ al -> apart x y;
  hp_disjoint i j x y : al !! i = Some x -> al !! j = Some y -> i <> j -> apart x y;
  hp_base : 0 < base < um_brk s;
  hp_brk : um_brk s <= 2 ^ 36
}.

(** A block that is apart from all others. *)
Record loose (s : ustate) (fl al : list area) (new : area) : Prop := {
  ls_size : 1 <= new.2;
  ls_range : base < new.1 /\ block_end new <= um_brk s;
  ls_head : h_size (um_mem s new.1) = new.2;
  ls_free y : y ∈ fl -> apart y new;
  ls_held y : y ∈ al -> apart y new
}.

(** The static header takes no room. *)
Lemma base_apart z : base < z.1 -> apart (base, 0) z.
Proof. intros H. left. unfold block_end. cbn. lia. Qed.

Lemma apart_with_base fl z : base < z.1 -> (forall y, y ∈ (base, 0) :: fl -> apart y z) <-> forall y, y ∈ fl -> apart y z.
Proof.
  intros Hz. split; [intros H y Hy; apply H; set_solver|]. intros H y [->|Hy]%elem_of_cons; [by apply base_apart|auto].
Qed.

(** The blocks of the new free list, one by one. *)
Lemma join_bounds fl fl' l1 b l2 new mid rest e :
  (base, 0) :: fl = l1 ++ b :: l2 -> (base, 0) :: fl' = l1 ++ join_prev b mid ++ rest -> sorted ((base, 0) :: fl') ->
  join_next new l2 = (mid, rest) -> mid.1 = new.1 -> 1 <= new.2 <= mid.2 -> (forall y, y ∈ rest -> y ∈ l2) -> block_end mid <= e ->
  0 <= b.2 -> base <= b.1 -> (forall y, y ∈ fl -> 1 <= y.2 /\ block_end y <= e) ->
  forall y, y ∈ fl' -> 1 <= y.2 /\ base < y.1 /\ block_end y <= e.
Proof.
  intros E E' (_ & HS & _) EJ M1 M2 M4 Hme Hb Hbb Hfl y Hy. rewrite Forall_forall in HS. specialize (HS y Hy) as Hlow. unfold block_end in Hlow. cbn in Hlow.
  assert (Hold : y ∈ l1 ++ b :: l2 -> 1 <= y.2 /\ block_end y <= e).
  { rewrite <- E. intros [->|Hin]%elem_of_cons; [cbn in Hlow; lia|by apply Hfl]. }
  assert (Hin : y ∈ l1 ++ join_prev b mid ++ rest) by (rewrite <- E'; set_solver).
  enough (1 <= y.2 /\ block_end y <= e) by (split_and!; [tauto|lia|tauto]).
  rewrite !elem_of_app in Hin. destruct Hin as [Hin|[Hin|Hin]]; [apply Hold; set_solver| |apply Hold; set_solver].
  unfold join_prev in Hin. destruct (Z.eqb_spec (block_end b) mid.1) as [Ej|Ej].
  - apply list_elem_of_singleton in Hin as ->. unfold block_end in *. cbn. lia.
  - apply elem_of_cons in Hin as [->|Hin]; [apply Hold; set_solver|]. apply list_elem_of_singleton in Hin as ->. lia.
Qed.

Lemma join_shape fl fl' l1 b l2 new mid rest :
  (base, 0) :: fl = l1 ++ b :: l2 -> (base, 0) :: fl' = l1 ++ join_prev b mid ++ rest -> join_next new l2 = (mid, rest) ->
  1 <= mid.2 -> 0 <= b.2 ->
  b.1 ∈ base :: fl'.*1 /\ (length fl' <= S (length fl))%nat /\ exists y, y ∈ fl' /\ mid.2 <= y.2.
Proof.
  intros E E' EJ Hm Hb. split_and!.
  - change (base :: fl'.*1) with (((base, 0) :: fl').*1). rewrite E', !fmap_app. unfold join_prev. destruct (block_end b =? mid.1); set_solver.
  - assert (length rest <= length l2)%nat.
    { destruct l2 as [|c l2]; cbn [join_next] in EJ; [by injection EJ as _ <-|].
      destruct (block_end new =? c.1); injection EJ as _ <-; cbn; lia. }
    apply (f_equal length) in E, E'. cbn [length] in E, E'. rewrite !length_app in E, E'. cbn [length] in E.
    unfold join_prev in E'. destruct (block_end b =? mid.1); cbn [app length] in E'; lia.
  - assert (exists y, y ∈ (base, 0) :: fl' /\ mid.2 <= y.2) as (y & Hy & Hmy).
    { rewrite E'. unfold join_prev. destruct (block_end b =? mid.1); [exists (b.1, b.2 + mid.2)|exists mid]; (split; [set_solver|cbn; lia]). }
    apply elem_of_cons in Hy as [->|Hy]; [cbn in Hmy; lia|eauto].
Qed.

Lemma free_block fuel s fl al new :
  heap s fl al -> loose s fl al new -> (length fl <= fuel)%nat ->
  exists s' fl', free fuel (new.1 + 16) s = Ok tt s' /\ heap s' fl' al /\ um_brk s' = um_brk s /\ (length fl' <= S (length fl))%nat /\
    (forall z, 1 <= z.2 -> base < z.1 -> (forall y, y ∈ fl' -> apart y z) <-> (forall y, y ∈ fl -> apart y z) /\ apart new z) /\
    exists y, y ∈ fl' /\ new.2 <= y.2.
Proof.
  intros HH [L1 L2 L3 L4 L5] Hfuel. destruct HH as [R1 R2 R3 R4 R5 R6 R7 R8 R9].
  assert (Hfl : forall y, y ∈ fl -> 1 <= y.2 /\ block_end y <= um_brk s) by (intros y Hy; split; [apply R3|apply R4]; set_solver).
  destruct (place_exists (base, 0) fl new) as (l1 & b & l2 & E & HB).
  { apply R1. } { cbn. lia. } { unfold block_end. cbn. lia. } { intros y Hy. split; [by apply Hfl|by apply L4]. } { done. }
  pose proof (ring_low _ _ b R1 ltac:(rewrite E; set_solver)) as Hlow. pose proof (proj2 R1) as HS. rewrite E in HS.
  assert (Hb0 : 0 <= b.2) by (apply (sorted_size _ _ HS); set_solver).
  pose proof HS as HS'. rewrite (cons_middle b), app_assoc in HS'. apply sorted_app in HS' as (S1 & S2 & _).
  destruct (join_next new l2) as [mid rest] eqn:EJ. pose proof HB as (B1 & B2 & B3).
  destruct (join_next_spec new l2 mid rest EJ S2 B3 L1) as (M1 & M2 & M3 & M4 & M5 & M6).
  assert (Hme : block_end mid <= um_brk s).
  { apply M6; [apply L2|]. intros y Hy. assert (Hy' : y ∈ (base, 0) :: fl) by (rewrite E; set_solver).
    apply elem_of_cons in Hy' as [->|Hy']; [unfold block_end; cbn; lia|by apply Hfl]. }
  pose proof (free_updates fuel s fl l1 b l2 new) as U. rewrite EJ in U.
  destruct U as (s' & Es & Ef & Eb & Em & Eh); try done; [unfold block_end in *; lia|unfold block_end in *; lia|by intros y Hy; apply (sorted_size _ _ S2)|].
  destruct (ring_insert _ _ _ _ _ _ _ _ _ R1 E HB L1 EJ Em Eh) as (fl' & E' & R').
  destruct (join_prev_spec l1 b mid rest S1 M3) as [_ J2]; [lia|lia|lia|].
  pose proof (join_bounds fl fl' l1 b l2 new mid rest (um_brk s) E E' (proj2 R') EJ M1 ltac:(lia) M4 Hme Hb0 Hlow Hfl) as Hnew.
  assert (Hiff : forall z, 1 <= z.2 -> base < z.1 -> (forall y, y ∈ fl' -> apart y z) <-> (forall y, y ∈ fl -> apart y z) /\ apart new z).
  { intros z Hz Hzb. rewrite <- (apart_with_base fl' z Hzb), <- (apart_with_base fl z Hzb), E, E', J2, M5 by done. set_solver. }
  destruct (join_shape fl fl' l1 b l2 new mid rest E E' EJ) as (F1 & F2 & y & F3 & F4); [lia|done|].
  exists s', fl'. refine (conj Es (conj _ (conj Eb (conj F2 (conj Hiff _))))); [|exists y; split; [done|lia]]. split.
  - exact R'.
  - by rewrite Ef.
  - intros x [Hx|Hx]%elem_of_app; [by apply Hnew|apply R3; set_solver].
  - intros x Hx. rewrite Eb. apply elem_of_app in Hx as [Hx|Hx]; [destruct (Hnew x Hx) as (_ & ? & ?); done|apply R4; set_solver].
  - intros x Hx. assert (Hxs : 1 <= x.2 /\ base < x.1) by (split; [apply R3|apply R4]; set_solver). specialize (L5 x Hx).
    rewrite Em, R5; [done|done| |unfold apart, block_end in L5; lia].
    assert (Hbb : b ∈ (base, 0) :: fl) by (rewrite E; set_solver). apply elem_of_cons in Hbb as [->|Hbf]; [cbn; lia|].
    specialize (R6 b x Hbf Hx). destruct (Hfl b Hbf). unfold apart, block_end in R6. lia.
  - intros x z Hx Hz. assert (1 <= z.2 /\ base < z.1) as [Hz1 Hz2] by (split; [apply R3|apply R4]; set_solver).
    revert x Hx. apply (Hiff z Hz1 Hz2). split; [intros x Hx; by apply R6|]. destruct (L5 z Hz); [right|left]; done.
  - exact R7.
  - by rewrite Eb.
  - by rewrite Eb.
Qed.

Lemma heap_drop s fl al1 al2 new : heap s fl (al1 ++ new :: al2) -> heap s fl (al1 ++ al2).
Proof.
  intros [R1 R2 R3 R4 R5 R6 R7 R8 R9]. split; try done.
  - intros y Hy. apply R3. set_solver.
  - intros y Hy. apply R4. set_solver.
  - intros y Hy. apply R5. set_solver.
  - intros x y Hx Hy. apply R6; set_solver.
  - intros i j x y Hi Hj Hne. set (f := fun i => if (i <? length al1)%nat then i else S i).
    assert (Hf : forall i x, (al1 ++ al2) !! i = Some x -> (al1 ++ new :: al2) !! f i = Some x).
    { clear. intros i x Hi. unfold f. destruct (Nat.ltb_spec i (length al1)).
      - rewrite lookup_app_l in Hi by done. by rewrite lookup_app_l.
      - rewrite lookup_app_r in Hi by done. rewrite lookup_app_r, Nat.sub_succ_l by lia. done. }
    apply (R7 (f i) (f j)); [by apply Hf|by apply Hf|]. unfold f. destruct (Nat.ltb_spec i (length al1)), (Nat.ltb_spec j (length al1)); lia.
Qed.

Lemma heap_loose s fl al1 al2 new : heap s fl (al1 ++ new :: al2) -> loose s fl (al1 ++ al2) new.
Proof.
  intros [R1 R2 R3 R4 R5 R6 R7 R8 R9]. split; [apply R3; set_solver|apply R4; set_solver|apply R5; set_solver|intros y Hy; apply R6; set_solver|].
  assert (Hn : (al1 ++ new :: al2) !! length al1 = Some new) by (by rewrite lookup_app_r, Nat.sub_diag by lia).
  intros y [Hy|Hy]%elem_of_app; apply list_elem_of_lookup in Hy as [i Hi].
  - apply (R7 i (length al1)); [by apply lookup_app_l_Some|done|]. apply lookup_lt_Some in Hi. lia.
  - apply (R7 (length al1 + S i)%nat (length al1)); [|done|lia]. rewrite lookup_app_r by lia. by replace (length al1 + S i - length al1)%nat with (S i) by lia.
Qed.

(** C20: free() of a block the program holds returns, takes the block from the blocks held, and
    keeps the allocator's invariant: the free list stays a sorted ring without touching blocks,
    disjoint from every block still held.  The free memory grows by exactly the block. *)
Theorem free_keeps_heap fuel s fl al1 al2 new :
  heap s fl (al1 ++ new :: al2) -> (length fl <= fuel)%nat ->
  exists s' fl', free fuel (new.1 + 16) s = Ok tt s' /\ heap s' fl' (al1 ++ al2) /\
    forall z, 1 <= z.2 -> base < z.1 -> (forall y, y ∈ fl' -> apart y z) <-> (forall y, y ∈ fl -> apart y z) /\ apart new z.
Proof.
  intros HH Hfuel. destruct (free_block fuel s fl (al1 ++ al2) new) as (s' & fl' & Es & H' & _ & _ & Hiff & _); [by eapply heap_drop|by eapply heap_loose|done|].
  by exists s', fl'.
Qed.

(** ** malloc() *)

(** The block before [y] in the ring is the one that points to it. *)
Lemma ring_before m fl l1 y l2 q :
  ring m fl -> (base, 0) :: fl = l1 ++ y :: l2 -> y.1 <> base -> q ∈ base :: fl.*1 -> h_ptr (m q) = y.1 ->
  exists k b, l1 = k ++ [b] /\ b.1 = q.
Proof.
  intros HR E Hy Hq Hp. change (base :: fl.*1) with (((base, 0) :: fl).*1) in Hq.
  apply list_elem_of_fmap in Hq as (x & -> & Hx). apply list_elem_of_split in Hx as (k1 & k2 & Ek).
  rewrite (ring_ptr _ _ _ _ _ HR Ek) in Hp. cbn [h_ptr] in Hp. destruct k2 as [|z k2]; [done|]. cbn [head_addr] in Hp.
  rewrite (cons_middle x), app_assoc in Ek. pose proof (proj2 HR) as HS. rewrite E in HS, Ek.
  destruct (sorted_same_split _ _ _ _ _ _ HS Ek) as (-> & _); [done|]. by exists k1, x.
Qed.

Lemma heap_store_out s fl al a h b :
  heap s fl al -> (a ∉ base :: fl.*1) -> (forall y, y ∈ al -> y.1 <> a) -> um_brk s <= b <= 2 ^ 36 ->
  heap (Ustate (store a h (um_mem s)) (um_freep s) b) fl al.
Proof.
  intros [R1 R2 R3 R4 R5 R6 R7 R8 R9] Ha Hal Hb. change (base :: fl.*1) with (((base, 0) :: fl).*1) in Ha. split; cbn [um_mem um_freep um_brk]; try done.
  - destruct R1 as [C S]. split; [|done]. apply (chain_ext (um_mem s)); [|done]. intros y Hy. apply store_ne. intros <-. apply Ha.
    apply list_elem_of_fmap. eauto.
  - intros y Hy. specialize (R4 y Hy). lia.
  - intros y Hy. rewrite store_ne; [by apply R5|by apply Hal].
  - lia.
  - lia.
Qed.

(** Taking a whole block off the list. *)
Lemma ring_remove m m' fl k b y l2 :
  ring m fl -> (base, 0) :: fl = k ++ b :: y :: l2 -> (forall a, a <> b.1 -> m' a = m a) ->
  m' b.1 = Header (head_addr l2 base) b.2 -> exists fl', (base, 0) :: fl' = k ++ b :: l2 /\ ring m' fl'.
Proof.
  intros [HC HS] E Hm Hb. rewrite E in HC, HS. pose proof (sorted_split_nodup _ _ _ HS) as [N1 N2].
  apply chain_app in HC as [C1 (_ & _ & C2)].
  assert (HS' : sorted (k ++ b :: l2)).
  { apply sorted_app in HS as (S1 & (S2 & S3 & _ & S4 & S5) & S6). apply sorted_app. refine (conj S1 (conj _ _)).
    - cbn [sorted]. split_and!; [done| |done]. rewrite Forall_cons in S3. by destruct S3.
    - intros x z Hx Hz. apply S6; [done|set_solver]. }
  assert (HC' : chain m' (k ++ b :: l2) base).
  { apply chain_app. split; [|split; [done|]]; (eapply chain_ext; [|eassumption]).
    - intros x Hx. apply Hm. intros Ex. apply N1. rewrite <- Ex. apply list_elem_of_fmap. eauto.
    - intros x Hx. apply Hm. intros Ex. apply N2. rewrite <- Ex. apply list_elem_of_fmap. exists x. set_solver. }
  destruct k as [|x k]; injection E as <- _; [by exists l2|by exists (k ++ b :: l2)].
Qed.

(** Taking the end of a block. *)
Lemma ring_shrink m m' fl l1 y l2 n :
  ring m fl -> (base, 0) :: fl = l1 ++ y :: l2 -> y.1 <> base -> 1 <= n < y.2 ->
  (forall a, a ∈ base :: fl.*1 -> a <> y.1 -> m' a = m a) -> m' y.1 = Header (h_ptr (m y.1)) (y.2 - n) ->
  exists fl', (base, 0) :: fl' = l1 ++ (y.1, y.2 - n) :: l2 /\ ring m' fl'.
Proof.
  intros HR E Hyb Hn Hm Hy. change (base :: fl.*1) with (((base, 0) :: fl).*1) in Hm. rewrite E in Hm.
  pose proof (ring_ptr _ _ _ _ _ HR E) as Ey. destruct HR as [HC HS]. rewrite E in HC, HS. pose proof (sorted_split_nodup _ _ _ HS) as [N1 N2].
  apply chain_app in HC as [C1 (_ & C2)].
  assert (HS' : sorted (l1 ++ (y.1, y.2 - n) :: l2)).
  { apply sorted_app in HS as (S1 & (S2 & S3 & S4) & S6). apply sorted_app. refine (conj S1 (conj _ _)).
    - cbn [sorted fst snd]. split_and!; [lia| |done]. eapply Forall_impl; [exact S3|]. intros z Hz. unfold block_end in *. cbn. lia.
    - intros x z Hx [->|Hz]%elem_of_cons; [apply (S6 x y Hx); set_solver|apply S6; [done|set_solver]]. }
  assert (Hin : forall x, x ∈ l1 ++ l2 -> m' x.1 = m x.1).
  { intros x Hx. apply Hm; [apply list_elem_of_fmap; exists x; set_solver|]. intros Ex. apply elem_of_app in Hx as [Hx|Hx].
    - apply N1. rewrite <- Ex. apply list_elem_of_fmap. eauto.
    - apply N2. rewrite <- Ex. apply list_elem_of_fmap. eauto. }
  assert (HC' : chain m' (l1 ++ (y.1, y.2 - n) :: l2) base).
  { apply chain_app. split; [|split].
    - eapply chain_ext; [|exact C1]. intros; apply Hin; set_solver.
    - cbn [fst snd]. by rewrite Hy, Ey.
    - eapply chain_ext; [|exact C2]. intros; apply Hin; set_solver. }
  destruct l1 as [|x l1]; injection E as Ex _; [by rewrite <- Ex in Hyb|]. subst x. by exists (l1 ++ (y.1, y.2 - n) :: l2).
Qed.

Definition inside (x y : area) : Prop := y.1 <= x.1 /\ block_end x <= block_end y.

Lemma inside_apart x y z : inside x y -> apart y z -> apart x z.
Proof. unfold inside, apart. intros [? ?] [?|?]; [left|right]; lia. Qed.

Lemma apart_sym x y : apart x y -> apart y x.
Proof. unfold apart. tauto. Qed.

(** A part [new] of a free block becomes a block held. *)
Lemma heap_taken s s' fl fl' al y new :
  heap s fl al -> y ∈ fl -> inside new y -> 1 <= new.2 -> ring (um_mem s') fl' -> um_freep s' ∈ base :: fl'.*1 -> um_brk s' = um_brk s ->
  (forall x, x ∈ fl' -> 1 <= x.2 /\ (exists x0, x0 ∈ fl /\ inside x x0) /\ apart x new) -> h_size (um_mem s' new.1) = new.2 ->
  (forall z, z ∈ al -> h_size (um_mem s' z.1) = h_size (um_mem s z.1)) -> heap s' fl' (new :: al).
Proof.
  intros [R1 R2 R3 R4 R5 R6 R7 R8 R9] Hy Hq Hn HR Hf Hb Hfl' Hsz Hal.
  assert (Hry : base < y.1 /\ block_end y <= um_brk s) by (apply R4; set_solver).
  assert (Hna : forall z, z ∈ al -> apart new z) by (intros z Hz; eapply inside_apart; [exact Hq|by apply R6]).
  split; rewrite ?Hb; try done.
  - intros x Hx. rewrite elem_of_app, elem_of_cons in Hx. destruct Hx as [Hx|[->|Hx]]; [by apply Hfl'|done|apply R3; set_solver].
  - intros x Hx. rewrite elem_of_app, elem_of_cons in Hx. destruct Hx as [Hx|[->|Hx]]; [|unfold inside in Hq; lia|apply R4; set_solver].
    destruct (Hfl' x Hx) as (_ & (x0 & Hx0 & Hi) & _). assert (base < x0.1 /\ block_end x0 <= um_brk s) by (apply R4; set_solver). unfold inside in Hi. lia.
  - intros x [->|Hx]%elem_of_cons; [done|]. rewrite Hal by done. by apply R5.
  - intros x z Hx [->|Hz]%elem_of_cons; [by apply Hfl'|]. destruct (Hfl' x Hx) as (_ & (x0 & Hx0 & Hi) & _). eapply inside_apart; [exact Hi|by apply R6].
  - intros [|i] [|j] x z Hi Hj Hne; cbn in Hi, Hj; try done.
    + injection Hi as <-. apply Hna. by eapply list_elem_of_lookup_2.
    + injection Hj as <-. apply apart_sym, Hna. by eapply list_elem_of_lookup_2.
    + apply (R7 i j); [done|done|lia].
Qed.

(** Two blocks of the list, by their place. *)
Lemma sorted_places l1 y l2 x : sorted (l1 ++ y :: l2) -> x ∈ l1 ++ l2 -> block_end x < y.1 \/ block_end y < x.1.
Proof.
  intros HS Hx. apply sorted_app in HS as (_ & (_ & H2 & _) & H3). rewrite Forall_forall in H2.
  apply elem_of_app in Hx as [Hx|Hx]; [left; apply H3; [done|set_solver]|right; by apply H2].
Qed.

(** The blocks held are not on the list. *)
Lemma held_off_list s fl al x z : heap s fl al -> z ∈ al -> x ∈ (base, 0) :: fl -> z.1 <> x.1.
Proof.
  intros HH Hz [->|Hx]%elem_of_cons; [pose proof (hp_range _ _ _ HH z ltac:(set_solver)); cbn; lia|].
  pose proof (hp_apart _ _ _ HH x z Hx Hz). pose proof (hp_size _ _ _ HH x ltac:(set_solver)). pose proof (hp_size _ _ _ HH z ltac:(set_solver)).
  unfold apart, block_end in *. lia.
Qed.

Lemma list_not_base fl l x : (base, 0) :: fl = l -> x ∈ l -> x.1 <> base -> x ∈ fl.
Proof. intros <- [->|]%elem_of_cons ?; done. Qed.

Lemma ring_above m fl x : ring m fl -> x ∈ fl -> x.1 <> base.
Proof. intros [_ (_ & HF & _)] Hx. rewrite Forall_forall in HF. specialize (HF x Hx). unfold block_end in HF. cbn in HF. lia. Qed.

Lemma take_whole s fl al l1 y l2 prevp :
  heap s fl al -> (base, 0) :: fl = l1 ++ y :: l2 -> y.1 <> base -> prevp ∈ base :: fl.*1 -> h_ptr (um_mem s prevp) = y.1 ->
  exists s' fl', take y.2 prevp y.1 s = Ok (y.1 + 16) s' /\ heap s' fl' (y :: al).
Proof.
  intros HH E Hyb Hp Hpy. pose proof (hp_ring _ _ _ HH) as HR. pose proof (proj2 HR) as HS. rewrite E in HS.
  pose proof (list_not_base _ _ y E ltac:(set_solver) Hyb) as Hyf. pose proof (ring_ptr _ _ _ _ _ HR E) as Ey.
  destruct (ring_before _ _ _ _ _ _ HR E Hyb Hp Hpy) as (k & b & -> & <-). rewrite <- app_assoc in E. cbn [app] in E.
  pose proof (ring_ptr _ _ _ _ _ HR E) as Eb.
  assert (Hby : y.1 <> b.1) by (intros Eyb; destruct (sorted_split_nodup _ _ _ HS) as [N _]; apply N; rewrite Eyb, fmap_app; set_solver).
  unfold take, size, ptr, set_ptr, set_size, set_freep. mrun. rewrite Ey. cbn [h_size]. rewrite Z.eqb_refl. mrun. rewrite Ey, Eb. cbn [h_ptr h_size].
  set (m' := store b.1 _ (um_mem s)).
  destruct (ring_remove (um_mem s) m' fl k b y l2 HR E) as (fl' & E' & HR'); [intros a Ha; by apply store_ne|by unfold m'; rewrite store_eq|].
  exists (Ustate m' b.1 (um_brk s)), fl'. split; [done|].
  apply (heap_taken s _ fl fl' al y); cbn [um_mem um_freep um_brk]; try done; [apply (hp_size _ _ _ HH); set_solver| | | |].
  - change (base :: fl'.*1) with (((base, 0) :: fl').*1). rewrite E', fmap_app. set_solver.
  - intros x Hx. assert (Hxl : x ∈ (k ++ [b]) ++ l2) by (rewrite <- app_assoc; cbn [app]; rewrite <- E'; set_solver).
    pose proof (list_not_base _ _ x E ltac:(set_solver) (ring_above _ _ _ HR' Hx)) as Hxf.
    split_and!; [apply (hp_size _ _ _ HH); set_solver|exists x; by split|].
    unfold apart. destruct (sorted_places _ _ _ _ HS Hxl) as [?|Hlt]; [left; lia|right; lia].
  - unfold m'. by rewrite store_ne, Ey.
  - intros z Hz. unfold m'. rewrite store_ne; [done|]. apply (held_off_list _ _ _ b z HH Hz). rewrite E. set_solver.
Qed.

Lemma take_part s fl al l1 y l2 n prevp :
  heap s fl al -> (base, 0) :: fl = l1 ++ y :: l2 -> y.1 <> base -> 1 <= n < y.2 -> prevp ∈ base :: fl.*1 ->
  let q := y.1 + 16 * (y.2 - n) in
  exists s' fl', take n prevp y.1 s = Ok (q + 16) s' /\ heap s' fl' ((q, n) :: al).
Proof.
  intros HH E Hyb Hn Hp q. pose proof (hp_ring _ _ _ HH) as HR. pose proof (proj2 HR) as HS. rewrite E in HS.
  pose proof (list_not_base _ _ y E ltac:(set_solver) Hyb) as Hyf. pose proof (ring_ptr _ _ _ _ _ HR E) as Ey.
  pose proof (hp_range _ _ _ HH y ltac:(set_solver)) as Hyr.
  unfold take, size, ptr, set_ptr, set_size, set_freep. mrun. rewrite Ey. cbn [h_size h_ptr]. rewrite (proj2 (Z.eqb_neq y.2 n)) by lia. mrun. fold q.
  cbn [um_mem um_freep um_brk]. rewrite Ey. cbn [h_ptr]. set (m1 := store y.1 _ (um_mem s)). set (m' := store q _ m1).
  assert (Hq : forall x, x ∈ l1 ++ l2 -> x.1 <> q).
  { intros x Hx Exq. assert (Hx0 : 0 <= x.2) by (apply (sorted_size _ _ HS); set_solver).
    destruct (sorted_places _ _ _ _ HS Hx); unfold block_end, q in *; lia. }
  assert (Hm' : forall a, a <> y.1 -> a <> q -> m' a = um_mem s a) by (intros a H1 H2; unfold m', m1; by rewrite !store_ne).
  destruct (ring_shrink (um_mem s) m' fl l1 y l2 n HR E Hyb Hn) as (fl' & E' & HR').
  { intros a Ha Hay. change (base :: fl.*1) with (((base, 0) :: fl).*1) in Ha. apply list_elem_of_fmap in Ha as (x & -> & Hx).
    apply Hm'; [done|]. apply Hq. rewrite E in Hx. set_unfold. destruct Hx as [?|[->|?]]; [tauto|done|tauto]. }
  { unfold m', m1. rewrite store_ne, store_eq, Ey by (unfold q; lia). done. }
  exists (Ustate m' prevp (um_brk s)), fl'. split; [done|].
  apply (heap_taken s _ fl fl' al y); cbn [um_mem um_freep um_brk fst snd]; try done; [unfold inside, block_end, q; cbn; lia|lia| | | |].
  - change (base :: fl'.*1) with (((base, 0) :: fl').*1). change (base :: fl.*1) with (((base, 0) :: fl).*1) in Hp.
    rewrite E', fmap_app. rewrite E, fmap_app in Hp. exact Hp.
  - intros x Hx. pose proof (ring_above _ _ _ HR' Hx) as Hxb.
    assert (Hxl : x ∈ l1 ++ (y.1, y.2 - n) :: l2) by (rewrite <- E'; set_solver).
    destruct (decide (x = (y.1, y.2 - n))) as [->|Hne].
    + split_and!; [cbn; lia|exists y; split; [done|unfold inside, block_end; cbn; lia]|left; unfold block_end, q; cbn; lia].
    + assert (Hxo : x ∈ l1 ++ l2) by set_solver. pose proof (list_not_base _ _ x E ltac:(set_solver) Hxb) as Hxf.
      split_and!; [apply (hp_size _ _ _ HH); set_solver|exists x; by split|].
      unfold apart. destruct (sorted_places _ _ _ _ HS Hxo) as [?|?]; [left|right]; unfold block_end, q in *; cbn; lia.
  - unfold m'. by rewrite store_eq.
  - intros z Hz. rewrite Hm'; [done| |].
    + apply (held_off_list _ _ _ y z HH Hz). rewrite E. set_solver.
    + pose proof (hp_apart _ _ _ HH y z Hyf Hz) as Ha. pose proof (hp_size _ _ _ HH z ltac:(set_solver)). unfold apart, block_end, q in *. lia.
Qed.

(** The last of the blocks passed by. *)
Definition last_addr (prevp : Z) (l : list area) : Z := default prevp (last l.*1).

Lemma last_addr_cons prevp b l : last_addr prevp (b :: l) = last_addr b.1 l.
Proof. unfold last_addr. cbn [fmap list_fmap]. rewrite last_cons. by destruct (last l.*1). Qed.

(** Blocks that are too small, before the walk is back at freep. *)
Lemma malloc_walk fuel nunits s prevp l r t :
  chain (um_mem s) (l ++ r) t -> Forall (fun b => b.2 < nunits /\ b.1 <> um_freep s) l ->
  malloc_loop (length l + fuel) nunits prevp (head_addr (l ++ r) t) s = malloc_loop fuel nunits (last_addr prevp l) (head_addr r t) s.
Proof.
  revert prevp. induction l as [|b l IH]; intros prevp HC HF; [done|]. cbn [app chain] in HC. destruct HC as [Eb HC].
  apply Forall_cons in HF as [[Hb1 Hb2] HF]. cbn [length Nat.add malloc_loop app head_addr]. unfold size, ptr. mrun. rewrite Eb. cbn [h_size h_ptr].
  rewrite Z.geb_leb, (proj2 (Z.leb_gt nunits b.2)) by done. mrun. rewrite (proj2 (Z.eqb_neq b.1 (um_freep s))) by done. mrun. rewrite Eb. cbn [h_ptr].
  rewrite IH by done. by rewrite last_addr_cons.
Qed.

Lemma last_addr_in prevp l : last_addr prevp l ∈ prevp :: l.*1.
Proof. unfold last_addr. destruct (last l.*1) as [a|] eqn:E; cbn; [|set_solver]. right. by apply last_Some_elem_of. Qed.

Lemma chain_last m prevp l r t :
  h_ptr (m prevp) = head_addr (l ++ r) t -> chain m (l ++ r) t -> h_ptr (m (last_addr prevp l)) = head_addr r t.
Proof.
  revert prevp. induction l as [|b l IH]; intros prevp Hp HC; [done|]. destruct HC as [Eb HC]. rewrite last_addr_cons. apply IH; [by rewrite Eb|done].
Qed.

Lemma first_big (n : Z) (l : list area) :
  Forall (fun b => b.2 < n) l \/ exists l1 y l2, l = l1 ++ y :: l2 /\ Forall (fun b => b.2 < n) l1 /\ n <= y.2.
Proof.
  induction l as [|b l IH]; [by left; apply Forall_nil_2|]. destruct (Z.lt_ge_cases b.2 n) as [Hb|Hb].
  - destruct IH as [IH|(l1 & y & l2 & -> & H1 & H2)]; [left; by constructor|right; exists (b :: l1), y, l2]. split_and!; [done|by constructor|done].
  - right. exists [], b, l. split_and!; [done|apply Forall_nil_2|done].
Qed.

(** A search from freep either finds a block, and knows the one before it, or asks for memory. *)
Lemma malloc_search fuel nunits s fl al :
  heap s fl al -> 1 <= nunits -> (S (length fl) < fuel)%nat ->
  let go := malloc_loop fuel nunits (um_freep s) (h_ptr (um_mem s (um_freep s))) s in
  (exists y prevp, y ∈ fl /\ nunits <= y.2 /\ prevp ∈ base :: fl.*1 /\ h_ptr (um_mem s prevp) = y.1 /\ go = take nunits prevp y.1 s) \/
  ((forall y, y ∈ fl -> y.2 < nunits) /\ exists fuel', (fuel = fuel' + S (length fl))%nat /\
    go = (q <- morecore fuel' nunits ;; if q =? 0 then retM 0 else next <- ptr q ;; malloc_loop fuel' nunits q next) s).
Proof.
  intros HH Hn Hfuel go. pose proof (hp_ring _ _ _ HH) as HR. pose proof (hp_freep _ _ _ HH) as Hf.
  change (base :: fl.*1) with (((base, 0) :: fl).*1) in Hf. apply list_elem_of_fmap in Hf as (x & Ex & Hx).
  apply list_elem_of_split in Hx as (k1 & k2 & Ek). pose proof (ring_rotate _ _ _ _ _ HR Ek) as [Eh HC].
  assert (Hlen : length fl = length (k2 ++ k1)).
  { apply (f_equal length) in Ek. rewrite length_app in Ek |- *. cbn [length] in Ek. lia. }
  assert (Hnf : forall b, b ∈ k2 ++ k1 -> b.1 <> um_freep s).
  { intros b Hb Eb. pose proof (proj2 HR) as HS. rewrite Ek in HS. destruct (sorted_split_nodup _ _ _ HS) as [N1 N2].
    rewrite <- Ex, <- Eb in N1, N2. apply elem_of_app in Hb as [Hb|Hb]; [apply N2|apply N1]; apply list_elem_of_fmap; eauto. }
  assert (Hin : forall b, b ∈ k2 ++ k1 -> b ∈ (base, 0) :: fl) by (intros b Hb; rewrite Ek; set_solver).
  assert (Hbig : forall y, y ∈ (base, 0) :: fl -> nunits <= y.2 -> y ∈ fl) by (intros y [->|Hy]%elem_of_cons Hy2; [cbn in Hy2; lia|done]).
  assert (Hp : h_ptr (um_mem s (um_freep s)) = head_addr (k2 ++ k1) x.1) by (by rewrite Ex, Eh).
  assert (Haddr : forall l, (forall b, b ∈ l -> b ∈ (base, 0) :: fl) -> last_addr (um_freep s) l ∈ base :: fl.*1).
  { intros l Hl. pose proof (last_addr_in (um_freep s) l) as [->|Hi]%elem_of_cons; [apply (hp_freep _ _ _ HH)|].
    change (base :: fl.*1) with (((base, 0) :: fl).*1). apply list_elem_of_fmap in Hi as (b & -> & Hb). apply list_elem_of_fmap. eauto. }
  unfold go. destruct (first_big nunits (k2 ++ k1)) as [Hall|(l1 & y & l2 & El & Hl1 & Hy)].
  - assert (Hw : go = malloc_loop (fuel - length (k2 ++ k1)) nunits (last_addr (um_freep s) (k2 ++ k1)) x.1 s).
    { unfold go. rewrite Hp, <- (app_nil_r (k2 ++ k1)) at 1. replace fuel with (length (k2 ++ k1) + (fuel - length (k2 ++ k1)))%nat at 1 by lia.
      apply malloc_walk; [by rewrite app_nil_r|]. rewrite Forall_forall in *. auto. }
    fold go. rewrite Hw. destruct (fuel - length (k2 ++ k1))%nat as [|fuel'] eqn:Ef; [lia|]. cbn [malloc_loop]. unfold size at 1. mrun. rewrite Eh. cbn [h_size].
    rewrite Z.geb_leb. destruct (Z.leb_spec nunits x.2) as [Hx2|Hx2].
    + left. exists x, (last_addr (um_freep s) (k2 ++ k1)). split_and!; [apply Hbig; [rewrite Ek; set_solver|done]|done|by apply Haddr| |done].
      rewrite <- (app_nil_r (k2 ++ k1)) in Hp, HC. exact (chain_last _ _ _ _ _ Hp HC).
    + right. split.
      * intros y Hy. assert (Hyl : y ∈ (base, 0) :: fl) by set_solver. rewrite Ek in Hyl. rewrite Forall_forall in Hall.
        set_unfold. destruct Hyl as [?|[->|?]]; [apply Hall; tauto|done|apply Hall; tauto].
      * exists fuel'. split; [lia|]. unfold size at 1. mrun. rewrite Eh. cbn [h_size]. rewrite Z.geb_leb, (proj2 (Z.leb_gt nunits x.2)) by done.
        mrun. by rewrite Ex, Z.eqb_refl.
  - left. rewrite El in Hp, HC. exists y, (last_addr (um_freep s) l1).
    split_and!; [apply Hbig; [apply Hin; rewrite El; set_solver|done]|done|apply Haddr; intros; apply Hin; rewrite El; set_solver| |].
    + exact (chain_last _ _ _ _ _ Hp HC).
    + rewrite Hp. assert (Hl : (length l1 < fuel)%nat) by (rewrite Hlen, El, length_app in Hfuel; cbn in Hfuel; lia).
      replace fuel with (length l1 + (fuel - length l1))%nat by lia. rewrite malloc_walk; [|done|].
      * destruct (fuel - length l1)%nat as [|f] eqn:Ef; [lia|]. cbn [malloc_loop head_addr]. unfold size at 1. mrun.
        apply chain_app in HC as [_ [Ey _]]. rewrite Ey. cbn [h_size]. by rewrite Z.geb_leb, (proj2 (Z.leb_le nunits y.2)).
      * rewrite Forall_forall in *. intros b Hb. split; [by apply Hl1|]. apply Hnf. rewrite El. set_solver.
Qed.

Lemma heap_freep s fl al : heap s fl al -> um_freep s <> 0.
Proof.
  intros HH. pose proof (hp_base _ _ _ HH). pose proof (hp_freep _ _ _ HH) as [->|Hf]%elem_of_cons; [lia|].
  apply list_elem_of_fmap in Hf as (x & -> & Hx). pose proof (hp_range _ _ _ HH x ltac:(set_solver)). lia.
Qed.

Lemma take_found s fl al y n prevp :
  heap s fl al -> y ∈ fl -> 1 <= n <= y.2 -> prevp ∈ base :: fl.*1 -> h_ptr (um_mem s prevp) = y.1 ->
  exists r s' fl', take n prevp y.1 s = Ok r s' /\ r <> 0 /\ heap s' fl' ((r - 16, n) :: al).
Proof.
  intros HH Hy Hn Hp Hpy. pose proof (ring_above _ _ _ (hp_ring _ _ _ HH) Hy) as Hyb.
  assert (Hyl : y ∈ (base, 0) :: fl) by set_solver. apply list_elem_of_split in Hyl as (l1 & l2 & E).
  pose proof (hp_range _ _ _ HH y ltac:(set_solver)). pose proof (hp_base _ _ _ HH). destruct (Z.eq_dec n y.2) as [->|Hne].
  - destruct (take_whole s fl al l1 y l2 prevp HH E Hyb Hp Hpy) as (s' & fl' & Es & H'). exists (y.1 + 16), s', fl'.
    split_and!; [done|lia|]. replace (y.1 + 16 - 16, y.2) with y; [done|]. destruct y as [y1 y2]. cbn. f_equal. lia.
  - destruct (take_part s fl al l1 y l2 n prevp HH E Hyb ltac:(lia) Hp) as (s' & fl' & Es & H').
    eexists _, s', fl'. split; [exact Es|]. split; [lia|]. by replace (y.1 + 16 * (y.2 - n) + 16 - 16) with (y.1 + 16 * (y.2 - n)) by lia.
Qed.

(** The units malloc() asks the kernel for. *)
Definition more_units (n : Z) : Z := Z.max 4096 n.

(** If sbrk() gives [k] bytes to a process that ends at [b], its memory still ends within the range
    of sizes: a size is a uint and counts 16 bytes. *)
Definition in_range (b k : Z) : Prop := sbrk_ok b k = true -> b + k <= 2 ^ 36.

Lemma morecore_run fuel s fl al n :
  heap s fl al -> 1 <= n -> 16 * more_units n < 2 ^ 31 -> in_range (um_brk s) (16 * more_units n) -> (length fl <= fuel)%nat ->
  if sbrk_ok (um_brk s) (16 * more_units n) then
    exists s' fl', morecore fuel n s = Ok (um_freep s') s' /\ heap s' fl' al /\ (length fl' <= S (length fl))%nat /\ exists y, y ∈ fl' /\ n <= y.2
  else morecore fuel n s = Ok 0 s.
Proof.
  intros HH Hn Hm Hlimit Hfuel. unfold morecore. replace (if n <? 4096 then 4096 else n) with (more_units n) by (unfold more_units; destruct (Z.ltb_spec n 4096); lia).
  set (nu := more_units n) in *. assert (Hnu : 1 <= nu /\ n <= nu) by (unfold nu, more_units; lia).
  rewrite s32_small by lia. rewrite (Z.mul_comm nu 16). unfold sbrk. unfold bindM at 1. rewrite (proj2 (Z.ltb_ge (16 * nu) 0)) by lia.
  destruct (sbrk_ok (um_brk s) (16 * nu)) eqn:Eok; [|unfold bindM; by rewrite Eok]. pose proof (Hlimit Eok) as Hl. pose proof (hp_base _ _ _ HH) as Hb.
  rewrite (proj2 (Z.eqb_neq (um_brk s) (-1))) by lia. unfold set_size at 1. mrun. cbn [um_mem um_freep um_brk].
  set (s1 := Ustate (store _ _ _) _ _).
  assert (Hend : forall y, y ∈ fl ++ al -> y.1 < um_brk s /\ block_end y <= um_brk s).
  { intros y Hy. pose proof (hp_range _ _ _ HH y Hy). pose proof (hp_size _ _ _ HH y Hy). unfold block_end in *. lia. }
  assert (H1 : heap s1 fl al).
  { apply heap_store_out; [done| |intros y Hy; destruct (Hend y ltac:(set_solver)); lia|lia].
    intros [E|Hin]%elem_of_cons; [lia|]. apply list_elem_of_fmap in Hin as (y & E & Hy). destruct (Hend y ltac:(set_solver)). lia. }
  destruct (free_block fuel s1 fl al (um_brk s, nu) H1) as (s' & fl' & Es & H' & _ & Hlen & _ & y & Hy & Hyn); [|done|].
  - split; cbn [fst snd]; [lia|unfold block_end; cbn; lia|unfold s1; cbn; by rewrite store_eq| |].
    + intros y Hy. left. apply Hend. set_solver.
    + intros y Hy. left. apply Hend. set_solver.
  - exists s', fl'. cbn [fst] in Es. rewrite (bind_ok _ _ _ _ _ Es). split_and!; [done|done|done|]. exists y. split; [done|]. cbn in Hyn. lia.
Qed.

(** A program that has not called malloc() yet, or the allocator at work. *)
Definition allocator (s : ustate) (fl al : list area) : Prop :=
  heap s fl al \/ (um_freep s = 0 /\ fl = [] /\ al = [] /\ 0 < base < um_brk s /\ um_brk s <= 2 ^ 36).

(** The first call makes the ring of the static header alone. *)
Lemma heap_init m b : 0 < base < b -> b <= 2 ^ 36 -> m base = Header base 0 -> heap (Ustate m base b) [] [].
Proof.
  intros Hb1 Hb2 Hm. split; cbn [um_mem um_freep um_brk]; try done; try (by intros y Hy%elem_of_nil); try (by intros x y Hy%elem_of_nil).
  apply list_elem_of_here.
Qed.

(** C19: malloc() returns, with 0 or with the address of a block large enough for the request; the
    block is apart from every block the program holds already and from the free list, whose
    invariant is kept, and free() will know its size.  It returns 0, and keeps the heap as it is,
    only when no free block is large enough and the kernel refuses to give more memory.  The
    request is at most 2^31 - 32 bytes, because sbrk() takes an int: of a larger one the process
    does not get the memory malloc() returns.  And the process stays within 2^36 bytes, the range
    of a uint of 16-byte units; the kernel's own limit, TRAPFRAME, is higher, but every page that
    sbrk() adds takes one of the 128 MB of the machine.  [fuel] only bounds the walks along the
    free list. *)
Theorem malloc_keeps_heap fuel s fl al nbytes :
  let n := (nbytes + 15) / 16 + 1 in
  allocator s fl al -> 0 <= nbytes <= 2 ^ 31 - 32 -> in_range (um_brk s) (16 * more_units n) -> (2 * length fl + 4 <= fuel)%nat ->
  exists r s' fl', malloc fuel nbytes s = Ok r s' /\
    if r =? 0 then heap s' fl al /\ (forall y, y ∈ fl -> y.2 < n) /\ sbrk_ok (um_brk s) (16 * more_units n) = false
    else nbytes <= 16 * (n - 1) /\ heap s' fl' ((r - 16, n) :: al).
Proof.
  intros n HA Hb Hlimit Hfuel. assert (Hn : 1 <= n /\ nbytes <= 16 * (n - 1) /\ 16 * more_units n < 2 ^ 31) by (unfold n, more_units; dlia).
  destruct Hn as (Hn1 & Hn2 & Hn3).
  assert (exists s0, heap s0 fl al /\ um_brk s0 = um_brk s /\
    malloc fuel nbytes s = malloc_loop fuel n (um_freep s0) (h_ptr (um_mem s0 (um_freep s0))) s0) as (s0 & HH & Ebrk & ->).
  { unfold malloc. replace (u32 ((nbytes + 16 - 1) / 16 + 1)) with n by (unfold n; replace (nbytes + 16 - 1) with (nbytes + 15) by lia; rewrite u32_small by dlia; done).
    mrun. destruct HA as [HH|(Ef & -> & -> & B1 & B2)].
    - exists s. rewrite (proj2 (Z.eqb_neq _ 0)) by (by eapply heap_freep). mrun. unfold ptr. mrun. done.
    - rewrite Ef. cbn [Z.eqb]. unfold set_ptr, set_freep, set_size, ptr. mrun. cbn [um_mem um_freep um_brk].
      match goal with |- context [malloc_loop _ _ _ _ ?t = _] => exists t end. split; [|done].
      apply heap_init; [done|done|]. by rewrite !store_eq. }
  rewrite <- Ebrk in Hlimit |- *. destruct (malloc_search fuel n s0 fl al HH Hn1 ltac:(lia)) as [(y & prevp & Hy & Hyn & Hp & Hpy & ->)|(Hsmall & fuel' & -> & ->)].
  - destruct (take_found s0 fl al y n prevp HH Hy ltac:(lia) Hp Hpy) as (r & s' & fl' & Es & Hr & H'). exists r, s', fl'.
    split; [done|]. by rewrite (proj2 (Z.eqb_neq r 0)).
  - pose proof (morecore_run fuel' s0 fl al n HH Hn1 Hn3 Hlimit ltac:(lia)) as HM. destruct (sbrk_ok (um_brk s0) (16 * more_units n)).
    + destruct HM as (s1 & fl1 & E1 & H1 & Hl1 & y1 & Hy1 & Hyn1). rewrite (bind_ok _ _ _ _ _ E1), (proj2 (Z.eqb_neq _ 0)) by (by eapply heap_freep).
      unfold ptr at 1. mrun.
      destruct (malloc_search fuel' n s1 fl1 al H1 Hn1 ltac:(lia)) as [(y & prevp & Hy & Hyn & Hp & Hpy & ->)|(Hno & _)]; [|specialize (Hno y1 Hy1); lia].
      destruct (take_found s1 fl1 al y n prevp H1 Hy ltac:(lia) Hp Hpy) as (r & s' & fl' & Es & Hr & H'). exists r, s', fl'.
      split; [done|]. by rewrite (proj2 (Z.eqb_neq r 0)).
    + rewrite (bind_ok _ _ _ _ _ HM). by exists 0, s0, fl.
Qed.

End proofs.

(** A process whose static header is at 256 and whose memory ends at 1 MB. *)
#[local] Instance small_process : Process := { base := 256; sbrk_ok b n := b + n <=? 2 ^ 20 }.

(** One free block and one held block that touch. *)
Definition two_blocks : ustate :=
  Ustate (store 256 (Header 4096 0) (store 4096 (Header 256 10) (store 4256 (Header 0 3) (fun _ => Header 0 0)))) 256 8192.

Lemma two_blocks_heap : heap two_blocks [(4096, 10)] [(4256, 3)].
Proof.
  split; cbn [um_mem um_freep um_brk two_blocks base small_process app fmap list_fmap fst snd]; try lia.
  - split; cbn; split_and!; try done; try lia; repeat constructor; unfold block_end; cbn; lia.
  - left.
  - intros y [->|[->|[]%elem_of_nil]%elem_of_cons]%elem_of_cons; cbn; lia.
  - intros y [->|[->|[]%elem_of_nil]%elem_of_cons]%elem_of_cons; unfold block_end; cbn; lia.
  - intros y ->%list_elem_of_singleton. done.
  - intros x y ->%list_elem_of_singleton ->%list_elem_of_singleton. left. unfold block_end. cbn. lia.
  - intros [|i] [|j] x y; cbn; done.
Qed.

Lemma free_keeps_heap_witness :
  heap two_blocks [(4096, 10)] [(4256, 3)] /\
  exists s' fl', free 5 (4256 + 16) two_blocks = Ok tt s' /\ heap s' fl' [] /\
    forall z, 1 <= z.2 -> base < z.1 ->
      (forall y, y ∈ fl' -> apart y z) <-> (forall y, y ∈ [(4096, 10)] -> apart y z) /\ apart (4256, 3) z.
Proof.
  split; [exact two_blocks_heap|]. exact (free_keeps_heap 5 two_blocks [(4096, 10)] [] [] (4256, 3) two_blocks_heap ltac:(cbn; lia)).
Defined.

Lemma malloc_keeps_heap_witness :
  exists r s' fl', malloc 6 20 two_blocks = Ok r s' /\
    if r =? 0 then heap s' [(4096, 10)] [(4256, 3)] /\ (forall y, y ∈ [(4096, 10)] -> y.2 < 3) /\ sbrk_ok 8192 (16 * more_units 3) = false
    else 20 <= 16 * (3 - 1) /\ heap s' fl' [(r - 16, 3); (4256, 3)].
Proof.
  exact (malloc_keeps_heap 6 two_blocks [(4096, 10)] [(4256, 3)] 20 (or_introl two_blocks_heap) ltac:(lia) ltac:(intros _; vm_compute; discriminate) ltac:(cbn; lia)).
Defined.

End UmallocProofs.
