(* ===== verification/User.v ===== *)
(** * User programs of xv6 as interaction trees

    A user program is an [itree] whose events are the system calls it makes.  The system that
    answers them is a parameter, the class [System]; [run] plays a program against it for a
    number of steps, and [runs] says how a program that stops within some number of steps
    stops. *)

From ITree Require Import ITree.
From S2P Require Import Prelude Machine FsData State Fs.

Declare Scope prog_scope.
Delimit Scope prog_scope with prog.
Notation "x <- c1 ;; c2" := (ITree.bind c1 (fun x => c2)) (at level 20, c1 at level 99, c2 at level 200) : prog_scope.
Notation "' pat <- c1 ;; c2" := (ITree.bind c1 (fun x => match x with pat => c2 end)) (at level 20, pat pattern, c1 at level 99, c2 at level 200) : prog_scope.
Notation "c1 ;; c2" := (ITree.bind c1 (fun _ => c2)) (at level 100, c2 at level 200, right associativity) : prog_scope.
#[global] Open Scope prog_scope.

Module User.

(** ** System calls

    A buffer the kernel fills is part of the answer; a string is the list of its characters
    before the nul.  wait() answers the pid and the exit status. *)
Inductive sysE : Type -> Type :=
| Read (fd n : Z) : sysE (Z * list Z)
| Write (fd : Z) (bs : list Z) : sysE Z
| Open (path : list Z) (mode : Z) : sysE Z
| Close (fd : Z) : sysE Z
| Dup (fd : Z) : sysE Z
| Fstat (fd : Z) : sysE (Z * Fs.stat)
| Mknod (path : list Z) (major minor : Z) : sysE Z
| Mkdir (path : list Z) : sysE Z
| Link (old new : list Z) : sysE Z
| Unlink (path : list Z) : sysE Z
| Fork : sysE Z
| Exec (path : list Z) (argv : list (list Z)) : sysE Z
| Wait : sysE (Z * Z)
| Kill (pid : Z) : sysE Z
| Pause (n : Z) : sysE Z
| Getprocinfo (pid : Z) : sysE (Z * procinfo)
| Exit (status : Z) : sysE void.

Definition prog : Type -> Type := itree sysE.

Definition call {X} (e : sysE X) : prog X := ITree.trigger e.

Definition exit {A} (status : Z) : prog A := x <- call (Exit status) ;; match x : void with end.

(** start(): what runs when exec() has loaded a program. *)
Definition start (main : list (list Z) -> prog Z) (argv : list (list Z)) : prog void :=
  r <- main argv ;;
  exit r.

(** ** Running a program *)

Class System := {
  world : Type;
  answer : forall X, sysE X -> world -> option (X * world)
}.

Definition exit_status {X} (e : sysE X) : option Z := match e with Exit n => Some n | _ => None end.

Section run.
Context {sys : System}.

(** How a program stops: it returns, exits, or makes a call that does not come back. *)
Inductive stop (R : Type) : Type :=
| Returned (r : R) (w : world)
| Exited (status : Z) (w : world)
| Waits (w : world).
#[global] Arguments Returned {R} _ _.
#[global] Arguments Exited {R} _ _.
#[global] Arguments Waits {R} _.

Fixpoint run {R} (n : nat) (t : prog R) (w : world) : option (stop R) :=
  match n with
  | O => None
  | S n =>
      match observe t with
      | RetF r => Some (Returned r w)
      | TauF t => run n t w
      | VisF e k =>
          match exit_status e with
          | Some status => Some (Exited status w)
          | None => match answer _ e w with Some (x, w) => run n (k x) w | None => Some (Waits w) end
          end
      end
  end.

Definition runs {R} (t : prog R) (w : world) (o : stop R) : Prop := exists n, run n t w = Some o.

(** What a program that runs on does with the result of its first part. *)
Definition and_then {A B} (o : stop A) (k : A -> world -> stop B -> Prop) (o' : stop B) : Prop :=
  match o with
  | Returned a w => k a w o'
  | Exited status w => o' = Exited status w
  | Waits w => o' = Waits w
  end.

Lemma run_more {R} n m (t : prog R) w o : (n <= m)%nat -> run n t w = Some o -> run m t w = Some o.
Proof.
  revert m t w. induction n as [|n IH]; intros m t w Hm; [done|]. destruct m as [|m]; [lia|]. cbn [run].
  destruct (observe t) as [r|t'|X e k]; [done|apply IH; lia|].
  destruct (exit_status e); [done|]. destruct (answer _ e w) as [[x w']|]; [apply IH; lia|done].
Qed.

(** A program stops in one way only. *)
Lemma runs_det {R} (t : prog R) w o o' : runs t w o -> runs t w o' -> o = o'.
Proof.
  intros [n H] [m H']. apply (run_more n (n `max` m)) in H; [|lia]. apply (run_more m (n `max` m)) in H'; [|lia].
  congruence.
Qed.

Lemma run_observe {R} n (t u : prog R) w : observe t = observe u -> run n t w = run n u w.
Proof. intros E. destruct n as [|n]; [done|]. cbn [run]. by rewrite E. Qed.

Lemma observe_bind {A B} (t : prog A) (k : A -> prog B) :
  observe (ITree.bind t k) =
  match observe t with
  | RetF r => observe (k r)
  | TauF t => TauF (ITree.bind t k)
  | VisF e h => VisF e (fun x => ITree.bind (h x) k)
  end.
Proof. unfold ITree.bind, ITree.subst, observe. cbn. destruct (_observe t) eqn:E; unfold observe; try rewrite E; reflexivity. Qed.

Lemma runs_observe {R} (t u : prog R) w o : observe t = observe u -> runs u w o -> runs t w o.
Proof. intros E [n H]. exists n. by rewrite (run_observe n t u). Qed.

Lemma runs_tau {R} (t u : prog R) w o : observe t = TauF u -> runs u w o -> runs t w o.
Proof. intros E [n H]. exists (S n). cbn [run]. by rewrite E. Qed.

Lemma runs_vis {R X} (e : sysE X) (k : X -> prog R) (t : prog R) w x w' o :
  observe t = VisF e k -> exit_status e = None -> answer X e w = Some (x, w') -> runs (k x) w' o -> runs t w o.
Proof. intros E Es Ea [n H]. exists (S n). cbn [run]. by rewrite E, Es, Ea. Qed.

Lemma runs_stop {R X} (e : sysE X) (k : X -> prog R) (t : prog R) w o :
  observe t = VisF e k ->
  match exit_status e with Some s => o = Exited s w | None => answer X e w = None /\ o = Waits w end -> runs t w o.
Proof. intros E H. exists 1%nat. cbn [run]. rewrite E. destruct (exit_status e); [by subst|]. by destruct H as [-> ->]. Qed.

(** A sequence: the first part stops as [o], and the rest runs on if it returned. *)
Lemma prog_runs_bind {A B} (t : prog A) (k : A -> prog B) w o o' :
  runs t w o -> and_then o (fun a w' o' => runs (k a) w' o') o' -> runs (ITree.bind t k) w o'.
Proof.
  intros [n Hn]. revert t w Hn. induction n as [|n IH]; intros t w; [done|]. cbn [run]. pose proof (observe_bind t k) as Hb.
  destruct (observe t) as [r|t'|X e h] eqn:E; intros H Ho.
  - injection H as <-. by eapply runs_observe.
  - eapply runs_tau; [exact Hb|]. by apply IH.
  - destruct (exit_status e) as [s|] eqn:Es.
    + injection H as <-. eapply runs_stop; [exact Hb|]. by rewrite Es.
    + destruct (answer _ e w) as [[x w1]|] eqn:Ea.
      * eapply runs_vis; [exact Hb|done|done|]. by apply IH.
      * injection H as <-. eapply runs_stop; [exact Hb|]. by rewrite Es.
Qed.

Lemma prog_runs_ret {R} (r : R) w : runs (Ret r) w (Returned r w).
Proof. by exists 1%nat. Qed.

Lemma runs_call {X} (e : sysE X) w x w' :
  exit_status e = None -> answer X e w = Some (x, w') -> runs (call e) w (Returned x w').
Proof. intros Es Ea. by eapply (runs_vis e (fun x => Ret x)); [|done|done|apply prog_runs_ret]. Qed.

Lemma runs_exit {R} s w : runs (exit (A := R) s) w (Exited s w).
Proof. unfold exit. by eapply prog_runs_bind; [by eapply (runs_stop (Exit s) (fun x => Ret x))|]. Qed.

Lemma runs_then {A B} (t : prog A) (k : A -> prog B) w a w' o :
  runs t w (Returned a w') -> runs (k a) w' o -> runs (ITree.bind t k) w o.
Proof. intros H H'. by eapply prog_runs_bind. Qed.

(** The call comes back with [x]. *)
Lemma runs_step {X R} (e : sysE X) (k : X -> prog R) w x w' o :
  exit_status e = None -> answer X e w = Some (x, w') -> runs (k x) w' o -> runs (ITree.bind (call e) k) w o.
Proof. intros Es Ea H. by eapply runs_then; [apply runs_call|]. Qed.

Lemma runs_exits {A B} (t : prog A) (k : A -> prog B) w s w' :
  runs t w (Exited s w') -> runs (ITree.bind t k) w (Exited s w').
Proof. intros H. by eapply prog_runs_bind. Qed.

(** One round of a loop. *)
Lemma runs_round {I R} (body : I -> prog (I + R)) i w i' w' o :
  runs (body i) w (Returned (inl i') w') -> runs (ITree.iter body i') w' o -> runs (ITree.iter body i) w o.
Proof.
  intros H H'. eapply (runs_observe _ (ITree.bind (body i) (fun lr => match lr with inl i => Tau (ITree.iter body i) | inr r => Ret r end)));
    [reflexivity|]. eapply runs_then; [exact H|]. by eapply runs_tau.
Qed.

Lemma runs_break {I R} (body : I -> prog (I + R)) i w r w' :
  runs (body i) w (Returned (inr r) w') -> runs (ITree.iter body i) w (Returned r w').
Proof.
  intros H. eapply (runs_observe _ (ITree.bind (body i) (fun lr => match lr with inl i => Tau (ITree.iter body i) | inr r => Ret r end)));
    [reflexivity|]. eapply runs_then; [exact H|]. apply prog_runs_ret.
Qed.

Lemma runs_loop_exits {I R} (body : I -> prog (I + R)) i w s w' :
  runs (body i) w (Exited s w') -> runs (ITree.iter body i) w (Exited s w').
Proof.
  intros H. eapply (runs_observe _ (ITree.bind (body i) (fun lr => match lr with inl i => Tau (ITree.iter body i) | inr r => Ret r end)));
    [reflexivity|]. by apply runs_exits.
Qed.

End run.

(** ** Watching a program

    A monitor follows the calls of a program and their answers; [None] is a call it does not
    allow. *)

Definition event : Type := { X : Type & (sysE X * X)%type }.

Section trace.
Context {sys : System}.

(** The calls of the first [n] steps. *)
Fixpoint trace {R} (n : nat) (t : prog R) (w : world) : list event :=
  match n with
  | O => []
  | S n =>
      match observe t with
      | RetF r => []
      | TauF t => trace n t w
      | VisF e k =>
          match exit_status e with
          | Some _ => []
          | None => match answer _ e w with Some (x, w) => existT _ (e, x) :: trace n (k x) w | None => [] end
          end
      end
  end.

End trace.

Section monitor.
Context {St : Type} (watch : forall X, sysE X -> X -> St -> option St) (may_exit : St -> Prop).

Fixpoint monitor (tr : list event) (s : St) : option St :=
  match tr with
  | [] => Some s
  | existT X (e, x) :: tr => match watch X e x s with Some s => monitor tr s | None => None end
  end.

(** For [n] steps and whatever the answers are, the monitor allows the calls and the exit, and
    if the program returns then [Q] holds, with the steps that are left. *)
Fixpoint safe {R} (n : nat) (t : prog R) (s : St) (Q : R -> St -> nat -> Prop) : Prop :=
  match n with
  | O => True
  | S m =>
      match observe t with
      | RetF r => Q r s n
      | TauF t => safe m t s Q
      | VisF e k =>
          match exit_status e with
          | Some _ => may_exit s
          | None => forall x, match watch _ e x s with Some s => safe m (k x) s Q | None => False end
          end
      end
  end.

Lemma safe_observe {R} n (t u : prog R) s Q : observe t = observe u -> safe n u s Q -> safe n t s Q.
Proof. intros E. destruct n as [|n]; [done|]. cbn [safe]. by rewrite E. Qed.

Lemma safe_mono {R} n (t : prog R) s (Q Q' : R -> St -> nat -> Prop) :
  safe n t s Q -> (forall r s m, (m <= n)%nat -> Q r s m -> Q' r s m) -> safe n t s Q'.
Proof.
  revert t s. induction n as [|n IH]; intros t s; [done|]. cbn [safe]. intros H HQ.
  assert (HQ' : forall r s m, (m <= n)%nat -> Q r s m -> Q' r s m) by (intros; apply HQ; [lia|done]).
  destruct (observe t) as [r|t'|X e h]; [by apply HQ|by apply IH|].
  destruct (exit_status e); [done|]. intros x. specialize (H x). destruct (watch X e x s); [by apply IH|done].
Qed.

Lemma safe_bind {A B} n (t : prog A) (k : A -> prog B) s Q :
  safe n t s (fun a s m => safe m (k a) s Q) -> safe n (ITree.bind t k) s Q.
Proof.
  revert t s. induction n as [|n IH]; intros t s; [done|]. pose proof (observe_bind t k) as Hb. cbn [safe].
  rewrite Hb. destruct (observe t) as [r|t'|X e h]; [done|apply IH|].
  destruct (exit_status e); [done|]. intros H x. specialize (H x). destruct (watch X e x s); [by apply IH|done].
Qed.

Lemma safe_call {X} n (e : sysE X) s Q :
  exit_status e = None -> (forall x, match watch X e x s with Some s' => forall m, Q x s' m | None => False end) -> safe n (call e) s Q.
Proof.
  intros E H. destruct n as [|n]; [done|]. cbn [safe call ITree.trigger observe _observe]. rewrite E. intros x. specialize (H x).
  destruct (watch X e x s) as [s'|]; [|done]. destruct n as [|n]; [done|]. apply H.
Qed.

Lemma safe_exit {R} n c s (Q : R -> St -> nat -> Prop) : may_exit s -> safe n (exit c) s Q.
Proof. intros H. apply safe_bind. by destruct n. Qed.

Lemma safe_ret {R} n (r : R) s (Q : R -> St -> nat -> Prop) : (forall m, Q r s m) -> safe n (Ret r) s Q.
Proof. destruct n as [|n]; [done|]. intros H. apply H. Qed.

(** An invariant of a loop, at the start of every round. *)
Lemma safe_iter {I R} (Inv : I -> St -> Prop) (body : I -> prog (I + R)) (Q : R -> St -> nat -> Prop) :
  (forall i s n, Inv i s -> safe n (body i) s (fun lr s' m => match lr with inl i' => Inv i' s' | inr r => Q r s' m end)) ->
  forall n i s, Inv i s -> safe n (ITree.iter body i) s Q.
Proof.
  intros Hb n. induction (lt_wf n) as [n _ IH]. intros i s Hi.
  eapply (safe_observe _ _ (ITree.bind (body i) (fun lr => match lr with inl i => Tau (ITree.iter body i) | inr r => Ret r end)));
    [reflexivity|]. apply safe_bind. apply (safe_mono _ _ _ _ _ (Hb i s n Hi)). intros [i'|r] s' m Hm H.
  - destruct m as [|m]; [done|]. apply IH; [lia|done].
  - by destruct m.
Qed.

(** What the monitor sees of a run of a safe program. *)
Lemma safe_monitor {sys : System} {R} n (t : prog R) s Q w :
  safe n t s Q ->
  exists s', monitor (trace n t w) s = Some s' /\ forall c w', run n t w = Some (Exited c w') -> may_exit s'.
Proof.
  revert t s w. induction n as [|n IH]; intros t s w; [by exists s|]. cbn [safe trace run].
  destruct (observe t) as [r|t'|X e h]; [by exists s|apply IH|]. destruct (exit_status e); [by exists s|].
  intros H. destruct (answer X e w) as [[x w1]|]; [|by exists s]. specialize (H x). cbn [monitor].
  destruct (watch X e x s); [by apply IH|done].
Qed.

End monitor.

(** ** What the programs rely on

    The part of the world a text utility sees: what was written to a descriptor, what is still
    to be read from it, and the files that open() finds. *)
Record view : Type := View {
  v_out : gmap Z (list Z);
  v_in : gmap Z (list Z);
  v_file : gmap (list Z) (list Z)
}.

Definition put (fd : Z) (bs : list Z) (v : view) : view :=
  View (<[fd := default [] (v_out v !! fd) ++ bs]> (v_out v)) (v_in v) (v_file v).
Definition set_in (fd : Z) (l : list Z) (v : view) : view := View (v_out v) (<[fd := l]> (v_in v)) (v_file v).
Definition del_in (fd : Z) (v : view) : view := View (v_out v) (delete fd (v_in v)) (v_file v).

(** The laws of the calls on descriptors: write() takes everything, read() gives some of what is
    left, and nothing only at the end, and open() for reading finds exactly the files. *)
Class Files (sys : System) := {
  view_of : world -> view;
  write_law w fd bs :
    is_Some (v_out (view_of w) !! fd) ->
    exists w', answer _ (Write fd bs) w = Some (Z.of_nat (length bs), w') /\ view_of w' = put fd bs (view_of w);
  read_law w fd n l :
    v_in (view_of w) !! fd = Some l -> 0 < n ->
    exists k w', answer _ (Read fd n) w = Some ((Z.of_nat k, take k l), w') /\ (k <= length l)%nat /\ Z.of_nat k <= n /\
      (k = 0%nat -> l = []) /\ view_of w' = set_in fd (drop k l) (view_of w);
  open_law w path :
    exists fd w', answer _ (Open path 0) w = Some (fd, w') /\
      match v_file (view_of w) !! path with
      | Some c => 0 <= fd /\ v_in (view_of w) !! fd = None /\ view_of w' = set_in fd c (view_of w)
      | None => fd < 0 /\ view_of w' = view_of w
      end;
  close_law w fd :
    is_Some (v_in (view_of w) !! fd) ->
    exists r w', answer _ (Close fd) w = Some (r, w') /\ view_of w' = del_in fd (view_of w)
}.

Lemma put_put fd a b v : put fd b (put fd a v) = put fd (a ++ b) v.
Proof. unfold put. cbn [v_out v_in v_file]. rewrite lookup_insert_eq, insert_insert_eq. cbn. by rewrite app_assoc. Qed.

Lemma put_nil fd v : is_Some (v_out v !! fd) -> put fd [] v = v.
Proof. intros [o Ho]. unfold put. rewrite Ho. cbn. rewrite app_nil_r, insert_id by done. by destruct v. Qed.

Lemma put_open fd fd' bs v : is_Some (v_out v !! fd) -> is_Some (v_out (put fd' bs v) !! fd).
Proof. intros H. unfold put. cbn [v_out]. destruct (decide (fd = fd')) as [->|Hne]; [by rewrite lookup_insert_eq|by rewrite lookup_insert_ne]. Qed.

#[export] Hint Resolve put_open : core.

(** ** A system

    Files that do not change, and a read() that returns at most [c + 1] bytes. *)

Definition toy_read (c : nat) (fd n : Z) (v : view) : (Z * list Z) * view :=
  match v_in v !! fd with
  | None => ((-1, []), v)
  | Some l => let k := (Nat.min (S c) (Nat.min (Z.to_nat n) (length l))) in ((Z.of_nat k, take k l), set_in fd (drop k l) v)
  end.

Definition toy_fd (v : view) : Z := Z.of_nat (fresh (set_map Z.to_nat (dom (v_in v)) : gset nat)).

Definition toy_answer (c : nat) (X : Type) (e : sysE X) : view -> option (X * view) :=
  match e in sysE X return view -> option (X * view) with
  | Read fd n => fun v => Some (toy_read c fd n v)
  | Write fd bs => fun v => Some (match v_out v !! fd with Some _ => (Z.of_nat (length bs), put fd bs v) | None => (-1, v) end)
  | Open path mode => fun v => Some (match v_file v !! path with Some l => (toy_fd v, set_in (toy_fd v) l v) | None => (-1, v) end)
  | Close fd => fun v => Some (0, del_in fd v)
  | _ => fun v => None
  end.

Definition toy (c : nat) : System := {| world := view; answer := toy_answer c |}.

#[export] Instance toy_files c : Files (toy c).
Proof.
  refine {| view_of := (fun v => v) : @world (toy c) -> view |}.
  - intros v fd bs [o Ho]. exists (put fd bs v). cbn. by rewrite Ho.
  - intros v fd n l Hl Hn. eexists (Nat.min (S c) (Nat.min (Z.to_nat n) (length l))), _. cbn [answer toy toy_answer]. unfold toy_read.
    rewrite Hl. split; [reflexivity|]. split_and!; [lia|lia| |done]. destruct l; [done|]. cbn [length]. lia.
  - intros v path. cbn. destruct (v_file v !! path) as [l|]; [|by exists (-1), v].
    exists (toy_fd v), (set_in (toy_fd v) l v). split; [done|]. split; [unfold toy_fd; lia|]. split; [|done].
    apply not_elem_of_dom. intros Hin. apply (is_fresh (set_map Z.to_nat (dom (v_in v)) : gset nat)).
    apply elem_of_map. exists (toy_fd v). split; [unfold toy_fd; by rewrite Nat2Z.id|done].
  - intros v fd _. by exists 0, (del_in fd v).
Defined.

End User.
