(* ===== verification/UserPrint.v ===== *)
(** * user/printf.c

    putc() is one write() of one character.  The loop of vprintf() runs over the characters of
    the format with its variable [state]; [skip] is what it adds to [i] in a round. *)

From ITree Require Import ITree.
From S2P Require Import Prelude Machine FsData State Fs Print Console FsRun ConsoleProofs SyscallProofs User.

Module UserPrint.
Import Print User.

Definition digits : list Z := chars "0123456789ABCDEF".
Definition digit (d : Z) : Z := nth (Z.to_nat d) digits 0.

Definition putc (fd c : Z) : prog unit :=
  call (Write fd [u8 c]) ;;
  Ret tt.

Fixpoint put_all (fd : Z) (cs : list Z) : prog unit :=
  match cs with
  | [] => Ret tt
  | c :: cs => putc fd c ;; put_all fd cs
  end.

(** The do-while loop: the digits of x, the last one first. *)
Fixpoint digit_loop (fuel : nat) (x base : Z) : list Z :=
  match fuel with
  | O => []
  | S fuel => digit (x mod base) :: (if x / base =? 0 then [] else digit_loop fuel (x / base) base)
  end.

Definition printint (fd xx base : Z) (sgn : bool) : prog unit :=
  let neg := sgn && (xx <? 0) in
  let x := if neg then u64 (- xx) else u64 xx in
  let buf := digit_loop 64 x base ++ (if neg then chars "-" else []) in
  put_all fd (rev buf).

Fixpoint ptr_loop (fd : Z) (n : nat) (x : Z) : prog unit :=
  match n with
  | O => Ret tt
  | S n => putc fd (digit (Z.shiftr x 60)) ;; ptr_loop fd n (u64 (Z.shiftl x 4))
  end.

Definition printptr (fd x : Z) : prog unit :=
  putc fd 48 ;;
  putc fd 120 ;;
  ptr_loop fd 16 x.

Fixpoint vprintf_loop (fd : Z) (fmt : list Z) (skip : nat) (state : Z) (args : list arg) : prog unit :=
  match fmt with
  | [] => Ret tt
  | c0 :: rest =>
      match skip with
      | S skip => vprintf_loop fd rest skip state args
      | O =>
          if state =? 0 then
            if c0 =? pct then vprintf_loop fd rest 0 pct args
            else putc fd c0 ;; vprintf_loop fd rest 0 state args
          else if state =? pct then
            let c1 := if negb (c0 =? 0) then nth 0 rest 0 else 0 in
            let c2 := if negb (c1 =? 0) then nth 1 rest 0 else 0 in
            let v := arg_int args in
            if c0 =? ch_d then
              printint fd (s32 v) 10 true ;; vprintf_loop fd rest 0 0 (tl args)
            else if (c0 =? ch_l) && (c1 =? ch_d) then
              printint fd (s64 v) 10 true ;; vprintf_loop fd rest 1 0 (tl args)
            else if (c0 =? ch_l) && (c1 =? ch_l) && (c2 =? ch_d) then
              printint fd (s64 v) 10 true ;; vprintf_loop fd rest 2 0 (tl args)
            else if c0 =? ch_u then
              printint fd (u32 v) 10 false ;; vprintf_loop fd rest 0 0 (tl args)
            else if (c0 =? ch_l) && (c1 =? ch_u) then
              printint fd (s64 v) 10 false ;; vprintf_loop fd rest 1 0 (tl args)
            else if (c0 =? ch_l) && (c1 =? ch_l) && (c2 =? ch_u) then
              printint fd (s64 v) 10 false ;; vprintf_loop fd rest 2 0 (tl args)
            else if c0 =? ch_x then
              printint fd (u32 v) 16 false ;; vprintf_loop fd rest 0 0 (tl args)
            else if (c0 =? ch_l) && (c1 =? ch_x) then
              printint fd (s64 v) 16 false ;; vprintf_loop fd rest 1 0 (tl args)
            else if (c0 =? ch_l) && (c1 =? ch_l) && (c2 =? ch_x) then
              printint fd (s64 v) 16 false ;; vprintf_loop fd rest 2 0 (tl args)
            else if c0 =? 112 then
              printptr fd (u64 v) ;; vprintf_loop fd rest 0 0 (tl args)
            else if c0 =? 99 then
              putc fd (u32 v) ;; vprintf_loop fd rest 0 0 (tl args)
            else if c0 =? 115 then
              put_all fd (arg_str args) ;; vprintf_loop fd rest 0 0 (tl args)
            else if c0 =? pct then
              putc fd pct ;; vprintf_loop fd rest 0 0 args
            else
              putc fd pct ;; putc fd c0 ;; vprintf_loop fd rest 0 0 args
          else vprintf_loop fd rest 0 state args
      end
  end.

Definition vprintf (fd : Z) (fmt : list Z) (args : list arg) : prog unit := vprintf_loop fd fmt 0 0 args.

Definition fprintf (fd : Z) (fmt : list Z) (args : list arg) : prog unit := vprintf fd fmt args.

Definition printf (fmt : list Z) (args : list arg) : prog unit := vprintf 1 fmt args.

(** ** What is printed *)

Section prints.
Context {sys : System} {files : Files sys}.

(** The program ends, and has written [cs] to the descriptor and changed nothing else. *)
Definition prints (t : prog unit) (fd : Z) (cs : list Z) : Prop :=
  forall w, is_Some (v_out (view_of w) !! fd) -> exists w', runs t w (Returned tt w') /\ view_of w' = put fd cs (view_of w).

Lemma prints_ret fd : prints (Ret tt) fd [].
Proof. intros w Hw. exists w. split; [apply prog_runs_ret|by rewrite put_nil]. Qed.

Lemma prints_seq t u fd a b : prints t fd a -> prints u fd b -> prints (t ;; u) fd (a ++ b).
Proof.
  intros Ht Hu w Hw. destruct (Ht w Hw) as (w1 & R1 & V1). destruct (Hu w1) as (w2 & R2 & V2); [rewrite V1; by apply put_open|].
  exists w2. split; [by eapply runs_then|]. by rewrite V2, V1, put_put.
Qed.

Lemma prints_write fd bs : prints (call (Write fd bs) ;; Ret tt) fd bs.
Proof.
  intros w Hw. destruct (write_law w fd bs Hw) as (w' & E & V). exists w'. split; [|done].
  eapply runs_step; [done|exact E|apply prog_runs_ret].
Qed.

Lemma prints_putc fd c : prints (putc fd c) fd [u8 c].
Proof. apply prints_write. Qed.

Lemma prints_all fd cs : prints (put_all fd cs) fd (u8 <$> cs).
Proof.
  induction cs as [|c cs IH]; cbn [put_all]; [apply prints_ret|].
  change (u8 <$> c :: cs) with ([u8 c] ++ (u8 <$> cs)). apply prints_seq; [apply prints_putc|done].
Qed.

Lemma digit_lower d : 0 <= d < 10 -> digit d = Print.digit d.
Proof.
  intros Hd. assert (H : d = 0 \/ d = 1 \/ d = 2 \/ d = 3 \/ d = 4 \/ d = 5 \/ d = 6 \/ d = 7 \/ d = 8 \/ d = 9) by lia.
  by repeat (destruct H as [->|H]); [..|rewrite H].
Qed.

Lemma digit_loop_dec fuel x : digit_loop fuel x 10 = Print.digit_loop fuel x 10.
Proof.
  revert x. induction fuel as [|fuel IH]; intros x; cbn [digit_loop Print.digit_loop]; [done|].
  rewrite digit_lower by (apply Z.mod_pos_bound; lia). by rewrite IH.
Qed.

(** Decimal numbers are printed as the kernel prints them. *)
Lemma prints_int fd xx sgn : prints (printint fd xx 10 sgn) fd (u8 <$> Print.printint xx 10 sgn).
Proof. unfold printint, Print.printint, printint_buf. rewrite digit_loop_dec. apply prints_all. Qed.

Lemma prints_unsigned fd v : prints (printint fd (s64 v) 10 false) fd (u8 <$> Print.printint (u64 v) 10 false).
Proof.
  replace (Print.printint (u64 v) 10 false) with (Print.printint (s64 v) 10 false); [apply prints_int|].
  unfold Print.printint, printint_buf. cbn [andb]. unfold s64, u64.
  by replace ((((v + 2 ^ 63) mod 2 ^ 64 - 2 ^ 63)) mod 2 ^ 64) with (v mod 2 ^ 64 mod 2 ^ 64) by dlia.
Qed.

Lemma prints_app t u fd a b : prints t fd (u8 <$> a) -> prints u fd (u8 <$> b) -> prints (t ;; u) fd (u8 <$> (a ++ b)).
Proof. rewrite fmap_app. apply prints_seq. Qed.

Lemma prints_char fd c c' u b : u8 c = u8 c' -> prints u fd (u8 <$> b) -> prints (putc fd c ;; u) fd (u8 <$> (c' :: b)).
Proof. intros E. change (u8 <$> c' :: b) with ([u8 c'] ++ (u8 <$> b)). rewrite <- E. apply prints_seq, prints_putc. Qed.

Lemma skip_rest fd n rest args : (n <= length rest)%nat -> vprintf_loop fd rest n 0 args = vprintf_loop fd (drop n rest) 0 0 args.
Proof.
  revert n. induction rest as [|c rest IH]; intros [|n] Hn; cbn [length] in Hn; try done.
  cbn [vprintf_loop drop]. apply IH. lia.
Qed.

(** A format without %x, %lx, %llx and %p, whose digits differ in case from the kernel's. *)
Definition hex_conv (l : list Z) : bool :=
  match l with
  | [] => false
  | c0 :: l => (c0 =? ch_x) || (c0 =? 112) || (c0 =? ch_l) && ((nth 0 l 0 =? ch_x) || (nth 0 l 0 =? ch_l) && (nth 1 l 0 =? ch_x))
  end.

Fixpoint no_hex (fmt : list Z) : bool :=
  match fmt with
  | [] => true
  | c :: fmt => negb ((c =? pct) && hex_conv fmt) && no_hex fmt
  end.

Lemma no_hex_drop n fmt : no_hex fmt = true -> no_hex (drop n fmt) = true.
Proof.
  revert n. induction fmt as [|c fmt IH]; intros [|n] H; try done. cbn [drop]. apply IH. by apply andb_prop in H as [_ H].
Qed.

(** The state machine of vprintf() agrees with the look-ahead of the kernel's printf(). *)
Lemma vprintf_prints fd fmt args :
  no_hex fmt = true -> prints (vprintf fd fmt args) fd (u8 <$> format fmt args).
Proof.
  unfold vprintf. revert args. induction fmt as [fmt IH] using (induction_ltof1 _ length). unfold ltof in IH.
  intros args Hf. destruct fmt as [|cx rest]; [apply prints_ret|].
  assert (IHd : forall n l args, l = drop n rest -> prints (vprintf_loop fd l 0 0 args) fd (u8 <$> format l args)).
  { intros n l args' ->. apply IH; [rewrite length_drop; cbn; lia|]. apply no_hex_drop. by apply andb_prop in Hf as [_ Hf]. }
  cbn [vprintf_loop format]. change (0 =? 0) with true. cbv iota. destruct (Z.eqb_spec cx pct) as [->|Hpct]; cbn [negb].
  - destruct rest as [|c0 rest]; [apply prints_ret|].
    assert (Hh : hex_conv (c0 :: rest) = false) by (apply andb_prop in Hf as [Hf _]; by apply negb_true_iff in Hf).
    cbn [hex_conv] in Hh.
    cbn [vprintf_loop]. change (pct =? 0) with false. change (pct =? pct) with true. cbv zeta.
    assert ((c0 =? ch_x) = false /\ (c0 =? 112) = false) as [-> ->] by lia.
    destruct (Z.eqb_spec c0 ch_l) as [->|Hl]; cbn [andb].
    + change (ch_l =? ch_d) with false. change (ch_l =? ch_u) with false. change (ch_l =? 99) with false.
      change (ch_l =? 115) with false. change (ch_l =? pct) with false. change (negb (ch_l =? 0)) with true. cbn [andb].
      destruct rest as [|c1 rest].
      { apply (prints_char _ _ _ _ _ eq_refl), (prints_char _ _ _ _ _ eq_refl), (IHd 1%nat). done. }
      cbn [nth] in Hh |- *. change (ch_l =? ch_l) with true in Hh. assert ((c1 =? ch_x) = false) as -> by lia.
      destruct (Z.eqb_spec c1 ch_d) as [->|H1d].
      { apply prints_app; [apply prints_int|]. rewrite skip_rest by (cbn; lia). by apply (IHd 2%nat). }
      destruct (Z.eqb_spec c1 ch_u) as [->|H1u].
      { change (ch_u =? ch_l) with false. cbn [andb].
        apply prints_app; [apply prints_unsigned|]. rewrite skip_rest by (cbn; lia). by apply (IHd 2%nat). }
      destruct (Z.eqb_spec c1 ch_l) as [->|H1l]; cbn [andb].
      2: { apply (prints_char _ _ _ _ _ eq_refl), (prints_char _ _ _ _ _ eq_refl), (IHd 1%nat). done. }
      change (negb (ch_l =? 0)) with true. cbn [nth]. destruct rest as [|c2 rest].
      { change (0 =? ch_d) with false. change (0 =? ch_u) with false. change (0 =? ch_x) with false.
        apply (prints_char _ _ _ _ _ eq_refl), (prints_char _ _ _ _ _ eq_refl), (IHd 1%nat). done. }
      cbn [nth] in Hh |- *. assert ((c2 =? ch_x) = false) as -> by (change (ch_l =? ch_l) with true in Hh; lia).
      destruct (Z.eqb_spec c2 ch_d) as [->|H2d].
      { apply prints_app; [apply prints_int|]. rewrite skip_rest by (cbn; lia). by apply (IHd 3%nat). }
      destruct (Z.eqb_spec c2 ch_u) as [->|H2u].
      { apply prints_app; [apply prints_unsigned|]. rewrite skip_rest by (cbn; lia). by apply (IHd 3%nat). }
      apply (prints_char _ _ _ _ _ eq_refl), (prints_char _ _ _ _ _ eq_refl), (IHd 1%nat). done.
    + destruct (Z.eqb_spec c0 ch_d); [apply prints_app; [apply prints_int|by apply (IHd 1%nat)]|].
      destruct (Z.eqb_spec c0 ch_u); [apply prints_app; [apply prints_int|by apply (IHd 1%nat)]|].
      destruct (Z.eqb_spec c0 99).
      { apply prints_char; [|by apply (IHd 1%nat)]. unfold u8, u32. dlia. }
      destruct (Z.eqb_spec c0 115); [apply prints_app; [apply prints_all|by apply (IHd 1%nat)]|].
      destruct (Z.eqb_spec c0 pct); [apply prints_char; [done|by apply (IHd 1%nat)]|].
      apply (prints_char _ _ _ _ _ eq_refl), (prints_char _ _ _ _ _ eq_refl), (IHd 1%nat). done.
  - apply prints_char; [done|]. by apply (IHd 0%nat).
Qed.

(** C23: printf() of a user program and printf() of the kernel print the same bytes, for every
    format without %x and %p (whose digits differ in case) and every argument list: the one
    writes to its standard output, byte by byte, what the other sends to the uart. *)
Theorem printf_agrees fmt args w s :
  no_hex fmt = true -> Console.BACKSPACE ∉ format fmt args -> is_Some (v_out (view_of w) !! 1) -> LPr ∉ k_held s ->
  exists bs w' s', runs (printf fmt args) w (Returned tt w') /\ view_of w' = put 1 bs (view_of w) /\
    Console.printf fmt args s = Ok tt s' /\ fs_out (k_fs s') = fs_out (k_fs s) ++ bs.
Proof.
  intros Hf Hb Hw Hl. destruct (vprintf_prints 1 fmt args Hf w Hw) as (w' & R & V).
  exists (u8 <$> format fmt args), w', (SyscallProofs.show (format fmt args ≫= FsRun.sent) s).
  split_and!; [done|done|by apply SyscallProofs.printf_prints|].
  unfold SyscallProofs.show. ksimpl. unfold FsRun.printed. fsimpl. f_equal. clear - Hb.
  induction (format fmt args) as [|c l IH]; [done|]. apply not_elem_of_cons in Hb as [Hc Hb].
  rewrite bind_cons, fmap_cons, IH by done. unfold FsRun.sent. by rewrite (proj2 (Z.eqb_neq c Console.BACKSPACE)) by done.
Qed.

End prints.

(** printf("%d%%\n", -7) in a program and in the kernel. *)
Lemma printf_agrees_witness : exists (bs : list Z) (w' : @world (toy 0)) s',
  runs (sys := toy 0) (printf (chars "%d%%" ++ [10]) [AInt (-7)]) (View {[1 := []]} ∅ ∅) (Returned tt w') /\ view_of w' = put 1 bs (View {[1 := []]} ∅ ∅) /\
  Console.printf (chars "%d%%" ++ [10]) [AInt (-7)] (kstate0 (fun _ => 0)) = Ok tt s' /\ fs_out (k_fs s') = bs.
Proof.
  destruct (printf_agrees (sys := toy 0) (chars "%d%%" ++ [10]) [AInt (-7)] (View {[1 := []]} ∅ ∅) (kstate0 (fun _ => 0)))
    as (bs & w' & s' & R & V & E & O); [reflexivity|by apply (bool_decide_unpack (_ ∉ _)); vm_compute|by eexists|apply not_elem_of_empty|].
  exists bs, w', s'. split; [exact R|]. split; [exact V|]. split; [exact E|]. exact O.
Defined.

End UserPrint.
