(* ===== verification/UserProgs.v ===== *)
(** * User programs: cat, wc, grep, echo, ls, ps, init, kill, ln, mkdir, rm, zombie

    main() takes the argument vector, the program's name first.  [for_each] is the loop over the
    arguments after it. *)

From ITree Require Import ITree.
From S2P Require Import Prelude Machine FsData Bytes State CString Fs Print Ulib Grep User UserPrint.

Import User UserPrint.

Definition O_RDONLY : Z := 0x000.
Definition O_RDWR : Z := 0x002.

(** The nul-terminated string at the start of an array. *)
Definition cstr (bs : list Z) : list Z := CString.c_string bs.

Fixpoint for_each (l : list (list Z)) (body : list Z -> prog unit) : prog unit :=
  match l with
  | [] => Ret tt
  | a :: l => body a ;; for_each l body
  end.

(** A loop that [break] leaves: the body says whether to go on. *)
Fixpoint for_while (l : list (list Z)) (body : list Z -> prog bool) : prog unit :=
  match l with
  | [] => Ret tt
  | a :: l => c <- body a ;; if c : bool then for_while l body else Ret tt
  end.

(** ulib.c: the structure is what fstat() filled in, and undefined when open() failed. *)
Definition stat (n : list Z) : prog (Z * Fs.stat) :=
  fd <- call (Open n O_RDONLY) ;;
  if fd <? 0 then Ret (-1, Fs.MkStat 0 0 0 0 0) else
  r <- call (Fstat fd) ;;
  call (Close fd) ;;
  Ret r.

Module Cat.

Definition cat (fd : Z) : prog unit :=
  ITree.iter (fun _ : unit =>
    '(n, buf) <- call (Read fd 512) ;;
    if n >? 0 then
      r <- call (Write 1 (take (Z.to_nat n) buf)) ;;
      if negb (r =? n) then
        fprintf 2 (chars "cat: write error" ++ [10]) [] ;;
        exit 1
      else Ret (inl tt)
    else if n <? 0 then
      fprintf 2 (chars "cat: read error" ++ [10]) [] ;;
      exit 1
    else Ret (inr tt)) tt.

Definition main (argv : list (list Z)) : prog Z :=
  if (length argv <=? 1)%nat then
    cat 0 ;;
    exit 0
  else
  for_each (tl argv) (fun a =>
    fd <- call (Open a O_RDONLY) ;;
    if fd <? 0 then
      fprintf 2 (chars "cat: cannot open %s" ++ [10]) [Print.AStr (Some a)] ;;
      exit 1
    else
    cat fd ;;
    call (Close fd) ;;
    Ret tt) ;;
  exit 0.

End Cat.

Module Wc.

Record counts : Type := Counts { c_l : Z; c_w : Z; c_c : Z; c_inword : bool }.

(** The body of the inner loop. *)
Definition count (x : counts) (ch : Z) : counts :=
  let c := s32 (c_c x + 1) in
  let l := if ch =? 10 then s32 (c_l x + 1) else c_l x in
  match Ulib.strchr [32; 13; 9; 10; 11] ch with
  | Some _ => Counts l (c_w x) c false
  | None => if negb (c_inword x) then Counts l (s32 (c_w x + 1)) c true else Counts l (c_w x) c true
  end.

(** The while loop. *)
Definition count_loop (fd : Z) : counts -> prog counts :=
  ITree.iter (fun x : counts =>
    '(n, buf) <- call (Read fd 512) ;;
    if n >? 0 then Ret (inl (foldl count x (take (Z.to_nat n) buf)))
    else if n <? 0 then
      printf (chars "wc: read error" ++ [10]) [] ;;
      exit 1
    else Ret (inr x)).

Definition wc (fd : Z) (name : list Z) : prog unit :=
  x <- count_loop fd (Counts 0 0 0 false) ;;
  printf (chars "%d %d %d %s" ++ [10]) [Print.AInt (c_l x); Print.AInt (c_w x); Print.AInt (c_c x); Print.AStr (Some name)].

Definition main (argv : list (list Z)) : prog Z :=
  if (length argv <=? 1)%nat then
    wc 0 [] ;;
    exit 0
  else
  for_each (tl argv) (fun a =>
    fd <- call (Open a O_RDONLY) ;;
    if fd <? 0 then
      printf (chars "wc: cannot open %s" ++ [10]) [Print.AStr (Some a)] ;;
      exit 1
    else
    wc fd a ;;
    call (Close fd) ;;
    Ret tt) ;;
  exit 0.

End Wc.

Module GrepMain.

(** The inner loop, from p; the result is the characters from the last p. *)
Fixpoint print_lines (fuel : nat) (pattern p : list Z) : prog (list Z) :=
  match fuel with
  | O => Ret p
  | S fuel =>
      match Ulib.strchr p 10 with
      | None => Ret p
      | Some (line, q) =>
          (if Grep.match_ pattern line then call (Write 1 (line ++ [10])) ;; Ret tt else Ret tt) ;;
          print_lines fuel pattern (tl q)
      end
  end.

(** The outer loop, whose variable is buf[0..m]. *)
Definition grep_loop (pattern : list Z) (fd : Z) : list Z -> prog unit :=
  ITree.iter (fun buf : list Z =>
    '(n, bs) <- call (Read fd (1024 - Z.of_nat (length buf) - 1)) ;;
    if n >? 0 then
      let buf := buf ++ take (Z.to_nat n) bs in
      rest <- print_lines (length buf) pattern buf ;;
      Ret (inl rest)
    else Ret (inr tt)).

Definition grep (pattern : list Z) (fd : Z) : prog unit := grep_loop pattern fd [].

Definition main (argv : list (list Z)) : prog Z :=
  match argv with
  | _ :: pattern :: files =>
      if bool_decide (files = []) then
        grep pattern 0 ;;
        exit 0
      else
      for_each files (fun a =>
        fd <- call (Open a O_RDONLY) ;;
        if fd <? 0 then
          printf (chars "grep: cannot open %s" ++ [10]) [Print.AStr (Some a)] ;;
          exit 1
        else
        grep pattern fd ;;
        call (Close fd) ;;
        Ret tt) ;;
      exit 0
  | _ =>
      fprintf 2 (chars "usage: grep pattern [file ...]" ++ [10]) [] ;;
      exit 1
  end.

End GrepMain.

Module Echo.

Fixpoint words (l : list (list Z)) : prog unit :=
  match l with
  | [] => Ret tt
  | a :: l =>
      call (Write 1 a) ;;
      (if bool_decide (l = []) then call (Write 1 [10]) else call (Write 1 [32])) ;;
      words l
  end.

Definition main (argv : list (list Z)) : prog Z :=
  words (tl argv) ;;
  exit 0.

End Echo.

Module Ls.

(** The characters after the last slash, found from the end. *)
Fixpoint after_slash (rpath acc : list Z) : list Z :=
  match rpath with
  | [] => acc
  | c :: rpath => if c =? 47 then acc else after_slash rpath (c :: acc)
  end.

Definition fmtname (path : list Z) : list Z :=
  let p := after_slash (rev path) [] in
  if (14 <=? length p)%nat then p else p ++ replicate (14 - length p) 32.

(** printf() of one line; st.size is cast to an int. *)
Definition print_entry (path : list Z) (st : Fs.stat) : prog unit :=
  printf (chars "%s %d %d %d" ++ [10])
    [Print.AStr (Some (fmtname path)); Print.AInt (Fs.st_type st); Print.AInt (Fs.st_ino st); Print.AInt (s32 (Fs.st_size st))].

(** The while loop over the entries; de.name is nul-padded and not always terminated. *)
Definition entries (fd : Z) (path : list Z) : prog unit :=
  ITree.iter (fun _ : unit =>
    '(n, de) <- call (Read fd 16) ;;
    if negb (n =? 16) then Ret (inr tt) else
    if Fs.de_inum de =? 0 then Ret (inl tt) else
    let buf := path ++ [47] ++ cstr (Fs.de_name de) in
    '(r, st) <- stat buf ;;
    if r <? 0 then
      printf (chars "ls: cannot stat %s" ++ [10]) [Print.AStr (Some buf)] ;;
      Ret (inl tt)
    else
    print_entry buf st ;;
    Ret (inl tt)) tt.

Definition ls (path : list Z) : prog unit :=
  fd <- call (Open path O_RDONLY) ;;
  if fd <? 0 then fprintf 2 (chars "ls: cannot open %s" ++ [10]) [Print.AStr (Some path)] else
  '(r, st) <- call (Fstat fd) ;;
  if r <? 0 then
    fprintf 2 (chars "ls: cannot stat %s" ++ [10]) [Print.AStr (Some path)] ;;
    call (Close fd) ;;
    Ret tt
  else
  (if (Fs.st_type st =? T_DEVICE) || (Fs.st_type st =? T_FILE) then print_entry path st
   else if Fs.st_type st =? T_DIR then
     if (512 <? length path + 1 + 14 + 1)%nat then printf (chars "ls: path too long" ++ [10]) []
     else entries fd path
   else Ret tt) ;;
  call (Close fd) ;;
  Ret tt.

Definition main (argv : list (list Z)) : prog Z :=
  if (length argv <? 2)%nat then
    ls (chars ".") ;;
    exit 0
  else
  for_each (tl argv) ls ;;
  exit 0.

End Ls.

Module Init.

(** The inner loop: wait() until the shell [pid] has exited. *)
Definition reap (pid : Z) : prog unit :=
  ITree.iter (fun _ : unit =>
    '(wpid, _) <- call Wait ;;
    if wpid =? pid then Ret (inr tt)
    else if wpid <? 0 then
      printf (chars "init: wait returned an error" ++ [10]) [] ;;
      exit 1
    else Ret (inl tt)) tt.

(** One round of the outer loop. *)
Definition shell : prog unit :=
  printf (chars "init: starting sh" ++ [10]) [] ;;
  pid <- call Fork ;;
  if pid <? 0 then
    printf (chars "init: fork failed" ++ [10]) [] ;;
    exit 1
  else if pid =? 0 then
    call (Exec (chars "sh") [chars "sh"]) ;;
    printf (chars "init: exec sh failed" ++ [10]) [] ;;
    exit 1
  else reap pid.

Definition main (argv : list (list Z)) : prog Z :=
  fd <- call (Open (chars "console") O_RDWR) ;;
  (if fd <? 0 then
     call (Mknod (chars "console") CONSOLE 0) ;;
     call (Open (chars "console") O_RDWR) ;;
     Ret tt
   else Ret tt) ;;
  call (Dup 0) ;;
  call (Dup 0) ;;
  ITree.iter (fun _ : unit => shell ;; Ret (inl tt)) tt.

End Init.

Module Ps.

Definition statenames : list (list Z) := chars <$> ["UNUSED"; "USED"; "SLEEPING"; "RUNNABLE"; "RUNNING"; "ZOMBIE"].

Definition statename (state : Z) : list Z :=
  if (state <? 0) || (state >? 5) then chars "?" else nth (Z.to_nat state) statenames [].

(** The for loop; the result is [found]. *)
Fixpoint scan (pids : list nat) (found : bool) : prog bool :=
  match pids with
  | [] => Ret found
  | pid :: pids =>
      '(r, info) <- call (Getprocinfo (Z.of_nat pid)) ;;
      if r =? 0 then
        printf (chars "%d %d %s %d %s" ++ [10])
          [Print.AInt (pi_pid info); Print.AInt (pi_ppid info); Print.AStr (Some (statename (pi_state info)));
           Print.AInt (s32 (pi_sz info)); Print.AStr (Some (cstr (pi_name info)))] ;;
        scan pids true
      else scan pids found
  end.

Definition main (argv : list (list Z)) : prog Z :=
  printf (chars "PID PPID STATE    SZ     NAME" ++ [10]) [] ;;
  found <- scan (seq 1 127) false ;;
  (if found : bool then Ret tt else printf (chars "ps: no live processes found" ++ [10]) []) ;;
  exit 0.

End Ps.

(** ** Programs of one system call *)

Module Simple.

Definition kill (argv : list (list Z)) : prog Z :=
  if (length argv <? 2)%nat then
    fprintf 2 (chars "usage: kill pid..." ++ [10]) [] ;;
    exit 1
  else
  for_each (tl argv) (fun a => call (Kill (Ulib.atoi a)) ;; Ret tt) ;;
  exit 0.

Definition ln (argv : list (list Z)) : prog Z :=
  match argv with
  | [_; old; new] =>
      r <- call (Link old new) ;;
      (if r <? 0 then fprintf 2 (chars "link %s %s: failed" ++ [10]) [Print.AStr (Some old); Print.AStr (Some new)] else Ret tt) ;;
      exit 0
  | _ =>
      fprintf 2 (chars "Usage: ln old new" ++ [10]) [] ;;
      exit 1
  end.

Definition mkdir (argv : list (list Z)) : prog Z :=
  if (length argv <? 2)%nat then
    fprintf 2 (chars "Usage: mkdir files..." ++ [10]) [] ;;
    exit 1
  else
  for_while (tl argv) (fun a =>
    r <- call (Mkdir a) ;;
    if r <? 0 then
      fprintf 2 (chars "mkdir: %s failed to create" ++ [10]) [Print.AStr (Some a)] ;;
      Ret false
    else Ret true) ;;
  exit 0.

Definition rm (argv : list (list Z)) : prog Z :=
  if (length argv <? 2)%nat then
    fprintf 2 (chars "Usage: rm files..." ++ [10]) [] ;;
    exit 1
  else
  for_while (tl argv) (fun a =>
    r <- call (Unlink a) ;;
    if r <? 0 then
      fprintf 2 (chars "rm: %s failed to delete" ++ [10]) [Print.AStr (Some a)] ;;
      Ret false
    else Ret true) ;;
  exit 0.

Definition zombie (argv : list (list Z)) : prog Z :=
  pid <- call Fork ;;
  (if pid >? 0 then call (Pause 5) ;; Ret tt else Ret tt) ;;
  exit 0.

End Simple.
