(* ===== verification/UserProofs.v ===== *)
(** * What the user programs print

    cat, wc and grep have one shape: main() opens the files it is given one after the other and
    hands each to a function that reads it to its end.  [filters] says what that function
    writes, and [files_run] what main() makes of it; the files may reach the program in pieces
    of any size. *)

From ITree Require Import ITree.
From S2P Require Import Prelude Machine FsData State Fs Print Ulib Grep User UserPrint UserProgs.

Module UserProofs.
Import User UserPrint.

Section files.
Context {sys : System} {files : Files sys}.

(** Standard output and standard error are open. *)
Definition std (w : world) : Prop := is_Some (v_out (view_of w) !! 1) /\ is_Some (v_out (view_of w) !! 2).

(** The function reads the rest [l] of the file and writes [text l]. *)
Definition filters (ok : list Z -> Prop) (body : Z -> prog unit) (text : list Z -> list Z) : Prop :=
  forall w fd l, std w -> ok l -> v_in (view_of w) !! fd = Some l ->
  exists w', runs (body fd) w (Returned tt w') /\ view_of w' = put 1 (text l) (set_in fd [] (view_of w)).

(** The loop of main(); [say] prints the message for a file that cannot be opened. *)
Definition file_loop (say : list Z -> prog unit) (body : list Z -> Z -> prog unit) (args : list (list Z)) : prog unit :=
  for_each args (fun a =>
    fd <- call (Open a O_RDONLY) ;;
    if fd <? 0 then
      say a ;;
      exit 1
    else
    body a fd ;;
    call (Close fd) ;;
    Ret tt).

(** The output for the files up to the first that cannot be opened, and that one. *)
Fixpoint read_files (v : view) (text : list Z -> list Z -> list Z) (args : list (list Z)) : list Z * option (list Z) :=
  match args with
  | [] => ([], None)
  | a :: args =>
      match v_file v !! a with
      | None => ([], Some a)
      | Some c => let '(out, missing) := read_files v text args in (text a c ++ out, missing)
      end
  end.

(** The exit status. *)
Definition status (missing : option (list Z)) : Z := match missing with Some _ => 1 | None => 0 end.

Lemma read_files_same v v' text args : v_file v' = v_file v -> read_files v' text args = read_files v text args.
Proof. intros E. induction args as [|a args IH]; cbn [read_files]; [done|]. by rewrite E, IH. Qed.

Lemma close_restores fd c v : v_in v !! fd = None -> del_in fd (set_in fd [] (set_in fd c v)) = v.
Proof.
  intros H. unfold del_in, set_in. cbn [v_out v_in v_file]. rewrite insert_insert_eq, delete_insert_id by done. by destruct v.
Qed.

Lemma std_put w w' fd bs : std w -> view_of w' = put fd bs (view_of w) -> std w'.
Proof. intros [H1 H2] E. split; rewrite E; by apply put_open. Qed.

Lemma std_in w w' fd l : std w -> view_of w' = set_in fd l (view_of w) -> std w'.
Proof. intros [H1 H2] E. split; by rewrite E. Qed.

Lemma fprintf_runs ch fmt args w : no_hex fmt = true -> ch = 1 \/ ch = 2 -> std w ->
  exists w', runs (fprintf ch fmt args) w (Returned tt w') /\ view_of w' = put ch (u8 <$> Print.format fmt args) (view_of w).
Proof. intros Hf Hc [H1 H2]. apply vprintf_prints; [done|]. by destruct Hc as [->| ->]. Qed.

Lemma printf_runs fmt args w : no_hex fmt = true -> std w ->
  exists w', runs (printf fmt args) w (Returned tt w') /\ view_of w' = put 1 (u8 <$> Print.format fmt args) (view_of w).
Proof. intros Hf [H1 _]. by apply vprintf_prints. Qed.

(** [say] writes [msg] to [ch]. *)
Definition says (say : list Z -> prog unit) (ch : Z) (msg : list Z -> list Z) : Prop :=
  forall a w, std w -> exists w', runs (say a) w (Returned tt w') /\ view_of w' = put ch (msg a) (view_of w).

Lemma files_run say ch msg ok body text args w :
  says say ch msg -> (forall a, filters ok (body a) (text a)) -> std w ->
  Forall (fun a => forall c, v_file (view_of w) !! a = Some c -> ok c) args ->
  let '(out, missing) := read_files (view_of w) text args in
  exists w', match missing with
    | None => runs (file_loop say body args) w (Returned tt w') /\ view_of w' = put 1 out (view_of w)
    | Some a => runs (file_loop say body args) w (Exited 1 w') /\
        view_of w' = put ch (msg a) (put 1 out (view_of w))
    end.
Proof.
  intros Hs Hb. revert w. induction args as [|a args IH]; intros w Hw Hok; cbn [read_files].
  { exists w. split; [apply prog_runs_ret|]. rewrite put_nil by apply Hw. done. }
  apply Forall_cons in Hok as [Hoka Hok]. unfold file_loop. cbn [for_each].
  destruct (open_law w a) as (fd & w1 & E1 & Hopen). destruct (v_file (view_of w) !! a) as [c|] eqn:Ea.
  - destruct Hopen as (Hfd & Hnone & V1). assert (Hw1 : std w1) by (by eapply std_in).
    destruct (Hb a w1 fd c Hw1 (Hoka c eq_refl)) as (w2 & R2 & V2); [rewrite V1; unfold set_in; cbn; by rewrite lookup_insert_eq|].
    destruct (close_law w2 fd) as (r & w3 & E3 & V3); [rewrite V2; unfold put, set_in; cbn; by rewrite lookup_insert_eq|].
    assert (V : view_of w3 = put 1 (text a c) (view_of w)).
    { rewrite V3, V2, V1. rewrite <- (close_restores fd c (view_of w) Hnone) at 2. done. }
    specialize (IH w3). rewrite V, (read_files_same (view_of w)) in IH by done.
    destruct (read_files (view_of w) text args) as [out missing].
    destruct IH as (w' & IH); [exact (std_put w w3 1 _ Hw V)|done|]. exists w'.
    assert (Hrun : forall o, runs (file_loop say body args) w3 o -> runs (file_loop say body (a :: args)) w o).
    { intros o Ho. unfold file_loop. cbn [for_each]. eapply runs_then; [|exact Ho].
      eapply runs_step; [done|exact E1|]. rewrite (proj2 (Z.ltb_ge _ _)) by done.
      eapply runs_then; [exact R2|]. eapply runs_step; [done|exact E3|]. apply prog_runs_ret. }
    destruct missing as [b|]; destruct IH as [IR IV]; (split; [by apply Hrun|]); rewrite IV, put_put; done.
  - destruct Hopen as (Hfd & V1).
    assert (Hw1 : std w1) by (destruct Hw; split; by rewrite V1).
    destruct (Hs a w1 Hw1) as (w2 & R2 & V2). exists w2. split.
    + apply runs_exits. eapply runs_step; [done|exact E1|]. rewrite (proj2 (Z.ltb_lt _ _)) by done.
      eapply runs_then; [exact R2|]. apply runs_exit.
    + rewrite V2, V1. rewrite put_nil by apply Hw. done.
Qed.

(** main() as a whole. *)
Lemma main_run say ch msg ok body text args w :
  says say ch msg -> (forall a, filters ok (body a) (text a)) -> std w ->
  Forall (fun a => forall c, v_file (view_of w) !! a = Some c -> ok c) args ->
  let '(out, missing) := read_files (view_of w) text args in
  exists w', runs (r <- (file_loop say body args ;; exit 0) ;; exit (A := void) r) w (Exited (status missing) w') /\
    view_of w' = match missing with None => put 1 out (view_of w) | Some a => put ch (msg a) (put 1 out (view_of w)) end.
Proof.
  intros Hs Hb Hw Hok. pose proof (files_run say ch msg ok body text args w Hs Hb Hw Hok) as H.
  destruct (read_files (view_of w) text args) as [out missing]. destruct H as [w' H]. exists w'.
  destruct missing as [a|]; destruct H as [R V]; split; [|done| |done].
  - by apply runs_exits, runs_exits.
  - apply runs_exits. eapply runs_then; [exact R|]. apply runs_exit.
Qed.

(** ** cat *)

Lemma cat_filters : filters (fun _ => True) Cat.cat (fun l => l).
Proof.
  intros w fd l. revert w. induction l as [l IH] using (induction_ltof1 _ length). unfold ltof in IH. intros w Hw _ Hl.
  destruct (read_law w fd 512 l Hl ltac:(lia)) as (k & w1 & E1 & Hk & _ & Hk0 & V1). unfold Cat.cat.
  destruct k as [|k].
  - rewrite (Hk0 eq_refl) in *. exists w1. split; [|by rewrite put_nil by apply Hw].
    apply runs_break. eapply runs_step; [done|exact E1|]. apply prog_runs_ret.
  - destruct (write_law w1 1 (take (S k) l)) as (w2 & E2 & V2); [rewrite V1; apply Hw|].
    destruct (IH (drop (S k) l)) with w2 as (w' & R & V); [rewrite length_drop; lia| |done| |].
    { eapply std_put; [|exact V2]. by eapply std_in. }
    { rewrite V2, V1. unfold put, set_in. cbn [v_in]. by rewrite lookup_insert_eq. }
    exists w'. split.
    + eapply runs_round; [|exact R]. eapply runs_step; [done|exact E1|]. cbn [Z.gtb].
      rewrite Nat2Z.id, take_take, Nat.min_id. eapply runs_step; [done|exact E2|].
      rewrite length_take_le, Z.eqb_refl by done. apply prog_runs_ret.
    + rewrite V, V2, V1. unfold put, set_in. cbn [v_out v_in v_file]. rewrite lookup_insert_eq, !insert_insert_eq. cbn.
      by rewrite <- app_assoc, take_drop.
Qed.

(** cat copies the files it is given to its standard output, in order and byte for byte,
    in whatever pieces read() returns them, and exits with 0; at the first file that cannot be
    opened it says so on standard error and exits with 1. *)
Theorem cat_copies w name args :
  std w -> args <> [] ->
  let '(out, missing) := read_files (view_of w) (fun _ c => c) args in
  exists w', runs (start Cat.main (name :: args)) w (Exited (status missing) w') /\
    view_of w' = match missing with
      | None => put 1 out (view_of w)
      | Some a => put 2 (u8 <$> chars "cat: cannot open " ++ a ++ [10]) (put 1 out (view_of w))
      end.
Proof.
  intros Hw Ha. pose proof (main_run (fun a => fprintf 2 (chars "cat: cannot open %s" ++ [10]) [Print.AStr (Some a)]) 2
    (fun a => u8 <$> Print.format (chars "cat: cannot open %s" ++ [10]) [Print.AStr (Some a)]) (fun _ => True)
    (fun _ => Cat.cat) (fun _ c => c) args w) as H.
  destruct (read_files (view_of w) _ args) as [out missing].
  destruct H as (w' & R & V); [intros b w0 Hw0; apply fprintf_runs; [done|by right|done]|intros _; apply cat_filters|done|by apply Forall_forall|].
  unfold start, Cat.main. destruct args as [|a args]; [done|]. cbn [length Nat.leb tl]. exists w'. split; [exact R|exact V].
Qed.

(** ** wc *)

Definition space (c : Z) : bool := bool_decide (c ∈ [32; 13; 9; 10; 11]).

(** The words of a text: its maximal pieces without a space, of which [cur] is begun. *)
Fixpoint words (cur s : list Z) : list (list Z) :=
  match s with
  | [] => if bool_decide (cur = []) then [] else [cur]
  | c :: s =>
      if space c then (if bool_decide (cur = []) then words [] s else cur :: words [] s)
      else words (cur ++ [c]) s
  end.

Definition newlines (s : list Z) : Z := Z.of_nat (length (filter (fun c => c = 10) s)).

Lemma newlines_step c s : newlines (c :: s) = (if c =? 10 then 1 else 0) + newlines s.
Proof.
  unfold newlines. rewrite filter_cons. destruct (Z.eqb_spec c 10); [rewrite decide_True by done; cbn; lia|by rewrite decide_False].
Qed.

Lemma strchr_space c : Ulib.strchr [32; 13; 9; 10; 11] c = None <-> space c = false.
Proof.
  unfold space. destruct (decide (c ∈ [32; 13; 9; 10; 11])) as [H|H].
  - rewrite bool_decide_true by done. rewrite !elem_of_cons, elem_of_nil in H. by repeat (destruct H as [->|H]).
  - rewrite bool_decide_false, Ulib.strchr_none by done. done.
Qed.

(** The loop in the middle of a word [cur]; the counters are below 2^31. *)
Lemma count_spec s l w n cur :
  0 <= l -> 0 <= w -> 0 <= n -> l <= n -> w + (if bool_decide (cur = []) then 0 else 1) <= n -> n + Z.of_nat (length s) < 2 ^ 31 ->
  let x := foldl Wc.count (Wc.Counts l (w + (if bool_decide (cur = []) then 0 else 1)) n (negb (bool_decide (cur = [])))) s in
  Wc.c_l x = l + newlines s /\ Wc.c_w x = w + Z.of_nat (length (words cur s)) /\ Wc.c_c x = n + Z.of_nat (length s).
Proof.
  revert l w n cur. induction s as [|c s IH]; intros l w n cur H1 H2 H3 H4 H5 H6.
  - cbn. unfold newlines. cbn. split; [lia|]. split; [|lia]. destruct (bool_decide (cur = [])); cbn; lia.
  - cbn [foldl words length] in *. rewrite newlines_step. cbv zeta.
    remember (Wc.count _ c) as y eqn:Hy. unfold Wc.count in Hy. cbn [Wc.c_l Wc.c_w Wc.c_c Wc.c_inword] in Hy.
    assert (Hl : (if c =? 10 then s32 (l + 1) else l) = l + (if c =? 10 then 1 else 0))
      by (destruct (c =? 10); [rewrite Ulib.s32_id; lia|lia]).
    rewrite Hl, (Ulib.s32_id (n + 1)) in Hy by lia.
    destruct (Ulib.strchr _ c) as [p|] eqn:Ec; rewrite Hy; clear y Hy.
    + assert (space c = true) as -> by (destruct (space c) eqn:E; [done|apply strchr_space in E; congruence]).
      specialize (IH (l + (if c =? 10 then 1 else 0)) (w + (if bool_decide (cur = []) then 0 else 1)) (n + 1) []).
      change (bool_decide ([] = [])) with true in IH. cbn [negb] in IH. rewrite Z.add_0_r in IH.
      destruct IH as (I1 & I2 & I3); try (destruct (c =? 10), (bool_decide (cur = [])); lia).
      split; [rewrite I1; lia|]. split; [rewrite I2|rewrite I3; lia]. destruct (bool_decide (cur = [])); cbn [length]; lia.
    + apply strchr_space in Ec as Es. rewrite Es. assert ((c =? 10) = false) as ->.
      { destruct (Z.eqb_spec c 10) as [->|]; [by vm_compute in Ec|done]. }
      specialize (IH l w (n + 1) (cur ++ [c])). rewrite (bool_decide_false (cur ++ [c] = [])) in IH by (by destruct cur).
      cbn [negb] in IH |- *. rewrite !Z.add_0_r in *.
      destruct (bool_decide (cur = [])) eqn:Eb; cbn [negb].
      * rewrite Z.add_0_r, (Ulib.s32_id (w + 1)) by lia. destruct IH as (I1 & I2 & I3); lia.
      * destruct IH as (I1 & I2 & I3); lia.
Qed.

Lemma count_loop_runs fd l x w :
  v_in (view_of w) !! fd = Some l ->
  exists w', runs (Wc.count_loop fd x) w (Returned (foldl Wc.count x l) w') /\ view_of w' = set_in fd [] (view_of w).
Proof.
  revert x w. induction l as [l IH] using (induction_ltof1 _ length). unfold ltof in IH. intros x w Hl.
  destruct (read_law w fd 512 l Hl ltac:(lia)) as (k & w1 & E1 & Hk & _ & Hk0 & V1). unfold Wc.count_loop.
  destruct k as [|k].
  - rewrite (Hk0 eq_refl) in *. exists w1. split; [|done]. apply runs_break. eapply runs_step; [done|exact E1|]. apply prog_runs_ret.
  - destruct (IH (drop (S k) l)) with (foldl Wc.count x (take (S k) l)) w1 as (w' & R & V); [rewrite length_drop; lia| |].
    { rewrite V1. unfold set_in. cbn [v_in]. by rewrite lookup_insert_eq. }
    exists w'. split.
    + rewrite <- foldl_app, take_drop in R. eapply runs_round; [|exact R]. eapply runs_step; [done|exact E1|]. cbn [Z.gtb].
      rewrite Nat2Z.id, take_take, Nat.min_id. apply prog_runs_ret.
    + rewrite V, V1. unfold set_in. cbn [v_out v_in v_file]. by rewrite insert_insert_eq.
Qed.

Definition dec (n : Z) : list Z := Print.printint n 10 true.

Definition wc_line (name l : list Z) : list Z :=
  dec (newlines l) ++ [32] ++ dec (Z.of_nat (length (words [] l))) ++ [32] ++ dec (Z.of_nat (length l)) ++ [32] ++ name ++ [10].

(** A file that is counted without overflow. *)
Definition small (l : list Z) : Prop := Z.of_nat (length l) < 2 ^ 31.

Lemma words_le cur s : Z.of_nat (length (words cur s)) <= Z.of_nat (length s) + (if bool_decide (cur = []) then 0 else 1).
Proof.
  revert cur. induction s as [|c s IH]; intros cur; cbn [words length].
  - destruct (bool_decide (cur = [])); cbn; lia.
  - specialize (IH []) as I0. change (bool_decide ([] = [])) with true in I0. destruct (space c), (bool_decide (cur = [])); cbn [length]; try lia.
    + specialize (IH (cur ++ [c])). destruct (bool_decide (cur ++ [c] = [])); lia.
    + specialize (IH (cur ++ [c])). destruct (bool_decide (cur ++ [c] = [])); lia.
Qed.

Lemma wc_format a b c name :
  Print.format (chars "%d %d %d %s" ++ [10]) [Print.AInt a; Print.AInt b; Print.AInt c; Print.AStr (Some name)] =
  dec (s32 a) ++ [32] ++ dec (s32 b) ++ [32] ++ dec (s32 c) ++ [32] ++ name ++ [10].
Proof.
  change (chars "%d %d %d %s" ++ [10]) with [37; 100; 32; 37; 100; 32; 37; 100; 32; 37; 115; 10]. unfold dec.
  cbn -[Print.printint s32]. reflexivity.
Qed.

Lemma wc_filters name : filters small (fun fd => Wc.wc fd name) (fun l => u8 <$> wc_line name l).
Proof.
  intros w fd l Hw Hs Hl. unfold small in Hs. destruct (count_loop_runs fd l (Wc.Counts 0 0 0 false) w Hl) as (w1 & R1 & V1).
  pose proof (count_spec l 0 0 0 []) as C. change (bool_decide ([] = [])) with true in C. cbn [negb] in C. rewrite !Z.add_0_l in C.
  set (x := foldl Wc.count _ l) in *. destruct C as (C1 & C2 & C3); [lia..|]. clearbody x.
  destruct (printf_runs (chars "%d %d %d %s" ++ [10]) [Print.AInt (Wc.c_l x); Print.AInt (Wc.c_w x); Print.AInt (Wc.c_c x); Print.AStr (Some name)] w1)
    as (w2 & R2 & V2); [done|by eapply std_in|].
  exists w2. split; [unfold Wc.wc; eapply runs_then; [exact R1|exact R2]|]. rewrite V2, V1. apply (f_equal (fun t => put 1 (u8 <$> t) _)).
  pose proof (words_le [] l) as Hwl. change (bool_decide ([] = [])) with true in Hwl.
  assert (Hnl : newlines l <= Z.of_nat (length l)) by (unfold newlines; pose proof (length_filter (fun c => c = 10) l); lia).
  assert (Hn0 : 0 <= newlines l) by (unfold newlines; lia).
  rewrite wc_format, C1, C2, C3, !Ulib.s32_id by lia. done.
Qed.

(** wc prints, for each file in order, its numbers of newlines, of words and of bytes and its
    name, wherever read() cuts the file, also inside a word; at the first file that cannot be
    opened it says so and exits with 1. *)
Theorem wc_prints w name args :
  std w -> args <> [] -> Forall (fun a => forall c, v_file (view_of w) !! a = Some c -> small c) args ->
  let '(out, missing) := read_files (view_of w) (fun a c => u8 <$> wc_line a c) args in
  exists w', runs (start Wc.main (name :: args)) w (Exited (status missing) w') /\
    view_of w' = put 1 (out ++ match missing with Some a => u8 <$> chars "wc: cannot open " ++ a ++ [10] | None => [] end) (view_of w).
Proof.
  intros Hw Ha Hs. pose proof (main_run (fun a => printf (chars "wc: cannot open %s" ++ [10]) [Print.AStr (Some a)]) 1
    (fun a => u8 <$> Print.format (chars "wc: cannot open %s" ++ [10]) [Print.AStr (Some a)]) small
    (fun a fd => Wc.wc fd a) (fun a c => u8 <$> wc_line a c) args w) as H.
  destruct (read_files (view_of w) _ args) as [out missing].
  destruct H as (w' & R & V); [intros b w0 Hw0; apply printf_runs; done|intros a; apply wc_filters|done|done|].
  unfold start, Wc.main. destruct args as [|a args]; [done|]. cbn [length Nat.leb tl]. exists w'. split; [exact R|].
  rewrite V. destruct missing; [by rewrite put_put|by rewrite app_nil_r].
Qed.

(** ** grep *)

Lemma print_lines_runs fuel pattern p w :
  std w ->
  exists w', runs (GrepMain.print_lines fuel pattern p) w (Returned (Grep.grep_lines fuel pattern p).2 w') /\
    view_of w' = put 1 (Grep.grep_lines fuel pattern p).1 (view_of w).
Proof.
  revert p w. induction fuel as [|fuel IH]; intros p w Hw; cbn [GrepMain.print_lines Grep.grep_lines].
  { exists w. split; [apply prog_runs_ret|]. by rewrite put_nil by apply Hw. }
  change Grep.newline with 10. destruct (Ulib.strchr p 10) as [[line q]|].
  2: { exists w. split; [apply prog_runs_ret|]. by rewrite put_nil by apply Hw. }
  assert (H1 : exists w1, runs (if Grep.match_ pattern line then call (Write 1 (line ++ [10])) ;; Ret tt else Ret tt) w (Returned tt w1) /\
    view_of w1 = put 1 (if Grep.match_ pattern line then line ++ [10] else []) (view_of w)).
  { destruct (Grep.match_ pattern line); [apply prints_write, Hw|]. exists w. split; [apply prog_runs_ret|by rewrite put_nil by apply Hw]. }
  destruct H1 as (w1 & R1 & V1). destruct (IH (tl q) w1) as (w2 & R2 & V2); [by eapply std_put|].
  destruct (Grep.grep_lines fuel pattern (tl q)) as [out rest]. exists w2. split; [by eapply runs_then|].
  by rewrite V2, V1, put_put.
Qed.

(** What the buffer can hold: no nul, and no line longer than 1022 characters. *)
Definition textual (l : list Z) : Prop := (0 ∉ l) /\ Grep.short_lines l.

Lemma grep_loop_runs pattern fd l pend w :
  std w -> (10 ∉ pend) -> textual (pend ++ l) -> v_in (view_of w) !! fd = Some l ->
  exists w', runs (GrepMain.grep_loop pattern fd pend) w (Returned tt w') /\
    view_of w' = put 1 (Grep.matching pattern (Grep.lines (pend ++ l)).1) (set_in fd [] (view_of w)).
Proof.
  revert pend w. induction l as [l IH] using (induction_ltof1 _ length). unfold ltof in IH. intros pend w Hw Hp [Hz Hs] Hl.
  pose proof (Grep.short_pending _ _ Hp Hs) as Hlen.
  destruct (read_law w fd (1024 - Z.of_nat (length pend) - 1) l Hl ltac:(lia)) as (k & w1 & E1 & Hk & _ & Hk0 & V1).
  destruct k as [|k].
  - rewrite (Hk0 eq_refl), app_nil_r, Grep.lines_none in * by done. exists w1. split; [|by rewrite put_nil by apply Hw].
    apply runs_break. eapply runs_step; [done|exact E1|]. apply prog_runs_ret.
  - assert (Hw1 : std w1) by (by eapply std_in). set (got := take (S k) l) in *. set (l' := drop (S k) l) in *.
    assert (Hgot : l = got ++ l') by (symmetry; apply take_drop).
    assert (Hl' : (length l' < length l)%nat) by (unfold l'; rewrite length_drop; lia).
    assert (Hn : Z.to_nat (Z.of_nat (S k)) = S k) by lia. assert (Hgt : take (S k) got = got) by (unfold got; by rewrite take_take, Nat.min_id).
    clearbody got l'. rewrite Hgot, app_assoc in Hz, Hs.
    assert (Hz1 : 0 ∉ pend ++ got) by set_solver.
    destruct (print_lines_runs (length (pend ++ got)) pattern (pend ++ got) w1 Hw1) as (w2 & R2 & V2).
    rewrite Grep.grep_lines_spec in R2, V2 by done. cbn [fst snd] in R2, V2.
    destruct (Grep.lines_app (pend ++ got) l') as [L1 L2].
    destruct (IH l' Hl' (Grep.lines (pend ++ got)).2 w2) as (w3 & R3 & V3).
    + by eapply std_put.
    + apply Grep.lines_rest_nonl.
    + assert (Hsub : forall x, x ∈ (Grep.lines (pend ++ got)).2 -> x ∈ pend ++ got) by (intros; by apply Grep.lines_rest_sub).
      split; [set_solver|]. unfold Grep.short_lines in *. rewrite L1, L2 in Hs. destruct Hs as [Hs ?]. by apply Forall_app in Hs as [_ ?].
    + rewrite V2, V1. unfold put, set_in. cbn [v_in]. by rewrite lookup_insert_eq.
    + exists w3. split.
      * eapply runs_round; [|exact R3]. eapply runs_step; [done|exact E1|]. cbn [Z.gtb]. cbv zeta.
        rewrite Hn, Hgt. eapply runs_then; [exact R2|]. apply prog_runs_ret.
      * rewrite V3, V2, V1, Hgot, app_assoc, L1, Grep.matching_app. unfold put, set_in. cbn [v_out v_in v_file].
        rewrite lookup_insert_eq, !insert_insert_eq. cbn. by rewrite app_assoc.
Qed.

(** C22: grep prints exactly those lines of the files it is given that match and that a newline
    ends, in order and with their newline, wherever read() cuts them, and exits with 0, when the
    files have no null bytes and no line fills its buffer.  What follows the last newline of a
    file is not printed, matching or not.  At the first file that cannot be opened grep says so
    and exits with 1. *)
Theorem grep_selects w name pattern args :
  std w -> args <> [] -> Forall (fun a => forall c, v_file (view_of w) !! a = Some c -> textual c) args ->
  let '(out, missing) := read_files (view_of w) (fun _ c => Grep.matching pattern (Grep.lines c).1) args in
  exists w', runs (start GrepMain.main (name :: pattern :: args)) w (Exited (status missing) w') /\
    view_of w' = put 1 (out ++ match missing with Some a => u8 <$> chars "grep: cannot open " ++ a ++ [10] | None => [] end) (view_of w).
Proof.
  intros Hw Ha Hs. pose proof (main_run (fun a => printf (chars "grep: cannot open %s" ++ [10]) [Print.AStr (Some a)]) 1
    (fun a => u8 <$> Print.format (chars "grep: cannot open %s" ++ [10]) [Print.AStr (Some a)]) textual
    (fun _ => GrepMain.grep pattern) (fun _ c => Grep.matching pattern (Grep.lines c).1) args w) as H.
  destruct (read_files (view_of w) _ args) as [out missing].
  destruct H as (w' & R & V); [intros b w0 Hw0; apply printf_runs; done|intros _ w0 fd l H0 H1 H2; by apply (grep_loop_runs pattern fd l [] w0); [|apply not_elem_of_nil|..]|done|done|].
  unfold start, GrepMain.main. rewrite bool_decide_false by done. exists w'. split; [exact R|].
  rewrite V. destruct missing; [by rewrite put_put|by rewrite app_nil_r].
Qed.

(** ** echo *)

Fixpoint echoed (l : list (list Z)) : list Z :=
  match l with
  | [] => []
  | [a] => a ++ [10]
  | a :: l => a ++ [32] ++ echoed l
  end.

(** echo prints its arguments with a space between two and a newline after the last. *)
Lemma echo_prints w name args : std w ->
  exists w', runs (start Echo.main (name :: args)) w (Exited 0 w') /\ view_of w' = put 1 (echoed args) (view_of w).
Proof.
  assert (Hw : forall bs w, std w -> exists r w', runs (call (Write 1 bs)) w (Returned r w') /\ view_of w' = put 1 bs (view_of w)).
  { intros bs w0 [H _]. destruct (write_law w0 1 bs H) as (w1 & E & V). exists (Z.of_nat (length bs)), w1. split; [by apply runs_call|done]. }
  assert (Hl : forall w, std w -> exists w', runs (Echo.words args) w (Returned tt w') /\ view_of w' = put 1 (echoed args) (view_of w)).
  { induction args as [|a l IH]; intros w0 H0; cbn [Echo.words].
    - exists w0. split; [apply prog_runs_ret|]. by rewrite put_nil by apply H0.
    - destruct (Hw a w0 H0) as (r1 & w1 & R1 & V1). pose proof (std_put _ _ _ _ H0 V1) as H1.
      destruct (Hw (if bool_decide (l = []) then [10] else [32]) w1 H1) as (r2 & w2 & R2 & V2). pose proof (std_put _ _ _ _ H1 V2) as H2.
      destruct (IH w2 H2) as (w3 & R3 & V3). exists w3. split.
      + eapply runs_then; [exact R1|]. eapply runs_then; [|exact R3]. destruct (bool_decide (l = [])); exact R2.
      + rewrite V3, V2, V1, !put_put. f_equal. destruct l as [|b l]; cbn [echoed]; [by rewrite ?app_nil_r|done]. }
  intros Hs. destruct (Hl w Hs) as (w' & R & V). exists w'. split; [|done]. apply runs_exits. eapply runs_then; [exact R|apply runs_exit].
Qed.

End files.

(** ** ls *)

Lemma after_slash_spec base rest acc : (47 ∉ base) -> Ls.after_slash (rev base ++ 47 :: rest) acc = base ++ acc.
Proof.
  revert acc. induction base as [|c base IH] using rev_ind; intros acc H; cbn; [done|].
  rewrite rev_app_distr. cbn. apply not_elem_of_app in H as [H Hc].
  destruct (Z.eqb_spec c 47) as [->|_]; [exfalso; apply Hc; by left|]. rewrite IH by done. by rewrite <- app_assoc.
Qed.

(** fmtname() gives the last element of a path, filled up with blanks to 14 characters. *)
Lemma fmtname_pads dir base :
  (47 ∉ base) -> Ls.fmtname (dir ++ [47] ++ base) = base ++ replicate (14 - length base) 32.
Proof.
  intros H. unfold Ls.fmtname. rewrite !rev_app_distr, <- app_assoc. cbn [rev app].
  rewrite after_slash_spec, app_nil_r by done. destruct (Nat.leb_spec 14 (length base)); [|done].
  replace (14 - length base)%nat with 0%nat by lia. cbn. by rewrite app_nil_r.
Qed.

(** ** init *)

Section quiet.
Context {St : Type} (watch : forall X, sysE X -> X -> St -> option St) (may_exit : St -> Prop).
Hypothesis watch_write : forall fd bs r s, watch _ (Write fd bs) r s = Some s.

(** A program that only writes. *)
Definition quiet (t : prog unit) : Prop := forall n s Q, (forall m, Q tt s m) -> safe watch may_exit n t s Q.

Lemma quiet_ret : quiet (Ret tt).
Proof. intros n s Q H. by apply safe_ret. Qed.

Lemma quiet_seq t u : quiet t -> quiet u -> quiet (t ;; u).
Proof. intros Ht Hu n s Q H. apply safe_bind, Ht. intros m. by apply Hu. Qed.

Lemma quiet_putc fd c : quiet (putc fd c).
Proof. intros n s Q H. apply safe_bind, safe_call; [done|]. intros x. rewrite watch_write. intros m. by apply safe_ret. Qed.

Lemma quiet_all fd cs : quiet (put_all fd cs).
Proof. induction cs as [|c cs IH]; [apply quiet_ret|]. apply quiet_seq; [apply quiet_putc|done]. Qed.

Lemma quiet_ptr fd n x : quiet (ptr_loop fd n x).
Proof. revert x. induction n as [|n IH]; intros x; [apply quiet_ret|]. apply quiet_seq; [apply quiet_putc|apply IH]. Qed.

Lemma quiet_printint fd xx base sgn : quiet (printint fd xx base sgn).
Proof. apply quiet_all. Qed.

Lemma quiet_printptr fd x : quiet (printptr fd x).
Proof. apply quiet_seq; [apply quiet_putc|]. apply quiet_seq; [apply quiet_putc|apply quiet_ptr]. Qed.

Lemma quiet_loop fd fmt skip state args : quiet (vprintf_loop fd fmt skip state args).
Proof.
  revert skip state args. induction fmt as [|c0 rest IH]; intros skip state args; [apply quiet_ret|]. cbn [vprintf_loop].
  destruct skip as [|skip]; [|apply IH]. cbv zeta.
  repeat match goal with |- quiet (if ?b then _ else _) => destruct b end;
    repeat first [apply IH | apply quiet_printint | apply quiet_printptr | apply quiet_putc | apply quiet_all | apply quiet_seq].
Qed.

Lemma quiet_printf fmt args : quiet (printf fmt args).
Proof. apply quiet_loop. Qed.

End quiet.

(** The shell init has started and not yet seen exit, and whether a fork() failed or was that of
    the child, or a wait() failed.  A second shell may not be started while there is one, and
    wait() only be called while there is one. *)
Definition init_watch (X : Type) (e : sysE X) : X -> option Z * bool -> option (option Z * bool) :=
  match e in sysE X return X -> option Z * bool -> option (option Z * bool) with
  | Fork => fun pid s => match s.1 with None => Some (Some pid, s.2 || (pid <=? 0)) | Some _ => None end
  | Wait => fun a s => match s.1 with Some pid => Some (if a.1 =? pid then None else Some pid, s.2 || (a.1 <? 0)) | None => None end
  | _ => fun _ s => Some s
  end.

Lemma reap_safe n pid b :
  safe init_watch (fun s => s.2 = true) n (Init.reap pid) (Some pid, b) (fun _ s _ => s.1 = None).
Proof.
  apply (safe_iter _ _ (fun _ s => s.1 = Some pid)); [|done]. intros _ [live b'] m Hlive. cbn in Hlive. subst live.
  apply safe_bind, safe_call; [done|]. intros [wpid st]. cbn [init_watch fst snd]. intros j.
  destruct (Z.eqb_spec wpid pid); [by apply safe_ret|]. destruct (Z.ltb_spec wpid 0); [|by apply safe_ret].
  apply safe_bind, quiet_printf; [done|]. intros i. apply safe_exit. cbn. by rewrite orb_true_r.
Qed.

Lemma shell_safe n b : safe init_watch (fun s => s.2 = true) n Init.shell (None, b) (fun _ s _ => s.1 = None).
Proof.
  apply safe_bind, quiet_printf; [done|]. intros m. apply safe_bind, safe_call; [done|]. intros pid. cbn [init_watch fst snd]. intros j.
  destruct (Z.ltb_spec pid 0).
  { apply safe_bind, quiet_printf; [done|]. intros i. apply safe_exit. cbn. rewrite orb_true_iff. lia. }
  destruct (Z.eqb_spec pid 0); [|apply reap_safe].
  apply safe_bind, safe_call; [done|]. intros r i. apply safe_bind, quiet_printf; [done|]. intros h. apply safe_exit. cbn. rewrite orb_true_iff. lia.
Qed.

(** C24: init has at most one shell at a time: in every run, on any system, it starts the next one
    only after wait() has returned the last, calls wait() only while there is one, and exits
    only after a failed fork() or wait(), or in the child when exec() has failed. *)
Theorem init_one_shell {sys : System} argv n w :
  exists live failed, monitor init_watch (trace n (start Init.main argv) w) (None, false) = Some (live, failed) /\
    forall c w', run n (start Init.main argv) w = Some (Exited c w') -> failed = true.
Proof.
  destruct (safe_monitor init_watch (fun s => s.2 = true) n (start Init.main argv) (None, false) (fun _ _ _ => True) w)
    as ([live failed] & H & Hx); [|by exists live, failed].
  unfold start, Init.main. do 2 apply safe_bind. apply safe_call; [done|]. intros fd m. apply safe_bind.
  assert (Hloop : forall k (Q : Z -> _), safe init_watch (fun s => s.2 = true) k
    (call (Dup 0) ;; call (Dup 0) ;; ITree.iter (fun _ : unit => Init.shell ;; Ret (inl tt)) tt) (None, false) Q).
  { intros k Q. apply safe_bind, safe_call; [done|]. intros r1 j. apply safe_bind, safe_call; [done|]. intros r2 i.
    apply (safe_iter _ _ (fun _ s => s.1 = None)); [|done]. intros _ [live b] h Hlive. cbn in Hlive. subst live.
    apply safe_bind, (safe_mono _ _ _ _ _ _ _ (shell_safe h b)). intros [] s' h' _ Hs'. by apply safe_ret. }
  destruct (fd <? 0); [|by apply safe_ret]. apply safe_bind, safe_call; [done|]. intros r j.
  apply safe_bind, safe_call; [done|]. intros r' i. by apply safe_ret.
Qed.

(** ** A run: grep a f g, where only f exists, with two bytes a read *)

Definition demo_view : view := View (<[1 := []]> {[2 := []]}) ∅ {[chars "f" := chars "cat" ++ [10] ++ chars "dog" ++ [10]]}.

Lemma grep_selects_witness : exists w' : @world (toy 1),
  runs (sys := toy 1) (start GrepMain.main [chars "grep"; chars "a"; chars "f"; chars "g"]) demo_view (Exited 1 w') /\
  v_out (view_of w') !! 1 = Some (chars "cat" ++ [10] ++ chars "grep: cannot open g" ++ [10]).
Proof.
  destruct (grep_selects (sys := toy 1) demo_view (chars "grep") (chars "a") [chars "f"; chars "g"]) as (w' & R & V).
  - split; by eexists.
  - done.
  - apply Forall_forall. intros a _ c H. unfold demo_view in H. cbn [view_of toy_files v_file] in H.
    apply lookup_singleton_Some in H as [_ <-].
    split; [by apply (bool_decide_unpack (_ ∉ _)); vm_compute|]. by apply (bool_decide_unpack (Grep.short_lines _)); vm_compute.
  - exists w'. split; [exact R|]. rewrite V. reflexivity.
Defined.

End UserProofs.
