(* ===== verification/VirtioProofs.v ===== *)
(** * The disk driver refines a disk of blocks *)

From stdpp Require Import functions.
From S2P Require Import Prelude Machine FsData DiskData State Locks CString Kalloc VM PageTable Virtio.

Module VirtioProofs.
Import Virtio.

(** ** Rings

    The entries of a ring from position [lo] on; positions are counted modulo 2^16, and the
    ring has 8 places. *)
Definition window (ring : Z -> Z) (lo n : Z) : list Z := (fun k => ring ((lo + k) mod NUM)) <$> seqZ 0 n.

Lemma length_window ring lo n : 0 <= n -> Z.of_nat (length (window ring lo n)) = n.
Proof. intros Hn. unfold window. rewrite length_fmap, length_seqZ. lia. Qed.

Lemma mod_mod8 x : x mod 2 ^ 16 mod NUM = x mod NUM.
Proof. unfold NUM. apply Z.mod_mod_divide. exists 8192. lia. Qed.

Lemma window_pop ring lo n : 0 < n -> window ring lo n = ring (lo mod NUM) :: window ring (u16 (lo + 1)) (n - 1).
Proof.
  intros Hn. unfold window. rewrite seqZ_cons by lia. cbn [fmap list_fmap]. rewrite Z.add_0_r. f_equal.
  replace (Z.pred n) with (n - 1) by lia. change (Z.succ 0) with (1 + 0). rewrite <- (fmap_add_seqZ 1 0), <- list_fmap_compose. apply list_fmap_ext. intros i x _. cbn. f_equal. unfold u16.
  rewrite Z.add_assoc. unfold NUM. rewrite <- (Zplus_mod_idemp_l (_ mod 2 ^ 16)), mod_mod8. by rewrite Zplus_mod_idemp_l.
Qed.

Lemma window_push ring lo n x :
  0 <= n < NUM -> window (<[(lo + n) mod NUM := x]> ring) lo (n + 1) = window ring lo n ++ [x].
Proof.
  intros Hn. unfold window. rewrite seqZ_app, fmap_app by lia. f_equal.
  - apply list_fmap_ext. intros i k Hk. apply lookup_seqZ in Hk as [-> Hk]. apply fn_lookup_insert_ne. unfold NUM in *. intros E. dlia.
  - rewrite (seqZ_cons (0 + n) 1), seqZ_nil by lia. cbn [fmap list_fmap]. by rewrite Z.add_0_l, fn_lookup_insert.
Qed.

(** The number of entries between two positions. *)
Definition gap (lo hi : Z) : Z := u16 (hi - lo).

Lemma gap_range lo hi : 0 <= gap lo hi.
Proof. apply Z.mod_pos_bound. lia. Qed.

Lemma gap_hi lo hi : hi mod NUM = (lo + gap lo hi) mod NUM.
Proof. unfold gap, u16, NUM. rewrite <- (Zplus_mod_idemp_r ((hi - lo) mod 2 ^ 16)), mod_mod8, Zplus_mod_idemp_r. f_equal. lia. Qed.

Lemma gap_push lo hi : gap lo hi < NUM -> gap lo (u16 (hi + 1)) = gap lo hi + 1.
Proof.
  unfold gap, u16, NUM. intros H. rewrite Zminus_mod_idemp_l. replace (hi + 1 - lo) with (hi - lo + 1) by lia.
  rewrite <- Zplus_mod_idemp_l. apply Z.mod_small. pose proof (Z.mod_pos_bound (hi - lo) (2 ^ 16)). lia.
Qed.

Lemma gap_pop lo hi : 0 < gap lo hi -> gap (u16 (lo + 1)) hi = gap lo hi - 1.
Proof.
  unfold gap, u16. intros H. rewrite Zminus_mod_idemp_r. replace (hi - (lo + 1)) with (hi - lo - 1) by lia.
  rewrite <- Zminus_mod_idemp_l. apply Z.mod_small. pose proof (Z.mod_pos_bound (hi - lo) (2 ^ 16)). lia.
Qed.

(** ** Descriptors *)

(** Only descriptors, their free marks, and who sleeps may differ. *)
Definition same_rest (s s' : vstate) : Prop :=
  exists de fr p, s' = Vstate (set_dfree fr (set_desc de (v_disk s))) (v_buf s) p (v_lock s) (v_sector s) (v_seen s) (v_taken s) (v_notified s) (v_irq s).

Lemma same_rest_refl s : same_rest s s.
Proof. exists (desc (v_disk s)), (dfree (v_disk s)), (v_pc s). destruct s as [[] ? ? ? ? ? ? ? ?]. done. Qed.

Lemma same_rest_trans s1 s2 s3 : same_rest s1 s2 -> same_rest s2 s3 -> same_rest s1 s3.
Proof. intros (? & ? & ? & ->) (de & fr & p & ->). by exists de, fr, p. Qed.

Definition desc_no (j : Z) : Prop := 0 <= j < NUM.

(** The descriptors [l] have been given back, [k] times waking who waits for one. *)
Record frees (l : list Z) (s s' : vstate) : Prop := {
  fr_rest : same_rest s s';
  fr_desc j : desc (v_disk s') j = if decide (j ∈ l) then zero_desc else desc (v_disk s) j;
  fr_free j : dfree (v_disk s') j = if decide (j ∈ l) then 1 else dfree (v_disk s) j;
  fr_pc t : v_pc s' t = match l with [] => v_pc s t | _ => woken ChFree (v_pc s t) end
}.

Lemma woken_twice ch p : woken ch (woken ch p) = woken ch p.
Proof. destruct p, ch; cbn; try done. case_bool_decide; cbn; [done|]. by rewrite bool_decide_false. Qed.

Lemma frees_nil s : frees [] s s.
Proof. split; [apply same_rest_refl|done..]. Qed.

Lemma frees_app l1 l2 s1 s2 s3 : frees l1 s1 s2 -> frees l2 s2 s3 -> frees (l1 ++ l2) s1 s3.
Proof.
  intros [R1 D1 F1 P1] [R2 D2 F2 P2]. split; [by eapply same_rest_trans| | |].
  - intros j. rewrite D2, D1. repeat case_decide; set_solver.
  - intros j. rewrite F2, F1. repeat case_decide; set_solver.
  - intros t. rewrite P2, P1. destruct l1, l2; cbn; try done. apply woken_twice.
Qed.

Lemma free_desc_run i s : desc_no i -> dfree (v_disk s) i = 0 -> exists s', free_desc i s = Ok tt s' /\ frees [i] s s'.
Proof.
  intros Hi Hf. unfold free_desc. rewrite Z.geb_leb, (proj2 (Z.leb_gt NUM i)) by (unfold desc_no in Hi; lia). unfold getd. mrun. rewrite Hf. cbn [Z.eqb negb].
  unfold putd. mrun. eexists. split; [reflexivity|]. split.
  - by eexists _, _, _.
  - intros j. cbn. destruct (decide (j = i)) as [->|Hne]; [by rewrite fn_lookup_insert, decide_True by set_solver|].
    by rewrite fn_lookup_insert_ne, decide_False by set_solver.
  - intros j. cbn. destruct (decide (j = i)) as [->|Hne]; [by rewrite fn_lookup_insert, decide_True by set_solver|].
    by rewrite fn_lookup_insert_ne, decide_False by set_solver.
  - done.
Qed.

Lemma free_descs_run l s :
  NoDup l -> (forall j, j ∈ l -> desc_no j /\ dfree (v_disk s) j = 0) ->
  exists s', for_loop l (fun j => free_desc j ;; retM (@Continue unit)) s = Ok None s' /\ frees l s s'.
Proof.
  revert s. induction l as [|i l IH]; intros s Hnd Hl; [exists s; split; [done|apply frees_nil]|].
  apply NoDup_cons in Hnd as [Hi Hnd]. destruct (Hl i ltac:(set_solver)) as [Hr Hf].
  destruct (free_desc_run i s Hr Hf) as (s1 & E1 & F1). cbn [for_loop]. rewrite bind_assoc, (bind_ok _ _ _ _ _ E1). mrun.
  destruct (IH s1 Hnd) as (s2 & E2 & F2); [|exists s2; split; [done|exact (frees_app [i] l _ _ _ F1 F2)]].
  intros j Hj. destruct (Hl j ltac:(set_solver)) as [? Hz]. split; [done|]. rewrite (fr_free _ _ _ F1), decide_False; [done|set_solver].
Qed.

(** The descriptors [l] have been taken. *)
Record takes (l : list Z) (s s' : vstate) : Prop := {
  tk_rest : same_rest s s';
  tk_desc : desc (v_disk s') = desc (v_disk s);
  tk_pc : v_pc s' = v_pc s;
  tk_free j : dfree (v_disk s') j = if decide (j ∈ l) then 0 else dfree (v_disk s) j
}.

Lemma takes_nil s : takes [] s s.
Proof. split; [apply same_rest_refl|done..]. Qed.

Lemma takes_app l1 l2 s1 s2 s3 : takes l1 s1 s2 -> takes l2 s2 s3 -> takes (l1 ++ l2) s1 s3.
Proof.
  intros [R1 D1 P1 F1] [R2 D2 P2 F2]. split; [by eapply same_rest_trans|congruence|congruence|].
  intros j. rewrite F2, F1. repeat case_decide; set_solver.
Qed.

Lemma desc_numbers_spec j : j ∈ desc_numbers <-> desc_no j.
Proof. unfold desc_numbers, desc_no. rewrite elem_of_seqZ. lia. Qed.

Lemma alloc_desc_run s :
  (exists i s', alloc_desc s = Ok i s' /\ desc_no i /\ dfree (v_disk s) i <> 0 /\ takes [i] s s') \/
  (alloc_desc s = Ok (-1) s /\ forall j, desc_no j -> dfree (v_disk s) j = 0).
Proof.
  set (f := fun i => negb (dfree (v_disk s) i =? 0)). destruct (List.find f desc_numbers) as [i|] eqn:E.
  - left. apply find_split in E as (pre & post & E & Hpre & Hi). exists i, (upd_disk (fun d => set_dfree (<[i := 0]> (dfree d)) d) s).
    assert (Hf : dfree (v_disk s) i <> 0) by (unfold f in Hi; lia).
    split; [|split; [|split; [done|]]].
    + unfold alloc_desc. erewrite (bind_ok _ _ s (Some i)); [done|]. rewrite E. apply for_loop_hit.
      * eapply Forall_impl; [exact Hpre|]. intros j Hj. unfold f in Hj. unfold getd. mrun. by rewrite Hj.
      * unfold getd. mrun. unfold f in Hi. by rewrite Hi.
    + apply desc_numbers_spec. rewrite E. set_solver.
    + split; [by eexists _, _, _|done|done|]. intros j. cbn.
      destruct (decide (j = i)) as [->|Hne]; [by rewrite fn_lookup_insert, decide_True by set_solver|].
      by rewrite fn_lookup_insert_ne, decide_False by set_solver.
  - right. apply find_none_Forall in E. split.
    + unfold alloc_desc. erewrite (bind_ok _ _ s None); [done|]. apply for_loop_miss. eapply Forall_impl; [exact E|]. intros j Hj. unfold f in Hj. unfold getd. mrun. by rewrite Hj.
    + intros j Hj%desc_numbers_spec. rewrite Forall_forall in E. specialize (E j Hj). unfold f in E. lia.
Qed.

Lemma free_in l j s s' : takes l s s' -> desc_no j -> dfree (v_disk s') j <> 0 -> (j ∉ l) /\ dfree (v_disk s) j <> 0.
Proof. intros T Hj. rewrite (tk_free _ _ _ T). case_decide; [done|]. done. Qed.

Lemma alloc3_loop_run n idx s :
  NoDup idx -> (forall j, j ∈ idx -> desc_no j /\ dfree (v_disk s) j = 0) ->
  (exists l s', alloc3_loop n idx s = Ok (Some (idx ++ l)) s' /\ length l = n /\ NoDup l /\
     (forall j, j ∈ l -> desc_no j /\ dfree (v_disk s) j <> 0) /\ takes l s s') \/
  (exists l s1 s', alloc3_loop n idx s = Ok None s' /\ (length l < n)%nat /\ NoDup l /\
     (forall j, desc_no j -> j ∈ l <-> dfree (v_disk s) j <> 0) /\ takes l s s1 /\ frees (idx ++ l) s1 s').
Proof.
  revert idx s. induction n as [|n IH]; intros idx s Hnd Hidx; cbn [alloc3_loop].
  { left. exists [], s. rewrite app_nil_r. split_and!; [done|done|constructor|set_solver|apply takes_nil]. }
  destruct (alloc_desc_run s) as [(i & s1 & E1 & Hi & Hf & T1)|(E1 & Hnone)]; rewrite (bind_ok _ _ _ _ _ E1).
  - rewrite (proj2 (Z.ltb_ge i 0)) by (unfold desc_no in Hi; lia).
    assert (Hidx1 : forall j, j ∈ idx ++ [i] -> desc_no j /\ dfree (v_disk s1) j = 0).
    { intros j Hj. rewrite (tk_free _ _ _ T1). case_decide as Hji; [split; [|done]|apply Hidx; set_solver]. apply list_elem_of_singleton in Hji as ->. done. }
    assert (Hnd1 : NoDup (idx ++ [i])).
    { apply NoDup_app. split_and!; [done| |apply NoDup_singleton]. intros j Hj ->%list_elem_of_singleton. by destruct (Hidx i Hj). }
    assert (Hnew : forall j, desc_no j -> dfree (v_disk s1) j <> 0 -> j <> i /\ dfree (v_disk s) j <> 0).
    { intros j Hj Hz. destruct (free_in _ _ _ _ T1 Hj Hz). set_solver. }
    destruct (IH (idx ++ [i]) s1 Hnd1 Hidx1) as [(l & s' & E & Hl & Hn & Hl1 & T)|(l & s2 & s' & E & Hl & Hn & Hl1 & T & F)].
    + left. exists (i :: l), s'. rewrite E, <- app_assoc. split_and!; [done|cbn; lia| | |exact (takes_app [i] l _ _ _ T1 T)].
      * apply NoDup_cons. split; [|done]. intros Hil. destruct (Hl1 i Hil) as [_ Hz]. by destruct (Hnew i Hi Hz).
      * intros j [->|Hj]%elem_of_cons; [done|]. destruct (Hl1 j Hj) as [Hr Hz]. split; [done|]. by apply Hnew.
    + right. exists (i :: l), s2, s'. rewrite E. split_and!; [done|cbn; lia| | |exact (takes_app [i] l _ _ _ T1 T)|by rewrite <- app_assoc in F].
      * apply NoDup_cons. split; [|done]. intros Hil%Hl1; [|done]. by destruct (Hnew i Hi Hil).
      * intros j Hj. rewrite elem_of_cons, Hl1, (tk_free _ _ _ T1) by done. case_decide as Hji; [apply list_elem_of_singleton in Hji as ->; tauto|]. set_solver.
  - cbn [Z.ltb Z.compare]. right. destruct (free_descs_run idx s Hnd Hidx) as (s' & E & F). rewrite (bind_ok _ _ _ _ _ E).
    exists [], s, s'. rewrite app_nil_r. split_and!; [done|cbn; lia|constructor| |apply takes_nil|done]. intros j Hj. rewrite (Hnone j Hj). set_solver.
Qed.

(** At most two descriptors are free. *)
Definition few_free (s : vstate) : Prop := exists l, (length l <= 2)%nat /\ forall j, desc_no j -> dfree (v_disk s) j <> 0 -> j ∈ l.

Lemma alloc3_desc_run s :
  (forall j, desc_no j -> dfree (v_disk s) j = 0 \/ dfree (v_disk s) j = 1) ->
  (exists i0 i1 i2 s', alloc3_desc s = Ok (Some [i0; i1; i2]) s' /\ NoDup [i0; i1; i2] /\
     (forall j, j ∈ [i0; i1; i2] -> desc_no j /\ dfree (v_disk s) j <> 0) /\ takes [i0; i1; i2] s s') \/
  (exists s', alloc3_desc s = Ok None s' /\ few_free s /\ same_rest s s' /\
     (forall j, desc_no j -> dfree (v_disk s') j = dfree (v_disk s) j) /\
     (forall j, desc_no j -> dfree (v_disk s) j = 0 -> desc (v_disk s') j = desc (v_disk s) j) /\
     (forall t, v_pc s' t = v_pc s t \/ v_pc s' t = woken ChFree (v_pc s t))).
Proof.
  intros H01. destruct (alloc3_loop_run 3 [] s) as [(l & s' & E & Hl & Hn & Hl1 & T)|(l & s1 & s' & E & Hl & Hn & Hl1 & T & F)]; [constructor|set_solver| |].
  - left. destruct l as [|i0 [|i1 [|i2 [|]]]]; try done. by exists i0, i1, i2, s'.
  - right. cbn [app] in F. exists s'. split_and!; [done| | | | |].
    + exists l. split; [lia|]. intros j Hj Hz. by apply Hl1.
    + eapply same_rest_trans; [exact (tk_rest _ _ _ T)|exact (fr_rest _ _ _ F)].
    + intros j Hj. rewrite (fr_free _ _ _ F), (tk_free _ _ _ T). case_decide as Hjl; [|done]. apply Hl1 in Hjl; [|done]. destruct (H01 j Hj); lia.
    + intros j Hj Hz. rewrite (fr_desc _ _ _ F), (tk_desc _ _ _ T). rewrite decide_False; [done|]. intros Hjl%Hl1; done.
    + intros t. rewrite (fr_pc _ _ _ F), (tk_pc _ _ _ T). destruct l; auto.
Qed.

(** ** Requests in flight *)

(** The three descriptors of a request that starts at [i]. *)
Definition chain (d : disk) (i : Z) : list Z := [i; d_next (desc d i); d_next (desc d (d_next (desc d i)))].

Record linked (d : disk) (b : nat) (w : bool) (i i1 i2 : Z) : Prop := {
  lk_nodup : NoDup [i; i1; i2];
  lk_used j : j ∈ [i; i1; i2] -> desc_no j /\ dfree d j = 0;
  lk_head : desc d i = Desc (Ops i) 16 VRING_DESC_F_NEXT i1;
  lk_data : desc d i1 = Desc (Data b) BSIZE (Z.lor (if w then 0 else VRING_DESC_F_WRITE) VRING_DESC_F_NEXT) i2;
  lk_stat : desc d i2 = Desc (Status i) 1 VRING_DESC_F_WRITE 0
}.

Lemma linked_chain d b w i i1 i2 : linked d b w i i1 i2 -> chain d i = [i; i1; i2].
Proof. intros [_ _ H0 H1 _]. unfold chain. rewrite H0. cbn. by rewrite H1. Qed.

Lemma free_chain_run s b w i i1 i2 :
  linked (v_disk s) b w i i1 i2 -> exists s', free_chain (Z.to_nat NUM) i s = Ok tt s' /\ frees [i; i1; i2] s s'.
Proof.
  intros [Hnd Hu H0 H1 H2]. apply NoDup_cons in Hnd as [Hn0 [Hn1 _]%NoDup_cons]. change (Z.to_nat NUM) with 8%nat. cbn [free_chain].
  unfold getd at 1 2. mrun. rewrite H0. cbn [d_flags d_next].
  destruct (free_desc_run i s) as (s1 & E1 & F1); [by apply Hu; set_solver..|]. rewrite (bind_ok _ _ _ _ _ E1). replace (negb (Z.land VRING_DESC_F_NEXT VRING_DESC_F_NEXT =? 0)) with true by done.
  assert (D1 : forall j, j ∈ [i1; i2] -> desc (v_disk s1) j = desc (v_disk s) j).
  { intros j Hj. rewrite (fr_desc _ _ _ F1), decide_False; [done|set_solver]. }
  assert (A1 : forall j, j ∈ [i1; i2] -> dfree (v_disk s1) j = 0).
  { intros j Hj. rewrite (fr_free _ _ _ F1), decide_False; [|set_solver]. apply Hu. set_solver. }
  unfold getd at 1 2. mrun. rewrite D1, H1 by set_solver. cbn [d_flags d_next].
  destruct (free_desc_run i1 s1) as (s2 & E2 & F2); [apply Hu; set_solver|apply A1; set_solver|]. rewrite (bind_ok _ _ _ _ _ E2).
  replace (negb (Z.land (Z.lor (if w then 0 else VRING_DESC_F_WRITE) VRING_DESC_F_NEXT) VRING_DESC_F_NEXT =? 0)) with true by (by destruct w).
  unfold getd at 1 2. mrun. rewrite (fr_desc _ _ _ F2), decide_False, D1, H2 by set_solver. cbn [d_flags d_next].
  destruct (free_desc_run i2 s2) as (s3 & E3 & F3); [apply Hu; set_solver|rewrite (fr_free _ _ _ F2), decide_False by set_solver; apply A1; set_solver|].
  rewrite (bind_ok _ _ _ _ _ E3). cbn. exists s3. split; [done|]. exact (frees_app [i; i1] [i2] _ _ _ (frees_app [i] [i1] _ _ _ F1 F2) F3).
Qed.

(** A request of a transfer of buffer [b], whose block is [n], as the driver writes it. *)
Definition formatted (d : disk) (n : Z) (b : nat) (w : bool) (i : Z) : Prop :=
  (exists i1 i2, linked d b w i i1 i2) /\ info_b d i = Some b /\
  ops d i = Req (if w then VIRTIO_BLK_T_OUT else VIRTIO_BLK_T_IN) 0 (u32 (n * (BSIZE / 512))).

(** The device reads the request that was meant. *)
Lemma request_formatted d n b w i : 0 <= n < 2 ^ 31 -> formatted d n b w i -> request_at d i = Some (Request w (2 * n) b i).
Proof.
  intros Hn ((i1 & i2 & [_ _ H0 H1 H2]) & _ & Ho). unfold request_at. rewrite H0. cbn [d_next d_addr d_len d_flags]. rewrite H1. cbn [d_next d_addr d_len d_flags].
  rewrite H2. cbn [d_next d_addr d_len d_flags]. rewrite Ho. cbn [rq_type rq_sector]. change (BSIZE / 512) with 2. rewrite u32_small by lia.
  rewrite (Z.mul_comm n 2). by destruct w.
Qed.

(** It depends on its own descriptors only. *)
Lemma formatted_frame d d' n b w i :
  formatted d n b w i -> (forall j, j ∈ chain d i -> desc d' j = desc d j /\ dfree d' j = dfree d j) ->
  info_b d' i = info_b d i -> ops d' i = ops d i -> formatted d' n b w i /\ chain d' i = chain d i.
Proof.
  intros ((i1 & i2 & K) & Hi & Ho) Hj Ei Eo. pose proof K as [L1 L2 L3 L4 L5]. rewrite (linked_chain _ _ _ _ _ _ K) in *.
  assert (K' : linked d' b w i i1 i2).
  { assert (E : forall j, j ∈ [i; i1; i2] -> desc d' j = desc d j) by (intros j Hin; by apply Hj).
    split; [done| |by rewrite E by set_solver..]. intros j Hin. rewrite (proj2 (Hj j Hin)). by apply L2. }
  split; [|by eapply linked_chain]. split_and!; [by exists i1, i2|congruence|congruence].
Qed.

Definition flight_ : Type := option (nat * bool * Z).

(** The descriptors in use are those of the requests in flight, [fl]; [no] is the block numbers
    of the buffers. *)
Record layout (d : disk) (no : nat -> Z) (fl : nat -> flight_) : Prop := {
  ly_fmt t b w i : fl t = Some (b, w, i) -> formatted d (no b) b w i;
  ly_apart t t' x x' j : t <> t' -> fl t = Some x -> fl t' = Some x' -> j ∈ chain d x.2 -> (j ∉ chain d x'.2);
  ly_owned j : desc_no j -> dfree d j = 0 -> exists t x, fl t = Some x /\ j ∈ chain d x.2;
  ly_01 j : desc_no j -> dfree d j = 0 \/ dfree d j = 1
}.

Lemma layout_head d no fl t b w i : layout d no fl -> fl t = Some (b, w, i) -> desc_no i /\ dfree d i = 0.
Proof. intros L H. destruct (ly_fmt _ _ _ L _ _ _ _ H) as ((i1 & i2 & K) & _). apply (lk_used _ _ _ _ _ _ K). set_solver. Qed.

Lemma layout_inj d no fl t t' b b' w w' i : layout d no fl -> fl t = Some (b, w, i) -> fl t' = Some (b', w', i) -> t = t'.
Proof.
  intros L H H'. destruct (decide (t = t')) as [|Hne]; [done|]. destruct (ly_apart _ _ _ L _ _ _ _ i Hne H H'); unfold chain; set_solver.
Qed.

Lemma layout_chain d no fl t b w i j : layout d no fl -> fl t = Some (b, w, i) -> j ∈ chain d i -> desc_no j /\ dfree d j = 0.
Proof.
  intros L H. destruct (ly_fmt _ _ _ L _ _ _ _ H) as ((i1 & i2 & K) & _). rewrite (linked_chain _ _ _ _ _ _ K). apply (lk_used _ _ _ _ _ _ K).
Qed.

Lemma layout_ext d d' no no' fl fl' :
  layout d no fl -> (forall t, fl' t = fl t) -> (forall t b w i, fl t = Some (b, w, i) -> no' b = no b) ->
  (forall j, desc_no j -> dfree d' j = dfree d j) -> (forall j, desc_no j -> dfree d j = 0 -> desc d' j = desc d j) ->
  info_b d' = info_b d -> ops d' = ops d -> layout d' no' fl'.
Proof.
  intros L Efl Eno Ef Ed Ei Eo.
  assert (F : forall t b w i, fl t = Some (b, w, i) -> formatted d' (no b) b w i /\ chain d' i = chain d i).
  { intros t b w i H. apply formatted_frame; [by eapply ly_fmt| |by rewrite Ei|by rewrite Eo].
    intros j Hj. destruct (layout_chain _ _ _ _ _ _ _ _ L H Hj). auto. }
  split.
  - intros t b w i. rewrite Efl. intros H. rewrite (Eno _ _ _ _ H). by eapply F.
  - intros t t' [[b w] i] [[b' w'] i'] j. rewrite !Efl. intros Hne H H'. cbn [snd]. rewrite (proj2 (F _ _ _ _ H)), (proj2 (F _ _ _ _ H')).
    apply (ly_apart _ _ _ L _ _ _ _ j Hne H H').
  - intros j Hj Hz. rewrite Ef in Hz by done. destruct (ly_owned _ _ _ L j Hj Hz) as (t & [[b w] i] & H & Hin). exists t, (b, w, i).
    rewrite Efl. split; [done|]. cbn [snd]. by rewrite (proj2 (F _ _ _ _ H)).
  - intros j Hj. rewrite Ef by done. by apply (ly_01 _ _ _ L).
Qed.

Lemma layout_add d d' no no' fl fl' t b w i0 i1 i2 :
  layout d no fl -> fl t = None -> (forall t', fl' t' = if decide (t' = t) then Some (b, w, i0) else fl t') -> (forall b, no' b = no b) ->
  (forall j, j ∈ [i0; i1; i2] -> dfree d j <> 0) ->
  (forall j, dfree d' j = if decide (j ∈ [i0; i1; i2]) then 0 else dfree d j) ->
  (forall j, (j ∉ [i0; i1; i2]) -> desc d' j = desc d j /\ info_b d' j = info_b d j /\ ops d' j = ops d j) ->
  linked d' b w i0 i1 i2 -> formatted d' (no b) b w i0 -> layout d' no' fl'.
Proof.
  intros L Ht Efl Eno Hfree Ef Ed K Fm. pose proof (linked_chain _ _ _ _ _ _ K) as Ech.
  assert (Hout : forall t' b' w' i' j, fl t' = Some (b', w', i') -> j ∈ chain d i' -> j ∉ [i0; i1; i2]).
  { intros t' b' w' i' j H Hj Hin. destruct (layout_chain _ _ _ _ _ _ _ _ L H Hj). by apply (Hfree j). }
  assert (F : forall t' b' w' i', fl t' = Some (b', w', i') -> formatted d' (no b') b' w' i' /\ chain d' i' = chain d i').
  { intros t' b' w' i' H. assert (i' ∉ [i0; i1; i2]) by (eapply Hout; [done|unfold chain; set_solver]).
    apply formatted_frame; [by eapply ly_fmt| |by apply Ed..]. intros j Hj. pose proof (Hout _ _ _ _ _ H Hj). split; [by apply Ed|].
    by rewrite Ef, decide_False. }
  split.
  - intros t' b' w' i'. rewrite Efl, Eno. case_decide; [|by intros G; apply (F t')]. by intros [= <- <- <-].
  - intros t' t'' [[b' w'] i'] [[b'' w''] i''] j Hne. rewrite !Efl. cbn [snd]. repeat case_decide; subst; [done| | |].
    + intros [= <- <- <-] G. rewrite Ech, (proj2 (F _ _ _ _ G)). intros Hj Hj'. by eapply Hout.
    + intros G [= <- <- <-]. rewrite Ech, (proj2 (F _ _ _ _ G)). intros Hj. by eapply Hout.
    + intros G G'. rewrite (proj2 (F _ _ _ _ G)), (proj2 (F _ _ _ _ G')). apply (ly_apart _ _ _ L _ _ _ _ j Hne G G').
  - intros j Hj. rewrite Ef. case_decide as Hin; [intros _|intros Hz].
    + exists t, (b, w, i0). rewrite Efl, decide_True by done. cbn [snd]. by rewrite Ech.
    + destruct (ly_owned _ _ _ L j Hj Hz) as (t' & [[b' w'] i'] & H & Hc). exists t', (b', w', i'). rewrite Efl, decide_False by congruence.
      cbn [snd]. by rewrite (proj2 (F _ _ _ _ H)).
  - intros j Hj. rewrite Ef. case_decide; [auto|]. by apply (ly_01 _ _ _ L).
Qed.

Lemma layout_remove d d' no no' fl fl' t b w i :
  layout d no fl -> fl t = Some (b, w, i) -> (forall t', fl' t' = if decide (t' = t) then None else fl t') -> (forall b, no' b = no b) ->
  (forall j, dfree d' j = if decide (j ∈ chain d i) then 1 else dfree d j) ->
  (forall j, (j ∉ chain d i) -> desc d' j = desc d j /\ info_b d' j = info_b d j /\ ops d' j = ops d j) -> layout d' no' fl'.
Proof.
  intros L Ht Efl Eno Ef Ed.
  assert (Hout : forall t' b' w' i' j, t' <> t -> fl t' = Some (b', w', i') -> j ∈ chain d i' -> j ∉ chain d i).
  { intros t' b' w' i' j Hne H Hj. exact (ly_apart _ _ _ L _ _ _ _ j Hne H Ht Hj). }
  assert (F : forall t' b' w' i', t' <> t -> fl t' = Some (b', w', i') -> formatted d' (no b') b' w' i' /\ chain d' i' = chain d i').
  { intros t' b' w' i' Hne H. assert (i' ∉ chain d i) by (eapply Hout; [done|done|unfold chain; set_solver]).
    apply formatted_frame; [by eapply ly_fmt| |by apply Ed..]. intros j Hj. pose proof (Hout _ _ _ _ _ Hne H Hj). split; [by apply Ed|].
    by rewrite Ef, decide_False. }
  split.
  - intros t' b' w' i'. rewrite Efl, Eno. case_decide; [done|]. intros G. by apply (F t').
  - intros t' t'' [[b' w'] i'] [[b'' w''] i''] j Hne. rewrite !Efl. cbn [snd]. repeat case_decide; subst; try done.
    intros G G'. rewrite (proj2 (F t' _ _ _ ltac:(done) G)), (proj2 (F t'' _ _ _ ltac:(done) G')). apply (ly_apart _ _ _ L _ _ _ _ j Hne G G').
  - intros j Hj. rewrite Ef. case_decide as Hin; [done|]. intros Hz. destruct (ly_owned _ _ _ L j Hj Hz) as (t' & [[b' w'] i'] & H & Hc).
    assert (t' <> t) by (intros ->; rewrite Ht in H; injection H as -> -> ->; done). exists t', (b', w', i'). rewrite Efl, decide_False by done.
    cbn [snd]. by rewrite (proj2 (F t' _ _ _ ltac:(done) H)).
  - intros j Hj. rewrite Ef. case_decide; [auto|]. by apply (ly_01 _ _ _ L).
Qed.

(** ** The invariant *)

Definition in_flight (p : pc) : flight_ :=
  match p with Filled b w i | Posted b w i | SleepBuf b w i | Woken b w i => Some (b, w, i) | _ => None end.

Definition flight (s : vstate) (t : nat) : flight_ := in_flight (v_pc s t).

(** Points between the submission of a request and the sleep, where the lock is held. *)
Definition mid (p : pc) : bool := match p with Filled _ _ _ | Posted _ _ _ => true | _ => false end.
Definition is_woken (p : pc) : bool := match p with Woken _ _ _ => true | _ => false end.

(** The request that is in the ring but not yet counted, the requests the device has not taken,
    and the answers the driver has not seen. *)
Definition pending (s : vstate) : list Z :=
  match v_lock s with
  | Process t => match v_pc s t with Filled _ _ i => [i] | _ => [] end
  | _ => []
  end.
Definition asked (s : vstate) : list Z := window (avail_ring (v_disk s)) (v_seen s) (gap (v_seen s) (avail_idx (v_disk s))).
Definition answered (s : vstate) : list Z :=
  window (usedr_ring (v_disk s)) (used_idx (v_disk s)) (gap (used_idx (v_disk s)) (usedr_idx (v_disk s))).

Definition queue (s : vstate) : list Z := pending s ++ asked s ++ v_taken s ++ answered s.

Definition pos16 (x : Z) : Prop := 0 <= x < 2 ^ 16.

(** A request in flight whose buffer is marked is in exactly one place of the queue, and nothing
    else is; a process sleeps on its buffer as long as it is marked; the device has been
    notified of what it has not taken, or is about to be. *)
Record inv (s : vstate) : Prop := {
  iv_bufs t t' b : pc_buf (v_pc s t) = Some b -> pc_buf (v_pc s t') = Some b -> t = t';
  iv_lock t : v_lock s = Process t <-> mid (v_pc s t) = true;
  iv_filled t b w i : v_pc s t = Filled b w i -> avail_ring (v_disk s) (avail_idx (v_disk s) mod NUM) = i;
  iv_layout : layout (v_disk s) (fun b => b_blockno (v_buf s b)) (flight s);
  iv_nodup : NoDup (queue s);
  iv_queue i : i ∈ queue s <-> exists t b w, flight s t = Some (b, w, i) /\ b_disk (v_buf s b) = 1;
  iv_marked t b w i : flight s t = Some (b, w, i) -> b_disk (v_buf s b) = if is_woken (v_pc s t) then 0 else 1;
  iv_status i : i ∈ answered s -> info_status (v_disk s) i = 0;
  iv_irq : answered s <> [] -> v_irq s <> 0 \/ v_lock s = Handler;
  iv_told : asked s <> [] -> v_notified s = true \/ exists t b w i, v_pc s t = Posted b w i;
  iv_buf b : buf_ok (v_buf s b);
  iv_sector n : length (v_sector s n) = 512%nat;
  iv_few t b w : v_pc s t = SleepFree b w -> few_free s;
  iv_pos : pos16 (v_seen s) /\ pos16 (avail_idx (v_disk s)) /\ pos16 (used_idx (v_disk s)) /\ pos16 (usedr_idx (v_disk s))
}.

Lemma gap_0 lo hi : pos16 lo -> pos16 hi -> gap lo hi = 0 <-> lo = hi.
Proof.
  unfold pos16, gap, u16. intros H1 H2. split; [|intros ->; by rewrite Z.sub_diag].
  intros E. apply Z.mod_divide in E as [k E]; [|lia]. nia.
Qed.

Lemma pos16_u16 x : pos16 (u16 x).
Proof. apply Z.mod_pos_bound. lia. Qed.

Lemma window_empty ring lo hi : pos16 lo -> pos16 hi -> window ring lo (gap lo hi) = [] <-> lo = hi.
Proof.
  intros H1 H2. rewrite <- (gap_0 lo hi) by done. pose proof (gap_range lo hi). split; [|by intros ->].
  intros E. pose proof (length_window ring lo (gap lo hi) ltac:(lia)) as L. rewrite E in L. cbn in L. lia.
Qed.

(** The head of a non-empty ring. *)
Lemma window_head ring lo hi :
  pos16 lo -> pos16 hi -> lo <> hi ->
  window ring lo (gap lo hi) = ring (lo mod NUM) :: window ring (u16 (lo + 1)) (gap (u16 (lo + 1)) hi).
Proof.
  intros H1 H2 Hne. pose proof (gap_range lo hi). assert (gap lo hi <> 0) by (by rewrite gap_0).
  rewrite gap_pop by lia. apply window_pop. lia.
Qed.

(** Adding at the end. *)
Lemma window_grow ring lo hi :
  (length (window ring lo (gap lo hi)) < 8)%nat ->
  window ring lo (gap lo (u16 (hi + 1))) = window ring lo (gap lo hi) ++ [ring (hi mod NUM)].
Proof.
  pose proof (gap_range lo hi) as R. pose proof (length_window ring lo _ R) as L. intros H.
  rewrite gap_push by (unfold NUM; lia). rewrite (gap_hi lo hi). unfold window. rewrite (seqZ_app 0 (gap lo hi) 1), fmap_app by lia. done.
Qed.

Lemma window_snoc ring lo hi x :
  (length (window ring lo (gap lo hi)) < 8)%nat ->
  window (<[hi mod NUM := x]> ring) lo (gap lo (u16 (hi + 1))) = window ring lo (gap lo hi) ++ [x].
Proof.
  intros Hl. pose proof (gap_range lo hi). pose proof (length_window ring lo (gap lo hi) ltac:(lia)).
  assert (gap lo hi < NUM) by (unfold NUM; lia). rewrite gap_push, (gap_hi lo hi) by done. apply window_push. done.
Qed.

Lemma flight_buf p b w i : in_flight p = Some (b, w, i) -> pc_buf p = Some b.
Proof. by destruct p; cbn; try done; intros [= -> -> ->]. Qed.

Lemma woken_flight ch p : in_flight (woken ch p) = in_flight p.
Proof. destruct p, ch; cbn; try done. by case_bool_decide. Qed.

Lemma woken_buf ch p : pc_buf (woken ch p) = pc_buf p.
Proof. destruct p, ch; cbn; try done. by case_bool_decide. Qed.

Lemma woken_mid ch p : mid (woken ch p) = mid p.
Proof. destruct p, ch; cbn; try done. by case_bool_decide. Qed.

Lemma woken_same ch p : mid p = true -> woken ch p = p.
Proof. by destruct p, ch. Qed.

Lemma mid_not_woken p : mid p = true -> is_woken p = false.
Proof. by destruct p. Qed.

(** Only the process that has the lock matters. *)
Lemma pending_ext s s' :
  v_lock s' = v_lock s -> (forall t, v_lock s = Process t -> v_pc s' t = v_pc s t) -> pending s' = pending s.
Proof. intros El Ep. unfold pending. rewrite El. destruct (v_lock s) as [| |t]; [done..|]. by rewrite Ep. Qed.

Lemma pending_free s : (forall t, v_lock s <> Process t) -> pending s = [].
Proof. intros H. unfold pending. destruct (v_lock s) as [| |t]; [done..|]. by destruct (H t). Qed.

Lemma inv_queue_desc s i : inv s -> i ∈ queue s -> desc_no i /\ dfree (v_disk s) i = 0.
Proof. intros I (t & b & w & H & _)%(iv_queue _ I). by eapply layout_head; [apply I|]. Qed.

(** There are eight descriptors. *)
Lemma desc_no_room l : NoDup l -> (forall i, i ∈ l -> desc_no i) -> (length l <= 8)%nat.
Proof.
  intros Hnd Hl. change 8%nat with (length desc_numbers). apply submseteq_length, NoDup_submseteq; [done|].
  intros i Hi. by apply desc_numbers_spec, Hl.
Qed.

(** ** The specification

    A disk of blocks, on which a transfer happens at one moment between the call of
    virtio_disk_rw() and its return. *)

Inductive apc : Type :=
| AIdle
| ADoing (b : nat) (write : bool)
| ADone (b : nat) (write : bool).

Definition apc_buf (p : apc) : option nat := match p with AIdle => None | ADoing b _ | ADone b _ => Some b end.

(** [a_buf] gives the block number and the data of a buffer. *)
Record astate : Type := Astate { a_block : Z -> list Z; a_buf : nat -> Z * list Z; a_pc : nat -> apc }.

Inductive astep (a : astate) : option event -> astate -> Prop :=
| astep_call t b w :
    a_pc a t = AIdle -> (forall t', apc_buf (a_pc a t') <> Some b) ->
    astep a (Some (ECall t b w)) (Astate (a_block a) (a_buf a) (<[t := ADoing b w]> (a_pc a)))
| astep_client b n data :
    (forall t, apc_buf (a_pc a t) <> Some b) ->
    astep a (Some (EClient b n data)) (Astate (a_block a) (<[b := (n, data)]> (a_buf a)) (a_pc a))
| astep_write t b :
    a_pc a t = ADoing b true ->
    astep a None (Astate (<[(a_buf a b).1 := (a_buf a b).2]> (a_block a)) (a_buf a) (<[t := ADone b true]> (a_pc a)))
| astep_read t b :
    a_pc a t = ADoing b false ->
    astep a None (Astate (a_block a) (<[b := ((a_buf a b).1, a_block a (a_buf a b).1)]> (a_buf a)) (<[t := ADone b false]> (a_pc a)))
| astep_return t b w :
    a_pc a t = ADone b w ->
    astep a (Some (EReturn t b (a_buf a b).1 (a_buf a b).2)) (Astate (a_block a) (a_buf a) (<[t := AIdle]> (a_pc a))).

(** The moment of a transfer is when the device answers. *)
Definition phase (s : vstate) (p : pc) : apc :=
  match p with
  | Idle => AIdle
  | Enter b w | SleepFree b w => ADoing b w
  | Filled b w i | Posted b w i | SleepBuf b w i | Woken b w i => if decide (b_disk (v_buf s b) = 0 \/ i ∈ answered s) then ADone b w else ADoing b w
  end.

Definition block_no (n : Z) : Prop := 0 <= n < 2 ^ 31.

Record sim (s : vstate) (a : astate) : Prop := {
  sm_block n : block_no n -> a_block a n = block_of (v_sector s) n;
  sm_buf b : a_buf a b = (b_blockno (v_buf s b), b_data (v_buf s b));
  sm_pc t : a_pc a t = phase s (v_pc s t)
}.

(** What a step of the driver is to the specification: nothing, if nothing is seen of it, or one
    step of which the same is seen. *)
Definition simulates (s : vstate) (o : option event) (s' : vstate) : Prop :=
  forall a, sim s a -> (o = None /\ sim s' a) \/ exists a', astep a o a' /\ sim s' a'.

Lemma phase_buf s p : apc_buf (phase s p) = pc_buf p.
Proof. destruct p; cbn; try done; by case_decide. Qed.

(** A step that moves no data and serves nothing. *)
Lemma simulates_stutter s s' :
  v_sector s' = v_sector s -> (forall b, b_blockno (v_buf s' b) = b_blockno (v_buf s b) /\ b_data (v_buf s' b) = b_data (v_buf s b)) ->
  (forall t, phase s' (v_pc s' t) = phase s (v_pc s t)) -> simulates s None s'.
Proof.
  intros Es Eb Ep a [S1 S2 S3]. left. split; [done|]. split.
  - intros n Hn. by rewrite Es, S1.
  - intros b. destruct (Eb b) as [-> ->]. apply S2.
  - intros t. by rewrite Ep.
Qed.

Lemma woken_phase s ch p : phase s (woken ch p) = phase s p.
Proof. destruct p, ch; cbn; try done. by case_bool_decide. Qed.

(** ** Steps of the callers *)

Lemma call_step s t b w :
  inv s -> v_pc s t = Idle -> quiet s b ->
  let s' := set_pc (<[t := Enter b w]> (v_pc s)) s in inv s' /\ simulates s (Some (ECall t b w)) s'.
Proof.
  intros I Ht Hq s'.
  assert (Hpc : forall t', v_pc s' t' = if decide (t' = t) then Enter b w else v_pc s t').
  { intros t'. cbn. case_decide as E; [subst; apply fn_lookup_insert|by apply fn_lookup_insert_ne]. }
  assert (Hfl : forall t', flight s' t' = flight s t').
  { intros t'. unfold flight. rewrite Hpc. case_decide; [subst; by rewrite Ht|done]. }
  assert (Hk : forall t', v_lock s = Process t' -> t' <> t).
  { intros t' H%(iv_lock _ I) ->. by rewrite Ht in H. }
  assert (Hqu : queue s' = queue s).
  { unfold queue. f_equal. apply pending_ext; [done|]. intros t' H. rewrite Hpc, decide_False; [done|by apply Hk]. }
  split.
  - split; rewrite ?Hqu; try apply I.
    + intros t1 t2 b'. rewrite !Hpc. repeat case_decide; subst; cbn [pc_buf]; [done| | |apply I].
      * intros [= <-] H2. by destruct (Hq t2).
      * intros H1 [= <-]. by destruct (Hq t1).
    + intros t'. rewrite Hpc. case_decide; [subst|apply I]. split; [|done]. intros H. by destruct (Hk _ H).
    + intros t' b' w' i'. rewrite Hpc. case_decide; [done|]. apply I.
    + eapply layout_ext; [apply I|done..].
    + intros i. rewrite (iv_queue _ I). by setoid_rewrite Hfl.
    + intros t' b' w' i'. rewrite Hfl, Hpc. intros H. case_decide; [subst; unfold flight in H; by rewrite Ht in H|]. by eapply (iv_marked _ I).
    + intros Hne. destruct (iv_told _ I Hne) as [?|(t' & b' & w' & i' & H)]; [by left|right].
      exists t', b', w', i'. rewrite Hpc, decide_False; [done|]. intros ->. congruence.
    + intros t1 b1 w1. rewrite Hpc. case_decide; [done|]. apply I.
  - intros a [S1 S2 S3]. right. eexists. split; [apply (astep_call a t b w); [by rewrite S3, Ht|]|].
    + intros t'. rewrite S3, phase_buf. apply Hq.
    + split; [done|done|]. intros t'. rewrite Hpc. cbn. case_decide as E; [subst; by rewrite fn_lookup_insert|].
      rewrite fn_lookup_insert_ne by done. apply S3.
Qed.

Lemma client_step s b x :
  inv s -> quiet s b -> buf_ok x -> let s' := set_buf (<[b := x]> (v_buf s)) s in
  inv s' /\ simulates s (Some (EClient b (b_blockno x) (b_data x))) s'.
Proof.
  intros I Hq Hx s'.
  assert (Hb : forall b', v_buf s' b' = if decide (b' = b) then x else v_buf s b').
  { intros b'. cbn. case_decide as E; [subst; apply fn_lookup_insert|by apply fn_lookup_insert_ne]. }
  assert (Hne : forall t b', pc_buf (v_pc s t) = Some b' -> v_buf s' b' = v_buf s b').
  { intros t b' H. rewrite Hb, decide_False; [done|]. intros ->. by destruct (Hq t). }
  assert (Hfl : forall t b' w i, flight s t = Some (b', w, i) -> v_buf s' b' = v_buf s b').
  { intros t b' w i H. eapply Hne, flight_buf, H. }
  split.
  - split; try apply I.
    + eapply layout_ext; [apply I|try done..]. intros t b' w i H. by rewrite (Hfl _ _ _ _ H).
    + intros i. change (queue s') with (queue s). rewrite (iv_queue _ I i). split; intros (t & b' & w & H & Hd); exists t, b', w; (split; [done|]); [by rewrite (Hfl _ _ _ _ H)|].
      by rewrite (Hfl _ _ _ _ H) in Hd.
    + intros t b' w i H. rewrite (Hfl _ _ _ _ H). by eapply (iv_marked _ I).
    + intros b'. rewrite Hb. case_decide; [done|apply I].
  - intros a [S1 S2 S3]. right. eexists. split; [apply (astep_client a b (b_blockno x) (b_data x))|].
    + intros t. rewrite S3, phase_buf. apply Hq.
    + split; [done| |].
      * intros b'. rewrite Hb. cbn. case_decide as E; [subst; by rewrite fn_lookup_insert|]. rewrite fn_lookup_insert_ne by done. apply S2.
      * intros t. cbn [a_pc]. rewrite S3. change (v_pc s' t) with (v_pc s t). pose proof (Hne t) as Ht. destruct (v_pc s t); cbn [phase]; try done; by rewrite Ht.
Qed.

(** ** Steps of the interrupt handler *)

Lemma ack_step s : inv s -> v_lock s = Nobody -> exists s', intr_ack s = Ok tt s' /\ v_lock s' = Handler /\ inv s' /\ simulates s None s'.
Proof.
  intros I Hk. eexists. split; [reflexivity|]. split; [done|]. split; [|by apply simulates_stutter].
  assert (Hno : forall t, mid (v_pc s t) = false).
  { intros t. destruct (mid (v_pc s t)) eqn:E; [|done]. apply (iv_lock _ I) in E. congruence. }
  assert (Hqu : forall s', v_lock s' = Handler -> v_disk s' = v_disk s -> v_seen s' = v_seen s -> v_taken s' = v_taken s -> queue s' = queue s).
  { intros s' E1 E2 E3 E4. unfold queue, asked, answered. rewrite E2, E3, E4. f_equal. rewrite !pending_free; [done|..]; intros t; congruence. }
  split; rewrite ?Hqu by done; try apply I.
  - intros t. cbn. rewrite Hno. done.
  - intros _. by right.
Qed.

(** Acknowledging the answer to the request of buffer [b]. *)
Definition seen_answer (b : nat) (s : vstate) : vstate :=
  upd_disk (fun d => set_used_idx (u16 (used_idx d + 1)) d)
    (set_pc (fun t => woken (ChBuf b) (v_pc s t)) (set_buf (<[b := set_b_disk 0 (v_buf s b)]> (v_buf s)) s)).

Ltac driver_run := unfold intr_round, get_disk, put_disk; cbn [drv_disk drv_set_disk drv_put_buf drv_wakeup vstate_driver]; unfold put_buf, wakeup; mrun.

(** The oldest answer belongs to a process that waits for it. *)
Lemma intr_round_run s :
  inv s -> v_lock s = Handler ->
  if decide (used_idx (v_disk s) = usedr_idx (v_disk s)) then intr_round s = Ok false s
  else exists t b w i rest, answered s = i :: rest /\ answered (seen_answer b s) = rest /\ v_pc s t = SleepBuf b w i /\
    intr_round s = Ok true (seen_answer b s).
Proof.
  intros I Hk. driver_run. case_decide as E; [by rewrite (proj2 (Z.eqb_eq _ _) E)|].
  rewrite (proj2 (Z.eqb_neq _ _) E). mrun. destruct (iv_pos _ I) as (_ & _ & P1 & P2).
  pose proof (window_head (usedr_ring (v_disk s)) _ _ P1 P2 E) as W. set (i := usedr_ring (v_disk s) (used_idx (v_disk s) mod NUM)) in *.
  assert (Hi : i ∈ answered s) by (unfold answered; rewrite W; set_solver).
  assert (Hq : i ∈ queue s) by (unfold queue; set_solver). apply (iv_queue _ I) in Hq as (t & b & w & Hf & Hd).
  rewrite (iv_status _ I i Hi). cbn [Z.eqb negb]. mrun. destruct (ly_fmt _ _ _ (iv_layout _ I) _ _ _ _ Hf) as (_ & -> & _).
  exists t, b, w, i. eexists. split_and!; [exact W|done| |done].
  pose proof (iv_marked _ I _ _ _ _ Hf) as Hw. pose proof (iv_lock _ I t) as Hl. unfold flight in Hf.
  destruct (v_pc s t); try done; injection Hf as -> -> ->; cbn in Hl, Hw; [| |done|]; exfalso; [| |lia].
  - assert (v_lock s = Process t) by (by apply Hl). congruence.
  - assert (v_lock s = Process t) by (by apply Hl). congruence.
Qed.

Lemma round_step s : inv s -> v_lock s = Handler -> exists r s', intr_round s = Ok r s' /\ inv s' /\ v_lock s' = Handler /\ simulates s None s'.
Proof.
  intros I Hin. pose proof (intr_round_run s I Hin) as R. case_decide as E.
  { exists false, s. split_and!; [done..|]. by apply simulates_stutter. }
  destruct R as (t & b & w & i & rest & Ea & Ea' & Ht & R). set (s' := seen_answer b s) in *. exists true, s'. split; [done|].
  assert (Hq : queue s ≡ₚ i :: queue s').
  { unfold queue. rewrite !pending_free by (intros t' Ht'; unfold s', seen_answer in Ht'; cbn in Ht'; congruence).
    cbn [app]. rewrite Ea, Ea', !(assoc_L (++)). symmetry. apply Permutation_middle. }
  assert (Hb : forall b', v_buf s' b' = if decide (b' = b) then set_b_disk 0 (v_buf s b) else v_buf s b').
  { intros b'. cbn. case_decide as Eb; [subst; apply fn_lookup_insert|by apply fn_lookup_insert_ne]. }
  assert (Hno : forall b', b_blockno (v_buf s' b') = b_blockno (v_buf s b') /\ b_data (v_buf s' b') = b_data (v_buf s b')).
  { intros b'. rewrite Hb. by case_decide as Eb; [subst|]. }
  assert (Hfl : forall t', flight s' t' = flight s t') by (intros t'; apply woken_flight).
  assert (Hft : flight s t = Some (b, w, i)) by (unfold flight; by rewrite Ht).
  assert (Hbt : forall t', pc_buf (v_pc s t') = Some b -> t' = t).
  { intros t' H. eapply (iv_bufs _ I); [exact H|by rewrite Ht]. }
  assert (Hown : forall t' w' i', flight s t' = Some (b, w', i') -> i' = i).
  { intros t' w' i' H. assert (t' = t) as -> by (by eapply Hbt, flight_buf). congruence. }
  assert (Hoth : forall t' b' w', flight s t' = Some (b', w', i) -> b' = b).
  { intros t' b' w' H. pose proof (layout_inj _ _ _ _ _ _ _ _ _ _ (iv_layout _ I) H Hft). subst t'. congruence. }
  assert (Hpw : forall t', v_pc s' t' = if decide (t' = t) then Woken b w i else v_pc s t').
  { intros t'. cbn. case_decide as Et; [subst; rewrite Ht; cbn; by rewrite bool_decide_true|].
    specialize (Hbt t'). destruct (v_pc s t'); try done. cbn. rewrite bool_decide_false; [done|]. intros ->. by apply Et, Hbt. }
  pose proof (iv_nodup _ I) as Hnd. rewrite Hq in Hnd. apply NoDup_cons in Hnd as [Hni Hnd].
  split; [split|split; [done|]].
  - intros t1 t2 b'. cbn. rewrite !woken_buf. apply I.
  - intros t'. cbn. rewrite woken_mid. apply I.
  - intros t' b' w' i'. rewrite Hpw. case_decide; [done|]. apply I.
  - eapply layout_ext; [apply I|done| |done..]. intros. apply Hno.
  - done.
  - intros i'. pose proof (iv_queue _ I i') as I4. rewrite Hq, elem_of_cons in I4. setoid_rewrite Hfl. setoid_rewrite Hb. split.
    + intros Hi'. destruct (proj1 I4 (or_intror Hi')) as (t' & b' & w' & H & Hd). exists t', b', w'. split; [done|]. rewrite decide_False; [done|].
      intros ->. by apply Hown in H as ->.
    + intros (t' & b' & w' & H & Hd). case_decide as Eb; [cbn in Hd; lia|].
      destruct (proj2 I4) as [->|]; [by exists t', b', w'| |done]. by apply Hoth in H.
  - intros t' b' w' i' H. rewrite Hfl in H. rewrite Hpw, Hb. destruct (decide (t' = t)) as [Et|Et].
    + subst t'. rewrite Hft in H. injection H as <- <- <-. by rewrite decide_True.
    + rewrite decide_False; [by eapply (iv_marked _ I)|]. intros ->. by eapply Et, Hbt, flight_buf.
  - intros i' Hi'. apply (iv_status _ I). rewrite Ea. rewrite Ea' in Hi'. set_solver.
  - intros _. by right.
  - intros Hne. destruct (iv_told _ I Hne) as [?|(t' & b' & w' & i' & H)]; [by left|right].
    exists t', b', w', i'. rewrite Hpw, decide_False; [done|]. intros ->. congruence.
  - intros b'. unfold buf_ok. destruct (Hno b') as [-> ->]. apply I.
  - apply I.
  - intros t' b' w'. rewrite Hpw. case_decide; [done|]. apply I.
  - destruct (iv_pos _ I) as (P1 & P2 & P3 & P4). split_and!; [done|done|apply pos16_u16|done].
  - apply simulates_stutter; [done|done|]. intros t'. cbn [v_pc s' seen_answer upd_disk set_pc]. rewrite woken_phase. rewrite <- Hfl in *.
    assert (Hp : forall b' w' i', flight s t' = Some (b', w', i') -> (b_disk (v_buf s' b') = 0 \/ i' ∈ answered s') <-> (b_disk (v_buf s b') = 0 \/ i' ∈ answered s)).
    { intros b' w' i' H. rewrite Hb, Ea, Ea'. case_decide as Eb.
      - subst b'. apply Hown in H as ->. cbn. set_solver.
      - assert (i' <> i) by (intros ->; by apply Hoth in H). rewrite elem_of_cons. tauto. }
    unfold flight in Hp. destruct (v_pc s t'); cbn [phase]; try done; specialize (Hp _ _ _ eq_refl); repeat case_decide; tauto.
Qed.

Lemma release_step s s1 :
  inv s -> v_lock s = Handler -> intr_round s = Ok false s1 ->
  exists s', intr_release s1 = Ok tt s' /\ inv s' /\ answered s' = [] /\ simulates s None s'.
Proof.
  intros I Hk R. pose proof (intr_round_run s I Hk) as R'. case_decide as E; [|destruct R' as (? & ? & ? & ? & ? & _ & _ & _ & R'); congruence].
  rewrite R' in R. injection R as <-. destruct (iv_pos _ I) as (_ & _ & P1 & P2). assert (Ha : answered s = []) by (by apply window_empty).
  eexists. split; [reflexivity|]. split; [|split; [exact Ha|by apply simulates_stutter]].
  assert (Hqu : queue (set_lock Nobody s) = queue s).
  { unfold queue. rewrite !pending_free; [done|..]; intros t; cbn; congruence. }
  split; rewrite ?Hqu; try apply I.
  - intros t. pose proof (iv_lock _ I t) as Hl. rewrite Hk in Hl. cbn. split; [done|]. intros H. by apply Hl in H.
  - intros Hne. by destruct Hne.
Qed.

(** The handler ends after one round for each answer. *)
Lemma intr_loop_ends fuel s :
  inv s -> v_lock s = Handler -> (length (answered s) < fuel)%nat ->
  exists s', intr_loop fuel s = Ok tt s' /\ inv s' /\ v_lock s' = Handler /\ intr_round s' = Ok false s'.
Proof.
  revert s. induction fuel as [|fuel IH]; intros s I Hi Hl; [lia|]. cbn [intr_loop]. destruct (round_step s I Hi) as (r & s1 & E & I1 & Hi1 & _).
  rewrite (bind_ok _ _ _ _ _ E). pose proof (intr_round_run s I Hi) as R. case_decide as Eu.
  - rewrite R in E. injection E as <- <-. by exists s.
  - destruct R as (t & b & w & i & rest & Ea & Ea' & _ & R). rewrite R in E. injection E as <- <-. apply IH; [done|done|]. rewrite Ea in Hl. rewrite Ea'. cbn in Hl. lia.
Qed.

Lemma virtio_disk_intr_ends s : inv s -> v_lock s = Nobody -> exists s', virtio_disk_intr s = Ok tt s' /\ inv s' /\ answered s' = [].
Proof.
  intros I Hk. unfold virtio_disk_intr. destruct (ack_step s I Hk) as (s1 & E1 & K1 & I1 & _). rewrite (bind_ok _ _ _ _ _ E1).
  unfold get_disk. mrun. change (drv_disk s1) with (v_disk s1). fold (gap (used_idx (v_disk s1)) (usedr_idx (v_disk s1))).
  destruct (intr_loop_ends (S (Z.to_nat (gap (used_idx (v_disk s1)) (usedr_idx (v_disk s1))))) s1 I1 K1) as (s2 & E2 & I2 & K2 & R2).
  { pose proof (gap_range (used_idx (v_disk s1)) (usedr_idx (v_disk s1))) as G.
    pose proof (length_window (usedr_ring (v_disk s1)) (used_idx (v_disk s1)) _ G) as L. fold (answered s1) in L. lia. }
  rewrite (bind_ok _ _ _ _ _ E2). destruct (release_step s2 s2 I2 K2 R2) as (s3 & E3 & I3 & A3 & _). by exists s3.
Qed.

(** ** Steps of the device *)

Lemma take_step s : inv s -> v_seen s <> avail_idx (v_disk s) -> inv (take_next s) /\ simulates s None (take_next s).
Proof.
  intros I Hne. set (s' := take_next s). split; [|by apply simulates_stutter]. destruct (iv_pos _ I) as (P1 & P2 & P3 & P4).
  pose proof (window_head (avail_ring (v_disk s)) _ _ P1 P2 Hne) as Hw. fold (asked s) in Hw. fold (asked s') in Hw.
  assert (Hq : queue s' ≡ₚ queue s).
  { unfold queue. change (pending s') with (pending s). apply Permutation_app_head. rewrite Hw.
    cbn [app v_taken s' take_next set_taken]. rewrite <- (assoc_L (++)). cbn [app]. rewrite !(assoc_L (++)). symmetry. apply Permutation_middle. }
  split; try apply I.
  - rewrite Hq. apply I.
  - intros i. rewrite Hq. apply I.
  - intros Hne'. apply (iv_told _ I). rewrite Hw. done.
  - split_and!; [apply pos16_u16|done..].
Qed.

Lemma rest_step s : inv s -> v_seen s = avail_idx (v_disk s) -> inv (set_notified false s) /\ simulates s None (set_notified false s).
Proof.
  intros I E. split; [|by apply simulates_stutter]. split; try apply I. intros Hne. destruct Hne.
  destruct (iv_pos _ I) as (P1 & P2 & _). by apply window_empty.
Qed.

(** The request that the device serves, and its process. *)
Lemma taken_request s l1 i l2 q :
  inv s -> v_taken s = l1 ++ i :: l2 -> request_at (v_disk s) i = Some q ->
  exists t b w, flight s t = Some (b, w, i) /\ b_disk (v_buf s b) = 1 /\ (i ∉ answered s) /\
    q = Request w (2 * b_blockno (v_buf s b)) b i.
Proof.
  intros I El Hr. assert (Hi : i ∈ v_taken s) by (rewrite El; set_solver).
  assert (Hq : i ∈ queue s) by (unfold queue; set_solver). apply (iv_queue _ I) in Hq as (t & b & w & Hf & Hd). exists t, b, w.
  split; [done|]. split; [done|]. split.
  - pose proof (iv_nodup _ I) as (_ & _ & (_ & _ & (_ & D & _)%NoDup_app)%NoDup_app)%NoDup_app. by apply D.
  - pose proof (request_formatted _ _ _ _ _ (proj2 (iv_buf _ I b)) (ly_fmt _ _ _ (iv_layout _ I) _ _ _ _ Hf)). congruence.
Qed.

(** The state after the transfer and the answer. *)
Definition after_serve (s : vstate) (l : list Z) (w : bool) (b : nat) (i : Z) : vstate :=
  answer i (Request w (2 * b_blockno (v_buf s b)) b i) (transfer (Request w (2 * b_blockno (v_buf s b)) b i) (set_taken (v_seen s) l s)).

Lemma serve_buf s l w b i b' :
  v_buf (after_serve s l w b i) b' =
  if decide (b' = b) then if w then v_buf s b else set_b_data (block_of (v_sector s) (b_blockno (v_buf s b))) (v_buf s b) else v_buf s b'.
Proof. destruct w; cbn; case_decide as E; subst; try done; [apply fn_lookup_insert|by apply fn_lookup_insert_ne]. Qed.

Lemma serve_buf_fields s l w b i b' :
  b_blockno (v_buf (after_serve s l w b i) b') = b_blockno (v_buf s b') /\ b_disk (v_buf (after_serve s l w b i) b') = b_disk (v_buf s b').
Proof. rewrite serve_buf. case_decide; subst; [by destruct w|done]. Qed.

Lemma serve_sector s l w b i n :
  v_sector (after_serve s l w b i) n =
  if w then if n =? 2 * b_blockno (v_buf s b) then take 512 (b_data (v_buf s b))
            else if n =? 2 * b_blockno (v_buf s b) + 1 then drop 512 (b_data (v_buf s b)) else v_sector s n
  else v_sector s n.
Proof.
  destruct w; cbn; [|done]. destruct (Z.eqb_spec n (2 * b_blockno (v_buf s b))) as [->|H1].
  - rewrite fn_lookup_insert_ne by lia. apply fn_lookup_insert.
  - destruct (Z.eqb_spec n (2 * b_blockno (v_buf s b) + 1)) as [->|H2]; [apply fn_lookup_insert|by rewrite !fn_lookup_insert_ne by lia].
Qed.

Lemma serve_block s l w b i n :
  length (b_data (v_buf s b)) = 1024%nat ->
  block_of (v_sector (after_serve s l w b i)) n =
  if w then if n =? b_blockno (v_buf s b) then b_data (v_buf s b) else block_of (v_sector s) n else block_of (v_sector s) n.
Proof.
  intros Hl. unfold block_of. rewrite !serve_sector. destruct w; [|done]. destruct (Z.eqb_spec n (b_blockno (v_buf s b))) as [->|H].
  - rewrite Z.eqb_refl. destruct (Z.eqb_spec (2 * b_blockno (v_buf s b) + 1) (2 * b_blockno (v_buf s b))); [lia|]. rewrite Z.eqb_refl. apply take_drop.
  - repeat match goal with |- context [?a =? ?b] => destruct (Z.eqb_spec a b); [lia|] end. done.
Qed.

Section serve.
Context (s : vstate) (l1 : list Z) (i : Z) (l2 : list Z) (t b : nat) (w : bool).
Context (I : inv s) (El : v_taken s = l1 ++ i :: l2) (Hf : flight s t = Some (b, w, i)) (Hd : b_disk (v_buf s b) = 1) (Hna : i ∉ answered s).

Let s' : vstate := after_serve s (l1 ++ l2) w b i.

Lemma serve_rest :
  v_pc s' = v_pc s /\ v_lock s' = v_lock s /\ v_notified s' = v_notified s /\ v_seen s' = v_seen s /\ v_taken s' = l1 ++ l2 /\ v_irq s' = Z.lor (v_irq s) 1 /\
  v_disk s' = set_info_status (<[i := 0]> (info_status (v_disk s)))
    (set_usedr (u16 (usedr_idx (v_disk s) + 1)) (<[usedr_idx (v_disk s) mod NUM := i]> (usedr_ring (v_disk s))) (v_disk s)).
Proof. unfold s', after_serve. by destruct w. Qed.

Lemma serve_flight : flight s' = flight s.
Proof. unfold flight. by rewrite (proj1 serve_rest). Qed.

Lemma serve_answered : answered s' = answered s ++ [i].
Proof.
  unfold answered. destruct serve_rest as (_ & _ & _ & _ & _ & _ & ->). cbn. apply window_snoc. fold (answered s).
  assert (length (queue s) <= 8)%nat as H by (apply desc_no_room; [apply I|]; intros j Hj; by eapply inv_queue_desc).
  unfold queue in H. rewrite El, !length_app in H. cbn [length] in H. lia.
Qed.

Lemma serve_queue : queue s' ≡ₚ queue s.
Proof.
  destruct serve_rest as (Ep & El' & _ & Es & Et & _ & Ek). unfold queue. rewrite serve_answered, Et, El. unfold asked. rewrite Ek, Es. cbn.
  rewrite (pending_ext s s') by (done || by rewrite Ep).
  rewrite <- !(assoc_L (++)). apply Permutation_app_head, Permutation_app_head, Permutation_app_head. cbn. rewrite (assoc_L (++)). symmetry. apply Permutation_cons_append.
Qed.

Lemma serve_inv : inv s'.
Proof.
  destruct serve_rest as (Ep & El' & En & Es & Et & Ei & Ek).
  assert (Hb : forall b', b_blockno (v_buf s' b') = b_blockno (v_buf s b') /\ b_disk (v_buf s' b') = b_disk (v_buf s b')) by (intros; apply serve_buf_fields).
  assert (Eas : asked s' = asked s) by (unfold asked; by rewrite Ek, Es).
  pose proof (iv_buf _ I b) as [Hdl Hbn]. split; rewrite ?Ep, ?El', ?En, ?Eas; try apply I.
  - intros t' b' w' i' H. rewrite Ek. by eapply (iv_filled _ I).
  - rewrite Ek, serve_flight. eapply layout_ext; [apply I|done| |done..]. intros. apply Hb.
  - rewrite serve_queue. apply I.
  - intros i'. rewrite serve_queue, serve_flight, (iv_queue _ I). split; intros (t' & b' & w' & H & H1); exists t', b', w'; (split; [done|]); [by rewrite (proj2 (Hb b'))|by rewrite (proj2 (Hb b')) in H1].
  - intros t' b' w' i'. rewrite serve_flight, (proj2 (Hb b')). apply I.
  - intros i'. rewrite serve_answered, Ek. cbn. intros [Hi'| ->%list_elem_of_singleton]%elem_of_app; [|apply fn_lookup_insert].
    rewrite fn_lookup_insert_ne by set_solver. by apply I.
  - intros _. left. rewrite Ei. intros E%Z.lor_eq_0_iff. lia.
  - intros b'. split; [|rewrite (proj1 (Hb b')); apply I]. unfold s'. rewrite serve_buf. case_decide as E; [subst|apply I].
    destruct w; [done|]. cbn. unfold block_of. by rewrite length_app, !(iv_sector _ I).
  - intros n. unfold s'. rewrite serve_sector. destruct w; [|apply I]. destruct (n =? _); [rewrite length_take; lia|].
    destruct (n =? _); [rewrite length_drop; lia|apply I].
  - intros t' b' w' H. destruct (iv_few _ I t' b' w' H) as (l & Hl & Hj). exists l. by rewrite Ek.
  - rewrite Es, Ek. destruct (iv_pos _ I) as (P1 & P2 & P3 & P4). split_and!; [done|done|done|apply pos16_u16].
Qed.

Lemma serve_phase t' : phase s' (v_pc s' t') = if decide (t' = t) then ADone b w else phase s (v_pc s t').
Proof.
  rewrite (proj1 serve_rest). case_decide as E.
  - subst t'. assert (E : in_flight (v_pc s t) = Some (b, w, i)) by exact Hf.
    destruct (v_pc s t); try done; injection E as -> -> ->; cbn [phase]; apply decide_True; right; rewrite serve_answered; set_solver.
  - assert (Hp : forall b' w' i', flight s t' = Some (b', w', i') ->
      (b_disk (v_buf s' b') = 0 \/ i' ∈ answered s') <-> (b_disk (v_buf s b') = 0 \/ i' ∈ answered s)).
    { intros b' w' i' H. rewrite serve_answered, elem_of_app, list_elem_of_singleton. unfold s'. rewrite (proj2 (serve_buf_fields _ _ _ _ _ _)).
      assert (i' <> i); [|tauto]. intros ->. apply E. exact (layout_inj _ _ _ _ _ _ _ _ _ _ (iv_layout _ I) H Hf). }
    unfold flight in Hp. destruct (v_pc s t'); cbn [phase]; try done; specialize (Hp _ _ _ eq_refl); repeat case_decide; tauto.
Qed.

Lemma serve_simulates : simulates s None s'.
Proof.
  intros a [S1 S2 S3]. pose proof (iv_buf _ I b) as [Hdl Hbn].
  assert (Ht : a_pc a t = ADoing b w).
  { rewrite S3. assert (E : in_flight (v_pc s t) = Some (b, w, i)) by exact Hf.
    destruct (v_pc s t); try done; injection E as -> -> ->; cbn [phase]; apply decide_False; (intros [?|?]; [lia|done]). }
  assert (Hpc : forall t', <[t := ADone b w]> (a_pc a) t' = phase s' (v_pc s' t')).
  { intros t'. rewrite serve_phase. case_decide as E; [subst; apply fn_lookup_insert|]. by rewrite fn_lookup_insert_ne. }
  pose proof (fun n => serve_block s (l1 ++ l2) w b i n Hdl) as Hbl. pose proof (serve_buf s (l1 ++ l2) w b i) as Hbf. fold s' in Hbl, Hbf.
  right. destruct w; eexists; (split; [by econstructor|]); (split; [| |exact Hpc]); cbn [a_block a_buf a_pc].
  - intros n Hn. rewrite S2. cbn [fst snd]. rewrite Hbl. destruct (Z.eqb_spec n (b_blockno (v_buf s b))) as [->|E]; [apply fn_lookup_insert|].
    rewrite fn_lookup_insert_ne by done. by apply S1.
  - intros b'. rewrite Hbf. case_decide as E; subst; apply S2.
  - intros n Hn. rewrite Hbl. by apply S1.
  - intros b'. rewrite S2. cbn [fst snd]. rewrite Hbf, S1 by done. case_decide as E; [subst; by rewrite fn_lookup_insert|].
    rewrite fn_lookup_insert_ne by done. apply S2.
Qed.

End serve.

Lemma device_step s s' : inv s -> virtio_action s s' -> inv s' /\ simulates s None s'.
Proof.
  intros I A. destruct A as [? ? [? _ Hne|? l1 i l2 q El Hr]|? E|? Hne]; [by apply take_step| |by apply rest_step|by apply take_step].
  destruct (taken_request _ l1 i l2 q I El Hr) as (t & b & w & Hf & Hd & Hna & ->). split; [by eapply serve_inv|by eapply serve_simulates].
Qed.

(** ** Steps of virtio_disk_rw() *)

(** Nobody else is in the middle of a submission. *)
Lemma free_no_mid s t : inv s -> v_lock s = Nobody -> mid (v_pc s t) = false.
Proof. intros I Hk. destruct (mid (v_pc s t)) eqn:E; [|done]. apply (iv_lock _ I) in E. congruence. Qed.

Lemma enter_fail_step s t b w s1 :
  inv s -> v_lock s = Nobody -> v_pc s t = Enter b w -> few_free s -> same_rest (set_lock (Process t) s) s1 ->
  (forall j, desc_no j -> dfree (v_disk s1) j = dfree (v_disk s) j) ->
  (forall j, desc_no j -> dfree (v_disk s) j = 0 -> desc (v_disk s1) j = desc (v_disk s) j) ->
  (forall t', v_pc s1 t' = v_pc s t' \/ v_pc s1 t' = woken ChFree (v_pc s t')) ->
  let s' := set_lock Nobody (set_pc (<[t := SleepFree b w]> (v_pc s1)) s1) in inv s' /\ simulates s None s'.
Proof.
  intros I Hk Ht Hfew (de & fr & p & ->) Hf Hd Hp. cbn in Hf, Hd, Hp. intros s'.
  assert (Hpc : forall t', v_pc s' t' = if decide (t' = t) then SleepFree b w else p t').
  { intros t'. cbn. case_decide as E; [subst; apply fn_lookup_insert|by apply fn_lookup_insert_ne]. }
  assert (Hcl : forall t', pc_buf (v_pc s' t') = pc_buf (v_pc s t') /\ flight s' t' = flight s t' /\ phase s (v_pc s' t') = phase s (v_pc s t') /\
    mid (v_pc s' t') = false /\ is_woken (v_pc s' t') = is_woken (v_pc s t')).
  { intros t'. pose proof (free_no_mid s t' I Hk). unfold flight. rewrite Hpc. case_decide as E; [subst; by rewrite Ht|].
    destruct (Hp t') as [->| ->]; [done|]. rewrite woken_buf, woken_flight, woken_phase, woken_mid. by destruct (v_pc s t'). }
  assert (Hqu : queue s' = queue s).
  { unfold queue. rewrite !pending_free; [done|..]; intros t'; cbn; congruence. }
  split.
  - split; rewrite ?Hqu; try apply I.
    + intros t1 t2 b'. rewrite !(proj1 (Hcl _)). apply I.
    + intros t'. destruct (Hcl t') as (_ & _ & _ & -> & _). done.
    + intros t' b' w' i' H. destruct (Hcl t') as (_ & _ & _ & Hm & _). by rewrite H in Hm.
    + eapply layout_ext; [apply I|intros; apply Hcl|done|done|done|done|done].
    + intros i. rewrite (iv_queue _ I). by setoid_rewrite (fun t' => proj1 (proj2 (Hcl t'))).
    + intros t' b' w' i'. destruct (Hcl t') as (_ & -> & _ & _ & ->). apply I.
    + intros Hne. destruct (iv_irq _ I Hne) as [?|?]; [by left|congruence].
    + intros Hne. destruct (iv_told _ I Hne) as [?|(t' & b' & w' & i' & H)]; [by left|].
      pose proof (free_no_mid s t' I Hk) as Hm. by rewrite H in Hm.
    + intros t' b' w' _. destruct Hfew as (l & Hl & Hj). exists l. split; [done|]. intros j Hno. cbn. rewrite Hf by done. by apply Hj.
  - apply simulates_stutter; [done|done|]. intros t'. apply Hcl.
Qed.

(** The state after a submission. *)
Definition submitted (s : vstate) (fr : Z -> Z) (t b : nat) (w : bool) (i0 i1 i2 : Z) : vstate :=
  let d := v_disk s in
  Vstate (Disk (<[i2 := Desc (Status i0) 1 VRING_DESC_F_WRITE 0]>
                 (<[i1 := Desc (Data b) BSIZE (Z.lor (if w then 0 else VRING_DESC_F_WRITE) VRING_DESC_F_NEXT) i2]>
                   (<[i0 := Desc (Ops i0) 16 VRING_DESC_F_NEXT i1]> (desc d))))
            (avail_idx d) (<[avail_idx d mod NUM := i0]> (avail_ring d)) (usedr_idx d) (usedr_ring d) fr (used_idx d)
            (<[i0 := Some b]> (info_b d)) (<[i0 := 0xff]> (info_status d))
            (<[i0 := Req (if w then VIRTIO_BLK_T_OUT else VIRTIO_BLK_T_IN) 0 (u32 (b_blockno (v_buf s b) * (BSIZE / 512)))]> (ops d)))
    (<[b := set_b_disk 1 (v_buf s b)]> (v_buf s)) (<[t := Filled b w i0]> (v_pc s)) (Process t) (v_sector s) (v_seen s) (v_taken s) (v_notified s) (v_irq s).

Lemma submit_run s s1 t b w i0 i1 i2 :
  takes [i0; i1; i2] (set_lock (Process t) s) s1 ->
  (rw_submit b w (u32 (b_blockno (v_buf s b) * (BSIZE / 512))) i0 i1 i2 ;; put_pc t (Filled b w i0)) s1 = Ok tt (submitted s (dfree (v_disk s1)) t b w i0 i1 i2).
Proof.
  intros [(de & fr & p & ->) Hd Hp Hf]. cbn in Hd, Hp. subst de p. unfold rw_submit, putd, put_buf, put_pc. mrun. reflexivity.
Qed.

Section submit.
Context (s : vstate) (fr : Z -> Z) (t b : nat) (w : bool) (i0 i1 i2 : Z).
Context (I : inv s) (Hk : v_lock s = Nobody) (Ht : v_pc s t = Enter b w) (Hnd : NoDup [i0; i1; i2]).
Context (Hl : forall j, j ∈ [i0; i1; i2] -> desc_no j /\ dfree (v_disk s) j <> 0).
Context (Hfr : forall j, fr j = if decide (j ∈ [i0; i1; i2]) then 0 else dfree (v_disk s) j).
Let s' : vstate := submitted s fr t b w i0 i1 i2.

Lemma submit_pc t' : v_pc s' t' = if decide (t' = t) then Filled b w i0 else v_pc s t'.
Proof. cbn. case_decide as E; [subst; apply fn_lookup_insert|by apply fn_lookup_insert_ne]. Qed.

Lemma submit_flight t' : flight s' t' = if decide (t' = t) then Some (b, w, i0) else flight s t'.
Proof. unfold flight. rewrite submit_pc. by case_decide. Qed.

Lemma submit_buf b' : v_buf s' b' = if decide (b' = b) then set_b_disk 1 (v_buf s b) else v_buf s b'.
Proof. cbn. case_decide as E; [subst; apply fn_lookup_insert|by apply fn_lookup_insert_ne]. Qed.

Lemma submit_other t' b' : t' <> t -> pc_buf (v_pc s t') = Some b' -> v_buf s' b' = v_buf s b'.
Proof.
  intros Hne H. rewrite submit_buf, decide_False; [done|]. intros ->. apply Hne, (iv_bufs _ I t' t b); [done|]. by rewrite Ht.
Qed.

Lemma submit_new : i0 ∉ queue s.
Proof. intros H%inv_queue_desc; [|done]. destruct (Hl i0); [set_solver|]. tauto. Qed.

(** There is room for it in the ring. *)
Lemma submit_room : (length (asked s) < 8)%nat.
Proof.
  assert (length (i0 :: queue s) <= 8)%nat as H.
  { apply desc_no_room; [apply NoDup_cons; split; [apply submit_new|apply I]|]. intros j [->|Hj]%elem_of_cons; [apply Hl; set_solver|by eapply inv_queue_desc]. }
  unfold queue in H. cbn [length] in H. rewrite !length_app in H. lia.
Qed.

(** The entry that is not counted yet does not matter. *)
Lemma submit_asked : asked s' = asked s.
Proof.
  unfold asked, s'. cbn. pose proof submit_room as H. unfold asked in H. set (n := gap (v_seen s) (avail_idx (v_disk s))) in *.
  pose proof (gap_range (v_seen s) (avail_idx (v_disk s))) as Hn. fold n in Hn. pose proof (length_window (avail_ring (v_disk s)) (v_seen s) n Hn) as L.
  pose proof (window_push (avail_ring (v_disk s)) (v_seen s) n i0 ltac:(unfold NUM; lia)) as P.
  unfold n in P at 1. rewrite <- (gap_hi (v_seen s) (avail_idx (v_disk s))) in P.
  unfold window in *. rewrite (seqZ_app 0 n 1), fmap_app in P by lia. apply app_inj_1 in P as [P _]; [exact P|]. by rewrite !length_fmap.
Qed.

Lemma submit_queue : queue s' = i0 :: queue s.
Proof.
  unfold queue. rewrite submit_asked. rewrite (pending_free s) by (intros t'; congruence).
  unfold pending. cbn [v_lock s' submitted]. rewrite submit_pc, decide_True by done. done.
Qed.

Lemma submit_distinct : i0 <> i1 /\ i0 <> i2 /\ i1 <> i2.
Proof. clear - Hnd. apply NoDup_cons in Hnd as [H0 [H1 _]%NoDup_cons]. set_solver. Qed.

Lemma submit_layout : layout (v_disk s') (fun b => b_blockno (v_buf s' b)) (flight s').
Proof.
  destruct submit_distinct as (N01 & N02 & N12).
  assert (K : linked (v_disk s') b w i0 i1 i2).
  { split; [done| |cbn..].
    - intros j Hj. split; [by apply Hl|]. cbn. by rewrite Hfr, decide_True.
    - rewrite !fn_lookup_insert_ne by done. apply fn_lookup_insert.
    - rewrite fn_lookup_insert_ne by done. apply fn_lookup_insert.
    - apply fn_lookup_insert. }
  eapply (layout_add _ _ _ _ _ _ t b w i0 i1 i2 (iv_layout _ I)).
  - unfold flight. by rewrite Ht.
  - apply submit_flight.
  - intros b'. rewrite submit_buf. by case_decide; subst.
  - intros j Hj. by apply Hl.
  - done.
  - intros j Hj. rewrite !not_elem_of_cons in Hj. destruct Hj as (? & ? & ? & _). cbn. by rewrite !fn_lookup_insert_ne by done.
  - done.
  - split; [by exists i1, i2|]. cbn. by rewrite !fn_lookup_insert.
Qed.

Lemma submit_inv : inv s'.
Proof.
  pose proof submit_new as Hnew. pose proof submit_queue as Hq. pose proof submit_pc as Hpc. pose proof submit_other as Hoth. pose proof submit_flight as Hfl. pose proof submit_buf as Hbf.
  pose proof (fun t' => free_no_mid s t' I Hk) as Hm.
  split; rewrite ?Hq, ?submit_asked; try apply I.
  - intros t1 t2 b'. rewrite !Hpc. assert (Hb : pc_buf (v_pc s t) = Some b) by (by rewrite Ht).
    repeat case_decide; subst; cbn [pc_buf]; [done| | |apply I]; [intros [= <-] G|intros G [= <-]]; by eapply (iv_bufs _ I).
  - intros t'. rewrite Hpc. case_decide as E; [by subst|]. rewrite Hm. cbn. split; [congruence|done].
  - intros t' b' w' i'. rewrite Hpc. case_decide as E; [|intros H; specialize (Hm t'); by rewrite H in Hm].
    intros [= <- <- <-]. cbn. apply fn_lookup_insert.
  - apply submit_layout.
  - apply NoDup_cons. split; [done|apply I].
  - intros i. rewrite elem_of_cons, (iv_queue _ I). split.
    + intros [->|(t' & b' & w' & H & Hd)]; [exists t, b, w; by rewrite Hfl, Hbf, !decide_True|].
      assert (t' <> t) by (intros ->; unfold flight in H; by rewrite Ht in H). exists t', b', w'. rewrite Hfl, decide_False by done.
      split; [done|]. rewrite (Hoth t'); [done|done|by eapply flight_buf].
    + intros (t' & b' & w' & H & Hd). rewrite Hfl in H. case_decide as E; [left; congruence|]. right. exists t', b', w'. split; [done|].
      rewrite (Hoth t') in Hd; [done|done|by eapply flight_buf].
  - intros t' b' w' i'. rewrite Hfl, Hpc. case_decide as E; [intros [= <- <- <-]; by rewrite Hbf, decide_True|]. intros H.
    rewrite (Hoth t'); [by eapply (iv_marked _ I)|done|by eapply flight_buf].
  - intros i Hi. cbn. rewrite fn_lookup_insert_ne; [by apply I|]. intros ->. apply Hnew. unfold queue. change (answered s') with (answered s) in Hi. set_solver.
  - intros Hne. destruct (iv_irq _ I Hne) as [?|?]; [by left|congruence].
  - intros Hne. destruct (iv_told _ I Hne) as [?|(t' & b' & w' & i' & H)]; [by left|]. specialize (Hm t'). by rewrite H in Hm.
  - intros b'. rewrite Hbf. case_decide; subst; apply I.
  - intros t' b' w'. rewrite Hpc. case_decide as E; [done|]. intros H. destruct (iv_few _ I t' b' w' H) as (l & Hlen & Hj). exists l. split; [done|].
    intros j Hno. cbn. rewrite Hfr. case_decide; [done|]. by apply Hj.
Qed.

Lemma submit_simulates : simulates s None s'.
Proof.
  apply simulates_stutter; [done|intros b'; rewrite submit_buf; case_decide; by subst|]. intros t'. rewrite submit_pc. case_decide as E.
  - subst. rewrite Ht. cbn [phase]. apply decide_False. rewrite submit_buf, decide_True by done. cbn [b_disk set_b_disk]. intros [?|Hin]; [lia|].
    apply submit_new. change (answered s') with (answered s) in Hin. unfold queue. rewrite !elem_of_app. auto.
  - pose proof (submit_other t') as H. change (phase s' (v_pc s t') = phase s (v_pc s t')). destruct (v_pc s t'); cbn [phase pc_buf] in *; try done; rewrite H by done; done.
Qed.

End submit.

(** A change of the point a process is at, inside its transfer. *)
Definition moves (t : nat) (p : pc) (s : vstate) : vstate := set_pc (<[t := p]> (v_pc s)) s.

(** The request is counted: from now on the device may take it. *)
Lemma post_step s t b w i :
  inv s -> v_pc s t = Filled b w i ->
  exists s', virtio_disk_rw t s = Ok tt s' /\ v_pc s' t = Posted b w i /\ inv s' /\ simulates s None s'.
Proof.
  intros I Ht. assert (Hk : v_lock s = Process t) by (apply (iv_lock _ I); by rewrite Ht).
  set (s' := moves t (Posted b w i) (upd_disk (fun d => set_avail_idx (u16 (avail_idx d + 1)) d) s)). exists s'.
  split; [unfold virtio_disk_rw; mrun; rewrite Ht; unfold rw_post, putd, put_pc; mrun; done|].
  assert (Hpc : forall t', v_pc s' t' = if decide (t' = t) then Posted b w i else v_pc s t') by (intros t'; cbn; case_decide as E; [subst; apply fn_lookup_insert|by apply fn_lookup_insert_ne]).
  assert (Hfl : forall t', flight s' t' = flight s t') by (intros t'; unfold flight; rewrite Hpc; case_decide; [subst; by rewrite Ht|done]).
  assert (Hpe : pending s = [i]) by (unfold pending; by rewrite Hk, Ht).
  assert (Hroom : (length (asked s) < 8)%nat).
  { assert (length (queue s) <= 8)%nat as H by (apply desc_no_room; [apply I|]; intros j Hj; by eapply inv_queue_desc).
    unfold queue in H. rewrite Hpe, !length_app in H. cbn in H. lia. }
  assert (Has : asked s' = asked s ++ [i]).
  { rewrite <- (iv_filled _ I _ _ _ _ Ht). by apply window_grow. }
  assert (Hqu : queue s' ≡ₚ queue s).
  { unfold queue. rewrite Hpe, Has. replace (pending s') with (@nil Z).
    - change (v_taken s' ++ answered s') with (v_taken s ++ answered s). cbn [app]. rewrite <- (assoc_L (++)). cbn [app]. symmetry. apply Permutation_middle.
    - unfold pending. change (v_lock s') with (v_lock s). rewrite Hk, Hpc, decide_True by done. done. }
  split; [by rewrite Hpc, decide_True|]. split.
  - split; try apply I.
    + intros t1 t2 b'. rewrite !Hpc. assert (Hb : pc_buf (v_pc s t) = Some b) by (by rewrite Ht).
      repeat case_decide; subst; cbn [pc_buf]; [done| | |apply I]; [intros [= <-] G|intros G [= <-]]; by eapply (iv_bufs _ I).
    + intros t'. change (v_lock s') with (v_lock s). rewrite Hpc. case_decide; [by subst|apply I].
    + intros t' b' w' i'. rewrite Hpc. case_decide as E; [done|]. intros H. destruct E.
      assert (v_lock s = Process t') by (apply (iv_lock _ I); by rewrite H). congruence.
    + eapply layout_ext; [apply I|done..].
    + rewrite Hqu. apply I.
    + intros i'. rewrite Hqu, (iv_queue _ I). by setoid_rewrite Hfl.
    + intros t' b' w' i'. rewrite Hfl, Hpc. case_decide as E; [|apply I]. intros H. rewrite E in H. pose proof (iv_marked _ I _ _ _ _ H) as M. by rewrite Ht in M.
    + intros _. right. exists t, b, w, i. by rewrite Hpc, decide_True.
    + intros t' b' w'. rewrite Hpc. case_decide; [done|]. apply I.
    + destruct (iv_pos _ I) as (P1 & P2 & P3 & P4). split_and!; [done|apply pos16_u16|done|done].
  - apply simulates_stutter; [done|done|]. intros t'. rewrite Hpc. case_decide; [subst; by rewrite Ht|done].
Qed.

(** The device is told, and the process sleeps on its buffer. *)
Lemma notify_step s t b w i :
  inv s -> v_pc s t = Posted b w i ->
  exists s', virtio_disk_rw t s = Ok tt s' /\ v_pc s' t = SleepBuf b w i /\ inv s' /\ simulates s None s'.
Proof.
  intros I Ht. assert (Hk : v_lock s = Process t) by (apply (iv_lock _ I); by rewrite Ht).
  assert (Hft : flight s t = Some (b, w, i)) by (unfold flight; by rewrite Ht).
  pose proof (iv_marked _ I _ _ _ _ Hft) as Hd. rewrite Ht in Hd. cbn in Hd.
  set (s' := set_lock Nobody (moves t (SleepBuf b w i) (set_notified true s))). exists s'.
  split. { unfold virtio_disk_rw. mrun. rewrite Ht. unfold rw_notify, rw_wait, put_pc, put_lock. mrun. cbn [v_buf set_notified]. rewrite Hd. cbn [Z.eqb Pos.eqb]. mrun. done. }
  assert (Hpc : forall t', v_pc s' t' = if decide (t' = t) then SleepBuf b w i else v_pc s t') by (intros t'; cbn; case_decide as E; [subst; apply fn_lookup_insert|by apply fn_lookup_insert_ne]).
  assert (Hfl : forall t', flight s' t' = flight s t') by (intros t'; unfold flight; rewrite Hpc; case_decide; [subst; by rewrite Ht|done]).
  assert (Hqu : queue s' = queue s).
  { unfold queue. change (asked s' ++ v_taken s' ++ answered s') with (asked s ++ v_taken s ++ answered s). f_equal.
    rewrite pending_free by done. unfold pending. by rewrite Hk, Ht. }
  assert (Hone : forall t', t' <> t -> mid (v_pc s t') = false).
  { intros t' Hne. destruct (mid (v_pc s t')) eqn:E; [|done]. apply (iv_lock _ I) in E. congruence. }
  split; [by rewrite Hpc, decide_True|]. split.
  - split; rewrite ?Hqu; try apply I.
    + intros t1 t2 b'. rewrite !Hpc. assert (Hb : pc_buf (v_pc s t) = Some b) by (by rewrite Ht).
      repeat case_decide; subst; cbn [pc_buf]; [done| | |apply I]; [intros [= <-] G|intros G [= <-]]; by eapply (iv_bufs _ I).
    + intros t'. rewrite Hpc. case_decide; [done|]. by rewrite Hone.
    + intros t' b' w' i'. rewrite Hpc. case_decide as E; [done|]. intros H. specialize (Hone t' E). by rewrite H in Hone.
    + eapply layout_ext; [apply I|done..].
    + intros i'. rewrite (iv_queue _ I). by setoid_rewrite Hfl.
    + intros t' b' w' i'. rewrite Hfl, Hpc. case_decide as E; [|apply I]. intros H. rewrite E in H. pose proof (iv_marked _ I _ _ _ _ H) as M. by rewrite Ht in M.
    + intros Hne. destruct (iv_irq _ I Hne) as [?|?]; [by left|congruence].
    + intros _. by left.
    + intros t' b' w'. rewrite Hpc. case_decide; [done|]. apply I.
  - apply simulates_stutter; [done|done|]. intros t'. rewrite Hpc. case_decide; [subst; by rewrite Ht|done].
Qed.

(** A process that finds its buffer done gives the descriptors back and returns. *)
Lemma finish_run s t b w i :
  inv s -> v_pc s t = Woken b w i ->
  exists s1, virtio_disk_rw t s = Ok tt (set_lock Nobody (set_pc (<[t := Idle]> (v_pc s1)) s1)) /\
    frees (chain (v_disk s) i) (upd_disk (fun d => set_info_b (<[i := None]> (info_b d)) d) (set_lock (Process t) s)) s1.
Proof.
  intros I Ht. assert (Hf : flight s t = Some (b, w, i)) by (unfold flight; by rewrite Ht).
  pose proof (iv_marked _ I _ _ _ _ Hf) as Hz. rewrite Ht in Hz. cbn in Hz.
  unfold virtio_disk_rw. mrun. rewrite Ht. unfold put_lock, rw_wait. mrun. cbn [v_buf set_lock]. rewrite Hz. cbn [Z.eqb].
  destruct (ly_fmt _ _ _ (iv_layout _ I) _ _ _ _ Hf) as ((i1 & i2 & K) & _). rewrite (linked_chain _ _ _ _ _ _ K). unfold putd. mrun.
  destruct (free_chain_run (upd_disk (fun d => set_info_b (<[i := None]> (info_b d)) d) (set_lock (Process t) s)) b w i i1 i2) as (s1 & E & F).
  { destruct K as [K1 K2 K3 K4 K5]. by split. }
  exists s1. split; [|done]. rewrite (bind_ok (free_chain _ _) _ _ _ _ E) || (unfold bindM; rewrite E). done.
Qed.

Section finish.
Context (s s1 : vstate) (t b : nat) (w : bool) (i : Z).
Context (I : inv s) (Hk : v_lock s = Nobody) (Ht : v_pc s t = Woken b w i).
Context (F : frees (chain (v_disk s) i) (upd_disk (fun d => set_info_b (<[i := None]> (info_b d)) d) (set_lock (Process t) s)) s1).
Let s' : vstate := set_lock Nobody (set_pc (<[t := Idle]> (v_pc s1)) s1).

Lemma finish_pc t' : v_pc s' t' = if decide (t' = t) then Idle else woken ChFree (v_pc s t').
Proof. cbn. case_decide as E; [subst; apply fn_lookup_insert|]. rewrite fn_lookup_insert_ne by done. apply (fr_pc _ _ _ F). Qed.

Lemma finish_flight t' : flight s' t' = if decide (t' = t) then None else flight s t'.
Proof. unfold flight. rewrite finish_pc. case_decide; [done|]. apply woken_flight. Qed.

Lemma finish_own : flight s t = Some (b, w, i).
Proof. unfold flight. by rewrite Ht. Qed.

(** Only the descriptors, [free], [info] and who sleeps change. *)
Lemma finish_rest :
  exists de fr p, s' = Vstate (set_dfree fr (set_desc de (set_info_b (<[i := None]> (info_b (v_disk s))) (v_disk s)))) (v_buf s) p Nobody (v_sector s) (v_seen s) (v_taken s) (v_notified s) (v_irq s).
Proof. destruct (fr_rest _ _ _ F) as (de & fr & p & E). unfold s'. rewrite E. by eexists de, fr, _. Qed.

Lemma finish_layout : layout (v_disk s') (fun b => b_blockno (v_buf s' b)) (flight s').
Proof.
  pose proof finish_rest as (de & fr & p & E).
  eapply (layout_remove (v_disk s) _ _ _ _ _ t b w i (iv_layout _ I) finish_own finish_flight).
  - intros b'. by rewrite E.
  - intros j. exact (fr_free _ _ _ F j).
  - intros j Hj. split_and!.
    + pose proof (fr_desc _ _ _ F j) as H. rewrite decide_False in H by done. exact H.
    + rewrite E. cbn. apply fn_lookup_insert_ne. intros ->. apply Hj. unfold chain. apply list_elem_of_here.
    + by rewrite E.
Qed.

Lemma finish_inv : inv s'.
Proof.
  pose proof finish_layout as Hly. pose proof finish_flight as Hfl. pose proof finish_pc as Hpc. pose proof finish_own as Hown. pose proof finish_rest as (de & fr & p & E).
  assert (Hq : queue s' = queue s).
  { unfold queue. rewrite (pending_free s) by congruence. rewrite pending_free by done. by rewrite E. }
  assert (Ha : answered s' = answered s) by (by rewrite E). assert (Has : asked s' = asked s) by (by rewrite E).
  assert (Hb : v_buf s' = v_buf s) by (by rewrite E).
  pose proof (iv_marked _ I _ _ _ _ Hown) as Hz. rewrite Ht in Hz. cbn in Hz. pose proof (fun t' => free_no_mid s t' I Hk) as Hm.
  (split; [| | |exact Hly|..]); rewrite ?Hb, ?Hq, ?Ha, ?Has; try apply I.
  - intros t1 t2 b'. rewrite !Hpc. repeat case_decide; cbn [pc_buf]; try done. rewrite !woken_buf. apply I.
  - intros t'. rewrite Hpc. case_decide; [done|]. by rewrite woken_mid, Hm.
  - intros t' b' w' i' H. rewrite Hpc in H. case_decide; [done|]. assert (M : mid (woken ChFree (v_pc s t')) = true) by (by rewrite H). by rewrite woken_mid, Hm in M.
  - intros i'. rewrite (iv_queue _ I). split; intros (t' & b' & w' & H & Hd); exists t', b', w'; rewrite Hfl in *.
    + rewrite decide_False; [done|]. intros ->. rewrite Hown in H. injection H as -> -> ->. lia.
    + by case_decide.
  - intros t' b' w' i'. rewrite Hfl, Hpc. case_decide as E'; [done|]. intros G. rewrite (iv_marked _ I _ _ _ _ G). by destruct (v_pc s t').
  - intros i' Hi'. rewrite E. by apply (iv_status _ I).
  - intros Hne. rewrite E. cbn. destruct (iv_irq _ I Hne) as [?|?]; [by left|congruence].
  - intros Hne. rewrite E. cbn. destruct (iv_told _ I Hne) as [?|(t' & b' & w' & i' & H)]; [by left|]. specialize (Hm t'). by rewrite H in Hm.
  - rewrite E. apply I.
  - intros t' b' w'. rewrite Hpc. case_decide; [done|]. by destruct (v_pc s t').
  - rewrite E. apply I.
Qed.

Lemma finish_simulates : simulates s (returns s t s') s'.
Proof.
  pose proof finish_pc as Hpc. pose proof finish_own as Hown. pose proof finish_rest as (de & fr & p & E).
  assert (Ha : answered s' = answered s) by (by rewrite E). assert (Hb : v_buf s' = v_buf s) by (by rewrite E).
  pose proof (iv_marked _ I _ _ _ _ Hown) as Hz. rewrite Ht in Hz. cbn in Hz.
  replace (returns s t s') with (Some (EReturn t b (b_blockno (v_buf s b)) (b_data (v_buf s b))));
    [|unfold returns; by rewrite Hpc, decide_True, Ht, Hb].
  intros a [S1 S2 S3]. right. eexists. split.
  - pose proof (astep_return a t b w) as A. rewrite S2 in A. cbn [fst snd] in A. apply A. rewrite S3, Ht. cbn [phase]. by rewrite decide_True by (by left).
  - split; cbn [a_block a_buf a_pc]; rewrite ?Hb; try done.
    + intros n Hn. rewrite E. by apply S1.
    + intros t'. rewrite Hpc. case_decide as Et; [subst; apply fn_lookup_insert|]. rewrite fn_lookup_insert_ne, S3 by done.
      replace (phase s' (woken ChFree (v_pc s t'))) with (phase s (woken ChFree (v_pc s t'))); [by rewrite woken_phase|].
      unfold phase. by rewrite Hb, Ha.
Qed.

End finish.

Lemma enter_step s t b w :
  inv s -> v_lock s = Nobody -> v_pc s t = Enter b w ->
  exists s', virtio_disk_rw t s = Ok tt s' /\ v_pc s' t <> Idle /\ inv s' /\ simulates s None s'.
Proof.
  intros I Hk Ht. unfold virtio_disk_rw. mrun. rewrite Ht. unfold put_lock at 1. mrun.
  destruct (alloc3_desc_run (set_lock (Process t) s) (ly_01 _ _ _ (iv_layout _ I))) as [(i0 & i1 & i2 & s1 & E & Hnd & Hl & T)|(s1 & E & Hfew & R & Hf & Hd & Hp)];
    rewrite (bind_ok _ _ _ _ _ E).
  - rewrite (submit_run s s1 t b w i0 i1 i2 T). eexists. split; [done|]. pose proof (tk_free _ _ _ T) as Hfr.
    split; [cbn; by rewrite fn_lookup_insert|]. split; [by apply submit_inv|by apply submit_simulates].
  - unfold put_pc, put_lock. mrun. eexists. split; [done|]. split; [cbn; by rewrite fn_lookup_insert|]. by apply enter_fail_step.
Qed.

Lemma run_step s t :
  inv s -> runnable s t -> exists s', virtio_disk_rw t s = Ok tt s' /\ inv s' /\ simulates s (returns s t s') s'.
Proof.
  assert (Q : forall s', v_pc s' t <> Idle -> returns s t s' = None) by (intros s' H; unfold returns; by destruct (v_pc s' t)).
  intros I Hr. unfold runnable in Hr. destruct (v_pc s t) as [|b w| |b w i|b w i| |b w i] eqn:Ht; try done.
  - destruct (enter_step s t b w I Hr Ht) as (s' & E & H & J). exists s'. by rewrite (Q s' H).
  - destruct (post_step s t b w i I Ht) as (s' & E & H & J). exists s'. rewrite (Q s'); [done|congruence].
  - destruct (notify_step s t b w i I Ht) as (s' & E & H & J). exists s'. rewrite (Q s'); [done|congruence].
  - destruct (finish_run s t b w i I Ht) as (s1 & E & F). eexists. split; [exact E|]. split; [by eapply finish_inv|by eapply finish_simulates].
Qed.

(** ** The system *)

Lemma step_keeps s o s' : inv s -> step virtio_action s o s' -> inv s' /\ simulates s o s'.
Proof.
  intros I [t b w Ht Hq|b x Hq Hx|t s2 Hr E|s2 Hk _ E|s2 Hi E|s1 s2 Hi E1 E2|s2 A].
  - by apply call_step.
  - by apply client_step.
  - destruct (run_step s t I Hr) as (s3 & E' & H). rewrite E' in E. by injection E as ->.
  - destruct (ack_step s I Hk) as (s3 & E' & _ & H). rewrite E' in E. by injection E as ->.
  - destruct (round_step s I Hi) as (r & s3 & E' & H & _ & HS). rewrite E' in E. by injection E as -> ->.
  - destruct (release_step s s1 I Hi E1) as (s3 & E' & H & _ & HS). rewrite E' in E2. by injection E2 as ->.
  - by apply device_step.
Qed.

Lemma start_inv bufs sectors :
  (forall b, buf_ok (bufs b)) -> (forall n, length (sectors n) = 512%nat) -> inv (start_state bufs sectors).
Proof.
  intros Hb Hs. split; try done.
  - split; [done|done| |].
    + intros j [Hj1 Hj2]. cbn. by rewrite (proj2 (Z.leb_le 0 j)), (proj2 (Z.ltb_lt j NUM)).
    + intros j _. cbn. destruct (_ && _); auto.
  - constructor.
  - intros i. split; [by intros ?%elem_of_nil|]. by intros (t & b & w & H & _).
Qed.

(** The disk of blocks at the start. *)
Definition start_spec (bufs : nat -> buf) (sectors : Z -> list Z) : astate :=
  Astate (block_of sectors) (fun b => (b_blockno (bufs b), b_data (bufs b))) (fun _ => AIdle).

Lemma reach_inv bufs sectors l s :
  (forall b, buf_ok (bufs b)) -> (forall n, length (sectors n) = 512%nat) ->
  exec (step virtio_action) (start_state bufs sectors) l s -> inv s /\ exists a, exec astep (start_spec bufs sectors) l a /\ sim s a.
Proof.
  intros Hb Hs. induction 1 as [|l s1 o s2 _ (I & a & Ha & S) H].
  - split; [by apply start_inv|]. exists (start_spec bufs sectors). split; [constructor|]. by split.
  - destruct (step_keeps s1 o s2 I H) as [I' HS]. split; [done|].
    destruct (HS a S) as [[-> S']|(a' & Ha' & S')]; [exists a; by rewrite app_nil_r|]. exists a'. split; [by econstructor|done].
Qed.

(** C3: Whatever the callers, the interrupts and the device do, in any order, the driver
    implements a disk of blocks: every sequence of calls, of returns with the content their
    buffers have then, and of writes to buffers by the rest of the kernel that can be seen of the
    driver and the device can be seen, in the same order, of a disk of blocks on which each
    virtio_disk_rw() transfers the whole block its buffer names, to or from that buffer only, at
    one moment between its call and its return; and the sectors, the buffers and who is inside are
    at the end those of that disk.  The device takes requests whenever their index is published,
    notified or not, serves them in any order, and the rings wrap around and the descriptors are
    used again without bound. *)
Theorem virtio_refines_disk bufs sectors l s :
  (forall b, buf_ok (bufs b)) -> (forall n, length (sectors n) = 512%nat) ->
  exec (step virtio_action) (start_state bufs sectors) l s ->
  exists a, exec astep (start_spec bufs sectors) l a /\ sim s a.
Proof. intros Hb Hs H. by eapply reach_inv. Qed.

(** Fewer than eight descriptors are free when some process sleeps for one. *)
Lemma few_owned s : inv s -> few_free s -> exists t x, flight s t = Some x.
Proof.
  intros I (l & Hl & Hj). destruct (decide (Forall (fun j => j ∈ l) desc_numbers)) as [Hall|Hn].
  - assert (length desc_numbers <= length l)%nat as H; [|change (length desc_numbers) with 8%nat in H; lia].
    apply submseteq_length, NoDup_submseteq; [apply NoDup_seqZ|by apply Forall_forall].
  - apply not_Forall_Exists in Hn; [|apply _]. apply Exists_exists in Hn as (j & Hj1%desc_numbers_spec & Hj2).
    destruct (ly_01 _ _ _ (iv_layout _ I) j Hj1) as [Hz|Ho]; [|destruct Hj2; apply Hj; [done|lia]].
    destruct (ly_owned _ _ _ (iv_layout _ I) j Hj1 Hz) as (t & x & Hx & _). by exists t, x.
Qed.

(** What goes on without a new call: a round of the handler, a pending interrupt that can be
    taken, a process that can run on, or something a device that was told has to do. *)
Definition can_go (s : vstate) : Prop :=
  (v_lock s = Handler /\ exists r s', intr_round s = Ok r s') \/
  (v_lock s = Nobody /\ v_irq s <> 0) \/
  (exists t s', runnable s t /\ virtio_disk_rw t s = Ok tt s') \/
  (exists s', virtio_duty s s').

Lemma runnable_goes s t : inv s -> runnable s t -> can_go s.
Proof. intros I Hr. destruct (run_step s t I Hr) as (s' & E & _). right. right. left. eauto. Qed.

(** A process in the middle of its submission has the lock. *)
Lemma locked_goes s : inv s -> v_lock s <> Nobody -> can_go s.
Proof.
  intros I Hk. destruct (v_lock s) as [| |t] eqn:E; [done| |].
  - left. destruct (round_step s I E) as (r & s' & H & _). eauto.
  - apply (runnable_goes s t I). unfold runnable. assert (M : mid (v_pc s t) = true) by (by apply (iv_lock _ I)). by destruct (v_pc s t).
Qed.

(** A request in flight is with its process, the device or the handler. *)
Lemma flight_goes s t x : inv s -> flight s t = Some x -> v_lock s = Nobody -> can_go s.
Proof.
  intros I Hf Hk. destruct x as [[b w] i]. pose proof (free_no_mid s t I Hk) as Hm.
  destruct (is_woken (v_pc s t)) eqn:Hw; [apply (runnable_goes s t I); unfold runnable; by destruct (v_pc s t)|].
  pose proof (iv_marked _ I _ _ _ _ Hf) as Hd. rewrite Hw in Hd.
  assert (Hq : i ∈ queue s) by (apply (iv_queue _ I); by exists t, b, w).
  unfold queue in Hq. rewrite pending_free in Hq by congruence. cbn [app] in Hq. rewrite !elem_of_app in Hq. destruct Hq as [Hq|[Hq|Hq]].
  - right. right. right. assert (asked s <> []) as Hne by (intros E; rewrite E in Hq; by apply elem_of_nil in Hq).
    eexists. apply duty_take.
    + destruct (iv_told _ I Hne) as [?|(t' & b' & w' & i' & H)]; [done|]. pose proof (free_no_mid s t' I Hk) as M. by rewrite H in M.
    + intros E. apply Hne. destruct (iv_pos _ I) as (P1 & P2 & _). by apply window_empty.
  - right. right. right. apply list_elem_of_split in Hq as (l1 & l2 & El). eexists. eapply duty_serve; [exact El|].
    eapply request_formatted; [apply (iv_buf _ I)|by eapply (ly_fmt _ _ _ (iv_layout _ I))].
  - right. left. split; [done|]. destruct (iv_irq _ I) as [?|?]; [|done|congruence]. intros E. rewrite E in Hq. by apply elem_of_nil in Hq.
Qed.

(** C4: No part of the driver panics or stops half-way, and nobody waits in vain.  In every state
    that can be reached, virtio_disk_rw() of a process that is awake and has the lock, or can take
    it, runs on, a round of the interrupt handler returns, and the whole handler returns with no
    answer left when it finds the lock free; and as long as some process is inside
    virtio_disk_rw(), the handler has a round to do, an interrupt is pending and can be taken, a
    process can run on, or a device that is only obliged to look at the ring of requests after a
    notification has something to do: no wakeup, no answer and no notification is lost. *)
Theorem virtio_no_deadlock bufs sectors l s :
  (forall b, buf_ok (bufs b)) -> (forall n, length (sectors n) = 512%nat) ->
  exec (step virtio_action) (start_state bufs sectors) l s ->
  (forall t, runnable s t -> exists s', virtio_disk_rw t s = Ok tt s') /\
  (v_lock s = Handler -> exists r s', intr_round s = Ok r s') /\
  (v_lock s = Nobody -> exists s', virtio_disk_intr s = Ok tt s' /\ used_idx (v_disk s') = usedr_idx (v_disk s')) /\
  (forall t, v_pc s t <> Idle -> can_go s).
Proof.
  intros Hb Hs H. destruct (reach_inv _ _ _ _ Hb Hs H) as [I _]. split_and!.
  - intros t Hr. destruct (run_step s t I Hr) as (s' & E & _). eauto.
  - intros Hi. destruct (round_step s I Hi) as (r & s' & E & _). eauto.
  - intros Hk. destruct (virtio_disk_intr_ends s I Hk) as (s' & E & I' & A). exists s'. split; [done|].
    destruct (iv_pos _ I') as (_ & _ & P1 & P2). by apply (window_empty (usedr_ring (v_disk s')) _ _ P1 P2).
  - intros t Ht. destruct (decide (v_lock s = Nobody)) as [Hk|Hk]; [|by apply locked_goes].
    destruct (flight s t) as [x|] eqn:Hf; [by eapply flight_goes|]. unfold flight in Hf.
    destruct (v_pc s t) as [|b w|b w| | | |] eqn:E; try done.
    + apply (runnable_goes s t I). unfold runnable. by rewrite E.
    + destruct (few_owned s I (iv_few _ I _ _ _ E)) as (t' & x & Hx). by eapply flight_goes.
Qed.

(** ** Initialisation *)

Section init.
Context {img : Image} {regs : Registers}.
Import Kalloc.

(** The features the driver does not ask for. *)
Definition unwanted : list Z :=
  [VIRTIO_BLK_F_RO; VIRTIO_BLK_F_SCSI; VIRTIO_BLK_F_CONFIG_WCE; VIRTIO_BLK_F_MQ; VIRTIO_F_ANY_LAYOUT; VIRTIO_RING_F_EVENT_IDX; VIRTIO_RING_F_INDIRECT_DESC].

Lemma clear_bit_spec x b n : 0 <= b < 64 -> 0 <= n < 64 -> Z.testbit (clear_bit x b) n = Z.testbit x n && negb (n =? b).
Proof.
  intros Hb Hn. unfold clear_bit, u64. rewrite Z.land_spec, Z.mod_pow2_bits_low, Z.lnot_spec, Z.shiftl_1_l, Z.pow2_bits_eqb by lia.
  by rewrite Z.eqb_sym.
Qed.

Lemma clear_all_spec l x n :
  Forall (fun b => 0 <= b < 64) l -> 0 <= n < 64 -> Z.testbit (foldl clear_bit x l) n = Z.testbit x n && negb (bool_decide (n ∈ l)).
Proof.
  intros Hl Hn. revert x. induction Hl as [|b l Hb _ IH]; intros x; cbn [foldl]; [by rewrite bool_decide_false, andb_true_r by set_solver|].
  rewrite IH, clear_bit_spec by done. rewrite <- andb_assoc. f_equal. destruct (Z.eqb_spec n b) as [->|E]; cbn [negb andb].
  - by rewrite bool_decide_true by set_solver.
  - f_equal. apply bool_decide_ext. set_solver.
Qed.

Definition at_reg (w : Z * Z) : Z * Z := (VIRTIO0 + w.1, w.2).

(** The writes up to the negotiation's end, and all of them. *)
Definition negotiation (f : Z) : list (Z * Z) :=
  at_reg <$> [(VIRTIO_MMIO_STATUS, 0); (VIRTIO_MMIO_STATUS, 1); (VIRTIO_MMIO_STATUS, 3); (VIRTIO_MMIO_DRIVER_FEATURES, f); (VIRTIO_MMIO_STATUS, 11)].

Definition queue_setup (desc avail used status : Z) : list (Z * Z) :=
  at_reg <$> [(VIRTIO_MMIO_QUEUE_SEL, 0); (VIRTIO_MMIO_QUEUE_NUM, NUM);
    (VIRTIO_MMIO_QUEUE_DESC_LOW, u32 desc); (VIRTIO_MMIO_QUEUE_DESC_HIGH, u32 (Z.shiftr desc 32));
    (VIRTIO_MMIO_DRIVER_DESC_LOW, u32 avail); (VIRTIO_MMIO_DRIVER_DESC_HIGH, u32 (Z.shiftr avail 32));
    (VIRTIO_MMIO_DEVICE_DESC_LOW, u32 used); (VIRTIO_MMIO_DEVICE_DESC_HIGH, u32 (Z.shiftr used 32));
    (VIRTIO_MMIO_QUEUE_READY, 1); (VIRTIO_MMIO_STATUS, status)].

(** The device answers like a disk with a queue. *)
Record disk_present (f status : Z) : Prop := {
  dp_id : Forall (fun x => u32 (reg_value [] (VIRTIO0 + x.1)) = x.2)
    [(VIRTIO_MMIO_MAGIC_VALUE, 0x74726976); (VIRTIO_MMIO_VERSION, 2); (VIRTIO_MMIO_DEVICE_ID, 2); (VIRTIO_MMIO_VENDOR_ID, 0x554d4551)];
  dp_features : u32 (foldl clear_bit (u32 (reg_value (take 3 (negotiation f)) (VIRTIO0 + VIRTIO_MMIO_DEVICE_FEATURES))) unwanted) = f;
  dp_status : u32 (reg_value (negotiation f) (VIRTIO0 + VIRTIO_MMIO_STATUS)) = status;
  dp_ok : Z.land status VIRTIO_CONFIG_S_FEATURES_OK <> 0;
  dp_ready : u32 (reg_value (negotiation f ++ [(VIRTIO0 + VIRTIO_MMIO_QUEUE_SEL, 0)]) (VIRTIO0 + VIRTIO_MMIO_QUEUE_READY)) = 0;
  dp_max : NUM <= u32 (reg_value (negotiation f ++ [(VIRTIO0 + VIRTIO_MMIO_QUEUE_SEL, 0)]) (VIRTIO0 + VIRTIO_MMIO_QUEUE_NUM_MAX))
}.

Lemma lift_ok {A} (m : K A) k k' a w : m k = Ok a k' -> lift m (Istate k w) = Ok a (Istate k' w).
Proof. intros E. unfold lift. cbn. by rewrite E. Qed.

(** virtio_disk_init() of a device that is a disk takes three pages, clears them, tells the
    device where they are, and enables it; no feature is accepted that the driver does not
    know. *)
Theorem virtio_init_ready k l p1 p2 p3 f status :
  kmem_inv k (p1 :: p2 :: p3 :: l) -> LKmem ∉ k_held k -> disk_present f status ->
  exists k', virtio_disk_init (Istate k []) =
      Ok (Queues p1 p2 p3 (replicate (Z.to_nat NUM) 1)) (Istate k' (negotiation f ++ queue_setup p1 p2 p3 (u32 (Z.lor status VIRTIO_CONFIG_S_DRIVER_OK)))) /\
    kmem_inv k' l /\ (forall p a, p ∈ [p1; p2; p3] -> p <= a < p + PGSIZE -> k_mem k' a = 0) /\
    mem_only k k' /\ (forall a, PGROUNDDOWN a ∉ [p1; p2; p3] -> k_mem k' a = k_mem k a) /\
    (forall n, n ∈ unwanted -> Z.testbit f n = false).
Proof.
  intros Ho Hk [D1 D2 D3 D4 D5 D6].
  assert (Hpg : page_ok p1 /\ page_ok p2 /\ page_ok p3).
  { destruct (owns_page_ok _ _ Ho) as ((? & (? & (? & _)%Forall_cons)%Forall_cons)%Forall_cons & _). done. }
  destruct Hpg as (G1 & G2 & G3). destruct (owns_page_ok _ _ Ho) as (_ & Hnd & _).
  destruct (alloc_some k p1 _ Ho Hk) as (k1 & E1 & O1 & M1 & S1 & _).
  destruct (alloc_some k1 p2 _ O1) as (k2 & E2 & O2 & M2 & S2 & _); [by rewrite (mem_only_held _ _ M1)|].
  destruct (alloc_some k2 p3 _ O2) as (k3 & E3 & O3 & M3 & S3 & _); [by rewrite (mem_only_held _ _ M2), (mem_only_held _ _ M1)|].
  rewrite !Forall_cons in D1. cbn [fst snd] in D1. destruct D1 as (I1 & I2 & I3 & I4 & _).
  unfold virtio_disk_init, R_read, R_write. mrun. cbn [is_regs is_k]. rewrite I1, I2, I3, I4, !Z.eqb_refl. cbn [negb orb]. mrun. cbn [is_regs is_k].
  match goal with |- context [(VIRTIO0 + VIRTIO_MMIO_DRIVER_FEATURES, ?x)] => replace x with f by (symmetry; exact D2) end.
  match goal with |- context [Istate k ?w] => change w with (negotiation f) end. rewrite D3, (proj2 (Z.eqb_neq _ _) D4). mrun. cbn [is_regs is_k].
  change (u32 0) with 0. rewrite D5. cbn [Z.eqb negb]. mrun. cbn [is_regs is_k].
  destruct (Z.eqb_spec (u32 (reg_value (negotiation f ++ [(VIRTIO0 + VIRTIO_MMIO_QUEUE_SEL, 0)]) (VIRTIO0 + VIRTIO_MMIO_QUEUE_NUM_MAX))) 0) as [E|_]; [unfold NUM in D6; lia|].
  rewrite (proj2 (Z.ltb_ge _ _) D6).
  rewrite (bind_ok _ _ _ _ _ (lift_ok _ _ _ _ _ E1)), (bind_ok _ _ _ _ _ (lift_ok _ _ _ _ _ E2)), (bind_ok _ _ _ _ _ (lift_ok _ _ _ _ _ E3)).
  pose proof (page_ok_pos _ G1). pose proof (page_ok_pos _ G2). pose proof (page_ok_pos _ G3).
  rewrite !(proj2 (Z.eqb_neq _ 0)) by lia. cbn [orb].
  erewrite (bind_ok (lift _)) by (apply lift_ok; reflexivity). erewrite (bind_ok (lift _)) by (apply lift_ok; reflexivity).
  erewrite (bind_ok (lift _)) by (apply lift_ok; reflexivity). mrun. cbn [is_regs is_k].
  apply NoDup_cons in Hnd as (N1 & (N2 & (N3 & _)%NoDup_cons)%NoDup_cons).
  eexists. split; [unfold retM; do 2 f_equal; rewrite <- !app_assoc; reflexivity|]. split_and!.
  - do 3 (apply PageTable.memset_kmem; [|done|set_solver]). done.
  - intros p a Hp Ha. cbn [k_mem set_k_mem]. rewrite !CString.memset_spec by (unfold PGSIZE; lia). change (u8 0) with 0.
    rewrite !elem_of_cons in Hp. zcases; destruct Hp as [->|[->|[->|[]%elem_of_nil]]]; lia.
  - pose proof (mem_only_trans _ _ _ M1 (mem_only_trans _ _ _ M2 M3)) as M. unfold mem_only in *. rewrite M. reflexivity.
  - intros a Ha. rewrite !not_elem_of_cons, !PageTable.in_page_iff in Ha by (apply G1 || apply G2 || apply G3).
    destruct Ha as (A1 & A2 & A3 & _). cbn [k_mem set_k_mem]. rewrite !CString.memset_spec by (unfold PGSIZE; lia).
    rewrite <- (S1 a A1), <- (S2 a A2), <- (S3 a A3). zcases; lia || done.
  - intros n Hn. rewrite <- D2. unfold u32 at 1. rewrite Z.mod_pow2_bits_low.
    + rewrite clear_all_spec, (bool_decide_true (n ∈ unwanted)), andb_false_r by (done || (repeat constructor; done) || (revert n Hn; apply Forall_forall; repeat constructor; done)). done.
    + revert n Hn. apply Forall_forall. repeat constructor; done.
Qed.

End init.

(** ** A run: process 0 writes buffer 0 to block 5 *)

Definition demo_bufs (b : nat) : buf := MkBuf 1 0 1 5 (MkSleeplock 1 1) 1 (replicate 1024 7).
Definition demo_sectors (n : Z) : list Z := replicate 512 0.

Lemma disk_demo_ok : (forall b, buf_ok (demo_bufs b)) /\ forall n, length (demo_sectors n) = 512%nat.
Proof. split; [|done]. intros b. split; [done|]. cbn. lia. Qed.

Definition final {A} (m : M vstate A) (s : vstate) : vstate := match m s with Ok _ s' => s' | _ => s end.

Definition demo1 : vstate := set_pc (<[0%nat := Enter 0 true]> (fun _ => Idle)) (start_state demo_bufs demo_sectors).
Definition demo2 : vstate := final (virtio_disk_rw 0) demo1.
Definition demo3 : vstate := final (virtio_disk_rw 0) demo2.
Definition demo4 : vstate := final (virtio_disk_rw 0) demo3.
Definition demo5 : vstate := take_next demo4.
Definition demo6 : vstate := answer 0 (Request true 10 0 0) (transfer (Request true 10 0 0) (set_taken (v_seen demo5) ([] ++ []) demo5)).
Definition demo7 : vstate := final intr_ack demo6.
Definition demo8 : vstate := final intr_round demo7.
Definition demo9 : vstate := final intr_release (final intr_round demo8).
Definition demo10 : vstate := final (virtio_disk_rw 0) demo9.

Lemma final_ok {A} (m : M vstate A) r s :
  match m s with Ok r' _ => Some r' | _ => None end = Some r -> m s = Ok r (final m s).
Proof. unfold final. destruct (m s); [by intros [= ->]|done..]. Qed.

Ltac run_final d := unfold d; refine (final_ok _ _ _ _); vm_compute; reflexivity.

Lemma demo2_run : virtio_disk_rw 0 demo1 = Ok tt demo2.
Proof. run_final demo2. Qed.
Lemma demo3_run : virtio_disk_rw 0 demo2 = Ok tt demo3.
Proof. run_final demo3. Qed.
Lemma demo4_run : virtio_disk_rw 0 demo3 = Ok tt demo4.
Proof. run_final demo4. Qed.
Lemma demo7_run : intr_ack demo6 = Ok tt demo7.
Proof. run_final demo7. Qed.
Lemma demo8_run : intr_round demo7 = Ok true demo8.
Proof. run_final demo8. Qed.
Lemma demo8_end : intr_round demo8 = Ok false (final intr_round demo8).
Proof. refine (final_ok _ _ _ _). vm_compute. reflexivity. Qed.
Lemma demo9_run : intr_release (final intr_round demo8) = Ok tt demo9.
Proof. run_final demo9. Qed.
Lemma demo10_run : virtio_disk_rw 0 demo9 = Ok tt demo10.
Proof. run_final demo10. Qed.

Lemma exec_quiet {St} (R : St -> option event -> St -> Prop) s l s1 s2 : exec R s l s1 -> R s1 None s2 -> exec R s l s2.
Proof. intros H1 H2. rewrite <- (app_nil_r l). by apply (exec_snoc _ _ _ _ None _ H1). Qed.

Lemma returns_quiet s t s' p : v_pc s' t = p -> p <> Idle -> returns s t s' = None.
Proof. intros <- H. unfold returns. by destruct (v_pc s' t). Qed.

(** A step of process 0 that is not its last. *)
Lemma demo_run l s1 s2 p :
  exec (step virtio_action) (start_state demo_bufs demo_sectors) l s1 -> runnable s1 0 -> virtio_disk_rw 0 s1 = Ok tt s2 ->
  v_pc s2 0 = p -> p <> Idle -> exec (step virtio_action) (start_state demo_bufs demo_sectors) l s2.
Proof.
  intros H Hr E Hp Hn. apply (exec_quiet _ _ _ s1); [done|]. rewrite <- (returns_quiet s1 0 s2 p Hp Hn). by apply step_run.
Qed.

Lemma demo_waiting : exec (step virtio_action) (start_state demo_bufs demo_sectors) [ECall 0 0 true] demo4.
Proof.
  refine (demo_run _ demo3 demo4 (SleepBuf 0 true 0) _ _ demo4_run _ _); [|vm_compute; reflexivity..|done].
  refine (demo_run _ demo2 demo3 (Posted 0 true 0) _ _ demo3_run _ _); [|vm_compute; reflexivity..|done].
  refine (demo_run _ demo1 demo2 (Filled 0 true 0) _ _ demo2_run _ _); [|vm_compute; reflexivity..|done].
  exact (exec_snoc _ _ [] _ _ _ (exec_nil _ _) (step_call _ (start_state demo_bufs demo_sectors) 0 0 true eq_refl ltac:(done))).
Qed.

Lemma demo_steps : exec (step virtio_action) (start_state demo_bufs demo_sectors) [ECall 0 0 true; EReturn 0 0 5 (replicate 1024 7)] demo10.
Proof.
  assert (R : request_at (v_disk demo5) 0 = Some (Request true 10 0 0)) by (vm_compute; reflexivity).
  assert (L : returns demo9 0 demo10 = Some (EReturn 0 0 5 (replicate 1024 7))) by (vm_compute; reflexivity).
  change [ECall 0 0 true; EReturn 0 0 5 (replicate 1024 7)] with ([ECall 0 0 true] ++ option_list (Some (EReturn 0 0 5 (replicate 1024 7)))).
  rewrite <- L. apply (exec_snoc _ _ _ demo9); [|refine (step_run _ demo9 0 demo10 _ demo10_run); vm_compute; reflexivity].
  apply (exec_quiet _ _ _ demo8); [|refine (step_release _ demo8 _ demo9 _ demo8_end demo9_run); vm_compute; reflexivity].
  apply (exec_quiet _ _ _ demo7); [|refine (step_round _ demo7 demo8 _ demo8_run); vm_compute; reflexivity].
  apply (exec_quiet _ _ _ demo6); [|refine (step_intr _ demo6 demo7 _ _ demo7_run); [vm_compute; reflexivity|vm_compute; discriminate]].
  apply (exec_quiet _ _ _ demo5); [|refine (step_device _ _ _ (dev_duty _ _ (duty_serve demo5 [] 0 [] (Request true 10 0 0) _ R))); vm_compute; reflexivity].
  apply (exec_quiet _ _ _ demo4); [exact demo_waiting|].
  refine (step_device _ _ _ (dev_duty _ _ (duty_take demo4 _ _))); [vm_compute; reflexivity|vm_compute; discriminate].
Qed.

Lemma virtio_refines_disk_witness :
  v_pc demo10 0 = Idle /\ block_of (v_sector demo10) 5 = replicate 1024 7 /\ block_of (v_sector demo10) 6 = replicate 1024 0 /\
  exists a, exec astep (start_spec demo_bufs demo_sectors) [ECall 0 0 true; EReturn 0 0 5 (replicate 1024 7)] a /\ sim demo10 a.
Proof.
  split; [vm_compute; reflexivity|]. split; [vm_compute; reflexivity|]. split; [vm_compute; reflexivity|].
  exact (virtio_refines_disk demo_bufs demo_sectors _ demo10 (proj1 disk_demo_ok) (proj2 disk_demo_ok) demo_steps).
Defined.

Lemma virtio_no_deadlock_witness :
  v_pc demo4 0 = SleepBuf 0 true 0 /\
  (forall t, runnable demo4 t -> exists s', virtio_disk_rw t demo4 = Ok tt s') /\
  (v_lock demo4 = Handler -> exists r s', intr_round demo4 = Ok r s') /\
  (v_lock demo4 = Nobody -> exists s', virtio_disk_intr demo4 = Ok tt s' /\ used_idx (v_disk s') = usedr_idx (v_disk s')) /\
  (forall t, v_pc demo4 t <> Idle -> can_go demo4).
Proof.
  split; [vm_compute; reflexivity|].
  exact (virtio_no_deadlock demo_bufs demo_sectors _ demo4 (proj1 disk_demo_ok) (proj2 disk_demo_ok) demo_waiting).
Defined.

End VirtioProofs.
