(* ===== verification/Boot.v ===== *)
(** * Start-up: kernel/main.c, and the initialisation functions of uart.c, console.c, printf.c,
      trap.c, file.c and vm.c

    [boot] adds to the kernel's state what only start-up writes: the control registers of the
    hart, the registers of the uart and of the disk, kernel_pagetable, devsw[] and [started].
    The uart is a 16550, in which bit 7 of LCR selects the divisor at offsets 0 and 1. *)

From S2P Require Import Prelude Machine FsData State Locks CString Kalloc VM Sched Proc Shm Mutex Bio Log Fs Print Console File Fork Trap Virtio.

Module Boot.
Import CString Kalloc VM Sched Proc Shm Mutex Bio Fs Print Console Fork Trap Virtio.

(** ** The uart *)

Definition IER : Z := 1.
Definition IER_RX_ENABLE : Z := Z.shiftl 1 0.
Definition IER_TX_ENABLE : Z := Z.shiftl 1 1.
Definition FCR : Z := 2.
Definition FCR_FIFO_ENABLE : Z := Z.shiftl 1 0.
Definition FCR_FIFO_CLEAR : Z := Z.shiftl 3 1.
Definition LCR : Z := 3.
Definition LCR_EIGHT_BITS : Z := Z.shiftl 3 0.
Definition LCR_BAUD_LATCH : Z := Z.shiftl 1 7.

Record uart : Type := Uart { u_ier : Z; u_fcr : Z; u_lcr : Z; u_divisor : Z; u_sent : list Z }.

(** What a write to a register does. *)
Definition uart_write (reg v : Z) (u : uart) : uart :=
  let latch := has (u_lcr u) LCR_BAUD_LATCH in
  if reg =? 0 then
    if latch then Uart (u_ier u) (u_fcr u) (u_lcr u) (u_divisor u / 256 * 256 + u8 v) (u_sent u)
    else Uart (u_ier u) (u_fcr u) (u_lcr u) (u_divisor u) (u_sent u ++ [u8 v])
  else if reg =? IER then
    if latch then Uart (u_ier u) (u_fcr u) (u_lcr u) (u8 v * 256 + u_divisor u mod 256) (u_sent u)
    else Uart (u8 v) (u_fcr u) (u_lcr u) (u_divisor u) (u_sent u)
  else if reg =? FCR then Uart (u_ier u) (u8 v) (u_lcr u) (u_divisor u) (u_sent u)
  else if reg =? LCR then Uart (u_ier u) (u_fcr u) (u8 v) (u_divisor u) (u_sent u)
  else u.

(** ** The state of start-up *)

Record boot : Type := Boot_ {
  bt_k : kstate;
  bt_csr : csrs;
  bt_uart : uart;
  bt_disk : list (Z * Z);
  bt_queues : option queues;
  bt_pagetable : Z;
  bt_devsw : list Z;
  bt_started : Z
}.

Definition set_bt_k (v : kstate) (b : boot) : boot :=
  Boot_ v (bt_csr b) (bt_uart b) (bt_disk b) (bt_queues b) (bt_pagetable b) (bt_devsw b) (bt_started b).
Definition set_bt_csr (v : csrs) (b : boot) : boot :=
  Boot_ (bt_k b) v (bt_uart b) (bt_disk b) (bt_queues b) (bt_pagetable b) (bt_devsw b) (bt_started b).
Definition set_bt_uart (v : uart) (b : boot) : boot :=
  Boot_ (bt_k b) (bt_csr b) v (bt_disk b) (bt_queues b) (bt_pagetable b) (bt_devsw b) (bt_started b).
Definition set_bt_disk (w : list (Z * Z)) (q : option queues) (b : boot) : boot :=
  Boot_ (bt_k b) (bt_csr b) (bt_uart b) w q (bt_pagetable b) (bt_devsw b) (bt_started b).
Definition set_bt_pagetable (v : Z) (b : boot) : boot :=
  Boot_ (bt_k b) (bt_csr b) (bt_uart b) (bt_disk b) (bt_queues b) v (bt_devsw b) (bt_started b).
Definition set_bt_devsw (v : list Z) (b : boot) : boot :=
  Boot_ (bt_k b) (bt_csr b) (bt_uart b) (bt_disk b) (bt_queues b) (bt_pagetable b) v (bt_started b).
Definition set_bt_started (v : Z) (b : boot) : boot :=
  Boot_ (bt_k b) (bt_csr b) (bt_uart b) (bt_disk b) (bt_queues b) (bt_pagetable b) (bt_devsw b) v.

Definition B : Type -> Type := M boot.

Definition liftk {A} (m : K A) : B A := fun b =>
  match m (bt_k b) with
  | Ok a k => Ok a (set_bt_k k b)
  | Panic msg => Panic msg
  | Blocked k => Blocked (set_bt_k k b)
  end.

Definition put_csr (f : csrs -> csrs) : B unit := modify (fun b => set_bt_csr (f (bt_csr b)) b).

(** initlock(): whoever held the lock does not hold it any more. *)
Definition initlock (lk : lockid) : B unit :=
  liftk (modify (fun s => set_k_held (k_held s ∖ {[lk]}) s)).

(** ** uart.c, console.c, printf.c, trap.c, file.c *)

Definition WriteReg (reg v : Z) : B unit := modify (fun b => set_bt_uart (uart_write reg v (bt_uart b)) b).

Definition uartinit : B unit :=
  WriteReg IER 0x00 ;;
  WriteReg LCR LCR_BAUD_LATCH ;;
  WriteReg 0 0x03 ;;
  WriteReg 1 0x00 ;;
  WriteReg LCR LCR_EIGHT_BITS ;;
  WriteReg FCR (Z.lor FCR_FIFO_ENABLE FCR_FIFO_CLEAR) ;;
  WriteReg IER (Z.lor IER_TX_ENABLE IER_RX_ENABLE) ;;
  initlock LUart.

(** The two entries of devsw[CONSOLE] are one element of the list. *)
Definition consoleinit : B unit :=
  initlock LCons ;;
  uartinit ;;
  modify (fun b => set_bt_devsw (CONSOLE :: bt_devsw b) b).

Definition printfinit : B unit := initlock LPr.

Definition trapinit : B unit := initlock LTicks.

Definition fileinit : B unit := initlock LFtable.

(** ** vm.c *)

Section code.
Context {img : Image} {env : Env} {vec : Vectors} {regs : Registers}.

Definition kvminit : B unit :=
  t <- liftk kvmmake ;;
  modify (set_bt_pagetable t).

(** sfence_vma() before and after has no effect on the model's memory. *)
Definition kvminithart : B unit :=
  t <- gets bt_pagetable ;;
  put_csr (w_satp (MAKE_SATP t)).

(** ** main.c *)

Definition disk_init : B unit := fun b =>
  match virtio_disk_init (Istate (bt_k b) (bt_disk b)) with
  | Ok q i => Ok tt (set_bt_disk (is_regs i) (Some q) (set_bt_k (is_k i) b))
  | Panic msg => Panic msg
  | Blocked i => Blocked (set_bt_disk (is_regs i) None (set_bt_k (is_k i) b))
  end.

(** The branch of hart 0. *)
Definition boot_first : B unit :=
  consoleinit ;;
  printfinit ;;
  liftk (printf [newline] []) ;;
  liftk (printf (chars "xv6 kernel is booting" ++ [newline]) []) ;;
  liftk (printf [newline] []) ;;
  liftk kinit ;;
  kvminit ;;
  kvminithart ;;
  liftk procinit ;;
  liftk shminit ;;
  liftk mutexinit ;;
  trapinit ;;
  put_csr trapinithart ;;
  liftk plicinit ;;
  liftk plicinithart ;;
  liftk binit ;;
  liftk iinit ;;
  fileinit ;;
  disk_init ;;
  liftk userinit ;;
  modify (set_bt_started 1).

(** The branch of the other harts; a wait for [started] that goes on is [Blocked]. *)
Definition boot_other : B unit :=
  st <- gets bt_started ;;
  if st =? 0 then block else
  id <- gets (fun b => k_cpuid (bt_k b)) ;;
  liftk (printf (chars "hart %d starting" ++ [newline]) [AInt id]) ;;
  kvminithart ;;
  put_csr trapinithart ;;
  liftk plicinithart.

(** main(), up to [n] rounds of the scheduler. *)
Definition main (n : nat) : B unit :=
  id <- gets (fun b => k_cpuid (bt_k b)) ;;
  (if id =? 0 then boot_first else boot_other) ;;
  liftk (scheduler n).

End code.

(** The machine when start() has entered main() on hart [id], with [disk] in the drive. *)
Definition boot0 (id : Z) (m : memory) (c : csrs) (disk : Z -> list Z) : boot :=
  Boot_ (set_k_fs (fsstate0 disk) (set_k_cpuid id (kstate0 m))) c (Uart 0 0 0 0 []) [] None 0 [] 0.

End Boot.
