(* ===== verification/BootProofs.v ===== *)
(** * Start-up: main() on the first hart brings the kernel up

    [boot_first] is followed call by call.  Each call takes pages from the free list and writes
    only to them ([frees_only]), so the tables built before stay as they are. *)

From S2P Require Import Prelude Machine FsData State Locks CString Kalloc VM PageTable UserVM Sched SchedProofs Proc Shm Mutex Bio Log Fs Print Console File Fork Syscall FsRun SyscallProofs Trap KernelMap Asm AsmProofs Virtio VirtioProofs Boot.

Module BootProofs.
Import CString Kalloc VM PageTable UserVM Sched SchedProofs Proc Shm Mutex Bio Fs Print Console Fork SyscallProofs Trap KernelMap Asm AsmProofs Virtio VirtioProofs Boot.

Section boot.
Context {img : Image} {env : Env} {vec : Vectors} {regs : Registers}.

Lemma initlock_run lk b : k_held (bt_k b) = ∅ -> initlock lk b = Ok tt b.
Proof.
  intros Hh. unfold initlock, liftk, modify. rewrite Hh. replace (∅ ∖ {[lk]}) with (∅ : gset lockid) by set_solver.
  rewrite <- Hh. destruct b as [k c u w q t d st]. by destruct k.
Qed.

Lemma liftk_run {A} (m : K A) b a k : m (bt_k b) = Ok a k -> liftk m b = Ok a (set_bt_k k b).
Proof. intros E. unfold liftk. by rewrite E. Qed.

Lemma WriteReg_run r v u b : WriteReg r v (set_bt_uart u b) = Ok tt (set_bt_uart (uart_write r v u) b).
Proof. done. Qed.

Lemma uart_unlatched u : u_sent (uart_write IER 0 u) = u_sent u.
Proof. destruct u as [a f l d o]. unfold uart_write. cbn [u_lcr]. by destruct (has l _). Qed.

Lemma uart_divisor a f l d o :
  uart_write 1 0 (uart_write 0 3 (uart_write LCR LCR_BAUD_LATCH (Uart a f l d o))) = Uart a f 128 3 o.
Proof.
  transitivity (Uart a f 128 (0 * 256 + (d / 256 * 256 + 3) mod 256) o); [reflexivity|]. f_equal. dlia.
Qed.

(** uartinit() leaves the uart at 38.4K baud with eight-bit words, its FIFOs on, and both
    interrupts enabled, whatever it was set to before, and sends nothing. *)
Lemma uartinit_ready b : k_held (bt_k b) = ∅ ->
  uartinit b = Ok tt (set_bt_uart (Uart 3 7 3 3 (u_sent (bt_uart b))) b).
Proof.
  intros Hh. transitivity (uartinit (set_bt_uart (bt_uart b) b)); [by destruct b|]. unfold uartinit.
  do 7 rewrite (bind_ok _ _ _ _ _ (WriteReg_run _ _ _ _)). rewrite initlock_run by exact Hh.
  rewrite <- (uart_unlatched (bt_uart b)). destruct (uart_write IER 0 (bt_uart b)) as [a f l d o].
  rewrite uart_divisor. reflexivity.
Qed.

(** ** Taking pages *)

(** From [s] to [s'] the free list goes from [l] to [l'], and of the memory above the devices
    only pages of [l] change. *)
Record frees_only (s : kstate) (l : list Z) (s' : kstate) (l' : list Z) : Prop := {
  fo_kmem : kmem_inv s' l';
  fo_sub : l' ⊆ l;
  fo_frame a : KERNBASE <= PGROUNDDOWN a -> PGROUNDDOWN a ∉ l -> k_mem s' a = k_mem s a
}.

Lemma frees_only_refl s l : kmem_inv s l -> frees_only s l s l.
Proof. intros H. by split. Qed.

Lemma frees_only_trans s1 l1 s2 l2 s3 l3 :
  frees_only s1 l1 s2 l2 -> frees_only s2 l2 s3 l3 -> frees_only s1 l1 s3 l3.
Proof.
  intros [_ H1 F1] [H3 H2 F2]. split; [done|by etrans|]. intros a Hb Ha. rewrite F2, F1; [done|done|done|done|].
  intros Hin. by apply Ha, H1.
Qed.

Lemma page_ram q : page_ok q -> KERNBASE <= q.
Proof. intros [_ Hq]. pose proof image_end_range. lia. Qed.

(** A table whose pages are not free stays. *)
Lemma frees_only_vm s l s' l' root F :
  vm_inv s root F l -> frees_only s l s' l' -> LKmem ∉ k_held s' -> vm_inv s' root F l' /\ same_lookups root s s'.
Proof.
  intros [Hok _ Hdis _] [Hk Hsub Hfr] Hlk.
  destruct (pt_frame (k_mem s) (k_mem s') root F Hok) as [Hok' Hl].
  { intros a [x Hx]. apply Hfr; [by eapply page_ram, pt_page|]. intros Hin. rewrite Hdis in Hx by done. done. }
  split; [|done]. split; try done. intros q Hq. by apply Hdis, Hsub.
Qed.

Lemma kalloc_frees s p l :
  kmem_inv s (p :: l) -> LKmem ∉ k_held s ->
  exists s', kalloc s = Ok p s' /\ mem_only s s' /\ frees_only s (p :: l) s' l /\ page_ok p /\ p ∉ l.
Proof.
  intros Hk Hlk. destruct (kalloc_some s p l Hk Hlk) as (s' & E & Hk' & Hmo & Hout & _).
  pose proof Hk as (_ & [Hpl _]%NoDup_cons & [Hp _]%Forall_cons & _).
  exists s'. split_and!; try done. split; [done|by intros q; right|].
  intros a _ Ha. apply Hout. rewrite <- in_page_iff by apply Hp. intros E'. apply Ha. rewrite E'. by left.
Qed.

(** vm_grow takes its pages from the free list. *)
Lemma vm_grow_frees s root F l s' F' l' :
  vm_inv s root F l -> vm_grow s root F l s' F' l' ->
  kmem_inv s' l' /\ l' ⊆ l /\ forall a, PGROUNDDOWN a ∉ l -> F !! PGROUNDDOWN a = None -> k_mem s' a = k_mem s a.
Proof.
  intros Hinv Hg. split; [apply Hg|]. split.
  - destruct (vg_pages _ _ _ _ _ _ _ Hg) as (used & -> & _). intros q Hq. apply elem_of_app. by right.
  - intros a Ha HF. by apply (vm_grow_frame _ _ _ _ _ _ _ a Hinv Hg).
Qed.

(** One page of the kernel's in a table that does not map the address yet. *)
Lemma mappages_one s root F l va pa perm :
  vm_inv s root F l -> va mod PGSIZE = 0 -> 0 <= va -> va + PGSIZE <= MAXVA -> pa mod PGSIZE = 0 -> 0 <= pa -> pa + PGSIZE <= 2 ^ 56 ->
  0 <= perm < 1024 -> (2 < length l)%nat ->
  (forall va', va <= va' < va + PGSIZE -> has (lookup_va (k_mem s) root va') PTE_V = false) ->
  exists s' F' l', mappages root va PGSIZE pa perm s = Ok 0 s' /\ vm_grow s root F l s' F' l' /\
    (length l <= length l' + 2)%nat /\
    forall va', 0 <= va' < MAXVA -> lookup_va (k_mem s') root va' =
      if (va <=? va') && (va' <? va + PGSIZE) then mk_pte pa perm else lookup_va (k_mem s) root va'.
Proof.
  intros Hinv H1 H2 H3 H4 H5 H6 H7 Hlen Hfree.
  destruct (mappages_spec s root F l va 1 pa perm) as (r & s' & F' & l' & k & E & Hg & Hm & Hk & Hl & _ & Hr); try done; try lia.
  destruct Hr as [[-> ->]|(_ & _ & ->)]; [|cbn in Hl; lia].
  replace (1 * PGSIZE) with PGSIZE in E by lia. exists s', F', l'. split; [exact E|]. split; [exact Hg|]. split; [lia|].
  intros va' Hva'. rewrite Hm by done. replace (va + 1 * PGSIZE) with (va + PGSIZE) by lia.
  zcases; try done. f_equal. rewrite (proj2 (in_page_iff va va' H1)) by lia. lia.
Qed.

(** The address space of a new process: the trampoline and the trapframe, nothing else. *)
Definition new_space (tf va : Z) : Z :=
  if (TRAPFRAME <=? va) && (va <? TRAPFRAME + PGSIZE) then mk_pte tf RW
  else if (TRAMPOLINE <=? va) && (va <? TRAMPOLINE + PGSIZE) then mk_pte image_trampoline RX else 0.

Lemma proc_pagetable_run s p l root :
  let tf := p_trapframe (the_proc p s) in
  image_ok -> kmem_inv s (root :: l) -> LKmem ∉ k_held s -> (6 < length l)%nat -> page_ok tf -> tf ∉ root :: l ->
  exists s' F l', proc_pagetable p s = Ok root s' /\ mem_only s s' /\ vm_inv s' root F l' /\
    frees_only s (root :: l) s' l' /\ (length l <= length l' + 4)%nat /\ F !! tf = None /\
    forall va, 0 <= va < MAXVA -> lookup_va (k_mem s') root va = new_space tf va.
Proof.
  intros tf Him Hk Hlk Hlen Htf Hnin. pose proof Him as [Ha He Hta Ht].
  assert (HM : MAXVA = 2 ^ 38) by done. assert (HT : TRAMPOLINE = 2 ^ 38 - 4096) by done.
  assert (HF : TRAPFRAME = 2 ^ 38 - 8192) by done. assert (HG : PGSIZE = 4096) by done.
  assert (HP : PHYSTOP = 2281701376) by done. assert (HK : KERNBASE = 2147483648) by done.
  destruct (page_ok_pos tf Htf) as [Htf1 Htf2].
  destruct (uvmcreate_spec s root l Hk Hlk) as (s1 & E1 & Hi1 & Hmo1 & Hl1 & Hf1).
  assert (Hr : page_ok root) by (by destruct Hk as (_ & _ & [? _]%Forall_cons & _)).
  destruct (mappages_one s1 root _ l TRAMPOLINE image_trampoline RX Hi1) as (s2 & F2 & l2 & E2 & Hg2 & Hlen2 & Hl2); try done; try lia.
  { intros va' Hva'. rewrite Hl1 by lia. done. }
  assert (Hi2 := vg_inv _ _ _ _ _ _ _ Hg2).
  destruct (mappages_one s2 root _ l2 TRAPFRAME tf RW Hi2) as (s3 & F3 & l3 & E3 & Hg3 & Hlen3 & Hl3); try done; try lia; [apply Htf| |].
  { intros va' Hva'. rewrite Hl2, Hl1 by lia. zcases; try done; lia. }
  assert (Hgrow := vm_grow_trans _ _ _ _ _ _ _ _ _ _ Hg2 Hg3).
  destruct (vm_grow_frees _ _ _ _ _ _ _ Hi1 Hgrow) as (Hk3 & Hsub & Hfr).
  apply not_elem_of_cons in Hnin as [Htr Htl].
  exists s3, F3, l3. split_and!.
  - unfold proc_pagetable. rewrite (bind_ok _ _ _ _ _ E1). apply page_ok_pos in Hr. destruct (Z.eqb_spec root 0); [lia|].
    rewrite (bind_ok _ _ _ _ _ E2). cbn [Z.ltb Z.compare]. unfold get_proc. mrun.
    replace (p_trapframe (the_proc p s2)) with tf.
    + rewrite (bind_ok _ _ _ _ _ E3). done.
    + unfold the_proc. rewrite (vg_mem _ _ _ _ _ _ _ Hg2), Hmo1. done.
  - eapply mem_only_trans; [done|]. eapply vg_mem, Hgrow.
  - apply Hgrow.
  - split; [done|by intros q Hq; right; apply Hsub|]. intros a _ [Ha1 Ha2]%not_elem_of_cons.
    rewrite Hfr, Hf1 by (done || by apply lookup_singleton_None). done.
  - lia.
  - destruct (F3 !! tf) as [x|] eqn:Ex; [|done]. exfalso. apply Htl.
    eapply (vm_grow_pages _ _ _ _ _ _ _ tf Hi1 Hgrow). right. split; [by eexists|by apply lookup_singleton_None].
  - intros va Hva. rewrite Hl3, Hl2, Hl1 by done. done.
Qed.

(** ** allocproc() *)

(** The fields allocproc() sets, in an entry that was [q]. *)
Definition new_proc (pid ticks tf root : Z) (q : proc) : proc :=
  set_p_context (Context_ image_forkret (u64 (p_kstack q + PGSIZE)) (replicate 12 0))
    (set_p_pagetable root (set_p_trapframe tf (set_p_stime 0 (set_p_rtime 0 (set_p_ctime ticks
      (set_p_priority 10 (set_p_state USED (set_p_pid pid q)))))))).

Lemma allocpid_run s : LPid ∉ k_held s -> allocpid s = Ok (k_nextpid s) (set_k_nextpid (s32 (k_nextpid s + 1)) s).
Proof.
  intros Hl. unfold allocpid. mcall acquire_ok. ksimpl. erewrite bind_ok by (apply release_ok; ksimpl; set_solver).
  ksimpl. rewrite held_add_remove by done. by destruct s.
Qed.

Lemma mem_only_proc s s' p : mem_only s s' -> the_proc p s' = the_proc p s.
Proof. intros ->. done. Qed.

Lemma upd_proc_mem p f m v s :
  upd_proc p f (set_k_mem m (set_k_freelist v s)) = set_k_mem m (set_k_freelist v (upd_proc p f s)).
Proof. done. Qed.

Lemma set_mem_twice m v m' v' s :
  set_k_mem m (set_k_freelist v (set_k_mem m' (set_k_freelist v' s))) = set_k_mem m (set_k_freelist v s).
Proof. done. Qed.

Lemma upd_proc_nextpid p f n s : upd_proc p f (set_k_nextpid n s) = set_k_nextpid n (upd_proc p f s).
Proof. done. Qed.

Lemma allocproc_found_run s p l tf root :
  image_ok -> (p < length (k_procs s))%nat -> k_held s = {[LProc p]} -> kmem_inv s (tf :: root :: l) -> (6 < length l)%nat ->
  exists s' F l', allocproc_found p s = Ok (Some p) s' /\
    s' = set_k_mem (k_mem s') (set_k_freelist (k_freelist s')
      (set_k_nextpid (s32 (k_nextpid s + 1)) (upd_proc p (new_proc (k_nextpid s) (k_ticks s) tf root) s))) /\
    vm_inv s' root F l' /\ frees_only s (tf :: root :: l) s' l' /\ (length l <= length l' + 4)%nat /\ F !! tf = None /\
    forall va, 0 <= va < MAXVA -> lookup_va (k_mem s') root va = new_space tf va.
Proof.
  intros Him Hp Hh Hk Hlen. unfold allocproc_found.
  rewrite (bind_ok _ _ _ _ _ (allocpid_run s ltac:(rewrite Hh; set_solver))). unfold put_proc. mrun.
  rewrite !upd_proc_twice.
  set (s1 := upd_proc p _ _).
  assert (Hk1 : kmem_inv s1 (tf :: root :: l)) by exact Hk.
  destruct (kalloc_frees s1 tf (root :: l) Hk1) as (s2 & E2 & Hmo2 & Hfo2 & Htf & Htn).
  { change (k_held s1) with (k_held s). rewrite Hh. set_solver. }
  rewrite (bind_ok _ _ _ _ _ E2). mrun. destruct (Z.eqb_spec tf 0) as [E0|_]; [apply page_ok_pos in Htf; lia|].
  set (s3 := upd_proc p (set_p_trapframe tf) s2).
  assert (Hp2 : (p < length (k_procs s2))%nat) by (rewrite Hmo2; ksimpl; unfold s1; rewrite length_upd_proc; exact Hp).
  assert (Et : p_trapframe (the_proc p s3) = tf) by (unfold s3; by rewrite the_proc_upd_eq).
  assert (Hk3 : kmem_inv s3 (root :: l)) by exact (fo_kmem _ _ _ _ Hfo2).
  assert (Hh3 : LKmem ∉ k_held s3).
  { change (k_held s3) with (k_held s2). rewrite (mem_only_held _ _ Hmo2). change (k_held s1) with (k_held s). rewrite Hh. set_solver. }
  destruct (proc_pagetable_run s3 p l root Him Hk3 Hh3 Hlen) as (s4 & F & l' & E4 & Hmo4 & Hi4 & Hfo4 & Hlen4 & HF4 & Hl4);
    [by rewrite Et..|]. rewrite Et in HF4, Hl4.
  rewrite (bind_ok _ _ _ _ _ E4). mrun.
  assert (Hr : page_ok root) by (by destruct Hk3 as (_ & _ & [? _]%Forall_cons & _)).
  destruct (Z.eqb_spec root 0) as [E0|_]; [apply page_ok_pos in Hr; lia|]. mrun. rewrite !upd_proc_twice.
  eexists _, F, l'. split; [reflexivity|].
  change (k_mem (upd_proc p ?f s4)) with (k_mem s4). change (k_freelist (upd_proc p ?f s4)) with (k_freelist s4).
  split; [|split; [|split; [|split; [exact Hlen4|split; [exact HF4|exact Hl4]]]]].
  - unfold mem_only in Hmo2, Hmo4. rewrite Hmo4 at 1. unfold s3. rewrite Hmo2 at 1. unfold s1.
    rewrite !upd_proc_mem, !upd_proc_twice, set_mem_twice, upd_proc_nextpid. 
    apply (f_equal (set_k_mem _)), (f_equal (set_k_freelist _)), (f_equal (set_k_nextpid _)), upd_proc_ext. intros q _. unfold new_proc. change (k_ticks _) with (k_ticks s).
    by cbv [set_p_context set_p_pagetable set_p_trapframe set_p_stime set_p_rtime set_p_ctime set_p_priority set_p_state set_p_pid set_ctx_sp set_ctx_ra
      p_state p_chan p_killed p_xstate p_pid p_parent p_kstack p_sz p_pagetable p_trapframe p_context p_ofile p_cwd p_name p_priority p_ctime p_rtime p_stime p_shm ctx_ra ctx_sp ctx_s].
  - destruct Hi4 as [J1 J2 J3 J4]. split; [exact J1|exact J2|exact J3|exact J4].
  - destruct Hfo4 as [J1 J2 J3]. assert (Hfo4 : frees_only s2 (root :: l) s4 l') by (split; [exact J1|exact J2|exact J3]).
    destruct (frees_only_trans _ _ s2 (root :: l) s4 l' Hfo2 Hfo4) as [I1 I2 I3]. split; [exact I1|exact I2|exact I3].
Qed.

(** ** The tables *)

Definition ready_procs : list proc := imap (fun i q => set_p_kstack (KSTACK (Z.of_nat i)) (set_p_state UNUSED q)) (replicate NPROC proc0).

Lemma procinit_run s : k_procs s = replicate NPROC proc0 -> procinit s = Ok tt (set_k_procs ready_procs s).
Proof. destruct s as [a0 a1 a2 a3 a4 a5 a6 a7 a8 a9 a10 a11 a12 fs vd]. cbn [k_procs]. intros ->. vm_compute. reflexivity. Qed.

Lemma shminit_run s : k_shm_table s = replicate SHM_SLOTS (Shmregion 0 0 (replicate 4 0) 0) -> shminit s = Ok tt s.
Proof. destruct s as [a0 a1 a2 a3 a4 a5 a6 a7 a8 a9 a10 a11 a12 fs vd]. cbn [k_shm_table]. intros ->. vm_compute. reflexivity. Qed.

Lemma mutexinit_run s : k_mutextable s = replicate MAX_MUTEXES (Umutex 0 0 0) -> mutexinit s = Ok tt s.
Proof. destruct s as [a0 a1 a2 a3 a4 a5 a6 a7 a8 a9 a10 a11 a12 fs vd]. cbn [k_mutextable]. intros ->. vm_compute. reflexivity. Qed.

Lemma binit_run s : fs_buf (k_fs s) = replicate NBUF buf0 ->
  binit s = Ok tt (set_k_fs (set_fs_lru (reverse (seq 0 NBUF)) (k_fs s)) s).
Proof. destruct s as [a0 a1 a2 a3 a4 a5 a6 a7 a8 a9 a10 a11 a12 fs vd]. destruct fs as [b0 b1 b2 b3 b4 b5 b6 b7 b8 b9 b10 b11]. cbn [k_fs fs_buf]. intros ->. vm_compute. reflexivity. Qed.

Lemma iinit_run s : fs_inode (k_fs s) = replicate NINODE inode0 -> iinit s = Ok tt s.
Proof. destruct s as [a0 a1 a2 a3 a4 a5 a6 a7 a8 a9 a10 a11 a12 fs vd]. destruct fs as [b0 b1 b2 b3 b4 b5 b6 b7 b8 b9 b10 b11]. cbn [k_fs fs_inode]. intros ->. vm_compute. reflexivity. Qed.

(** ** The interrupt controller *)

Lemma device_write s l a v :
  kmem_inv s l -> a + 4 <= KERNBASE -> frees_only s l (set_k_mem (store32 (k_mem s) a v) s) l.
Proof.
  intros Hk Ha. assert (Hout : forall x, KERNBASE <= x -> store32 (k_mem s) a v x = k_mem s x).
  { intros x Hx. unfold store32. apply store_bytes_out. rewrite length_le_split. lia. }
  split; [|done|].
  - pose proof Hk as (_ & _ & Hok & Hm). apply (kmem_inv_frame s); [done|done|by apply store_bytes_ok|].
    intros p x Hp Hx. apply Hout. rewrite Forall_forall in Hok. apply Hok, page_ram in Hp. lia.
  - intros x Hx _. apply Hout. rewrite PGROUNDDOWN_eq in Hx. unfold PGSIZE in Hx. dlia.
Qed.

Lemma plicinit_run s l :
  kmem_inv s l -> exists s', plicinit s = Ok tt s' /\ mem_only s s' /\ frees_only s l s' l.
Proof.
  intros Hk. unfold plicinit, put_mem. mrun. eexists. split; [reflexivity|]. split; [by destruct s|].
  eapply frees_only_trans; apply device_write; done || by apply device_write.
Qed.

Lemma plicinithart_run s l :
  kmem_inv s l -> 0 <= k_cpuid s < 8 -> exists s', plicinithart s = Ok tt s' /\ mem_only s s' /\ frees_only s l s' l.
Proof.
  intros Hk Hid. unfold plicinithart, put_mem. mrun. eexists. split; [reflexivity|]. split; [by destruct s|].
  assert (E : PLIC = 201326592) by done. assert (EK : KERNBASE = 2147483648) by done.
  unfold PLIC_SENABLE, PLIC_SPRIORITY.
  eapply frees_only_trans; apply device_write; [done|lia| |ksimpl; lia]. apply device_write; [done|lia].
Qed.

(** ** userinit() *)

Definition root_inode : inode := set_i_ref 1 (set_i_inum ROOTINO (set_i_dev ROOTDEV inode0)).

Lemma namei_root s :
  fs_inode (k_fs s) = replicate NINODE inode0 -> k_held s = {[LProc 0]} ->
  namei [slash] s = Ok (Some 0%nat) (set_k_fs (set_fs_inode (<[0%nat := root_inode]> (replicate NINODE inode0)) (k_fs s)) s).
Proof.
  destruct s as [a0 a1 a2 a3 a4 a5 a6 a7 a8 a9 a10 a11 a12 fs vd]. destruct fs as [b0 b1 b2 b3 b4 b5 b6 b7 b8 b9 b10 b11].
  cbn [k_fs fs_inode k_held]. intros -> ->. vm_compute. reflexivity.
Qed.

Lemma allocproc_first s :
  k_held s = ∅ -> p_state (the_proc 0 s) = UNUSED -> allocproc s = allocproc_found 0 (set_k_held {[LProc 0]} s).
Proof.
  intros Hh Hs. unfold allocproc. change procs with (0%nat :: seq 1 63). cbn [for_loop].
  rewrite !bind_assoc, (bind_ok _ _ _ _ _ (acquire_ok (LProc 0) s ltac:(rewrite Hh; set_solver))), Hh.
  replace ({[LProc 0]} ∪ ∅) with ({[LProc 0]} : gset lockid) by set_solver.
  unfold get_proc. mrun. change (the_proc 0 (set_k_held _ s)) with (the_proc 0 s). rewrite Hs. reflexivity.
Qed.

(** The first process, in an entry that was [q]. *)
Definition first_proc (pid ticks tf root : Z) (q : proc) : proc :=
  set_p_state RUNNABLE (set_p_cwd (Some 0%nat) (new_proc pid ticks tf root q)).

(** The updates commute. *)
Lemma userinit_state m v n i f g h H s :
  k_held s = ∅ ->
  set_k_held ∅ (upd_proc 0 g (set_k_fs f (set_k_initproc i (set_k_mem m (set_k_freelist v (set_k_nextpid n
    (upd_proc 0 h (set_k_held H s)))))))) =
  set_k_mem m (set_k_freelist v (set_k_initproc i (set_k_nextpid n (upd_proc 0 (fun q => g (h q)) (set_k_fs f s))))).
Proof.
  intros Hh. rewrite <- (upd_proc_twice 0 h g). unfold upd_proc. destruct s. ksimpl_in Hh. subst. reflexivity.
Qed.

Lemma userinit_run s l tf root :
  image_ok -> k_procs s = ready_procs -> k_held s = ∅ -> fs_inode (k_fs s) = replicate NINODE inode0 ->
  kmem_inv s (tf :: root :: l) -> (6 < length l)%nat ->
  exists s' F l', userinit s = Ok tt s' /\ vm_inv s' root F l' /\ frees_only s (tf :: root :: l) s' l' /\
    (forall va, 0 <= va < MAXVA -> lookup_va (k_mem s') root va = new_space tf va) /\
    s' = set_k_mem (k_mem s') (set_k_freelist (k_freelist s') (set_k_initproc (Some 0%nat)
      (set_k_nextpid (s32 (k_nextpid s + 1)) (upd_proc 0 (first_proc (k_nextpid s) (k_ticks s) tf root)
        (set_k_fs (set_fs_inode (<[0%nat := root_inode]> (replicate NINODE inode0)) (k_fs s)) s))))).
Proof.
  intros Him Hp Hh Hi Hk Hlen. unfold userinit.
  assert (Hs : p_state (the_proc 0 s) = UNUSED) by (unfold the_proc; rewrite Hp; reflexivity).
  set (s0 := set_k_held {[LProc 0]} s).
  destruct (allocproc_found_run s0 0 l tf root Him) as (s1 & F & l' & E1 & Es & Hv & Hfo & _ & _ & Hl); try done.
  { unfold s0. ksimpl. rewrite Hp. vm_compute. lia. }
  unfold s0 in E1. rewrite <- (allocproc_first s Hh Hs) in E1. rewrite (bind_ok _ _ _ _ _ E1). cbn [deref]. mrun.
  assert (Hi1 : fs_inode (k_fs s1) = replicate NINODE inode0) by (rewrite Es; exact Hi).
  assert (Hh1 : k_held s1 = {[LProc 0]}) by (rewrite Es; reflexivity).
  rewrite (bind_ok _ _ _ _ _ (namei_root (set_k_initproc (Some 0%nat) s1) Hi1 Hh1)). unfold put_proc. mrun.
  rewrite release_ok by (unfold upd_proc; ksimpl; rewrite Hh1; set_solver).
  change (k_held (upd_proc 0 _ _)) with (k_held s1). rewrite Hh1, difference_diag_L, upd_proc_twice.
  eexists _, F, l'. split; [reflexivity|]. split; [|split; [|split; [exact Hl|]]].
  - destruct Hv as [J1 J2 J3 J4]. split; [exact J1|exact J2|exact J3|apply not_elem_of_empty].
  - destruct Hfo as [J1 J2 J3]. split; [exact J1|exact J2|exact J3].
  - change (k_fs (set_k_initproc _ s1)) with (k_fs s1). replace (k_fs s1) with (k_fs s) by (rewrite Es; reflexivity).
    change (k_mem (set_k_held _ _)) with (k_mem s1). change (k_freelist (set_k_held _ _)) with (k_freelist s1).
    rewrite Es at 1. unfold s0. change (k_nextpid (set_k_held _ s)) with (k_nextpid s).
    change (k_ticks (set_k_held _ s)) with (k_ticks s). by rewrite userinit_state.
Qed.

(** ** Memory *)

Lemma free_enough l n :
  image_end + Z.of_nat n * PGSIZE <= PHYSTOP ->
  (forall q, q ∈ l <-> q mod PGSIZE = 0 /\ image_end <= q /\ q + PGSIZE <= PHYSTOP) -> (n <= length l)%nat.
Proof.
  intros Hn Hl. set (top := (fun i : nat => PHYSTOP - (Z.of_nat i + 1) * PGSIZE) <$> seq 0 n).
  assert (EP : PHYSTOP = 557056 * PGSIZE) by done. assert (EG : PGSIZE = 4096) by done.
  replace n with (length top) by (unfold top; by rewrite length_fmap, length_seq).
  apply submseteq_length, NoDup_submseteq.
  - apply NoDup_fmap_2; [|apply NoDup_seq]. intros i j Hij. lia.
  - intros q (i & -> & Hi)%list_elem_of_fmap. apply elem_of_seq in Hi. apply Hl. split_and!; [|nia|nia].
    rewrite EP, <- Z.mul_sub_distr_r. by apply Z.mod_mul.
Qed.

(** kinit() and kvmmake(): from here on the kernel's addresses are [kernel_map]'s. *)
Lemma memory_up k :
  image_ok -> image_end + 200 * PGSIZE <= PHYSTOP -> k_freelist k = 0 -> mem_ok (k_mem k) -> k_held k = ∅ ->
  exists k1 k2 root F l st, kinit k = Ok tt k1 /\ kvmmake k1 = Ok root k2 /\ mem_only k k2 /\ vm_inv k2 root F l /\
    length st = NPROC /\ (20 <= length l)%nat /\
    forall va, 0 <= va < MAXVA -> lookup_va (k_mem k2) root va = kmap (kernel_map st) va.
Proof.
  intros Him Hroom Hf Hm Hh.
  destruct (kinit_frees_all k Hf Hm) as (k1 & l1 & E1 & Hk1 & Hmo1 & Hl1); [rewrite Hh; set_solver|].
  pose proof (free_enough l1 200 Hroom Hl1) as Hlen. destruct l1 as [|root l1]; [cbn in Hlen; lia|]. cbn [length] in Hlen.
  destruct (kvmmake_run k1 root l1 Him Hk1) as (k2 & F & l & st & E2 & Hst & S);
    [rewrite (mem_only_held _ _ Hmo1), Hh; set_solver|lia|].
  pose proof S as [Hinv Hmo Hmap Hlab Hcnt _ _]. cbn [length] in Hcnt.
  assert (Hb : (size F <= 102)%nat) by (eapply (tables_bound _ _ _ kernel_labels); [apply Hinv|done]).
  exists k1, k2, root, F, l, st. split_and!; try done; [by eapply mem_only_trans|lia].
Qed.

(** virtio_disk_init(), as a step of main(). *)
Lemma disk_init_run b p1 p2 p3 l f status :
  kmem_inv (bt_k b) (p1 :: p2 :: p3 :: l) -> LKmem ∉ k_held (bt_k b) -> disk_present f status -> bt_disk b = [] ->
  exists k', disk_init b = Ok tt (set_bt_disk (negotiation f ++ queue_setup p1 p2 p3 (u32 (Z.lor status VIRTIO_CONFIG_S_DRIVER_OK)))
      (Some (Queues p1 p2 p3 (replicate (Z.to_nat NUM) 1))) (set_bt_k k' b)) /\
    mem_only (bt_k b) k' /\ frees_only (bt_k b) (p1 :: p2 :: p3 :: l) k' l.
Proof.
  intros Hk Hlk Hd Hb. destruct (virtio_init_ready (bt_k b) l p1 p2 p3 f status Hk Hlk Hd) as (k' & E & Hk' & _ & Hmo & Hfr & _).
  exists k'. split; [unfold disk_init; rewrite Hb, E; reflexivity|]. split; [done|]. split; [done|set_solver|].
  intros a _ Ha. apply Hfr. set_solver.
Qed.

(** ** main() *)

Definition banner : list Z := [newline] ++ (chars "xv6 kernel is booting" ++ [newline]) ++ [newline].

(** The console is up and the banner printed. *)
Definition console_up (m : memory) (c : csrs) (disk : Z -> list Z) : boot :=
  Boot_ (show banner (bt_k (boot0 0 m c disk))) c (Uart 3 7 3 3 []) [] None 0 [CONSOLE] 0.

Lemma console_run {A} m c disk (k : B A) :
  (consoleinit ;; printfinit ;; liftk (printf [newline] []) ;;
    liftk (printf (chars "xv6 kernel is booting" ++ [newline]) []) ;; liftk (printf [newline] []) ;; k) (boot0 0 m c disk) =
  k (console_up m c disk).
Proof.
  assert (Hp : forall fmt b, k_held (bt_k b) = ∅ ->
    liftk (printf fmt []) b = Ok tt (set_bt_k (show (format fmt [] ≫= FsRun.sent) (bt_k b)) b)).
  { intros fmt b Hb. apply liftk_run, printf_prints. rewrite Hb. set_solver. }
  unfold consoleinit. rewrite !bind_assoc, (bind_ok _ _ _ _ _ (initlock_run LCons (boot0 0 m c disk) eq_refl)).
  rewrite bind_assoc, (bind_ok _ _ _ _ _ (uartinit_ready (boot0 0 m c disk) eq_refl)). mrun.
  unfold printfinit. erewrite bind_ok by (apply initlock_run; reflexivity).
  do 3 (erewrite bind_ok by (apply Hp; reflexivity)). reflexivity.
Qed.

(** The tables as the loader leaves them: zero. *)
Record zeroed (k : kstate) : Prop := {
  z_held : k_held k = ∅;
  z_cpu : k_cpuid k = 0;
  z_procs : k_procs k = replicate NPROC proc0;
  z_shm : k_shm_table k = replicate SHM_SLOTS (Shmregion 0 0 (replicate 4 0) 0);
  z_mutex : k_mutextable k = replicate MAX_MUTEXES (Umutex 0 0 0);
  z_buf : fs_buf (k_fs k) = replicate NBUF buf0;
  z_inode : fs_inode (k_fs k) = replicate NINODE inode0
}.

Lemma zeroed_mem k k' : mem_only k k' -> zeroed k -> zeroed k'.
Proof. intros -> [? ? ? ? ? ? ?]. by split. Qed.

(** The tables after binit() and procinit(). *)
Definition tables (k : kstate) : kstate :=
  set_k_fs (set_fs_lru (reverse (seq 0 NBUF)) (k_fs k)) (set_k_procs ready_procs k).

Lemma tables_run {A} b l (k : B A) :
  zeroed (bt_k b) -> kmem_inv (bt_k b) l ->
  exists s', (liftk procinit ;; liftk shminit ;; liftk mutexinit ;; trapinit ;; put_csr trapinithart ;; liftk plicinit ;;
      liftk plicinithart ;; liftk binit ;; liftk iinit ;; fileinit ;; k) b =
    k (set_bt_csr (w_stvec image_kernelvec (bt_csr b)) (set_bt_k s' b)) /\
    mem_only (tables (bt_k b)) s' /\ frees_only (bt_k b) l s' l.
Proof.
  intros [Hh Hc Hp Hs Hm Hb Hi] Hk. set (s1 := set_k_procs ready_procs (bt_k b)).
  destruct (plicinit_run s1 l Hk) as (s2 & E2 & M2 & F2).
  destruct (plicinithart_run s2 l (fo_kmem _ _ _ _ F2)) as (s3 & E3 & M3 & F3); [rewrite M2; ksimpl; unfold s1; ksimpl; lia|].
  pose proof (mem_only_trans _ _ _ M2 M3) as M. pose proof (frees_only_trans _ _ _ _ _ _ F2 F3) as F.
  set (s4 := set_k_fs (set_fs_lru (reverse (seq 0 NBUF)) (k_fs s3)) s3).
  assert (H3 : k_held s3 = ∅) by (rewrite (mem_only_held _ _ M); exact Hh).
  assert (Hf : k_fs s3 = k_fs (bt_k b)) by (rewrite M; reflexivity).
  assert (H4 : fs_inode (k_fs s4) = replicate NINODE inode0)
    by (change (fs_inode (k_fs s4)) with (fs_inode (k_fs s3)); rewrite Hf; exact Hi).
  exists s4. split; [|split].
  - rewrite (bind_ok _ _ _ _ _ (liftk_run _ _ _ _ (procinit_run _ Hp))). fold s1.
    rewrite (bind_ok _ _ _ _ _ (liftk_run _ (set_bt_k s1 b) _ _ (shminit_run s1 Hs))).
    rewrite (bind_ok _ _ _ _ _ (liftk_run _ (set_bt_k s1 (set_bt_k s1 b)) _ _ (mutexinit_run s1 Hm))).
    change (set_bt_k s1 (set_bt_k s1 (set_bt_k s1 b))) with (set_bt_k s1 b).
    rewrite (bind_ok _ _ _ _ _ (initlock_run LTicks (set_bt_k s1 b) Hh)).
    unfold put_csr. mrun. set (b1 := set_bt_csr _ _).
    rewrite (bind_ok _ _ _ _ _ (liftk_run _ b1 _ _ E2)).
    rewrite (bind_ok _ _ _ _ _ (liftk_run _ (set_bt_k s2 b1) _ _ E3)).
    rewrite (bind_ok _ _ _ _ _ (liftk_run _ (set_bt_k s3 (set_bt_k s2 b1)) _ _ (binit_run s3 ltac:(rewrite Hf; exact Hb)))).
    fold s4. erewrite bind_ok by (apply liftk_run, iinit_run; exact H4).
    unfold fileinit. erewrite bind_ok by (apply initlock_run; exact H3). reflexivity.
  - unfold mem_only in *. unfold s4 at 1. rewrite Hf. rewrite M at 1. reflexivity.
  - destruct F as [J1 J2 J3]. split; [exact J1|exact J2|exact J3].
Qed.

(** ** The kernel's addresses *)

(** What the kernel reads and writes at its physical address: the devices, and memory, of which
    the kernel's text is not written. *)
Definition direct (acc : access) (va : Z) : Prop :=
  UART0 <= va < UART0 + PGSIZE \/ VIRTIO0 <= va < VIRTIO0 + PGSIZE \/ PLIC <= va < PLIC + 0x4000000 \/
  KERNBASE <= va < PHYSTOP /\ (acc = Read \/ image_etext <= va).

Lemma kmap_in R R' r va : all_apart R -> r ∈ R -> covers r va = true -> kmap (R ++ R') va = region_pte r va.
Proof.
  induction R as [|r' R IH]; [by intros _ []%elem_of_nil|]. cbn [all_apart app kmap]. intros [Hap Ha] Hr Hc.
  apply elem_of_cons in Hr as [->|Hr]; [by rewrite Hc|]. rewrite IH by done.
  rewrite Forall_forall in Hap. specialize (Hap r Hr). unfold apart, covers in *. zcases; done || lia.
Qed.

Lemma direct_region acc va : image_ok -> direct acc va ->
  exists r, r ∈ kernel_regions /\ covers r va = true /\ rg_pa r = rg_va r /\ (rg_perm r = RW \/ rg_perm r = RX /\ acc = Read).
Proof.
  intros Him Hd. destruct (image_sizes Him) as (E1 & E2 & _). unfold kernel_regions.
  assert (Hcov : forall a n, a <= va < a + n * PGSIZE -> forall p q, covers (Region a n p q) va = true)
    by (intros a n H p q; unfold covers; cbn [rg_va rg_pages]; zcases; done || lia).
  destruct Hd as [H|[H|[H|[H Ht]]]]; [| | |destruct (Z.lt_ge_cases va image_etext)].
  - eexists. split; [by do 0 right; left|]. split; [apply Hcov; lia|]. split; [done|by left].
  - eexists. split; [by do 1 right; left|]. split; [apply Hcov; lia|]. split; [done|by left].
  - eexists. split; [by do 2 right; left|]. split; [by apply Hcov|]. split; [done|by left].
  - eexists. split; [by do 3 right; left|]. split; [apply Hcov; lia|]. split; [done|]. right. split; [done|]. destruct Ht; [done|lia].
  - eexists. split; [by do 4 right; left|]. split; [apply Hcov; lia|]. split; [done|by left].
Qed.

Lemma direct_translate m root F st acc va :
  image_ok -> pt_ok m root F -> (forall va, 0 <= va < MAXVA -> lookup_va m root va = kmap (kernel_map st) va) -> direct acc va ->
  translate Supervisor acc (MAKE_SATP root) m va = Some va.
Proof.
  intros Him Hok Hmap Hd. destruct (direct_region acc va Him Hd) as (r & Hr & Hc & Hpa & Hperm).
  pose proof (kernel_regions_placed Him) as Hp. rewrite Forall_forall in Hp. destruct (Hp r Hr) as [Hrok _].
  destruct (region_pte_spec r va Hrok Hc) as (Hv & Ha & Hf). pose proof Hrok as [[A1 A2] (L1 & L2 & L3) [U1 U2] _].
  assert (Hva : rg_va r <= va < rg_va r + rg_pages r * PGSIZE) by (unfold covers in Hc; zcases; done || lia).
  destruct (MAKE_SATP_root root) as [S1 S2]; [by eapply pt_page; [|apply Hok]|].
  assert (Hb : forall mask, Z.land 0x3FF mask = mask -> has (region_pte r va) mask = has (Z.lor (rg_perm r) PTE_V) mask).
  { intros mask Hmask. by rewrite has_flags, Hf. }
  unfold translate. rewrite S1, S2. cbn [Z.eqb orb]. rewrite (proj2 (Z.ltb_lt _ _)) by lia. cbn [orb].
  rewrite (sv39_lookup _ _ _ _ F _ (region_pte r va) Hok); try done; [|lia| | | |].
  - rewrite Ha, Hpa, PGROUNDDOWN_eq. f_equal. lia.
  - rewrite Hmap by lia. unfold kernel_map. by rewrite (kmap_in _ _ r) by (by try apply kernel_regions_apart).
  - rewrite Hb by done. by destruct Hperm as [->|[-> _]].
  - unfold allowed. rewrite !Hb by done. by destruct Hperm as [->|[-> ->]]; [destruct acc|].
  - rewrite Ha, Hpa, PGROUNDDOWN_eq. unfold PGSIZE in *. dlia.
Qed.

(** The kernel is up: paging is on with the kernel's table in satp, which leaves the addresses of
    memory and of the devices as they were, traps go to kernelvec, the first process is the only
    one there is, runnable with an address space of its own, the devices are set up, the other
    harts may start, and no lock is held. *)
Record kernel_up (b : boot) (st : list Z) (tf root : Z) : Prop := {
  ku_satp : r_satp (bt_csr b) = MAKE_SATP (bt_pagetable b);
  ku_stvec : r_stvec (bt_csr b) = image_kernelvec;
  ku_map va : 0 <= va < MAXVA -> lookup_va (k_mem (bt_k b)) (bt_pagetable b) va = kmap (kernel_map st) va;
  ku_stacks : length st = NPROC;
  ku_direct acc va : direct acc va -> translate Supervisor acc (r_satp (bt_csr b)) (k_mem (bt_k b)) va = Some va;
  ku_init : k_initproc (bt_k b) = Some 0%nat;
  ku_first : the_proc 0 (bt_k b) = first_proc 1 0 tf root (set_p_kstack (KSTACK 0) proc0);
  ku_space va : 0 <= va < MAXVA -> lookup_va (k_mem (bt_k b)) root va = new_space tf va;
  ku_rest i : (0 < i < NPROC)%nat -> the_proc i (bt_k b) = set_p_kstack (KSTACK (Z.of_nat i)) proc0;
  ku_cwd : fs_inode (k_fs (bt_k b)) !! 0%nat = Some root_inode;
  ku_out : fs_out (k_fs (bt_k b)) = banner;
  ku_uart : bt_uart b = Uart 3 7 3 3 [];
  ku_console : bt_devsw b = [CONSOLE];
  ku_disk : exists q, bt_queues b = Some q /\ page_ok (q_desc q) /\ page_ok (q_avail q) /\ page_ok (q_used q);
  ku_started : bt_started b = 1;
  ku_held : k_held (bt_k b) = ∅
}.

Lemma ready_lookup i : (i < NPROC)%nat -> ready_procs !! i = Some (set_p_kstack (KSTACK (Z.of_nat i)) proc0).
Proof. intros Hi. unfold ready_procs. rewrite list_lookup_imap, lookup_replicate_2 by done. reflexivity. Qed.

(** C5: main() on the first hart brings the kernel up, from any content of memory and of the
    disk, when there is a disk and 200 free pages: it does not panic or wait. *)
Theorem boot_first_starts m c disk f status :
  image_ok -> image_end + 200 * PGSIZE <= PHYSTOP -> mem_ok m -> disk_present f status ->
  exists b st tf root, boot_first (boot0 0 m c disk) = Ok tt b /\ kernel_up b st tf root.
Proof.
  intros Him Hroom Hm Hd. unfold boot_first. rewrite console_run.
  set (k0 := show banner (bt_k (boot0 0 m c disk))).
  assert (Hz0 : zeroed k0) by (by split).
  destruct (memory_up k0 Him Hroom eq_refl Hm eq_refl) as (k1 & k2 & kroot & F & l & st & E1 & E2 & M2 & V2 & Hst & Hlen & Hmap).
  rewrite (bind_ok _ _ _ _ _ (liftk_run _ (console_up m c disk) _ _ E1)). unfold kvminit, kvminithart.
  rewrite bind_assoc, (bind_ok _ _ _ _ _ (liftk_run _ (set_bt_k k1 (console_up m c disk)) _ _ E2)). unfold put_csr at 1. mrun.
  set (b1 := set_bt_csr _ _).
  destruct (tables_run b1 l (disk_init ;; liftk userinit ;; modify (set_bt_started 1)) (zeroed_mem _ _ M2 Hz0) (vm_kmem _ _ _ _ V2))
    as (k3 & E3 & M3 & F3). rewrite E3. clear E3. change (bt_k b1) with k2 in M3, F3. set (b3 := set_bt_csr (w_stvec _ _) _).
  do 5 (destruct l as [|? l]; [cbn in Hlen; lia|]). rename z into p1, z0 into p2, z1 into p3, z2 into tf, z3 into root.
  assert (H3 : k_held k3 = ∅) by (rewrite M3, M2; reflexivity).
  destruct (disk_init_run b3 p1 p2 p3 (tf :: root :: l) f status (fo_kmem _ _ _ _ F3)) as (k4 & E4 & M4 & F4);
    [change (bt_k b3) with k3; rewrite H3; apply not_elem_of_empty|done|reflexivity|].
  rewrite (bind_ok _ _ _ _ _ E4). set (b4 := set_bt_disk _ _ _).
  pose proof (mem_only_trans _ _ _ M3 M4) as M. change (bt_k b3) with k3 in F4.
  assert (Hk4 : k4 = set_k_mem (k_mem k4) (set_k_freelist (k_freelist k4) (tables k0)))
    by (unfold mem_only in M, M2; rewrite M at 1; rewrite M2 at 1; reflexivity).
  destruct (userinit_run k4 l tf root Him) as (k5 & F' & l' & E5 & V5 & F5 & Hs5 & Hk5);
    [rewrite Hk4; reflexivity|rewrite Hk4; reflexivity|rewrite Hk4; reflexivity|apply F4|cbn in Hlen; lia|].
  rewrite (bind_ok _ _ _ _ _ (liftk_run _ b4 _ _ E5)). mrun.
  destruct (frees_only_vm k2 _ k5 l' kroot F V2) as [Hv2 Hsame].
  { eapply frees_only_trans; [exact F3|]. eapply frees_only_trans; [exact F4|exact F5]. }
  { apply (vm_unlocked _ _ _ _ V5). }
  exists (set_bt_started 1 (set_bt_k k5 b4)), st, tf, root. split; [reflexivity|].
  assert (Hp5 : k_procs k5 = alter (first_proc 1 0 tf root) 0%nat ready_procs) by (rewrite Hk5, Hk4; reflexivity).
  assert (Hf5 : fs_inode (k_fs k5) !! 0%nat = Some root_inode) by (rewrite Hk5; reflexivity).
  assert (Ho5 : fs_out (k_fs k5) = banner) by (rewrite Hk5, Hk4; reflexivity).
  assert (Hi5 : k_initproc k5 = Some 0%nat) by (rewrite Hk5; reflexivity).
  assert (Hh5 : k_held k5 = ∅) by (rewrite Hk5, Hk4; reflexivity).
  pose proof (vm_kmem _ _ _ _ V2) as (_ & _ & Hpg & _). rewrite !Forall_cons in Hpg. destruct Hpg as (G1 & G2 & G3 & _).
  clear - Him Hv2 Hmap Hst Hs5 Hsame Hp5 Hf5 Ho5 Hi5 Hh5 G1 G2 G3.
  split; try (done || exact Hs5); cbn [bt_k set_bt_started set_bt_k].
  - intros va Hva. rewrite <- (Hmap va Hva). exact (Hsame va Hva).
  - intros acc va Hd. apply (direct_translate _ kroot F st acc va Him (vm_pt _ _ _ _ Hv2)); [|exact Hd].
    intros va' Hva'. rewrite <- (Hmap va' Hva'). exact (Hsame va' Hva').
  - unfold the_proc. rewrite Hp5, list_lookup_alter, ready_lookup by (vm_compute; lia). reflexivity.
  - intros i Hi. unfold the_proc. rewrite Hp5, list_lookup_alter_ne, ready_lookup by lia. reflexivity.
  - eexists. split; [reflexivity|]. done.
Qed.

(** The other harts wait for the first, then take its page table and the trap vector and leave
    memory as it is. *)
Lemma boot_other_joins b :
  k_held (bt_k b) = ∅ -> 0 <= k_cpuid (bt_k b) < 8 ->
  if bt_started b =? 0 then boot_other b = Blocked b else
  exists b', boot_other b = Ok tt b' /\ r_satp (bt_csr b') = MAKE_SATP (bt_pagetable b) /\ r_stvec (bt_csr b') = image_kernelvec /\
    (forall a, KERNBASE <= a -> k_mem (bt_k b') a = k_mem (bt_k b) a) /\
    fs_out (k_fs (bt_k b')) = fs_out (k_fs (bt_k b)) ++ (format (chars "hart %d starting" ++ [newline]) [AInt (k_cpuid (bt_k b))] ≫= FsRun.sent).
Proof.
  intros Hh Hid. unfold boot_other. mrun. destruct (bt_started b =? 0); [reflexivity|]. mrun.
  erewrite bind_ok by (apply liftk_run, printf_prints; rewrite Hh; apply not_elem_of_empty).
  unfold kvminithart, put_csr. mrun. unfold plicinithart, put_mem, liftk. mrun.
  eexists. split; [reflexivity|]. split; [reflexivity|]. split; [reflexivity|]. split; [|reflexivity].
  assert (E : PLIC = 201326592) by done. assert (EK : KERNBASE = 2147483648) by done.
  intros a Ha. cbn [bt_k set_bt_k k_mem set_k_mem]. unfold store32, PLIC_SENABLE, PLIC_SPRIORITY.
  repeat match goal with |- context [k_cpuid ?x] => progress change (k_cpuid x) with (k_cpuid (bt_k b)) end.
  rewrite !store_bytes_out by (rewrite length_le_split; lia). reflexivity.
Qed.

End boot.

(** ** A run: 200 free pages and a disk that offers no features *)

#[local] Instance demo_vectors : Vectors := {|
  image_kernelvec := KERNBASE + 2048; image_uservec := KERNBASE + 7 * PGSIZE;
  image_userret := KERNBASE + 7 * PGSIZE + 154; image_usertrap := KERNBASE + 3072
|}.

#[local] Instance demo_registers : Registers := fun _ a =>
  let r := a - VIRTIO0 in
  if r =? VIRTIO_MMIO_MAGIC_VALUE then 0x74726976 else if r =? VIRTIO_MMIO_VERSION then 2
  else if r =? VIRTIO_MMIO_DEVICE_ID then 2 else if r =? VIRTIO_MMIO_VENDOR_ID then 0x554d4551
  else if r =? VIRTIO_MMIO_STATUS then 11 else if r =? VIRTIO_MMIO_QUEUE_NUM_MAX then 1024 else 0.

Lemma demo_disk : disk_present 0 11.
Proof.
  split; [rewrite !Forall_cons, Forall_nil; split_and!; reflexivity|vm_compute; (reflexivity || discriminate)..].
Qed.

Lemma boot_first_starts_witness : exists b root,
  boot_first (img := small_image) (env := eager) (boot0 0 (fun _ => 0) AsmProofs.csrs0 (fun _ => [])) = Ok tt b /\
  p_state (the_proc 0 (bt_k b)) = RUNNABLE /\ p_pid (the_proc 0 (bt_k b)) = 1 /\ p_pagetable (the_proc 0 (bt_k b)) = root /\
  p_state (the_proc 1 (bt_k b)) = UNUSED /\
  lookup_va (k_mem (bt_k b)) root TRAMPOLINE = mk_pte (KERNBASE + 7 * PGSIZE) RX /\
  lookup_va (k_mem (bt_k b)) (bt_pagetable b) KERNBASE = mk_pte KERNBASE RX.
Proof.
  destruct (boot_first_starts (img := small_image) (env := eager) (fun _ => 0) AsmProofs.csrs0 (fun _ => []) 0 11 small_image_ok)
    as (b & st & tf & root & E & U); [by vm_compute|intros a; lia|exact demo_disk|].
  exists b, root. destruct U as [_ _ Hmap _ _ _ H0 Hs Hr _ _ _ _ _ _ _]. split; [exact E|].
  split; [rewrite H0; reflexivity|]. split; [rewrite H0; reflexivity|]. split; [rewrite H0; reflexivity|].
  split; [rewrite (Hr 1%nat ltac:(unfold NPROC; lia)); reflexivity|].
  split; [rewrite Hs by (split; [discriminate|reflexivity]); reflexivity|].
  rewrite Hmap by (split; [discriminate|reflexivity]). reflexivity.
Defined.

End BootProofs.
