(* ===== verification/HostText.v ===== *)
(** * Project 2: custom_wc, custom_grep and custom_cat

    Programs for a Linux host.  A file is the list of its bytes.  What read() and getline()
    deliver is cut from it: read() in pieces of any size, getline() up to and including a
    newline.  The host is a parameter: which files can be opened, and the text of strerror().
    A program's result is what it writes, in order, and its exit status.  Characters are
    classified as in the C locale. *)

From S2P Require Import Prelude Machine CString Ulib Print.

(** What a program writes to standard output and to standard error. *)
Inductive output : Type :=
| Out (s : list Z)
| Err (s : list Z).

Class Host := {
  host_open : list Z -> option (list Z);      (* fopen(name, "r") and what the file holds *)
  host_error : list Z -> list Z;              (* strerror(errno) after a failure on name *)
  host_ferror : list Z -> bool;               (* whether reading the file ends with an error *)
  host_stdin : list Z;
  host_split : list Z -> list nat             (* how read() cuts a stream into pieces *)
}.

(** ** ctype.h *)

Definition isspace (c : Z) : bool := (c =? 32) || ((9 <=? c) && (c <=? 13)).
Definition tolower (c : Z) : Z := if (65 <=? c) && (c <=? 90) then c + 32 else c.

(** The number in decimal, as printf() prints it, at least [w] wide. *)
Definition show (n : Z) : list Z := Print.printint n 10 true.
Definition show_pad (w : nat) (n : Z) : list Z :=
  let s := show n in replicate (w - length s) 32 ++ s.

(** warn() of common.h. *)
Definition warn (prog : string) (msg error : list Z) : output :=
  Err (chars prog ++ chars ": " ++ msg ++ chars ": " ++ error ++ [10]).

(** The option loops: [argv[i][0] == '-' && argv[i][1] != 0]. *)
Definition is_option (a : list Z) : bool :=
  match a with c :: _ :: _ => c =? 45 | _ => false end.

Module Wc.

Record Counts : Type := MkCounts { lines : Z; words : Z; chars_ : Z }.

Record flags : Type := MkFlags { flag_lines : bool; flag_words : bool; flag_chars : bool }.

(** The body of the inner loop, on the counts and [in_word]. *)
Definition count_char (st : Counts * bool) (c : Z) : Counts * bool :=
  let '(MkCounts l w n, in_word) := st in
  let n := n + 1 in
  let l := if c =? 10 then l + 1 else l in
  if isspace c then (MkCounts l w n, false)
  else if negb in_word then (MkCounts l (w + 1) n, true)
  else (MkCounts l w n, in_word).

(** count_fd() on the buffers that read() fills, up to the first that is empty. *)
Fixpoint count_fd_loop (reads : list (list Z)) (st : Counts * bool) : Counts * bool :=
  match reads with
  | [] => st
  | [] :: _ => st
  | buf :: reads => count_fd_loop reads (foldl count_char st buf)
  end.

Definition count_fd (reads : list (list Z)) : Counts := (count_fd_loop reads (MkCounts 0 0 0, false)).1.

Definition print_counts (f : flags) (c : Counts) (name : option (list Z)) (show_all : bool) : list Z :=
  (if show_all || flag_lines f then show_pad 8 (lines c) else []) ++
  (if show_all || flag_words f then show_pad 8 (words c) else []) ++
  (if show_all || flag_chars f then show_pad 8 (chars_ c) else []) ++
  (match name with Some name => 32 :: name | None => [] end) ++ [10].

(** The options of one argument; [inr c] is an unknown option. *)
Fixpoint parse_letters (f : flags) (a : list Z) : flags + Z :=
  match a with
  | [] => inl f
  | c :: a =>
      if c =? 108 then parse_letters (MkFlags true (flag_words f) (flag_chars f)) a
      else if c =? 119 then parse_letters (MkFlags (flag_lines f) true (flag_chars f)) a
      else if c =? 99 then parse_letters (MkFlags (flag_lines f) (flag_words f) true) a
      else inr c
  end.

Fixpoint parse_flags (f : flags) (args : list (list Z)) : (flags * list (list Z)) + Z :=
  match args with
  | a :: rest =>
      if is_option a then
        match parse_letters f (tl a) with
        | inl f => parse_flags f rest
        | inr c => inr c
        end
      else inl (f, args)
  | [] => inl (f, [])
  end.

Section main.
Context {host : Host}.

(** The results of read() on a stream. *)
Definition reads_of (s : list Z) : list (list Z) :=
  (fix cut (ns : list nat) (s : list Z) : list (list Z) :=
     match ns with
     | [] => match s with [] => [] | _ => [s] end
     | n :: ns => match s with [] => [] | _ => take (S n) s :: cut ns (drop (S n) s) end
     end) (host_split s) s.

Definition add (a b : Counts) : Counts := MkCounts (lines a + lines b) (words a + words b) (chars_ a + chars_ b).

Fixpoint count_files (f : flags) (show_all : bool) (files : list (list Z)) (total : Counts) : list output * Counts :=
  match files with
  | [] => ([], total)
  | name :: files =>
      match host_open name with
      | None =>
          let '(o, t) := count_files f show_all files total in
          (warn "custom_wc" name (host_error name) :: o, t)
      | Some data =>
          let c := count_fd (reads_of data) in
          let '(o, t) := count_files f show_all files (add total c) in
          (Out (print_counts f c (Some name) show_all) :: o, t)
      end
  end.

(** [args] are argv[1], ..., argv[argc - 1]. *)
Definition main (args : list (list Z)) : list output * Z :=
  match parse_flags (MkFlags false false false) args with
  | inr c => ([Err (chars "custom_wc: unknown option '-" ++ [c] ++ chars "'" ++ [10])], 1)
  | inl (f, files) =>
      let show_all := negb (flag_lines f || flag_words f || flag_chars f) in
      match files with
      | [] => ([Out (print_counts f (count_fd (reads_of host_stdin)) None show_all)], 0)
      | _ =>
          let '(o, total) := count_files f show_all files (MkCounts 0 0 0) in
          let multiple := (1 <? length files)%nat in
          (o ++ (if multiple then [Out (print_counts f total (Some (chars "total")) show_all)] else []), 0)
      end
  end.

End main.
End Wc.

Module HostGrep.
Import CString.

Record flags : Type := MkFlags { flag_linenum : bool; flag_icase : bool }.

Definition to_lower (src : list Z) : list Z := tolower <$> src.

(** getline(): up to and including the next newline; [None] at the end of the file. *)
Fixpoint getline (s : list Z) : option (list Z * list Z) :=
  match s with
  | [] => None
  | c :: s' =>
      if c =? 10 then Some ([c], s') else
      match getline s' with
      | Some (line, rest) => Some (c :: line, rest)
      | None => Some ([c], [])
      end
  end.

Fixpoint starts_with (pat s : list Z) : bool :=
  match pat, s with
  | [], _ => true
  | a :: pat, b :: s => (a =? b) && starts_with pat s
  | _ :: _, [] => false
  end.

(** strstr() as a truth value; both arguments end at their first nul. *)
Fixpoint strstr_loop (hay needle : list Z) : bool :=
  starts_with needle hay || match hay with [] => false | _ :: hay => strstr_loop hay needle end.

Definition strstr (hay needle : list Z) : bool := strstr_loop (c_string hay) (c_string needle).

(** Whether the line is printed. *)
Definition line_found (f : flags) (pattern line : list Z) : bool :=
  if flag_icase f then strstr (to_lower line) (to_lower pattern) else strstr line pattern.

Definition print_line (f : flags) (filename : list Z) (show_fname : bool) (lineno : Z) (line : list Z) : list Z :=
  (if show_fname then filename ++ [58] else []) ++
  (if flag_linenum f then show lineno ++ [58] else []) ++
  line ++ (if default 0 (last line) =? 10 then [] else [10]).

(** The loop of grep_file(); a call of getline() takes at least one byte, so the length of the
    stream is enough [fuel]. *)
Fixpoint grep_loop (fuel : nat) (f : flags) (filename pattern : list Z) (show_fname : bool) (lineno : Z) (matched : bool) (s : list Z) : list Z * bool :=
  match getline s with
  | None => ([], matched)
  | Some (line, rest) =>
      match fuel with
      | O => ([], matched)
      | S fuel =>
          let lineno := lineno + 1 in
          if line_found f pattern line then
            let '(o, m) := grep_loop fuel f filename pattern show_fname lineno true rest in
            (print_line f filename show_fname lineno line ++ o, m)
          else grep_loop fuel f filename pattern show_fname lineno matched rest
      end
  end.

Definition grep_file (f : flags) (s filename pattern : list Z) (show_fname : bool) : list Z * bool :=
  grep_loop (length s) f filename pattern show_fname 0 false s.

Fixpoint parse_letters (f : flags) (a : list Z) : flags + Z :=
  match a with
  | [] => inl f
  | c :: a =>
      if c =? 110 then parse_letters (MkFlags true (flag_icase f)) a
      else if c =? 105 then parse_letters (MkFlags (flag_linenum f) true) a
      else inr c
  end.

Fixpoint parse_flags (f : flags) (args : list (list Z)) : (flags * list (list Z)) + Z :=
  match args with
  | a :: rest =>
      if is_option a then
        match parse_letters f (tl a) with
        | inl f => parse_flags f rest
        | inr c => inr c
        end
      else inl (f, args)
  | [] => inl (f, [])
  end.

Section main.
Context {host : Host}.

Fixpoint grep_files (f : flags) (pattern : list Z) (multiple : bool) (files : list (list Z)) (any_match : bool) : list output * bool :=
  match files with
  | [] => ([], any_match)
  | name :: files =>
      match host_open name with
      | None =>
          let '(o, m) := grep_files f pattern multiple files any_match in
          (warn "custom_grep" name (host_error name) :: o, m)
      | Some data =>
          let '(text, hit) := grep_file f data name pattern multiple in
          let '(o, m) := grep_files f pattern multiple files (hit || any_match) in
          (Out text :: o, m)
      end
  end.

Definition main (args : list (list Z)) : list output * Z :=
  match parse_flags (MkFlags false false) args with
  | inr c => ([Err (chars "custom_grep: unknown option '-" ++ [c] ++ chars "'" ++ [10])], 1)
  | inl (f, []) => ([Err (chars "Usage: custom_grep [-n] [-i] pattern [file ...]" ++ [10])], 1)
  | inl (f, pattern :: files) =>
      let '(o, any_match) :=
        match files with
        | [] => let '(text, hit) := grep_file f host_stdin (chars "stdin") pattern false in ([Out text], hit)
        | _ => grep_files f pattern (1 <? length files)%nat files false
        end in
      (o, if (any_match : bool) then 0 else 1)
  end.

End main.
End HostGrep.

Module Cat.

Record flags : Type := MkFlags { show_line_numbers : bool; skip_empty : bool; end_marker : bool; skip_blanks : bool }.

(** One round of the loop of print_file(), on new_line, empty_lines and my_line_cnt. *)
Definition print_char (f : flags) (ch : Z) (new_line : bool) (empty_lines my_line_cnt : Z) : list Z * (bool * Z * Z) :=
  if ch =? 10 then
    if new_line then
      let empty_lines := empty_lines + 1 in
      if skip_blanks f && (empty_lines >? 1) then ([], (new_line, empty_lines, my_line_cnt)) else
      let number := show_line_numbers f && negb (skip_empty f) in
      ((if number then show_pad 6 my_line_cnt ++ [9] else []) ++ (if end_marker f then [36] else []) ++ [10],
       (true, empty_lines, if number then my_line_cnt + 1 else my_line_cnt))
    else ((if end_marker f then [36] else []) ++ [10], (true, 0, my_line_cnt))
  else
    let number := new_line && (skip_empty f || show_line_numbers f) in
    ((if number then show_pad 6 my_line_cnt ++ [9] else []) ++ [ch],
     (false, 0, if number then my_line_cnt + 1 else my_line_cnt)).

(** The text and my_line_cnt after it. *)
Fixpoint print_loop (f : flags) (s : list Z) (new_line : bool) (empty_lines my_line_cnt : Z) : list Z * Z :=
  match s with
  | [] => ([], my_line_cnt)
  | ch :: s =>
      let '(o, (nl, el, cnt)) := print_char f ch new_line empty_lines my_line_cnt in
      let '(o', cnt) := print_loop f s nl el cnt in
      (o ++ o', cnt)
  end.

Definition print_file (f : flags) (s : list Z) (my_line_cnt : Z) : list Z * Z := print_loop f s true 0 my_line_cnt.

(** What the argument parser decides: flags, the help text, or a bad option. *)
Inductive parsed : Type :=
| Flags (f : flags) (files : list (list Z))
| Help
| Bad (c : Z).

Fixpoint parse_letters (f : flags) (a : list Z) : flags + parsed :=
  match a with
  | [] => inl f
  | c :: a =>
      if c =? 110 then parse_letters (MkFlags true (skip_empty f) (end_marker f) (skip_blanks f)) a
      else if c =? 98 then parse_letters (MkFlags (show_line_numbers f) true (end_marker f) (skip_blanks f)) a
      else if c =? 69 then parse_letters (MkFlags (show_line_numbers f) (skip_empty f) true (skip_blanks f)) a
      else if c =? 115 then parse_letters (MkFlags (show_line_numbers f) (skip_empty f) (end_marker f) true) a
      else if c =? 104 then inr Help
      else inr (Bad c)
  end.

(** [argv[i][0] != '-' || strcmp(argv[i], "-") == 0] ends the options. *)
Fixpoint parse_flags (f : flags) (args : list (list Z)) : parsed :=
  match args with
  | a :: rest =>
      if negb (hd 0 a =? 45) || bool_decide (a = [45]) then Flags f args else
      match parse_letters f (tl a) with
      | inl f => parse_flags f rest
      | inr p => p
      end
  | [] => Flags f []
  end.

Definition usage : list Z :=
  chars "=== custom_cat by Mohan ===" ++ [10] ++
  chars "Usage: custom_cat [OPTIONS] [FILE...]" ++ [10] ++
  chars "  -n   number all lines" ++ [10] ++
  chars "  -b   number non-empty lines only" ++ [10] ++
  chars "  -E   show $ at end of each line" ++ [10] ++
  chars "  -s   squeeze multiple blank lines" ++ [10] ++
  chars "  -h   show this help" ++ [10] ++
  chars "If no file given, reads from stdin" ++ [10].

Section main.
Context {host : Host}.

(** print_file() of a stream, with the message for a read error. *)
Definition print_stream (f : flags) (s filename : list Z) (my_line_cnt : Z) : list output * Z :=
  let '(o, cnt) := print_file f s my_line_cnt in
  (Out o :: (if host_ferror filename
             then [Err (chars "custom_cat: error reading " ++ filename ++ chars ": " ++ host_error filename ++ [10])]
             else []), cnt).

(** [stdin] is what is left of standard input: reading it once uses it up. *)
Fixpoint print_files (f : flags) (files : list (list Z)) (stdin : list Z) (my_line_cnt exit_status : Z) : list output * Z * Z :=
  match files with
  | [] => ([], my_line_cnt, exit_status)
  | name :: files =>
      if bool_decide (name = [45]) then
        let '(o, cnt) := print_stream f stdin (chars "stdin") my_line_cnt in
        let '(o', cnt, st) := print_files f files [] cnt exit_status in
        (o ++ o', cnt, st)
      else
        match host_open name with
        | None =>
            let '(o, cnt, st) := print_files f files stdin my_line_cnt 1 in
            (Err (chars "cannot open '" ++ name ++ chars "': " ++ host_error name ++ [10]) :: o, cnt, st)
        | Some data =>
            let '(o, cnt) := print_stream f data name my_line_cnt in
            let '(o', cnt, st) := print_files f files stdin cnt exit_status in
            (o ++ o', cnt, st)
        end
  end.

Definition main (args : list (list Z)) : list output * Z :=
  match parse_flags (MkFlags false false false false) args with
  | Help => ([Out usage], 0)
  | Bad c => ([Err (chars "unknown option -" ++ [c] ++ [10])], 1)
  | Flags f files =>
      let f := if skip_empty f then MkFlags false (skip_empty f) (end_marker f) (skip_blanks f) else f in
      match files with
      | [] => ((print_stream f host_stdin (chars "stdin") 1).1, 0)
      | _ =>
          let '(o, cnt, st) := print_files f files host_stdin 1 0 in
          (o ++ [Err (chars "total lines processed: " ++ show (cnt - 1) ++ [10])], st)
      end
  end.

End main.
End Cat.
