(* ===== verification/HostTextProofs.v ===== *)
(** * custom_wc, custom_grep and custom_cat do what their lines and words say *)

From S2P Require Import Prelude Machine CString Ulib Print HostText.

(** ** Words *)

(** The maximal runs of characters that are not spaces; [cur] is the run so far. *)
Fixpoint words_from (cur : list Z) (s : list Z) : list (list Z) :=
  match s with
  | [] => match cur with [] => [] | _ => [cur] end
  | c :: s =>
      if isspace c then match cur with [] => words_from [] s | _ => cur :: words_from [] s end
      else words_from (cur ++ [c]) s
  end.

Definition words_of (s : list Z) : list (list Z) := words_from [] s.

Module WcProofs.
Import Wc.

Definition newlines (s : list Z) : Z := Z.of_nat (length (filter (fun c => c = 10) s)).

Lemma newlines_cons c s : newlines (c :: s) = (if c =? 10 then 1 else 0) + newlines s.
Proof.
  unfold newlines. rewrite filter_cons. destruct (Z.eqb_spec c 10); [rewrite decide_True by done; cbn; lia|by rewrite decide_False].
Qed.

(** The state of the loop in the middle of a word [cur]. *)
Lemma count_chars s l w n cur :
  (foldl count_char (MkCounts l (w + (if bool_decide (cur = []) then 0 else 1)) n, negb (bool_decide (cur = []))) s).1 =
  MkCounts (l + newlines s) (w + Z.of_nat (length (words_from cur s))) (n + Z.of_nat (length s)).
Proof.
  revert l w n cur. induction s as [|c s IH]; intros l w n cur.
  - cbn. unfold newlines. cbn. f_equal; [lia| |lia]. destruct cur; cbn; lia.
  - cbn [foldl words_from]. rewrite newlines_cons. unfold count_char at 2. destruct (isspace c) eqn:Es.
    + destruct cur as [|a cur].
      * cbn [bool_decide negb]. specialize (IH (if c =? 10 then l + 1 else l) w (n + 1) []). cbn in IH |- *.
        rewrite IH. f_equal; [destruct (c =? 10); lia|lia].
      * specialize (IH (if c =? 10 then l + 1 else l) (w + 1) (n + 1) []). rewrite bool_decide_false by done. cbn in IH |- *.
        rewrite Z.add_0_r in IH. rewrite IH. f_equal; [destruct (c =? 10); lia|lia|lia].
    + specialize (IH (if c =? 10 then l + 1 else l) w (n + 1) (cur ++ [c])). rewrite bool_decide_false in IH by (by destruct cur).
      cbn [negb] in IH. assert ((c =? 10) = false) as Ec by (unfold isspace in Es; lia). rewrite Ec in *.
      destruct cur as [|a cur]; [rewrite bool_decide_true by done|rewrite bool_decide_false by done]; cbn [negb].
      * rewrite Z.add_0_r. rewrite IH. cbn [length]. f_equal; lia.
      * rewrite IH. cbn [length]. f_equal; lia.
Qed.

Lemma count_fd_concat reads : Forall (fun b => b <> []) reads -> count_fd reads = (foldl count_char (MkCounts 0 0 0, false) (concat reads)).1.
Proof.
  unfold count_fd. generalize (MkCounts 0 0 0, false). intros st H. revert st. induction H as [|b reads Hb _ IH]; intros st; [done|].
  cbn [count_fd_loop concat]. rewrite foldl_app, <- IH. by destruct b.
Qed.

Lemma reads_concat {host : Host} s : concat (reads_of s) = s /\ Forall (fun b => b <> []) (reads_of s).
Proof.
  unfold reads_of. generalize (host_split s). intros ns. revert s. induction ns as [|n ns IH]; intros s.
  - destruct s; [done|]. cbn. rewrite app_nil_r. split; [done|]. by repeat constructor.
  - destruct s as [|c s]; [done|]. destruct (IH (drop (S n) (c :: s))) as [E F]. split.
    + cbn [concat]. rewrite E. apply take_drop.
    + by constructor.
Qed.

(** count_fd() counts the newlines, the words and the bytes of the file, however read()
    cuts it into pieces, also in the middle of a word. *)
Theorem wc_counts {host : Host} s :
  count_fd (reads_of s) = MkCounts (newlines s) (Z.of_nat (length (words_of s))) (Z.of_nat (length s)).
Proof.
  destruct (reads_concat s) as [E F]. rewrite count_fd_concat, E by done. exact (count_chars s 0 0 0 []).
Qed.

End WcProofs.

(** ** Lines *)

(** A line ends with its only newline; the last one of a file may have none. *)
Definition is_line (l : list Z) : Prop := exists body, l = body ++ [10] /\ (10 ∉ body).

(** The lines of a file. *)
Inductive lines : list Z -> list (list Z) -> Prop :=
| lines_end : lines [] []
| lines_last s : s <> [] -> (10 ∉ s) -> lines s [s]
| lines_cons l s ls : is_line l -> lines s ls -> lines (l ++ s) (l :: ls).

Lemma lines_concat s ls : lines s ls -> concat ls = s.
Proof. induction 1 as [|s|l s ls _ _ IH]; cbn; [done|apply app_nil_r|by rewrite IH]. Qed.

Lemma lines_nil ls : lines [] ls -> ls = [].
Proof.
  intros H. apply lines_concat in H as E. inversion H as [|s Hs|l s ls' (body & -> & _) _ E1]; subst; [done|done|]. by destruct body.
Qed.

Lemma line_unique a b s t : (10 ∉ a) -> (10 ∉ b) -> a ++ 10 :: s = b ++ 10 :: t -> a = b /\ s = t.
Proof.
  revert b. induction a as [|x a IH]; intros [|y b] Ha Hb E; cbn in E.
  - by injection E as ->.
  - injection E as <- _. set_solver.
  - injection E as -> _. set_solver.
  - injection E as -> E. apply IH in E as [-> ->]; [done|set_solver..].
Qed.

(** A file has one sequence of lines. *)
Lemma lines_unique s ls ls' : lines s ls -> lines s ls' -> ls = ls'.
Proof.
  intros H. revert ls'. induction H as [|s Hs Hn|l s ls Hl H IH]; intros ls' H'.
  - symmetry. by apply lines_nil.
  - inversion H' as [|s' _ _|l s' ls2 (body & -> & _) _]; subst; [done|done|]. set_solver.
  - destruct Hl as (body & -> & Hb). inversion H' as [E|s' _ Hn|l s' ls2 (body' & -> & Hb') H2 E]; subst.
    + by destruct body.
    + set_solver.
    + rewrite <- !app_assoc in E. cbn in E. apply line_unique in E as [-> ->]; [|done..]. f_equal. by apply IH.
Qed.

Module HostGrepProofs.
Import CString HostGrep.

Lemma getline_spec s :
  match getline s with
  | None => s = []
  | Some (line, rest) => s = line ++ rest /\ (is_line line \/ (rest = [] /\ s <> [] /\ (10 ∉ s)))
  end.
Proof.
  induction s as [|c s IH]; [done|]. cbn [getline]. destruct (Z.eqb_spec c 10) as [->|Hc].
  - split; [done|]. left. exists []. split; [done|]. apply not_elem_of_nil.
  - destruct (getline s) as [[line rest]|].
    + destruct IH as [-> [(body & -> & Hb)|(-> & H1 & H2)]]; (split; [done|]).
      * left. exists (c :: body). split; [done|]. set_solver.
      * right. rewrite app_nil_r in *. split; [done|]. split; [done|]. set_solver.
    + subst. split; [done|]. right. split; [done|]. split; [done|]. set_solver.
Qed.

(** What a run of grep_file() prints of the lines from number [n] on. *)
Fixpoint selected (f : flags) (name pattern : list Z) (show_fname : bool) (n : Z) (ls : list (list Z)) : list Z :=
  match ls with
  | [] => []
  | l :: ls =>
      (if line_found f pattern l then print_line f name show_fname (n + 1) l else []) ++ selected f name pattern show_fname (n + 1) ls
  end.

Lemma grep_loop_lines fuel f name pattern sf n m s :
  (length s <= fuel)%nat ->
  exists ls, lines s ls /\ grep_loop fuel f name pattern sf n m s = (selected f name pattern sf n ls, m || existsb (line_found f pattern) ls).
Proof.
  revert n m s. induction fuel as [|fuel IH]; intros n m s Hf.
  - destruct s; [|cbn in Hf; lia]. exists []. split; [constructor|]. cbn. by rewrite orb_false_r.
  - pose proof (getline_spec s) as G. cbn [grep_loop]. destruct (getline s) as [[line rest]|].
    + destruct G as [Es G]. assert (Hlt : (length rest <= fuel)%nat).
      { destruct G as [(body & -> & _)|(-> & _)]; [|cbn; lia]. subst s. rewrite !length_app in Hf. cbn in Hf. lia. }
      assert (Hstep : forall ls, lines rest ls -> lines s (line :: ls)).
      { intros ls Hls. subst s. destruct G as [G|(-> & H1 & H2)]; [by constructor|]. apply lines_nil in Hls as ->.
        rewrite app_nil_r in *. by constructor. }
      destruct (line_found f pattern line) eqn:El.
      * destruct (IH (n + 1) true rest Hlt) as (ls & Hls & E). exists (line :: ls). split; [by apply Hstep|].
        rewrite E. cbn [selected existsb]. rewrite El. by rewrite orb_true_r.
      * destruct (IH (n + 1) m rest Hlt) as (ls & Hls & E). exists (line :: ls). split; [by apply Hstep|].
        rewrite E. cbn [selected existsb]. by rewrite El.
    + subst. exists []. split; [constructor|]. cbn. by rewrite orb_false_r.
Qed.

Lemma starts_with_spec pat s : starts_with pat s = true <-> exists r, s = pat ++ r.
Proof.
  revert s. induction pat as [|a pat IH]; intros s; cbn; [split; [by exists s|done]|]. destruct s as [|b s].
  - split; [done|]. by intros (r & ?).
  - rewrite andb_true_iff, IH, Z.eqb_eq. split; [intros (-> & r & ->); by exists r|]. intros (r & [= -> ->]). split; [done|by exists r].
Qed.

Lemma strstr_loop_spec hay needle : strstr_loop hay needle = true <-> exists a b, hay = a ++ needle ++ b.
Proof.
  induction hay as [|c hay IH]; cbn [strstr_loop]; rewrite orb_true_iff, starts_with_spec.
  - split; [intros [(r & E)|?]; [by exists [], r|done]|]. intros (a & b & E). left. destruct a; [by exists b|done].
  - rewrite IH. split.
    + intros [(r & E)|(a & b & ->)]; [by exists [], r|by exists (c :: a), b].
    + intros (a & b & E). destruct a as [|a0 a]; [left; by exists b|]. injection E as -> ->. right. by exists a, b.
Qed.

(** What the user asks for: the pattern somewhere in the line, in any case with -i. *)
Definition fold_case (f : flags) (s : list Z) : list Z := if flag_icase f then tolower <$> s else s.

Definition contains (f : flags) (pattern line : list Z) : Prop :=
  exists a b, c_string (fold_case f line) = a ++ c_string (fold_case f pattern) ++ b.

Lemma line_found_spec f pattern line : line_found f pattern line = true <-> contains f pattern line.
Proof. unfold line_found, contains, fold_case, strstr, to_lower. destruct (flag_icase f); apply strstr_loop_spec. Qed.

#[export] Instance contains_dec f pattern line : Decision (contains f pattern line).
Proof. refine (cast_if (decide (line_found f pattern line = true))); by rewrite <- line_found_spec. Defined.

(** The lines to print, with their numbers. *)
Fixpoint number_lines (n : Z) (ls : list (list Z)) : list (Z * list Z) :=
  match ls with [] => [] | l :: ls => (n, l) :: number_lines (n + 1) ls end.

Lemma selected_filter f name pattern sf n ls :
  selected f name pattern sf n ls =
  concat ((fun x => print_line f name sf x.1 x.2) <$> filter (fun x => contains f pattern x.2) (number_lines (n + 1) ls)).
Proof.
  revert n. induction ls as [|l ls IH]; intros n; [done|]. cbn [selected number_lines]. rewrite filter_cons, IH. cbn [snd].
  destruct (line_found f pattern l) eqn:E.
  - rewrite decide_True by (by apply line_found_spec). done.
  - rewrite decide_False; [done|]. by rewrite <- line_found_spec, E.
Qed.

(** grep_file() prints the lines of the file that contain the pattern, in order, each with
    the name and the number asked for and a newline at its end, and nothing else; it reports
    whether there was one. *)
Theorem grep_file_selects f s name pattern sf :
  exists ls, lines s ls /\
    let hits := filter (fun x => contains f pattern x.2) (number_lines 1 ls) in
    grep_file f s name pattern sf = (concat ((fun x => print_line f name sf x.1 x.2) <$> hits), negb (bool_decide (hits = []))).
Proof.
  destruct (grep_loop_lines (length s) f name pattern sf 0 false s (le_n _)) as (ls & Hls & E). exists ls. split; [done|]. cbv zeta.
  unfold grep_file. rewrite E, selected_filter. f_equal. cbn [orb]. change (0 + 1) with 1. generalize 1. clear. 
  induction ls as [|l ls IH]; intros n; [done|]. cbn [existsb number_lines]. rewrite filter_cons. cbn [snd].
  destruct (line_found f pattern l) eqn:El.
  - by rewrite decide_True by (by apply line_found_spec).
  - rewrite decide_False; [apply IH|]. by rewrite <- line_found_spec, El.
Qed.

End HostGrepProofs.

Module CatProofs.
Import Cat.

(** ** custom_cat, line by line *)

(** The line with its number, and with a [$] before its newline. *)
Definition numbered (number : bool) (cnt : Z) : list Z := if number then show_pad 6 cnt ++ [9] else [].
Definition marked (f : flags) (l : list Z) : list Z :=
  if default 0 (last l) =? 10 then removelast l ++ (if end_marker f then [36] else []) ++ [10] else l.

(** -s drops a blank line after a blank line, -n numbers all lines that are left, -b those that
    are not blank, -E marks the ends. *)
Fixpoint cat_lines (f : flags) (after_blank : bool) (cnt : Z) (ls : list (list Z)) : list Z * Z :=
  match ls with
  | [] => ([], cnt)
  | l :: ls =>
      let blank := bool_decide (l = [10]) in
      if blank && skip_blanks f && after_blank then cat_lines f true cnt ls else
      let number := if blank then show_line_numbers f && negb (skip_empty f) else skip_empty f || show_line_numbers f in
      let '(o, cnt') := cat_lines f blank (if number then cnt + 1 else cnt) ls in
      (numbered number cnt ++ marked f l ++ o, cnt')
  end.

Definition prefix_out (a : list Z) (r : list Z * Z) : list Z * Z := (a ++ r.1, r.2).

Lemma prefix_out_app a b r : prefix_out a (prefix_out b r) = prefix_out (a ++ b) r.
Proof. unfold prefix_out. cbn. by rewrite app_assoc. Qed.

Lemma print_loop_cons f ch s nl el cnt :
  print_loop f (ch :: s) nl el cnt =
  prefix_out (print_char f ch nl el cnt).1 (let '(nl', el', cnt') := (print_char f ch nl el cnt).2 in print_loop f s nl' el' cnt').
Proof. cbn [print_loop]. destruct (print_char f ch nl el cnt) as [o [[nl' el'] cnt']]. cbn. by destruct (print_loop f s nl' el' cnt'). Qed.

(** The rest of a line that has begun. *)
Lemma print_loop_body f body s el cnt :
  (10 ∉ body) -> exists el', print_loop f (body ++ s) false el cnt = prefix_out body (print_loop f s false el' cnt).
Proof.
  revert el. induction body as [|c body IH]; intros el Hb.
  - exists el. cbn. by destruct (print_loop f s false el cnt).
  - apply not_elem_of_cons in Hb as [Hc Hb]. cbn [app]. rewrite print_loop_cons. unfold print_char. destruct (Z.eqb_spec c 10); [done|]. cbn [andb fst snd].
    destruct (IH 0 Hb) as (el' & ->). exists el'. by rewrite prefix_out_app.
Qed.

(** A line that is not blank. *)
Lemma print_loop_text f c body s el cnt :
  (10 ∉ c :: body) ->
  let number := skip_empty f || show_line_numbers f in
  exists el', print_loop f ((c :: body) ++ s) true el cnt =
    prefix_out (numbered number cnt ++ c :: body) (print_loop f s false el' (if number then cnt + 1 else cnt)).
Proof.
  intros [Hc Hb]%not_elem_of_cons number. cbn [app]. rewrite print_loop_cons. unfold print_char. destruct (Z.eqb_spec c 10); [done|]. cbn [andb fst snd].
  fold number. destruct (print_loop_body f body s 0 (if number then cnt + 1 else cnt) Hb) as (el' & ->). exists el'. rewrite prefix_out_app.
  unfold numbered. by rewrite <- (assoc_L (++)).
Qed.

Lemma cat_lines_fst f b cnt l ls :
  let blank := bool_decide (l = [10]) in
  let number := if blank then show_line_numbers f && negb (skip_empty f) else skip_empty f || show_line_numbers f in
  cat_lines f b cnt (l :: ls) =
  if blank && skip_blanks f && b then cat_lines f true cnt ls
  else prefix_out (numbered number cnt ++ marked f l) (cat_lines f blank (if number then cnt + 1 else cnt) ls).
Proof.
  cbv zeta. cbn [cat_lines]. destruct (_ && _ && _); [done|]. destruct (cat_lines _ _ _ ls). unfold prefix_out. cbn. by rewrite <- app_assoc.
Qed.

Lemma marked_line f body : marked f (body ++ [10]) = body ++ (if end_marker f then [36] else []) ++ [10].
Proof. unfold marked. rewrite last_snoc, removelast_last. done. Qed.

Lemma print_loop_lines f s ls el cnt :
  lines s ls -> 0 <= el -> print_loop f s true el cnt = cat_lines f (0 <? el) cnt ls.
Proof.
  intros H. revert el cnt. induction H as [|s Hs Hn|l s ls (body & -> & Hb) _ IH]; intros el cnt He; [done| |].
  - destruct s as [|c s]; [done|]. rewrite cat_lines_fst. assert (c :: s <> [10]) as Hne by (intros [= -> ->]; set_solver).
    rewrite bool_decide_false by done. cbn [andb cat_lines]. destruct (print_loop_text f c s [] el cnt Hn) as (el' & E). rewrite app_nil_r in E. rewrite E.
    cbn [print_loop]. do 2 f_equal. unfold marked. destruct (last (c :: s)) as [x|] eqn:El; [|done]. change (default 0 (Some x)) with x.
    destruct (Z.eqb_spec x 10) as [->|]; [|done]. apply last_Some in El as (l' & E'). rewrite E' in Hn. set_solver.
  - rewrite cat_lines_fst, marked_line. destruct body as [|c body].
    + cbn [app]. rewrite bool_decide_true by done. cbn [andb]. rewrite print_loop_cons. unfold print_char. cbn [Z.eqb Pos.eqb].
      replace (el + 1 >? 1) with (0 <? el) by lia. destruct (skip_blanks f && (0 <? el)) eqn:Eb; cbn [fst snd].
      * rewrite IH by lia. rewrite (proj2 (Z.ltb_lt 0 (el + 1))) by lia. unfold prefix_out. by destruct (cat_lines _ _ _ _).
      * rewrite IH by lia. rewrite (proj2 (Z.ltb_lt 0 (el + 1))) by lia. done.
    + rewrite bool_decide_false by (by destruct body). cbn [andb]. rewrite <- (assoc_L (++)).
      destruct (print_loop_text f c body ([10] ++ s) el cnt Hb) as (el' & ->). cbn [app]. rewrite print_loop_cons. unfold print_char. cbn [Z.eqb Pos.eqb fst snd].
      rewrite prefix_out_app, IH by lia. by rewrite <- (assoc_L (++)).
Qed.

Lemma marked_plain l : marked (MkFlags false false false false) l = l.
Proof.
  unfold marked. destruct (last l) as [x|] eqn:El; [|done]. change (default 0 (Some x)) with x. destruct (Z.eqb_spec x 10) as [->|]; [|done].
  apply last_Some in El as (l' & ->). cbn. by rewrite removelast_last.
Qed.

Lemma cat_plain b cnt ls : cat_lines (MkFlags false false false false) b cnt ls = (concat ls, cnt).
Proof.
  revert b. induction ls as [|l ls IH]; intros b; [done|]. rewrite cat_lines_fst, marked_plain. cbn [skip_blanks show_line_numbers skip_empty andb orb].
  rewrite andb_false_r. cbn [andb]. destruct (bool_decide (l = [10])); by rewrite IH.
Qed.

Lemma lines_exist s : exists ls, lines s ls.
Proof. destruct (HostGrepProofs.grep_loop_lines (length s) (HostGrep.MkFlags false false) [] [] false 0 false s (le_n _)) as (ls & H & _). by exists ls. Qed.

(** print_file() formats the file line by line: with -s a blank line after a blank line is
    dropped, with -n every line that is left and with -b every line that is not blank has its
    number, counted on from the files before, with -E every newline has a dollar before it;
    without options the file is printed as it is. *)
Theorem cat_formats f s cnt :
  exists ls, lines s ls /\ print_file f s cnt = cat_lines f false cnt ls /\
    print_file (MkFlags false false false false) s cnt = (s, cnt).
Proof.
  destruct (lines_exist s) as (ls & H). exists ls. assert (E : forall f, print_file f s cnt = cat_lines f false cnt ls) by (intros; by apply print_loop_lines).
  split_and!; [done|done|]. rewrite E, <- (lines_concat s ls H). apply cat_plain.
Qed.

End CatProofs.
