(* ===== verification/HostShell.v ===== *)
(** * Project 2: custom_shell

    The line is a buffer of characters that ends with a nul; a token is the offset of its first
    character, and tokenize() writes a nul behind each.  The parsed commands hold strings.
    Descriptors are a table as in [Sh]; what the host answers to pipe(), fork(), open() and
    the rest is a parameter. *)

From S2P Require Import Prelude Machine CString Ulib Print Sh HostText.

Module HostShell.
Import CString.

Definition MAX_ARGS : nat := 128.
Definition MAX_CMDS : nat := 32.
Definition MAX_LINE : nat := 4096.

(** ** Tokens *)

(** How many characters before the nul the loops that skip spaces or a token pass. *)
Fixpoint span_len (f : Z -> bool) (s : list Z) : nat :=
  match s with
  | c :: s => if negb (c =? 0) && f c then S (span_len f s) else O
  | [] => O
  end.

(** The loop on the string [buf + p], with [n] tokens found: their offsets and the buffer. *)
Fixpoint tokenize_loop (fuel : nat) (buf : list Z) (p n max : nat) : list nat * list Z :=
  match fuel with
  | O => ([], buf)
  | S fuel =>
      if nth p buf 0 =? 0 then ([], buf) else
      let p := (p + span_len isspace (drop p buf))%nat in
      if nth p buf 0 =? 0 then ([], buf) else
      if (max - 1 <=? n)%nat then ([], buf) else
      let e := (p + span_len (fun c => negb (isspace c)) (drop p buf))%nat in
      if negb (nth e buf 0 =? 0) then
        let '(toks, buf) := tokenize_loop fuel (<[e := 0]> buf) (S e) (S n) max in (p :: toks, buf)
      else ([p], buf)
  end.

(** Every round but the last takes a character. *)
Definition tokenize (line : list Z) (max : nat) : list nat * list Z :=
  tokenize_loop (S (length line)) (line ++ [0]) 0 0 max.

Definition string_at (buf : list Z) (p : nat) : list Z := c_string (drop p buf).

(** ** Commands *)

Record Cmd : Type := MkCmd {
  argv : list (list Z);
  redir_in : option (list Z);
  redir_out : option (list Z);
  append_out : bool
}.

Definition argc (c : Cmd) : nat := length (argv c).
Definition empty_cmd : Cmd := MkCmd [] None None false.

Definition bar : list Z := chars "|".
Definition lt : list Z := chars "<".
Definition gt : list Z := chars ">".
Definition gtgt : list Z := chars ">>".
Definition amp : list Z := chars "&".

Definition message (m : string) : list Z := chars "custom_shell: " ++ chars m ++ [10].

(** The loop over the tokens; [done] are the commands before [cur]; [inl] is the message that
    goes with -1. *)
Fixpoint parse_loop (toks : list (list Z)) (done : list Cmd) (cur : Cmd) (background : bool) : list Z + (list Cmd * bool) :=
  match toks with
  | [] => inr (done ++ [cur], background)
  | t :: rest =>
      if bool_decide (t = bar) then
        if (MAX_CMDS <=? length done + 1)%nat then inl (message "too many pipes")
        else parse_loop rest (done ++ [cur]) empty_cmd background
      else if bool_decide (t = lt) then
        match rest with
        | [] => inl (message "missing file after '<'")
        | f :: rest => parse_loop rest done (MkCmd (argv cur) (Some f) (redir_out cur) (append_out cur)) background
        end
      else if bool_decide (t = gt) then
        match rest with
        | [] => inl (message "missing file after '>'")
        | f :: rest => parse_loop rest done (MkCmd (argv cur) (redir_in cur) (Some f) false) background
        end
      else if bool_decide (t = gtgt) then
        match rest with
        | [] => inl (message "missing file after '>>'")
        | f :: rest => parse_loop rest done (MkCmd (argv cur) (redir_in cur) (Some f) true) background
        end
      else if bool_decide (t = amp) && match rest with [] => true | _ => false end then
        parse_loop rest done cur true
      else if (MAX_ARGS - 1 <=? argc cur)%nat then inl (message "too many arguments")
      else parse_loop rest done (MkCmd (argv cur ++ [t]) (redir_in cur) (redir_out cur) (append_out cur)) background
  end.

(** [if (ncmds > 0 && cmds[ncmds - 1].argc == 0) ncmds--;] *)
Definition drop_empty (cmds : list Cmd) : list Cmd :=
  match last cmds with
  | Some c => if (argc c =? 0)%nat then removelast cmds else cmds
  | None => cmds
  end.

Definition parse_pipeline (toks : list (list Z)) : list Z + (list Cmd * bool) :=
  match parse_loop toks [] empty_cmd false with
  | inl m => inl m
  | inr (cmds, background) => inr (drop_empty cmds, background)
  end.

(** ** Built-in commands *)

(** atoi() of the C library. *)
Fixpoint digits_value (n : Z) (s : list Z) : Z :=
  match s with
  | c :: s => if (48 <=? c) && (c <=? 57) then digits_value (n * 10 + (c - 48)) s else n
  | [] => n
  end.

Definition atoi (s : list Z) : Z :=
  let s := drop (span_len isspace s) s in
  match s with
  | c :: s' => if c =? 45 then s32 (- digits_value 0 s') else if c =? 43 then s32 (digits_value 0 s') else s32 (digits_value 0 s)
  | [] => 0
  end.

Class ShellHost := {
  sh_chdir : list Z -> option (list Z);        (* [Some error] is a failure *)
  sh_home : option (list Z);                   (* getenv("HOME") *)
  sh_getcwd : list Z + list Z;                 (* [inl error], or [inr cwd] *)
  sh_open : list Z -> Z -> bool;
  sh_pipe : nat -> bool;                       (* the i-th pipe() of a pipeline *)
  sh_fork : nat -> bool;                       (* the i-th fork() *)
  sh_exec : list Z -> option (list Z);         (* execvp(): [Some error] is a failure *)
  sh_error : list Z -> list Z;                 (* strerror(errno) after a call on this failed *)
  sh_wait : nat -> Z;                          (* what waitpid() of the i-th child reports *)
  sh_pid : nat -> Z
}.

(** What run_builtin() does: end the shell, or print and set last_status; [None] is the return
    value 0. *)
Inductive builtin : Type :=
| BExit (code : Z)
| BDone (out : list output) (last_status : Z).

(** ** Pipelines *)

Inductive openfile : Type :=
| Std (n : nat)
| File (path : list Z) (flags : Z)
| PipeRead (i : nat)
| PipeWrite (i : nat).

Definition fds : Type := list (option openfile).

Definition O_RDONLY : Z := 0.
Definition O_WRONLY : Z := 1.
Definition O_CREAT : Z := 64.
Definition O_TRUNC : Z := 512.
Definition O_APPEND : Z := 1024.

Definition dup2 (old new : Z) (t : fds) : fds :=
  match t !! Z.to_nat old with
  | Some (Some f) => <[Z.to_nat new := Some f]> t
  | _ => t
  end.

(** What a child does in the end: exit, or become a program with a table. *)
Inductive child : Type :=
| Exits (out : list output) (status : Z)
| Runs (argv : list (list Z)) (t : fds).

(** How run_pipeline() ends: the shell exits; or it returns a status, having written [out],
    with the children it has started and its own table. *)
Inductive result : Type :=
| ShellExit (code : Z)
| Returns (status : Z) (out : list output) (children : list child) (t : fds).

Section run.
Context {host : ShellHost}.

Definition run_builtin (c : Cmd) : option builtin :=
  match argv c with
  | [] => None
  | a0 :: args =>
      if bool_decide (a0 = chars "exit") then
        Some (BExit (match args with a :: _ => atoi a | [] => 0 end))
      else if bool_decide (a0 = chars "cd") then
        let dir := match args with a :: _ => a | [] => default (chars "/") sh_home end in
        match sh_chdir dir with
        | Some e => Some (BDone [Err (chars "custom_shell: cd: " ++ dir ++ chars ": " ++ e ++ [10])] 1)
        | None => Some (BDone [] 0)
        end
      else if bool_decide (a0 = chars "pwd") then
        match sh_getcwd with
        | inl e => Some (BDone [Err (chars "custom_shell: pwd: " ++ e ++ [10])] 1)
        | inr cwd => Some (BDone [Out (cwd ++ [10])] 0)
        end
      else None
  end.

(** perror(what) *)
Definition perror (what : list Z) : output := Err (what ++ chars ": " ++ sh_error what ++ [10]).

(** open() and the redirection of [target] to it; [inl] is perror() and exit(1). *)
Definition redirect (path : list Z) (flags target : Z) (t : fds) : output + fds :=
  if sh_open path flags then
    let '(fd, t) := Sh.install (File path flags) t in
    if fd <? 0 then inl (perror path) else inr (Sh.close fd (dup2 fd target t))
  else inl (perror path).

Definition apply_redirections (c : Cmd) (t : fds) : output + fds :=
  match
    match redir_in c with
    | Some f => redirect f O_RDONLY 0 t
    | None => inr t
    end
  with
  | inl o => inl o
  | inr t =>
      match redir_out c with
      | Some f => redirect f (Z.lor (Z.lor O_WRONLY O_CREAT) (if append_out c then O_APPEND else O_TRUNC)) 1 t
      | None => inr t
      end
  end.

(** [for (i...) pipe(pipes[i])]: the descriptors, and the table; [inl] is a pipe() that failed. *)
Fixpoint make_pipes (i n : nat) (t : fds) : fds + (list (Z * Z) * fds) :=
  match n with
  | O => inr ([], t)
  | S n =>
      if sh_pipe i then
        let '(r, t1) := Sh.install (PipeRead i) t in
        let '(w, t2) := Sh.install (PipeWrite i) t1 in
        if (r <? 0) || (w <? 0) then inl t else
        match make_pipes (S i) n t2 with
        | inl t => inl t
        | inr (ps, t) => inr ((r, w) :: ps, t)
        end
      else inl t
  end.

Definition close_pipes (pipes : list (Z * Z)) (t : fds) : fds :=
  foldl (fun t p => Sh.close p.2 (Sh.close p.1 t)) t pipes.

(** The child of command [i]. *)
Definition run_child (cmds : list Cmd) (pipes : list (Z * Z)) (i : nat) (t : fds) : child :=
  let ncmds := length cmds in
  let t := if (0 <? i)%nat then dup2 (nth (i - 1) pipes (0, 0)).1 0 t else t in
  let t := if (i <? ncmds - 1)%nat then dup2 (nth i pipes (0, 0)).2 1 t else t in
  let t := close_pipes pipes t in
  let c := nth i cmds empty_cmd in
  match apply_redirections c t with
  | inl o => Exits [o] 1
  | inr t =>
      match argv c with
      | [] => Exits [] 0
      | a0 :: _ =>
          match sh_exec a0 with
          | None => Runs (argv c) t
          | Some e => Exits [Err (chars "custom_shell: " ++ a0 ++ chars ": " ++ e ++ [10])] 127
          end
      end
  end.

(** The loop of fork(): the children started, and whether all were. *)
Fixpoint fork_loop (cmds : list Cmd) (pipes : list (Z * Z)) (t : fds) (i n : nat) : list child * bool :=
  match n with
  | O => ([], true)
  | S n =>
      if sh_fork i then
        let '(cs, ok) := fork_loop cmds pipes t (S i) n in
        (run_child cmds pipes i t :: cs, ok)
      else ([], false)
  end.

(** WIFEXITED(ws) ? WEXITSTATUS(ws) : 1 *)
Definition wait_status (ws : Z) : Z :=
  if Z.land ws 0x7f =? 0 then Z.shiftr (Z.land ws 0xff00) 8 else 1.

Definition run_pipeline (cmds : list Cmd) (background : bool) (t : fds) : result :=
  match
    match cmds with
    | [] => Some (BDone [] 0)
    | [c] => run_builtin c
    | _ => None
    end
  with
  | Some (BExit code) => ShellExit code
  | Some (BDone out st) => Returns st out [] t
  | None =>
      let ncmds := length cmds in
      match make_pipes 0 (ncmds - 1) t with
      | inl t => Returns 1 [perror (chars "pipe")] [] t
      | inr (pipes, t) =>
          let '(cs, ok) := fork_loop cmds pipes t 0 ncmds in
          if negb ok then Returns 1 [perror (chars "fork")] cs t else
          let t := close_pipes pipes t in
          if negb background then Returns (wait_status (sh_wait (ncmds - 1))) [] cs t
          else Returns 0 [Out (chars "[bg] pid " ++ show (sh_pid (ncmds - 1)) ++ [10])] cs t
      end
  end.

Definition print_prompt : list Z :=
  match sh_getcwd with
  | inr cwd => cwd ++ chars " $ "
  | inl _ => chars "$ "
  end.

End run.

(** ** The loop of main() *)

(** fgets(line, size, stdin): up to size - 1 characters, through a newline. *)
Fixpoint fgets (size : nat) (s : list Z) : list Z :=
  match size, s with
  | S (S k), c :: s => c :: (if c =? 10 then [] else fgets (S k) s)
  | _, _ => []
  end.

(** [line[strcspn(line, "\n")] = 0], as the string that is left. *)
Fixpoint strip_newline (s : list Z) : list Z :=
  match s with
  | c :: s => if c =? 10 then [] else c :: strip_newline s
  | [] => []
  end.

(** What a line asks for: nothing, an error message, or a pipeline. *)
Inductive action : Type :=
| Skip
| ParseError (m : list Z)
| Pipeline (cmds : list Cmd) (background : bool).

Definition line_action (line : list Z) : action :=
  let line := strip_newline (c_string line) in
  let p := drop (span_len isspace line) line in
  match p with
  | [] => Skip
  | c :: _ =>
      if c =? 35 then Skip else
      let '(toks, buf) := tokenize p (MAX_ARGS * MAX_CMDS + 1) in
      match toks with
      | [] => Skip
      | _ =>
          match parse_pipeline (string_at buf <$> toks) with
          | inl m => ParseError m
          | inr ([], _) => Skip
          | inr (cmds, background) => Pipeline cmds background
          end
      end
  end.

Section main.
Context {host : ShellHost}.

(** What each line did, and the exit status; reading a line takes at least one character. *)
Fixpoint main_loop (fuel : nat) (input : list Z) (t : fds) (last_status : Z) : list (action * option result) * Z :=
  match fuel with
  | O => ([], last_status)
  | S fuel =>
      let line := fgets MAX_LINE input in
      match line with
      | [] => ([], last_status)
      | _ =>
          let rest := drop (length line) input in
          let a := line_action line in
          match a with
          | Pipeline cmds background =>
              let r := run_pipeline cmds background t in
              match r with
              | ShellExit code => ([(a, Some r)], code)
              | Returns st _ _ t =>
                  let '(l, final) := main_loop fuel rest t st in ((a, Some r) :: l, final)
              end
          | _ => let '(l, final) := main_loop fuel rest t last_status in ((a, None) :: l, final)
          end
      end
  end.

Definition main (input : list Z) (t : fds) : list (action * option result) * Z := main_loop (S (length input)) input t 0.

End main.

(** ** PATH *)

(** strrchr(self, '/'): what is before the last slash. *)
Definition dirname (self : list Z) : option (list Z) :=
  match list_find (fun c => c = 47) (rev self) with
  | Some (k, _) => Some (take (length self - S k) self)
  | None => None
  end.

(** The new value of PATH, [None] when it is left alone; [self] is what readlink() gives. *)
Definition prepend_bin_dir_to_path (self : option (list Z)) (old_path : option (list Z)) : option (list Z) :=
  match self with
  | None => None
  | Some self =>
      match dirname (take 4095 self) with
      | None => None
      | Some dir =>
          let new := match old_path with Some old => dir ++ [58] ++ old | None => dir end in
          Some (take (Z.to_nat 8191) new)
      end
  end.

End HostShell.
