(* ===== verification/HostShellProofs.v ===== *)
(** * custom_shell: tokens, grammar and wiring *)

From S2P Require Import Prelude Machine CString Ulib Print Sh HostText HostTextProofs HostShell.

Module HostShellProofs.
Import CString HostShell.

(** ** tokenize() *)

(** Words after a word and before one. *)
Lemma words_space c s : isspace c = true -> words_of (c :: s) = words_of s.
Proof. intros H. unfold words_of. cbn [words_from]. by rewrite H. Qed.

Lemma words_skip sp s : Forall (fun c => isspace c = true) sp -> words_of (sp ++ s) = words_of s.
Proof. induction 1 as [|c sp Hc _ IH]; [done|]. cbn [app]. by rewrite words_space. Qed.

Lemma words_run cur w s : Forall (fun c => isspace c = false) w -> words_from cur (w ++ s) = words_from (cur ++ w) s.
Proof.
  intros H. revert cur. induction H as [|c w Hc _ IH]; intros cur; [by rewrite app_nil_r|]. cbn [app words_from]. rewrite Hc, IH.
  by rewrite <- app_assoc.
Qed.

Lemma words_word w s :
  w <> [] -> Forall (fun c => isspace c = false) w -> (forall c, head s = Some c -> isspace c = true) -> words_of (w ++ s) = w :: words_of (tail s).
Proof.
  intros Hw Hf Hs. unfold words_of. rewrite words_run by done. cbn [app]. destruct w as [|c w]; [done|]. destruct s as [|d s]; [done|].
  cbn [words_from tail]. by rewrite (Hs d).
Qed.

(** What [span_len] passes. *)
Lemma span_len_spec f s rest :
  (0 ∉ s) -> (forall c, head rest = Some c -> c = 0) ->
  exists a b, s = a ++ b /\ span_len f (s ++ rest) = length a /\ Forall (fun c => f c = true) a /\ (forall c, head b = Some c -> f c = false).
Proof.
  intros Hs Hr. induction s as [|c s IH].
  - exists [], []. split_and!; [done| |constructor|done]. destruct rest as [|d rest]; [done|]. cbn. by rewrite (Hr d).
  - apply not_elem_of_cons in Hs as [Hc Hs]. cbn [span_len app]. destruct (Z.eqb_spec c 0); [done|]. cbn [negb andb]. destruct (f c) eqn:Ef.
    + destruct (IH Hs) as (a & b & -> & E & Fa & Hb). exists (c :: a), b. split_and!; [done|by rewrite E|by constructor|done].
    + exists [], (c :: s). split_and!; [done|done|constructor|]. by intros ? [= <-].
Qed.

Lemma string_at_app pre w rest : (0 ∉ w) -> string_at (pre ++ w ++ 0 :: rest) (length pre) = w.
Proof. intros H. unfold string_at. rewrite drop_app_length. by apply c_string_stop. Qed.

(** The loop at the beginning of [s], with [pre] before it. *)
Lemma tokenize_loop_words fuel pre s n max :
  (0 ∉ s) -> (length s < fuel)%nat ->
  exists toks rest, tokenize_loop fuel (pre ++ s ++ [0]) (length pre) n max = (toks, pre ++ rest) /\
    (string_at (pre ++ rest) <$> toks) = take (max - 1 - n) (words_of s).
Proof.
  revert pre s n. induction fuel as [|fuel IH]; intros pre s n Hs Hf; [lia|]. cbn [tokenize_loop].
  destruct s as [|c s].
  { cbn [app]. rewrite nth_middle. cbn [Z.eqb]. exists [], [0]. split; [done|]. unfold words_of. cbn. by destruct (max - 1 - n)%nat. }
  assert (Hc : c <> 0) by set_solver. cbn [app]. rewrite nth_middle. destruct (Z.eqb_spec c 0); [done|]. rewrite drop_app_length.
  change (c :: s ++ [0]) with ((c :: s) ++ [0]). destruct (span_len_spec isspace (c :: s) [0] Hs) as (sp & b & E & -> & Fsp & Hb); [by intros ? [= <-]|].
  rewrite E in *. rewrite words_skip by done. rewrite <- app_assoc, (app_assoc pre sp), <- length_app. destruct b as [|d b].
  { cbn [app]. rewrite nth_middle. cbn [Z.eqb]. exists [], (sp ++ [0]). rewrite (app_assoc pre). split; [done|]. unfold words_of. cbn. by destruct (max - 1 - n)%nat. }
  assert (Hd : d <> 0) by set_solver. cbn [app]. rewrite nth_middle. destruct (Z.eqb_spec d 0); [done|].
  destruct (Nat.leb_spec (max - 1) n) as [Hm|Hm].
  { exists [], (sp ++ (d :: b) ++ [0]). rewrite (app_assoc pre). split; [done|]. by replace (max - 1 - n)%nat with 0%nat by lia. }
  rewrite drop_app_length. change (d :: b ++ [0]) with ((d :: b) ++ [0]).
  destruct (span_len_spec (fun c => negb (isspace c)) (d :: b) [0]) as (w & b2 & E2 & -> & Fw & Hb2); [set_solver|by intros ? [= <-]|].
  assert (Hw : w <> []).
  { intros ->. cbn in E2. subst b2. specialize (Hb2 d eq_refl). specialize (Hb d eq_refl). by rewrite Hb in Hb2. }
  rewrite E2 in *. assert (Hw0 : 0 ∉ w) by set_solver.
  assert (Fw' : Forall (fun c => isspace c = false) w) by (eapply Forall_impl; [exact Fw|]; intros x; cbn; by destruct (isspace x)).
  rewrite words_word; [|done|done|intros x Hx; specialize (Hb2 x Hx); by destruct (isspace x)].
  replace (max - 1 - n)%nat with (S (max - 1 - S n)) by lia. cbn [take].
  rewrite <- (app_assoc w b2), (app_assoc (pre ++ sp) w), <- length_app. destruct b2 as [|e b2].
  - cbn [app]. rewrite nth_middle. cbn [Z.eqb negb]. exists [length (pre ++ sp)], (sp ++ w ++ [0]). rewrite !app_assoc. split; [done|].
    cbn [fmap list_fmap tail words_of words_from]. rewrite <- !app_assoc, (app_assoc pre), string_at_app by done. by rewrite take_nil.
  - assert (He : e <> 0) by set_solver. cbn [app tail]. rewrite nth_middle. destruct (Z.eqb_spec e 0); [done|]. cbn [negb].
    rewrite insert_app_r_alt, Nat.sub_diag by lia. cbn [list_insert].
    change (<[0%nat := 0]> (e :: b2 ++ [0])) with (0 :: b2 ++ [0]). rewrite cons_middle, app_assoc.
    replace (S (length ((pre ++ sp) ++ w))) with (length (((pre ++ sp) ++ w) ++ [0])) by (rewrite (length_app _ [0]); cbn; lia).
    destruct (IH (((pre ++ sp) ++ w) ++ [0]) b2 (S n)) as (toks & rest & -> & Et); [set_solver| |].
    { rewrite !length_app in Hf. cbn in Hf. lia. }
    exists (length (pre ++ sp) :: toks), (sp ++ w ++ 0 :: rest).
    assert (Ew : pre ++ sp ++ w ++ 0 :: rest = (((pre ++ sp) ++ w) ++ [0]) ++ rest) by (by rewrite <- !app_assoc).
    rewrite Ew. split; [done|]. cbn [fmap list_fmap]. rewrite Et. f_equal. rewrite <- Ew, app_assoc. by apply string_at_app.
Qed.

(** tokenize() cuts a line into its words, the maximal runs of characters that are not
    spaces, in the buffer itself: the strings at the pointers it returns are the first [max - 1]
    words of the line. *)
Theorem tokenize_words line max :
  (0 ∉ line) -> let '(toks, buf) := tokenize line max in (string_at buf <$> toks) = take (max - 1) (words_of line).
Proof.
  intros H. unfold tokenize. destruct (tokenize_loop_words (S (length line)) [] line 0 max H ltac:(lia)) as (toks & rest & E & Et).
  cbn [app length] in E. rewrite E. cbn [app] in Et. by rewrite Nat.sub_0_r in Et.
Qed.

(** ** The grammar of command lines *)

Inductive item : Type :=
| Word (w : list Z)
| RIn (f : list Z)
| ROut (f : list Z) (append : bool).

(** A token that is an argument. *)
Definition plain (w : list Z) : Prop := w <> bar /\ w <> lt /\ w <> gt /\ w <> gtgt.

(** [parses toks seg segs bg]: the tokens are the rest [seg] of a command, and then the commands
    [segs]; [bg] is whether an ampersand ends the line. *)
Inductive parses : list (list Z) -> list item -> list (list item) -> bool -> Prop :=
| parses_end : parses [] [] [] false
| parses_amp : parses [amp] [] [] true
| parses_bar toks seg segs bg : parses toks seg segs bg -> parses (bar :: toks) [] (seg :: segs) bg
| parses_in f toks seg segs bg : parses toks seg segs bg -> parses (lt :: f :: toks) (RIn f :: seg) segs bg
| parses_out f toks seg segs bg : parses toks seg segs bg -> parses (gt :: f :: toks) (ROut f false :: seg) segs bg
| parses_append f toks seg segs bg : parses toks seg segs bg -> parses (gtgt :: f :: toks) (ROut f true :: seg) segs bg
| parses_word w toks seg segs bg :
    plain w -> (w = amp -> toks <> []) -> parses toks seg segs bg -> parses (w :: toks) (Word w :: seg) segs bg.

(** The arguments in order, and the last redirection of each kind. *)
Definition item_cmd (c : Cmd) (x : item) : Cmd :=
  match x with
  | Word w => MkCmd (argv c ++ [w]) (redir_in c) (redir_out c) (append_out c)
  | RIn f => MkCmd (argv c) (Some f) (redir_out c) (append_out c)
  | ROut f app => MkCmd (argv c) (redir_in c) (Some f) app
  end.

Definition build (seg : list item) : Cmd := foldl item_cmd empty_cmd seg.

Fixpoint nwords (seg : list item) : nat :=
  match seg with
  | [] => O
  | Word _ :: seg => S (nwords seg)
  | _ :: seg => nwords seg
  end.

(** The limits of the arrays. *)
Definition fits (seg : list item) : Prop := (nwords seg < MAX_ARGS)%nat.

(** One round of the loop, by the kind of token. *)
Lemma parse_bar rest don cur bg :
  parse_loop (bar :: rest) don cur bg =
  if (MAX_CMDS <=? length don + 1)%nat then inl (message "too many pipes") else parse_loop rest (don ++ [cur]) empty_cmd bg.
Proof. done. Qed.

Lemma parse_in f rest don cur bg :
  parse_loop (lt :: f :: rest) don cur bg = parse_loop rest don (item_cmd cur (RIn f)) bg.
Proof. done. Qed.

Lemma parse_out f rest don cur bg :
  parse_loop (gt :: f :: rest) don cur bg = parse_loop rest don (item_cmd cur (ROut f false)) bg.
Proof. done. Qed.

Lemma parse_append f rest don cur bg :
  parse_loop (gtgt :: f :: rest) don cur bg = parse_loop rest don (item_cmd cur (ROut f true)) bg.
Proof. done. Qed.

Lemma parse_word w rest don cur bg :
  plain w -> (w = amp -> rest <> []) ->
  parse_loop (w :: rest) don cur bg =
  if (MAX_ARGS - 1 <=? argc cur)%nat then inl (message "too many arguments") else parse_loop rest don (item_cmd cur (Word w)) bg.
Proof.
  intros (H1 & H2 & H3 & H4) Ha. cbn [parse_loop]. rewrite !bool_decide_false by done.
  replace (bool_decide (w = amp) && _) with false; [done|]. symmetry. case_bool_decide; [|done]. by destruct rest; [destruct Ha|].
Qed.

(** Every token is of one kind. *)
Inductive kind : list (list Z) -> Prop :=
| kind_bar rest : kind (bar :: rest)
| kind_in f rest : kind (lt :: f :: rest)
| kind_out f rest : kind (gt :: f :: rest)
| kind_append f rest : kind (gtgt :: f :: rest)
| kind_amp : kind [amp]
| kind_word w rest : plain w -> (w = amp -> rest <> []) -> kind (w :: rest)
| kind_dangling t : t = lt \/ t = gt \/ t = gtgt -> kind [t].

Lemma kind_of t rest : kind (t :: rest).
Proof.
  destruct (decide (t = bar)) as [->|H1]; [constructor|].
  destruct (decide (t = lt)) as [->|H2]; [destruct rest; [apply kind_dangling; auto|constructor]|].
  destruct (decide (t = gt)) as [->|H3]; [destruct rest; [apply kind_dangling; auto|constructor]|].
  destruct (decide (t = gtgt)) as [->|H4]; [destruct rest; [apply kind_dangling; auto|constructor]|].
  destruct (decide (t = amp)) as [->|H5]; [|by apply kind_word].
  destruct rest; [constructor|by apply kind_word].
Qed.

Definition room (don : list Cmd) (cur : Cmd) : Prop := (argc cur < MAX_ARGS)%nat /\ (length don < MAX_CMDS)%nat.

Lemma argc_item c x : argc (item_cmd c x) = (argc c + nwords [x])%nat.
Proof. destruct x; unfold argc; cbn; rewrite ?length_app; cbn; lia. Qed.

Lemma nwords_cons x seg : nwords (x :: seg) = (nwords [x] + nwords seg)%nat.
Proof. by destruct x. Qed.

Lemma parse_complete toks seg segs bg :
  parses toks seg segs bg -> forall don cur,
  (argc cur + nwords seg < MAX_ARGS)%nat -> Forall fits segs -> (length don + S (length segs) <= MAX_CMDS)%nat ->
  parse_loop toks don cur false = inr (don ++ foldl item_cmd cur seg :: (build <$> segs), bg).
Proof.
  assert (Hit : forall x l cur, (argc cur + nwords (x :: l) < MAX_ARGS)%nat -> (argc (item_cmd cur x) + nwords l < MAX_ARGS)%nat).
  { intros x l cur. rewrite argc_item, nwords_cons. lia. }
  induction 1 as [| |toks seg segs bg _ IH|f toks seg segs bg _ IH|f toks seg segs bg _ IH|f toks seg segs bg _ IH|w toks seg segs bg Hp Ha _ IH];
    intros don cur Hc Hf Hd.
  - done.
  - done.
  - apply Forall_cons in Hf as [Hs Hf]. cbn [length] in Hd. rewrite parse_bar, (proj2 (Nat.leb_gt _ _)) by (cbn; lia).
    rewrite IH; [|exact Hs|done|rewrite length_app; cbn; lia]. by rewrite <- app_assoc.
  - rewrite parse_in. by apply IH; [apply Hit|..].
  - rewrite parse_out. by apply IH; [apply Hit|..].
  - rewrite parse_append. by apply IH; [apply Hit|..].
  - rewrite parse_word, (proj2 (Nat.leb_gt _ _)) by (done || (rewrite nwords_cons in Hc; cbn in Hc; lia)). by apply IH; [apply Hit|..].
Qed.

Lemma parse_sound n toks don cur cmds bg :
  (length toks <= n)%nat -> room don cur -> parse_loop toks don cur false = inr (cmds, bg) ->
  exists seg segs, parses toks seg segs bg /\ cmds = don ++ foldl item_cmd cur seg :: (build <$> segs) /\
    (argc cur + nwords seg < MAX_ARGS)%nat /\ Forall fits segs /\ (length don + S (length segs) <= MAX_CMDS)%nat.
Proof.
  revert toks don cur. induction n as [|n IH]; intros toks don cur Hn [Hc Hd].
  { destruct toks; [|cbn in Hn; lia]. intros [= <- <-]. exists [], []. split_and!; [constructor|done|cbn; lia|constructor|cbn; lia]. }
  assert (K : toks = [] \/ kind toks) by (destruct toks; [by left|right; apply kind_of]).
  destruct K as [->|K]; [intros [= <- <-]; exists [], []; split_and!; [constructor|done|cbn; lia|constructor|cbn; lia]|].
  assert (Hredir : forall x toks', (length toks' <= n)%nat -> nwords [x] = 0%nat -> (forall seg segs, parses toks' seg segs bg -> parses toks (x :: seg) segs bg) ->
    parse_loop toks' don (item_cmd cur x) false = inr (cmds, bg) ->
    exists seg segs, parses toks seg segs bg /\ cmds = don ++ foldl item_cmd cur seg :: (build <$> segs) /\
      (argc cur + nwords seg < MAX_ARGS)%nat /\ Forall fits segs /\ (length don + S (length segs) <= MAX_CMDS)%nat).
  { intros x toks' Hl Hw Hp E. destruct (IH toks' don (item_cmd cur x) Hl) as (seg & segs & P & -> & A & F & D); [split; [rewrite argc_item; lia|done]|done|].
    rewrite argc_item in A. exists (x :: seg), segs. rewrite nwords_cons. split_and!; [by apply Hp|done|lia|done|done]. }
  destruct K as [rest|f rest|f rest|f rest| |w rest Hp Ha|t Ht]; cbn [length] in Hn.
  - rewrite parse_bar. destruct (Nat.leb_spec MAX_CMDS (length don + 1)) as [|Hm]; [done|]. intros E.
    destruct (IH rest (don ++ [cur]) empty_cmd ltac:(lia)) as (seg & segs & P & -> & A & F & D); [split; [cbn; unfold MAX_ARGS; lia|rewrite length_app; cbn; lia]|done|].
    rewrite length_app in D. cbn [length] in D. exists [], (seg :: segs). split_and!; [by constructor|by rewrite <- app_assoc|cbn; lia|by constructor|cbn; lia].
  - rewrite parse_in. apply Hredir; [lia|done|]. by constructor.
  - rewrite parse_out. apply Hredir; [lia|done|]. by constructor.
  - rewrite parse_append. apply Hredir; [lia|done|]. by constructor.
  - intros [= <- <-]. exists [], []. split_and!; [constructor|done|cbn; lia|constructor|cbn; lia].
  - rewrite parse_word by done. destruct (Nat.leb_spec (MAX_ARGS - 1) (argc cur)) as [|Hm]; [done|]. intros E.
    destruct (IH rest don (item_cmd cur (Word w)) ltac:(lia)) as (seg & segs & P & -> & A & F & D); [split; [rewrite argc_item; cbn; lia|done]|done|].
    rewrite argc_item in A. exists (Word w :: seg), segs. rewrite nwords_cons. split_and!; [by constructor|done|lia|done|done].
  - by destruct Ht as [->|[->| ->]].
Qed.

(** The commands of a line are those of its parts, without the last part if that has no word. *)
Inductive commands : list (list item) -> list Cmd -> Prop :=
| commands_all parts last : (0 < nwords last)%nat -> commands (parts ++ [last]) (build <$> parts ++ [last])
| commands_drop parts last : nwords last = 0%nat -> commands (parts ++ [last]) (build <$> parts).

Lemma argc_build seg c : argc (foldl item_cmd c seg) = (argc c + nwords seg)%nat.
Proof. revert c. induction seg as [|x seg IH]; intros c; cbn [foldl]; [cbn; lia|]. rewrite IH, argc_item, (nwords_cons x seg). lia. Qed.

Lemma drop_empty_commands parts last :
  drop_empty (build <$> parts ++ [last]) = if decide (nwords last = 0%nat) then build <$> parts else build <$> parts ++ [last].
Proof.
  assert (A : argc (build last) = nwords last) by (apply (argc_build last empty_cmd)).
  unfold drop_empty. rewrite fmap_app. cbn [fmap list_fmap]. rewrite last_snoc, removelast_last, A.
  case_decide as E; [by rewrite E|by rewrite (proj2 (Nat.eqb_neq _ _) E)].
Qed.

Lemma commands_iff part parts cmds : commands (part :: parts) cmds <-> cmds = drop_empty (build <$> part :: parts).
Proof.
  destruct (exists_last (l := part :: parts) ltac:(done)) as (init & last & E). rewrite E, drop_empty_commands. split.
  - inversion 1 as [? ? Hw Hp Hc|? ? Hw Hp Hc]; subst; apply app_inj_tail in Hp as [-> ->]; case_decide; done || lia.
  - intros ->. case_decide; constructor; lia.
Qed.

(** C29: parse_pipeline() accepts exactly the command lines of the grammar whose commands have
    at most 127 arguments and that have at most 32 commands, so that no array overflows, and
    gives the commands of the parts between the pipe symbols, in order: the arguments in order
    and the last redirection of each direction.  The last part, and only that, gives no command
    when it has no word: after a trailing pipe symbol, but also in a line like a | > f, whose
    redirection is lost. *)
Theorem parse_pipeline_decides toks cmds bg :
  parse_pipeline toks = inr (cmds, bg) <->
  exists part parts, parses toks part parts bg /\ Forall fits (part :: parts) /\ (length (part :: parts) <= MAX_CMDS)%nat /\
    commands (part :: parts) cmds.
Proof.
  setoid_rewrite commands_iff. unfold parse_pipeline. split.
  - intros H. destruct (parse_loop toks [] empty_cmd false) as [|[cs b]] eqn:E; [done|]. injection H as <- <-.
    apply (parse_sound (length toks)) in E as (seg & segs & P & -> & A & F & D); [|lia|split; cbn; unfold MAX_ARGS, MAX_CMDS; lia].
    exists seg, segs. split_and!; [done|by constructor|done|done].
  - intros (seg & segs & P & [A F]%Forall_cons & D & ->). by rewrite (parse_complete toks seg segs bg P [] empty_cmd).
Qed.

(** ** The wiring of a pipeline *)

Section run.
Context {host : ShellHost}.

(** Three open files and [k] free descriptors. *)
Definition std (i o e : openfile) (k : nat) : fds := Some i :: Some o :: Some e :: replicate k None.

Lemma lowest_free_full {A} (l : list A) r : Sh.lowest_free ((Some <$> l) ++ None :: r) = Some (length l).
Proof. induction l as [|x l IH]; [done|]. cbn. by rewrite IH. Qed.

Lemma install_full {A} (l : list A) f r : Sh.install f ((Some <$> l) ++ None :: r) = (Z.of_nat (length l), (Some <$> l ++ [f]) ++ r).
Proof.
  unfold Sh.install. rewrite lowest_free_full. f_equal. rewrite insert_app_r_alt by (by rewrite length_fmap). rewrite length_fmap, Nat.sub_diag.
  cbn. rewrite fmap_app, <- app_assoc. done.
Qed.

(** The ends of the pipes [i], ..., [i + n - 1], and their descriptors from [b] on. *)
Definition ends (i n : nat) : list openfile := concat ((fun j => [PipeRead j; PipeWrite j]) <$> seq i n).
Definition pipe_fds (b n : nat) : list (Z * Z) := (fun j => (Z.of_nat (b + 2 * j), Z.of_nat (b + 2 * j + 1))) <$> seq 0 n.

Lemma length_ends i n : length (ends i n) = (2 * n)%nat.
Proof. unfold ends. revert i. induction n as [|n IH]; intros i; [done|]. cbn. rewrite IH. lia. Qed.

Lemma pipe_fds_S b n : pipe_fds b (S n) = (Z.of_nat b, Z.of_nat (S b)) :: pipe_fds (S (S b)) n.
Proof.
  unfold pipe_fds. cbn [seq fmap list_fmap]. f_equal; [f_equal; lia|]. rewrite <- fmap_S_seq, <- list_fmap_compose. apply list_fmap_ext. intros i x _. cbn. f_equal; lia.
Qed.

Lemma make_pipes_run i n base k :
  (forall j, sh_pipe j = true) ->
  make_pipes i n ((Some <$> base) ++ replicate (2 * n + k) None) = inr (pipe_fds (length base) n, (Some <$> base ++ ends i n) ++ replicate k None).
Proof.
  intros Hp. revert i base. induction n as [|n IH]; intros i base.
  - cbn. by rewrite app_nil_r.
  - cbn [make_pipes]. rewrite Hp. replace (2 * S n + k)%nat with (S (S (2 * n + k))) by lia. cbn [replicate]. rewrite !install_full.
    rewrite !(proj2 (Z.ltb_ge (Z.of_nat _) 0)) by lia. cbn [orb]. rewrite IH, pipe_fds_S.
    replace (length ((base ++ [PipeRead i]) ++ [PipeWrite i])) with (S (S (length base))) by (rewrite !length_app; cbn; lia).
    replace (length (base ++ [PipeRead i])) with (S (length base)) by (rewrite length_app; cbn; lia). do 2 f_equal.
    unfold ends. cbn [seq fmap list_fmap concat]. by rewrite <- (app_assoc base), <- (app_assoc base).
Qed.

Lemma close_app {A} (x : list (option A)) y r : Sh.close (Z.of_nat (length x)) (x ++ y :: r) = x ++ None :: r.
Proof. unfold Sh.close. rewrite Nat2Z.id, insert_app_r_alt, Nat.sub_diag by lia. done. Qed.

Lemma close_pipes_run x i n k :
  close_pipes (pipe_fds (length x) n) (x ++ (Some <$> ends i n) ++ replicate k None) = x ++ replicate (2 * n + k) None.
Proof.
  revert x i. induction n as [|n IH]; intros x i; [done|]. rewrite pipe_fds_S. unfold close_pipes. cbn [foldl fst snd].
  unfold ends. cbn [seq fmap list_fmap concat app]. rewrite close_app, cons_middle, app_assoc.
  replace (S (length x)) with (length (x ++ [None])) by (rewrite length_app; cbn; lia). rewrite close_app, cons_middle, app_assoc.
  specialize (IH ((x ++ [None]) ++ [None]) (S i)). replace (length ((x ++ [None]) ++ [None])) with (S (S (length x))) in IH by (rewrite !length_app; cbn; lia).
  fold (ends (S i) n).
  match goal with |- foldl ?f ?t (pipe_fds ?b n) = _ => change (foldl f t (pipe_fds b n)) with (close_pipes (pipe_fds b n) t) end.
  replace (S (length (x ++ [None]))) with (S (S (length x))) by (rewrite length_app; cbn; lia). rewrite IH, <- !app_assoc.
  replace (2 * S n + k)%nat with (S (S (2 * n + k))) by lia. done.
Qed.

(** The table of the shell between its pipes and its forks. *)
Definition piped (i o e : openfile) (m k : nat) : fds := Some i :: Some o :: Some e :: (Some <$> ends 0 m) ++ replicate k None.

Lemma ends_lookup i n j : (j < n)%nat -> ends i n !! (2 * j)%nat = Some (PipeRead (i + j)) /\ ends i n !! (2 * j + 1)%nat = Some (PipeWrite (i + j)).
Proof.
  revert i j. induction n as [|n IH]; intros i j Hj; [lia|]. unfold ends. cbn [seq fmap list_fmap concat app]. fold (ends (S i) n).
  destruct j as [|j]; [by rewrite Nat.add_0_r|]. replace (2 * S j)%nat with (S (S (2 * j))) by lia. destruct (IH (S i) j ltac:(lia)) as [H1 H2].
  replace (i + S j)%nat with (S i + j)%nat by lia. cbn [Nat.add lookup list_lookup]. done.
Qed.

Lemma piped_skip i o e m k j : piped i o e m k !! (3 + j)%nat = ((Some <$> ends 0 m) ++ replicate k None) !! j.
Proof. done. Qed.

Lemma piped_fd i o e m k j :
  (j < m)%nat ->
  piped i o e m k !! Z.to_nat (nth j (pipe_fds 3 m) (0, 0)).1 = Some (Some (PipeRead j)) /\
  piped i o e m k !! Z.to_nat (nth j (pipe_fds 3 m) (0, 0)).2 = Some (Some (PipeWrite j)).
Proof.
  intros Hj. assert (Hn : nth j (pipe_fds 3 m) (0, 0) = (Z.of_nat (3 + 2 * j), Z.of_nat (3 + 2 * j + 1))).
  { apply nth_lookup_Some with (d := (0, 0)). unfold pipe_fds. rewrite list_lookup_fmap, lookup_seq_lt by done. done. }
  rewrite Hn. cbn [fst snd]. rewrite !Nat2Z.id. destruct (ends_lookup 0 m j Hj) as [H1 H2].
  replace (3 + 2 * j + 1)%nat with (3 + (2 * j + 1))%nat by lia.
  rewrite !piped_skip.
  assert (length (Some <$> ends 0 m) = (2 * m)%nat) as Hl by (by rewrite length_fmap, length_ends).
  split; (rewrite lookup_app_l by lia); rewrite list_lookup_fmap; [rewrite H1|rewrite H2]; done.
Qed.

Lemma dup2_pipes i o e m k j :
  (j < m)%nat ->
  dup2 (nth j (pipe_fds 3 m) (0, 0)).1 0 (piped i o e m k) = piped (PipeRead j) o e m k /\
  dup2 (nth j (pipe_fds 3 m) (0, 0)).2 1 (piped i o e m k) = piped i (PipeWrite j) e m k.
Proof. intros Hj. destruct (piped_fd i o e m k j Hj) as [H1 H2]. unfold dup2. by rewrite H1, H2. Qed.

Lemma close_piped i o e m k : close_pipes (pipe_fds 3 m) (piped i o e m k) = std i o e (2 * m + k).
Proof. exact (close_pipes_run [Some i; Some o; Some e] 0 m k). Qed.

Lemma redirect_in path flags i o e k :
  redirect path flags 0 (std i o e (S k)) = if sh_open path flags then inr (std (File path flags) o e (S k)) else inl (perror path).
Proof. unfold redirect. by destruct (sh_open path flags). Qed.

Lemma redirect_out path flags i o e k :
  redirect path flags 1 (std i o e (S k)) = if sh_open path flags then inr (std i (File path flags) e (S k)) else inl (perror path).
Proof. unfold redirect. by destruct (sh_open path flags). Qed.

(** What the command line asks of one of [n] commands: the files that are its input and output;
    a file that cannot be opened ends it. *)
Definition out_flags (c : Cmd) : Z := Z.lor (Z.lor O_WRONLY O_CREAT) (if append_out c then O_APPEND else O_TRUNC).
Definition input_of (si : openfile) (i : nat) (c : Cmd) : openfile :=
  match redir_in c with Some f => File f O_RDONLY | None => if (0 <? i)%nat then PipeRead (i - 1) else si end.
Definition output_of (so : openfile) (n i : nat) (c : Cmd) : openfile :=
  match redir_out c with Some f => File f (out_flags c) | None => if (i <? n - 1)%nat then PipeWrite i else so end.

Definition wired (si so se : openfile) (n k i : nat) (c : Cmd) : child :=
  if default true ((fun f => sh_open f O_RDONLY) <$> redir_in c) then
    if default true ((fun f => sh_open f (out_flags c)) <$> redir_out c) then
      match argv c with
      | [] => Exits [] 0
      | a0 :: _ =>
          match sh_exec a0 with
          | None => Runs (argv c) (std (input_of si i c) (output_of so n i c) se k)
          | Some e => Exits [Err (chars "custom_shell: " ++ a0 ++ chars ": " ++ e ++ [10])] 127
          end
      end
    else Exits [perror (default [] (redir_out c))] 1
  else Exits [perror (default [] (redir_in c))] 1.

Lemma run_child_wired cmds i c si so se k :
  cmds !! i = Some c ->
  let m := (length cmds - 1)%nat in
  run_child cmds (pipe_fds 3 m) i (piped si so se m (S k)) = wired si so se (length cmds) (2 * m + S k) i c.
Proof.
  intros Hc m. apply lookup_lt_Some in Hc as Hi. unfold run_child. rewrite (nth_lookup_Some _ _ _ _ Hc). fold m.
  set (a := if (0 <? i)%nat then PipeRead (i - 1) else si). set (b := if (i <? m)%nat then PipeWrite i else so).
  replace (if (0 <? i)%nat then dup2 (nth (i - 1) (pipe_fds 3 m) (0, 0)).1 0 (piped si so se m (S k)) else piped si so se m (S k)) with (piped a so se m (S k)).
  2: { unfold a. destruct (Nat.ltb_spec 0 i); [|done]. symmetry. apply dup2_pipes. unfold m. lia. }
  replace (if (i <? m)%nat then dup2 (nth i (pipe_fds 3 m) (0, 0)).2 1 (piped a so se m (S k)) else piped a so se m (S k)) with (piped a b se m (S k)).
  2: { unfold b. destruct (Nat.ltb_spec i m); [|done]. symmetry. by apply dup2_pipes. }
  rewrite close_piped. replace (2 * m + S k)%nat with (S (2 * m + k)) by lia. unfold wired, apply_redirections, input_of, output_of. fold m a b.
  destruct (redir_in c) as [fi|], (redir_out c) as [fo|]; cbn [fmap option_fmap option_map default id]; rewrite ?redirect_in.
  - destruct (sh_open fi O_RDONLY); [|done]. rewrite redirect_out. fold (out_flags c). by destruct (sh_open fo (out_flags c)).
  - by destruct (sh_open fi O_RDONLY).
  - rewrite redirect_out. fold (out_flags c). by destruct (sh_open fo (out_flags c)).
  - done.
Qed.

Lemma fork_loop_run cmds pipes t f i n :
  (forall j, sh_fork j = true) -> (forall j, (i <= j < i + n)%nat -> run_child cmds pipes j t = f j) ->
  fork_loop cmds pipes t i n = (f <$> seq i n, true).
Proof.
  intros Hf. revert i. induction n as [|n IH]; intros i Hr; [done|]. cbn [fork_loop]. rewrite Hf, IH by (intros; apply Hr; lia).
  rewrite Hr by lia. done.
Qed.

(** The line is not a single built-in command. *)
Definition external (cmds : list Cmd) : Prop :=
  match cmds with [] => False | [c] => run_builtin c = None | _ => True end.

(** C28: run_pipeline() wires a pipeline as the line says.  Provided pipe() and fork() succeed
    and there are descriptors left, it starts one child for each command, in order, whose input
    is the file named after the less-than sign or else the pipe from the command before, whose
    output is the file named last or else the pipe to the command behind, which keeps standard
    error and no other descriptor, and which does not run at all when a file cannot be opened;
    the shell's own descriptors are in the end what they were, and it waits for the status of
    the last command unless the line ends with an ampersand. *)
Theorem pipeline_wires cmds bg si so se k :
  external cmds -> (forall j, sh_pipe j = true) -> (forall j, sh_fork j = true) -> (2 * length cmds - 1 <= k)%nat ->
  let n := length cmds in
  run_pipeline cmds bg (std si so se k) =
  Returns (if bg then 0 else wait_status (sh_wait (n - 1)))
    (if bg then [Out (chars "[bg] pid " ++ show (sh_pid (n - 1)) ++ [10])] else [])
    (imap (wired si so se n k) cmds) (std si so se k).
Proof.
  intros He Hp Hf Hk n. assert (Hn : (1 <= n)%nat) by (unfold n; destruct cmds; [done|cbn; lia]).
  assert (E : run_pipeline cmds bg (std si so se k) =
    match make_pipes 0 (n - 1) (std si so se k) with
    | inl t => Returns 1 [perror (chars "pipe")] [] t
    | inr (pipes, t) =>
        let '(cs, ok) := fork_loop cmds pipes t 0 n in
        if negb ok then Returns 1 [perror (chars "fork")] cs t else
        let t := close_pipes pipes t in
        if negb bg then Returns (wait_status (sh_wait (n - 1))) [] cs t
        else Returns 0 [Out (chars "[bg] pid " ++ show (sh_pid (n - 1)) ++ [10])] cs t
    end).
  { unfold run_pipeline. destruct cmds as [|c [|c' cmds]]; [done| |done]. cbn [external] in He. by rewrite He. }
  rewrite E. clear E. set (m := (n - 1)%nat). fold n in Hk. assert (Hm : k = (2 * m + S (k - 2 * m - 1))%nat) by lia. set (k' := (k - 2 * m - 1)%nat) in *.
  rewrite Hm. change (std si so se (2 * m + S k')) with ((Some <$> [si; so; se]) ++ replicate (2 * m + S k') None).
  rewrite (make_pipes_run 0 m [si; so; se] (S k') Hp). change ((Some <$> [si; so; se] ++ ends 0 m) ++ replicate (S k') None) with (piped si so se m (S k')).
  change (length [si; so; se]) with 3%nat.
  rewrite (fork_loop_run cmds _ _ (fun j => wired si so se n (2 * m + S k') j (nth j cmds empty_cmd)) 0 n Hf).
  2: { intros j Hj. apply run_child_wired. destruct (lookup_lt_is_Some_2 cmds j) as [c Hc]; [fold n; lia|]. by rewrite Hc, (nth_lookup_Some _ _ _ _ Hc). }
  cbn [negb]. rewrite close_piped. replace ((fun j => wired si so se n (2 * m + S k') j (nth j cmds empty_cmd)) <$> seq 0 n) with (imap (wired si so se n (2 * m + S k')) cmds).
  { by destruct bg. }
  apply list_eq. intros j. rewrite list_lookup_imap, list_lookup_fmap. destruct (cmds !! j) as [c|] eqn:Ec.
  - rewrite lookup_seq_lt by (apply lookup_lt_Some in Ec; done). cbn. by rewrite (nth_lookup_Some _ _ _ _ Ec).
  - apply lookup_ge_None in Ec. rewrite lookup_seq_ge by done. done.
Qed.

End run.

(** A host on which everything succeeds. *)
#[local] Instance demo_host : ShellHost := {|
  sh_chdir := fun _ => None; sh_home := None; sh_getcwd := inr [47]; sh_open := fun _ _ => true; sh_pipe := fun _ => true; sh_fork := fun _ => true;
  sh_exec := fun _ => None; sh_error := fun _ => []; sh_wait := fun _ => 0; sh_pid := fun i => Z.of_nat i + 100 |}.

(** [a < f | b >> g &] *)
Definition demo_cmds : list Cmd := [MkCmd [chars "a"] (Some (chars "f")) None false; MkCmd [chars "b"] None (Some (chars "g")) true].

Lemma pipeline_wires_witness :
  run_pipeline demo_cmds true (std (Std 0) (Std 1) (Std 2) 5) =
  Returns 0 [Out (chars "[bg] pid 101" ++ [10])]
    [Runs [chars "a"] (std (File (chars "f") 0) (PipeWrite 0) (Std 2) 5); Runs [chars "b"] (std (PipeRead 0) (File (chars "g") 1089) (Std 2) 5)]
    (std (Std 0) (Std 1) (Std 2) 5).
Proof. exact (pipeline_wires demo_cmds true (Std 0) (Std 1) (Std 2) 5 Logic.I (fun _ => eq_refl) (fun _ => eq_refl) ltac:(cbn; lia)). Defined.

End HostShellProofs.
