(* ===== verification/HostFiles.v ===== *)
(** * Project 2: custom_cp, custom_mv, custom_rm and custom_ls

    The host's file system is a parameter, [HostFs]: its state, the system calls the programs
    make, and what POSIX says of them as laws.  [h_data] is the contents of a file, named by
    device and inode number, which the programs see only through read() and write(); it is
    meaningful for the files of [h_regular], the regular files, which keep what is written to
    them and which only the system calls below change. *)

From S2P Require Import Prelude Machine CString Ulib Print HostText.

Definition path : Type := list Z.
Definition fileid : Type := (Z * Z)%type.

Record stat_t : Type := Stat { st_id : fileid; st_dir : bool; st_mode : Z; st_nlink : Z; st_size : Z; st_mtime : Z }.

(** Why rename() failed. *)
Inductive rename_error : Type := EXDEV | OtherError.

Class HostFs := {
  h_state : Type;
  h_stat : path -> h_state -> option stat_t;
  h_lstat : path -> h_state -> option stat_t;
  h_access : path -> h_state -> bool;
  h_open_read : path -> h_state -> option fileid;
  h_open_write : path -> Z -> h_state -> option (fileid * h_state);
  h_read : fileid -> nat -> nat -> h_state -> option (list Z);
  h_write : fileid -> nat -> list Z -> h_state -> option (nat * h_state);
  h_rename : path -> path -> h_state -> rename_error + h_state;
  h_unlink : path -> h_state -> option h_state;
  h_rmdir : path -> h_state -> option h_state;
  h_readdir : path -> h_state -> option (list path);
  h_error : path -> list Z;
  h_data : fileid -> h_state -> list Z;
  h_regular : fileid -> h_state -> bool
}.

Definition PATH_MAX : Z := 4096.
Definition BUF_SIZE : nat := 4096.

(** ** libgen.h and stdio.h *)

Fixpoint drop_slashes (s : list Z) : list Z :=
  match s with
  | c :: s' => if c =? 47 then drop_slashes s' else s
  | [] => []
  end.

Fixpoint take_name (s : list Z) : list Z :=
  match s with
  | c :: s' => if c =? 47 then [] else c :: take_name s'
  | [] => []
  end.

(** basename(): the last component, without slashes behind it. *)
Definition basename (p : path) : path :=
  match p with
  | [] => chars "."
  | _ =>
      match drop_slashes (rev p) with
      | [] => chars "/"
      | r => rev (take_name r)
      end
  end.

(** What fits in an array of [n] characters with its nul. *)
Definition fit (n : Z) (s : list Z) : list Z := take (Z.to_nat (n - 1)) s.

(** [snprintf(buf, n, "%s/%s", dir, name)] *)
Definition join (n : Z) (dir name : path) : path := fit n (dir ++ [47] ++ name).

Module Copy.

Section copy.
Context {fs : HostFs}.

(** The inner loop: [buf] is what is left to write, [off] where; [false] is a write error. *)
Fixpoint write_loop (fuel : nat) (dst : fileid) (off : nat) (buf : list Z) (s : h_state) : option (bool * nat * h_state) :=
  match buf with
  | [] => Some (true, off, s)
  | _ =>
      match fuel with
      | O => None
      | S fuel =>
          match h_write dst off buf s with
          | None => Some (false, off, s)
          | Some (w, s) => write_loop fuel dst (off + w) (drop w buf) s
          end
      end
  end.

(** How the copying ends. *)
Inductive copied : Type := CopyDone | ReadError | WriteError.

Fixpoint copy_loop (fuel : nat) (src dst : fileid) (roff woff : nat) (s : h_state) : option (copied * h_state) :=
  match fuel with
  | O => None
  | S fuel =>
      match h_read src roff BUF_SIZE s with
      | None => Some (ReadError, s)
      | Some [] => Some (CopyDone, s)
      | Some buf =>
          match write_loop BUF_SIZE dst woff buf s with
          | None => None
          | Some (false, _, s) => Some (WriteError, s)
          | Some (true, woff, s) => copy_loop fuel src dst (roff + length buf) woff s
          end
      end
  end.

(** Where the copy goes, and whether that is the source itself. *)
Definition dest_path (st_src : stat_t) (src dest : path) (s : h_state) : path * bool :=
  match h_stat dest s with
  | Some st_dest =>
      if st_dir st_dest then
        let p := join PATH_MAX dest (basename src) in
        match h_stat p s with
        | Some st => (p, bool_decide (st_id st_src = st_id st))
        | None => (p, false)
        end
      else (fit PATH_MAX dest, bool_decide (st_id st_src = st_id st_dest))
  | None => (fit PATH_MAX dest, false)
  end.

Definition same_file (prog : string) (src p : path) : output :=
  Err (chars prog ++ chars ": '" ++ src ++ chars "' and '" ++ p ++ chars "' are the same file" ++ [10]).

Definition overwrite (prog : string) (p : path) : output :=
  Out (chars prog ++ chars ": Overwrite '" ++ p ++ chars "'? (y/n): ").

Definition arrow (src p : path) : output := Out (src ++ chars " -> " ++ p ++ [10]).

(** [choice] is the character getchar() returns. *)
Definition agreed (choice : Z) : bool := (choice =? 121) || (choice =? 89).

(** custom_cp: [None] is a run that does not end. *)
Definition copy_file (fuel : nat) (src dest : path) (interactive verbose : bool) (choice : Z) (s : h_state) : option (list output * h_state) :=
  match h_stat src s with
  | None => Some ([warn "custom_cp" (chars "Source stat failed") (h_error src)], s)
  | Some st_src =>
      let '(p, same) := dest_path st_src src dest s in
      if (same : bool) then Some ([same_file "custom_cp" src p], s) else
      let ask := interactive && h_access p s in
      let asked := if ask then [overwrite "custom_cp" p] else [] in
      if ask && negb (agreed choice) then Some (asked, s) else
      match h_open_read src s with
      | None => Some (asked ++ [warn "custom_cp" (chars "Source open failed") (h_error src)], s)
      | Some srcfd =>
          match h_open_write p (st_mode st_src) s with
          | None => Some (asked ++ [warn "custom_cp" (chars "Destination open failed") (h_error p)], s)
          | Some (destfd, s) =>
              match copy_loop fuel srcfd destfd 0 0 s with
              | None => None
              | Some (WriteError, s) => Some (asked ++ [warn "custom_cp" (chars "Write error") (h_error p)], s)
              | Some (r, s) =>
                  Some (asked ++ (match r with ReadError => [warn "custom_cp" (chars "Read error") (h_error src)] | _ => [] end) ++
                        (if verbose then [arrow src p] else []), s)
              end
          end
      end
  end.

(** custom_mv: copying across file systems; [false] is the return value -1.  A call of unlink()
    that fails is not noticed. *)
Definition unlink (p : path) (s : h_state) : h_state := default s (h_unlink p s).

Definition copy_and_unlink (fuel : nat) (src dest : path) (s : h_state) : option (bool * h_state) :=
  match h_stat src s with
  | None => Some (false, s)
  | Some st_src =>
      match h_open_read src s with
      | None => Some (false, s)
      | Some srcfd =>
          match h_open_write dest (st_mode st_src) s with
          | None => Some (false, s)
          | Some (destfd, s) =>
              match copy_loop fuel srcfd destfd 0 0 s with
              | None => None
              | Some (CopyDone, s) => Some (true, unlink src s)
              | Some (_, s) => Some (false, unlink dest s)
              end
          end
      end
  end.

Definition move_file (fuel : nat) (src dest : path) (interactive verbose : bool) (choice : Z) (s : h_state) : option (list output * h_state) :=
  match h_stat src s with
  | None => Some ([warn "custom_mv" (chars "Source stat failed") (h_error src)], s)
  | Some st_src =>
      let '(p, same) := dest_path st_src src dest s in
      if (same : bool) then Some ([same_file "custom_mv" src p], s) else
      let ask := interactive && h_access p s in
      let asked := if ask then [overwrite "custom_mv" p] else [] in
      if ask && negb (agreed choice) then Some (asked, s) else
      let finished := asked ++ (if verbose then [arrow src p] else []) in
      match h_rename src p s with
      | inr s => Some (finished, s)
      | inl EXDEV =>
          match copy_and_unlink fuel src p s with
          | None => None
          | Some (true, s) => Some (finished, s)
          | Some (false, s) => Some (asked ++ [warn "custom_mv" (chars "Failed to move file across mounts") (h_error src)], s)
          end
      | inl OtherError => Some (asked ++ [warn "custom_mv" (chars "Rename error") (h_error src)], s)
      end
  end.

End copy.
End Copy.

Module Rm.

Section rm.
Context {fs : HostFs}.

Definition dots (name : path) : bool := bool_decide (name = chars ".") || bool_decide (name = chars "..").

(** Whether the return value is 0, what was printed, and the state; [None] is a run that does
    not end. *)
Definition removal : Type := option (bool * list output * h_state).

(** The loop over the entries of [p], with rm_path() as [rm]. *)
Fixpoint rm_entries (rm : path -> h_state -> removal) (p : path) (names : list path) (err : bool) (s : h_state) : removal :=
  match names with
  | [] => Some (err, [], s)
  | name :: names =>
      if dots name then rm_entries rm p names err s else
      match rm (join PATH_MAX p name) s with
      | None => None
      | Some (ok, o, s) =>
          match rm_entries rm p names (if ok then err else true) s with
          | None => None
          | Some (err, o', s) => Some (err, o ++ o', s)
          end
      end
  end.

Definition rm_dir_recursive (rm : path -> h_state -> removal) (p : path) (s : h_state) : removal :=
  match h_readdir p s with
  | None => Some (false, [warn "custom_rm" p (h_error p)], s)
  | Some names =>
      match rm_entries rm p names false s with
      | None => None
      | Some (err, o, s) =>
          match h_rmdir p s with
          | None => Some (false, o ++ [warn "custom_rm" p (h_error p)], s)
          | Some s => Some (negb err, o, s)
          end
      end
  end.

(** [fuel] bounds the depth of the recursion. *)
Fixpoint rm_path (fuel : nat) (flag_recursive : bool) (p : path) (s : h_state) : removal :=
  match h_lstat p s with
  | None => Some (false, [warn "custom_rm" p (h_error p)], s)
  | Some st =>
      if st_dir st then
        if negb flag_recursive then
          Some (false, [Err (chars "custom_rm: '" ++ p ++ chars "' is a directory (use -r)" ++ [10])], s)
        else
          match fuel with
          | O => None
          | S fuel => rm_dir_recursive (rm_path fuel flag_recursive) p s
          end
      else
        match h_unlink p s with
        | None => Some (false, [warn "custom_rm" p (h_error p)], s)
        | Some s => Some (true, [Out (chars "Deleted: " ++ p ++ [10])], s)
        end
  end.

(** The options: [inr c] is an unknown one. *)
Fixpoint parse_letters (r : bool) (a : list Z) : bool + Z :=
  match a with
  | [] => inl r
  | c :: a => if (c =? 114) || (c =? 82) then parse_letters true a else inr c
  end.

Fixpoint parse_flags (r : bool) (args : list path) : (bool * list path) + Z :=
  match args with
  | a :: rest =>
      if is_option a then
        match parse_letters r (tl a) with
        | inl r => parse_flags r rest
        | inr c => inr c
        end
      else inl (r, args)
  | [] => inl (r, [])
  end.

Fixpoint rm_all (fuel : nat) (r : bool) (files : list path) (ret : Z) (s : h_state) : option (Z * list output * h_state) :=
  match files with
  | [] => Some (ret, [], s)
  | p :: files =>
      match rm_path fuel r p s with
      | None => None
      | Some (ok, o, s) =>
          match rm_all fuel r files (if ok then ret else 1) s with
          | None => None
          | Some (ret, o', s) => Some (ret, o ++ o', s)
          end
      end
  end.

Definition main (fuel : nat) (args : list path) (s : h_state) : option (Z * list output * h_state) :=
  match parse_flags false args with
  | inr c => Some (1, [Err (chars "custom_rm: unknown option '-" ++ [c] ++ chars "'" ++ [10])], s)
  | inl (_, []) => Some (1, [Err (chars "Usage: custom_rm [-r] file ..." ++ [10])], s)
  | inl (r, files) => rm_all fuel r files 0 s
  end.

End rm.
End Rm.

Module Ls.
Import Ulib.

(** The bits of a mode. *)
Definition S_IFMT : Z := 0xf000.
Definition file_type (m : Z) : Z :=
  let t := Z.land m S_IFMT in
  if t =? 0x4000 then 100 else if t =? 0xa000 then 108 else if t =? 0x2000 then 99
  else if t =? 0x6000 then 98 else if t =? 0x1000 then 112 else if t =? 0xc000 then 115 else 45.

Definition bit (m mask c : Z) : Z := if Z.land m mask =? 0 then 45 else c.

Definition mode_str (m : Z) : list Z :=
  [file_type m; bit m 0x100 114; bit m 0x80 119; bit m 0x40 120; bit m 0x20 114; bit m 0x10 119; bit m 0x8 120; bit m 0x4 114; bit m 0x2 119; bit m 0x1 120].

(** The pass of the inner loop over the names behind names[i] = [x]: what is in names[i] after
    it, and the names behind. *)
Fixpoint pass (x : path) (l : list path) : path * list path :=
  match l with
  | [] => (x, [])
  | y :: l =>
      if strcmp x y >? 0 then let '(m, l') := pass y l in (m, x :: l')
      else let '(m, l') := pass x l in (m, y :: l')
  end.

(** The outer loop, on the names from names[i] on. *)
Fixpoint sort_loop (fuel : nat) (names : list path) : list path :=
  match fuel, names with
  | S fuel, x :: l => let '(m, l') := pass x l in m :: sort_loop fuel l'
  | _, _ => names
  end.

Section ls.
Context {fs : HostFs}.
(** strftime() of the modification time. *)
Context (time_text : Z -> list Z).

Definition print_entry (flag_long : bool) (dir name : path) (s : h_state) : output :=
  if negb flag_long then Out (name ++ [10]) else
  let p := join 4096 dir name in
  match h_lstat p s with
  | None => warn "custom_ls" p (h_error p)
  | Some st =>
      Out (mode_str (st_mode st) ++ [32] ++ show_pad 2 (st_nlink st) ++ [32] ++ show_pad 8 (st_size st) ++ [32] ++
           time_text (st_mtime st) ++ [32] ++ name ++ [10])
  end.

(** The entries that are listed, in the order they are printed. *)
Definition listed (flag_all : bool) (entries : list path) : list path :=
  let names := filter (fun name => flag_all = true \/ hd 0 name <> 46) entries in
  sort_loop (length names) names.

Definition list_dir (flag_long flag_all : bool) (p : path) (s : h_state) : list output :=
  match h_readdir p s with
  | None => [warn "custom_ls" p (h_error p)]
  | Some entries => (fun name => print_entry flag_long p name s) <$> listed flag_all entries
  end.

Fixpoint parse_letters (f : bool * bool) (a : list Z) : (bool * bool) + Z :=
  match a with
  | [] => inl f
  | c :: a =>
      if c =? 108 then parse_letters (true, f.2) a
      else if c =? 97 then parse_letters (f.1, true) a
      else inr c
  end.

Fixpoint parse_flags (f : bool * bool) (args : list path) : ((bool * bool) * list path) + Z :=
  match args with
  | a :: rest =>
      if hd 0 a =? 45 then
        match parse_letters f (tl a) with
        | inl f => parse_flags f rest
        | inr c => inr c
        end
      else inl (f, args)
  | [] => inl (f, [])
  end.

Fixpoint list_all (f : bool * bool) (multiple : bool) (dirs : list path) (s : h_state) : list output :=
  match dirs with
  | [] => []
  | p :: dirs =>
      (if multiple then [Out (p ++ chars ":" ++ [10])] else []) ++ list_dir f.1 f.2 p s ++
      (if multiple && negb (bool_decide (dirs = [])) then [Out [10]] else []) ++ list_all f multiple dirs s
  end.

Definition main (args : list path) (s : h_state) : list output * Z :=
  match parse_flags (false, false) args with
  | inr c => ([Err (chars "custom_ls: unknown option '-" ++ [c] ++ chars "'" ++ [10])], 1)
  | inl (f, []) => (list_dir f.1 f.2 (chars ".") s, 0)
  | inl (f, dirs) => (list_all f (1 <? length dirs)%nat dirs s, 0)
  end.

End ls.
End Ls.
