(* ===== verification/HostFilesProofs.v ===== *)
(** * custom_cp, custom_mv, custom_rm and custom_ls keep what they should

    [CopyLaws] is what POSIX says of open(), read(), write(), rename() and unlink() of regular
    files; [RmLaws] what it says of the entries of directories that unlink() and rmdir() remove.
    Each has a small host as an instance. *)

From Stdlib Require Import Sorted.
From S2P Require Import Prelude Machine CString Ulib Print HostText HostFiles.

Module CopyProofs.
Import Copy.

(** What the programs rely on, as POSIX has it for regular files, when no other process works on
    the files.  Names are compared by the file they resolve to. *)
Section laws.
Context {fs : HostFs}.

Definition id_of (p : path) (s : h_state) : option fileid := st_id <$> h_stat p s.

(** [p] is not a symbolic link. *)
Definition no_link (p : path) (s : h_state) : Prop := h_lstat p s = h_stat p s.

(** [p] is free, or the name of a regular file. *)
Definition regular_or_free (p : path) (s : h_state) : Prop := forall g, id_of p s = Some g -> h_regular g s = true.

(** Every regular file but [f] is as it was, and a name that resolved still does, to the same
    file. *)
Record keeps_others (f : fileid) (s s' : h_state) : Prop := {
  ko_data g : g <> f -> h_regular g s = true -> h_data g s' = h_data g s /\ h_regular g s' = true;
  ko_names q g : id_of q s = Some g -> id_of q s' = Some g;
  ko_links q : no_link q s -> no_link q s'
}.

Class CopyLaws : Prop := {
  (* open(p, O_RDONLY) opens the file p resolves to *)
  open_read_law p s f g : h_open_read p s = Some f -> id_of p s = Some g -> h_regular g s = true -> f = g;
  (* open(p, O_WRONLY|O_CREAT|O_TRUNC) empties that file, or creates one that no name had *)
  open_write_law p m s f s' : h_open_write p m s = Some (f, s') -> regular_or_free p s ->
    h_data f s' = [] /\ h_regular f s' = true /\ id_of p s' = Some f /\ keeps_others f s s' /\
    (id_of p s = None -> forall q, id_of q s <> Some f);
  (* read() returns bytes from the offset on, none only at the end *)
  read_law f off n s l : h_read f off n s = Some l -> h_regular f s = true -> (0 < n)%nat ->
    l = take (length l) (drop off (h_data f s)) /\ (length l <= n)%nat /\ (l = [] -> (length (h_data f s) <= off)%nat);
  (* write() at the end of a file appends at least one of the bytes *)
  write_law f off l s n s' : h_write f off l s = Some (n, s') -> h_regular f s = true -> l <> [] -> off = length (h_data f s) ->
    (0 < n <= length l)%nat /\ h_data f s' = h_data f s ++ take n l /\ h_regular f s' = true /\ keeps_others f s s';
  (* rename(a, b) of a file gives it the name b *)
  rename_law a b s s' f : h_rename a b s = inr s' -> id_of a s = Some f -> h_regular f s = true -> no_link a s ->
    regular_or_free b s -> no_link b s -> id_of b s' = Some f /\ h_data f s' = h_data f s;
  (* unlink(p) of a file does not touch other files and their names *)
  unlink_law p s s' f : h_unlink p s = Some s' -> id_of p s = Some f -> h_regular f s = true -> no_link p s ->
    (forall g, g <> f -> h_regular g s = true -> h_data g s' = h_data g s) /\
    (forall q g, g <> f -> id_of q s = Some g -> id_of q s' = Some g)
}.

End laws.

Section proofs.
Context {fs : HostFs} {laws : CopyLaws}.

Lemma keeps_refl f s : keeps_others f s s.
Proof. by split. Qed.

Lemma keeps_trans f s1 s2 s3 : keeps_others f s1 s2 -> keeps_others f s2 s3 -> keeps_others f s1 s3.
Proof.
  intros [D1 N1 L1] [D2 N2 L2]. split; [|auto..]. intros g Hg Hr. destruct (D1 g Hg Hr) as [E1 R1]. destruct (D2 g Hg R1) as [E2 R2].
  split; [by rewrite E2|done].
Qed.

(** [dst] has been extended by [l]; nothing else has changed. *)
Definition extends (dst : fileid) (l : list Z) (s s' : h_state) : Prop :=
  h_data dst s' = h_data dst s ++ l /\ h_regular dst s' = true /\ keeps_others dst s s'.

Lemma extends_nil dst s : h_regular dst s = true -> extends dst [] s s.
Proof. intros H. split_and!; [by rewrite app_nil_r|done|apply keeps_refl]. Qed.

Lemma extends_app dst l1 l2 s1 s2 s3 : extends dst l1 s1 s2 -> extends dst l2 s2 s3 -> extends dst (l1 ++ l2) s1 s3.
Proof. intros (D1 & _ & K1) (D2 & R2 & K2). split_and!; [by rewrite D2, D1, app_assoc|done|by eapply keeps_trans]. Qed.

Lemma write_loop_run fuel dst buf s :
  h_regular dst s = true -> (length buf <= fuel)%nat ->
  exists ok l s', write_loop fuel dst (length (h_data dst s)) buf s = Some (ok, (length (h_data dst s) + length l)%nat, s') /\
    extends dst l s s' /\ (ok = true -> l = buf).
Proof.
  revert buf s. induction fuel as [|fuel IH]; intros buf s Hr Hf.
  - destruct buf; [|cbn in Hf; lia]. exists true, [], s. cbn. rewrite Nat.add_0_r. split_and!; [done|by apply extends_nil|done].
  - destruct buf as [|c buf]; [exists true, [], s; cbn; rewrite Nat.add_0_r; split_and!; [done|by apply extends_nil|done]|].
    cbn [write_loop]. destruct (h_write dst (length (h_data dst s)) (c :: buf) s) as [[w s1]|] eqn:Ew.
    + destruct (write_law _ _ _ _ _ _ Ew Hr ltac:(done) eq_refl) as (Hw & D1 & R1 & K1).
      assert (X1 : extends dst (take w (c :: buf)) s s1) by done.
      assert (Hl : length (h_data dst s1) = (length (h_data dst s) + w)%nat) by (rewrite D1, length_app, length_take; lia).
      destruct (IH (drop w (c :: buf)) s1 R1) as (ok & l & s2 & E & X2 & Hok); [rewrite length_drop; cbn [length] in *; lia|].
      rewrite <- Hl, E. exists ok, (take w (c :: buf) ++ l), s2. split; [|split; [by eapply extends_app|]].
      * do 3 f_equal. rewrite Hl, length_app, length_take. lia.
      * intros H. rewrite (Hok H). apply take_drop.
    + exists false, [], s. cbn [length]. rewrite Nat.add_0_r. split_and!; [done|by apply extends_nil|done].
Qed.

(** Copying from [src], of which the first part has been copied. *)
Lemma copy_loop_run fuel src dst s :
  src <> dst -> h_regular src s = true -> h_regular dst s = true ->
  (length (h_data src s) < fuel + length (h_data dst s))%nat -> h_data dst s = take (length (h_data dst s)) (h_data src s) ->
  exists r l s', copy_loop fuel src dst (length (h_data dst s)) (length (h_data dst s)) s = Some (r, s') /\
    extends dst l s s' /\ (r = CopyDone -> h_data dst s' = h_data src s).
Proof.
  intros Hne. revert s. induction fuel as [|fuel IH]; intros s Rs Rd Hf Hpre.
  { apply (f_equal length) in Hpre. rewrite length_take in Hpre. lia. }
  cbn [copy_loop]. destruct (h_read src (length (h_data dst s)) BUF_SIZE s) as [buf|] eqn:Er; [|exists ReadError, [], s; split_and!; [done|by apply extends_nil|done]].
  apply read_law in Er as (Hbuf & Hlen & Hend); [|done|unfold BUF_SIZE; lia]. destruct buf as [|c buf].
  { exists CopyDone, [], s. split_and!; [done|by apply extends_nil|]. intros _. rewrite Hpre. apply take_ge. by apply Hend. }
  set (b := c :: buf) in *. destruct (write_loop_run BUF_SIZE dst b s Rd Hlen) as (ok & l & s1 & E & X & Hok). rewrite E.
  destruct ok; [|exists WriteError, l, s1; by split_and!].
  rewrite (Hok eq_refl) in *. clear l Hok. pose proof X as (D & R & K). destruct (ko_data _ _ _ K src Hne Rs) as [Hs Rs1].
  assert (Hl : (length (h_data dst s) + length b)%nat = length (h_data dst s1)) by (by rewrite D, length_app).
  rewrite Hl. destruct (IH s1 Rs1 R) as (r & l & s2 & E2 & X2 & Hr).
  - rewrite Hs. rewrite <- Hl. unfold b. cbn [length]. lia.
  - rewrite Hs, <- Hl, D, <- take_take_drop. f_equal; [done|exact Hbuf].
  - exists r, (b ++ l), s2. split_and!; [done|by eapply extends_app|]. intros H. by rewrite (Hr H).
Qed.

(** The destination is not the source. *)
Lemma dest_distinct src dest s st p :
  h_stat src s = Some st -> dest_path st src dest s = (p, false) -> (length dest < 4096)%nat -> id_of p s <> Some (st_id st).
Proof.
  intros Hs Hd Hl. assert (Hfit : fit PATH_MAX dest = dest) by (apply take_ge; unfold PATH_MAX; lia).
  unfold dest_path, id_of in *. destruct (h_stat dest s) as [sd|] eqn:Ed.
  - destruct (st_dir sd).
    + destruct (h_stat (join PATH_MAX dest (basename src)) s) as [x|] eqn:Ej; injection Hd as <-; rewrite Ej; cbn; [|done].
      intros [= E]. by rewrite bool_decide_true in H.
    + rewrite Hfit in Hd. injection Hd as <- H. rewrite Ed. cbn. intros [= E]. by rewrite bool_decide_true in H.
  - rewrite Hfit in Hd. injection Hd as <-. by rewrite Ed.
Qed.

(** What one copy does. *)
Record copies (f g : fileid) (p : path) (s s' : h_state) (r : copied) : Prop := {
  cp_other : keeps_others g s s';
  cp_name : id_of p s' = Some g;
  cp_regular : h_regular g s' = true;
  cp_done : r = CopyDone -> h_data g s' = h_data f s
}.

Lemma copy_into fuel f p m s g s1 :
  id_of p s <> Some f -> (exists q, id_of q s = Some f) -> h_regular f s = true -> regular_or_free p s ->
  (length (h_data f s) < fuel)%nat -> h_open_write p m s = Some (g, s1) ->
  f <> g /\ exists r s2, copy_loop fuel f g 0 0 s1 = Some (r, s2) /\ copies f g p s s2 r.
Proof.
  intros Hp (q & Hq) Rf Hreg Hfuel Ho. destruct (open_write_law _ _ _ _ _ Ho Hreg) as (Hd & Rg & Hn & K & Hfresh).
  assert (Hne : f <> g).
  { intros ->. destruct (id_of p s) as [h|] eqn:E; [|by apply (Hfresh eq_refl q)]. apply (ko_names _ _ _ K) in E. congruence. }
  split; [done|]. destruct (ko_data _ _ _ K f Hne Rf) as [Hf Rf1].
  destruct (copy_loop_run fuel f g s1) as (r & l & s2 & E & (X1 & X2 & X3) & Hr); [done|done|done|rewrite Hd, Hf; cbn; lia|by rewrite Hd|].
  rewrite Hd in E. exists r, s2. split; [done|]. split.
  - by eapply keeps_trans.
  - by apply (ko_names _ _ _ X3).
  - done.
  - intros H. by rewrite (Hr H).
Qed.

Definition is_err (o : output) : Prop := match o with Err _ => True | Out _ => False end.

Lemma err_found out : Exists is_err out -> Forall (fun o => ~ is_err o) out -> False.
Proof. rewrite Exists_exists, Forall_forall. intros (o & Ho & He) H. by apply (H o). Qed.

(** No message was printed and the user did not refuse. *)
Definition went_well (out : list output) (interactive : bool) (choice : Z) : Prop :=
  Forall (fun o => ~ is_err o) out /\ (interactive = false \/ agreed choice = true).

(** C26: custom_cp of a regular file to a destination that is a regular file or does not exist
    yet, given by a path of less than 4096 characters, ends, and whatever goes wrong the source
    keeps its contents and no regular file but the destination changes.  When no error is reported
    and the user does not refuse, the destination, in the directory if one was named, has the
    contents of the source, however read() and write() cut them into pieces.  (A longer path is
    cut off after the test that it is not the source's, and custom_cp may then empty the source;
    a device does not keep what is written to it.) *)
Theorem cp_copies fuel src dest interactive verbose choice s st :
  let p := (dest_path st src dest s).1 in
  h_stat src s = Some st -> h_regular (st_id st) s = true -> regular_or_free p s -> (length dest < 4096)%nat ->
  (length (h_data (st_id st) s) < fuel)%nat ->
  exists out s', copy_file fuel src dest interactive verbose choice s = Some (out, s') /\
    h_data (st_id st) s' = h_data (st_id st) s /\
    (forall g, h_regular g s = true -> id_of p s' <> Some g -> h_data g s' = h_data g s) /\
    (went_well out interactive choice -> exists g, id_of p s' = Some g /\ h_data g s' = h_data (st_id st) s).
Proof.
  intros p0 Hs Rs Hreg Hl Hfuel. unfold p0 in *. clear p0. unfold copy_file. rewrite Hs. destruct (dest_path st src dest s) as [p same] eqn:Ed. cbn [fst] in *.
  assert (Hid : id_of src s = Some (st_id st)) by (unfold id_of; by rewrite Hs).
  assert (Hbad : forall out, Exists is_err out -> exists out' s', Some (out, s) = Some (out', s') /\
    h_data (st_id st) s' = h_data (st_id st) s /\ (forall g, h_regular g s = true -> id_of p s' <> Some g -> h_data g s' = h_data g s) /\
    (went_well out' interactive choice -> exists g, id_of p s' = Some g /\ h_data g s' = h_data (st_id st) s)).
  { intros out Ho. exists out, s. split_and!; [done..|]. intros [Hw _]. by destruct (err_found _ Ho Hw). }
  destruct same; [apply Hbad; by constructor|]. pose proof (dest_distinct src dest s st p Hs Ed Hl) as Hne.
  set (ask := interactive && h_access p s). set (asked := if ask then _ else _). destruct (ask && negb (agreed choice)) eqn:Ea.
  { exists asked, s. split_and!; [done..|]. intros [_ [->|Hc]]; [by cbn in Ea|]. rewrite Hc, andb_false_r in Ea. done. }
  destruct (h_open_read src s) as [f|] eqn:Er; [|apply Hbad, Exists_app; right; by constructor].
  pose proof (open_read_law _ _ _ _ Er Hid Rs) as ->.
  destruct (h_open_write p (st_mode st) s) as [[g s1]|] eqn:Ew; [|apply Hbad, Exists_app; right; by constructor].
  destruct (copy_into fuel (st_id st) p (st_mode st) s g s1 Hne) as (Hg & r & s2 & E & C); [by exists src|done..|].
  rewrite E. assert (Hout : exists out, match r with WriteError => Some (asked ++ [warn "custom_cp" (chars "Write error") (h_error p)], s2)
      | _ => Some (asked ++ (match r with ReadError => [warn "custom_cp" (chars "Read error") (h_error src)] | _ => [] end) ++ (if verbose then [arrow src p] else []), s2) end = Some (out, s2) /\
      (Forall (fun o => ~ is_err o) out -> r = CopyDone)).
  { destruct r; eexists; (split; [done|]); [done| |]; intros H; exfalso; apply Forall_app in H as [_ H].
    - apply Forall_app in H as [H _]. apply Forall_cons in H as [H _]. by apply H.
    - apply Forall_cons in H as [H _]. by apply H. }
  destruct Hout as (out & Eo & Hok). exists out, s2. split; [by destruct r|]. destruct C as [C1 C2 C3 C4]. split_and!.
  - by apply (ko_data _ _ _ C1).
  - intros h Rh Hh. apply (ko_data _ _ _ C1); [|done]. intros ->. by destruct Hh.
  - intros [Hw _]. exists g. split; [done|]. by apply C4, Hok.
Qed.

(** C25: custom_mv never loses the file.  The source is a regular file and not a symbolic link to
    one; the destination, given by a path of less than 4096 characters, is a regular file or does
    not exist yet, and is not a symbolic link either.  custom_mv ends, and afterwards the
    source's contents are still there under the source's name or under the destination's; when no
    error is reported and the user does not refuse, under the destination's.  (To a device on
    another file system the file is copied, and then removed.) *)
Theorem mv_keeps_data fuel src dest interactive verbose choice s st :
  let p := (dest_path st src dest s).1 in
  let kept q s' := exists g, id_of q s' = Some g /\ h_data g s' = h_data (st_id st) s in
  h_stat src s = Some st -> h_regular (st_id st) s = true -> no_link src s ->
  regular_or_free p s -> no_link p s -> (length dest < 4096)%nat -> (length (h_data (st_id st) s) < fuel)%nat ->
  exists out s', move_file fuel src dest interactive verbose choice s = Some (out, s') /\
    (kept src s' \/ kept p s') /\ (went_well out interactive choice -> kept p s').
Proof.
  intros p kept Hs Rs Ls Hreg Lp Hl Hfuel. unfold move_file. rewrite Hs. unfold p in *. clear p. destruct (dest_path st src dest s) as [p' same] eqn:Ed. cbn [fst] in *.
  assert (Hid : id_of src s = Some (st_id st)) by (unfold id_of; by rewrite Hs).
  assert (Hk : kept src s) by (by exists (st_id st)).
  assert (Hbad : forall out s', kept src s' -> Exists is_err out -> exists out' s'', Some (out, s') = Some (out', s'') /\
    (kept src s'' \/ kept p' s'') /\ (went_well out' interactive choice -> kept p' s'')).
  { intros out s' H Ho. exists out, s'. split_and!; [done|by left|]. intros [Hw _]. by destruct (err_found _ Ho Hw). }
  destruct same; [apply Hbad; [done|by constructor]|]. pose proof (dest_distinct src dest s st p' Hs Ed Hl) as Hne.
  set (ask := interactive && h_access p' s). set (asked := if ask then _ else _). destruct (ask && negb (agreed choice)) eqn:Ea.
  { exists asked, s. split_and!; [done|by left|]. intros [_ [->|Hc]]; [by cbn in Ea|]. rewrite Hc, andb_false_r in Ea. done. }
  destruct (h_rename src p' s) as [[]|s1] eqn:Ern.
  - unfold copy_and_unlink. rewrite Hs. destruct (h_open_read src s) as [f|] eqn:Er; [|apply Hbad; [done|]; apply Exists_app; right; by constructor].
    pose proof (open_read_law _ _ _ _ Er Hid Rs) as ->.
    destruct (h_open_write p' (st_mode st) s) as [[g s1]|] eqn:Ew; [|apply Hbad; [done|]; apply Exists_app; right; by constructor].
    destruct (copy_into fuel (st_id st) p' (st_mode st) s g s1 Hne) as (Hg & r & s2 & E & [C1 C2 C3 C4]); [by exists src|done..|]. rewrite E.
    destruct (ko_data _ _ _ C1 (st_id st) Hg Rs) as [D2 R2]. pose proof (ko_names _ _ _ C1 _ _ Hid) as N2.
    assert (Hun : kept src (unlink p' s2)).
    { unfold unlink. destruct (h_unlink p' s2) as [s3|] eqn:Eu; [|by exists (st_id st)].
      destruct (unlink_law _ _ _ _ Eu C2 C3 (ko_links _ _ _ C1 _ Lp)) as [U1 U2]. exists (st_id st). split; [by apply U2|]. cbn. by rewrite U1. }
    destruct r; [|apply Hbad; [exact Hun|]; apply Exists_app; right; by constructor..].
    assert (Hp : kept p' (unlink src s2)).
    { unfold unlink. destruct (h_unlink src s2) as [s3|] eqn:Eu; [|exists g; by split; [|apply C4]].
      destruct (unlink_law _ _ _ (st_id st) Eu N2 R2 (ko_links _ _ _ C1 _ Ls)) as [U1 U2]. exists g. split; [by apply U2|]. cbn. rewrite U1 by done. by apply C4. }
    eexists _, _. split; [done|]. by split; [right|].
  - apply Hbad; [done|]. apply Exists_app. right. by constructor.
  - destruct (rename_law _ _ _ _ (st_id st) Ern Hid Rs Ls Hreg Lp) as [R1 R2]. eexists _, s1. split; [done|].
    assert (kept p' s1) by (by exists (st_id st)). by split; [right|].
Qed.

End proofs.

(** ** A host

    Files by name, two bytes to a read() and one to a write(); rename() never works.  The file
    [null] is a device that forgets what is written to it. *)
Record demo_state : Type := Demo { d_names : gmap path fileid; d_data : fileid -> list Z }.

Definition demo_fresh (s : demo_state) : Z := fresh (list_to_set ((fun x : path * fileid => x.2.2) <$> map_to_list (d_names s)) : gset Z).
Definition demo_put (f : fileid) (l : list Z) (s : demo_state) : demo_state :=
  Demo (d_names s) (fun g => if decide (g = f) then l else d_data s g).
Definition demo_stat (p : path) (s : demo_state) : option stat_t := (fun f => Stat f false 0 1 0 0) <$> d_names s !! p.
Definition demo_create (p : path) (s : demo_state) : fileid * demo_state :=
  match d_names s !! p with
  | Some f => (f, demo_put f [] s)
  | None => let f := (0, demo_fresh s) in (f, demo_put f [] (Demo (<[p := f]> (d_names s)) (d_data s)))
  end.

Definition null : fileid := (5, 1).

#[local] Instance demo_fs : HostFs := {|
  h_state := demo_state; h_stat := demo_stat; h_lstat := demo_stat; h_access p s := bool_decide (is_Some (demo_stat p s));
  h_open_read p s := d_names s !! p; h_open_write p _ s := Some (demo_create p s);
  h_read f off n s := Some (if decide (f = null) then [] else take (n `min` 2) (drop off (d_data s f)));
  h_write f off l s := Some (if decide (f = null) then (length l, s) else (1%nat, demo_put f (take off (d_data s f) ++ take 1 l) s));
  h_rename _ _ _ := inl EXDEV; h_unlink p s := Some (Demo (delete p (d_names s)) (d_data s)); h_rmdir _ _ := None; h_readdir _ _ := None;
  h_error _ := []; h_data f s := d_data s f; h_regular f _ := bool_decide (f <> null) |}.

Lemma demo_id p (s : demo_state) : id_of p s = d_names s !! p.
Proof. unfold id_of. cbn. unfold demo_stat. by destruct (d_names s !! p). Qed.

Lemma demo_data_put f l g s : d_data (demo_put f l s) g = if decide (g = f) then l else d_data s g.
Proof. done. Qed.

Lemma demo_regular f s : h_regular f s = true -> f <> null.
Proof. cbn. by intros ?%bool_decide_eq_true. Qed.

Lemma demo_fresh_not_null s : (0, demo_fresh s) <> null.
Proof. done. Qed.

Lemma demo_keeps f l s : keeps_others f s (demo_put f l s).
Proof. split; [|done..]. intros g Hg Hr. split; [|done]. cbn -[demo_put]. by rewrite demo_data_put, decide_False. Qed.

Lemma demo_fresh_id q s : d_names s !! q <> Some (0, demo_fresh s).
Proof.
  intros Hq. apply (is_fresh (list_to_set ((fun x : path * fileid => x.2.2) <$> map_to_list (d_names s)) : gset Z)).
  apply elem_of_list_to_set, list_elem_of_fmap. exists (q, (0, demo_fresh s)). split; [done|]. by apply elem_of_map_to_list.
Qed.

#[local] Instance demo_laws : CopyLaws.
Proof.
  split.
  - intros p s f g H. rewrite demo_id. cbn in H. congruence.
  - intros p m s f s' [= H] Hreg. unfold demo_create in H. unfold regular_or_free in Hreg. repeat setoid_rewrite demo_id.
    setoid_rewrite demo_id in Hreg. destruct (d_names s !! p) as [f0|] eqn:Ep; injection H as <- <-.
    + split_and!; [by cbn -[demo_put]; rewrite demo_data_put, decide_True|by apply Hreg|done|apply demo_keeps|done].
    + split_and!; [by cbn -[demo_put]; rewrite demo_data_put, decide_True|done|apply lookup_insert_eq| |intros _ q; apply demo_fresh_id].
      eapply keeps_trans; [|apply demo_keeps]. split; [done| |done]. intros q g. rewrite !demo_id. cbn. intros Hq. rewrite lookup_insert_ne; [done|]. congruence.
  - intros f off n s l [= <-] Hr%demo_regular Hn. rewrite decide_False by done. cbn. rewrite length_take. split_and!; [|lia|].
    + rewrite <- (take_ge (drop off (d_data s f)) (length (drop off (d_data s f)))) at 1 by done. by rewrite take_take.
    + intros H. apply (f_equal length) in H. rewrite length_take, length_drop in H. cbn in H. lia.
  - intros f off l s n s' [= H] Hr Hl ->. rewrite decide_False in H by (by eapply demo_regular). injection H as <- <-. split_and!.
    + lia.
    + destruct l; [done|]. cbn. lia.
    + cbn -[demo_put]. rewrite demo_data_put, decide_True by done. f_equal. by apply take_ge.
    + done.
    + apply demo_keeps.
  - done.
  - intros p s s' f [= <-]. rewrite demo_id. intros Hp _ _. split; [done|]. intros q g Hg. rewrite !demo_id. cbn. intros Hq. rewrite lookup_delete_ne; [done|]. congruence.
Qed.

Definition demo_files : demo_state := Demo {[ [97] := (0, 1) ]} (fun _ => [1; 2; 3]).

(** Nothing is called b. *)
Lemma demo_free : regular_or_free [98] demo_files.
Proof. intros g. rewrite demo_id. done. Qed.

Lemma cp_copies_witness :
  exists out s', copy_file 4 [97] [98] false true 0 demo_files = Some (out, s') /\
    h_data (0, 1) s' = [1; 2; 3] /\ (forall g, h_regular g demo_files = true -> id_of [98] s' <> Some g -> h_data g s' = [1; 2; 3]) /\
    (went_well out false 0 -> exists g, id_of [98] s' = Some g /\ h_data g s' = [1; 2; 3]).
Proof. exact (cp_copies 4 [97] [98] false true 0 demo_files (Stat (0, 1) false 0 1 0 0) eq_refl eq_refl demo_free ltac:(cbn; lia) ltac:(cbn; lia)). Defined.

Lemma mv_keeps_data_witness :
  exists out s', move_file 4 [97] [98] false true 0 demo_files = Some (out, s') /\
    ((exists g, id_of [97] s' = Some g /\ h_data g s' = [1; 2; 3]) \/ (exists g, id_of [98] s' = Some g /\ h_data g s' = [1; 2; 3])) /\
    (went_well out false 0 -> exists g, id_of [98] s' = Some g /\ h_data g s' = [1; 2; 3]).
Proof. exact (mv_keeps_data 4 [97] [98] false true 0 demo_files (Stat (0, 1) false 0 1 0 0) eq_refl eq_refl eq_refl demo_free eq_refl ltac:(cbn; lia) ltac:(cbn; lia)). Defined.

End CopyProofs.

Module RmProofs.
Import Rm.

Section laws.
Context {fs : HostFs}.

(** The directories behind the paths: [h_entry d n] is the file that the name [n], other than .
    and .., has in the directory [d], and [h_place p] is the directory and the name in it that the
    path [p] stands for, if it stands for an entry of a directory. *)
Class Directories := {
  h_entry : fileid -> path -> h_state -> option fileid;
  h_place : path -> h_state -> option (fileid * path)
}.

Context {dirs : Directories}.

(** Nothing appears.  A path may no longer lead anywhere, when it leads through something that was
    removed, but it never leads to something else. *)
Record shrinks (s s' : h_state) : Prop := {
  sh_entry d n f : h_entry d n s' = Some f -> h_entry d n s = Some f;
  sh_place p x : h_place p s' = Some x -> h_place p s = Some x;
  sh_lstat p st : h_lstat p s' = Some st -> exists st0, h_lstat p s = Some st0 /\ st_id st0 = st_id st /\ st_dir st0 = st_dir st;
  sh_names p l : h_readdir p s' = Some l -> exists l0, h_readdir p s = Some l0 /\ forall n, n ∈ l -> n ∈ l0
}.

(** The entry [n] of the directory [d], and no other, is removed. *)
Definition removes (d : fileid) (n : path) (s s' : h_state) : Prop :=
  shrinks s s' /\ h_entry d n s' = None /\ forall d' n' f, (d', n') <> (d, n) -> h_entry d' n' s = Some f -> h_entry d' n' s' = Some f.

(** [p/name] *)
Definition child (p name : path) : path := p ++ [47] ++ name.

(** What custom_rm relies on, as POSIX has it when no other process works on the files. *)
Class RmLaws : Prop := {
  (* lstat(p) is about the file of the entry p stands for *)
  lstat_law p s st d n : h_lstat p s = Some st -> h_place p s = Some (d, n) -> h_entry d n s = Some (st_id st);
  (* only directories have entries *)
  file_law p s st n : h_lstat p s = Some st -> st_dir st = false -> h_entry (st_id st) n s = None;
  (* a name that readdir() gives for the directory p is the entry p/name *)
  readdir_law p s st l name : h_lstat p s = Some st -> st_dir st = true -> h_readdir p s = Some l -> name ∈ l -> dots name = false ->
    (length (child p name) < 4096)%nat -> h_place (child p name) s = Some (st_id st, name);
  (* unlink(p) of a file removes the entry p stands for *)
  unlink_removes p s s' st : h_lstat p s = Some st -> st_dir st = false -> h_unlink p s = Some s' ->
    h_lstat p s' = None /\ exists d n, h_place p s = Some (d, n) /\ removes d n s s';
  (* rmdir(p) removes the entry of an empty directory *)
  rmdir_removes p s s' : h_rmdir p s = Some s' ->
    h_lstat p s' = None /\ exists d n f, h_place p s = Some (d, n) /\ h_entry d n s = Some f /\ (forall m, h_entry f m s = None) /\ removes d n s s'
}.

(** The files of the tree of [f], symbolic links not followed. *)
Inductive under (s : h_state) (f : fileid) : fileid -> Prop :=
| under_here : under s f f
| under_entry g n h : under s f g -> h_entry g n s = Some h -> under s f h.

(** A tree of at most [k] levels of directories, whose paths are shorter than PATH_MAX. *)
Inductive depth (s : h_state) : nat -> path -> Prop :=
| depth_file k p : (forall st, h_lstat p s = Some st -> st_dir st = false) -> depth s k p
| depth_dir k p :
    (forall l name, h_readdir p s = Some l -> name ∈ l -> dots name = false -> (length (child p name) < 4096)%nat) ->
    (forall l name, h_readdir p s = Some l -> name ∈ l -> dots name = false -> depth s k (child p name)) ->
    depth s (S k) p.

(** The entries custom_rm may remove when it is asked to remove [p]: the one [p] stands for, and
    those of the directories of its tree. *)
Definition in_tree (s : h_state) (p : path) (d : fileid) (n : path) : Prop :=
  h_place p s = Some (d, n) \/ exists st, h_lstat p s = Some st /\ under s (st_id st) d.

End laws.

Section proofs.
Context {fs : HostFs} {dirs : Directories} {laws : RmLaws}.

Lemma shrinks_refl s : shrinks s s.
Proof. split; eauto. Qed.

Lemma shrinks_trans s1 s2 s3 : shrinks s1 s2 -> shrinks s2 s3 -> shrinks s1 s3.
Proof.
  intros [E1 P1 L1 N1] [E2 P2 L2 N2]. split; [auto..| |].
  - intros p st H. destruct (L2 p st H) as (st2 & H2 & I2 & D2). destruct (L1 p st2 H2) as (st1 & H1 & I1 & D1). exists st1. split_and!; [done|congruence..].
  - intros p l H. destruct (N2 p l H) as (l2 & H2 & S2). destruct (N1 p l2 H2) as (l1 & H1 & S1). exists l1. split; [done|]. intros n Hn. apply S1, S2, Hn.
Qed.

Lemma shrinks_none s s' d n : shrinks s s' -> h_entry d n s = None -> h_entry d n s' = None.
Proof. intros S H. destruct (h_entry d n s') as [f|] eqn:E; [|done]. apply (sh_entry _ _ S) in E. congruence. Qed.

Lemma depth_shrinks s s' k p : shrinks s s' -> depth s k p -> depth s' k p.
Proof.
  intros S H. induction H as [k p Hd|k p Hlen _ IH].
  - apply depth_file. intros st H. destruct (sh_lstat _ _ S p st H) as (st0 & H0 & _ & <-). by apply Hd.
  - apply depth_dir; intros l name Hl Hn Hdot; destruct (sh_names _ _ S p l Hl) as (l0 & H0 & Hsub); eauto.
Qed.

Lemma under_shrinks s s' f g : shrinks s s' -> under s' f g -> under s f g.
Proof. intros S H. induction H as [|g n h _ IH E]; [constructor|]. eapply under_entry; [exact IH|]. by apply (sh_entry _ _ S). Qed.

Lemma under_trans s f g h : under s f g -> under s g h -> under s f h.
Proof. intros H1 H2. induction H2; [done|by eapply under_entry]. Qed.

(** The entries that are removed from [s] to [s'] satisfy [P], and the directories among them are
    left empty. *)
Definition removed_in (P : fileid -> path -> Prop) (s s' : h_state) : Prop :=
  shrinks s s' /\ forall d n f, h_entry d n s = Some f -> h_entry d n s' = None -> P d n /\ forall m, h_entry f m s' = None.

Lemma removed_refl P s : removed_in P s s.
Proof. split; [apply shrinks_refl|]. intros d n f H1 H2. congruence. Qed.

Lemma removed_trans P s1 s2 s3 : removed_in P s1 s2 -> removed_in P s2 s3 -> removed_in P s1 s3.
Proof.
  intros [S1 R1] [S2 R2]. split; [by eapply shrinks_trans|]. intros d n f H1 H3. destruct (h_entry d n s2) as [g|] eqn:H2.
  - pose proof (sh_entry _ _ S1 _ _ _ H2). assert (g = f) as -> by congruence. by apply (R2 d n f).
  - destruct (R1 d n f H1 H2) as [HP He]. split; [done|]. intros m. by eapply shrinks_none.
Qed.

Lemma removed_weaken (P Q : fileid -> path -> Prop) s s' : (forall d n, P d n -> Q d n) -> removed_in P s s' -> removed_in Q s s'.
Proof. intros H [S R]. split; [done|]. intros d n f H1 H2. destruct (R d n f H1 H2). auto. Qed.

(** Removing one entry. *)
Lemma removes_one (P : fileid -> path -> Prop) d n f s s' :
  removes d n s s' -> P d n -> h_entry d n s = Some f -> (forall m, h_entry f m s = None) -> removed_in P s s'.
Proof.
  intros (S & H1 & H2) HP Hf He. split; [done|]. intros d' n' f' E1 E2. destruct (decide ((d', n') = (d, n))) as [[= -> ->]|Hne].
  - assert (f' = f) as -> by congruence. split; [done|]. intros m. by eapply shrinks_none.
  - rewrite (H2 _ _ _ Hne E1) in E2. done.
Qed.

(** What rm_path() of [p] promises. *)
Definition rm_spec (p : path) (s : h_state) (r : removal) : Prop :=
  exists ok o s', r = Some (ok, o, s') /\ removed_in (in_tree s p) s s' /\
    (ok = true -> h_lstat p s' = None /\ exists d n, h_place p s = Some (d, n) /\ h_entry d n s' = None).

(** The tree of an entry of the directory [p] belongs to the tree of [p]. *)
Lemma child_in_tree p st l name s s1 d n :
  h_lstat p s = Some st -> st_dir st = true -> h_readdir p s = Some l -> name ∈ l -> dots name = false -> (length (child p name) < 4096)%nat ->
  shrinks s s1 -> in_tree s1 (child p name) d n -> under s (st_id st) d.
Proof.
  intros Hst Hd Hl Hn Hdot Hlen S Hin. pose proof (readdir_law _ _ _ _ _ Hst Hd Hl Hn Hdot Hlen) as Hp. destruct Hin as [Hin|(st1 & H1 & U)].
  - apply (sh_place _ _ S) in Hin. rewrite Hp in Hin. injection Hin as <- <-. constructor.
  - destruct (sh_lstat _ _ S _ _ H1) as (st0 & H0 & Eid & _). rewrite <- Eid in U. eapply under_trans; [|by eapply under_shrinks].
    eapply under_entry; [constructor|]. by apply (lstat_law (child p name)).
Qed.

Lemma join_fits (p name : path) : (length (child p name) < 4096)%nat -> join PATH_MAX p name = child p name.
Proof. intros H. apply take_ge. change (Z.to_nat (PATH_MAX - 1)) with 4095%nat. lia. Qed.

Lemma rm_entries_run (P : fileid -> path -> Prop) rm p names err s :
  (forall name s1, name ∈ names -> dots name = false -> shrinks s s1 ->
    exists ok o s2, rm (join PATH_MAX p name) s1 = Some (ok, o, s2) /\ removed_in P s1 s2) ->
  exists err' o s', rm_entries rm p names err s = Some (err', o, s') /\ removed_in P s s'.
Proof.
  revert err s. induction names as [|name names IH]; intros err s Hrm; cbn [rm_entries]; [exists err, [], s; split; [done|apply removed_refl]|].
  destruct (dots name) eqn:Ed; [apply IH; intros n s1 Hn; apply Hrm; set_solver|].
  destruct (Hrm name s ltac:(set_solver) Ed (shrinks_refl s)) as (ok & o & s1 & -> & K1).
  destruct (IH (if ok then err else true) s1) as (err' & o' & s2 & -> & K2).
  - intros n s2 Hn Hd S2. apply Hrm; [set_solver|done|]. eapply shrinks_trans; [apply K1|done].
  - exists err', (o ++ o'), s2. split; [done|]. by eapply removed_trans.
Qed.

(** A file. *)
Lemma rm_file_run p s st :
  h_lstat p s = Some st -> st_dir st = false ->
  rm_spec p s (match h_unlink p s with
    | None => Some (false, [warn "custom_rm" p (h_error p)], s)
    | Some s => Some (true, [Out (chars "Deleted: " ++ p ++ [10])], s)
    end).
Proof.
  intros El Ed. destruct (h_unlink p s) as [s1|] eqn:Eu.
  - destruct (unlink_removes _ _ _ _ El Ed Eu) as (Hg & d & n & Hp & R). eexists _, _, s1. split; [done|]. split.
    + eapply (removes_one _ d n (st_id st)); [done|by left|by apply (lstat_law p)|]. intros m. by apply (file_law p).
    + intros _. split; [done|]. exists d, n. split; [done|]. apply R.
  - eexists _, _, s. split; [done|]. split; [apply removed_refl|done].
Qed.

Lemma rm_path_run k r p s : depth s k p -> rm_spec p s (rm_path k r p s).
Proof.
  revert p s. induction k as [|k IH]; intros p s Hdep.
  all: assert (Hsame : forall o, rm_spec p s (Some (false, o, s))) by (intros o; exists false, o, s; split_and!; [done|apply removed_refl|done]).
  all: cbn [rm_path]; destruct (h_lstat p s) as [st|] eqn:El; [|apply Hsame].
  all: destruct (st_dir st) eqn:Ed; [destruct r; [|apply Hsame]|by apply (rm_file_run p s st)].
  - inversion Hdep as [? ? Hd|]; subst. rewrite (Hd st El) in Ed. done.
  - unfold rm_dir_recursive. destruct (h_readdir p s) as [l|] eqn:Er; [|apply Hsame]. cbn [negb].
    assert (Hin : forall name, name ∈ l -> dots name = false -> (length (child p name) < 4096)%nat /\ depth s k (child p name)).
    { inversion Hdep as [? ? Hd|? ? Hlen Hd]; subst; [rewrite (Hd st El) in Ed; done|]. eauto. }
    destruct (rm_entries_run (in_tree s p) (rm_path k true) p l false s) as (err & o & s1 & -> & K).
    { intros name s1 Hn Hdot S1. destruct (Hin name Hn Hdot) as [Hlen Hd1]. rewrite join_fits by done.
      destruct (IH (child p name) s1 ltac:(by eapply depth_shrinks)) as (ok & o & s2 & -> & K & _). exists ok, o, s2. split; [done|].
      eapply removed_weaken; [|exact K]. intros d n Ht. right. exists st. split; [done|]. by eapply child_in_tree. }
    destruct (h_rmdir p s1) as [s2|] eqn:Erm; [|by eexists false, _, s1; split_and!].
    destruct (rmdir_removes _ _ _ Erm) as (Hg & d & n & f & Hp & Hf & He & R). apply (sh_place _ _ (proj1 K)) in Hp. exists (negb err), o, s2. split; [done|]. split.
    + eapply removed_trans; [exact K|]. eapply removes_one; [done|by left|done|done].
    + intros _. split; [done|]. exists d, n. split; [done|]. apply R.
Qed.

(** When the entry of [f] is gone, so is everything below. *)
Lemma tree_gone P d n f s s' :
  removed_in P s s' -> h_entry d n s = Some f -> h_entry d n s' = None -> forall g m, under s f g -> h_entry g m s' = None.
Proof.
  intros [S R] Hf Hn g m U. revert m. induction U as [|g k h _ IH E]; [by eapply R|]. intros m. by apply (R g k h).
Qed.

(** C27: custom_rm of a tree of bounded depth, whose paths are shorter than 4096 characters,
    ends, and removes only what it was asked to: the directory entry the path stands for, and
    entries of directories in its tree, symbolic links not followed; every other entry of every
    directory is still there afterwards, and nothing new appears.  When it reports success the
    path is gone, and so is every entry of every directory of the tree.  Without -r a directory is
    refused and nothing is removed. *)
Theorem rm_removes k r p s :
  depth s k p ->
  exists ok o s', rm_path k r p s = Some (ok, o, s') /\
    (forall d n f, h_entry d n s' = Some f -> h_entry d n s = Some f) /\
    (forall d n f, h_entry d n s = Some f -> h_entry d n s' = Some f \/ in_tree s p d n) /\
    (ok = true -> h_lstat p s' = None /\
      forall st g n, h_lstat p s = Some st -> under s (st_id st) g -> h_entry g n s' = None) /\
    (forall st, r = false -> h_lstat p s = Some st -> st_dir st = true -> ok = false /\ s' = s).
Proof.
  intros H. destruct (rm_path_run k r p s H) as (ok & o & s' & E & K & Hok). exists ok, o, s'. split_and!; [done|apply K| | |].
  - intros d n f Hf. destruct (h_entry d n s') as [g|] eqn:Hg; [left; rewrite <- Hf; symmetry; by apply (sh_entry _ _ (proj1 K))|].
    right. by eapply (proj2 K).
  - intros Ht. destruct (Hok Ht) as (Hg & d & n & Hp & Hn). split; [done|]. intros st g m Hst. eapply tree_gone; [exact K| |exact Hn]. by apply (lstat_law p).
  - intros st -> Hst Hd. destruct k; cbn [rm_path] in E; rewrite Hst, Hd in E; by injection E as <- _ <-.
Qed.

End proofs.

(** ** A host: the directory d with the file d/x in it, and the file e, which cannot be removed *)

Definition the_dir : path := [100].
Definition the_file : path := [100; 47; 120].
Definition the_other : path := [101].

Inductive tree_state : Type := Full | Emptied | Gone.

Definition file_stat (i : Z) (d : bool) : stat_t := Stat (0, i) d 0 1 0 0.

Definition tree_lstat (p : path) (s : tree_state) : option stat_t :=
  if decide (p = the_dir) then match s with Gone => None | _ => Some (file_stat 1 true) end
  else if decide (p = the_file) then match s with Full => Some (file_stat 2 false) | _ => None end
  else if decide (p = the_other) then Some (file_stat 3 false) else None.

#[local] Instance tree_fs : HostFs := {|
  h_state := tree_state; h_stat := tree_lstat; h_lstat := tree_lstat;
  h_access _ _ := false; h_open_read _ _ := None; h_open_write _ _ _ := None; h_read _ _ _ _ := None; h_write _ _ _ _ := None;
  h_rename _ _ _ := inl OtherError;
  h_unlink p s := match s with Full => if decide (p = the_file) then Some Emptied else None | _ => None end;
  h_rmdir p s := match s with Emptied => if decide (p = the_dir) then Some Gone else None | _ => None end;
  h_readdir p s :=
    if decide (p = the_dir) then
      match s with Full => Some [chars "."; chars ".."; [120]] | Emptied => Some [chars "."; chars ".."] | Gone => None end
    else None;
  h_error _ := []; h_data _ _ := []; h_regular _ _ := false |}.

#[local] Instance tree_dirs : Directories (fs := tree_fs) := {|
  h_entry d n s :=
    if decide (d = (0, 0) /\ n = the_dir) then match s with Gone => None | _ => Some (0, 1) end
    else if decide (d = (0, 1) /\ n = [120]) then match s with Full => Some (0, 2) | _ => None end
    else if decide (d = (0, 0) /\ n = the_other) then Some (0, 3) else None;
  h_place p s :=
    if decide (p = the_dir) then Some ((0, 0), the_dir)
    else if decide (p = the_file) then match s with Gone => None | _ => Some ((0, 1), [120]) end
    else if decide (p = the_other) then Some ((0, 0), the_other) else None |}.

(** The cases of a path, of an entry and of the state. *)
Ltac tree_cases := repeat match goal with
  | H : context [decide _] |- _ => case_decide
  | |- context [decide _] => case_decide
  | s : h_state |- _ => destruct s
  | H : _ /\ _ |- _ => destruct H
  | H : Some _ = Some _ |- _ => injection H as ?
  | _ => progress (cbn in *; subst)
  end; try done; try congruence.

Lemma tree_shrinks s s' : (s, s') = (Full, Emptied) \/ (s, s') = (Emptied, Gone) -> shrinks (fs := tree_fs) s s'.
Proof.
  intros H. split.
  - intros d n f. destruct H as [[= -> ->]|[= -> ->]]; tree_cases.
  - intros p x. destruct H as [[= -> ->]|[= -> ->]]; tree_cases.
  - intros p st. destruct H as [[= -> ->]|[= -> ->]]; cbn; unfold tree_lstat; tree_cases; intros [= <-]; eauto.
  - intros p l. destruct H as [[= -> ->]|[= -> ->]]; tree_cases; intros [= <-]; eexists; (split; [done|]); set_solver.
Qed.

#[local] Instance tree_laws : RmLaws.
Proof.
  split.
  - intros p s st d n. cbn. unfold tree_lstat. tree_cases; intros; simplify_eq; naive_solver.
  - intros p s st n. cbn. unfold tree_lstat. tree_cases; intros; simplify_eq; naive_solver.
  - intros p s st l name Hst _ Hl Hn Hdot _. cbn in Hl. destruct (decide (p = the_dir)) as [->|]; [|done].
    assert (name = [120] /\ s = Full) as [-> ->]; [|cbn in Hst; by injection Hst as <-].
    clear Hst. destruct s; [| |done]; injection Hl as <-; rewrite !elem_of_cons, elem_of_nil in Hn; destruct Hn as [->|[->|Hn]]; try done. by destruct Hn.
  - intros p s s' st Hst Hd. cbn in *. destruct s; [|done|done]. case_decide; [subst|done]. intros [= <-]. split; [done|]. exists (0, 1), [120]. split; [done|].
    split; [apply tree_shrinks; by left|]. split; [done|]. intros d' n' f Hne. cbn. tree_cases.
  - intros p s s'. cbn. destruct s; [done| |done]. case_decide; [subst|done]. intros [= <-]. split; [done|]. exists (0, 0), the_dir, (0, 1). split; [done|]. split; [done|].
    split; [intros m; cbn; tree_cases|]. split; [apply tree_shrinks; by right|]. split; [done|]. intros d' n' f Hne. cbn. tree_cases.
Qed.

Lemma demo_depth : depth Full 1 the_dir.
Proof.
  apply depth_dir; intros l name [= <-] Hn Hd; rewrite !elem_of_cons in Hn; destruct Hn as [->|[->|[->|[]%elem_of_nil]]]; try done.
  - cbn. lia.
  - apply depth_file. by intros st [= <-].
Qed.

Lemma rm_removes_witness :
  exists o s', rm_path 1 true the_dir Full = Some (true, o, s') /\ h_lstat the_dir s' = None /\
    h_entry (0, 0) the_other s' = Some (0, 3) /\ h_entry (0, 1) [120] s' = None.
Proof.
  destruct (rm_removes (laws := tree_laws) 1 true the_dir Full demo_depth) as (ok & o & s' & E & _ & Hkeep & Hok & _).
  assert (ok = true) as -> by (vm_compute in E; congruence). destruct (Hok eq_refl) as [Hg Ht].
  exists o, s'. split; [exact E|]. split; [exact Hg|]. split.
  - destruct (Hkeep (0, 0) the_other (0, 3) eq_refl) as [H|[H|(st & H & U)]]; [exact H|discriminate H|].
    injection H as <-. exfalso. assert (forall f, under Full (0, 1) f -> f <> (0, 0)) as Hu.
    { intros f Hf. induction Hf as [|g n h _ _ E2]; [discriminate|]. cbn in E2. tree_cases. }
    exact (Hu _ U eq_refl).
  - exact (Ht (file_stat 1 true) (0, 1) [120] eq_refl (under_here _ _)).
Defined.

End RmProofs.

Module LsProofs.
Import Ulib Ls.

(** ** custom_ls *)

(** A file name has no nul. *)
Definition name_ok (n : path) : Prop := Forall (fun c => 0 < c) n.
Definition before (a b : path) : Prop := strcmp a b <= 0.

Lemma hd_nonneg a : name_ok a -> 0 <= hd 0 a.
Proof. intros H. destruct H; cbn; lia. Qed.

Lemma before_total a b : name_ok a -> name_ok b -> strcmp a b > 0 -> before b a.
Proof.
  intros Ha. revert b. unfold before. induction Ha as [|x a Hx Ha IH]; intros b Hb; cbn [strcmp].
  - pose proof (hd_nonneg b Hb). lia.
  - destruct Hb as [|y b Hy Hb]; cbn [hd tl strcmp]; [lia|].
    destruct (Z.eqb_spec x y) as [->|Hne]; [rewrite Z.eqb_refl; by apply IH|]. intros H. destruct (Z.eqb_spec y x); lia.
Qed.

Lemma before_trans a b c : name_ok a -> name_ok b -> name_ok c -> before a b -> before b c -> before a c.
Proof.
  intros Ha. revert b c. unfold before. induction Ha as [|x a Hx Ha IH]; intros b c Hb Hc; cbn [strcmp].
  - pose proof (hd_nonneg c Hc). lia.
  - destruct Hb as [|y b Hy Hb]; cbn [hd tl strcmp]; [destruct (Z.eqb_spec x 0); lia|].
    destruct Hc as [|z c Hz Hc]; cbn [hd tl strcmp]; [destruct (Z.eqb_spec y 0); lia|].
    destruct (Z.eqb_spec x y) as [->|H1].
    + destruct (Z.eqb_spec y z) as [->|H2]; [by apply IH|done].
    + destruct (Z.eqb_spec y z) as [->|H2]; [destruct (Z.eqb_spec x z); [done|lia]|]. destruct (Z.eqb_spec x z); lia.
Qed.

Lemma before_refl a : before a a.
Proof. unfold before. induction a as [|x a IH]; cbn; [lia|]. by rewrite Z.eqb_refl. Qed.

(** One pass puts the first of the names to the front. *)
Lemma pass_spec x l :
  Forall name_ok (x :: l) -> let '(m, l') := pass x l in (x :: l) ≡ₚ m :: l' /\ before m x /\ Forall (before m) l'.
Proof.
  revert x. induction l as [|y l IH]; intros x Hok; [split_and!; [done|apply before_refl|constructor]|].
  apply Forall_cons in Hok as [Hx Hok]. apply Forall_cons in Hok as [Hy Hok]. cbn [pass]. rewrite Z.gtb_ltb. destruct (Z.ltb_spec 0 (strcmp x y)) as [H|H].
  - specialize (IH y ltac:(by constructor)). destruct (pass y l) as [m l']. destruct IH as (P & B & F).
    assert (Hm : name_ok m). { assert (m ∈ y :: l) as Hin by (rewrite P; set_solver). assert (Forall name_ok (y :: l)) as Hall by (by constructor). rewrite Forall_forall in Hall. by apply Hall. }
    assert (before m x) by (eapply (before_trans m y x); try done; apply before_total; [done..|lia]).
    split_and!; [|done|by constructor]. rewrite P. apply Permutation_swap.
  - specialize (IH x ltac:(by constructor)). destruct (pass x l) as [m l']. destruct IH as (P & B & F).
    assert (Hm : name_ok m). { assert (m ∈ x :: l) as Hin by (rewrite P; set_solver). assert (Forall name_ok (x :: l)) as Hall by (by constructor). rewrite Forall_forall in Hall. by apply Hall. }
    split_and!; [|done|constructor; [|done]].
    + rewrite Permutation_swap, P. apply Permutation_swap.
    + by eapply (before_trans m x y).
Qed.

Lemma sort_loop_spec fuel l :
  (length l <= fuel)%nat -> Forall name_ok l -> sort_loop fuel l ≡ₚ l /\ StronglySorted before (sort_loop fuel l).
Proof.
  revert l. induction fuel as [|fuel IH]; intros l Hf Hok; [destruct l; [split; constructor|cbn in Hf; lia]|].
  destruct l as [|x l]; [split; constructor|]. cbn [sort_loop]. pose proof (pass_spec x l Hok) as P. destruct (pass x l) as [m l']. destruct P as (P & _ & F).
  assert (Hok' : Forall name_ok (m :: l')) by (by rewrite <- P). apply Forall_cons in Hok' as [_ Hok'].
  assert (Hl : length (x :: l) = length (m :: l')) by (by rewrite P). destruct (IH l') as [P' S']; [cbn in *; lia|done|].
  split; [by rewrite P', P|]. constructor; [done|]. by rewrite P'.
Qed.

(** list_dir() prints each name that is to be listed once, in alphabetical order. *)
Theorem ls_sorted flag_all entries :
  Forall name_ok entries ->
  listed flag_all entries ≡ₚ filter (fun name => flag_all = true \/ hd 0 name <> 46) entries /\ StronglySorted before (listed flag_all entries).
Proof. intros H. apply sort_loop_spec; [done|]. apply Forall_forall. intros n [_ Hn]%list_elem_of_filter. rewrite Forall_forall in H. by apply H. Qed.

End LsProofs.
